(* ===== verification/_CoqProject ===== *)
-Q . S2P
Prelude.v
Sha256.v
Serialization.v
Common.v
Fixed64.v
Transaction.v
Merkle.v
AuxPow.v
Block.v
Typed.v
AccountState.v
Store.v
StoreLoop.v
Utxo.v
Difficulty.v
MedianTime.v
Vm.v
Debugger.v
Address.v
Events.v
PubKey.v
Sm3.v
Curve.v
Signing.v
Expressions.v
Contract.v
Message.v
Link.v
Peers.v
Validator.v
Wallet.v
Sdk.v
WalletCoins.v
Transfer.v
Signed.v
WalletFile.v
Committee.v
TxPool.v
Blockchain.v
BlockTree.v
BestChain.v
ChainSelection.v
Ledger.v
Startup.v
Pow.v
Mining.v
Node.v
Handlers.v
Sync.v
Network.v
Handshake.v
Requests.v
Rpc.v
Rest.v
Routing.v
Answers.v
Miner.v
Websocket.v
Push.v
