(* ===== verification/Prelude.v ===== *)
(** * A proof-of-work blockchain node, verified

    The repository is a Go node of a UTXO blockchain with several assets,
    proof of work (its own or merged with a Bitcoin-like parent chain) and a
    small stack machine that checks signatures.  This library models its core
    and proves the properties that make it work.

    ** The program's parts and how they interact

    Bytes enter through [common/serialization]; everything that is stored or
    hashed is built with it.  Transactions ([core/transaction]) refer to outputs
    of earlier ones and carry programs; blocks ([core/ledger/block.go]) hold
    transactions under a Merkle root ([crypto/merkleTree.go]) and a header with
    a proof of work ([core/auxpow], [core/ledger/difficulty.go]).  A transaction
    passes the sanity and context checks ([core/ledger/txValidator.go]) - which
    run its programs on the virtual machine ([vm], [core/validation],
    [core/contract]) and ask the store - before it enters the pool
    ([net/node/transactionPool.go]); a block passes [blockValidator.go] before
    it is written to the chain store ([core/store/ChainStore]), which keeps two
    indexes of unspent outputs and can take the last block back.  The chain
    ([core/ledger/blockchain.go]) keeps the block tree, follows the branch with
    the most work and parks orphans; the miner ([consensus/pow]) builds blocks
    from the pool; peers ([net/node], [net/message]) shake hands, announce,
    request and relay transactions, headers and blocks, and every block they
    deliver goes through the chain.  A wallet ([account], [sdk]) follows the
    chain, keeps its keys and coins in an encrypted file and builds signed
    transfers with the signatures of [crypto]; the RPC, HTTP and websocket
    interfaces ([net/httpjsonrpc], [net/httprestful], [net/httpwebsocket]) answer
    queries from the chain and pool, hand transactions, blocks and merged mining
    work to them and push new blocks to subscribers ([events]).

    ** Files

    - [Prelude]: machine integers ([wrapU], [wrapS]), bytes, the error type, the
      tactics and lemmas the components share.
    - [Sha256]: SHA-256 and SHA-1 of the Go library, executable.
    - [Serialization]: [common/serialization/serialize.go]; readers are a state
      monad over the two kinds of reader the code passes.
    - [Common], [Fixed64]: [common/uint256.go], [uint160.go], [common.go],
      [compactUint.go]; the 64-bit amounts of [Fixed64.go] and their text form.
    - [Transaction]: [core/transaction] with its payloads, [core/asset],
      [core/code], [core/contract/program/Program.go].
    - [Merkle], [AuxPow], [Block]: [crypto/merkleTree.go], [core/auxpow],
      [core/ledger/blockdata.go], [header.go] and [block.go].  [Typed]: what the
      readers of these leave is in the range of its Go type.  [AccountState]:
      [core/account/accountstate.go].
    - [Store]: [core/store/ChainStore] over the key-value interface [IStore] of
      [core/store/store.go]; the record [ChainStore] is the Go struct of that
      name without locks and channels.  [StoreLoop]: the goroutine that owns it,
      as a transition system over its channels, and the one writer that goes
      around them.
    - [Utxo]: the specification of the unspent outputs as a set, and the proof
      that the stored index implements it.
    - [Difficulty], [MedianTime]: [core/ledger/difficulty.go], the node and work
      functions of [blockchain.go], [mediantime.go].
    - [Vm]: the package [vm] - stacks, reader, engine, opcode table; integers and
      byte arrays have identities, because arithmetic works in place.
      [Expressions]: what arithmetic scripts compute.  [Debugger]: stepping and
      helper functions nothing calls.
    - [Contract]: [core/contract], its program builder and signing context, and
      [core/validation/validation.go].
    - [Validator]: [core/ledger/txValidator.go] and [blockValidator.go], against
      the class [Ledger], which [store_ledger] instantiates with the chain store.
    - [Wallet], [Sdk]: [account] and [crypto/helper.go] as operations of the monad
      [wM] on the record [Client], with the wallet file as a record; transfers of
      [sdk/sdk.go].  [WalletCoins], [Transfer], [WalletFile]: their theorems.
    - [TxPool]: [net/node/transactionPool.go] and the rollback of
      [consensus/pow/pow.go]; [pool_step] is one operation, run to its end on the
      ledger of its time; [append_checks] and [append_adds] are the two halves of
      an addition that other goroutines can get between.
    - [Address], [PubKey]: addresses of [common/uint160.go]; public keys and
      points of [crypto/crypto.go] and [crypto/encode.go].
    - [Sm3], [Curve], [Signing]: [crypto/sm3]; modular inverses and the point
      arithmetic of Go's [CurveParams], with the class [CurveLaws]; [crypto/sm2],
      [crypto/p256r1], [crypto/util] and the rest of [crypto.go], and their use by
      [vm/ECDsaCrypto.go].  [Signed]: the accounts of a wallet sign.
    - [Events]: [events], [errors] and [net/node/eventNotice.go].
    - [Committee]: what is left of a consensus by book keepers in [core/ledger],
      [core/store] and [core/contract].
    - [Blockchain]: [core/ledger/blockchain.go]; the record [Blockchain] is the
      Go struct with the nodes in a heap, an operation is a function of the
      monad [bcM].  [BlockTree], [BestChain], [ChainSelection]: the invariants of
      the tree and of the best chain, and the theorems on them.
    - [Ledger], [Startup]: [core/ledger/ledger.go], the start of the chain on a
      new or used store, the queries of the owner index.
    - [Pow], [Mining]: [consensus/pow] and the theorems on it.  [Miner]: the
      mining loops and the events of the store, on the state of [Rpc].
    - [Message]: [net/message] - headers, payloads, constructors, both
      directions of the wire format.  [Link]: the receive loop of
      [net/node/link.go].  [Peers]: the tables of [net/node].
    - [Node], [Handlers], [Sync]: [net/node] and the [Handle] methods of
      [net/message] as operations of the monad [netM] on a [world]: the nodes in
      a heap, the tables of the local node, the chain and the bytes written.
      [Network]: the state machine of a connection; [Handshake]: two nodes;
      [Requests]: answers, relaying, synchronisation, hostile messages.
    - [Rpc], [Rest]: the methods of [net/httpjsonrpc] and the handlers, paths and
      router of [net/httprestful] as operations of the monad [rpcM] on the record
      [rpc] (node, wallet, mining service, blocks handed out).  [Routing]: which
      handler answers a path.  [Answers]: what is answered.  [Websocket]: the
      sessions, requests and access tokens of [net/httpwebsocket].  [Push]: what
      is pushed to clients, the notice server, access to the path interface.

    ** How Go is modelled

    A w-bit integer is a [Z] with its wrap-around written out; a byte string is
    a list of [Z].  A function that returns a value and an error returns both,
    because the code often goes on with the value after an error.  A run-time
    panic (index out of range, nil dereference, division by zero) is [None], or
    [Panic] in the machine, where [Unmodelled] marks what the model leaves out.
    A Go map is a [gmap]; where the code enumerates one in Go's arbitrary order,
    the result does not depend on the order or the comment says how it may.
    Cached hashes are fields, as in the code.  Error values keep their message.

    ** Parameters

    Signature verification by the machine ([ICrypto], with no law assumed about
    it; [Signing] gives the instance of the code), RIPEMD-160,
    the key-value database (class [IStore] with the laws [IStoreLaws] of a write
    batch, met by the map instance), Base58 ([IBase58] with its round trip),
    AES ([IAes] with its round trip), that the points of a curve form a group of
    prime order ([CurveLaws], met by a small curve in the arithmetic of the
    code), the configuration file, clocks, random numbers, what a dial and the
    OAuth server return, what other goroutines do between the steps of a miner,
    and the order in which Go enumerates a map or a permutation is drawn.  Every
    theorem that assumes a law has a witness at a concrete instance.

    ** What the theorems show

    - Authorisation: data signed under single-signature contracts verifies
      exactly when every signature does; an m-of-n contract only when each
      signature is valid under a key of its own, and always then when no
      signature is valid under two keys; the signing context
      completes at the m-th signature; a signature made with a private key
      verifies under its public key on both curves, so the accounts of a wallet
      sign what the machine accepts; the machine always ends; the script of an
      arithmetic expression computes its value, and arithmetic on a copy changes
      the original.  A FAULT without
      an error is dropped by the engine, so empty parameters verify.
    - Ledger state: persisting a block implements the specified effect on the
      set of unspent outputs, rolling it back restores the set, a saved block is
      found again, and saving and rolling back leave the other entries of the
      store alone.  The goroutine of the store serialises all writers of the
      database and the heights; only the list of headers is written around it,
      and the rest does not depend on that list.  [Close] never returns.
    - Admission: what accepted transactions and blocks guarantee; value is
      conserved up to 64-bit overflow, and is not beyond it; the pool never holds
      two transactions that spend the same output while its operations run one
      at a time and saved blocks do not conflict with it; it can when two
      additions interleave, or when a conflicting block is taken back.
    - The chain: no known block has more work than the best chain, the block
      index is a forest, reorganisation splits at the last common block, pruning
      keeps what it must, orphans are processed, locators are bounded; a restart
      rebuilds the chain from the store.
    - Mining: a generated and solved block passes the sanity and context checks
      of the block and the context checks of its transactions; the solver finds
      the first nonce, and never returns when there is none; discrete mining
      returns with the last of the blocks asked for, each accepted and broadcast,
      whatever other goroutines do; a persisted block leaves the pool.
    - Network: messages arrive as they were sent however the stream is cut;
      a connection is established only by the handshake, and two nodes that
      connect complete it; requests for blocks are answered with the next part
      of the chain; relayed data reaches exactly the other neighbours; the cache
      of identifiers is a bounded queue.  What a hostile peer can do: panics of
      malformed and of ordinary messages, and checks whose results are dropped.
    - Wallet: a wallet that catches up holds exactly the unspent outputs that pay
      its contracts; a transfer pays what was asked for, gives the change back,
      leaves exactly the fee and verifies, and fails only for lack of coins; a
      wallet that was created or recovered and changed by operations that
      succeeded, deletions included (of what the file has at most once), is opened
      again from its file as the same wallet, up to leading zeros of its private
      keys and the main account of a recovered one, and only with its password.
    - Interfaces: the two interfaces accept the same transactions and describe
      blocks identically where the store has them under their own hashes
      ([hash_keyed], kept by saving and rolling back); a transaction sent reaches the pool and the neighbours;
      work handed out for merged mining comes back with its block; every path is
      answered by its own handler with its arguments, whatever the order of the
      routes, except names of assets with two beginnings, which are answered by
      other handlers; websocket sessions are consistent, requests are answered to their
      session, silent ones are closed; blocks are pushed to those who asked;
      access tokens are checked except on one path; an event reaches exactly the
      subscriptions that are alive.
    - Consensus arithmetic: the proof-of-work check, the retarget rule, compact
      targets, the median of past timestamps and the adjusted clock.
    - Commitments: Merkle roots and branches bind their leaves up to collisions,
      which for roots are found among the inner nodes of the two trees.
    - Formats: transactions, headers, blocks (full and trimmed), auxiliary proofs
      of work, variable-length integers and strings, amounts and input keys
      round trip, with the exceptions the code has.  Whatever bytes arrive, the
      fields of a parsed transaction or block are in the range of their types, and
      a transaction parsed without an error is read back from its serialisation.
      Hashing with SM3 piece by piece gives the hash of the whole, in the
      compression function of the code, which one example compares with the
      standard.

    ** Bounds and fuel

    The Merkle construction runs with the number of hashes as fuel, since a
    level at least halves rounding up.  A step of the machine reads at least one
    byte per turn, so it runs with one more than the remaining bytes; execution
    runs for 1203 turns, which [Vm.vm_terminates] shows to be enough for the
    limit of 1200 steps set by the validator.  Key counting over a multi-signature
    script runs with the length of the script.  Walks along parents run with
    the size of the heap of nodes, which has no cycles by the forest invariant;
    orphans are processed with twice their number plus two; a locator takes one
    turn per height at most (for heights below 2^31); the miner's loops take
    their turns as an argument of the theorems, which say how many are enough;
    the loops of signing take the random numbers they draw; modular inverses run
    with a fuel above the bits of the modulus; the receive loop runs
    with one more than the bytes of a read, of which each turn takes one; the
    fetching of header blocks runs with the number of headers.  Catching up with
    the chain takes one turn per block.  Wallet, selection of coins and routing
    are structural.

    ** Not modelled

    Writes of the machine to words or to a byte array that another item shares
    (they end in [Unmodelled], since they depend on capacities the run time
    chooses); input/output errors of the database; locks and goroutines other
    than those of [StoreLoop], [Miner], [Events] and the two additions at the end
    of [TxPool] (every operation runs to its end, so that invariants such as those
    of the pool and of the websocket sessions are of the states between
    operations, and asynchronous sends are recorded when they are started); sockets, TLS
    and timers; the assembly of the curve P-256; JSON and HTTP encoding, the node
    page; the ZeroMQ socket of the miner; the command line tools, which are
    input/output around calls into the parts above; log files.  These are
    input/output, or code outside the repository, or depend on the run time.
 *)

From stdpp Require Export base option list gmap strings numbers.
From Stdlib Require Export ZArith Lia Sorted.
From Hammer Require Export Tactics.

Open Scope Z_scope.

(** * Machine integers *)

(** A [uintW] conversion: Go keeps the low [w] bits. *)
Definition wrapU (w x : Z) : Z := x mod 2 ^ w.
(** An [intW] conversion: the low [w] bits read as two's complement. *)
Definition wrapS (w x : Z) : Z := (x + 2 ^ (w - 1)) mod 2 ^ w - 2 ^ (w - 1).

Abbreviation uint8 := (wrapU 8).
Abbreviation uint16 := (wrapU 16).
Abbreviation uint32 := (wrapU 32).
Abbreviation uint64 := (wrapU 64).
Abbreviation int8 := (wrapS 8).
Abbreviation int16 := (wrapS 16).
Abbreviation int32 := (wrapS 32).
Abbreviation int64 := (wrapS 64).

Abbreviation inU w x := (0 <= x < 2 ^ w).
Abbreviation inS w x := (- 2 ^ (w - 1) <= x < 2 ^ (w - 1)).

Lemma wrapU_range w x : 0 <= w -> inU w (wrapU w x).
Proof. intros. apply Z.mod_pos_bound. lia. Qed.

Lemma wrapU_id w x : inU w x -> wrapU w x = x.
Proof. apply Z.mod_small. Qed.

Lemma pow2_half w : 0 < w -> 2 ^ w = 2 * 2 ^ (w - 1).
Proof. intros. rewrite <- Z.pow_succ_r by lia. f_equal. lia. Qed.

Lemma wrapS_range w x : 0 < w -> inS w (wrapS w x).
Proof.
  intros Hw. unfold wrapS. pose proof (pow2_half w Hw) as E.
  assert (0 < 2 ^ (w - 1)) by (apply Z.pow_pos_nonneg; lia).
  pose proof (Z.mod_pos_bound (x + 2 ^ (w - 1)) (2 ^ w)). lia.
Qed.

Lemma wrapS_id w x : 0 < w -> inS w x -> wrapS w x = x.
Proof.
  intros Hw Hx. unfold wrapS. pose proof (pow2_half w Hw).
  rewrite Z.mod_small; lia.
Qed.

Lemma wrapS_wrapU w x : 0 < w -> wrapS w (wrapU w x) = wrapS w x.
Proof.
  intros. unfold wrapS, wrapU. rewrite Zplus_mod_idemp_l. reflexivity.
Qed.

(** A signed value survives the cast to unsigned and back. *)
Lemma wrapS_of_U w x : 0 < w -> inS w x -> wrapS w (wrapU w x) = x.
Proof. intros. rewrite wrapS_wrapU, wrapS_id; lia. Qed.

(** A wrapped value is only determined modulo [2^w]. *)
Lemma wrapS_cong w x y : x mod 2 ^ w = y mod 2 ^ w -> wrapS w x = wrapS w y.
Proof.
  intros H. unfold wrapS. rewrite <- (Zplus_mod_idemp_l x), H, Zplus_mod_idemp_l. done.
Qed.

Lemma wrapS_mod w x : wrapS w x mod 2 ^ w = x mod 2 ^ w.
Proof.
  unfold wrapS. rewrite Zminus_mod_idemp_l. f_equal. lia.
Qed.

Lemma wrapS_add w x y : wrapS w (wrapS w x + y) = wrapS w (x + y).
Proof. apply wrapS_cong. rewrite <- Zplus_mod_idemp_l, wrapS_mod, Zplus_mod_idemp_l. done. Qed.

Lemma wrapS_sub w x y : wrapS w (wrapS w x - wrapS w y) = wrapS w (x - y).
Proof.
  apply wrapS_cong. rewrite Zminus_mod, !wrapS_mod, <- Zminus_mod. done.
Qed.

(** * Sorting

    [sort.Sort] of the Go library: the modelled callers sort by a total
    preorder, given as a boolean comparison [le]; on elements that are equal
    only when identical the result is determined. *)

Section Sorting.
Context {A : Type} (le : A -> A -> bool).

Fixpoint insert_by (x : A) (l : list A) : list A :=
  match l with
  | [] => [x]
  | y :: l => if le x y then x :: y :: l else y :: insert_by x l
  end.
Definition sort_by (l : list A) : list A := foldr insert_by [] l.

Lemma insert_by_perm x l : insert_by x l ≡ₚ x :: l.
Proof.
  induction l as [|y l IH]; [done|]. simpl. case_match; [done|].
  rewrite IH. apply Permutation_swap.
Qed.

Lemma sort_by_perm l : sort_by l ≡ₚ l.
Proof.
  induction l as [|x l IH]; [done|]. simpl. rewrite insert_by_perm. by rewrite IH.
Qed.

Context (P : A -> Prop).
Context (total : forall x y, P x -> P y -> le x y = false -> le y x = true).
Context (trans : forall x y z, P x -> P y -> P z -> le x y = true -> le y z = true -> le x z = true).

Lemma insert_by_sorted x l :
  P x -> Forall P l -> StronglySorted (fun a b => le a b = true) l ->
  StronglySorted (fun a b => le a b = true) (insert_by x l).
Proof.
  intros Hx Hl Hs. induction Hs as [|y l Hs IH Hy]; simpl.
  - repeat constructor.
  - apply list.Forall_cons in Hl as [Py Pl]. case_match eqn:E.
    + constructor; [by constructor|]. constructor; [done|].
      apply list.Forall_forall. intros z Hz.
      apply (trans x y z); [done|done| |done|].
      * by apply (proj1 (list.Forall_forall _ _) Pl).
      * by apply (proj1 (list.Forall_forall _ _) Hy).
    + constructor; [by apply IH|]. rewrite insert_by_perm. constructor; [by apply total|done].
Qed.

Lemma sort_by_sorted l :
  Forall P l -> StronglySorted (fun a b => le a b = true) (sort_by l).
Proof.
  induction 1 as [|x l Hx Hl IH]; simpl; [constructor|].
  apply insert_by_sorted; [done| |done]. by rewrite sort_by_perm.
Qed.
End Sorting.

(** * Bytes *)

Abbreviation bytes := (list Z).
Definition wf_byte (b : Z) : Prop := 0 <= b < 256.
Definition wf_bytes (l : bytes) : Prop := Forall wf_byte l.

#[global] Instance wf_byte_dec b : Decision (wf_byte b).
Proof. unfold wf_byte. apply _. Defined.
#[global] Instance wf_bytes_dec l : Decision (wf_bytes l).
Proof. unfold wf_bytes. apply _. Defined.

(** [binary.LittleEndian.PutUintN]: the low [8*n] bits, least byte first. *)
Fixpoint le_bytes (n : nat) (v : Z) : bytes :=
  match n with
  | O => []
  | S n => v mod 256 :: le_bytes n (v / 256)
  end.

(** [binary.LittleEndian.UintN] of a slice. *)
Fixpoint le_val (l : bytes) : Z :=
  match l with
  | [] => 0
  | b :: l => b + 256 * le_val l
  end.

(** [binary.BigEndian] and [big.Int.SetBytes]. *)
Definition be_val (l : bytes) : Z := le_val (reverse l).
Definition be_bytes (n : nat) (v : Z) : bytes := reverse (le_bytes n v).

Lemma length_le_bytes n v : length (le_bytes n v) = n.
Proof. revert v. induction n; simpl; auto. Qed.

Lemma length_be_bytes n v : length (be_bytes n v) = n.
Proof. unfold be_bytes. rewrite length_reverse. apply length_le_bytes. Qed.

Lemma wf_le_bytes n v : wf_bytes (le_bytes n v).
Proof.
  revert v. induction n as [|n IH]; intros v; [constructor|].
  constructor; [apply Z.mod_pos_bound; lia | apply IH].
Qed.

Lemma wf_be_bytes n v : wf_bytes (be_bytes n v).
Proof. apply Forall_reverse, wf_le_bytes. Qed.

Lemma pow256_succ n : 256 ^ Z.of_nat (S n) = 256 * 256 ^ Z.of_nat n.
Proof. rewrite Nat2Z.inj_succ, Z.pow_succ_r; lia. Qed.

Lemma le_val_le_bytes n v : le_val (le_bytes n v) = v mod 256 ^ Z.of_nat n.
Proof.
  revert v. induction n as [|n IH]; intros v.
  - simpl. rewrite Z.mod_1_r. reflexivity.
  - simpl le_bytes. simpl le_val. rewrite IH, pow256_succ.
    rewrite Z.rem_mul_r; lia.
Qed.

Lemma le_val_bound l : wf_bytes l -> 0 <= le_val l < 256 ^ Z.of_nat (length l).
Proof.
  induction 1 as [|b l Hb _ IH]; simpl length; [simpl; lia|].
  rewrite pow256_succ. simpl. unfold wf_byte in Hb. lia.
Qed.

Lemma le_bytes_le_val l : wf_bytes l -> le_bytes (length l) (le_val l) = l.
Proof.
  induction 1 as [|b l Hb Hl IH]; [done|]. simpl.
  unfold wf_byte in Hb.
  rewrite (Z.mul_comm 256), Z.mod_add, Z.div_add by lia.
  rewrite Z.mod_small, Z.div_small by lia. rewrite Z.add_0_l, IH. reflexivity.
Qed.

Lemma le_val_inj l l' :
  wf_bytes l -> wf_bytes l' -> length l = length l' -> le_val l = le_val l' -> l = l'.
Proof.
  intros W W' E V. rewrite <- (le_bytes_le_val l), <- (le_bytes_le_val l') by done.
  congruence.
Qed.

Lemma le_val_app l l' : le_val (l ++ l') = le_val l + 256 ^ Z.of_nat (length l) * le_val l'.
Proof.
  induction l as [|b l IH]; cbn [app le_val length]; [cbn; lia|].
  rewrite IH, pow256_succ. lia.
Qed.

Lemma le_val_zeros n : le_val (replicate n 0) = 0.
Proof. induction n; simpl; lia. Qed.

Lemma be_val_be_bytes n v : be_val (be_bytes n v) = v mod 256 ^ Z.of_nat n.
Proof. unfold be_val, be_bytes. rewrite reverse_involutive. apply le_val_le_bytes. Qed.

(** * Errors, readers and panics *)

(** The [error] values the modelled code creates or tests. *)
Inductive error :=
  | EOF                       (* io.EOF *)
  | UnexpectedEOF             (* io.ErrUnexpectedEOF *)
  | ErrRange                  (* serialization.ErrRange *)
  | ErrEof                    (* serialization.ErrEof *)
  | ErrDBNotFound             (* leveldb: not found *)
  | NewError (msg : string).  (* errors.New / NewDetailErr / fmt.Errorf *)

(** A Go [error] result: [None] is [nil]. *)
Abbreviation err := (option error).

(** [err != nil]. *)
Definition is_err (e : err) : bool := match e with Some _ => true | None => false end.

#[global] Instance error_eq_dec : EqDecision error.
Proof. solve_decision. Defined.

(** The readers the repository deserialises from are [bytes.Reader] (database
    values) and [bytes.Buffer] (network messages); they differ in what a read
    of zero bytes at the end of the input returns. *)
Inductive reader_kind := BytesReader | BytesBuffer.
#[global] Instance reader_kind_eq_dec : EqDecision reader_kind.
Proof. solve_decision. Defined.
Record reader := mkReader { rkind : reader_kind; rdata : bytes }.

(** A computation on the current reader: [None] is a Go panic. *)
Definition rd (A : Type) : Type := reader -> option (A * reader).

#[global] Instance rd_ret : MRet rd := fun A a r => Some (a, r).
#[global] Instance rd_bind : MBind rd := fun A B f m r =>
  match m r with
  | Some (a, r') => f a r'
  | None => None
  end.

Definition rd_panic {A} : rd A := fun _ => None.

Declare Scope go_scope.
Delimit Scope go_scope with go.
(** [if err != nil { return v, err }] followed by the rest of the body. *)
Notation "'iferr' e 'return' v ;; k" :=
  (match e with Some _ => mret (v, e) | None => k end)
  (at level 100, e at level 99, v at level 99, k at level 200) : go_scope.
Open Scope go_scope.

Lemma rd_bind_Some {A B} (m : rd A) (f : A -> rd B) r a r' :
  m r = Some (a, r') -> (m ≫= f) r = f a r'.
Proof. intros H. unfold mbind, rd_bind. rewrite H. reflexivity. Qed.

Lemma rd_bind_None {A B} (m : rd A) (f : A -> rd B) r :
  m r = None -> (m ≫= f) r = None.
Proof. intros H. unfold mbind, rd_bind. rewrite H. reflexivity. Qed.

(** [r.Read(p)] with [len(p) = n]: the bytes read (at most [n]) and the error. *)
Definition Read (n : Z) : rd (bytes * err) := fun r =>
  match rdata r with
  | [] =>
      let e := match rkind r with
               | BytesBuffer => if n =? 0 then None else Some EOF
               | BytesReader => Some EOF
               end in
      Some (([], e), r)
  | d =>
      let k := Z.to_nat (Z.min n (Z.of_nat (length d))) in
      Some ((take k d, None), mkReader (rkind r) (drop k d))
  end.

(** [io.ReadFull(r, p)] with [len(p) = n >= 1]. *)
Definition ReadFull (n : Z) : rd (bytes * err) := fun r =>
  let d := rdata r in
  let k := Z.to_nat (Z.min n (Z.of_nat (length d))) in
  let e := if Z.of_nat (length d) =? 0 then Some EOF
           else if Z.of_nat (length d) <? n then Some UnexpectedEOF else None in
  Some ((take k d, e), mkReader (rkind r) (drop k d)).

(** The buffer [make([]byte, n)] after [got] was read into it. *)
Definition fill (n : Z) (got : bytes) : bytes :=
  got ++ replicate (Z.to_nat n - length got) 0.

(** [runtime.maxAlloc] of a 64-bit Go runtime: [make] panics beyond it. *)
Definition maxAlloc : Z := 2 ^ 48.
Definition make_ok (elem len : Z) : bool := elem * len <=? maxAlloc.

Section ReadLemmas.
Implicit Types (k : reader_kind) (l rest : bytes).

Lemma Read_app k l rest n :
  Z.of_nat (length l) = n -> l <> [] ->
  Read n (mkReader k (l ++ rest)) = Some ((l, None), mkReader k rest).
Proof.
  intros <- Hl. unfold Read. cbn [rdata rkind].
  destruct (l ++ rest) eqn:E; [destruct l; done|]. rewrite <- E.
  rewrite Z.min_l by (rewrite length_app; lia).
  rewrite Nat2Z.id, take_app_length, drop_app_length. reflexivity.
Qed.

Lemma ReadFull_app k l rest n :
  Z.of_nat (length l) = n -> l <> [] ->
  ReadFull n (mkReader k (l ++ rest)) = Some ((l, None), mkReader k rest).
Proof.
  intros <- Hl. unfold ReadFull. cbn [rdata rkind].
  rewrite Z.min_l by (rewrite length_app; lia).
  rewrite Nat2Z.id, take_app_length, drop_app_length.
  assert (0 < length l)%nat by (destruct l; simpl; [done|lia]).
  rewrite length_app.
  destruct (Z.eqb_spec (Z.of_nat (length l + length rest)) 0); [lia|].
  destruct (Z.ltb_spec (Z.of_nat (length l + length rest)) (Z.of_nat (length l))); [lia|].
  reflexivity.
Qed.

Lemma fill_full n l : Z.of_nat (length l) = n -> fill n l = l.
Proof.
  intros <-. unfold fill. rewrite Nat2Z.id, Nat.sub_diag. apply app_nil_r.
Qed.
End ReadLemmas.

(** Linear arithmetic with [/] and [mod] by constants. *)
Ltac zlia := Z.div_mod_to_equations; lia.

(** A closed decidable statement, by evaluation. *)
Ltac by_decision := apply (bool_decide_unpack _); vm_compute; exact I.

Create HintDb dna.
#[export] Hint Resolve wf_le_bytes wf_be_bytes length_le_bytes length_be_bytes : dna.
