(* ===== verification/Sha256.v ===== *)
(** SHA-256 as the Go standard library computes it ([crypto/sha256.Sum256]),
    written from FIPS 180-4, so that every hash of the program (transaction,
    block, Merkle and auxiliary proof-of-work hashes) evaluates on concrete
    inputs.  The only facts the development uses about it are the length and
    well-formedness of a digest. *)

From S2P Require Import Prelude.

Definition mask32 : Z := 4294967295.
Definition rotr (x n : Z) : Z :=
  Z.lor (Z.shiftr x n) (Z.land (Z.shiftl x (32 - n)) mask32).
Definition xor3 (a b c : Z) : Z := Z.lxor a (Z.lxor b c).

(** The constants of FIPS 180-4, from their definition: the first 32 bits of
    the fractional parts of the cube and square roots of the first primes. *)
Fixpoint cube_root_bits (bits : nat) (n acc : Z) : Z :=
  match bits with
  | O => acc
  | S bits =>
      let r := acc + 2 ^ Z.of_nat bits in
      cube_root_bits bits n (if r * r * r <=? n then r else acc)
  end.
Definition primes (n : nat) : list Z :=
  filter (fun p : Z => forallb (fun d : nat => negb (p mod Z.of_nat d =? 0)) (seq 2 (Z.to_nat p - 2)) = true)
    (map Z.of_nat (seq 2 n)).

Definition sha_k : list Z :=
  Eval vm_compute in map (fun p => cube_root_bits 40 (p * 2 ^ 96) 0 mod 2 ^ 32) (primes 310).
Definition sha_init : list Z :=
  Eval vm_compute in map (fun p => Z.sqrt (p * 2 ^ 64) mod 2 ^ 32) (primes 18).

(** The message schedule, most recent word first. *)
Fixpoint schedule (n : nat) (ws : list Z) : list Z :=
  match n with
  | O => ws
  | S n =>
      let w2 := nth 1 ws 0 in
      let w15 := nth 14 ws 0 in
      let s0 := xor3 (rotr w15 7) (rotr w15 18) (Z.shiftr w15 3) in
      let s1 := xor3 (rotr w2 17) (rotr w2 19) (Z.shiftr w2 10) in
      schedule n (uint32 (s1 + nth 6 ws 0 + s0 + nth 15 ws 0) :: ws)
  end.

Fixpoint rounds (kws : list (Z * Z)) (h : list Z) : list Z :=
  match kws, h with
  | (k, w) :: kws, [a; b; c; d; e; f; g; h0] =>
      let s1 := xor3 (rotr e 6) (rotr e 11) (rotr e 25) in
      let ch := Z.lxor (Z.land e f) (Z.land (Z.lxor e mask32) g) in
      let t1 := h0 + s1 + ch + k + w in
      let s0 := xor3 (rotr a 2) (rotr a 13) (rotr a 22) in
      let maj := xor3 (Z.land a b) (Z.land a c) (Z.land b c) in
      rounds kws [uint32 (t1 + s0 + maj); a; b; c; uint32 (d + t1); e; f; g]
  | _, h => h
  end.

Definition compress (h ws : list Z) : list Z :=
  let w := reverse (schedule 48 (reverse ws)) in
  zip_with (fun x y => uint32 (x + y)) h (rounds (zip sha_k w) h).

Fixpoint words (n : nat) (l : bytes) : list Z :=
  match n with
  | O => []
  | S n => be_val (take 4 l) :: words n (drop 4 l)
  end.

Fixpoint blocks (n : nat) (h : list Z) (l : bytes) : list Z :=
  match n with
  | O => h
  | S n => blocks n (compress h (words 16 (take 64 l))) (drop 64 l)
  end.

Definition pad (l : bytes) : bytes :=
  let n := length l in
  let z := Nat.modulo (119 - Nat.modulo n 64) 64 in
  l ++ 128 :: replicate z 0 ++ be_bytes 8 (8 * Z.of_nat n).

(** [sha256.Sum256]. *)
Definition sha256 (l : bytes) : bytes :=
  let p := pad l in
  let h := blocks (Nat.div (length p) 64) sha_init p in
  concat (map (be_bytes 4) h).

Lemma length_rounds kws h : length h = 8%nat -> length (rounds kws h) = 8%nat.
Proof.
  revert h. induction kws as [|[k w] kws IH]; intros h Hh; [done|].
  do 8 (destruct h as [|? h]; [done|]). destruct h; [|done].
  simpl rounds. apply IH. done.
Qed.

Lemma length_compress h ws : length h = 8%nat -> length (compress h ws) = 8%nat.
Proof.
  intros Hh. unfold compress. rewrite length_zip_with, length_rounds by done. lia.
Qed.

Lemma length_blocks n h l : length h = 8%nat -> length (blocks n h l) = 8%nat.
Proof.
  revert h l. induction n as [|n IH]; intros h l Hh; [done|].
  simpl. apply IH, length_compress, Hh.
Qed.

Lemma length_concat_words h : length (concat (map (be_bytes 4) h)) = (4 * length h)%nat.
Proof.
  induction h as [|x h IH]; [done|].
  cbn [map concat]. rewrite length_app, length_be_bytes, IH. simpl. lia.
Qed.

(** A digest is 32 bytes. *)
Lemma length_sha256 l : length (sha256 l) = 32%nat.
Proof. unfold sha256. rewrite length_concat_words, length_blocks; done. Qed.

Lemma wf_sha256 l : wf_bytes (sha256 l).
Proof.
  unfold sha256. generalize (blocks (Nat.div (length (pad l)) 64) sha_init (pad l)).
  intros h. induction h as [|x h IH]; [constructor|].
  cbn [map concat]. apply Forall_app. split; [apply wf_be_bytes | exact IH].
Qed.

#[export] Hint Resolve length_sha256 wf_sha256 : dna.

(** FIPS 180-4 test vectors: the empty message and "abc". *)
Example sha256_empty :
  take 4 (sha256 []) = [0xe3; 0xb0; 0xc4; 0x42].
Proof. vm_compute. reflexivity. Qed.

Example sha256_abc :
  sha256 [97; 98; 99] =
    [0xba; 0x78; 0x16; 0xbf; 0x8f; 0x01; 0xcf; 0xea; 0x41; 0x41; 0x40; 0xde; 0x5d; 0xae; 0x22; 0x23;
     0xb0; 0x03; 0x61; 0xa3; 0x96; 0x17; 0x7a; 0x9c; 0xb4; 0x10; 0xff; 0x61; 0xf2; 0x00; 0x15; 0xad].
Proof. vm_compute. reflexivity. Qed.

(** * SHA-1 ([crypto/sha1]), for the SHA1 opcode *)

Definition rotl (x n : Z) : Z := rotr x (32 - n).

Fixpoint sha1_schedule (n : nat) (ws : list Z) : list Z :=
  match n with
  | O => ws
  | S n =>
      let w := Z.lxor (nth 2 ws 0) (xor3 (nth 7 ws 0) (nth 13 ws 0) (nth 15 ws 0)) in
      sha1_schedule n (rotl w 1 :: ws)
  end.

Definition sha1_fk (t b c d : Z) : Z * Z :=
  if t <? 20 then (Z.lor (Z.land b c) (Z.land (Z.lxor b mask32) d), 0x5a827999)
  else if t <? 40 then (xor3 b c d, 0x6ed9eba1)
  else if t <? 60 then (xor3 (Z.land b c) (Z.land b d) (Z.land c d), 0x8f1bbcdc)
  else (xor3 b c d, 0xca62c1d6).

Fixpoint sha1_rounds (t : Z) (ws : list Z) (h : list Z) : list Z :=
  match ws, h with
  | w :: ws, [a; b; c; d; e] =>
      let '(f, k) := sha1_fk t b c d in
      sha1_rounds (t + 1) ws [uint32 (rotl a 5 + f + e + k + w); a; rotl b 30; c; d]
  | _, h => h
  end.

Fixpoint sha1_blocks (n : nat) (h : list Z) (l : bytes) : list Z :=
  match n with
  | O => h
  | S n =>
      let w := reverse (sha1_schedule 64 (reverse (words 16 (take 64 l)))) in
      sha1_blocks n (zip_with (fun x y => uint32 (x + y)) h (sha1_rounds 0 w h)) (drop 64 l)
  end.

Definition sha1 (l : bytes) : bytes :=
  let p := pad l in
  concat (map (be_bytes 4)
    (sha1_blocks (Nat.div (length p) 64) [0x67452301; 0xefcdab89; 0x98badcfe; 0x10325476; 0xc3d2e1f0] p)).

Example sha1_abc :
  sha1 [97; 98; 99] =
    [0xa9; 0x99; 0x3e; 0x36; 0x47; 0x06; 0x81; 0x6a; 0xba; 0x3e;
     0x25; 0x71; 0x78; 0x50; 0xc2; 0x6c; 0x9c; 0xd0; 0xd8; 0x9d].
Proof. vm_compute. reflexivity. Qed.
