(* ===== verification/Serialization.v ===== *)
(** [common/serialization/serialize.go]: the variable-length integer encoding,
    length-prefixed byte strings and fixed-width little-endian integers every
    other component serialises with, and the [SerializableData] interface.

    A writer is the list of bytes it receives: the writers of the repository
    are [bytes.Buffer]s, whose [Write] never fails.  A reader function is a
    computation [rd] on the current [reader]; its result carries the Go value
    together with the Go error, because callers of the repository often go on
    after an error with the value they were given. *)

From S2P Require Import Prelude.

(** * Writers *)

Definition WriteVarUint (value : Z) : bytes :=
  if value <? 0xFD then [uint8 value]
  else if value <=? 0xFFFF then 0xFD :: le_bytes 2 (uint16 value)
  else if value <=? 0xFFFFFFFF then 0xFE :: le_bytes 4 (uint32 value)
  else 0xFF :: le_bytes 8 (uint64 value).

Definition WriteVarBytes (value : bytes) : bytes :=
  WriteVarUint (Z.of_nat (length value)) ++ value.

(** A Go string is its bytes. *)
Definition WriteVarString (value : bytes) : bytes :=
  WriteVarUint (Z.of_nat (length value)) ++ value.

Definition GetVarUintSize (value : Z) : Z :=
  if value <? 0xfd then 1
  else if value <=? 0xffff then 3
  else if value <=? 0xFFFFFFFF then 5
  else 9.

Definition WriteUint8 (v : Z) : bytes := [v].
Definition WriteUint16 (v : Z) : bytes := le_bytes 2 v.
Definition WriteUint32 (v : Z) : bytes := le_bytes 4 v.
Definition WriteUint64 (v : Z) : bytes := le_bytes 8 v.
Definition WriteBool (v : bool) : bytes := [if v then 1 else 0].

(** * Readers *)

Definition ReadVarUint (maxint0 : Z) : rd (Z * err) :=
  let maxint := if maxint0 =? 0 then 2 ^ 64 - 1 else maxint0 in
  let check res : rd (Z * err) :=
    if maxint <? res then mret (0, Some ErrRange) else mret (res, None) in
  '(fb, e) ← Read 1;
  iferr e return 0 ;;
  let tag := nth 0 (fill 1 fb) 0 in
  if tag =? 0xfd then
    '(g, e) ← Read 2;
    iferr e return 0 ;;
    check (le_val (fill 2 g))
  else if tag =? 0xfe then
    '(g, e) ← Read 4;
    iferr e return 0 ;;
    check (le_val (fill 4 g))
  else if tag =? 0xff then
    '(g, e) ← Read 8;
    iferr e return 0 ;;
    check (le_val (fill 8 g))
  else check tag.

Definition byteXReader (x : Z) : rd (bytes * err) :=
  if make_ok 1 x then
    '(g, e) ← Read x;
    if (0 <? length g)%nat then mret (fill x g, None) else mret (fill x [], e)
  else rd_panic.

Definition ReadVarBytes : rd (bytes * err) :=
  '(val, e) ← ReadVarUint 0;
  iferr e return [] ;;
  '(str, e) ← byteXReader val;
  iferr e return [] ;;
  mret (str, None).

Definition ReadVarString : rd (bytes * err) :=
  '(val, e) ← ReadVarBytes;
  iferr e return [] ;;
  mret (val, None).

Definition ReadBytes (len : Z) : rd (bytes * err) :=
  '(str, e) ← byteXReader len;
  iferr e return [] ;;
  mret (str, None).

(** The common body of [ReadUint8], [ReadUint16], [ReadUint32], [ReadUint64]. *)
Definition ReadUint (n : Z) : rd (Z * err) :=
  '(g, e) ← Read n;
  if (length g =? 0)%nat || is_err e
  then mret (0, Some ErrEof)
  else mret (le_val (fill n g), None).

Definition ReadUint8 : rd (Z * err) := ReadUint 1.
Definition ReadUint16 : rd (Z * err) := ReadUint 2.
Definition ReadUint32 : rd (Z * err) := ReadUint 4.
Definition ReadUint64 : rd (Z * err) := ReadUint 8.

(** [binary.Read] of a [bool]. *)
Definition ReadBool : rd (bool * err) :=
  '(g, e) ← ReadFull 1;
  iferr e return false ;;
  mret (negb (nth 0 g 0 =? 0), None).

(** * Tails

    [byteXReader] reports the [io.EOF] of an empty read, so a trailing empty
    byte string needs a reader that accepts a zero-byte read at its end. *)

Definition any_tail (k : reader_kind) (rest : bytes) : Prop := True.
Definition live_tail (k : reader_kind) (rest : bytes) : Prop :=
  k = BytesBuffer \/ rest <> [].

Class Tail (T : reader_kind -> bytes -> Prop) : Prop :=
  tail_app : forall k l rest, T k rest -> T k (l ++ rest).

#[export] Instance any_tail_Tail : Tail any_tail.
Proof. intros k l rest _. exact I. Qed.
#[export] Instance live_tail_Tail : Tail live_tail.
Proof.
  intros k l rest [->|H]; [by left|right]. destruct l; [done|]. simpl. discriminate.
Qed.

Lemma live_tail_app k l rest : l <> [] -> live_tail k (l ++ rest).
Proof. intros H. right. destruct l; [done|]. simpl. discriminate. Qed.

(** [m] reads the encoding [enc] back as [a] and leaves what follows it. *)
Definition reads {A} (T : reader_kind -> bytes -> Prop) (m : rd (A * err)) (enc : bytes) (a : A) : Prop :=
  forall k rest, T k rest ->
    m (mkReader k (enc ++ rest)) = Some ((a, None), mkReader k rest).

Lemma reads_live {A} T (m : rd (A * err)) enc a : reads any_tail m enc a -> Tail T -> reads T m enc a.
Proof. intros H _ k rest _. by apply H. Qed.

(** The step of every round-trip proof: peel the first field off. *)
Lemma rd_field {A B} T (m : rd (A * err)) enc a (f : A * err -> rd B) k rest :
  reads T m enc a -> T k rest ->
  (m ≫= f) (mkReader k (enc ++ rest)) = f (a, None) (mkReader k rest).
Proof. intros H Ht. apply rd_bind_Some. by apply H. Qed.

(** * Round trips *)

Lemma ReadUint_reads n v :
  0 < Z.of_nat n -> 0 <= v < 256 ^ Z.of_nat n ->
  reads any_tail (ReadUint (Z.of_nat n)) (le_bytes n v) v.
Proof.
  intros Hn Hv k rest _. unfold ReadUint.
  assert (le_bytes n v <> []) by (destruct n; [lia|done]).
  erewrite rd_bind_Some.
  2:{ apply Read_app; [rewrite length_le_bytes; reflexivity|done]. }
  cbn beta iota. rewrite length_le_bytes.
  destruct (Nat.eqb_spec n 0); [lia|]. simpl orb. cbn iota.
  rewrite fill_full by (rewrite length_le_bytes; reflexivity).
  rewrite le_val_le_bytes, Z.mod_small by done. reflexivity.
Qed.

Lemma ReadUint8_reads v : inU 8 v -> reads any_tail ReadUint8 (WriteUint8 v) v.
Proof.
  intros. replace (WriteUint8 v) with (le_bytes 1 v).
  - apply (ReadUint_reads 1); lia.
  - unfold WriteUint8. simpl. rewrite Z.mod_small; [done|lia].
Qed.
Lemma ReadUint16_reads v : inU 16 v -> reads any_tail ReadUint16 (WriteUint16 v) v.
Proof. intros. apply (ReadUint_reads 2); lia. Qed.
Lemma ReadUint32_reads v : inU 32 v -> reads any_tail ReadUint32 (WriteUint32 v) v.
Proof. intros. apply (ReadUint_reads 4); lia. Qed.
Lemma ReadUint64_reads v : inU 64 v -> reads any_tail ReadUint64 (WriteUint64 v) v.
Proof. intros. apply (ReadUint_reads 8); lia. Qed.

Lemma Read_le_bytes n v k rest :
  (0 < n)%nat ->
  Read (Z.of_nat n) (mkReader k (le_bytes n v ++ rest)) =
    Some ((le_bytes n v, None), mkReader k rest).
Proof.
  intros Hn. apply Read_app; [by rewrite length_le_bytes|]. destruct n; [lia|done].
Qed.

Lemma Read_cons k b rest : Read 1 (mkReader k (b :: rest)) = Some (([b], None), mkReader k rest).
Proof. apply (Read_app k [b] rest 1); done. Qed.

(** What [ReadVarUint] does on an encoding written by [WriteVarUint]. *)
Lemma ReadVarUint_Write max0 v k rest :
  inU 64 v ->
  ReadVarUint max0 (mkReader k (WriteVarUint v ++ rest)) =
    Some (if (if max0 =? 0 then 2 ^ 64 - 1 else max0) <? v then (0, Some ErrRange) else (v, None),
          mkReader k rest).
Proof.
  intros Hv. unfold WriteVarUint, ReadVarUint.
  set (max := if max0 =? 0 then _ else _).
  destruct (Z.ltb_spec v 0xFD); [|destruct (Z.leb_spec v 0xFFFF); [|destruct (Z.leb_spec v 0xFFFFFFFF)]].
  all: erewrite rd_bind_Some by (cbn [app]; apply Read_cons).
  all: cbn beta iota.
  all: cbn [nth fill app length Nat.sub Z.to_nat replicate Pos.to_nat Pos.iter_op Nat.add].
  - rewrite wrapU_id by lia.
    do 3 (match goal with |- context [?a =? ?b] => destruct (Z.eqb_spec a b); [lia|] end).
    destruct (max <? v); reflexivity.
  - change (0xFD =? 0xfd) with true. cbn iota.
    erewrite rd_bind_Some by (apply (Read_le_bytes 2); lia).
    cbn beta iota. rewrite wrapU_id, fill_full, le_val_le_bytes, Z.mod_small by (rewrite ?length_le_bytes; lia).
    destruct (max <? v); reflexivity.
  - change (0xFE =? 0xfd) with false. change (0xFE =? 0xfe) with true. cbn iota.
    erewrite rd_bind_Some by (apply (Read_le_bytes 4); lia).
    cbn beta iota. rewrite wrapU_id, fill_full, le_val_le_bytes, Z.mod_small by (rewrite ?length_le_bytes; lia).
    destruct (max <? v); reflexivity.
  - change (0xFF =? 0xfd) with false. change (0xFF =? 0xfe) with false.
    change (0xFF =? 0xff) with true. cbn iota.
    erewrite rd_bind_Some by (apply (Read_le_bytes 8); lia).
    cbn beta iota. rewrite wrapU_id, fill_full, le_val_le_bytes, Z.mod_small by (rewrite ?length_le_bytes; lia).
    destruct (max <? v); reflexivity.
Qed.

Lemma ReadVarUint_reads v : inU 64 v -> reads any_tail (ReadVarUint 0) (WriteVarUint v) v.
Proof.
  intros Hv k rest _. rewrite ReadVarUint_Write by done. simpl (0 =? 0).
  cbn iota. destruct (Z.ltb_spec (2 ^ 64 - 1) v); [lia|]. reflexivity.
Qed.

Lemma WriteVarUint_ne v : WriteVarUint v <> [].
Proof. unfold WriteVarUint. repeat case_match; discriminate. Qed.

Lemma length_WriteVarUint v : Z.of_nat (length (WriteVarUint v)) = GetVarUintSize v.
Proof.
  unfold WriteVarUint, GetVarUintSize. repeat case_match; simpl length;
    rewrite ?length_le_bytes; lia.
Qed.

Lemma byteXReader_reads v :
  v <> [] -> Z.of_nat (length v) <= maxAlloc ->
  reads any_tail (byteXReader (Z.of_nat (length v))) v v.
Proof.
  intros Hv Hl k rest _. unfold byteXReader, make_ok.
  destruct (Z.leb_spec (1 * Z.of_nat (length v)) maxAlloc); [|lia].
  erewrite rd_bind_Some by (by apply Read_app). cbn beta iota.
  destruct (Nat.ltb_spec 0 (length v)); [|destruct v; simpl in *; [done|lia]].
  rewrite fill_full; done.
Qed.

Lemma byteXReader_empty k rest :
  live_tail k rest ->
  byteXReader 0 (mkReader k rest) = Some (([], None), mkReader k rest).
Proof.
  intros [->|H]; unfold byteXReader; simpl.
  - destruct rest; reflexivity.
  - destruct rest; [done|]. reflexivity.
Qed.

Lemma ReadVarBytes_reads v :
  Z.of_nat (length v) <= maxAlloc ->
  reads (if decide (v = []) then live_tail else any_tail) ReadVarBytes (WriteVarBytes v) v.
Proof.
  intros Hl k rest Ht. unfold ReadVarBytes, WriteVarBytes.
  assert (maxAlloc < 2 ^ 64) by reflexivity.
  rewrite <- app_assoc.
  erewrite (rd_field any_tail) by (done || apply ReadVarUint_reads; lia).
  cbn iota beta.
  case_decide as Hv.
  - subst v. simpl app. erewrite rd_bind_Some by (by apply byteXReader_empty). reflexivity.
  - erewrite (rd_field any_tail) by (done || by apply byteXReader_reads). reflexivity.
Qed.

Lemma ReadVarBytes_Write (v : bytes) (k : reader_kind) (rest : bytes) :
  Z.of_nat (length v) <= maxAlloc ->
  ReadVarBytes (mkReader k (WriteVarBytes v ++ rest)) =
    Some (if decide (v = [] /\ rest = [] /\ k = BytesReader) then ([], Some EOF) else (v, None),
          mkReader k rest).
Proof.
  intros Hl. case_decide as H.
  - destruct H as (-> & -> & ->). reflexivity.
  - rewrite ReadVarBytes_reads; [done|done|].
    case_decide; [|exact I]. destruct k; [right|by left]. naive_solver.
Qed.

Lemma ReadVarBytes_live v :
  Z.of_nat (length v) <= maxAlloc -> reads live_tail ReadVarBytes (WriteVarBytes v) v.
Proof. intros H k rest Ht. apply ReadVarBytes_reads; [done|]. by case_decide. Qed.

Lemma ReadVarString_live v :
  Z.of_nat (length v) <= maxAlloc -> reads live_tail ReadVarString (WriteVarString v) v.
Proof.
  intros H k rest Ht. unfold ReadVarString.
  erewrite (rd_field live_tail) by (done || by apply ReadVarBytes_live). reflexivity.
Qed.

Lemma WriteVarBytes_ne v : WriteVarBytes v <> [].
Proof. unfold WriteVarBytes. pose proof (WriteVarUint_ne (Z.of_nat (length v))). by destruct (WriteVarUint _). Qed.
Lemma WriteVarString_ne v : WriteVarString v <> [].
Proof. apply WriteVarBytes_ne. Qed.

(** Something non-empty follows. *)
Ltac live :=
  solve [repeat first
    [ assumption
    | apply live_tail_app; solve [discriminate | apply WriteVarUint_ne | apply WriteVarBytes_ne | apply WriteVarString_ne]
    | apply (tail_app (T := live_tail)) ]].

(** Read the next field of a record whose encoding is the data at hand. *)
Ltac field :=
  first [ erewrite (rd_field any_tail) by (exact I || solve [eauto with dna])
        | erewrite (rd_field live_tail) by (live || solve [eauto with dna]) ];
  cbn beta iota.

#[export] Hint Resolve ReadUint8_reads ReadUint16_reads ReadUint32_reads ReadUint64_reads
  ReadVarUint_reads ReadVarBytes_live ReadVarString_live : dna.

(** * The [SerializableData] interface

    What an element type promises to the list readers: a zero value, the
    values that survive serialisation, and the round trip for the tails it
    supports. *)

Class SerializableData (A : Type) (T : reader_kind -> bytes -> Prop) := {
  sd_new : A;
  sd_wf : A -> Prop;
  sd_Serialize : A -> bytes;
  sd_Deserialize : A -> rd (A * err);
  sd_tail : Tail T;
  sd_roundtrip : forall a, sd_wf a -> reads T (sd_Deserialize sd_new) (sd_Serialize a) a;
}.
#[export] Hint Mode SerializableData + - : typeclass_instances.

(** [for i := 0; i < n; i++ { x := new(A); err = read(x); if err != nil { return err };
    list = append(list, x) }]. *)
Fixpoint read_loop {A} (n : nat) (item : rd (A * err)) (acc : list A) : rd (list A * err) :=
  match n with
  | O => mret (acc, None)
  | S n => '(a, e) ← item; iferr e return acc ;; read_loop n item (acc ++ [a])
  end.

(** The same loop when the error of an element is dropped. *)
Fixpoint read_loop_unchecked {A} (n : nat) (item : rd (A * err)) (acc : list A) : rd (list A) :=
  match n with
  | O => mret acc
  | S n => '(a, _) ← item; read_loop_unchecked n item (acc ++ [a])
  end.

Section Lists.
Context {A : Type} {T : reader_kind -> bytes -> Prop} `{!SerializableData A T}.
#[local] Instance element_tail : Tail T := sd_tail (A := A).

Definition WriteList (l : list A) : bytes := concat (map sd_Serialize l).

(** [WriteDataList]. *)
Definition WriteDataList (l : list A) : bytes :=
  WriteVarUint (Z.of_nat (length l)) ++ WriteList l.

Lemma read_loop_reads l acc :
  Forall sd_wf l ->
  reads T (read_loop (length l) (sd_Deserialize sd_new) acc) (WriteList l) (acc ++ l).
Proof.
  intros Hl. revert acc. induction Hl as [|a l Ha Hl IH]; intros acc k rest Ht.
  - simpl. rewrite app_nil_r. reflexivity.
  - cbn [length read_loop WriteList map concat]. rewrite <- app_assoc.
    erewrite (rd_field T) by (by apply tail_app || by apply sd_roundtrip).
    cbn iota beta. rewrite IH by done. rewrite <- app_assoc. reflexivity.
Qed.

End Lists.

(** A loop that drops the error of its elements only needs their values. *)
Lemma read_loop_unchecked_reads {A} T `{!Tail T} (enc : A -> bytes) (item : rd (A * err)) l acc k rest :
  (forall a, a ∈ l -> forall k rest, T k rest ->
     exists e, item (mkReader k (enc a ++ rest)) = Some ((a, e), mkReader k rest)) ->
  T k rest ->
  read_loop_unchecked (length l) item acc (mkReader k (concat (map enc l) ++ rest))
    = Some (acc ++ l, mkReader k rest).
Proof.
  intros Hl Ht. revert acc. induction l as [|a l IH]; intros acc.
  - simpl. rewrite app_nil_r. reflexivity.
  - cbn [length read_loop_unchecked map concat]. rewrite <- app_assoc.
    destruct (Hl a ltac:(constructor) k (concat (map enc l) ++ rest)) as [e He].
    { by apply tail_app. }
    erewrite rd_bind_Some by exact He. cbn iota beta. rewrite IH.
    + by rewrite <- app_assoc.
    + intros b Hb. apply Hl. by constructor.
Qed.

(** * Properties *)

(** For every 64-bit value the variable-length encoding has the size
    [GetVarUintSize] announces, and [ReadVarUint] with a limit reads it back
    exactly, consuming the encoding and nothing more, unless the value exceeds
    a non-zero limit, in which case it reports [ErrRange] (a limit of zero
    means no limit). *)
Theorem varuint_roundtrip (v max0 : Z) (k : reader_kind) (rest : bytes) :
  inU 64 v ->
  Z.of_nat (length (WriteVarUint v)) = GetVarUintSize v /\
  ReadVarUint max0 (mkReader k (WriteVarUint v ++ rest)) =
    Some (if (max0 =? 0) || (v <=? max0) then (v, None) else (0, Some ErrRange),
          mkReader k rest).
Proof.
  intros Hv. split; [apply length_WriteVarUint|].
  rewrite ReadVarUint_Write by done. do 2 f_equal.
  destruct (Z.eqb_spec max0 0); simpl orb.
  - destruct (Z.ltb_spec (2 ^ 64 - 1) v); [lia|done].
  - rewrite Z.ltb_antisym. destruct (v <=? max0); done.
Qed.

Lemma varuint_roundtrip_witness :
  ReadVarUint 70000 (mkReader BytesReader (WriteVarUint 70000 ++ [7]))
    = Some ((70000, None), mkReader BytesReader [7]) /\
  ReadVarUint 69999 (mkReader BytesReader (WriteVarUint 70000 ++ [7]))
    = Some ((0, Some ErrRange), mkReader BytesReader [7]).
Proof.
  split; [exact (proj2 (varuint_roundtrip 70000 70000 BytesReader [7] ltac:(lia)))
         |exact (proj2 (varuint_roundtrip 70000 69999 BytesReader [7] ltac:(lia)))].
Defined.

(** A length-prefixed byte string of allocatable size is read back
    exactly, from either kind of reader and whatever follows it, except in one
    situation, in which the read fails with [io.EOF]: an empty string that
    ends a [bytes.Reader]. *)
Theorem varbytes_roundtrip (v : bytes) (k : reader_kind) (rest : bytes) :
  Z.of_nat (length v) <= maxAlloc ->
  ReadVarBytes (mkReader k (WriteVarBytes v ++ rest)) =
    Some (if decide (v = [] /\ rest = [] /\ k = BytesReader) then ([], Some EOF) else (v, None),
          mkReader k rest).
Proof. apply ReadVarBytes_Write. Qed.

Lemma varbytes_roundtrip_witness :
  ReadVarBytes (mkReader BytesReader (WriteVarBytes [1; 2] ++ [])) =
    Some (([1; 2], None), mkReader BytesReader []).
Proof. exact (varbytes_roundtrip [1; 2] BytesReader [] ltac:(vm_compute; discriminate)). Defined.

(** Fixed-width integers accept truncated input: when only [m] bytes of an
    [n]-byte integer are left ([0 < m < n]), [ReadUint] returns the value of
    the bytes present, with the missing high bytes read as zero, and no error.
    Only an exhausted reader is reported, as [ErrEof]. *)
Theorem short_read_zero_padded (n : Z) (k : reader_kind) (l : bytes) :
  Z.of_nat (length l) < n ->
  ReadUint n (mkReader k l) =
    Some (if decide (l = []) then (0, Some ErrEof) else (le_val l, None), mkReader k []).
Proof.
  intros Hn. unfold ReadUint, mbind, rd_bind, Read. cbn [rdata rkind].
  destruct l as [|b l]; [done|].
  rewrite Z.min_r by lia. rewrite Nat2Z.id, take_ge, drop_ge by lia.
  cbn [length Nat.eqb orb is_err]. cbn iota.
  unfold fill. rewrite le_val_app, le_val_zeros, Z.mul_0_r, Z.add_0_r. reflexivity.
Qed.

Lemma short_read_zero_padded_witness :
  ReadUint 4 (mkReader BytesBuffer [1; 1]) = Some ((257, None), mkReader BytesBuffer []).
Proof. exact (short_read_zero_padded 4 BytesBuffer [1; 1] ltac:(simpl; lia)). Defined.
