(* ===== verification/Common.v ===== *)
(** [common/uint256.go], [common/uint160.go], [common/compactUint.go] and the
    byte helpers of [common/common.go].

    [Uint256] and [Uint160] are Go arrays of 32 and 20 bytes: lists of that
    length ([wf_u256], [wf_u160]). *)

From S2P Require Import Prelude Sha256 Serialization.

Definition UINT256SIZE : Z := 32.
Definition UINT160SIZE : Z := 20.

Abbreviation Uint256 := (list Z).
Abbreviation Uint160 := (list Z).

Definition wf_u256 (u : Uint256) : Prop := length u = 32%nat /\ wf_bytes u.
Definition wf_u160 (u : Uint160) : Prop := length u = 20%nat /\ wf_bytes u.
Definition zero256 : Uint256 := replicate 32 0.
Definition zero160 : Uint160 := replicate 20 0.

#[global] Instance wf_u256_dec u : Decision (wf_u256 u).
Proof. unfold wf_u256. apply _. Defined.
#[global] Instance wf_u160_dec u : Decision (wf_u160 u).
Proof. unfold wf_u160. apply _. Defined.

(** * Uint256 and Uint160 *)

(** [for i := len(x) - 1; i >= 0; i--] of [CompareTo]. *)
Fixpoint CompareTo_loop (i : nat) (x y : bytes) : Z :=
  match i with
  | O => 0
  | S i =>
      if nth i y 0 <? nth i x 0 then 1
      else if nth i x 0 <? nth i y 0 then -1
      else CompareTo_loop i x y
  end.

Definition CompareTo (u o : bytes) : Z := CompareTo_loop (length u) u o.

Definition ToArray (u : bytes) : bytes := u.

(** [for i, j := 0, n-1; i < j; i, j = i+1, j-1 { x[i], x[j] = u[j], u[i] }]
    with [n/2] turns of the loop. *)
Fixpoint ToArrayReverse_loop (turns i j : nat) (u x : bytes) : bytes :=
  match turns with
  | O => x
  | S turns =>
      if (i <? j)%nat
      then ToArrayReverse_loop turns (S i) (pred j) u
             (<[j := nth i u 0]> (<[i := nth j u 0]> x))
      else x
  end.
Definition ToArrayReverse (u : bytes) : bytes :=
  ToArrayReverse_loop (length u) 0 (pred (length u)) u (replicate (length u) 0).

Definition Uint_Serialize (u : bytes) : bytes := u.

(** [Deserialize] of both widths: a short read leaves zero bytes, an error
    leaves the receiver unchanged. *)
Definition Uint_Deserialize (size : Z) (u : bytes) : rd (bytes * err) :=
  '(g, e) ← Read size;
  if (length g =? 0)%nat || is_err e then mret (u, e) else mret (fill size g, None).

Definition Uint256_Deserialize : Uint256 -> rd (Uint256 * err) := Uint_Deserialize UINT256SIZE.
Definition Uint160_Deserialize : Uint160 -> rd (Uint160 * err) := Uint_Deserialize UINT160SIZE.

Definition Uint256ParseFromBytes (f : bytes) : Uint256 * err :=
  if negb (Z.of_nat (length f) =? UINT256SIZE)
  then (zero256, Some (NewError "[Common]: Uint256ParseFromBytes err, len != 32"))
  else (f, None).

Definition Uint160ParseFromBytes (f : bytes) : Uint160 * err :=
  if negb (Z.of_nat (length f) =? UINT160SIZE)
  then (zero160, Some (NewError "[Common]: Uint160ParseFromBytes err, len != 20"))
  else (f, None).

(** [Uint256(sha256.Sum256(sha256.Sum256(d)))]. *)
Definition dsha256 (d : bytes) : Uint256 := sha256 (sha256 d).

Lemma wf_dsha256 d : wf_u256 (dsha256 d).
Proof. split; [apply length_sha256 | apply wf_sha256]. Qed.

(** [common.ToCodeHash]; RIPEMD-160 is a third-party package. *)
Definition ToCodeHash (ripemd160 : bytes -> bytes) (code : bytes) : Uint160 * err :=
  let '(hash, e) := Uint160ParseFromBytes (ripemd160 (sha256 code)) in
  match e with
  | Some _ => (zero160, Some (NewError "[Common] , ToCodeHash err."))
  | None => (hash, None)
  end.

(** * common.go *)

Definition IntToBytes (n : Z) : bytes := le_bytes 4 (uint32 (int32 n)).

(** [binary.Read] in big-endian order of the first two bytes; the value stays
    zero when fewer are left. *)
Definition BytesToInt16 (b : bytes) : Z :=
  match b with
  | b0 :: b1 :: _ => int16 (256 * b0 + b1)
  | _ => 0
  end.

Fixpoint IsEqualBytes_loop (n i : nat) (b1 b2 : bytes) : bool :=
  match n with
  | O => true
  | S n => if negb (nth i b1 0 =? nth i b2 0) then false else IsEqualBytes_loop n (S i) b1 b2
  end.
Definition IsEqualBytes (b1 b2 : bytes) : bool :=
  if negb (length b1 =? length b2)%nat then false
  else IsEqualBytes_loop (length b1) 0 b1 b2.

(** [u[i], u[j] = u[j], u[i]]. *)
Definition swap (i j : nat) (u : bytes) : bytes :=
  <[j := nth i u 0]> (<[i := nth j u 0]> u).
Fixpoint BytesReverse_loop (turns i : nat) (u : bytes) : bytes :=
  match turns with
  | O => u
  | S turns => BytesReverse_loop turns (S i) (swap i (length u - 1 - i) u)
  end.
(** The loop runs while [i < j], that is [len(u)/2] times. *)
Definition BytesReverse (u : bytes) : bytes := BytesReverse_loop (Nat.div2 (length u)) 0 u.

Fixpoint CompareHeight (blockHeight : Z) (heights : list Z) : bool :=
  match heights with
  | [] => true
  | h :: hs => if blockHeight <? h then false else CompareHeight blockHeight hs
  end.

(** [dst[i] = uint16(source[i*2]) + uint16(source[i*2+1])*256]. *)
Fixpoint pairs16 (source : bytes) : list Z :=
  match source with
  | b0 :: b1 :: rest => uint16 (b0 + uint16 (b1 * 256)) :: pairs16 rest
  | _ => []
  end.

(** A [nil] slice is [None]. *)
Definition GetUint16Array (source : option bytes) : list Z * err :=
  match source with
  | None => ([], Some (NewError "[Common] , GetUint16Array err, source = nil"))
  | Some s =>
      if negb (Nat.modulo (length s) 2 =? 0)%nat
      then ([], Some (NewError "[Common] , GetUint16Array err, length of source is odd."))
      else (pairs16 s, None)
  end.

Definition ToByteArray (source : list Z) : bytes :=
  concat (map (fun v => [uint8 (v mod 256); uint8 (v / 256)]) source).

Fixpoint SliceRemove (slice : list Z) (h : Z) : list Z :=
  match slice with
  | [] => []
  | v :: vs => if v =? h then vs else v :: SliceRemove vs h
  end.

(** [hex.EncodeToString], as character codes. *)
Definition hex_digit (n : Z) : Z := if n <? 10 then 48 + n else 87 + n.
Definition EncodeToString (data : bytes) : bytes :=
  concat (map (fun b => [hex_digit (b / 16); hex_digit (b mod 16)]) data).

(** * compactUint.go *)

(** The panic ([None]) of [binary.LittleEndian.Uint64] on a slice shorter than
    eight bytes and of an out-of-range index or slice. *)
Definition LE_Uint64 (b : bytes) : option Z :=
  if (8 <=? length b)%nat then Some (le_val (take 8 b)) else None.
Definition slice (b : bytes) (lo hi : nat) : option bytes :=
  if ((lo <=? hi) && (hi <=? length b))%nat then Some (take (hi - lo) (drop lo b)) else None.

Definition GetCompactUint (buf : bytes) : option (Z * Z) :=
  len ← buf !! 0%nat;
  if len <? 0xfd then Some (len, 1)
  else if len =? 0xfd then s ← slice buf 1 3; v ← LE_Uint64 s; Some (v, 3)
  else if len =? 0xfe then s ← slice buf 1 5; v ← LE_Uint64 s; Some (v, 5)
  else if len =? 0xff then s ← slice buf 1 9; v ← LE_Uint64 s; Some (v, 9)
  else Some (0, 0).

Definition SetCompactUint (num : Z) : bytes :=
  if num <=? 0xff then [uint8 num]
  else if num <=? 0xffff then 0xfd :: le_bytes 2 (uint16 num)
  else if num <=? 0xffffffff then 0xfe :: le_bytes 4 (uint32 num)
  else if num <=? 0xffffffffffffffff then 0xff :: le_bytes 8 (uint64 num)
  else [].

(** * Lemmas *)

Lemma CompareTo_loop_spec x y :
  length x = length y -> wf_bytes x -> wf_bytes y ->
  forall i, (i <= length x)%nat ->
  CompareTo_loop i x y =
    match le_val (take i x) ?= le_val (take i y) with Eq => 0 | Lt => -1 | Gt => 1 end.
Proof.
  intros E Wx Wy i. induction i as [|i IH]; intros Hi; [done|].
  destruct (lookup_lt_is_Some_2 x i ltac:(lia)) as [a Ha].
  destruct (lookup_lt_is_Some_2 y i ltac:(lia)) as [b Hb].
  simpl CompareTo_loop.
  rewrite !(nth_lookup_Some _ _ _ _ Ha), !(nth_lookup_Some _ _ _ _ Hb), IH by lia.
  rewrite (take_S_r _ _ _ Ha), (take_S_r _ _ _ Hb), !le_val_app.
  assert (Bx := le_val_bound (take i x) (Forall_take _ _ _ Wx)).
  assert (By := le_val_bound (take i y) (Forall_take _ _ _ Wy)).
  rewrite !length_take in *. rewrite !Nat.min_l in * by lia. cbn [le_val].
  set (p := 256 ^ Z.of_nat i) in *. set (vx := le_val (take i x)) in *.
  set (vy := le_val (take i y)) in *.
  repeat match goal with |- context [?u ?= ?v] => destruct (Z.compare_spec u v) end;
    repeat match goal with |- context [?u <? ?v] => destruct (Z.ltb_spec u v) end; nia.
Qed.

Lemma CompareTo_spec u o :
  length u = length o -> wf_bytes u -> wf_bytes o ->
  CompareTo u o = match le_val u ?= le_val o with Eq => 0 | Lt => -1 | Gt => 1 end.
Proof.
  intros E Wu Wo. unfold CompareTo. rewrite CompareTo_loop_spec by (done || lia).
  rewrite !take_ge by lia. reflexivity.
Qed.

Lemma CompareTo_0 u o :
  length u = length o -> wf_bytes u -> wf_bytes o -> CompareTo u o = 0 <-> u = o.
Proof.
  intros E Wu Wo. rewrite CompareTo_spec by done.
  destruct (Z.compare_spec (le_val u) (le_val o)) as [H|H|H];
    split; intros H'; try done; try (subst; lia). by apply le_val_inj.
Qed.

Lemma CompareTo_refl u : CompareTo u u = 0.
Proof.
  unfold CompareTo. generalize (length u) as i. induction i as [|i IH]; [done|].
  simpl. rewrite Z.ltb_irrefl. exact IH.
Qed.

Lemma Uint_Deserialize_reads size u0 u :
  0 < size -> Z.of_nat (length u) = size ->
  reads any_tail (Uint_Deserialize size u0) (Uint_Serialize u) u.
Proof.
  intros Hs Hu k rest _. unfold Uint_Deserialize, Uint_Serialize.
  assert (u <> []) by (destruct u; [simpl in *; lia|done]).
  erewrite rd_bind_Some by (by apply Read_app). cbn beta iota.
  destruct (Nat.eqb_spec (length u) 0); [lia|]. simpl. rewrite fill_full by done. done.
Qed.

Lemma Uint256_Deserialize_reads u0 u :
  wf_u256 u -> reads any_tail (Uint256_Deserialize u0) (Uint_Serialize u) u.
Proof. intros [H _]. apply Uint_Deserialize_reads; [done|]. by rewrite H. Qed.

Lemma Uint160_Deserialize_reads u0 u :
  wf_u160 u -> reads any_tail (Uint160_Deserialize u0) (Uint_Serialize u) u.
Proof. intros [H _]. apply Uint_Deserialize_reads; [done|]. by rewrite H. Qed.

#[export] Instance Uint256_SerializableData : SerializableData Uint256 any_tail := {
  sd_new := zero256; sd_wf := wf_u256; sd_Serialize := Uint_Serialize;
  sd_Deserialize := Uint256_Deserialize; sd_tail := _;
  sd_roundtrip := Uint256_Deserialize_reads zero256 }.

#[export] Hint Resolve wf_dsha256 Uint256_Deserialize_reads Uint160_Deserialize_reads : dna.

(** ** Reversals *)

Lemma length_swap i j u : length (swap i j u) = length u.
Proof. unfold swap. by rewrite !length_insert. Qed.

Lemma lookup_swap i j m (u : bytes) :
  (i < j < length u)%nat ->
  swap i j u !! m = if decide (m = i) then u !! j else if decide (m = j) then u !! i else u !! m.
Proof.
  intros Hij. unfold swap.
  assert (Hl : forall n, (n < length u)%nat -> u !! n = Some (nth n u 0)).
  { intros n Hn. destruct (lookup_lt_is_Some_2 u n Hn) as [b Hb].
    by rewrite Hb, (nth_lookup_Some _ _ _ _ Hb). }
  destruct (decide (m = i)) as [->|Hi]; [|destruct (decide (m = j)) as [->|Hj]].
  - rewrite list_lookup_insert_ne by lia.
    rewrite list_lookup_insert_eq by lia. rewrite (Hl j); [done|lia].
  - rewrite list_lookup_insert_eq by (rewrite length_insert; lia). rewrite (Hl i); [done|lia].
  - rewrite !list_lookup_insert_ne by congruence. done.
Qed.

Lemma BytesReverse_loop_lookup turns i u m :
  (i + turns <= Nat.div2 (length u))%nat -> (m < length u)%nat ->
  BytesReverse_loop turns i u !! m =
    if decide ((i <= m < i + turns) \/ (i <= length u - 1 - m < i + turns))%nat
    then u !! (length u - 1 - m)%nat else u !! m.
Proof.
  pose proof (Nat.div2_odd (length u)) as Ho.
  revert i u Ho. induction turns as [|turns IH]; intros i u Ho Hi Hm.
  - simpl. case_decide; [lia|done].
  - cbn [BytesReverse_loop]. destruct (Nat.odd (length u)) eqn:Od; simpl Nat.b2n in Ho.
    all: rewrite IH by (rewrite ?length_swap; rewrite ?Od; simpl Nat.b2n; lia).
    all: rewrite length_swap, !lookup_swap by lia.
    all: repeat case_decide; try lia; try done; f_equal; lia.
Qed.

Lemma length_BytesReverse_loop turns i u : length (BytesReverse_loop turns i u) = length u.
Proof.
  revert i u. induction turns as [|t IH]; intros; simpl; [done|]. by rewrite IH, length_swap.
Qed.

Lemma BytesReverse_reverse u : BytesReverse u = reverse u.
Proof.
  apply list_eq. intros m. unfold BytesReverse.
  pose proof (Nat.div2_odd (length u)) as Ho.
  destruct (decide (m < length u)%nat) as [Hm|Hm].
  - rewrite BytesReverse_loop_lookup by lia. rewrite reverse_lookup by lia.
    replace (length u - S m)%nat with (length u - 1 - m)%nat by lia.
    case_decide as H; [done|]. f_equal. destruct (Nat.odd (length u)); simpl Nat.b2n in Ho; lia.
  - rewrite !lookup_ge_None_2; [done| |]; rewrite ?length_reverse, ?length_BytesReverse_loop; lia.
Qed.

(** ** uint16 arrays *)

Lemma pairs16_ToByteArray l :
  Forall (fun v => inU 16 v) l -> pairs16 (ToByteArray l) = l.
Proof.
  induction 1 as [|v l Hv _ IH]; [done|].
  unfold ToByteArray in *. cbn [map concat app pairs16]. rewrite IH. f_equal.
  assert (0 <= v / 256 < 256) by zlia.
  assert (0 <= v mod 256 < 256) by zlia.
  rewrite (wrapU_id 8 (v mod 256)), (wrapU_id 8 (v / 256)) by lia.
  rewrite (wrapU_id 16 (v / 256 * 256)) by lia. rewrite wrapU_id; zlia.
Qed.

Lemma length_ToByteArray l : length (ToByteArray l) = (2 * length l)%nat.
Proof. unfold ToByteArray. induction l; simpl in *; lia. Qed.

Lemma GetUint16Array_ToByteArray l :
  Forall (fun v => inU 16 v) l -> GetUint16Array (Some (ToByteArray l)) = (l, None).
Proof.
  intros H. unfold GetUint16Array. rewrite length_ToByteArray.
  rewrite Nat.mul_comm, Nat.Div0.mod_mul. simpl. by rewrite pairs16_ToByteArray.
Qed.

(** ** Hexadecimal *)

Lemma hex_digit_inj a b : 0 <= a < 16 -> 0 <= b < 16 -> hex_digit a = hex_digit b -> a = b.
Proof. unfold hex_digit. intros. repeat case_match; lia. Qed.

Lemma EncodeToString_inj l l' :
  wf_bytes l -> wf_bytes l' -> EncodeToString l = EncodeToString l' -> l = l'.
Proof.
  intros W. revert l'. induction W as [|a l Ha _ IH]; intros l' W' E; destruct W' as [|b l' Hb W']; try done.
  unfold EncodeToString in E. cbn [map concat app] in E. injection E as E1 E2 E3.
  unfold wf_byte in *.
  apply hex_digit_inj in E1; [|zlia|zlia]. apply hex_digit_inj in E2; [|zlia|zlia].
  rewrite (IH l') by done. f_equal. zlia.
Qed.

Lemma length_EncodeToString l : length (EncodeToString l) = (2 * length l)%nat.
Proof. unfold EncodeToString. induction l; simpl in *; lia. Qed.

(** * Properties *)

(** [CompareTo] of [Uint256] and [Uint160] is the order of the numbers the
    arrays hold in little-endian form: it returns -1, 0 or 1 as the first is
    smaller, equal or larger; in particular 0 exactly on equal arrays. *)
Theorem CompareTo_numeric (u o : bytes) :
  length u = length o -> wf_bytes u -> wf_bytes o ->
  CompareTo u o = Z.sgn (le_val u - le_val o) /\ (CompareTo u o = 0 <-> u = o).
Proof.
  intros E Wu Wo. split; [|by apply CompareTo_0]. rewrite CompareTo_spec by done.
  destruct (Z.compare_spec (le_val u) (le_val o)); lia.
Qed.

Lemma CompareTo_numeric_witness :
  CompareTo (1 :: replicate 31 0) (replicate 31 0 ++ [1]) = -1 /\
  CompareTo (1 :: replicate 31 0) (replicate 31 0 ++ [1])
    = Z.sgn (le_val (1 :: replicate 31 0) - le_val (replicate 31 0 ++ [1])).
Proof.
  split; [reflexivity|].
  apply (CompareTo_numeric (1 :: replicate 31 0) (replicate 31 0 ++ [1]) eq_refl);
    apply (bool_decide_unpack _); vm_compute; exact I.
Defined.

(** The in-place loop of [BytesReverse] reverses a slice of any length,
    and the array copies of [Uint256.ToArrayReverse] and
    [Uint160.ToArrayReverse] reverse arrays of their (even) size. *)
Theorem reversals (u : bytes) :
  BytesReverse u = reverse u /\
  (length u = 32%nat \/ length u = 20%nat -> ToArrayReverse u = reverse u).
Proof.
  split; [apply BytesReverse_reverse|].
  intros [H|H]; do 20 (destruct u as [|? u]; [done|]);
    try (do 12 (destruct u as [|? u]; [done|])); destruct u; try done; reflexivity.
Qed.

(** [ToByteArray] and [GetUint16Array] are inverse on the 16-bit index
    lists the unspent index stores, and [GetUint16Array] refuses a missing
    value and a value of odd length. *)
Theorem uint16_array_roundtrip (l : list Z) (b : bytes) :
  Forall (fun v => inU 16 v) l ->
  GetUint16Array (Some (ToByteArray l)) = (l, None) /\
  is_err (snd (GetUint16Array None)) = true /\
  (Nat.Odd (length b) -> is_err (snd (GetUint16Array (Some b))) = true).
Proof.
  intros H. split_and!; [by apply GetUint16Array_ToByteArray|done|].
  intros [m Hm]. unfold GetUint16Array. rewrite Hm.
  replace (2 * m + 1)%nat with (1 + m * 2)%nat by lia.
  rewrite Nat.Div0.mod_add. reflexivity.
Qed.

Lemma uint16_array_roundtrip_witness :
  GetUint16Array (Some (ToByteArray [0; 65535; 300])) = ([0; 65535; 300], None) /\
  is_err (snd (GetUint16Array (Some [7]))) = true.
Proof.
  assert (W : Forall (fun v => inU 16 v) [0; 65535; 300]) by (repeat constructor; lia).
  split; [apply (uint16_array_roundtrip [0; 65535; 300] [7] W)|].
  apply (uint16_array_roundtrip [0; 65535; 300] [7] W). exists 0%nat. reflexivity.
Defined.

(** The compact integers of [compactUint.go] do not round trip:
    [SetCompactUint] writes 253, 254 and 255 as the single byte that
    [GetCompactUint] takes for a tag, and decoding what it writes for any
    value from 253 up to 2^32 - 1 panics, because the decoder reads eight
    bytes out of a shorter slice; the values below 253 and from 2^32 on are
    read back. *)
Theorem compact_uint_behaviour (num : Z) :
  inU 64 num ->
  GetCompactUint (SetCompactUint num) =
    if num <? 0xfd then Some (num, 1) else if num <? 2 ^ 32 then None else Some (num, 9).
Proof.
  intros Hn. unfold SetCompactUint.
  destruct (Z.leb_spec num 0xff).
  { rewrite wrapU_id by lia. unfold GetCompactUint. cbn [lookup list_lookup mbind option_bind].
    destruct (Z.ltb_spec num 0xfd); [done|].
    destruct (Z.ltb_spec num (2 ^ 32)); [|lia].
    assert (num = 253 \/ num = 254 \/ num = 255) as [->|[->| ->]] by lia; reflexivity. }
  destruct (Z.ltb_spec num 0xfd); [lia|].
  destruct (Z.leb_spec num 0xffff); [|destruct (Z.leb_spec num 0xffffffff)].
  - destruct (Z.ltb_spec num (2 ^ 32)); [reflexivity|lia].
  - destruct (Z.ltb_spec num (2 ^ 32)); [reflexivity|lia].
  - destruct (Z.ltb_spec num (2 ^ 32)); [lia|].
    destruct (Z.leb_spec num 0xffffffffffffffff); [|lia].
    rewrite wrapU_id by lia.
    assert (Hl : length (le_bytes 8 num) = 8%nat) by apply length_le_bytes.
    assert (Hv : le_val (le_bytes 8 num) = num) by (rewrite le_val_le_bytes, Z.mod_small; lia).
    generalize dependent (le_bytes 8 num). intros l Hl Hv.
    do 8 (destruct l as [|? l]; [done|]). destruct l; [|done].
    cbn in Hv |- *. by rewrite Hv.
Qed.

Lemma compact_uint_behaviour_witness :
  GetCompactUint (SetCompactUint 300) = None /\ GetCompactUint (SetCompactUint 7) = Some (7, 1).
Proof.
  split; [exact (compact_uint_behaviour 300 ltac:(lia))|exact (compact_uint_behaviour 7 ltac:(lia))].
Defined.
