(* ===== verification/Fixed64.v ===== *)
(** [common/Fixed64.go]: the 64-bit fixed-point amounts with eight decimal
    places, their binary form and their decimal strings (lists of character
    codes), with the parts of [strconv] they use. *)

From S2P Require Import Prelude Serialization.

(** A [Fixed64] is an [int64]: a [Z] with [inS 64]. *)
Abbreviation Fixed64 := Z.

Definition Fixed64_Serialize (f : Fixed64) : bytes := le_bytes 8 (uint64 f).

Definition Fixed64_Deserialize (f : Fixed64) : rd (Fixed64 * err) :=
  '(g, e) ← Read 8;
  if (length g =? 0)%nat || is_err e then mret (f, e)
  else mret (int64 (le_val (fill 8 g)), None).

(** * strconv *)

(** [strconv.FormatUint(n, 10)]. *)
Fixpoint dec_digits (fuel : nat) (n : Z) (acc : bytes) : bytes :=
  match fuel with
  | O => acc
  | S fuel =>
      let acc := 48 + n mod 10 :: acc in
      if n / 10 =? 0 then acc else dec_digits fuel (n / 10) acc
  end.
(** Twenty digits hold every [uint64]. *)
Definition FormatUint (n : Z) : bytes := dec_digits 20 n [].

Definition is_digit (c : Z) : bool := (48 <=? c) && (c <=? 57).
Definition digits_val (a : Z) (l : bytes) : Z := fold_left (fun a c => 10 * a + (c - 48)) l a.

(** [strconv.ParseInt(s, 10, 64)]. *)
Definition ParseInt (s : bytes) : Z * err :=
  let '(neg, d) :=
    match s with
    | c :: t => if c =? 45 then (true, t) else if c =? 43 then (false, t) else (false, s)
    | [] => (false, [])
    end in
  if (length d =? 0)%nat || negb (forallb is_digit d)
  then (0, Some (NewError "invalid syntax"))
  else
    let v := digits_val 0 d in
    if (negb neg && (2 ^ 63 <=? v)) || (neg && (2 ^ 63 <? v))
    then (if neg then - 2 ^ 63 else 2 ^ 63 - 1, Some (NewError "value out of range"))
    else (if neg then - v else v, None).

(** [strings.Index] for a one-character separator; -1 when it is absent. *)
Fixpoint index_from (i : Z) (c : Z) (s : bytes) : Z :=
  match s with
  | [] => -1
  | x :: s => if x =? c then i else index_from (i + 1) c s
  end.
Definition Index_char (s : bytes) (c : Z) : Z := index_from 0 c s.

(** * Decimal strings *)

Definition Fixed64_String (f : Fixed64) : bytes :=
  let '(sign, value) := if f <? 0 then ([45], uint64 (int64 (- f))) else ([], uint64 f) in
  let value' := value mod 100000000 in
  sign ++ FormatUint (value / 100000000) ++
  (if 0 <? value' then
     let s := FormatUint value' in
     46 :: replicate (8 - length s) 48 ++ s
   else []).

Definition StringToFixed64 (s : bytes) : Fixed64 * err :=
  let di := Index_char s 46 in
  let len := Z.of_nat (length s) in
  if 9 <? len - di then (0, Some (NewError "unsupported precision"))
  else
    let buffer :=
      if di =? -1 then s ++ replicate 8 48
      else take (Z.to_nat di) s ++ drop (Z.to_nat (di + 1)) s ++
           replicate (Z.to_nat (8 - (len - di - 1))) 48 in
    let '(r, e) := ParseInt buffer in
    match e with
    | Some _ => (0, e)
    | None => (r, None)
    end.

(** * Lemmas *)

Lemma Fixed64_Deserialize_reads f0 f :
  inS 64 f -> reads any_tail (Fixed64_Deserialize f0) (Fixed64_Serialize f) f.
Proof.
  intros Hf k rest _. unfold Fixed64_Deserialize, Fixed64_Serialize.
  erewrite rd_bind_Some by (apply (Read_le_bytes 8); lia). cbn beta iota.
  rewrite length_le_bytes. cbn [Nat.eqb orb is_err]. cbn iota.
  rewrite fill_full by (rewrite length_le_bytes; lia).
  rewrite le_val_le_bytes, Z.mod_small by (apply (wrapU_range 64); lia).
  rewrite wrapS_of_U by lia. reflexivity.
Qed.
#[export] Hint Resolve Fixed64_Deserialize_reads : dna.

Lemma digits_val_app a l l' : digits_val a (l ++ l') = digits_val (digits_val a l) l'.
Proof. unfold digits_val. by rewrite fold_left_app. Qed.

Lemma digits_val_shift a l : digits_val a l = a * 10 ^ Z.of_nat (length l) + digits_val 0 l.
Proof.
  revert a. induction l as [|c l IH]; intros a; [simpl; lia|].
  cbn [digits_val fold_left length]. fold (digits_val (10 * a + (c - 48)) l).
  fold (digits_val (10 * 0 + (c - 48)) l). rewrite IH, (IH (10 * 0 + (c - 48))).
  rewrite Nat2Z.inj_succ, Z.pow_succ_r by lia. nia.
Qed.

Lemma digits_val_zeros n : digits_val 0 (replicate n 48) = 0.
Proof. induction n; [done|]. exact IHn. Qed.

Lemma dec_digits_val fuel n acc a :
  0 <= n < 10 ^ Z.of_nat fuel -> (0 < fuel)%nat ->
  digits_val a (dec_digits fuel n acc) =
    digits_val (a * 10 ^ Z.of_nat (length (dec_digits fuel n acc) - length acc) + n) acc.
Proof.
  revert n acc. induction fuel as [|fuel IH]; intros n acc Hn Hf; [lia|].
  cbn [dec_digits].
  rewrite Nat2Z.inj_succ, Z.pow_succ_r in Hn by lia.
  destruct (Z.eqb_spec (n / 10) 0) as [E|E].
  - cbn [length]. replace (S (length acc) - length acc)%nat with 1%nat by lia.
    cbn [digits_val fold_left]. fold (digits_val (10 * a + (48 + n mod 10 - 48)) acc).
    f_equal. zlia.
  - assert (0 < fuel)%nat by (destruct fuel; [zlia|lia]).
    rewrite IH by (try done; zlia). cbn [digits_val fold_left].
    set (L := dec_digits fuel (n / 10) _).
    assert (HL : (length acc < length L)%nat).
    { assert (G : forall f m ac, (length ac <= length (dec_digits f m ac))%nat).
      { clear. intros f. induction f as [|f IH]; intros m ac; simpl; [lia|].
        case_match; simpl; [lia|]. etrans; [|apply IH]. simpl. lia. }
      specialize (G fuel (n / 10) (48 + n mod 10 :: acc)). subst L. simpl in G. lia. }
    fold (digits_val (10 * (a * 10 ^ Z.of_nat (length L - length (48 + n mod 10 :: acc)) + n / 10)
            + (48 + n mod 10 - 48)) acc).
    cbn [length].
    replace (length L - length acc)%nat with (S (length L - S (length acc)))%nat by lia.
    rewrite Nat2Z.inj_succ, Z.pow_succ_r by lia. f_equal. zlia.
Qed.

Lemma FormatUint_val a n :
  0 <= n < 2 ^ 64 -> digits_val a (FormatUint n) = a * 10 ^ Z.of_nat (length (FormatUint n)) + n.
Proof.
  intros Hn. unfold FormatUint. rewrite dec_digits_val by (cbn; lia).
  cbn [length]. rewrite Nat.sub_0_r. reflexivity.
Qed.

Lemma dec_digits_digit fuel n acc :
  0 <= n -> forallb is_digit acc = true -> forallb is_digit (dec_digits fuel n acc) = true.
Proof.
  revert n acc. induction fuel as [|fuel IH]; intros n acc Hn Ha; [done|].
  cbn [dec_digits].
  assert (Hc : forallb is_digit (48 + n mod 10 :: acc) = true).
  { cbn [forallb]. rewrite Ha, andb_true_r. unfold is_digit.
    pose proof (Z.mod_pos_bound n 10). lia. }
  case_match; [done|]. apply IH; [zlia|done].
Qed.

Lemma FormatUint_digit n : 0 <= n -> forallb is_digit (FormatUint n) = true.
Proof. intros. by apply dec_digits_digit. Qed.

Lemma length_dec_digits fuel n acc k :
  0 <= n < 10 ^ Z.of_nat k -> (0 < k)%nat ->
  (length (dec_digits fuel n acc) <= k + length acc)%nat.
Proof.
  revert n acc k. induction fuel as [|fuel IH]; intros n acc k Hn Hk; [simpl; lia|].
  cbn [dec_digits]. destruct (Z.eqb_spec (n / 10) 0) as [E|E]; [simpl; lia|].
  destruct k as [|k]; [lia|].
  rewrite Nat2Z.inj_succ, Z.pow_succ_r in Hn by lia.
  assert (0 < k)%nat by (destruct k; [zlia|lia]).
  specialize (IH (n / 10) (48 + n mod 10 :: acc) k ltac:(zlia) ltac:(done)). simpl in IH |- *. lia.
Qed.

Lemma FormatUint_ne n : FormatUint n <> [].
Proof.
  unfold FormatUint. cbn [dec_digits].
  assert (G : forall f m ac, ac <> [] -> dec_digits f m ac <> []).
  { clear. intros f. induction f as [|f IH]; intros m ac H; simpl; [done|].
    case_match; [done|]. by apply IH. }
  case_match; [done|]. by apply (G 19%nat).
Qed.

Lemma index_from_app i c l s :
  forallb (fun x => negb (x =? c)) l = true ->
  index_from i c (l ++ s) = index_from (i + Z.of_nat (length l)) c s.
Proof.
  revert i. induction l as [|x l IH]; intros i H; cbn [app index_from length]; [f_equal; lia|].
  simpl in H. apply andb_prop in H as [Hx Hl]. destruct (x =? c); [done|].
  rewrite IH by done. f_equal. lia.
Qed.

Lemma digits_no_dot l : forallb is_digit l = true -> forallb (fun x => negb (x =? 46)) l = true.
Proof.
  induction l as [|c l IH]; [done|]. simpl. rewrite !andb_true_iff. intros [Hc Hl].
  split; [|by apply IH]. unfold is_digit in Hc. lia.
Qed.

(** Parsing an optional minus sign and digits, in range. *)
Lemma ParseInt_digits (neg : bool) d :
  d <> [] -> forallb is_digit d = true ->
  (if neg then digits_val 0 d <= 2 ^ 63 else digits_val 0 d < 2 ^ 63) ->
  ParseInt ((if neg then [45] else []) ++ d) = (if neg then - digits_val 0 d else digits_val 0 d, None).
Proof.
  intros Hne Hd Hr. unfold ParseInt. destruct neg; cbn [app].
  - change (45 =? 45) with true. cbn iota. rewrite Hd.
    destruct d; [done|]. cbn [length Nat.eqb orb negb andb].
    destruct (Z.ltb_spec (2 ^ 63) (digits_val 0 (z :: d))); [lia|]. done.
  - destruct d as [|c d]; [done|].
    assert (is_digit c = true) as Hc by (simpl in Hd; apply andb_prop in Hd; tauto).
    unfold is_digit in Hc.
    destruct (Z.eqb_spec c 45); [lia|]. destruct (Z.eqb_spec c 43); [lia|].
    rewrite Hd. cbn [length Nat.eqb orb negb andb].
    destruct (Z.leb_spec (2 ^ 63) (digits_val 0 (c :: d))); [lia|]. done.
Qed.

Definition sign_of (f : Fixed64) : bytes := if f <? 0 then [45] else [].

Lemma String_sign_value f :
  inS 64 f ->
  (if f <? 0 then ([45], uint64 (int64 (- f))) else ([], uint64 f)) = (sign_of f, Z.abs f).
Proof.
  intros Hf. unfold sign_of. destruct (Z.ltb_spec f 0); f_equal.
  - destruct (decide (f = - 2 ^ 63)) as [->|]; [reflexivity|].
    rewrite wrapS_id, wrapU_id; lia.
  - rewrite wrapU_id; lia.
Qed.

Lemma sign_no_dot f : forallb (fun x => negb (x =? 46)) (sign_of f) = true.
Proof. unfold sign_of. by case_match. Qed.

Lemma ParseInt_signed f d :
  inS 64 f -> d <> [] -> forallb is_digit d = true -> digits_val 0 d = Z.abs f ->
  ParseInt (sign_of f ++ d) = (f, None).
Proof.
  intros Hf Hne Hd E. unfold sign_of.
  replace (if f <? 0 then [45] else []) with (if (f <? 0) then [45] else @nil Z) by done.
  destruct (Z.ltb_spec f 0).
  - rewrite (ParseInt_digits true) by (done || lia). rewrite E. f_equal. lia.
  - rewrite (ParseInt_digits false) by (done || lia). rewrite E. f_equal. lia.
Qed.

Lemma forallb_replicate n c : is_digit c = true -> forallb is_digit (replicate n c) = true.
Proof. intros H. induction n; simpl; [done|]. by rewrite H. Qed.

(** * Properties *)

(** Printing an amount and parsing the string gives the amount back,
    except that [StringToFixed64] rejects, as of unsupported precision, every
    string without a fractional part that is longer than eight characters, so
    whole amounts from 100000000 up (and from -10000000 down) do not round
    trip. *)
Theorem Fixed64_string_roundtrip (f : Fixed64) :
  inS 64 f ->
  StringToFixed64 (Fixed64_String f) =
    if (Z.abs f mod 100000000 =? 0) && (9 <=? length (Fixed64_String f))%nat
    then (0, Some (NewError "unsupported precision")) else (f, None).
Proof.
  intros Hf. unfold Fixed64_String. rewrite String_sign_value by done.
  set (q := Z.abs f / 100000000). set (r := Z.abs f mod 100000000).
  assert (Hqr : Z.abs f = q * 100000000 + r) by (subst q r; zlia).
  assert (0 <= q < 2 ^ 64 /\ 0 <= r < 100000000) as [Hq Hr] by (subst q r; zlia).
  unfold StringToFixed64, Index_char.
  rewrite index_from_app by apply sign_no_dot.
  rewrite index_from_app by (apply digits_no_dot, FormatUint_digit; lia).
  destruct (Z.ltb_spec 0 r).
  - destruct (Z.eqb_spec r 0); [lia|]. cbn [andb].
    set (R := FormatUint r).
    assert (HR : (length R <= 8)%nat).
    { subst R. unfold FormatUint. etrans; [apply (length_dec_digits 20 r [] 8); lia|simpl; lia]. }
    set (F := replicate (8 - length R) 48 ++ R).
    assert (HF : length F = 8%nat) by (subst F; rewrite length_app, length_replicate; lia).
    cbn [index_from]. change (46 =? 46) with true. cbn iota.
    set (di := 0 + Z.of_nat (length (sign_of f)) + Z.of_nat (length (FormatUint q))).
    rewrite !length_app. cbn [length]. rewrite HF.
    destruct (Z.ltb_spec 9 (Z.of_nat (length (sign_of f) + (length (FormatUint q) + 9)) - di)); [lia|].
    destruct (Z.eqb_spec di (-1)); [lia|].
    replace (Z.to_nat (8 - _)) with 0%nat by lia. cbn [replicate]. rewrite app_nil_r.
    rewrite app_assoc.
    replace (Z.to_nat di) with (length (sign_of f ++ FormatUint q)) by (rewrite length_app; lia).
    rewrite take_app_length.
    replace (Z.to_nat (di + 1)) with (length (sign_of f ++ FormatUint q) + 1)%nat by (rewrite length_app; lia).
    rewrite drop_app_add. change (drop 1 (46 :: F)) with F. rewrite <- app_assoc.
    rewrite (ParseInt_signed f); [done|done| | |].
    + pose proof (FormatUint_ne q). destruct (FormatUint q); done.
    + subst F R. rewrite !forallb_app, !FormatUint_digit, forallb_replicate by (done || lia). done.
    + rewrite digits_val_app, digits_val_shift, HF. subst F.
      rewrite FormatUint_val by done. rewrite digits_val_app, digits_val_zeros.
      subst R. rewrite FormatUint_val by lia. lia.
  - assert (r = 0) as -> by lia. change (0 =? 0) with true. cbn [index_from andb]. rewrite app_nil_r.
    set (s := sign_of f ++ FormatUint q).
    destruct (Z.ltb_spec 9 (Z.of_nat (length s) - -1)); destruct (Nat.leb_spec 9 (length s)); try lia; [done|].
    change (-1 =? -1) with true. cbn iota. subst s. rewrite <- app_assoc.
    rewrite (ParseInt_signed f); [done|done| | |].
    + pose proof (FormatUint_ne q). destruct (FormatUint q); done.
    + rewrite !forallb_app, FormatUint_digit, forallb_replicate by (done || lia). done.
    + rewrite digits_val_app, digits_val_shift, length_replicate, digits_val_zeros.
      rewrite FormatUint_val by done. lia.
Qed.

Lemma Fixed64_string_roundtrip_witness :
  StringToFixed64 (Fixed64_String (-123456789)) = (-123456789, None) /\
  StringToFixed64 (Fixed64_String (100000000 * 100000000)) =
    (0, Some (NewError "unsupported precision")).
Proof.
  split; [exact (Fixed64_string_roundtrip (-123456789) ltac:(lia))
         |exact (Fixed64_string_roundtrip (100000000 * 100000000) ltac:(lia))].
Defined.
