(* ===== verification/Transaction.v ===== *)
(** [core/transaction], [core/transaction/payload], [core/asset],
    [core/contract/program/Program.go] and the serialised part of
    [core/code/FunctionCode.go]: the transaction data model, its binary form,
    its hash and the views of it (references, per-asset results, program
    hashes, multi-signature parameters) the validators use.

    A method with a pointer receiver takes the receiver and returns it
    updated, together with the Go error, because callers keep using partially
    deserialised objects.  [None] is a panic.  Byte strings stand for Go
    strings. *)

From S2P Require Import Prelude Sha256 Serialization Common Fixed64.

(** * Assets *)

Record Asset := mkAsset {
  a_Name : bytes; a_Description : bytes; a_Precision : Z; a_AssetType : Z; a_RecordType : Z }.
Definition MaxPrecision : Z := 8.
Definition MinPrecision : Z := 0.
Definition new_Asset : Asset := mkAsset [] [] 0 0 0.

Definition Asset_Serialize (a : Asset) : bytes :=
  WriteVarString (a_Name a) ++ WriteVarString (a_Description a) ++
  [a_Precision a] ++ [a_AssetType a] ++ [a_RecordType a].

Definition Asset_Deserialize (a : Asset) : rd (Asset * err) :=
  '(name, e) ← ReadVarString;
  if is_err e then mret (a, Some (NewError "[Asset], Name deserialize failed.")) else
  let a := mkAsset name (a_Description a) (a_Precision a) (a_AssetType a) (a_RecordType a) in
  '(description, e) ← ReadVarString;
  if is_err e then mret (a, Some (NewError "[Asset], Description deserialize failed.")) else
  let a := mkAsset name description (a_Precision a) (a_AssetType a) (a_RecordType a) in
  '(p, e) ← Read 1;
  if (length p =? 0)%nat then mret (a, Some (NewError "[Asset], Precision deserialize failed.")) else
  let a := mkAsset name description (nth 0 p 0) (a_AssetType a) (a_RecordType a) in
  '(p, e) ← Read 1;
  if (length p =? 0)%nat then mret (a, Some (NewError "[Asset], AssetType deserialize failed.")) else
  let a := mkAsset name description (a_Precision a) (nth 0 p 0) (a_RecordType a) in
  '(p, e) ← Read 1;
  if (length p =? 0)%nat then mret (a, Some (NewError "[Asset], RecordType deserialize failed.")) else
  mret (mkAsset name description (a_Precision a) (a_AssetType a) (nth 0 p 0), None).

(** * Function code *)

Record FunctionCode := mkFunctionCode {
  fc_Code : bytes; fc_ParameterTypes : bytes; fc_ReturnTypes : bytes }.

(** The receiver is a pointer: writing a field of a [nil] one panics. *)
Definition FunctionCode_Serialize (fc : option FunctionCode) : option bytes :=
  fc ← fc; Some (WriteVarBytes (fc_ParameterTypes fc) ++ WriteVarBytes (fc_Code fc)).

Definition FunctionCode_Deserialize (fc : option FunctionCode) : rd (option FunctionCode * err) :=
  '(p, e) ← ReadVarBytes;
  iferr e return fc ;;
  match fc with
  | None => rd_panic
  | Some f =>
      let f := mkFunctionCode (fc_Code f) p (fc_ReturnTypes f) in
      '(code, e) ← ReadVarBytes;
      iferr e return Some (mkFunctionCode code p (fc_ReturnTypes f)) ;;
      mret (Some (mkFunctionCode code p (fc_ReturnTypes f)), None)
  end.

(** * Payloads *)

Inductive Payload :=
  | PCoinBase (CoinbaseData : bytes)
  | PRegisterAsset (asset : Asset) (Amount : Fixed64) (Controller : Uint160)
  | PTransferAsset
  | PRecord (RecordType RecordData : bytes)
  | PDeployCode (Code : option FunctionCode)
      (Name CodeVersion Author Email Description : bytes).

Definition CoinBasePayloadVersion : Z := 4.

Definition CoinBase_Serialize (d : bytes) : bytes := WriteVarBytes d.
Definition RegisterAsset_Serialize (a : Asset) (amount : Fixed64) (ctl : Uint160) : bytes :=
  Asset_Serialize a ++ Fixed64_Serialize amount ++ Uint_Serialize ctl.
Definition Record_Serialize (ty d : bytes) : bytes := WriteVarString ty ++ WriteVarBytes d.
Definition DeployCode_Serialize (code : option FunctionCode) (name version author email descr : bytes) : option bytes :=
  c ← FunctionCode_Serialize code;
  Some (c ++ WriteVarString name ++ WriteVarString version ++ WriteVarString author ++
        WriteVarString email ++ WriteVarString descr).

(** The [Payload] interface. *)
Definition Payload_Serialize (p : Payload) : option bytes :=
  match p with
  | PCoinBase d => Some (CoinBase_Serialize d)
  | PRegisterAsset a amount ctl => Some (RegisterAsset_Serialize a amount ctl)
  | PTransferAsset => Some []
  | PRecord ty d => Some (Record_Serialize ty d)
  | PDeployCode code name version author email descr =>
      DeployCode_Serialize code name version author email descr
  end.

(** The payload object [DeserializeUnsignedWithoutType] allocates for a
    transaction type; [None] for an unknown type. *)
Definition new_Payload (TxType : Z) : option Payload :=
  if TxType =? 0 then Some (PCoinBase [])
  else if TxType =? 1 then Some (PRegisterAsset new_Asset 0 zero160)
  else if TxType =? 2 then Some PTransferAsset
  else if TxType =? 3 then Some (PRecord [] [])
  else if TxType =? 4 then Some (PDeployCode None [] [] [] [] [])
  else None.

Definition CoinBase_Deserialize : rd (Payload * err) :=
  '(d, e) ← ReadVarBytes; mret (PCoinBase d, e).

Definition RegisterAsset_Deserialize : rd (Payload * err) :=
  '(a, e) ← Asset_Deserialize new_Asset;
  iferr e return (PRegisterAsset a 0 zero160) ;;
  '(amount, e) ← Fixed64_Deserialize 0;
  iferr e return (PRegisterAsset a amount zero160) ;;
  '(ctl, e) ← Uint160_Deserialize zero160;
  iferr e return (PRegisterAsset a amount ctl) ;;
  mret (PRegisterAsset a amount ctl, None).

Definition Record_Deserialize (d0 : bytes) : rd (Payload * err) :=
  '(ty, e) ← ReadVarString;
  if is_err e then mret (PRecord ty d0, Some (NewError "[RecordDetail], RecordType deserialize failed."))
  else
    '(d, e) ← ReadVarBytes;
    if is_err e then mret (PRecord ty d, Some (NewError "[RecordDetail], RecordData deserialize failed."))
    else mret (PRecord ty d, None).

Definition DeployCode_Deserialize (code : option FunctionCode) (n v a m d : bytes) : rd (Payload * err) :=
  '(code, e) ← FunctionCode_Deserialize code;
  iferr e return (PDeployCode code n v a m d) ;;
  '(n, e) ← ReadVarString;
  iferr e return (PDeployCode code n v a m d) ;;
  '(v, e) ← ReadVarString;
  iferr e return (PDeployCode code n v a m d) ;;
  '(a, e) ← ReadVarString;
  iferr e return (PDeployCode code n v a m d) ;;
  '(m, e) ← ReadVarString;
  iferr e return (PDeployCode code n v a m d) ;;
  '(d, e) ← ReadVarString;
  iferr e return (PDeployCode code n v a m d) ;;
  mret (PDeployCode code n v a m d, None).

Definition Payload_Deserialize (p : Payload) : rd (Payload * err) :=
  match p with
  | PCoinBase _ => CoinBase_Deserialize
  | PRegisterAsset _ _ _ => RegisterAsset_Deserialize
  | PTransferAsset => mret (PTransferAsset, None)
  | PRecord _ d0 => Record_Deserialize d0
  | PDeployCode c n v a m d => DeployCode_Deserialize c n v a m d
  end.

(** * Attributes, inputs, outputs, programs *)

Definition Nonce : Z := 0x00.
Definition Script : Z := 0x20.
Definition DescriptionUrl : Z := 0x81.
Definition Description : Z := 0x90.
Definition IsValidAttributeType (usage : Z) : bool :=
  (usage =? Nonce) || (usage =? Script) || (usage =? DescriptionUrl) || (usage =? Description).

Record TxAttribute := mkTxAttribute { at_Usage : Z; at_Data : bytes; at_Size : Z }.
Definition new_TxAttribute : TxAttribute := mkTxAttribute 0 [] 0.

Definition TxAttribute_GetSize (u : TxAttribute) : Z :=
  if at_Usage u =? DescriptionUrl then uint32 (1 + 1 + Z.of_nat (length (at_Data u))) else 0.
Definition NewTxAttribute (u : Z) (d : bytes) : TxAttribute :=
  mkTxAttribute u d (TxAttribute_GetSize (mkTxAttribute u d 0)).

Definition TxAttribute_Serialize (t : TxAttribute) : bytes * err :=
  if negb (IsValidAttributeType (at_Usage t))
  then (WriteUint8 (at_Usage t), Some (NewError "Unsupported attribute Description."))
  else (WriteUint8 (at_Usage t) ++ WriteVarBytes (at_Data t), None).

Definition TxAttribute_Deserialize (t : TxAttribute) : rd (TxAttribute * err) :=
  '(val, e) ← ReadBytes 1;
  if is_err e then mret (t, Some (NewError "Transaction attribute Usage deserialization error.")) else
  let t := mkTxAttribute (nth 0 val 0) (at_Data t) (at_Size t) in
  if negb (IsValidAttributeType (at_Usage t))
  then mret (t, Some (NewError "Unsupported attribute Description.")) else
  '(d, e) ← ReadVarBytes;
  let t := mkTxAttribute (at_Usage t) d (at_Size t) in
  if is_err e then mret (t, Some (NewError "Transaction attribute Data deserialization error."))
  else mret (t, None).

Record UTXOTxInput := mkInput { ReferTxID : Uint256; ReferTxOutputIndex : Z; Sequence : Z }.
Definition new_Input : UTXOTxInput := mkInput zero256 0 0.

Definition UTXOTxInput_Serialize (i : UTXOTxInput) : bytes :=
  Uint_Serialize (ReferTxID i) ++ WriteUint16 (ReferTxOutputIndex i) ++ WriteUint32 (Sequence i).

Definition UTXOTxInput_Deserialize (i : UTXOTxInput) : rd (UTXOTxInput * err) :=
  '(id, e) ← Uint256_Deserialize (ReferTxID i);
  iferr e return (mkInput id (ReferTxOutputIndex i) (Sequence i)) ;;
  '(idx, e) ← ReadUint16;
  iferr e return (mkInput id idx (Sequence i)) ;;
  '(sq, e) ← ReadUint32;
  iferr e return (mkInput id idx sq) ;;
  mret (mkInput id idx sq, None).

(** [fmt.Sprintf("%x%x", ...)]: the hexadecimal index has no leading zeros. *)
Fixpoint hex_digits (fuel : nat) (n : Z) (acc : bytes) : bytes :=
  match fuel with
  | O => acc
  | S fuel =>
      let acc := hex_digit (n mod 16) :: acc in
      if n / 16 =? 0 then acc else hex_digits fuel (n / 16) acc
  end.
Definition FormatHex16 (n : Z) : bytes := hex_digits 4 n [].
Definition UTXOTxInput_ToString (i : UTXOTxInput) : bytes :=
  EncodeToString (ReferTxID i) ++ FormatHex16 (ReferTxOutputIndex i).

(** [Equals]: the sequence number is not compared. *)
Definition UTXOTxInput_Equals (i o : UTXOTxInput) : bool :=
  bool_decide (ReferTxID i = ReferTxID o) && (ReferTxOutputIndex i =? ReferTxOutputIndex o).

Record TxOutput := mkOutput { o_AssetID : Uint256; o_Value : Fixed64; o_ProgramHash : Uint160 }.
Definition new_Output : TxOutput := mkOutput zero256 0 zero160.

Definition TxOutput_Serialize (o : TxOutput) : bytes :=
  Uint_Serialize (o_AssetID o) ++ Fixed64_Serialize (o_Value o) ++ Uint_Serialize (o_ProgramHash o).

(** [TxOutput.Deserialize] has no error result: it drops those of its fields. *)
Definition TxOutput_Deserialize (o : TxOutput) : rd (TxOutput * err) :=
  '(id, _) ← Uint256_Deserialize (o_AssetID o);
  '(v, _) ← Fixed64_Deserialize (o_Value o);
  '(ph, _) ← Uint160_Deserialize (o_ProgramHash o);
  mret (mkOutput id v ph, None).

Record UTXOUnspent := mkUnspent { Txid : Uint256; uu_Index : Z; uu_Value : Fixed64 }.
Definition new_Unspent : UTXOUnspent := mkUnspent zero256 0 0.

Definition UTXOUnspent_Serialize (u : UTXOUnspent) : bytes :=
  Uint_Serialize (Txid u) ++ WriteUint32 (uu_Index u) ++ Fixed64_Serialize (uu_Value u).

Definition UTXOUnspent_Deserialize (u : UTXOUnspent) : rd (UTXOUnspent * err) :=
  '(id, _) ← Uint256_Deserialize (Txid u);
  '(idx, e) ← ReadUint32;
  iferr e return (mkUnspent id idx (uu_Value u)) ;;
  '(v, _) ← Fixed64_Deserialize (uu_Value u);
  mret (mkUnspent id idx v, None).

Record BalanceTxInput := mkBalanceInput {
  b_AssetID : Uint256; b_Value : Fixed64; b_ProgramHash : Uint160 }.

Definition BalanceTxInput_Serialize (b : BalanceTxInput) : bytes :=
  Uint_Serialize (b_AssetID b) ++ Fixed64_Serialize (b_Value b) ++ Uint_Serialize (b_ProgramHash b).

Definition BalanceTxInput_Deserialize (b : BalanceTxInput) : rd (BalanceTxInput * err) :=
  '(id, e) ← Uint256_Deserialize (b_AssetID b);
  iferr e return (mkBalanceInput id (b_Value b) (b_ProgramHash b)) ;;
  '(v, e) ← Fixed64_Deserialize (b_Value b);
  iferr e return (mkBalanceInput id v (b_ProgramHash b)) ;;
  '(ph, e) ← Uint160_Deserialize (b_ProgramHash b);
  iferr e return (mkBalanceInput id v ph) ;;
  mret (mkBalanceInput id v ph, None).

Record Program := mkProgram { pg_Code : bytes; pg_Parameter : bytes }.
Definition new_Program : Program := mkProgram [] [].

Definition Program_Serialize (p : Program) : bytes :=
  WriteVarBytes (pg_Parameter p) ++ WriteVarBytes (pg_Code p).

Definition Program_Deserialize (p : Program) : rd (Program * err) :=
  '(parameter, e) ← ReadVarBytes;
  if is_err e then mret (p, Some (NewError "Execute Program Deserialize Parameter failed.")) else
  let p := mkProgram (pg_Code p) parameter in
  '(code, e) ← ReadVarBytes;
  if is_err e then mret (p, Some (NewError "Execute Program Deserialize Code failed."))
  else mret (mkProgram code parameter, None).

(** * Transactions *)

Definition CoinBase : Z := 0x00.
Definition RegisterAsset : Z := 0x01.
Definition TransferAsset : Z := 0x02.
Definition RecordTx : Z := 0x03.
Definition Deploy : Z := 0x04.

(** The serialised fields, the fee fields of the pool and the cached hash.
    The asset maps of the Go struct are never written or read. *)
Record Transaction := mkTx {
  TxType : Z; PayloadVersion : Z; payload : option Payload;
  Attributes : list TxAttribute; UTXOInputs : list UTXOTxInput;
  BalanceInputs : list BalanceTxInput; Outputs : list TxOutput;
  LockTime : Z; Programs : list Program;
  Fee : Fixed64; FeePerKB : Fixed64; tx_hash : option Uint256 }.

Definition new_Transaction : Transaction := mkTx 0 0 None [] [] [] [] 0 [] 0 0 None.

Definition set_TxType (t : Transaction) v := mkTx v (PayloadVersion t) (payload t) (Attributes t)
  (UTXOInputs t) (BalanceInputs t) (Outputs t) (LockTime t) (Programs t) (Fee t) (FeePerKB t) (tx_hash t).
Definition set_PayloadVersion (t : Transaction) v := mkTx (TxType t) v (payload t) (Attributes t)
  (UTXOInputs t) (BalanceInputs t) (Outputs t) (LockTime t) (Programs t) (Fee t) (FeePerKB t) (tx_hash t).
Definition set_Payload (t : Transaction) v := mkTx (TxType t) (PayloadVersion t) v (Attributes t)
  (UTXOInputs t) (BalanceInputs t) (Outputs t) (LockTime t) (Programs t) (Fee t) (FeePerKB t) (tx_hash t).
Definition set_Attributes (t : Transaction) v := mkTx (TxType t) (PayloadVersion t) (payload t) v
  (UTXOInputs t) (BalanceInputs t) (Outputs t) (LockTime t) (Programs t) (Fee t) (FeePerKB t) (tx_hash t).
Definition set_UTXOInputs (t : Transaction) v := mkTx (TxType t) (PayloadVersion t) (payload t) (Attributes t)
  v (BalanceInputs t) (Outputs t) (LockTime t) (Programs t) (Fee t) (FeePerKB t) (tx_hash t).
Definition set_Outputs (t : Transaction) v := mkTx (TxType t) (PayloadVersion t) (payload t) (Attributes t)
  (UTXOInputs t) (BalanceInputs t) v (LockTime t) (Programs t) (Fee t) (FeePerKB t) (tx_hash t).
Definition set_LockTime (t : Transaction) v := mkTx (TxType t) (PayloadVersion t) (payload t) (Attributes t)
  (UTXOInputs t) (BalanceInputs t) (Outputs t) v (Programs t) (Fee t) (FeePerKB t) (tx_hash t).
Definition SetPrograms (t : Transaction) v := mkTx (TxType t) (PayloadVersion t) (payload t) (Attributes t)
  (UTXOInputs t) (BalanceInputs t) (Outputs t) (LockTime t) v (Fee t) (FeePerKB t) (tx_hash t).
Definition set_Fees (t : Transaction) f k := mkTx (TxType t) (PayloadVersion t) (payload t) (Attributes t)
  (UTXOInputs t) (BalanceInputs t) (Outputs t) (LockTime t) (Programs t) f k (tx_hash t).
Definition SetHash (t : Transaction) h := mkTx (TxType t) (PayloadVersion t) (payload t) (Attributes t)
  (UTXOInputs t) (BalanceInputs t) (Outputs t) (LockTime t) (Programs t) (Fee t) (FeePerKB t) (Some h).

(** ** Serialisation *)

Definition SerializeUnsigned (t : Transaction) : option (bytes * err) :=
  let head := [TxType t] ++ [PayloadVersion t] in
  match payload t with
  | None => Some (head, Some (NewError "Transaction Payload is nil."))
  | Some p =>
      pl ← Payload_Serialize p;
      Some (head ++ pl ++
        WriteVarUint (Z.of_nat (length (Attributes t))) ++
        concat (map (fun a => (TxAttribute_Serialize a).1) (Attributes t)) ++
        WriteVarUint (Z.of_nat (length (UTXOInputs t))) ++
        concat (map UTXOTxInput_Serialize (UTXOInputs t)) ++
        WriteVarUint (Z.of_nat (length (Outputs t))) ++
        concat (map TxOutput_Serialize (Outputs t)) ++
        WriteUint32 (LockTime t), None)
  end.

Definition Tx_Serialize (t : Transaction) : option (bytes * err) :=
  '(u, e) ← SerializeUnsigned t;
  match e with
  | Some _ => Some (u, e)
  | None => Some (u ++ WriteVarUint (Z.of_nat (length (Programs t))) ++
                  concat (map Program_Serialize (Programs t)), None)
  end.

Definition DeserializeUnsignedWithoutType (t : Transaction) : rd (Transaction * err) :=
  '(pv, e) ← ReadFull 1;
  let t := set_PayloadVersion t (nth 0 (fill 1 pv) 0) in
  iferr e return t ;;
  match new_Payload (TxType t) with
  | None => mret (t, Some (NewError "[Transaction], invalid transaction type."))
  | Some p0 =>
      '(p, e) ← Payload_Deserialize p0;
      let t := set_Payload t (Some p) in
      if is_err e then mret (t, Some (NewError "Payload Parse error")) else
      '(Len, e) ← ReadVarUint 0;
      iferr e return t ;;
      '(attrs, e) ← read_loop (Z.to_nat Len) (TxAttribute_Deserialize new_TxAttribute) (Attributes t);
      let t := set_Attributes t attrs in
      iferr e return t ;;
      '(Len, e) ← ReadVarUint 0;
      iferr e return t ;;
      '(ins, e) ← read_loop (Z.to_nat Len) (UTXOTxInput_Deserialize new_Input) (UTXOInputs t);
      let t := set_UTXOInputs t ins in
      iferr e return t ;;
      '(Len, e) ← ReadVarUint 0;
      iferr e return t ;;
      outs ← read_loop_unchecked (Z.to_nat Len) (TxOutput_Deserialize new_Output) (Outputs t);
      let t := set_Outputs t outs in
      '(temp, e) ← ReadUint32;
      let t := set_LockTime t temp in
      iferr e return t ;;
      mret (t, None)
  end.

Definition DeserializeUnsigned (t : Transaction) : rd (Transaction * err) :=
  '(ty, e) ← ReadFull 1;
  iferr e return t ;;
  DeserializeUnsignedWithoutType (set_TxType t (nth 0 ty 0)).

Definition Tx_Deserialize (t : Transaction) : rd (Transaction * err) :=
  '(t, e) ← DeserializeUnsigned t;
  if is_err e then mret (t, Some (NewError "transaction Deserialize error")) else
  '(lens, e) ← ReadVarUint 0;
  if is_err e then mret (t, Some (NewError "transaction tx program Deserialize error")) else
  if 0 <? lens then
    ps ← read_loop_unchecked (Z.to_nat (int64 lens)) (Program_Deserialize new_Program) [];
    mret (SetPrograms t ps, None)
  else mret (t, None).

Definition InvalidTransactionSize : Z := -1.
Definition Tx_GetSize (t : Transaction) : option Z :=
  '(b, e) ← Tx_Serialize t;
  Some (if is_err e then InvalidTransactionSize else Z.of_nat (length b)).

(** ** Hash *)

(** [sig.GetHashData]: what [SerializeUnsigned] wrote, its error dropped. *)
Definition Tx_GetHashData (t : Transaction) : option bytes :=
  '(b, _) ← SerializeUnsigned t; Some b.

Definition Tx_Hash (t : Transaction) : option Uint256 :=
  match tx_hash t with
  | Some h => Some h
  | None => d ← Tx_GetHashData t; Some (dsha256 d)
  end.

Definition IsCoinBaseTx (t : Transaction) : bool := TxType t =? CoinBase.

(** ** Builders *)

Definition NewCoinBaseTransaction (coinBasePayload : Payload) (currentHeight : Z) : Transaction :=
  mkTx CoinBase CoinBasePayloadVersion (Some coinBasePayload) [] [mkInput zero256 0 0] [] []
    currentHeight [] 0 0 None.
Definition NewTransferAssetTransaction (inputs : list UTXOTxInput) (outputs : list TxOutput) : Transaction :=
  mkTx TransferAsset 0 (Some PTransferAsset) [] inputs [] outputs 0 [] 0 0 None.
Definition NewRecordTransaction (recordType recordData : bytes) : Transaction :=
  mkTx RecordTx 0 (Some (PRecord recordType recordData)) [] [] [] [] 0 [] 0 0 None.

(** ** References and results *)

(** The [ILedgerStore] of the package: the transaction stored under a hash
    with the height of its block, or an error. *)
Class TxStore := GetTransaction : Uint256 -> (Transaction * Z) + error.

Section References.
Context `{store : TxStore}.

(** The Go map is keyed by the input pointers, so it has one entry per
    input, listed here in input order. *)
Fixpoint GetReference_loop (ins : list UTXOTxInput) : list (UTXOTxInput * TxOutput) * err :=
  match ins with
  | [] => ([], None)
  | i :: ins =>
      match GetTransaction (ReferTxID i) with
      | inr _ => ([], Some (NewError "[Transaction], GetReference failed."))
      | inl (rt, _) =>
          match Outputs rt !! Z.to_nat (ReferTxOutputIndex i) with
          | None => ([], Some (NewError "[Transaction], GetReference failed, refIdx out of range."))
          | Some o =>
              let '(refs, e) := GetReference_loop ins in
              match e with
              | Some _ => ([], e)
              | None => ((i, o) :: refs, None)
              end
          end
      end
  end.
Definition GetReference (t : Transaction) : list (UTXOTxInput * TxOutput) * err :=
  if TxType t =? RegisterAsset then ([], None) else GetReference_loop (UTXOInputs t).

(** [amout, ok := result[v.AssetID]; result[v.AssetID] = amout + v.Value]. *)
Definition merge_value (result : gmap Uint256 Fixed64) (v : TxOutput) : gmap Uint256 Fixed64 :=
  match result !! o_AssetID v with
  | Some amout => <[o_AssetID v := int64 (amout + o_Value v)]> result
  | None => <[o_AssetID v := o_Value v]> result
  end.

Definition GetMergedAssetIDValueFromOutputs (t : Transaction) : gmap Uint256 Fixed64 :=
  fold_left merge_value (Outputs t) ∅.

Definition GetMergedAssetIDValueFromReference (t : Transaction) : gmap Uint256 Fixed64 * err :=
  let '(refs, e) := GetReference t in
  match e with
  | Some _ => (∅, e)
  | None => (fold_left merge_value (map snd refs) ∅, None)
  end.

(** The two loops handle every asset once: an asset of the outputs gets the
    (wrapping) difference, an asset of the inputs only gets its input sum. *)
Definition result_entry (input output : option Fixed64) : option Fixed64 :=
  match input, output with
  | Some i, Some o => Some (int64 (i - o))
  | None, Some o => Some (int64 (0 - o))
  | Some i, None => Some (int64 (0 + i))
  | None, None => None
  end.
Definition GetTransactionResults (t : Transaction) : gmap Uint256 Fixed64 * err :=
  let outputResult := GetMergedAssetIDValueFromOutputs t in
  let '(InputResult, e) := GetMergedAssetIDValueFromReference t in
  match e with
  | Some _ => (∅, e)
  | None => (merge result_entry InputResult outputResult, None)
  end.

Definition GetFee (t : Transaction) (assetID : Uint256) : Z :=
  let '(res, e) := GetTransactionResults t in
  match e with
  | Some _ => 0
  | None => default 0 (res !! assetID)
  end.

Fixpoint script_hashes (attrs : list TxAttribute) : list Uint160 * err :=
  match attrs with
  | [] => ([], None)
  | a :: attrs =>
      if at_Usage a =? Script then
        let '(h, e) := Uint160ParseFromBytes (at_Data a) in
        match e with
        | Some _ => ([], Some (NewError "[Transaction], GetProgramHashes err."))
        | None => let '(hs, e) := script_hashes attrs in (h :: hs, e)
        end
      else script_hashes attrs
  end.

(** [byProgramHashes.Less]. *)
Definition byProgramHashes_Less (a b : Uint160) : bool :=
  if 0 <? CompareTo a b then false else true.

(** The set of hashes, without duplicates, in [CompareTo] order. *)
Definition GetProgramHashes (t : Transaction) : list Uint160 * err :=
  let '(refs, e) := GetReference t in
  match e with
  | Some _ => ([], Some (NewError "[Transaction], GetProgramHashes failed."))
  | None =>
      let '(hs, e) := script_hashes (Attributes t) in
      match e with
      | Some _ => ([], e)
      | None => (sort_by byProgramHashes_Less (remove_dups (map (fun r => o_ProgramHash r.2) refs ++ hs)), None)
      end
  end.
End References.

(** ** Multi-signature programs *)

Definition PublickKeyScriptLen : nat := 35.
Definition SignatureScriptLen : nat := 65.
Definition MinMultisigCodeLen : nat := 105.

Section Multisig.
Variable ripemd160 : bytes -> bytes.

Fixpoint multisig_hashes (n : nat) (code : bytes) : list Uint160 :=
  match n with
  | O => []
  | S n =>
      (ToCodeHash ripemd160 (take 34 code ++ [0xac])).1 :: multisig_hashes n (drop 34 code)
  end.

(** [None] is the [nil] the function returns on a code it rejects. *)
Definition ParseMultisigTransactionCode (code : bytes) : option (list Uint160) :=
  if (length code <? MinMultisigCodeLen)%nat then None
  else
    let code := take (length code - 1) code in
    let code := drop 1 code in
    let code := take (length code - 1) code in
    if negb (Nat.modulo (length code) (PublickKeyScriptLen - 1) =? 0)%nat then None
    else Some (multisig_hashes (Nat.div (length code) (PublickKeyScriptLen - 1)) code).
End Multisig.

Definition ParseTransactionSig (t : Transaction) : (Z * Z) * err :=
  match Programs t with
  | [] => ((-1, -1), Some (NewError "missing transation program"))
  | p :: _ =>
      ((Z.of_nat (Nat.div (length (pg_Parameter p)) SignatureScriptLen),
        Z.of_nat (Nat.modulo (length (pg_Parameter p)) SignatureScriptLen)), None)
  end.

(** [None] is the panic of [Parameter[havesig*SignatureScriptLen+1:]] when
    nothing follows the signatures. *)
Definition AppendNewSignature (t : Transaction) (sig : bytes) : option (Transaction * err) :=
  match Programs t with
  | [] => Some (t, Some (NewError "missing transation program"))
  | p :: ps =>
      let newsig := uint8 (Z.of_nat (length sig)) :: sig in
      let havesig := Nat.div (length (pg_Parameter p)) SignatureScriptLen in
      let existedsigs := take (havesig * SignatureScriptLen) (pg_Parameter p) in
      if (havesig * SignatureScriptLen + 1 <=? length (pg_Parameter p))%nat then
        let leftsigs := drop (havesig * SignatureScriptLen + 1) (pg_Parameter p) in
        Some (SetPrograms t (mkProgram (pg_Code p) (existedsigs ++ newsig ++ leftsigs) :: ps), None)
      else None
  end.

(** * Round trips *)

Lemma ReadFull_cons k b rest : ReadFull 1 (mkReader k (b :: rest)) = Some (([b], None), mkReader k rest).
Proof. apply (ReadFull_app k [b] rest 1); done. Qed.

(** A single raw byte in front of the data. *)
Ltac byte_field :=
  cbn [app];
  first [ erewrite rd_bind_Some by apply Read_cons
        | erewrite rd_bind_Some by apply ReadFull_cons ];
  cbn beta iota; cbn [length Nat.eqb nth fill is_err app].

Abbreviation small l := (Z.of_nat (length l) <= maxAlloc).

Definition wf_Asset (a : Asset) : Prop := small (a_Name a) /\ small (a_Description a).

Lemma Asset_reads a : wf_Asset a -> reads any_tail (Asset_Deserialize new_Asset) (Asset_Serialize a) a.
Proof.
  intros [Hn Hd] k rest _. unfold Asset_Deserialize, Asset_Serialize. rewrite <- !app_assoc.
  field. cbn [is_err]. field. cbn [is_err].
  do 3 byte_field. destruct a; reflexivity.
Qed.
#[export] Hint Resolve Asset_reads : dna.

Definition wf_Payload (p : Payload) : Prop :=
  match p with
  | PCoinBase d => small d
  | PRegisterAsset a amount ctl => wf_Asset a /\ inS 64 amount /\ wf_u160 ctl
  | PTransferAsset => True
  | PRecord ty d => small ty /\ small d
  | PDeployCode _ _ _ _ _ _ => False
  end.

(** The payload kind of a transaction type. *)
Definition payload_type (p : Payload) : Z :=
  match p with
  | PCoinBase _ => CoinBase
  | PRegisterAsset _ _ _ => RegisterAsset
  | PTransferAsset => TransferAsset
  | PRecord _ _ => RecordTx
  | PDeployCode _ _ _ _ _ _ => Deploy
  end.

Lemma Payload_reads p :
  wf_Payload p ->
  exists p0 enc, new_Payload (payload_type p) = Some p0 /\ Payload_Serialize p = Some enc /\
    reads live_tail (Payload_Deserialize p0) enc p.
Proof.
  intros Hp. destruct p as [d|a amount ctl| |ty d|]; [| | | |destruct Hp].
  all: do 2 eexists; split; [reflexivity|split; [reflexivity|]]; intros k rest Ht; cbn in Hp.
  - cbn [Payload_Deserialize]. unfold CoinBase_Deserialize, CoinBase_Serialize. field. reflexivity.
  - destruct Hp as (Ha & Hm & Hc). cbn [Payload_Deserialize]. unfold RegisterAsset_Deserialize, RegisterAsset_Serialize.
    rewrite <- !app_assoc. do 3 field. reflexivity.
  - reflexivity.
  - destruct Hp as [Hy Hd]. cbn [Payload_Deserialize]. unfold Record_Deserialize, Record_Serialize.
    rewrite <- !app_assoc. do 2 (field; cbn [is_err]). reflexivity.
Qed.

Definition wf_TxAttribute (a : TxAttribute) : Prop :=
  IsValidAttributeType (at_Usage a) = true /\ small (at_Data a) /\ at_Size a = 0.

Lemma valid_usage_byte u : IsValidAttributeType u = true -> 0 <= u < 256.
Proof.
  unfold IsValidAttributeType, Nonce, Script, DescriptionUrl, Description.
  rewrite !orb_true_iff, !Z.eqb_eq. lia.
Qed.

Lemma ReadBytes_1 b : reads any_tail (ReadBytes 1) [b] [b].
Proof. intros k rest _. unfold ReadBytes. erewrite rd_bind_Some by (by apply (byteXReader_reads [b])). done. Qed.

Lemma TxAttribute_reads a :
  wf_TxAttribute a ->
  reads live_tail (TxAttribute_Deserialize new_TxAttribute) (TxAttribute_Serialize a).1 a.
Proof.
  intros (Hu & Hd & Hs) k rest Ht. unfold TxAttribute_Deserialize, TxAttribute_Serialize.
  rewrite Hu. cbn [negb fst]. unfold WriteUint8. rewrite <- app_assoc.
  erewrite (rd_field any_tail) by (exact I || apply ReadBytes_1).
  cbn beta iota. cbn [is_err nth at_Usage]. rewrite Hu. cbn [negb]. field. cbn [is_err].
  destruct a; cbn in *. by subst.
Qed.

#[export] Instance TxAttribute_SerializableData : SerializableData TxAttribute live_tail := {
  sd_new := new_TxAttribute; sd_wf := wf_TxAttribute;
  sd_Serialize := fun a => (TxAttribute_Serialize a).1;
  sd_Deserialize := TxAttribute_Deserialize; sd_tail := _; sd_roundtrip := TxAttribute_reads }.

Definition wf_Input (i : UTXOTxInput) : Prop :=
  wf_u256 (ReferTxID i) /\ inU 16 (ReferTxOutputIndex i) /\ inU 32 (Sequence i).

Lemma Input_reads i :
  wf_Input i -> reads any_tail (UTXOTxInput_Deserialize new_Input) (UTXOTxInput_Serialize i) i.
Proof.
  intros (Hi & Hx & Hs) k rest _. unfold UTXOTxInput_Deserialize, UTXOTxInput_Serialize.
  rewrite <- !app_assoc. do 3 field. destruct i; reflexivity.
Qed.

#[export] Instance Input_SerializableData : SerializableData UTXOTxInput any_tail := {
  sd_new := new_Input; sd_wf := wf_Input; sd_Serialize := UTXOTxInput_Serialize;
  sd_Deserialize := UTXOTxInput_Deserialize; sd_tail := _; sd_roundtrip := Input_reads }.

Definition wf_Output (o : TxOutput) : Prop :=
  wf_u256 (o_AssetID o) /\ inS 64 (o_Value o) /\ wf_u160 (o_ProgramHash o).

Lemma Output_reads o :
  wf_Output o -> reads any_tail (TxOutput_Deserialize new_Output) (TxOutput_Serialize o) o.
Proof.
  intros (Ha & Hv & Hp) k rest _. unfold TxOutput_Deserialize, TxOutput_Serialize.
  rewrite <- !app_assoc. do 3 field. destruct o; reflexivity.
Qed.

Definition wf_Unspent (u : UTXOUnspent) : Prop :=
  wf_u256 (Txid u) /\ inU 32 (uu_Index u) /\ inS 64 (uu_Value u).

Lemma Unspent_reads u :
  wf_Unspent u -> reads any_tail (UTXOUnspent_Deserialize new_Unspent) (UTXOUnspent_Serialize u) u.
Proof.
  intros (Ha & Hv & Hp) k rest _. unfold UTXOUnspent_Deserialize, UTXOUnspent_Serialize.
  rewrite <- !app_assoc. do 3 field. destruct u; reflexivity.
Qed.

#[export] Instance Unspent_SerializableData : SerializableData UTXOUnspent any_tail := {
  sd_new := new_Unspent; sd_wf := wf_Unspent; sd_Serialize := UTXOUnspent_Serialize;
  sd_Deserialize := UTXOUnspent_Deserialize; sd_tail := _; sd_roundtrip := Unspent_reads }.

Lemma BalanceInput_reads b0 b :
  wf_u256 (b_AssetID b) -> inS 64 (b_Value b) -> wf_u160 (b_ProgramHash b) ->
  reads any_tail (BalanceTxInput_Deserialize b0) (BalanceTxInput_Serialize b) b.
Proof.
  intros Ha Hv Hp k rest _. unfold BalanceTxInput_Deserialize, BalanceTxInput_Serialize.
  rewrite <- !app_assoc. do 3 field. destruct b; reflexivity.
Qed.

Definition wf_Program (p : Program) : Prop := small (pg_Code p) /\ small (pg_Parameter p).

(** Whatever follows, the value is read back; only the error may be [io.EOF]
    of an empty code at the very end. *)
Lemma Program_reads_value p k rest :
  wf_Program p ->
  exists e, Program_Deserialize new_Program (mkReader k (Program_Serialize p ++ rest))
            = Some ((p, e), mkReader k rest).
Proof.
  intros [Hc Hp]. unfold Program_Deserialize, Program_Serialize. rewrite <- !app_assoc.
  field. cbn [is_err].
  erewrite rd_bind_Some by (by apply ReadVarBytes_Write). case_decide as D; eexists.
  - destruct D as (E & _ & _). cbn. destruct p; cbn in *; by subst.
  - cbn. destruct p; reflexivity.
Qed.

(** The transactions whose every field survives: a payload matching the type
    (not a contract deployment), allocatable byte strings, field values in the
    range of their Go types, and no balance inputs and no hash computed before
    (neither is serialised). *)
Record wf_Tx (t : Transaction) : Prop := {
  wf_payload : exists p, payload t = Some p /\ wf_Payload p /\ TxType t = payload_type p;
  wf_attrs : Forall wf_TxAttribute (Attributes t);
  wf_ins : Forall wf_Input (UTXOInputs t);
  wf_outs : Forall wf_Output (Outputs t);
  wf_progs : Forall wf_Program (Programs t);
  wf_balance : BalanceInputs t = [];
  wf_lock : inU 32 (LockTime t);
  wf_lens : Z.of_nat (length (Attributes t)) < 2 ^ 63 /\ Z.of_nat (length (UTXOInputs t)) < 2 ^ 63 /\
            Z.of_nat (length (Outputs t)) < 2 ^ 63 /\ Z.of_nat (length (Programs t)) < 2 ^ 63;
  wf_fresh : Fee t = 0 /\ FeePerKB t = 0 /\ tx_hash t = None }.

Lemma read_list_reads {A} T `{!SerializableData A T} (l : list A) k rest {B} (f : list A * err -> rd B) :
  Forall sd_wf l -> T k rest ->
  (read_loop (Z.to_nat (Z.of_nat (length l))) (sd_Deserialize sd_new) [] ≫= f)
    (mkReader k (concat (map sd_Serialize l) ++ rest)) = f (l, None) (mkReader k rest).
Proof.
  intros Hl Ht. rewrite Nat2Z.id. apply rd_bind_Some. exact (read_loop_reads l [] Hl k rest Ht).
Qed.

Lemma read_attrs_reads l k rest {B} (f : list TxAttribute * err -> rd B) :
  Forall wf_TxAttribute l -> live_tail k rest ->
  (read_loop (Z.to_nat (Z.of_nat (length l))) (TxAttribute_Deserialize new_TxAttribute) [] ≫= f)
    (mkReader k (concat (map (fun a => (TxAttribute_Serialize a).1) l) ++ rest))
  = f (l, None) (mkReader k rest).
Proof. intros Hl Ht. exact (read_list_reads live_tail l k rest f Hl Ht). Qed.

Lemma read_inputs_reads l k rest {B} (f : list UTXOTxInput * err -> rd B) :
  Forall wf_Input l ->
  (read_loop (Z.to_nat (Z.of_nat (length l))) (UTXOTxInput_Deserialize new_Input) [] ≫= f)
    (mkReader k (concat (map UTXOTxInput_Serialize l) ++ rest)) = f (l, None) (mkReader k rest).
Proof. intros Hl. exact (read_list_reads any_tail l k rest f Hl I). Qed.

Lemma read_outputs_reads l k rest {B} (f : list TxOutput -> rd B) :
  Forall wf_Output l ->
  (read_loop_unchecked (Z.to_nat (Z.of_nat (length l))) (TxOutput_Deserialize new_Output) [] ≫= f)
    (mkReader k (concat (map TxOutput_Serialize l) ++ rest)) = f l (mkReader k rest).
Proof.
  intros Hl. rewrite Nat2Z.id. apply rd_bind_Some.
  rewrite (read_loop_unchecked_reads any_tail TxOutput_Serialize); [done| |done].
  intros a Ha k' rest' _. exists None. apply Output_reads; [|done].
  rewrite list.Forall_forall in Hl. by apply Hl.
Qed.

Lemma read_programs_reads l k rest :
  Forall wf_Program l -> Z.of_nat (length l) < 2 ^ 63 ->
  read_loop_unchecked (Z.to_nat (int64 (Z.of_nat (length l)))) (Program_Deserialize new_Program) []
    (mkReader k (concat (map Program_Serialize l) ++ rest)) = Some (l, mkReader k rest).
Proof.
  intros Hl Hn. rewrite wrapS_id, Nat2Z.id by lia.
  rewrite (read_loop_unchecked_reads any_tail Program_Serialize); [done| |done].
  intros a Ha k' rest' _. apply Program_reads_value. rewrite list.Forall_forall in Hl. by apply Hl.
Qed.

(** The unsigned part is read back, with the programs still to come. *)
Lemma DeserializeUnsigned_reads t :
  wf_Tx t ->
  exists enc, SerializeUnsigned t = Some (enc, None) /\
    reads any_tail (DeserializeUnsigned new_Transaction) enc (SetPrograms t []).
Proof.
  intros [(p & Ep & Wp & Ety) Wa Wi Wo _ Wb Wl (La & Li & Lo & _) (Hf & Hk & Hh)].
  destruct (Payload_reads p Wp) as (p0 & pl & Ep0 & Epl & Hpl).
  unfold SerializeUnsigned. rewrite Ep. cbn [mbind option_bind]. rewrite Epl. cbn [mbind option_bind].
  eexists. split; [reflexivity|]. intros k rest _.
  unfold DeserializeUnsigned, DeserializeUnsignedWithoutType. rewrite <- !app_assoc.
  byte_field. byte_field. cbn [TxType set_TxType set_PayloadVersion].
  rewrite Ety, Ep0.
  erewrite (rd_field live_tail); [|exact Hpl|live]. cbn beta iota. cbn [is_err].
  erewrite (rd_field any_tail); [|apply ReadVarUint_reads; lia|exact I]. cbn beta iota.
  cbn [Attributes set_Payload set_PayloadVersion set_TxType new_Transaction].
  rewrite read_attrs_reads by (done || live). cbn beta iota.
  erewrite (rd_field any_tail); [|apply ReadVarUint_reads; lia|exact I]. cbn beta iota.
  cbn [UTXOInputs set_Attributes set_Payload set_PayloadVersion set_TxType new_Transaction].
  rewrite read_inputs_reads by done. cbn beta iota.
  erewrite (rd_field any_tail); [|apply ReadVarUint_reads; lia|exact I]. cbn beta iota.
  cbn [Outputs set_UTXOInputs set_Attributes set_Payload set_PayloadVersion set_TxType new_Transaction].
  rewrite read_outputs_reads by done. field.
  destruct t; cbn in *; by subst.
Qed.

Lemma Tx_Deserialize_reads t :
  wf_Tx t ->
  exists enc, Tx_Serialize t = Some (enc, None) /\
    reads any_tail (Tx_Deserialize new_Transaction) enc t.
Proof.
  intros W. destruct (DeserializeUnsigned_reads t W) as (u & Eu & Hu).
  destruct W as [_ _ _ _ Wp _ _ (_ & _ & _ & Lp) _].
  unfold Tx_Serialize. rewrite Eu. cbn [mbind option_bind]. eexists. split; [reflexivity|].
  intros k rest _. unfold Tx_Deserialize. rewrite <- !app_assoc.
  erewrite (rd_field any_tail); [|exact Hu|exact I]. cbn beta iota. cbn [is_err].
  erewrite (rd_field any_tail); [|apply ReadVarUint_reads; lia|exact I]. cbn beta iota. cbn [is_err].
  destruct (Z.ltb_spec 0 (Z.of_nat (length (Programs t)))).
  - erewrite rd_bind_Some by (by apply read_programs_reads). destruct t; reflexivity.
  - assert (Programs t = []) as E by (destruct (Programs t); [done|simpl in *; lia]).
    rewrite E. cbn [map concat app]. destruct t; cbn in *. by subst.
Qed.

(** What happens on the bytes of a contract deployment. *)
Lemma Deploy_Deserialize_panics t0 v p k rest :
  small p -> ~ (p = [] /\ rest = [] /\ k = BytesReader) ->
  DeserializeUnsigned t0 (mkReader k ([Deploy] ++ [v] ++ WriteVarBytes p ++ rest)) = None.
Proof.
  intros Hp Hn. unfold DeserializeUnsigned, DeserializeUnsignedWithoutType.
  byte_field. byte_field. cbn [TxType set_TxType set_PayloadVersion].
  change (new_Payload Deploy) with (Some (PDeployCode None [] [] [] [] [])).
  cbn [Payload_Deserialize]. unfold DeployCode_Deserialize, FunctionCode_Deserialize.
  apply rd_bind_None, rd_bind_None.
  erewrite rd_bind_Some by (by apply ReadVarBytes_Write). by rewrite decide_False by done.
Qed.

(** * References, results, program hashes *)

Definition asset_sum (a : Uint256) (outs : list TxOutput) : Z :=
  foldr (fun o s => (if decide (o_AssetID o = a) then o_Value o else 0) + s) 0 outs.

Lemma merged_lookup outs m a :
  Forall (fun o => inS 64 (o_Value o)) outs -> (forall b x, m !! b = Some x -> inS 64 x) ->
  fold_left merge_value outs m !! a =
    if decide (a ∈ map o_AssetID outs \/ is_Some (m !! a))
    then Some (int64 (default 0 (m !! a) + asset_sum a outs)) else None.
Proof.
  intros Ho. revert m. induction Ho as [|o outs Hv _ IH]; intros m Hm; cbn [fold_left map asset_sum foldr].
  - case_decide as D; [|destruct (m !! a) eqn:E; [destruct D; right; eauto|done]].
    destruct D as [D|[x D]]; [by apply not_elem_of_nil in D|].
    rewrite D. simpl. rewrite Z.add_0_r, wrapS_id by (eauto || lia). done.
  - fold (asset_sum a outs).
    rewrite IH.
    2:{ intros b x. unfold merge_value. destruct (m !! o_AssetID o) eqn:E; intros Hb;
        apply lookup_insert_Some in Hb as [[_ <-]|[_ Hb]]; eauto. apply wrapS_range; lia. }
    unfold merge_value.
    destruct (decide (o_AssetID o = a)) as [<-|Hne].
    + rewrite (decide_True (P := o_AssetID o ∈ o_AssetID o :: _ \/ _)) by (left; constructor).
      destruct (m !! o_AssetID o) as [x|] eqn:E; rewrite lookup_insert_eq;
        rewrite decide_True by (right; eauto); simpl; f_equal.
      * rewrite wrapS_add. f_equal. lia.
    + assert (El : forall y : Z, <[o_AssetID o := y]> m !! a = m !! a) by (intros; by apply lookup_insert_ne).
      rewrite Z.add_0_l.
      destruct (m !! o_AssetID o); rewrite El.
      all: destruct (decide (a ∈ map o_AssetID outs \/ is_Some (m !! a))) as [D|D].
      all: destruct (decide (a ∈ o_AssetID o :: map o_AssetID outs \/ is_Some (m !! a))) as [D'|D']; try done.
      all: exfalso; rewrite elem_of_cons in D'; clear - Hne D D'.
      all: destruct D' as [[E|E]|E] || (apply D'; destruct D as [E|E]); auto.
Qed.

Lemma merged_lookup_empty outs a :
  Forall (fun o => inS 64 (o_Value o)) outs ->
  fold_left merge_value outs ∅ !! a =
    if decide (a ∈ map o_AssetID outs) then Some (int64 (asset_sum a outs)) else None.
Proof.
  intros Ho. rewrite merged_lookup by (done || by intros b x; rewrite lookup_empty).
  rewrite lookup_empty. simpl.
  destruct (decide (a ∈ _ \/ _)) as [D|D]; destruct (decide (a ∈ map o_AssetID outs)); try done.
  - destruct D as [|[? ?]]; done.
  - naive_solver.
Qed.

Lemma asset_sum_absent a outs : a ∉ map o_AssetID outs -> asset_sum a outs = 0.
Proof.
  induction outs as [|o outs IH]; intros Hn; [done|]. simpl in *.
  rewrite not_elem_of_cons in Hn. destruct Hn as [Hn Hn'].
  rewrite decide_False by congruence. rewrite IH by done. done.
Qed.

Section ReferenceLemmas.
Context `{store : TxStore}.

Lemma results_lookup t refs a :
  GetReference t = (refs, None) ->
  Forall (fun o => inS 64 (o_Value o)) (map snd refs) ->
  Forall (fun o => inS 64 (o_Value o)) (Outputs t) ->
  exists res, GetTransactionResults t = (res, None) /\
    res !! a = if decide (a ∈ map o_AssetID (map snd refs) \/ a ∈ map o_AssetID (Outputs t))
               then Some (int64 (asset_sum a (map snd refs) - asset_sum a (Outputs t)))
               else None.
Proof.
  intros Hr Hi Ho. unfold GetTransactionResults, GetMergedAssetIDValueFromReference.
  rewrite Hr. eexists. split; [reflexivity|].
  rewrite lookup_merge. unfold GetMergedAssetIDValueFromOutputs.
  rewrite !merged_lookup_empty by done.
  destruct (decide (a ∈ map o_AssetID (map snd refs))) as [Di|Di];
    destruct (decide (a ∈ map o_AssetID (Outputs t))) as [Do|Do]; cbn [diag_None result_entry].
  - rewrite decide_True by auto. f_equal. apply wrapS_sub.
  - rewrite decide_True by auto. f_equal. rewrite (asset_sum_absent a (Outputs t)) by done.
    rewrite Z.add_0_l, Z.sub_0_r. apply wrapS_id; [lia|]. apply wrapS_range. lia.
  - rewrite decide_True by auto. f_equal. rewrite (asset_sum_absent a (map snd refs)) by done.
    rewrite <- (wrapS_sub 64 0 (asset_sum a (Outputs t))). done.
  - rewrite decide_False; [done|by intros [?|?]].
Qed.

Lemma ph_le_spec a b : wf_u160 a -> wf_u160 b ->
  byProgramHashes_Less a b = (le_val a <=? le_val b).
Proof.
  intros [La Wa] [Lb Wb]. unfold byProgramHashes_Less. rewrite CompareTo_spec by (done || congruence).
  destruct (Z.compare_spec (le_val a) (le_val b)) as [E|E|E]; simpl;
    destruct (Z.leb_spec (le_val a) (le_val b)); lia.
Qed.

Lemma sorted_hashes l :
  Forall wf_u160 l -> StronglySorted (fun a b => byProgramHashes_Less a b = true) (sort_by byProgramHashes_Less l).
Proof.
  apply (sort_by_sorted byProgramHashes_Less wf_u160).
  - intros x y Hx Hy. rewrite !ph_le_spec by done. lia.
  - intros x y z Hx Hy Hz. rewrite !ph_le_spec by done. lia.
Qed.

Lemma sorted_hashes_strict l :
  Forall wf_u160 l -> NoDup l ->
  StronglySorted (fun a b => le_val a < le_val b) (sort_by byProgramHashes_Less l).
Proof.
  intros W N. pose proof (sorted_hashes l W) as S.
  assert (W' : Forall wf_u160 (sort_by byProgramHashes_Less l)) by (by rewrite sort_by_perm).
  assert (N' : NoDup (sort_by byProgramHashes_Less l)) by (by rewrite sort_by_perm).
  revert W' N'. induction S as [|a l' _ IH Ha]; intros W' N'; constructor.
  - apply IH; [by inversion W'|by inversion N'].
  - apply list.Forall_cons in W' as [Wa Wl]. inversion N' as [|? ? Na _]; subst.
    rewrite !list.Forall_forall in *. intros b Hb.
    specialize (Ha b Hb). rewrite ph_le_spec in Ha by auto. apply Z.leb_le in Ha.
    assert (le_val a <> le_val b); [|lia].
    intros E. apply le_val_inj in E; [by subst| | |]; try apply Wa; try apply (Wl b Hb).
    destruct Wa, (Wl b Hb). congruence.
Qed.
End ReferenceLemmas.

Lemma sig_count (sigs ph : bytes) m :
  length sigs = (65 * m)%nat -> (length ph < 65)%nat ->
  Nat.div (length (sigs ++ ph)) SignatureScriptLen = m /\
  Nat.modulo (length (sigs ++ ph)) SignatureScriptLen = length ph.
Proof.
  intros Hm Hp. unfold SignatureScriptLen. rewrite length_app, Hm. split.
  - symmetry. by apply (Nat.div_unique _ _ _ (length ph)).
  - symmetry. by apply (Nat.mod_unique _ _ m).
Qed.

(** The value of a string of hexadecimal digits. *)
Definition unhex (c : Z) : Z := if c <? 58 then c - 48 else c - 87.
Definition hex_step (v c : Z) : Z := v * 16 + unhex c.

Lemma unhex_digit d : 0 <= d < 16 -> unhex (hex_digit d) = d.
Proof. intros H. unfold unhex, hex_digit. destruct (Z.ltb_spec d 10); case_match; lia. Qed.

Lemma hex_digits_value fuel n acc :
  0 <= n < 16 ^ Z.of_nat (S fuel) ->
  fold_left hex_step (hex_digits (S fuel) n acc) 0 = fold_left hex_step acc n.
Proof.
  revert n acc. induction fuel as [|fuel IH]; intros n acc Hn.
  all: cbn [hex_digits]; destruct (Z.eqb_spec (n / 16) 0) as [E|E].
  1,3: cbn [fold_left]; unfold hex_step at 2; rewrite unhex_digit by zlia; f_equal; zlia.
  - exfalso. apply E. change (16 ^ Z.of_nat 1) with 16 in Hn. zlia.
  - change (fold_left hex_step (hex_digits (S fuel) (n / 16) (hex_digit (n mod 16) :: acc)) 0
            = fold_left hex_step acc n).
    rewrite IH.
    + cbn [fold_left]. unfold hex_step at 2. rewrite unhex_digit by zlia. f_equal. zlia.
    + rewrite (Nat2Z.inj_succ (S fuel)), Z.pow_succ_r in Hn by lia. zlia.
Qed.

Lemma FormatHex16_inj a b : inU 16 a -> inU 16 b -> FormatHex16 a = FormatHex16 b -> a = b.
Proof.
  intros Ha Hb E. apply (f_equal (fun l => fold_left hex_step l 0)) in E. unfold FormatHex16 in E.
  rewrite !hex_digits_value in E by (change (16 ^ Z.of_nat 4) with (2 ^ 16); lia). exact E.
Qed.

Lemma script_hashes_ok attrs hs :
  script_hashes attrs = (hs, None) ->
  Forall (fun a => at_Usage a = Script -> wf_bytes (at_Data a)) attrs -> Forall wf_u160 hs.
Proof.
  intros E Hw. revert hs E. induction Hw as [|a attrs Ha Hw IH]; intros hs E; cbn [script_hashes] in E.
  - injection E as <-. constructor.
  - destruct (Z.eqb_spec (at_Usage a) Script) as [U|U]; [|by apply IH].
    unfold Uint160ParseFromBytes in E.
    destruct (negb _) eqn:L; [discriminate|].
    destruct (script_hashes attrs) as [hs' e'] eqn:Es. injection E as <- ->.
    constructor; [|by apply IH]. split; [|by apply Ha].
    apply negb_false_iff, Z.eqb_eq in L. unfold UINT160SIZE in L. lia.
Qed.

(** * Properties *)

(** C27: A well-formed transaction serialises without error, and reading the
    bytes back, whatever follows them, gives exactly the transaction, no error,
    and the rest of the input. *)
Theorem transaction_roundtrip (t : Transaction) (k : reader_kind) (rest : bytes) :
  wf_Tx t ->
  exists enc, Tx_Serialize t = Some (enc, None) /\
    Tx_Deserialize new_Transaction (mkReader k (enc ++ rest)) = Some ((t, None), mkReader k rest).
Proof.
  intros W. destruct (Tx_Deserialize_reads t W) as (enc & E & R).
  exists enc. split; [exact E|]. by apply R.
Qed.

Definition sample_Tx : Transaction :=
  mkTx RecordTx 0 (Some (PRecord [116] [1; 2; 3])) [mkTxAttribute Nonce [7] 0]
    [mkInput (repeat 9 32) 513 4294967295] [] [mkOutput (repeat 1 32) (-5) (repeat 2 20)] 77
    [mkProgram [172] []; mkProgram [] [64]] 0 0 None.

Lemma transaction_roundtrip_witness :
  exists enc, Tx_Serialize sample_Tx = Some (enc, None) /\
    Tx_Deserialize new_Transaction (mkReader BytesReader (enc ++ [])) = Some ((sample_Tx, None), mkReader BytesReader []).
Proof.
  apply transaction_roundtrip. constructor; cbn.
  - eexists. split; [reflexivity|]. by vm_compute.
  - repeat constructor; by vm_compute.
  - repeat constructor; by vm_compute.
  - repeat constructor; by vm_compute.
  - repeat constructor; by vm_compute.
  - reflexivity.
  - lia.
  - lia.
  - done.
Defined.

(** A contract deployment never comes back: its payload writes its function
    code, but the payload allocated for reading has a nil code, so
    deserialising the bytes of any serialisable deployment panics. *)
Theorem deploy_deserialize_panics (t : Transaction) (fc : FunctionCode) (n v a m d : bytes)
    (k : reader_kind) (rest : bytes) :
  TxType t = Deploy -> payload t = Some (PDeployCode (Some fc) n v a m d) ->
  Z.of_nat (length (fc_ParameterTypes fc)) <= maxAlloc ->
  exists enc, Tx_Serialize t = Some (enc, None) /\
    Tx_Deserialize new_Transaction (mkReader k (enc ++ rest)) = None.
Proof.
  intros Ht Hp Hs. unfold Tx_Serialize, SerializeUnsigned. rewrite Hp, Ht.
  cbn [Payload_Serialize DeployCode_Serialize FunctionCode_Serialize mbind option_bind].
  eexists. split; [reflexivity|]. unfold Tx_Deserialize. apply rd_bind_None.
  rewrite <- !app_assoc. apply Deploy_Deserialize_panics; [done|].
  intros (_ & E & _). apply app_eq_nil in E as [E _]. by apply WriteVarBytes_ne in E.
Qed.

Lemma deploy_deserialize_panics_witness :
  exists enc, Tx_Serialize (set_Payload (set_TxType sample_Tx Deploy)
      (Some (PDeployCode (Some (mkFunctionCode [81] [0] [])) [] [] [] [] []))) = Some (enc, None) /\
    Tx_Deserialize new_Transaction (mkReader BytesReader (enc ++ [])) = None.
Proof.
  eapply deploy_deserialize_panics; [reflexivity|reflexivity|]. cbn. unfold maxAlloc. lia.
Defined.

(** Two inputs have the same [ToString] exactly when [Equals] identifies
    them: same referred transaction and same output index (whatever the
    sequence number), although the index is printed without padding.  The pool
    keys its double-spend map by this string. *)
Theorem input_key_injective (i j : UTXOTxInput) :
  wf_Input i -> wf_Input j ->
  UTXOTxInput_ToString i = UTXOTxInput_ToString j <-> UTXOTxInput_Equals i j = true.
Proof.
  intros ((Li & Wi) & Xi & _) ((Lj & Wj) & Xj & _). unfold UTXOTxInput_ToString, UTXOTxInput_Equals.
  rewrite andb_true_iff, bool_decide_eq_true, Z.eqb_eq. split; [|by intros [-> ->]].
  intros E. apply app_inj_1 in E; [|rewrite !length_EncodeToString; lia].
  destruct E as [E1 E2]. split; [by apply EncodeToString_inj|by apply FormatHex16_inj].
Qed.

Lemma input_key_injective_witness :
  UTXOTxInput_ToString (mkInput (repeat 9 32) 513 0) = UTXOTxInput_ToString (mkInput (repeat 9 32) 513 1)
  <-> UTXOTxInput_Equals (mkInput (repeat 9 32) 513 0) (mkInput (repeat 9 32) 513 1) = true.
Proof. apply input_key_injective; repeat split; cbn; try lia; repeat constructor. all: lia. Defined.

(** Per asset, [GetTransactionResults] is the difference of the summed
    referenced outputs and the summed outputs, wrapped to 64 bits whatever
    overflowed on the way; it has an entry exactly for the assets that occur. *)
Theorem transaction_results (store : TxStore) (t : Transaction) (refs : list (UTXOTxInput * TxOutput)) (a : Uint256) :
  GetReference t = (refs, None) ->
  Forall (fun o => inS 64 (o_Value o)) (map snd refs) ->
  Forall (fun o => inS 64 (o_Value o)) (Outputs t) ->
  exists res, GetTransactionResults t = (res, None) /\
    res !! a = (if decide (a ∈ map o_AssetID (map snd refs) \/ a ∈ map o_AssetID (Outputs t))
                then Some (int64 (asset_sum a (map snd refs) - asset_sum a (Outputs t)))
                else None) /\
    GetFee t a = int64 (asset_sum a (map snd refs) - asset_sum a (Outputs t)).
Proof.
  intros Hr Hi Ho. destruct (results_lookup t refs a Hr Hi Ho) as (res & E & L).
  exists res. split; [done|]. split; [done|]. unfold GetFee. rewrite E, L.
  case_decide as D; [done|]. rewrite !asset_sum_absent by (by intros ?; apply D; auto). done.
Qed.

Definition sample_store : TxStore := fun h =>
  if decide (h = repeat 9 32) then
    inl (NewTransferAssetTransaction [] [mkOutput (repeat 1 32) 10 (repeat 2 20); mkOutput (repeat 1 32) 5 (repeat 0 20)], 3)
  else inr (NewError "not found").
Definition sample_spend : Transaction :=
  NewTransferAssetTransaction [mkInput (repeat 9 32) 1 0; mkInput (repeat 9 32) 0 0]
    [mkOutput (repeat 1 32) 12 (repeat 2 20)].

Lemma transaction_results_witness :
  exists res, @GetTransactionResults sample_store sample_spend = (res, None) /\
    res !! repeat 1 32 = Some 3 /\ @GetFee sample_store sample_spend (repeat 1 32) = 3.
Proof.
  destruct (transaction_results sample_store sample_spend
    [(mkInput (repeat 9 32) 1 0, mkOutput (repeat 1 32) 5 (repeat 0 20));
     (mkInput (repeat 9 32) 0 0, mkOutput (repeat 1 32) 10 (repeat 2 20))] (repeat 1 32)) as (res & E & L & F).
  - vm_compute. reflexivity.
  - repeat constructor; cbn; lia.
  - repeat constructor; cbn; lia.
  - exists res. split; [exact E|]. split; [rewrite L|rewrite F]; vm_compute; reflexivity.
Defined.

(** [GetProgramHashes] lists every owner of a referenced output and every
    script attribute hash once, in strictly increasing numeric order of the
    hashes: the order the programs of the transaction are matched against. *)
Theorem program_hashes_sorted (store : TxStore) (t : Transaction) (refs : list (UTXOTxInput * TxOutput))
    (hs : list Uint160) :
  GetReference t = (refs, None) -> script_hashes (Attributes t) = (hs, None) ->
  Forall (fun o => wf_u160 (o_ProgramHash o)) (map snd refs) ->
  Forall (fun a => at_Usage a = Script -> wf_bytes (at_Data a)) (Attributes t) ->
  exists out, GetProgramHashes t = (out, None) /\
    (forall h, h ∈ out <-> h ∈ map o_ProgramHash (map snd refs) \/ h ∈ hs) /\
    StronglySorted (fun a b => le_val a < le_val b) out.
Proof.
  intros Hr Hs Wr Wa. unfold GetProgramHashes. rewrite Hr, Hs.
  set (l := map (fun r => o_ProgramHash r.2) refs ++ hs). eexists. split; [reflexivity|].
  assert (Wl : Forall wf_u160 (remove_dups l)).
  { apply list.Forall_forall. intros h Hh. rewrite elem_of_remove_dups in Hh.
    subst l. apply elem_of_app in Hh as [Hh|Hh].
    - apply list_elem_of_fmap in Hh as (r & -> & Hin). rewrite list.Forall_forall in Wr.
      apply (Wr r.2). apply list_elem_of_fmap. eauto.
    - pose proof (script_hashes_ok _ _ Hs Wa) as W. rewrite list.Forall_forall in W. by apply W. }
  split.
  - intros h. rewrite sort_by_perm, elem_of_remove_dups. subst l. by rewrite elem_of_app, map_map.
  - apply sorted_hashes_strict; [done|]. apply NoDup_remove_dups.
Qed.

Lemma program_hashes_sorted_witness :
  @GetProgramHashes sample_store sample_spend = ([repeat 0 20; repeat 2 20], None) /\
  exists out, @GetProgramHashes sample_store sample_spend = (out, None) /\
    StronglySorted (fun a b => le_val a < le_val b) out.
Proof.
  split; [vm_compute; reflexivity|].
  destruct (program_hashes_sorted sample_store sample_spend
    [(mkInput (repeat 9 32) 1 0, mkOutput (repeat 1 32) 5 (repeat 0 20));
     (mkInput (repeat 9 32) 0 0, mkOutput (repeat 1 32) 10 (repeat 2 20))] []) as (out & E & _ & S).
  - vm_compute. reflexivity.
  - reflexivity.
  - repeat constructor; cbn; unfold wf_byte; lia.
  - constructor.
  - exists out. split; assumption.
Defined.

(** The parameter of a multi-signature program after [m] signatures have
    been added and [n] one-byte placeholders are left: the next signature takes
    the place of the first placeholder; with fewer than 65 placeholders the
    signature count grows by one and the remaining placeholders shrink by one;
    with none left, the call panics. *)
Theorem append_signature (t : Transaction) (p : Program) (ps : list Program) (sigs ph sig : bytes) (m : nat) :
  Programs t = p :: ps -> pg_Parameter p = sigs ++ ph -> length sigs = (65 * m)%nat ->
  (length ph < 65)%nat -> length sig = 64%nat ->
  ParseTransactionSig t = ((Z.of_nat m, Z.of_nat (length ph)), None) /\
  match ph with
  | [] => AppendNewSignature t sig = None
  | _ :: ph' =>
      exists t', AppendNewSignature t sig = Some (t', None) /\
        t' = SetPrograms t (mkProgram (pg_Code p) (sigs ++ (64 :: sig) ++ ph') :: ps) /\
        ParseTransactionSig t' = ((Z.of_nat (S m), Z.of_nat (length ph')), None)
  end.
Proof.
  intros Hp Hpar Hm Hph Hsig. unfold ParseTransactionSig, AppendNewSignature. rewrite Hp, Hpar.
  destruct (sig_count sigs ph m Hm Hph) as [Ed Em]. rewrite Ed, Em. split; [done|].
  rewrite length_app, Hm, Hsig. unfold SignatureScriptLen. destruct ph as [|x ph'].
  - destruct (Nat.leb_spec (m * 65 + 1) (65 * m + length (@nil Z))) as [H|H]; [cbn in H; lia|done].
  - destruct (Nat.leb_spec (m * 65 + 1) (65 * m + length (x :: ph'))) as [H|H]; [|cbn in H; lia].
    eexists. split; [reflexivity|].
    replace (take (m * 65) (sigs ++ x :: ph')) with sigs by (rewrite take_app_length'; [done|lia]).
    replace (drop (m * 65 + 1) (sigs ++ x :: ph')) with ph'
      by (rewrite (cons_middle x), app_assoc, drop_app_length'; [done|rewrite length_app; simpl; lia]).
    split; [done|]. cbn [Programs SetPrograms pg_Parameter].
    cbn [length] in Hph. rewrite app_assoc.
    destruct (sig_count (sigs ++ 64 :: sig) ph' (S m)) as [Ed' Em'].
    + rewrite length_app. simpl. lia.
    + lia.
    + unfold SignatureScriptLen in *. change (uint8 (Z.of_nat 64)) with 64.
      rewrite Ed', Em'. done.
Qed.

Lemma append_signature_witness :
  exists t', AppendNewSignature (SetPrograms sample_Tx [mkProgram [82] [0; 0]]) (repeat 7 64) = Some (t', None) /\
    ParseTransactionSig t' = ((1, 1), None).
Proof.
  destruct (append_signature (SetPrograms sample_Tx [mkProgram [82] [0; 0]]) (mkProgram [82] [0; 0]) []
    [] [0; 0] (repeat 7 64) 0) as (_ & t' & E & _ & P); try reflexivity; [cbn; lia|].
  exists t'. split; assumption.
Defined.
