(* ===== verification/Merkle.v ===== *)
(** [crypto/merkleTree.go]: the Merkle tree over transaction hashes.

    The level-by-level construction is kept (nodes with their children, a lone
    last node paired with itself).  The theorems: the loop always ends in one
    node, at depth [1 + ceil(log2 n)]; over lists of the same length two equal
    roots either have equal leaves or hold, among the nodes of the two trees, a
    collision of the double SHA-256; and, because the last node is duplicated, an odd list and the list
    with its last element repeated have the same root. *)

From S2P Require Import Prelude Sha256 Serialization Common.

Inductive MerkleTreeNode := MkNode {
  node_Hash : Uint256; node_Left : option MerkleTreeNode; node_Right : option MerkleTreeNode }.
Record MerkleTree := mkMerkleTree { Depth : Z; Root : MerkleTreeNode }.

Definition IsLeaf (t : MerkleTreeNode) : bool :=
  match node_Left t, node_Right t with None, None => true | _, _ => false end.

Definition DOUBLE_SHA256 (s : list Uint256) : Uint256 := dsha256 (concat (map Uint_Serialize s)).

Definition generateLeaves (hashes : list Uint256) : list MerkleTreeNode :=
  map (fun d => MkNode d None None) hashes.

Definition join_nodes (l r : MerkleTreeNode) : MerkleTreeNode :=
  MkNode (DOUBLE_SHA256 [node_Hash l; node_Hash r]) (Some l) (Some r).

Fixpoint levelUp (nodes : list MerkleTreeNode) : list MerkleTreeNode :=
  match nodes with
  | [] => []
  | [x] => [join_nodes x x]
  | x :: y :: rest => join_nodes x y :: levelUp rest
  end.

(** [for len(nodes) > 1]; [None] when the fuel ends first. *)
Fixpoint merkle_loop (fuel : nat) (nodes : list MerkleTreeNode) (height : Z) : option (MerkleTreeNode * Z) :=
  match nodes, fuel with
  | [x], _ => Some (x, height)
  | _ :: _ :: _, S fuel => merkle_loop fuel (levelUp nodes) (height + 1)
  | _, _ => None
  end.

Definition NewMerkleTree (hashes : list Uint256) : option MerkleTree * err :=
  match hashes with
  | [] => (None, Some (NewError "NewMerkleTree input no item error."))
  | _ =>
      (match merkle_loop (length hashes) (generateLeaves hashes) 1 with
       | Some (root, height) => Some (mkMerkleTree height root)
       | None => None
       end, None)
  end.

(** [None]: [tree.Root] of a nil tree. *)
Definition ComputeRoot (hashes : list Uint256) : option (Uint256 * err) :=
  match hashes with
  | [] => Some (zero256, Some (NewError "NewMerkleTree input no item error."))
  | [h] => Some (h, None)
  | _ => tree ← (NewMerkleTree hashes).1; Some (node_Hash (Root tree), None)
  end.

(** * Hashes of a level *)

Definition hash2 (a b : Uint256) : Uint256 := dsha256 (a ++ b).

Fixpoint hash_level (l : list Uint256) : list Uint256 :=
  match l with
  | [] => []
  | [x] => [hash2 x x]
  | x :: y :: rest => hash2 x y :: hash_level rest
  end.

Lemma pair_ind {A} (P : list A -> Prop) :
  P [] -> (forall x, P [x]) -> (forall x y l, P l -> P (x :: y :: l)) -> forall l, P l.
Proof.
  intros H0 H1 H2 l. enough (P l /\ forall x, P (x :: l)) as [? _] by done.
  induction l as [|x l [IH IH']]; [auto|]. split; [apply IH'|]. intros y. by apply H2.
Qed.

Lemma join_hash x y : node_Hash (join_nodes x y) = hash2 (node_Hash x) (node_Hash y).
Proof. unfold join_nodes, DOUBLE_SHA256, hash2, Uint_Serialize. simpl. by rewrite app_nil_r. Qed.

Lemma levelUp_hashes nodes : map node_Hash (levelUp nodes) = hash_level (map node_Hash nodes).
Proof.
  induction nodes as [|x|x y l IH] using pair_ind; [done| |]; cbn [levelUp map hash_level];
    rewrite join_hash; [done|]. by rewrite IH.
Qed.

Lemma length_hash_level l : length (hash_level l) = Nat.div2 (S (length l)).
Proof. induction l as [|x|x y l IH] using pair_ind; [done..|]. cbn [hash_level length]. by rewrite IH. Qed.

Lemma length_levelUp l : length (levelUp l) = Nat.div2 (S (length l)).
Proof. rewrite <- (length_map node_Hash), levelUp_hashes, length_hash_level. by rewrite length_map. Qed.

(** The root of a non-empty list of hashes, as the code walks it. *)
Fixpoint root_loop (fuel : nat) (l : list Uint256) : option Uint256 :=
  match l, fuel with
  | [x], _ => Some x
  | _ :: _ :: _, S fuel => root_loop fuel (hash_level l)
  | _, _ => None
  end.

Lemma merkle_loop_root fuel nodes h :
  (fun r => node_Hash r.1) <$> merkle_loop fuel nodes h = root_loop fuel (map node_Hash nodes).
Proof.
  revert nodes h. induction fuel as [|fuel IH]; intros [|x [|y nodes]] h; try done.
  cbn [merkle_loop]. rewrite IH, levelUp_hashes. done.
Qed.

Lemma div2_lt n : (1 < n)%nat -> (0 < Nat.div2 (S n) < n)%nat.
Proof. intros H. rewrite Nat.div2_div. split; [apply Nat.div_str_pos; lia|apply Nat.Div0.div_lt_upper_bound; lia]. Qed.

Lemma log2_up_half n : (1 < n)%nat -> Nat.log2_up n = S (Nat.log2_up (Nat.div2 (S n))).
Proof.
  intros H. destruct (Nat.Even_or_Odd n) as [[m ->]|[m ->]].
  - rewrite Nat.log2_up_double by lia. f_equal. f_equal. rewrite Nat.div2_succ_double. lia.
  - replace (S (2 * m + 1)) with (2 * (S m))%nat by lia.
    rewrite Nat.log2_up_succ_double, Nat.div2_double, (Nat.log2_up_eqn (S m)) by lia. done.
Qed.

(** With at least as much fuel as nodes the loop ends, at the depth of a
    balanced tree. *)
Lemma merkle_loop_terminates fuel nodes h :
  (0 < length nodes <= S fuel)%nat ->
  exists root, merkle_loop fuel nodes h = Some (root, h + Z.of_nat (Nat.log2_up (length nodes))).
Proof.
  revert nodes h. induction fuel as [|fuel IH]; intros nodes h Hl.
  - destruct nodes as [|x [|y nodes]]; simpl in Hl; try lia. exists x. cbn. do 2 f_equal. lia.
  - destruct nodes as [|x [|y nodes]]; [simpl in Hl; lia|exists x; cbn; do 2 f_equal; lia|].
    set (nodes' := x :: y :: nodes) in *.
    assert (Hn : (1 < length nodes')%nat) by (subst nodes'; simpl; lia).
    pose proof (div2_lt _ Hn) as Hd. destruct (IH (levelUp nodes') (h + 1)) as [root E].
    { rewrite length_levelUp. lia. }
    exists root. cbn [merkle_loop]. subst nodes'. cbn [merkle_loop]. rewrite E, length_levelUp.
    rewrite (log2_up_half (length (x :: y :: nodes))) by done. do 2 f_equal. lia.
Qed.

Lemma root_loop_total fuel l : (0 < length l <= S fuel)%nat -> is_Some (root_loop fuel l).
Proof.
  intros Hl. destruct (merkle_loop_terminates fuel (generateLeaves l) 0) as [r E].
  { unfold generateLeaves. by rewrite length_map. }
  pose proof (merkle_loop_root fuel (generateLeaves l) 0) as R. rewrite E in R. cbn in R.
  unfold generateLeaves in R. rewrite map_map, map_id in R. rewrite <- R. eauto.
Qed.

Lemma root_loop_more fuel l r : root_loop fuel l = Some r -> root_loop (S fuel) l = Some r.
Proof.
  revert l. induction fuel as [|fuel IH]; intros [|x [|y l]] E; try done.
  change (root_loop (S fuel) (hash_level (x :: y :: l)) = Some r). by apply IH.
Qed.

(** [ComputeRoot] is total, and on a non-empty list it is the root. *)
Lemma ComputeRoot_root l :
  l <> [] -> exists r, root_loop (length l) l = Some r /\ ComputeRoot l = Some (r, None).
Proof.
  intros Hl. destruct (root_loop_total (length l) l) as [r E].
  { destruct l; [done|simpl; lia]. }
  exists r. split; [done|]. destruct l as [|x [|y l]]; [done|by injection E as ->|].
  cbn [ComputeRoot]. unfold NewMerkleTree. cbn [fst].
  pose proof (merkle_loop_root (length (x :: y :: l)) (generateLeaves (x :: y :: l)) 1) as R.
  unfold generateLeaves in R at 2. rewrite map_map, map_id, E in R.
  destruct (merkle_loop _ _ _) as [[root h]|]; [|done]. injection R as R. cbn. by rewrite <- R.
Qed.

Lemma leaves_hashes l : map node_Hash (generateLeaves l) = l.
Proof. unfold generateLeaves. by rewrite map_map, map_id. Qed.

(** The tree behind the root [ComputeRoot] answers. *)
Lemma NewMerkleTree_root l r : l <> [] -> ComputeRoot l = Some (r, None) ->
  exists t d, NewMerkleTree l = (Some t, None) /\
    merkle_loop (length l) (generateLeaves l) 1 = Some (Root t, d) /\ node_Hash (Root t) = r.
Proof.
  intros Hne E. destruct (ComputeRoot_root l Hne) as (r' & R & Ec). rewrite Ec in E. injection E as ->.
  pose proof (merkle_loop_root (length l) (generateLeaves l) 1) as M. rewrite leaves_hashes, R in M.
  destruct (merkle_loop (length l) (generateLeaves l) 1) as [[root d]|] eqn:L; [|done]. injection M as M.
  exists (mkMerkleTree d root), d. split; [|done]. unfold NewMerkleTree. destruct l; [done|]. by rewrite L.
Qed.

(** The 64 bytes hashed for every inner node of a tree. *)
Fixpoint node_inputs (t : MerkleTreeNode) : list bytes :=
  match t with
  | MkNode _ (Some l) (Some r) => (node_Hash l ++ node_Hash r) :: node_inputs l ++ node_inputs r
  | _ => []
  end.

(** Two different inputs, one hashed in each of the two trees, with the same
    double SHA-256. *)
Definition node_collision (t t' : MerkleTreeNode) : Prop :=
  exists x y, x ∈ node_inputs t /\ y ∈ node_inputs t' /\ x <> y /\ dsha256 x = dsha256 y.

Lemma node_collision_mono t t' u u' :
  node_inputs t ⊆ node_inputs u -> node_inputs t' ⊆ node_inputs u' -> node_collision t t' -> node_collision u u'.
Proof. intros S S' (x & y & X & Y & D & E). exists x, y. set_solver. Qed.

(** The nodes of a level are children of the next one. *)
Lemma levelUp_inputs nodes n :
  n ∈ nodes -> exists m, m ∈ levelUp nodes /\ node_inputs n ⊆ node_inputs m.
Proof.
  induction nodes as [|x|x y l IH] using pair_ind; intros Hn; [by apply not_elem_of_nil in Hn| |].
  - apply list_elem_of_singleton in Hn as ->. exists (join_nodes x x). cbn. set_solver.
  - cbn [levelUp]. apply elem_of_cons in Hn as [->|[->|Hn]%elem_of_cons].
    1,2: exists (join_nodes x y); cbn; set_solver.
    destruct (IH Hn) as (m & Hm & S). exists m. set_solver.
Qed.

Lemma merkle_loop_inputs fuel nodes h root d n :
  merkle_loop fuel nodes h = Some (root, d) -> n ∈ nodes -> node_inputs n ⊆ node_inputs root.
Proof.
  revert nodes h n. induction fuel as [|fuel IH]; intros [|x [|y l]] h n E Hn; try done.
  1,2: injection E as <- _; apply list_elem_of_singleton in Hn as ->; done.
  change (merkle_loop fuel (levelUp (x :: y :: l)) (h + 1) = Some (root, d)) in E.
  destruct (levelUp_inputs _ _ Hn) as (m & Hm & S). etransitivity; [exact S|]. by eapply IH.
Qed.

Lemma wf_hash2 a b : wf_u256 (hash2 a b).
Proof. apply wf_dsha256. Qed.

Lemma wf_hash_level l : Forall wf_u256 (hash_level l).
Proof.
  induction l as [|x|x y l IH] using pair_ind; repeat constructor; try apply wf_hash2; done.
Qed.

(** Parents with the same hash have children with the same hashes, or collide. *)
Lemma join_inj a b c d :
  wf_u256 (node_Hash a) -> wf_u256 (node_Hash c) ->
  node_Hash (join_nodes a b) = node_Hash (join_nodes c d) ->
  (node_Hash a = node_Hash c /\ node_Hash b = node_Hash d) \/ node_collision (join_nodes a b) (join_nodes c d).
Proof.
  intros [La _] [Lc _] E. rewrite !join_hash in E.
  destruct (decide (node_Hash a ++ node_Hash b = node_Hash c ++ node_Hash d)) as [D|D].
  - left. apply app_inj_1 in D; [done|congruence].
  - right. exists (node_Hash a ++ node_Hash b), (node_Hash c ++ node_Hash d). cbn. repeat split; [left|left|done|done].
Qed.

Lemma levelUp_inj l l' :
  length l = length l' -> Forall wf_u256 (map node_Hash l) -> Forall wf_u256 (map node_Hash l') ->
  map node_Hash (levelUp l) = map node_Hash (levelUp l') ->
  map node_Hash l = map node_Hash l' \/
  exists m m', m ∈ levelUp l /\ m' ∈ levelUp l' /\ node_collision m m'.
Proof.
  revert l'. induction l as [|x|x y l IH] using pair_ind; intros [|x' [|y' l']] Hl W W' E;
    try discriminate Hl; [by left| |].
  - cbn [map levelUp] in *. injection E as E. inversion_clear W. inversion_clear W'.
    apply join_inj in E as [[-> _]|C]; [by left| |done|done].
    right. do 2 eexists. split; [by left|]. split; [by left|done].
  - cbn [map levelUp] in *. injection E as E E'. injection Hl as Hl.
    repeat match goal with H : Forall _ (_ :: _) |- _ => inversion_clear H end.
    apply join_inj in E as [[-> ->]|C]; [| |done|done].
    + destruct (IH l') as [->|(m & m' & Hm & Hm' & C)]; [done..|by left|].
      right. exists m, m'. split; [by right|]. split; [by right|done].
    + right. do 2 eexists. split; [by left|]. split; [by left|done].
Qed.

Lemma merkle_loop_inj fuel l l' h root root' d d' :
  length l = length l' -> Forall wf_u256 (map node_Hash l) -> Forall wf_u256 (map node_Hash l') ->
  merkle_loop fuel l h = Some (root, d) -> merkle_loop fuel l' h = Some (root', d') ->
  node_Hash root = node_Hash root' ->
  map node_Hash l = map node_Hash l' \/ node_collision root root'.
Proof.
  revert l l' h. induction fuel as [|fuel IH]; intros [|x [|y l]] [|x' [|y' l']] h Hl W W' E E' R; try done.
  1,2: left; injection E as -> _; injection E' as -> _; cbn; congruence.
  change (merkle_loop fuel (levelUp (x :: y :: l)) (h + 1) = Some (root, d)) in E.
  change (merkle_loop fuel (levelUp (x' :: y' :: l')) (h + 1) = Some (root', d')) in E'.
  set (n := x :: y :: l) in *. set (n' := x' :: y' :: l') in *.
  assert (Hu : length (levelUp n) = length (levelUp n')) by (rewrite !length_levelUp, Hl; reflexivity).
  assert (Wu : forall k, Forall wf_u256 (map node_Hash (levelUp k))).
  { intros k. rewrite levelUp_hashes. apply wf_hash_level. }
  destruct (IH _ _ _ Hu (Wu n) (Wu n') E E' R) as [D|]; [|by right].
  destruct (levelUp_inj _ _ Hl W W' D) as [D'|(m & m' & Hm & Hm' & C)]; [left; exact D'|].
  right. eapply node_collision_mono; [..|exact C]; eapply merkle_loop_inputs; eassumption.
Qed.

(** What is hashed are the 32-byte hashes of two nodes. *)
Lemma levelUp_input_bytes l x : Forall wf_u256 (map node_Hash l) ->
  (forall n, n ∈ l -> x ∈ node_inputs n -> wf_bytes x /\ length x = 64%nat) ->
  forall n, n ∈ levelUp l -> x ∈ node_inputs n -> wf_bytes x /\ length x = 64%nat.
Proof.
  assert (J : forall a b, wf_u256 (node_Hash a) -> wf_u256 (node_Hash b) ->
    wf_bytes (node_Hash a ++ node_Hash b) /\ length (node_Hash a ++ node_Hash b) = 64%nat).
  { intros a b [La Wa] [Lb Wb]. split; [by apply Forall_app|rewrite length_app; lia]. }
  induction l as [|a|a b l IH] using pair_ind; intros W H n Hn Hx; [by apply not_elem_of_nil in Hn| |].
  - cbn in W. inversion_clear W. apply list_elem_of_singleton in Hn as ->. cbn in Hx.
    apply elem_of_cons in Hx as [->|[Hx|Hx]%elem_of_app]; [by apply J|apply (H a); set_solver..].
  - cbn [map levelUp] in *. repeat match goal with H : Forall _ (_ :: _) |- _ => inversion_clear H end.
    apply elem_of_cons in Hn as [->|Hn].
    + cbn in Hx. apply elem_of_cons in Hx as [->|[Hx|Hx]%elem_of_app];
        [by apply J|apply (H a); set_solver|apply (H b); set_solver].
    + apply (IH ltac:(done)) with n; [|done|done]. intros m Hm. apply H. set_solver.
Qed.

Lemma merkle_loop_input_bytes fuel l h root d x : Forall wf_u256 (map node_Hash l) ->
  (forall n, n ∈ l -> x ∈ node_inputs n -> wf_bytes x /\ length x = 64%nat) ->
  merkle_loop fuel l h = Some (root, d) -> x ∈ node_inputs root -> wf_bytes x /\ length x = 64%nat.
Proof.
  revert l h. induction fuel as [|fuel IH]; intros [|a [|b l]] h W H E Hx; try done.
  1,2: injection E as <- _; apply (H a); set_solver.
  apply (IH (levelUp (a :: b :: l)) (h + 1)); [rewrite levelUp_hashes; apply wf_hash_level| |exact E|exact Hx].
  intros n Hn Hi. by eapply levelUp_input_bytes.
Qed.

Lemma hash_level_dup l x :
  Nat.even (length l) = true -> hash_level (l ++ [x; x]) = hash_level (l ++ [x]).
Proof.
  induction l as [| |a b l IH] using pair_ind; intros He; [done|done|].
  cbn [hash_level app]. f_equal. by apply IH.
Qed.

(** * Properties *)

(** Building the tree of any non-empty list of hashes ends, at depth one
    plus the rounded-up binary logarithm of their number, and [ComputeRoot] is
    the hash at its root; the empty list is the only one refused. *)
Theorem merkle_tree_total (hashes : list Uint256) :
  ComputeRoot [] = Some (zero256, Some (NewError "NewMerkleTree input no item error.")) /\
  (hashes <> [] ->
   exists root r, NewMerkleTree hashes =
       (Some (mkMerkleTree (1 + Z.of_nat (Nat.log2_up (length hashes))) root), None) /\
     ComputeRoot hashes = Some (r, None) /\ node_Hash root = r).
Proof.
  split; [done|]. intros Hne.
  destruct (merkle_loop_terminates (length hashes) (generateLeaves hashes) 1) as [root E].
  { unfold generateLeaves. rewrite length_map. destruct hashes; [done|simpl; lia]. }
  destruct (ComputeRoot_root hashes Hne) as (r & Er & Ec). exists root, r.
  unfold generateLeaves in E at 2. rewrite length_map in E. split; [|split; [done|]].
  - unfold NewMerkleTree. destruct hashes as [|h l]; [done|]. by rewrite E.
  - pose proof (merkle_loop_root (length hashes) (generateLeaves hashes) 1) as R.
    rewrite E in R. unfold generateLeaves in R. rewrite map_map, map_id, Er in R. by injection R.
Qed.

Lemma merkle_tree_total_witness :
  exists root r, NewMerkleTree [repeat 1 32; repeat 2 32; repeat 3 32] = (Some (mkMerkleTree 3 root), None) /\
    ComputeRoot [repeat 1 32; repeat 2 32; repeat 3 32] = Some (r, None) /\ node_Hash root = r.
Proof. apply (merkle_tree_total [repeat 1 32; repeat 2 32; repeat 3 32]). discriminate. Defined.

(** C32: The Merkle root commits to the transactions of a block: when two
    lists of the same length have the same root, the lists are equal, or the two
    trees [NewMerkleTree] builds hold inner nodes, one in each, with different
    children and the same double SHA-256 of them; the two inputs are then 64
    bytes each, so that the trees exhibit a collision of the hash function. *)
Theorem merkle_root_binding (l l' : list Uint256) (r : Uint256) :
  length l = length l' -> Forall wf_u256 l -> Forall wf_u256 l' -> l <> [] ->
  ComputeRoot l = Some (r, None) -> ComputeRoot l' = Some (r, None) ->
  exists t t', NewMerkleTree l = (Some t, None) /\ NewMerkleTree l' = (Some t', None) /\
    node_Hash (Root t) = r /\ node_Hash (Root t') = r /\
    (l = l' \/ node_collision (Root t) (Root t')) /\
    (forall x, x ∈ node_inputs (Root t) ++ node_inputs (Root t') -> wf_bytes x /\ length x = 64%nat).
Proof.
  intros Hl W W' Hne E E'.
  assert (Hne' : l' <> []) by (intros ->; by destruct l).
  destruct (NewMerkleTree_root l r Hne E) as (t & d & Ht & L & R).
  destruct (NewMerkleTree_root l' r Hne' E') as (t' & d' & Ht' & L' & R').
  exists t, t'. do 4 (split; [done|]). rewrite <- Hl in L'. split.
  - rewrite <- (leaves_hashes l), <- (leaves_hashes l').
    eapply merkle_loop_inj; [..|exact L|exact L'|congruence]; rewrite ?leaves_hashes; [|done..].
    unfold generateLeaves. by rewrite !length_map.
  - assert (B : forall l x (n : MerkleTreeNode), n ∈ generateLeaves l -> x ∈ node_inputs n ->
      wf_bytes x /\ length x = 64%nat).
    { intros l0 x n (d0 & -> & _)%list_elem_of_fmap Hx. by apply not_elem_of_nil in Hx. }
    intros x [Hx|Hx]%elem_of_app; eapply merkle_loop_input_bytes; [..|exact L|exact Hx| | |exact L'|exact Hx];
      rewrite ?leaves_hashes; [done|by apply B|done|by apply B].
Qed.

Lemma merkle_root_binding_witness :
  exists t t', NewMerkleTree [repeat 1 32; repeat 2 32; repeat 3 32] = (Some t, None) /\
    NewMerkleTree [repeat 1 32; repeat 2 32; repeat 3 32] = (Some t', None) /\
    length (node_inputs (Root t)) = 3%nat.
Proof.
  destruct (merkle_root_binding [repeat 1 32; repeat 2 32; repeat 3 32] [repeat 1 32; repeat 2 32; repeat 3 32]
    (default [] (fst <$> ComputeRoot [repeat 1 32; repeat 2 32; repeat 3 32]))) as (t & t' & E & E' & _).
  - reflexivity.
  - repeat constructor; unfold wf_byte; lia.
  - repeat constructor; unfold wf_byte; lia.
  - discriminate.
  - vm_compute. reflexivity.
  - vm_compute. reflexivity.
  - exists t, t'. split; [exact E|]. split; [exact E'|]. vm_compute in E. injection E as <-. reflexivity.
Defined.

(** The root does not commit to the number of transactions: repeating the
    last hash of an odd list of three or more changes nothing, so a block and
    the block with its last transaction duplicated share their header hash. *)
Theorem merkle_root_duplicates_last (l : list Uint256) (x : Uint256) :
  Nat.even (length l) = true -> l <> [] ->
  ComputeRoot (l ++ [x; x]) = ComputeRoot (l ++ [x]).
Proof.
  intros He Hne. destruct (ComputeRoot_root (l ++ [x])) as (r & R & ->); [by destruct l|].
  destruct (ComputeRoot_root (l ++ [x; x])) as (r' & R' & ->); [by destruct l|].
  rewrite length_app in R, R'. simpl in R, R'. rewrite Nat.add_comm in R, R'.
  apply root_loop_more in R. destruct l as [|a [|b l]]; [done|done|].
  cbn [app] in R, R'. cbn [Nat.add root_loop] in R, R'.
  change (a :: b :: l ++ [x]) with ((a :: b :: l) ++ [x]) in R.
  change (a :: b :: l ++ [x; x]) with ((a :: b :: l) ++ [x; x]) in R'.
  rewrite hash_level_dup in R' by done. congruence.
Qed.

Lemma merkle_root_duplicates_last_witness :
  ComputeRoot [repeat 1 32; repeat 2 32; repeat 3 32; repeat 3 32]
  = ComputeRoot [repeat 1 32; repeat 2 32; repeat 3 32].
Proof. apply (merkle_root_duplicates_last [repeat 1 32; repeat 2 32]); [reflexivity|discriminate]. Defined.
