(* ===== verification/AuxPow.v ===== *)
(** [core/auxpow]: the Bitcoin transaction and header embedded in a merge-mined
    block, their binary form, and [AuxPow.Check].

    A slice of pointers filled by a failing loop keeps nil entries, and
    [Blockdata.Deserialize] drops the error, so the inputs and outputs of a
    [BtcTx] are [option]s and serialising one with a nil entry panics
    ([None]). *)

From S2P Require Import Prelude Sha256 Serialization Common.

(** * Bitcoin transactions *)

Record BtcOutPoint := mkOutPoint { op_Hash : Uint256; op_Index : Z }.
Record BtcTxIn := mkBtcTxIn { PreviousOutPoint : BtcOutPoint; SignatureScript : bytes; ti_Sequence : Z }.
Record BtcTxOut := mkBtcTxOut { to_Value : Z; PkScript : bytes }.
Record BtcTx := mkBtcTx {
  btx_Version : Z; TxIn : list (option BtcTxIn); TxOut : list (option BtcTxOut); btx_LockTime : Z }.
Definition new_OutPoint : BtcOutPoint := mkOutPoint zero256 0.
Definition new_BtcTxIn : BtcTxIn := mkBtcTxIn new_OutPoint [] 0.
Definition new_BtcTxOut : BtcTxOut := mkBtcTxOut 0 [].
Definition new_BtcTx : BtcTx := mkBtcTx 0 [] [] 0.

Definition BtcReadOutPoint (op : BtcOutPoint) : rd (BtcOutPoint * err) :=
  '(h, e) ← ReadFull 32;
  let op := mkOutPoint (h ++ drop (length h) (op_Hash op)) (op_Index op) in
  iferr e return op ;;
  '(buf, e) ← ReadFull 4;
  iferr e return op ;;
  mret (mkOutPoint (op_Hash op) (le_val buf), None).

Definition BtcWriteOutPoint (op : BtcOutPoint) : bytes := op_Hash op ++ le_bytes 4 (op_Index op).

Definition BtcReadTxIn (ti : BtcTxIn) : rd (BtcTxIn * err) :=
  '(op, e) ← BtcReadOutPoint new_OutPoint;
  iferr e return ti ;;
  '(script, e) ← ReadVarBytes;
  let ti := mkBtcTxIn op script (ti_Sequence ti) in
  iferr e return ti ;;
  '(buf, e) ← ReadFull 4;
  iferr e return ti ;;
  mret (mkBtcTxIn op script (le_val buf), None).

Definition BtcWriteTxIn (ti : option BtcTxIn) : option bytes :=
  ti ← ti;
  Some (BtcWriteOutPoint (PreviousOutPoint ti) ++ WriteVarBytes (SignatureScript ti) ++
        le_bytes 4 (ti_Sequence ti)).

Definition BtcReadTxOut (to : BtcTxOut) : rd (BtcTxOut * err) :=
  '(buf, e) ← ReadFull 8;
  iferr e return to ;;
  '(script, e) ← ReadVarBytes;
  mret (mkBtcTxOut (int64 (le_val buf)) script, e).

Definition BtcWriteTxOut (to : option BtcTxOut) : option bytes :=
  to ← to; Some (le_bytes 8 (uint64 (to_Value to)) ++ WriteVarBytes (PkScript to)).

Definition BtcTx_Serialize (tx : BtcTx) : option bytes :=
  ins ← mapM BtcWriteTxIn (TxIn tx);
  outs ← mapM BtcWriteTxOut (TxOut tx);
  Some (le_bytes 4 (uint32 (btx_Version tx)) ++
        WriteVarUint (Z.of_nat (length (TxIn tx))) ++ concat ins ++
        WriteVarUint (Z.of_nat (length (TxOut tx))) ++ concat outs ++
        le_bytes 4 (btx_LockTime tx)).

(** [a := make([]T, n); for i { ...; if err != nil { return err }; a[i] = x }]:
    the entries not reached keep the zero value [d]. *)
Fixpoint read_array {A} (n : nat) (d : A) (item : rd (A * err)) : rd (list A * err) :=
  match n with
  | O => mret ([], None)
  | S n' =>
      '(a, e) ← item;
      iferr e return (replicate n d) ;;
      '(l, e) ← read_array n' d item;
      mret (a :: l, e)
  end.

(** An array of pointers: an element that was read is a non-nil pointer. *)
Definition alloc {A} (item : rd (A * err)) : rd (option A * err) :=
  '(a, e) ← item; mret (Some a, e).

Definition BtcTx_Deserialize (tx : BtcTx) : rd (BtcTx * err) :=
  '(buf, e) ← ReadFull 4;
  iferr e return tx ;;
  let version := int32 (le_val buf) in
  let tx := mkBtcTx version (TxIn tx) (TxOut tx) (btx_LockTime tx) in
  '(count, e) ← ReadVarUint 0;
  iferr e return tx ;;
  if negb (make_ok 8 count) then rd_panic else
  '(ins, e) ← read_array (Z.to_nat count) None (alloc (BtcReadTxIn new_BtcTxIn));
  let tx := mkBtcTx version ins (TxOut tx) (btx_LockTime tx) in
  iferr e return tx ;;
  '(count, e) ← ReadVarUint 0;
  iferr e return tx ;;
  if negb (make_ok 8 count) then rd_panic else
  '(outs, e) ← read_array (Z.to_nat count) None (alloc (BtcReadTxOut new_BtcTxOut));
  let tx := mkBtcTx version ins outs (btx_LockTime tx) in
  iferr e return tx ;;
  '(buf, e) ← ReadFull 4;
  iferr e return tx ;;
  mret (mkBtcTx version ins outs (le_val buf), None).

Definition BtcTx_Hash (tx : BtcTx) : option Uint256 := b ← BtcTx_Serialize tx; Some (dsha256 b).

Definition NewBtcTx (txIn : list BtcTxIn) (txOut : list BtcTxOut) : BtcTx :=
  mkBtcTx 1 (map Some txIn) (map Some txOut) 0.

(** * Bitcoin headers *)

Record BtcBlockHeader := mkBtcHeader {
  bh_Version : Z; bh_PrevBlock : Uint256; bh_MerkleRoot : Uint256;
  bh_Timestamp : Z; bh_Bits : Z; bh_Nonce : Z }.
Definition new_BtcHeader : BtcBlockHeader := mkBtcHeader 0 zero256 zero256 0 0 0.

Definition BtcHeader_Serialize (bh : BtcBlockHeader) : bytes :=
  WriteUint32 (uint32 (bh_Version bh)) ++ Uint_Serialize (bh_PrevBlock bh) ++
  Uint_Serialize (bh_MerkleRoot bh) ++ WriteUint32 (bh_Timestamp bh) ++
  WriteUint32 (bh_Bits bh) ++ WriteUint32 (bh_Nonce bh).

Definition BtcHeader_Deserialize (bh : BtcBlockHeader) : rd (BtcBlockHeader * err) :=
  '(temp, e) ← ReadUint32;
  iferr e return bh ;;
  let v := int32 temp in
  let bh := mkBtcHeader v (bh_PrevBlock bh) (bh_MerkleRoot bh) (bh_Timestamp bh) (bh_Bits bh) (bh_Nonce bh) in
  '(prev, e) ← Uint256_Deserialize zero256;
  iferr e return bh ;;
  let bh := mkBtcHeader v prev (bh_MerkleRoot bh) (bh_Timestamp bh) (bh_Bits bh) (bh_Nonce bh) in
  '(root, e) ← Uint256_Deserialize zero256;
  iferr e return bh ;;
  '(ts, _) ← ReadUint32;
  '(bits, _) ← ReadUint32;
  '(nonce, _) ← ReadUint32;
  mret (mkBtcHeader v prev root ts bits nonce, None).

Definition BtcHeader_Hash (bh : BtcBlockHeader) : Uint256 := dsha256 (BtcHeader_Serialize bh).

(** * The auxiliary proof of work *)

Definition AuxPowChainID : Z := 1.
Definition pchMergedMiningHeader : bytes := [0xfa; 0xbe; 109; 109].

Record AuxPow := mkAuxPow {
  AuxMerkleBranch : list Uint256; AuxMerkleIndex : Z; ParCoinbaseTx : BtcTx;
  ParCoinBaseMerkle : list Uint256; ParMerkleIndex : Z; ParBlockHeader : BtcBlockHeader;
  ParentHash : Uint256 }.
Definition new_AuxPow : AuxPow := mkAuxPow [] 0 new_BtcTx [] 0 new_BtcHeader zero256.
Definition NewAuxPow (amb : list Uint256) (ami : Z) (pct : BtcTx) (pcm : list Uint256) (pmi : Z)
    (pbh : BtcBlockHeader) : AuxPow := mkAuxPow amb ami pct pcm pmi pbh zero256.

Definition AuxPow_Serialize (ap : AuxPow) : option bytes :=
  t ← BtcTx_Serialize (ParCoinbaseTx ap);
  Some (t ++ Uint_Serialize (ParentHash ap) ++
        WriteUint32 (uint32 (AuxMerkleIndex ap)) ++
        WriteVarUint (Z.of_nat (length (AuxMerkleBranch ap))) ++
        concat (map Uint_Serialize (AuxMerkleBranch ap)) ++
        WriteUint32 (uint32 (ParMerkleIndex ap)) ++
        WriteVarUint (Z.of_nat (length (ParCoinBaseMerkle ap))) ++
        concat (map Uint_Serialize (ParCoinBaseMerkle ap)) ++
        BtcHeader_Serialize (ParBlockHeader ap)).

Definition AuxPow_Deserialize (ap : AuxPow) : rd (AuxPow * err) :=
  '(t, e) ← BtcTx_Deserialize (ParCoinbaseTx ap);
  let ap := mkAuxPow (AuxMerkleBranch ap) (AuxMerkleIndex ap) t (ParCoinBaseMerkle ap) (ParMerkleIndex ap)
              (ParBlockHeader ap) (ParentHash ap) in
  iferr e return ap ;;
  '(ph, e) ← Uint256_Deserialize (ParentHash ap);
  let ap := mkAuxPow (AuxMerkleBranch ap) (AuxMerkleIndex ap) t (ParCoinBaseMerkle ap) (ParMerkleIndex ap)
              (ParBlockHeader ap) ph in
  iferr e return ap ;;
  '(temp, e) ← ReadUint32;
  iferr e return ap ;;
  let ami := temp in
  let ap := mkAuxPow (AuxMerkleBranch ap) ami t (ParCoinBaseMerkle ap) (ParMerkleIndex ap) (ParBlockHeader ap) ph in
  '(count, e) ← ReadVarUint 0;
  iferr e return ap ;;
  if negb (make_ok 32 count) then rd_panic else
  '(amb, e) ← read_array (Z.to_nat count) zero256 (Uint256_Deserialize zero256);
  let ap := mkAuxPow amb ami t (ParCoinBaseMerkle ap) (ParMerkleIndex ap) (ParBlockHeader ap) ph in
  iferr e return ap ;;
  '(temp, e) ← ReadUint32;
  iferr e return ap ;;
  let pmi := temp in
  let ap := mkAuxPow amb ami t (ParCoinBaseMerkle ap) pmi (ParBlockHeader ap) ph in
  '(count, e) ← ReadVarUint 0;
  iferr e return ap ;;
  if negb (make_ok 32 count) then rd_panic else
  '(pcm, e) ← read_array (Z.to_nat count) zero256 (Uint256_Deserialize zero256);
  let ap := mkAuxPow amb ami t pcm pmi (ParBlockHeader ap) ph in
  iferr e return ap ;;
  '(bh, e) ← BtcHeader_Deserialize (ParBlockHeader ap);
  iferr e return (mkAuxPow amb ami t pcm pmi bh ph) ;;
  mret (mkAuxPow amb ami t pcm pmi bh ph, None).

(** [index >>= 1] is an arithmetic shift of a 64-bit [int]. *)
Fixpoint branch_loop (hash : Uint256) (merkleBranch : list Uint256) (index : Z) : Uint256 :=
  match merkleBranch with
  | [] => hash
  | it :: rest =>
      let hash := if Z.land index 1 =? 1 then sha256 (it ++ hash) else sha256 (hash ++ it) in
      branch_loop hash rest (Z.shiftr index 1)
  end.
Definition CheckMerkleBranch (hash : Uint256) (merkleBranch : list Uint256) (index : Z) : Uint256 :=
  if index =? -1 then zero256 else branch_loop hash merkleBranch index.

(** The 32-bit shift gives 0 from 32 on, and [rand % 0] panics. *)
Definition GetExpectedIndex (nonce chainId h : Z) : option Z :=
  let rand := nonce in
  let rand := uint32 (rand * 1103515245 + 12345) in
  let rand := uint32 (rand + uint32 chainId) in
  let rand := uint32 (rand * 1103515245 + 12345) in
  let m := uint32 (Z.shiftl 1 (uint32 h)) in
  if m =? 0 then None else Some (rand mod m).

(** [strings.Index]: position of the first occurrence, [-1] if none. *)
Fixpoint string_index_from (i : Z) (s sub : bytes) : Z :=
  if bool_decide (take (length sub) s = sub) then i
  else match s with [] => -1 | _ :: s => string_index_from (i + 1) s sub end.
Definition strings_Index (s sub : bytes) : Z := string_index_from 0 s sub.

(** [None] is a panic: a nil input or output while hashing the coinbase, a
    coinbase without inputs, the nonce cut off, or a branch of 32 or more.  A
    deserialised script has no spare capacity, so a slice may not exceed it. *)
Definition AuxPow_Check (ap : AuxPow) (hashAuxBlock : Uint256) (chainId : Z) : option bool :=
  txHash ← BtcTx_Hash (ParCoinbaseTx ap);
  if negb (bool_decide (CheckMerkleBranch txHash (ParCoinBaseMerkle ap) (ParMerkleIndex ap)
                        = bh_MerkleRoot (ParBlockHeader ap)))
  then Some false
  else
    let auxRootHash := CheckMerkleBranch hashAuxBlock (AuxMerkleBranch ap) (AuxMerkleIndex ap) in
    ti ← TxIn (ParCoinbaseTx ap) !! 0%nat;
    ti ← ti;
    let script := SignatureScript ti in
    let scriptStr := EncodeToString script in
    let auxRootHashStr := EncodeToString auxRootHash in
    let pchMergedMiningHeaderStr := EncodeToString pchMergedMiningHeader in
    let headerIndex := strings_Index scriptStr pchMergedMiningHeaderStr in
    let rootHashIndex := strings_Index scriptStr auxRootHashStr in
    if (headerIndex =? -1) || (rootHashIndex =? -1) then Some false
    else if negb (strings_Index (drop (Z.to_nat (headerIndex + 2)) scriptStr) pchMergedMiningHeaderStr =? -1)
    then Some false
    else if negb (headerIndex + Z.of_nat (length pchMergedMiningHeaderStr) =? rootHashIndex)
    then Some false
    else
      let rootHashIndex := rootHashIndex + Z.of_nat (length auxRootHashStr) in
      if Z.of_nat (length scriptStr) - rootHashIndex <? 8 then Some false
      else
        let pos := Z.to_nat (rootHashIndex / 2) in
        sizeBytes ← slice script pos (pos + 4);
        let size := le_val sizeBytes in
        let merkleHeight := Z.of_nat (length (AuxMerkleBranch ap)) in
        if negb (size =? uint32 (Z.shiftl 1 (uint32 merkleHeight))) then Some false
        else
          nonceBytes ← slice script (pos + 4) (pos + 8);
          expected ← GetExpectedIndex (le_val nonceBytes) chainId merkleHeight;
          Some (AuxMerkleIndex ap =? expected).

(** [reverse]. *)
Fixpoint reverse_bytes (input : bytes) : bytes :=
  match input with [] => [] | x :: rest => reverse_bytes rest ++ [x] end.

(** * Round trips *)

Lemma ReadFull_le n v k rest :
  (0 < n)%nat -> ReadFull (Z.of_nat n) (mkReader k (le_bytes n v ++ rest)) = Some ((le_bytes n v, None), mkReader k rest).
Proof. intros Hn. apply ReadFull_app; [by rewrite length_le_bytes|]. destruct n; [lia|done]. Qed.

Lemma ReadFull_u256 u k rest :
  wf_u256 u -> ReadFull 32 (mkReader k (u ++ rest)) = Some ((u, None), mkReader k rest).
Proof. intros [L _]. apply ReadFull_app; [by rewrite L|]. by destruct u. Qed.

(** A fixed-width field read with [io.ReadFull]. *)
Ltac full_field :=
  first [ erewrite rd_bind_Some by (apply (ReadFull_le 4); lia)
        | erewrite rd_bind_Some by (apply (ReadFull_le 8); lia)
        | erewrite rd_bind_Some by (by apply ReadFull_u256) ];
  cbn beta iota.

Lemma make_ok_true elem n : elem * n <= maxAlloc -> make_ok elem n = true.
Proof. apply Z.leb_le. Qed.

Lemma le_val_4 v : inU 32 v -> le_val (le_bytes 4 v) = v.
Proof. intros H. rewrite le_val_le_bytes, Z.mod_small; [done|]. change (256 ^ Z.of_nat 4) with (2 ^ 32). lia. Qed.
Lemma le_val_8 v : inU 64 v -> le_val (le_bytes 8 v) = v.
Proof. intros H. rewrite le_val_le_bytes, Z.mod_small; [done|]. change (256 ^ Z.of_nat 8) with (2 ^ 64). lia. Qed.

Lemma read_array_reads {A} T `{!Tail T} (ser : A -> bytes) (d : A) item l :
  (forall a, a ∈ l -> reads T item (ser a) a) ->
  reads T (read_array (length l) d item) (concat (map ser l)) l.
Proof.
  induction l as [|a l IH]; intros H k rest Ht; [done|]. cbn [length read_array map concat].
  rewrite <- app_assoc. erewrite (rd_field T); [|apply H; constructor|by apply tail_app]. cbn beta iota.
  erewrite (rd_field T); [|apply IH; intros; apply H; by constructor|done]. done.
Qed.

Lemma read_hashes_reads l :
  Forall wf_u256 l ->
  reads any_tail (read_array (Z.to_nat (Z.of_nat (length l))) zero256 (Uint256_Deserialize zero256))
    (concat (map Uint_Serialize l)) l.
Proof.
  intros W. rewrite Nat2Z.id. apply read_array_reads; [apply _|]. intros a Ha.
  rewrite list.Forall_forall in W. by apply Uint256_Deserialize_reads, W.
Qed.

Lemma mapM_total {A B} (f : A -> option B) (d : B) l :
  Forall (fun a => is_Some (f a)) l -> mapM f l = Some (map (fun a => default d (f a)) l).
Proof. induction 1 as [|a l [b E] _ IH]; [done|]. simpl. rewrite E. simpl. by rewrite IH. Qed.

Definition wf_OutPoint (op : BtcOutPoint) : Prop := wf_u256 (op_Hash op) /\ inU 32 (op_Index op).

Lemma OutPoint_reads op : wf_OutPoint op -> reads any_tail (BtcReadOutPoint new_OutPoint) (BtcWriteOutPoint op) op.
Proof.
  intros [H Hi] k rest _. unfold BtcReadOutPoint, BtcWriteOutPoint. rewrite <- app_assoc.
  full_field. full_field. rewrite le_val_4 by done.
  destruct H as [L _]. destruct op as [h i]; cbn in *. by rewrite drop_ge, app_nil_r by (rewrite L; done).
Qed.
#[export] Hint Resolve OutPoint_reads : dna.

Definition wf_BtcTxIn (o : option BtcTxIn) : Prop :=
  match o with
  | Some ti => wf_OutPoint (PreviousOutPoint ti) /\ Z.of_nat (length (SignatureScript ti)) <= maxAlloc /\
               inU 32 (ti_Sequence ti)
  | None => False
  end.
Definition wf_BtcTxOut (o : option BtcTxOut) : Prop :=
  match o with
  | Some to => inS 64 (to_Value to) /\ Z.of_nat (length (PkScript to)) <= maxAlloc
  | None => False
  end.

Lemma alloc_reads {A} T (m : rd (A * err)) enc a : reads T m enc a -> reads T (alloc m) enc (Some a).
Proof. intros H k rest Ht. unfold alloc. erewrite rd_field by done. done. Qed.

Lemma BtcTxIn_reads o :
  wf_BtcTxIn o -> reads any_tail (alloc (BtcReadTxIn new_BtcTxIn)) (default [] (BtcWriteTxIn o)) o.
Proof.
  destruct o as [ti|]; [|done]. intros (Ho & Hs & Hq). apply alloc_reads. intros k rest _.
  unfold BtcReadTxIn. cbn [BtcWriteTxIn mbind option_bind from_option id]. rewrite <- !app_assoc.
  field. field. full_field. rewrite le_val_4 by done. by destruct ti.
Qed.

Lemma BtcTxOut_reads o :
  wf_BtcTxOut o -> reads live_tail (alloc (BtcReadTxOut new_BtcTxOut)) (default [] (BtcWriteTxOut o)) o.
Proof.
  destruct o as [to|]; [|done]. intros (Hv & Hs). apply alloc_reads. intros k rest Ht.
  unfold BtcReadTxOut. cbn [BtcWriteTxOut mbind option_bind from_option id]. rewrite <- !app_assoc.
  full_field. field. rewrite le_val_8 by (apply wrapU_range; lia).
  rewrite wrapS_of_U by done. by destruct to.
Qed.

Record wf_BtcTx (tx : BtcTx) : Prop := {
  wfb_version : inS 32 (btx_Version tx);
  wfb_in : Forall wf_BtcTxIn (TxIn tx);
  wfb_out : Forall wf_BtcTxOut (TxOut tx);
  wfb_lens : 8 * Z.of_nat (length (TxIn tx)) <= maxAlloc /\ 8 * Z.of_nat (length (TxOut tx)) <= maxAlloc;
  wfb_lock : inU 32 (btx_LockTime tx) }.

Lemma BtcTx_reads tx :
  wf_BtcTx tx ->
  exists enc, BtcTx_Serialize tx = Some enc /\ reads any_tail (BtcTx_Deserialize new_BtcTx) enc tx.
Proof.
  intros [Hv Hi Ho (Li & Lo) Hl]. unfold BtcTx_Serialize.
  rewrite (mapM_total _ []), (mapM_total _ []).
  2:{ eapply list.Forall_impl; [exact Hi|]. intros [ti|]; [|done]. cbn. eauto. }
  2:{ eapply list.Forall_impl; [exact Ho|]. intros [to|]; [|done]. cbn. eauto. }
  cbn [mbind option_bind]. eexists. split; [reflexivity|]. intros k rest _.
  unfold BtcTx_Deserialize. rewrite <- !app_assoc.
  assert (maxAlloc < 2 ^ 60) by (unfold maxAlloc; lia).
  full_field. erewrite (rd_field any_tail); [|apply ReadVarUint_reads; lia|exact I]. cbn beta iota.
  rewrite make_ok_true by done. cbn [negb]. rewrite Nat2Z.id.
  erewrite (rd_field any_tail); [|apply read_array_reads; [apply _|]|exact I].
  2:{ intros a Ha. apply BtcTxIn_reads. rewrite list.Forall_forall in Hi. by apply Hi. }
  cbn beta iota. erewrite (rd_field any_tail); [|apply ReadVarUint_reads; lia|exact I]. cbn beta iota.
  rewrite make_ok_true by done. cbn [negb]. rewrite Nat2Z.id.
  erewrite (rd_field live_tail); [|apply read_array_reads; [apply _|]|].
  2:{ intros a Ha. apply BtcTxOut_reads. rewrite list.Forall_forall in Ho. by apply Ho. }
  2:{ apply live_tail_app. discriminate. }
  cbn beta iota. full_field. rewrite (le_val_4 (btx_LockTime tx)) by done.
  rewrite le_val_4 by (apply wrapU_range; lia). rewrite wrapS_of_U by done. by destruct tx.
Qed.

Record wf_BtcHeader (bh : BtcBlockHeader) : Prop := {
  wfh_version : inS 32 (bh_Version bh); wfh_prev : wf_u256 (bh_PrevBlock bh);
  wfh_root : wf_u256 (bh_MerkleRoot bh);
  wfh_nums : inU 32 (bh_Timestamp bh) /\ inU 32 (bh_Bits bh) /\ inU 32 (bh_Nonce bh) }.

Lemma BtcHeader_reads bh :
  wf_BtcHeader bh -> reads any_tail (BtcHeader_Deserialize new_BtcHeader) (BtcHeader_Serialize bh) bh.
Proof.
  intros [Hv Hp Hr (Ht & Hb & Hn)] k rest _. unfold BtcHeader_Deserialize, BtcHeader_Serialize.
  rewrite <- !app_assoc.
  erewrite (rd_field any_tail); [|apply ReadUint32_reads, wrapU_range; lia|exact I]. cbn beta iota.
  do 5 field. rewrite wrapS_of_U by done. by destruct bh.
Qed.
#[export] Hint Resolve BtcHeader_reads : dna.

#[export] Instance wf_BtcTxIn_dec o : Decision (wf_BtcTxIn o).
Proof. destruct o; unfold wf_BtcTxIn, wf_OutPoint, wf_u256; apply _. Defined.
#[export] Instance wf_BtcTxOut_dec o : Decision (wf_BtcTxOut o).
Proof. destruct o; apply _. Defined.

Record wf_AuxPow (ap : AuxPow) : Prop := {
  wfa_tx : wf_BtcTx (ParCoinbaseTx ap); wfa_header : wf_BtcHeader (ParBlockHeader ap);
  wfa_parent : wf_u256 (ParentHash ap);
  wfa_idx : inU 32 (AuxMerkleIndex ap) /\ inU 32 (ParMerkleIndex ap);
  wfa_amb : Forall wf_u256 (AuxMerkleBranch ap); wfa_pcm : Forall wf_u256 (ParCoinBaseMerkle ap);
  wfa_lens : 32 * Z.of_nat (length (AuxMerkleBranch ap)) <= maxAlloc /\
             32 * Z.of_nat (length (ParCoinBaseMerkle ap)) <= maxAlloc }.

Lemma AuxPow_reads ap :
  wf_AuxPow ap ->
  exists enc, AuxPow_Serialize ap = Some enc /\ reads any_tail (AuxPow_Deserialize new_AuxPow) enc ap.
Proof.
  intros [Wt Wh Wp (Ia & Ip) Wa Wc (La & Lc)]. destruct (BtcTx_reads _ Wt) as (t & Et & Rt).
  unfold AuxPow_Serialize. rewrite Et. cbn [mbind option_bind]. eexists. split; [reflexivity|].
  intros k rest _. unfold AuxPow_Deserialize. rewrite <- !app_assoc.
  assert (maxAlloc < 2 ^ 60) by (unfold maxAlloc; lia).
  rewrite (wrapU_id 32 (AuxMerkleIndex ap)), (wrapU_id 32 (ParMerkleIndex ap)) by lia.
  erewrite (rd_field any_tail); [|exact Rt|exact I]. cbn beta iota. field. field.
  erewrite (rd_field any_tail); [|apply ReadVarUint_reads; lia|exact I]. cbn beta iota.
  rewrite make_ok_true by done. cbn [negb].
  erewrite (rd_field any_tail); [|by apply read_hashes_reads|exact I]. cbn beta iota. field.
  erewrite (rd_field any_tail); [|apply ReadVarUint_reads; lia|exact I]. cbn beta iota.
  rewrite make_ok_true by done. cbn [negb].
  erewrite (rd_field any_tail); [|by apply read_hashes_reads|exact I]. cbn beta iota. field.
  by destruct ap.
Qed.

(** * Branches and expected indices *)

(** Two different 64-byte inputs with the same SHA-256. *)
Definition branch_collision : Prop :=
  exists x y : bytes, x <> y /\ length x = 64%nat /\ length y = 64%nat /\ sha256 x = sha256 y.

Lemma sha256_pair_inj (a b c d : bytes) :
  length a = 32%nat -> length b = 32%nat -> length c = 32%nat -> length d = 32%nat ->
  sha256 (a ++ b) = sha256 (c ++ d) -> (a = c /\ b = d) \/ branch_collision.
Proof.
  intros La Lb Lc Ld E. destruct (decide (a ++ b = c ++ d)) as [D|D].
  - left. apply app_inj_1 in D; [done|congruence].
  - right. exists (a ++ b), (c ++ d). rewrite !length_app. repeat split; [done|lia|lia|done].
Qed.

Lemma branch_loop_inj b b' h h' i :
  length b = length b' -> Forall wf_u256 b -> Forall wf_u256 b' ->
  length h = 32%nat -> length h' = 32%nat ->
  branch_loop h b i = branch_loop h' b' i -> (h = h' /\ b = b') \/ branch_collision.
Proof.
  revert b' h h' i. induction b as [|x b IH]; intros [|x' b'] h h' i Hl W W' Lh Lh' E; try done; [auto|].
  injection Hl as Hl. apply list.Forall_cons in W as [[Lx _] W]. apply list.Forall_cons in W' as [[Lx' _] W'].
  cbn [branch_loop] in E. destruct (Z.land i 1 =? 1).
  all: apply IH in E; try done; try apply length_sha256.
  all: destruct E as [[E ->]|]; [|by right]; apply sha256_pair_inj in E; try done;
    destruct E as [[? ?]|]; subst; auto.
Qed.

Lemma GetExpectedIndex_spec nonce chainId h :
  0 <= h < 2 ^ 32 ->
  GetExpectedIndex nonce chainId h =
    if h <? 32 then
      Some (uint32 (uint32 (uint32 (nonce * 1103515245 + 12345) + uint32 chainId) * 1103515245 + 12345) mod 2 ^ h)
    else None.
Proof.
  intros Hh. unfold GetExpectedIndex. rewrite (wrapU_id 32 h) by lia. rewrite Z.shiftl_1_l.
  destruct (Z.ltb_spec h 32) as [H|H].
  - assert (0 < 2 ^ h < 2 ^ 32) by (split; [apply Z.pow_pos_nonneg; lia|apply Z.pow_lt_mono_r; lia]).
    rewrite (wrapU_id 32 (2 ^ h)) by lia. destruct (Z.eqb_spec (2 ^ h) 0); [lia|done].
  - unfold wrapU at 1. replace h with (h - 32 + 32) by lia.
    rewrite Z.pow_add_r, Z.mod_mul by lia. done.
Qed.

Lemma string_index_from_spec i s sub :
  string_index_from i s sub <> -1 -> 0 <= i ->
  exists n, string_index_from i s sub = i + Z.of_nat n /\ take (length sub) (drop n s) = sub.
Proof.
  revert i. induction s as [|c s IH]; intros i H Hi; cbn [string_index_from] in *.
  all: case_bool_decide as D; [exists 0%nat; rewrite drop_0; split; [lia|done]|].
  1: done.
  destruct (IH (i + 1) H ltac:(lia)) as (n & E & T). exists (S n). split; [lia|done].
Qed.

Lemma strings_Index_found s sub i :
  strings_Index s sub = i -> i <> -1 ->
  exists n post, i = Z.of_nat n /\ s = take n s ++ sub ++ post.
Proof.
  intros <- H. destruct (string_index_from_spec 0 s sub H ltac:(lia)) as (n & E & T).
  exists n, (drop (length sub) (drop n s)). split; [exact E|].
  rewrite <- T at 1. by rewrite !take_drop.
Qed.

(** * Properties *)

(** The auxiliary proof of work of a block survives its binary form:
    parent coinbase, branches, indices and parent header are read back as they
    were written, whatever follows. *)
Theorem auxpow_roundtrip (ap : AuxPow) (k : reader_kind) (rest : bytes) :
  wf_AuxPow ap ->
  exists enc, AuxPow_Serialize ap = Some enc /\
    AuxPow_Deserialize new_AuxPow (mkReader k (enc ++ rest)) = Some ((ap, None), mkReader k rest).
Proof.
  intros W. destruct (AuxPow_reads ap W) as (enc & E & R). exists enc. split; [exact E|]. by apply R.
Qed.

(** A merge-mined parent whose coinbase carries [root] with a one-leaf tree. *)
Definition sample_script (root : bytes) : bytes :=
  [3; 1; 2; 3] ++ pchMergedMiningHeader ++ root ++ le_bytes 4 1 ++ le_bytes 4 7.
Definition sample_parent (root : bytes) : BtcTx :=
  NewBtcTx [mkBtcTxIn (mkOutPoint zero256 4294967295) (sample_script root) 0] [mkBtcTxOut 5000000000 [81]].
Definition sample_AuxPow (root : bytes) : AuxPow :=
  NewAuxPow [] 0 (sample_parent root) [] 0
    (mkBtcHeader 2 zero256 (default [] (BtcTx_Hash (sample_parent root))) 1400000000 0x1d00ffff 42).

Lemma wf_sample_AuxPow : wf_AuxPow (sample_AuxPow (repeat 5 32)).
Proof. constructor; [constructor|constructor|..]. all: by_decision. Qed.

Lemma auxpow_roundtrip_witness :
  exists enc, AuxPow_Serialize (sample_AuxPow (repeat 5 32)) = Some enc /\
    AuxPow_Deserialize new_AuxPow (mkReader BytesReader (enc ++ [9]))
    = Some ((sample_AuxPow (repeat 5 32), None), mkReader BytesReader [9]).
Proof.
  apply auxpow_roundtrip. exact wf_sample_AuxPow.
Defined.

(** A Merkle branch proves one leaf: for the same index and branch length,
    two leaves and branches that lead to the same root are equal, or exhibit
    two different 64-byte inputs with the same SHA-256.  (The index [-1] is
    excluded: it gives the zero hash for every leaf.) *)
Theorem merkle_branch_binding (h h' : Uint256) (b b' : list Uint256) (index : Z) :
  length b = length b' -> Forall wf_u256 b -> Forall wf_u256 b' -> wf_u256 h -> wf_u256 h' -> index <> -1 ->
  CheckMerkleBranch h b index = CheckMerkleBranch h' b' index -> (h = h' /\ b = b') \/ branch_collision.
Proof.
  intros Hl W W' [Lh _] [Lh' _] Hi. unfold CheckMerkleBranch.
  destruct (Z.eqb_spec index (-1)); [done|]. by apply branch_loop_inj.
Qed.

Lemma merkle_branch_binding_witness :
  (repeat 1 32 = repeat 1 32 /\ [repeat 2 32] = [repeat 2 32]) \/ branch_collision.
Proof.
  apply (merkle_branch_binding (repeat 1 32) (repeat 1 32) [repeat 2 32] [repeat 2 32] 5);
    try reflexivity; try lia; repeat constructor; unfold wf_byte; lia.
Defined.

(** The slot of a chain in a merged-mining tree of height [h]: a value
    below [2^h] for every height the 32-bit size field can express, and a
    division by zero for every greater height. *)
Theorem expected_index_range (nonce chainId h : Z) :
  0 <= h < 2 ^ 32 ->
  (h < 32 -> exists i, GetExpectedIndex nonce chainId h = Some i /\ 0 <= i < 2 ^ h) /\
  (32 <= h -> GetExpectedIndex nonce chainId h = None).
Proof.
  intros Hh. rewrite GetExpectedIndex_spec by done. split; intros H.
  - destruct (Z.ltb_spec h 32); [|lia]. eexists. split; [reflexivity|].
    apply Z.mod_pos_bound, Z.pow_pos_nonneg; lia.
  - destruct (Z.ltb_spec h 32); [lia|done].
Qed.

Lemma expected_index_range_witness :
  (exists i, GetExpectedIndex 7 AuxPowChainID 3 = Some i /\ 0 <= i < 2 ^ 3) /\
  GetExpectedIndex 7 AuxPowChainID 40 = None.
Proof.
  split; [apply (expected_index_range 7 AuxPowChainID 3); lia|apply (expected_index_range 7 AuxPowChainID 40); lia].
Defined.

(** C33: What an accepted auxiliary proof of work shows: the parent coinbase is
    in the parent block's Merkle tree; in the hexadecimal text of its first
    input script the merged-mining magic is directly followed by the root that
    the block's branch leads to, with at least four more bytes behind it; no
    second magic occurs; and the claimed leaf index is within the tree. *)
Theorem auxpow_check_sound (ap : AuxPow) (hashAuxBlock : Uint256) (chainId : Z) :
  Z.of_nat (length (AuxMerkleBranch ap)) < 2 ^ 32 ->
  AuxPow_Check ap hashAuxBlock chainId = Some true ->
  let root := CheckMerkleBranch hashAuxBlock (AuxMerkleBranch ap) (AuxMerkleIndex ap) in
  let magic := EncodeToString pchMergedMiningHeader in
  exists txHash ti pre post,
    BtcTx_Hash (ParCoinbaseTx ap) = Some txHash /\
    CheckMerkleBranch txHash (ParCoinBaseMerkle ap) (ParMerkleIndex ap) = bh_MerkleRoot (ParBlockHeader ap) /\
    TxIn (ParCoinbaseTx ap) !! 0%nat = Some (Some ti) /\
    EncodeToString (SignatureScript ti) = pre ++ magic ++ EncodeToString root ++ post /\
    (8 <= length post)%nat /\
    strings_Index (drop (length pre + 2) (EncodeToString (SignatureScript ti))) magic = -1 /\
    Z.of_nat (length (AuxMerkleBranch ap)) < 32 /\
    0 <= AuxMerkleIndex ap < 2 ^ Z.of_nat (length (AuxMerkleBranch ap)).
Proof.
  intros Hlen H root magic. unfold AuxPow_Check in H. fold root magic in H.
  apply bind_Some in H as (txHash & Eh & H).
  case_bool_decide as Hroot; cbn [negb] in H; [|done].
  apply bind_Some in H as (o & Ei & H). apply bind_Some in H as (ti & -> & H).
  set (str := EncodeToString (SignatureScript ti)) in *.
  destruct (strings_Index str magic =? -1) eqn:E1; [done|].
  destruct (strings_Index str (EncodeToString root) =? -1) eqn:E2; [done|]. cbn [orb] in H.
  destruct (strings_Index (drop _ str) magic =? -1) eqn:E3; [|done]. cbn [negb] in H.
  destruct (_ =? strings_Index str (EncodeToString root)) eqn:E4; [|done]. cbn [negb] in H.
  destruct (_ - _ <? 8) eqn:E5; [done|].
  apply bind_Some in H as (sb & _ & H).
  destruct (le_val sb =? _); [|done]. cbn [negb] in H.
  apply bind_Some in H as (nb & _ & H).
  rewrite GetExpectedIndex_spec in H by lia.
  destruct (Z.ltb_spec (Z.of_nat (length (AuxMerkleBranch ap))) 32) as [Hh|]; [|done].
  cbn [mbind option_bind] in H. injection H as H. apply Z.eqb_eq in H.
  apply Z.eqb_neq in E1, E2. apply Z.eqb_eq in E3, E4. apply Z.ltb_ge in E5.
  destruct (strings_Index_found _ _ _ eq_refl E1) as (n & post1 & En & S1).
  destruct (strings_Index_found _ _ _ eq_refl E2) as (m & post2 & Em & S2).
  assert (Hm : m = (n + length magic)%nat) by lia.
  assert (Hn : (n <= length str)%nat).
  { apply (f_equal length) in S1. rewrite !length_app, length_take in S1. lia. }
  exists txHash, ti, (take n str), post2. repeat split; try done.
  - fold str. rewrite S2 at 1. rewrite Hm, <- take_take_drop, <- app_assoc.
    assert (drop n str = magic ++ post1) as ->; [|by rewrite take_app_length].
    apply (app_inv_head (take n str)). by rewrite take_drop.
  - apply (f_equal length) in S2. rewrite !length_app, length_take in S2. lia.
  - fold str. rewrite length_take, Nat.min_l by done. rewrite <- E3. do 2 f_equal. lia.
  - rewrite H. apply Z.mod_pos_bound, Z.pow_pos_nonneg; lia.
  - rewrite H. apply Z.mod_pos_bound, Z.pow_pos_nonneg; lia.
Qed.

Lemma auxpow_check_sound_witness :
  0 <= AuxMerkleIndex (sample_AuxPow (repeat 5 32)) < 2 ^ Z.of_nat (length (AuxMerkleBranch (sample_AuxPow (repeat 5 32)))).
Proof.
  destruct (auxpow_check_sound (sample_AuxPow (repeat 5 32)) (repeat 5 32) AuxPowChainID)
    as (? & ? & ? & ? & _ & _ & _ & _ & _ & _ & _ & H).
  - reflexivity.
  - vm_compute. reflexivity.
  - exact H.
Defined.

(** [Check] panics instead of rejecting in three situations a peer can
    arrange once the parent coinbase is in the parent's Merkle tree: the
    coinbase has no input; the script ends four bytes after the root; the
    branch has 32 or more entries and the size field is zero.  Here each on
    the well-formed proof it differs from in that one respect. *)
Theorem auxpow_check_panics :
  let root := repeat 5 32 in
  let with_tx branch tx := NewAuxPow branch 0 tx [] 0
    (mkBtcHeader 2 zero256 (default [] (BtcTx_Hash tx)) 1400000000 0x1d00ffff 42) in
  let with_script branch script := with_tx branch (NewBtcTx [mkBtcTxIn new_OutPoint script 0] []) in
  let deep := repeat zero256 32 in
  AuxPow_Check (sample_AuxPow root) root AuxPowChainID = Some true /\
  AuxPow_Check (with_tx [] (NewBtcTx [] [])) root AuxPowChainID = None /\
  AuxPow_Check (with_script [] (pchMergedMiningHeader ++ root ++ le_bytes 4 1)) root AuxPowChainID = None /\
  AuxPow_Check (with_script deep (pchMergedMiningHeader ++ CheckMerkleBranch root deep 0 ++ le_bytes 4 0 ++ le_bytes 4 7))
    root AuxPowChainID = None.
Proof. vm_compute. repeat split. Qed.
