(* ===== verification/Block.v ===== *)
(** [core/ledger/blockdata.go], [block.go], [header.go]: block headers, blocks,
    their binary forms (full and trimmed), hashes and Merkle roots.

    [Deserialize] of a block drops the errors of the header and of every
    transaction, hashes each transaction (which fills its cached hash) and
    replaces the Merkle root of the header by the root of what it read. *)

From S2P Require Import Prelude Sha256 Serialization Common Fixed64 Transaction Merkle AuxPow.

(** The [Program] and [hash] fields of the Go struct are never used. *)
Record Blockdata := mkBlockdata {
  bd_Version : Z; PrevBlockHash : Uint256; TransactionsRoot : Uint256;
  bd_Timestamp : Z; bd_Bits : Z; bd_Height : Z; bd_Nonce : Z; bd_AuxPow : AuxPow }.
Definition new_Blockdata : Blockdata := mkBlockdata 0 zero256 zero256 0 0 0 0 new_AuxPow.
Definition set_TransactionsRoot (bd : Blockdata) (r : Uint256) : Blockdata :=
  mkBlockdata (bd_Version bd) (PrevBlockHash bd) r (bd_Timestamp bd) (bd_Bits bd) (bd_Height bd)
    (bd_Nonce bd) (bd_AuxPow bd).
Definition set_AuxPow (bd : Blockdata) (ap : AuxPow) : Blockdata :=
  mkBlockdata (bd_Version bd) (PrevBlockHash bd) (TransactionsRoot bd) (bd_Timestamp bd) (bd_Bits bd)
    (bd_Height bd) (bd_Nonce bd) ap.

Definition Blockdata_SerializeUnsigned (bd : Blockdata) : bytes :=
  WriteUint32 (bd_Version bd) ++ Uint_Serialize (PrevBlockHash bd) ++
  Uint_Serialize (TransactionsRoot bd) ++ WriteUint32 (bd_Timestamp bd) ++
  WriteUint32 (bd_Bits bd) ++ WriteUint32 (bd_Nonce bd) ++ WriteUint32 (bd_Height bd).

Definition Blockdata_Serialize (bd : Blockdata) : option bytes :=
  ap ← AuxPow_Serialize (bd_AuxPow bd);
  Some (Blockdata_SerializeUnsigned bd ++ ap ++ [1]).

Definition Blockdata_DeserializeUnsigned (bd : Blockdata) : rd (Blockdata * err) :=
  '(v, e) ← ReadUint32;
  if is_err e then mret (bd, Some (NewError "Blockdata item Version Deserialize failed.")) else
  let bd := mkBlockdata v (PrevBlockHash bd) (TransactionsRoot bd) (bd_Timestamp bd) (bd_Bits bd)
              (bd_Height bd) (bd_Nonce bd) (bd_AuxPow bd) in
  '(prev, e) ← Uint256_Deserialize zero256;
  if is_err e then mret (bd, Some (NewError "Blockdata item preBlock Deserialize failed.")) else
  let bd := mkBlockdata v prev (TransactionsRoot bd) (bd_Timestamp bd) (bd_Bits bd)
              (bd_Height bd) (bd_Nonce bd) (bd_AuxPow bd) in
  '(root, e) ← Uint256_Deserialize zero256;
  iferr e return bd ;;
  '(ts, _) ← ReadUint32;
  '(bits, _) ← ReadUint32;
  '(nonce, _) ← ReadUint32;
  '(height, _) ← ReadUint32;
  mret (mkBlockdata v prev root ts bits height nonce (bd_AuxPow bd), None).

Definition Blockdata_Deserialize (bd : Blockdata) : rd (Blockdata * err) :=
  '(bd, _) ← Blockdata_DeserializeUnsigned bd;
  '(ap, _) ← AuxPow_Deserialize (bd_AuxPow bd);
  let bd := set_AuxPow bd ap in
  '(p, _) ← Read 1;
  match p with
  | x :: _ =>
      if negb (x =? 1) then mret (bd, Some (NewError "Blockdata Deserialize get format error."))
      else mret (bd, None)
  | [] => mret (bd, Some (NewError "Blockdata Deserialize get format error."))
  end.

Definition Blockdata_Hash (bd : Blockdata) : Uint256 := dsha256 (Blockdata_SerializeUnsigned bd).

(** [header.go]: a header is a [Blockdata] with one more byte. *)
Definition Header_Serialize (bd : Blockdata) : option bytes := b ← Blockdata_Serialize bd; Some (b ++ [48]).
Definition Header_Deserialize : rd (Blockdata * err) :=
  '(bd, _) ← Blockdata_Deserialize new_Blockdata;
  '(_, e) ← ReadFull 1;
  iferr e return bd ;;
  mret (bd, None).

(** * Blocks *)

Record Block := mkBlock { blk_data : Blockdata; Transactions : list Transaction; blk_hash : option Uint256 }.
Definition new_Block : Block := mkBlock new_Blockdata [] None.

Definition BlockVersion : Z := 0.
Definition GenesisNonce : Z := 2083236893.
Definition InvalidBlockSize : Z := -1.

(** The transactions are written even where one reports an error. *)
Definition Block_Serialize (b : Block) : option bytes :=
  d ← Blockdata_Serialize (blk_data b);
  txs ← mapM Tx_Serialize (Transactions b);
  Some (d ++ WriteUint32 (uint32 (Z.of_nat (length (Transactions b)))) ++ concat (map fst txs)).

(** [transaction.Hash()] stores what it computes in the transaction. *)
Definition hash_cached (t : Transaction) : option (Transaction * Uint256) :=
  h ← Tx_Hash t; Some (SetHash t h, h).

Fixpoint read_txs (n : nat) (txs : list Transaction) (tharray : list Uint256) :
    rd (list Transaction * list Uint256) :=
  match n with
  | O => mret (txs, tharray)
  | S n =>
      '(t, _) ← Tx_Deserialize new_Transaction;
      match hash_cached t with
      | None => rd_panic
      | Some (t, h) => read_txs n (txs ++ [t]) (tharray ++ [h])
      end
  end.

(** The last step of both deserialisers. *)
Definition finish_block (b : Block) (txs : list Transaction) (tharray : list Uint256) : rd (Block * err) :=
  match ComputeRoot tharray with
  | None => rd_panic
  | Some (root, e) =>
      let b := mkBlock (set_TransactionsRoot (blk_data b) root) txs (blk_hash b) in
      if is_err e then mret (b, Some (NewError "Block Deserialize merkleTree compute failed"))
      else mret (b, None)
  end.

Definition Block_Deserialize (b : Block) : rd (Block * err) :=
  '(bd, _) ← Blockdata_Deserialize (blk_data b);
  let b := mkBlock bd (Transactions b) (blk_hash b) in
  '(Len, e) ← ReadUint32;
  iferr e return b ;;
  '(txs, tharray) ← read_txs (Z.to_nat Len) (Transactions b) [];
  finish_block b txs tharray.

Definition Trim (b : Block) : option bytes :=
  d ← Blockdata_Serialize (blk_data b);
  hs ← mapM Tx_Hash (Transactions b);
  Some (d ++ WriteUint32 (uint32 (Z.of_nat (length (Transactions b)))) ++ concat (map Uint_Serialize hs)).

(** One variable [txhash] receives every hash, and its read errors are dropped. *)
Fixpoint read_trimmed (n : nat) (txhash : Uint256) (txs : list Transaction) (tharray : list Uint256) :
    rd (list Transaction * list Uint256) :=
  match n with
  | O => mret (txs, tharray)
  | S n =>
      '(txhash, _) ← Uint256_Deserialize txhash;
      read_trimmed n txhash (txs ++ [SetHash new_Transaction txhash]) (tharray ++ [txhash])
  end.

Definition FromTrimmedData (b : Block) : rd (Block * err) :=
  '(bd, _) ← Blockdata_Deserialize (blk_data b);
  let b := mkBlock bd (Transactions b) (blk_hash b) in
  '(Len, e) ← ReadUint32;
  iferr e return b ;;
  '(txs, tharray) ← read_trimmed (Z.to_nat Len) zero256 (Transactions b) [];
  finish_block b txs tharray.

Definition Block_GetSize (b : Block) : option Z := d ← Block_Serialize b; Some (Z.of_nat (length d)).

Definition Block_Hash (b : Block) : Uint256 :=
  match blk_hash b with Some h => h | None => Blockdata_Hash (blk_data b) end.

Definition RebuildMerkleRoot (b : Block) : option (Block * err) :=
  hs ← mapM hash_cached (Transactions b);
  '(hash, e) ← ComputeRoot (map snd hs);
  if is_err e
  then Some (mkBlock (blk_data b) (map fst hs) (blk_hash b),
             Some (NewError "[Block] , RebuildMerkleRoot ComputeRoot failed."))
  else Some (mkBlock (set_TransactionsRoot (blk_data b) hash) (map fst hs) (blk_hash b), None).

(** ** Genesis

    The foundation's program hash comes from its address and the nonce of the
    coinbase from [rand.Uint64]. *)

Definition systemToken : Transaction :=
  mkTx RegisterAsset 0 (Some (PRegisterAsset (mkAsset [69; 76; 65] [] 0x08 0x00 0) 0 zero160))
    [] [] [] [] 0 [] 0 0 None.

Definition GenesisBlockInit (foundationProgramHash : Uint160) (nonce : Z) : option (Block * err) :=
  '(systemToken, tokenHash) ← hash_cached systemToken;
  let trans := NewCoinBaseTransaction (PCoinBase []) 0 in
  let trans := set_Outputs trans [mkOutput tokenHash (3300 * 10000 * 100000000) foundationProgramHash] in
  let trans := set_Attributes trans [NewTxAttribute Nonce (be_bytes 8 nonce)] in
  let bd := mkBlockdata BlockVersion zero256 zero256 1506816000 0x1d03ffff 0 GenesisNonce new_AuxPow in
  RebuildMerkleRoot (mkBlock bd [trans; systemToken] None).

(** * Round trips *)

Record wf_Blockdata (bd : Blockdata) : Prop := {
  wfd_hashes : wf_u256 (PrevBlockHash bd) /\ wf_u256 (TransactionsRoot bd);
  wfd_nums : inU 32 (bd_Version bd) /\ inU 32 (bd_Timestamp bd) /\ inU 32 (bd_Bits bd) /\
             inU 32 (bd_Height bd) /\ inU 32 (bd_Nonce bd);
  wfd_auxpow : wf_AuxPow (bd_AuxPow bd) }.

Lemma Blockdata_Unsigned_reads bd ap :
  wf_Blockdata bd ->
  reads any_tail (Blockdata_DeserializeUnsigned (set_AuxPow new_Blockdata ap))
    (Blockdata_SerializeUnsigned bd) (set_AuxPow bd ap).
Proof.
  intros [[Hp Hr] (Hv & Ht & Hb & Hh & Hn) _] k rest _.
  unfold Blockdata_DeserializeUnsigned, Blockdata_SerializeUnsigned. rewrite <- !app_assoc.
  do 2 (field; cbn [is_err]). do 5 field. reflexivity.
Qed.

Lemma Blockdata_reads bd :
  wf_Blockdata bd ->
  exists enc, Blockdata_Serialize bd = Some enc /\ reads any_tail (Blockdata_Deserialize new_Blockdata) enc bd.
Proof.
  intros W. destruct (AuxPow_reads _ (wfd_auxpow _ W)) as (ap & Ea & Ra).
  unfold Blockdata_Serialize. rewrite Ea. cbn [mbind option_bind]. eexists. split; [reflexivity|].
  intros k rest _. unfold Blockdata_Deserialize. rewrite <- !app_assoc.
  erewrite (rd_field any_tail); [|exact (Blockdata_Unsigned_reads bd new_AuxPow W)|exact I]. cbn beta iota.
  erewrite (rd_field any_tail); [|exact Ra|exact I]. cbn beta iota.
  byte_field. cbn. destruct bd; reflexivity.
Qed.

Lemma wf_Tx_Hash t : wf_Tx t -> exists h, Tx_Hash t = Some h /\ wf_u256 h.
Proof.
  intros W. destruct (DeserializeUnsigned_reads t W) as (u & Eu & _).
  destruct W as [_ _ _ _ _ _ _ _ (_ & _ & Hh)]. unfold Tx_Hash, Tx_GetHashData. rewrite Hh, Eu. cbn.
  eexists. split; [reflexivity|]. apply wf_dsha256.
Qed.

Definition tx_hash_of (t : Transaction) : Uint256 := default zero256 (Tx_Hash t).
(** The transaction after its hash was asked for. *)
Definition hashed (t : Transaction) : Transaction := SetHash t (tx_hash_of t).
Definition tx_enc (t : Transaction) : bytes := match Tx_Serialize t with Some (b, _) => b | None => [] end.

Lemma wf_tx_hash_of t : wf_Tx t -> wf_u256 (tx_hash_of t).
Proof. intros W. destruct (wf_Tx_Hash t W) as (h & E & Wh). unfold tx_hash_of. by rewrite E. Qed.

Lemma hash_cached_wf t : wf_Tx t -> hash_cached t = Some (hashed t, tx_hash_of t).
Proof.
  intros W. destruct (wf_Tx_Hash t W) as (h & E & _). unfold hash_cached, hashed, tx_hash_of.
  rewrite E. done.
Qed.

Lemma Txs_serialize l :
  Forall wf_Tx l ->
  exists txs, mapM Tx_Serialize l = Some txs /\ map fst txs = map tx_enc l.
Proof.
  induction 1 as [|t l W _ (txs & IH & IH')]; [by exists []|].
  destruct (Tx_Deserialize_reads t W) as (enc & E & _). cbn [mapM].
  rewrite E. cbn [mbind option_bind]. rewrite IH. cbn. eexists. split; [reflexivity|].
  cbn. rewrite IH'. unfold tx_enc. by rewrite E.
Qed.

Lemma read_txs_reads l txs hs k rest :
  Forall wf_Tx l ->
  read_txs (length l) txs hs (mkReader k (concat (map tx_enc l) ++ rest)) =
    Some ((txs ++ map hashed l, hs ++ map tx_hash_of l), mkReader k rest).
Proof.
  intros W. revert txs hs. induction W as [|t l Wt Wl IH]; intros txs hs.
  - cbn. by rewrite !app_nil_r.
  - cbn [length read_txs map concat]. rewrite <- app_assoc.
    destruct (Tx_Deserialize_reads t Wt) as (enc & E & R).
    unfold tx_enc at 1. rewrite E. erewrite (rd_field any_tail); [|exact R|exact I]. cbn beta iota.
    rewrite hash_cached_wf by done. rewrite IH. by rewrite <- !app_assoc.
Qed.

Lemma read_trimmed_reads l h txs hs k rest :
  Forall wf_u256 l ->
  read_trimmed (length l) h txs hs (mkReader k (concat (map Uint_Serialize l) ++ rest)) =
    Some ((txs ++ map (SetHash new_Transaction) l, hs ++ l), mkReader k rest).
Proof.
  intros W. revert h txs hs. induction W as [|u l Wu Wl IH]; intros h txs hs.
  - cbn. by rewrite !app_nil_r.
  - cbn [length read_trimmed map concat]. rewrite <- app_assoc. field.
    rewrite IH. by rewrite <- !app_assoc.
Qed.

Lemma mapM_Tx_Hash l : Forall wf_Tx l -> mapM Tx_Hash l = Some (map tx_hash_of l).
Proof.
  intros W. apply mapM_total. eapply list.Forall_impl; [exact W|].
  intros t Wt. destruct (wf_Tx_Hash t Wt) as (h & E & _). eauto.
Qed.

Lemma finish_block_ok b txs hs :
  hs <> [] ->
  exists root, ComputeRoot hs = Some (root, None) /\
    forall r, finish_block b txs hs r = Some ((mkBlock (set_TransactionsRoot (blk_data b) root) txs (blk_hash b), None), r).
Proof.
  intros H. destruct (ComputeRoot_root hs H) as (root & _ & E). exists root. split; [done|].
  intros r. unfold finish_block. by rewrite E.
Qed.

Record wf_Block (b : Block) : Prop := {
  wfk_data : wf_Blockdata (blk_data b);
  wfk_txs : Forall wf_Tx (Transactions b);
  wfk_some : Transactions b <> [];
  wfk_len : Z.of_nat (length (Transactions b)) < 2 ^ 32 }.

Lemma FromTrimmedData_reads (b : Block) (k : reader_kind) (rest : bytes) :
  wf_Block b ->
  exists enc root, Trim b = Some enc /\
    ComputeRoot (map tx_hash_of (Transactions b)) = Some (root, None) /\
    FromTrimmedData new_Block (mkReader k (enc ++ rest)) =
      Some ((mkBlock (set_TransactionsRoot (blk_data b) root)
               (map (SetHash new_Transaction) (map tx_hash_of (Transactions b))) None, None), mkReader k rest) /\
    mapM Tx_Hash (map (SetHash new_Transaction) (map tx_hash_of (Transactions b))) = mapM Tx_Hash (Transactions b).
Proof.
  intros [Wd Wt Hne Hlen]. destruct (Blockdata_reads _ Wd) as (d & Ed & Rd).
  unfold Trim. rewrite Ed. cbn [mbind option_bind]. rewrite mapM_Tx_Hash by done. cbn [mbind option_bind].
  destruct (finish_block_ok (mkBlock (blk_data b) [] None)
              (map (SetHash new_Transaction) (map tx_hash_of (Transactions b)))
              (map tx_hash_of (Transactions b))) as (root & Er & Fr).
  { intros E. apply map_eq_nil in E. done. }
  do 2 eexists. split; [reflexivity|]. split; [exact Er|]. split.
  - unfold FromTrimmedData. rewrite <- !app_assoc.
    erewrite (rd_field any_tail); [|exact Rd|exact I]. cbn beta iota.
    rewrite wrapU_id by lia. erewrite (rd_field any_tail); [|apply ReadUint32_reads; lia|exact I].
    cbn beta iota. rewrite Nat2Z.id, <- (length_map tx_hash_of (Transactions b)).
    erewrite rd_bind_Some.
    2:{ apply read_trimmed_reads. apply list.Forall_forall. intros h Hh.
        apply list_elem_of_fmap in Hh as (t & -> & Ht). apply wf_tx_hash_of.
        rewrite list.Forall_forall in Wt. by apply Wt. }
    cbn beta iota. rewrite !app_nil_l. apply Fr.
  - rewrite (mapM_total _ zero256), !map_map; [done|].
    apply list.Forall_forall. intros t Ht. apply list_elem_of_fmap in Ht as (h & -> & _). eauto.
Qed.

Lemma Block_Deserialize_reads (b : Block) (k : reader_kind) (rest : bytes) :
  wf_Block b ->
  exists enc root, Block_Serialize b = Some enc /\
    ComputeRoot (map tx_hash_of (Transactions b)) = Some (root, None) /\
    let b' := mkBlock (set_TransactionsRoot (blk_data b) root) (map hashed (Transactions b)) None in
    Block_Deserialize new_Block (mkReader k (enc ++ rest)) = Some ((b', None), mkReader k rest) /\
    (TransactionsRoot (blk_data b) = root -> blk_data b' = blk_data b /\ Block_Hash b' = Blockdata_Hash (blk_data b)).
Proof.
  intros [Wd Wt Hne Hlen]. destruct (Blockdata_reads _ Wd) as (d & Ed & Rd).
  destruct (Txs_serialize _ Wt) as (txs & Et & Ef).
  unfold Block_Serialize. rewrite Ed. cbn [mbind option_bind]. rewrite Et. cbn [mbind option_bind].
  destruct (finish_block_ok (mkBlock (blk_data b) [] None) (map hashed (Transactions b))
              (map tx_hash_of (Transactions b))) as (root & Er & Fr).
  { intros E. apply map_eq_nil in E. done. }
  do 2 eexists. split; [reflexivity|]. split; [exact Er|]. split.
  - unfold Block_Deserialize. rewrite <- !app_assoc.
    erewrite (rd_field any_tail); [|exact Rd|exact I]. cbn beta iota.
    rewrite wrapU_id by lia. erewrite (rd_field any_tail); [|apply ReadUint32_reads; lia|exact I].
    cbn beta iota. rewrite Nat2Z.id, Ef.
    erewrite rd_bind_Some by (by apply read_txs_reads). cbn beta iota. rewrite !app_nil_l. apply Fr.
  - intros <-. cbn. split; [destruct (blk_data b); reflexivity|].
    unfold Block_Hash. cbn. by destruct (blk_data b).
Qed.

(** * Properties *)

(** C28: Reading the bytes of a block gives its header, its transactions with
    their hashes computed, and the Merkle root of those hashes: the root in the
    header is replaced, whatever it was.  Hence a block whose root is right is
    read back exactly and keeps its hash, and one whose root is wrong is
    silently given the right one. *)
Theorem block_roundtrip (b : Block) (k : reader_kind) (rest : bytes) :
  wf_Block b ->
  exists enc root, Block_Serialize b = Some enc /\
    ComputeRoot (map tx_hash_of (Transactions b)) = Some (root, None) /\
    let b' := mkBlock (set_TransactionsRoot (blk_data b) root) (map hashed (Transactions b)) None in
    Block_Deserialize new_Block (mkReader k (enc ++ rest)) = Some ((b', None), mkReader k rest) /\
    (TransactionsRoot (blk_data b) = root -> blk_data b' = blk_data b /\ Block_Hash b' = Blockdata_Hash (blk_data b)).
Proof. intros W. exact (Block_Deserialize_reads b k rest W). Qed.

Definition sample_bd : Blockdata :=
  mkBlockdata 0 (repeat 3 32) zero256 1506816000 0x1d03ffff 1 5 (sample_AuxPow (repeat 5 32)).

Lemma wf_sample_bd : wf_Blockdata sample_bd.
Proof. constructor; [by_decision|by_decision|exact wf_sample_AuxPow]. Qed.

Definition sample_Coinbase : Transaction := NewCoinBaseTransaction (PCoinBase [1]) 1.
Lemma wf_sample_Coinbase : wf_Tx sample_Coinbase.
Proof.
  constructor; [eexists; split; [reflexivity|]; by vm_compute|constructor| |constructor|constructor|done|..].
  - constructor; [|constructor]. unfold wf_Input. by_decision.
  - by_decision.
  - by_decision.
  - done.
Qed.

Definition sample_block : Block := mkBlock sample_bd [sample_Coinbase] None.

Lemma wf_sample_block : wf_Block sample_block.
Proof. constructor; [exact wf_sample_bd|constructor; [exact wf_sample_Coinbase|constructor]|discriminate|reflexivity]. Qed.

Lemma block_roundtrip_witness :
  exists enc root, Block_Serialize sample_block = Some enc /\
    ComputeRoot (map tx_hash_of (Transactions sample_block)) = Some (root, None) /\
    Block_Deserialize new_Block (mkReader BytesReader (enc ++ [])) =
      Some ((mkBlock (set_TransactionsRoot sample_bd root) (map hashed [sample_Coinbase]) None, None), mkReader BytesReader []).
Proof.
  destruct (block_roundtrip sample_block BytesReader [] wf_sample_block) as (enc & root & E & R & D & _).
  exists enc, root. repeat split; assumption.
Defined.

(** The trimmed form the store keeps (header and transaction hashes) gives
    back the header, with the Merkle root of the hashes, and one transaction
    stub per hash that answers [Hash] with it. *)
Theorem trim_roundtrip (b : Block) (k : reader_kind) (rest : bytes) :
  wf_Block b ->
  exists enc root, Trim b = Some enc /\
    ComputeRoot (map tx_hash_of (Transactions b)) = Some (root, None) /\
    FromTrimmedData new_Block (mkReader k (enc ++ rest)) =
      Some ((mkBlock (set_TransactionsRoot (blk_data b) root)
               (map (SetHash new_Transaction) (map tx_hash_of (Transactions b))) None, None), mkReader k rest) /\
    mapM Tx_Hash (map (SetHash new_Transaction) (map tx_hash_of (Transactions b))) = mapM Tx_Hash (Transactions b).
Proof. apply FromTrimmedData_reads. Qed.

Lemma trim_roundtrip_witness :
  exists enc root, Trim sample_block = Some enc /\
    FromTrimmedData new_Block (mkReader BytesReader (enc ++ [])) =
      Some ((mkBlock (set_TransactionsRoot sample_bd root)
               (map (SetHash new_Transaction) [tx_hash_of sample_Coinbase]) None, None), mkReader BytesReader []).
Proof.
  destruct (trim_roundtrip sample_block BytesReader [] wf_sample_block) as (enc & root & E & _ & D & _).
  exists enc, root. split; assumption.
Defined.
