(* ===== verification/Typed.v ===== *)
(** The types of what is read.  Go's types bound every field of a structure;
    here the fields are integers and byte strings, and the bounds are theorems
    about the readers of [common/serialization], [core/transaction] and
    [core/ledger]: whatever bytes arrive, what a reader leaves in its receiver
    is in the range of its Go type, also when it reports an error. *)

From S2P Require Import Prelude Sha256 Serialization Common Fixed64 Transaction Merkle AuxPow Block.

(** * Readers *)

(** On bytes, [m] leaves bytes and its result satisfies [P]. *)
Definition yields {A} (m : rd A) (P : A -> Prop) : Prop :=
  forall r a r', wf_bytes (rdata r) -> m r = Some (a, r') -> wf_bytes (rdata r') /\ P a.

Create HintDb typed.

Lemma yields_ret {A} (a : A) (P : A -> Prop) : P a -> yields (mret a) P.
Proof. by intros Ha r b r' Hr [= <- <-]. Qed.
Lemma yields_bind {A B} (m : rd A) (f : A -> rd B) (P : A -> Prop) (Q : B -> Prop) :
  yields m P -> (forall a, P a -> yields (f a) Q) -> yields (m ≫= f) Q.
Proof.
  intros Hm Hf r b r' Hr. unfold mbind, rd_bind. destruct (m r) as [[a r1]|] eqn:E; [|done].
  destruct (Hm r a r1 Hr E) as [H1 Ha]. by apply Hf.
Qed.
Lemma yields_weaken {A} (m : rd A) (P Q : A -> Prop) : yields m P -> (forall a, P a -> Q a) -> yields m Q.
Proof. intros Hm Hi r a r' Hr E. destruct (Hm r a r' Hr E). auto. Qed.
Lemma yields_panic {A} (P : A -> Prop) : yields rd_panic P.
Proof. done. Qed.

Lemma wf_bytes_take n l : wf_bytes l -> wf_bytes (take n l).
Proof. apply Forall_take. Qed.
Lemma wf_bytes_drop n l : wf_bytes l -> wf_bytes (drop n l).
Proof. apply Forall_drop. Qed.
Lemma wf_bytes_nil : wf_bytes [].
Proof. constructor. Qed.
Lemma wf_bytes_zeros n : wf_bytes (replicate n 0).
Proof. apply Forall_replicate. unfold wf_byte. lia. Qed.
Lemma wf_fill n g : wf_bytes g -> wf_bytes (fill n g).
Proof. intros Hg. unfold fill. apply Forall_app. split; [done|apply wf_bytes_zeros]. Qed.
Lemma length_fill n g : Z.of_nat (length g) <= n -> Z.of_nat (length (fill n g)) = n.
Proof. intros Hg. unfold fill. rewrite length_app, length_replicate. lia. Qed.
Lemma wf_nth i l : wf_bytes l -> wf_byte (nth i l 0).
Proof.
  intros Hl. revert i. induction Hl as [|b l Hb _ IH]; intros [|i]; cbn; unfold wf_byte in *; try lia. apply IH.
Qed.
#[export] Hint Resolve wf_bytes_nil wf_bytes_take wf_bytes_drop wf_bytes_zeros wf_fill wf_nth : typed.

(** At most [n] bytes. *)
Definition got (n : Z) (x : bytes * err) : Prop := wf_bytes x.1 /\ Z.of_nat (length x.1) <= n.
Lemma Read_got n : 0 <= n -> yields (Read n) (got n).
Proof.
  intros Hn [k d] [g e] r' Hd. unfold Read. cbn [rdata rkind] in *. destruct d as [|b d].
  - intros [= <- <- <-]. split; [done|]. split; [constructor|cbn; lia].
  - intros [= <- <- <-]. split; [cbn; auto with typed|]. split; cbn [fst]; [auto with typed|]. rewrite length_take. lia.
Qed.
Lemma ReadFull_got n : 0 <= n -> yields (ReadFull n) (got n).
Proof.
  intros Hn [k d] [g e] r' Hd [= <- <- <-]. cbn [rdata rkind] in *.
  split; [auto with typed|]. split; cbn [fst]; [auto with typed|]. rewrite length_take. lia.
Qed.
#[export] Hint Resolve yields_ret yields_panic Read_got ReadFull_got : typed.

(** Step over the reads of a definition. *)
Ltac typed :=
  repeat first
    [ progress intros
    | apply yields_panic
    | match goal with |- yields (mret _) _ => apply yields_ret end
    | match goal with |- yields (_ ≫= _) _ => eapply yields_bind; [solve [eauto with typed lia]|] end
    | match goal with
      | H : got _ (_, _) |- _ => destruct H as [? ?]; cbn [fst snd] in *
      | |- context [let '(_, _) := ?p in _] => is_var p; destruct p; cbn [fst snd] in *
      | |- yields (match ?e with Some _ => _ | None => _ end) _ => destruct e
      | |- yields (if ?b then _ else _) _ => destruct b eqn:?
      end ].

(** ** serialize.go *)

Lemma le_val_fill n g : wf_bytes g -> Z.of_nat (length g) <= n -> 0 <= le_val (fill n g) < 256 ^ n.
Proof.
  intros Hg Hl. pose proof (le_val_bound (fill n g) (wf_fill n g Hg)) as B. by rewrite length_fill in B.
Qed.
Definition in_unsigned (w : Z) (x : Z * err) : Prop := inU w x.1.
Lemma ReadUint_typed n : 0 <= n -> yields (ReadUint n) (in_unsigned (8 * n)).
Proof.
  intros Hn. unfold ReadUint. typed; unfold in_unsigned; cbn [fst].
  - split; [done|]. apply Z.pow_pos_nonneg; lia.
  - match goal with Hw : wf_bytes ?g |- _ => pose proof (le_val_fill n g Hw ltac:(done)) as B end.
    change 256 with (2 ^ 8) in B. by rewrite <- Z.pow_mul_r in B by lia.
Qed.
Lemma ReadUint8_typed : yields ReadUint8 (in_unsigned 8).
Proof. by apply (ReadUint_typed 1). Qed.
Lemma ReadUint16_typed : yields ReadUint16 (in_unsigned 16).
Proof. by apply (ReadUint_typed 2). Qed.
Lemma ReadUint32_typed : yields ReadUint32 (in_unsigned 32).
Proof. by apply (ReadUint_typed 4). Qed.
Lemma ReadUint64_typed : yields ReadUint64 (in_unsigned 64).
Proof. by apply (ReadUint_typed 8). Qed.
Lemma ReadVarUint_typed max0 : yields (ReadVarUint max0) (in_unsigned 64).
Proof.
  unfold ReadVarUint. typed; unfold in_unsigned; cbn [fst]; try lia.
  all: try match goal with Hw : wf_bytes ?g, Hl : Z.of_nat (length ?g) <= ?n |- inU 64 (le_val (fill ?n ?g)) => pose proof (le_val_fill n g Hw Hl); lia end.
  match goal with Hw : wf_bytes ?g |- _ => pose proof (wf_nth 0 (fill 1 g) (wf_fill 1 g Hw)) as B end. unfold wf_byte in B. lia.
Qed.
#[export] Hint Resolve ReadUint8_typed ReadUint16_typed ReadUint32_typed ReadUint64_typed ReadVarUint_typed : typed.

(** Bytes that fit in memory. *)
Definition in_memory (l : bytes) : Prop := wf_bytes l /\ Z.of_nat (length l) <= maxAlloc.
Definition small_bytes (x : bytes * err) : Prop := in_memory x.1.
Lemma in_memory_nil : in_memory [].
Proof. split; [constructor|done]. Qed.
#[export] Hint Resolve in_memory_nil : typed.

Lemma byteXReader_typed n : 0 <= n -> yields (byteXReader n) (fun x => small_bytes x /\ Z.of_nat (length x.1) = n).
Proof.
  intros Hn. unfold byteXReader, make_ok. typed; unfold small_bytes, in_memory; cbn [fst]; rewrite length_fill by (cbn; lia);
    (split; [split; [auto with typed|lia]|done]).
Qed.
Lemma ReadBytes_typed n : 0 <= n -> yields (ReadBytes n) (fun x => small_bytes x /\ (x.2 = None -> Z.of_nat (length x.1) = n)).
Proof.
  intros Hn. unfold ReadBytes. eapply yields_bind; [by apply byteXReader_typed|]. intros [l e] [Hs Hl]. cbn [fst] in *. destruct e; apply yields_ret; cbn.
  - split; [apply in_memory_nil|done].
  - done.
Qed.
Lemma ReadVarBytes_typed : yields ReadVarBytes small_bytes.
Proof.
  unfold ReadVarBytes. eapply yields_bind; [apply ReadVarUint_typed|]. intros [v e] Hv. unfold in_unsigned in Hv. cbn in Hv.
  destruct e; [apply yields_ret, in_memory_nil|]. eapply yields_bind; [apply byteXReader_typed; lia|]. intros [l e] [Hs _].
  destruct e; apply yields_ret; [apply in_memory_nil|done].
Qed.
Lemma ReadVarString_typed : yields ReadVarString small_bytes.
Proof.
  unfold ReadVarString. eapply yields_bind; [apply ReadVarBytes_typed|]. intros [l e] Hl. destruct e; apply yields_ret; [apply in_memory_nil|done].
Qed.
#[export] Hint Resolve ReadVarBytes_typed ReadVarString_typed : typed.

(** Every element a loop appends satisfies what the item promises without an
    error. *)
Lemma read_loop_typed {A} (P : A -> Prop) (item : rd (A * err)) n : yields item (fun x => x.2 = None -> P x.1) ->
  forall acc, Forall P acc -> yields (read_loop n item acc) (fun x => Forall P x.1 /\ (x.2 = None -> length x.1 = (length acc + n)%nat)).
Proof.
  intros Hi. induction n as [|n IH]; intros acc Ha; cbn [read_loop].
  - apply yields_ret. cbn. split; [done|lia].
  - eapply yields_bind; [exact Hi|]. intros [a e] Hx. cbn in Hx. destruct e; [apply yields_ret; split; [done|discriminate]|].
    eapply yields_weaken; [apply IH; apply Forall_app; split; [done|by constructor; [apply Hx|]]|].
    intros x [Hf Hl]. split; [done|]. intros E. rewrite (Hl E), length_app. cbn. lia.
Qed.
Lemma read_loop_unchecked_typed {A} (P : A -> Prop) (item : rd (A * err)) n : yields item (fun x => P x.1) ->
  forall acc, Forall P acc -> yields (read_loop_unchecked n item acc) (fun l => Forall P l /\ length l = (length acc + n)%nat).
Proof.
  intros Hi. induction n as [|n IH]; intros acc Ha; cbn [read_loop_unchecked].
  - apply yields_ret. split; [done|lia].
  - eapply yields_bind; [exact Hi|]. intros [a e] Hx. eapply yields_weaken; [apply IH; apply Forall_app; split; [done|by constructor]|].
    intros l [Hf Hl]. split; [done|]. rewrite Hl, length_app. cbn. lia.
Qed.

(** ** Hashes and amounts *)

Lemma Uint_Deserialize_typed size u : 0 <= size -> wf_bytes u -> Z.of_nat (length u) = size ->
  yields (Uint_Deserialize size u) (fun x => wf_bytes x.1 /\ Z.of_nat (length x.1) = size).
Proof.
  intros Hs Hu Hl. unfold Uint_Deserialize. typed; cbn [fst]; [done|]. split; [auto with typed|by apply length_fill].
Qed.
Lemma Uint256_Deserialize_typed u : wf_u256 u -> yields (Uint256_Deserialize u) (fun x => wf_u256 x.1).
Proof.
  intros [Hl Hu]. eapply yields_weaken; [apply Uint_Deserialize_typed; [done|done|by rewrite Hl]|]. intros x [Hx Hn]. split; [|done].
  unfold UINT256SIZE in Hn. lia.
Qed.
Lemma Uint160_Deserialize_typed u : wf_u160 u -> yields (Uint160_Deserialize u) (fun x => wf_u160 x.1).
Proof.
  intros [Hl Hu]. eapply yields_weaken; [apply Uint_Deserialize_typed; [done|done|by rewrite Hl]|]. intros x [Hx Hn]. split; [|done].
  unfold UINT160SIZE in Hn. lia.
Qed.
Lemma Fixed64_Deserialize_typed f : inS 64 f -> yields (Fixed64_Deserialize f) (fun x => inS 64 x.1).
Proof. intros Hf. unfold Fixed64_Deserialize. typed; cbn [fst]; [done|]. apply wrapS_range. lia. Qed.
Lemma wf_zero256 : wf_u256 zero256.
Proof. split; [done|]. apply wf_bytes_zeros. Qed.
Lemma wf_zero160 : wf_u160 zero160.
Proof. split; [done|]. apply wf_bytes_zeros. Qed.
#[export] Hint Resolve Uint256_Deserialize_typed Uint160_Deserialize_typed Fixed64_Deserialize_typed wf_zero256 wf_zero160 : typed.

(** * Transactions *)

Definition typed_Asset (a : Asset) : Prop :=
  in_memory (a_Name a) /\ in_memory (a_Description a) /\ inU 8 (a_Precision a) /\ inU 8 (a_AssetType a) /\ inU 8 (a_RecordType a).
Definition typed_Payload (p : Payload) : Prop :=
  match p with
  | PCoinBase d => in_memory d
  | PRegisterAsset a amount ctl => typed_Asset a /\ inS 64 amount /\ wf_u160 ctl
  | PTransferAsset => True
  | PRecord ty d => in_memory ty /\ in_memory d
  | PDeployCode c n v a m d =>
      match c with Some f => in_memory (fc_Code f) /\ in_memory (fc_ParameterTypes f) /\ in_memory (fc_ReturnTypes f) | None => True end /\
      in_memory n /\ in_memory v /\ in_memory a /\ in_memory m /\ in_memory d
  end.
Definition typed_Attribute (a : TxAttribute) : Prop := inU 8 (at_Usage a) /\ in_memory (at_Data a) /\ inU 32 (at_Size a).
Definition typed_Program (p : Program) : Prop := in_memory (pg_Code p) /\ in_memory (pg_Parameter p).
(** Every field of a transaction in the range of its type. *)
Record typed_Tx (t : Transaction) : Prop := {
  ty_type : inU 8 (TxType t);
  ty_version : inU 8 (PayloadVersion t);
  ty_payload : forall p, payload t = Some p -> typed_Payload p /\ payload_type p = TxType t;
  ty_attrs : Forall typed_Attribute (Attributes t);
  ty_ins : Forall wf_Input (UTXOInputs t);
  ty_balance : BalanceInputs t = [];
  ty_outs : Forall wf_Output (Outputs t);
  ty_lock : inU 32 (LockTime t);
  ty_progs : Forall typed_Program (Programs t);
  ty_fees : inS 64 (Fee t) /\ inS 64 (FeePerKB t);
  ty_hash : forall h, tx_hash t = Some h -> wf_u256 h }.

Lemma wf_first g : wf_bytes g -> inU 8 (nth 0 g 0).
Proof. intros Hg. pose proof (wf_nth 0 g Hg) as B. unfold wf_byte in B. lia. Qed.
#[export] Hint Resolve wf_first : typed.

Lemma Asset_Deserialize_typed a : typed_Asset a -> yields (Asset_Deserialize a) (fun x => typed_Asset x.1).
Proof.
  intros (H1 & H2 & H3 & H4 & H5). unfold Asset_Deserialize. typed; unfold small_bytes in *; cbn in *; unfold typed_Asset; cbn; auto 10 with typed.
Qed.
Lemma typed_new_Asset : typed_Asset new_Asset.
Proof. unfold typed_Asset. cbn. split_and!; auto with typed; lia. Qed.
#[export] Hint Resolve Asset_Deserialize_typed typed_new_Asset : typed.

(** The payload of a deployment is never read: its code is a nil pointer. *)
Lemma Payload_Deserialize_typed ty p : new_Payload ty = Some p ->
  yields (Payload_Deserialize p) (fun x => typed_Payload x.1 /\ payload_type x.1 = ty /\ (x.2 = None -> payload_type x.1 <> Deploy)).
Proof.
  unfold new_Payload. intros E.
  destruct (Z.eqb_spec ty 0) as [->|]; [|destruct (Z.eqb_spec ty 1) as [->|]; [|destruct (Z.eqb_spec ty 2) as [->|]; [|destruct (Z.eqb_spec ty 3) as [->|]; [|destruct (Z.eqb_spec ty 4) as [->|]; [|done]]]]];
    injection E as <-; cbn [Payload_Deserialize].
  - unfold CoinBase_Deserialize. typed; cbn in *; split_and!; done.
  - unfold RegisterAsset_Deserialize. eapply yields_bind; [apply Asset_Deserialize_typed, typed_new_Asset|]. intros [a e] Ha. cbn in Ha.
    typed; cbn in *; split_and!; auto with typed; try done; lia.
  - apply yields_ret. by cbn.
  - unfold Record_Deserialize. typed; unfold small_bytes in *; cbn in *; split_and!; auto with typed; done.
  - unfold DeployCode_Deserialize, FunctionCode_Deserialize. eapply (yields_bind _ _ (fun x => x.1 = None /\ x.2 <> None)).
    + typed; cbn. split; [done|discriminate].
    + intros [c e] [Hc He]. cbn in *. subst c. destruct e; [|done]. apply yields_ret. cbn. split_and!; auto with typed; done.
Qed.

Lemma TxAttribute_Deserialize_typed : yields (TxAttribute_Deserialize new_TxAttribute) (fun x => x.2 = None -> typed_Attribute x.1 /\ wf_TxAttribute x.1).
Proof.
  unfold TxAttribute_Deserialize. eapply yields_bind; [by apply ReadBytes_typed|]. intros [l e] [[Hl _] _]. cbn in *. destruct e; [by apply yields_ret|]. cbn [is_err].
  destruct (IsValidAttributeType (nth 0 l 0)) eqn:Ev; cbn [negb at_Usage]; [|by apply yields_ret].
  typed; cbn in *; [done|]. unfold small_bytes in *. cbn in *. split; [split; cbn; [auto with typed|split; [done|lia]]|]. split; [done|]. split; [by apply H|done].
Qed.
Lemma Input_Deserialize_typed : yields (UTXOTxInput_Deserialize new_Input) (fun x => x.2 = None -> wf_Input x.1).
Proof. unfold UTXOTxInput_Deserialize. typed; cbn in *; done. Qed.
Lemma Output_Deserialize_typed : yields (TxOutput_Deserialize new_Output) (fun x => wf_Output x.1).
Proof.
  unfold TxOutput_Deserialize. eapply yields_bind; [apply Uint256_Deserialize_typed, wf_zero256|]. intros [id e1] H1.
  eapply yields_bind; [apply Fixed64_Deserialize_typed; cbn; lia|]. intros [v e2] H2.
  eapply yields_bind; [apply Uint160_Deserialize_typed, wf_zero160|]. intros [ph e3] H3. apply yields_ret. by split.
Qed.
Lemma Program_Deserialize_typed : yields (Program_Deserialize new_Program) (fun x => typed_Program x.1).
Proof. unfold Program_Deserialize. typed; unfold small_bytes, typed_Program in *; cbn in *; auto with typed. Qed.

(** Writing a typed field keeps a transaction typed. *)
Lemma typed_set_PayloadVersion t v : typed_Tx t -> inU 8 v -> typed_Tx (set_PayloadVersion t v).
Proof. by intros [] ?; constructor. Qed.
Lemma typed_set_Payload t p : typed_Tx t -> typed_Payload p -> payload_type p = TxType t -> typed_Tx (set_Payload t (Some p)).
Proof. intros [] ? ?; constructor; cbn; try done. by intros p' [= <-]. Qed.
Lemma typed_set_Attributes t l : typed_Tx t -> Forall typed_Attribute l -> typed_Tx (set_Attributes t l).
Proof. by intros [] ?; constructor. Qed.
Lemma typed_set_UTXOInputs t l : typed_Tx t -> Forall wf_Input l -> typed_Tx (set_UTXOInputs t l).
Proof. by intros [] ?; constructor. Qed.
Lemma typed_set_Outputs t l : typed_Tx t -> Forall wf_Output l -> typed_Tx (set_Outputs t l).
Proof. by intros [] ?; constructor. Qed.
Lemma typed_set_LockTime t v : typed_Tx t -> inU 32 v -> typed_Tx (set_LockTime t v).
Proof. by intros [] ?; constructor. Qed.
Lemma typed_SetPrograms t l : typed_Tx t -> Forall typed_Program l -> typed_Tx (SetPrograms t l).
Proof. by intros [] ?; constructor. Qed.
Lemma typed_SetHash t h : typed_Tx t -> wf_u256 h -> typed_Tx (SetHash t h).
Proof. intros [] ?; constructor; cbn; try done. by intros h' [= <-]. Qed.
Lemma typed_set_TxType t ty : typed_Tx t -> payload t = None -> inU 8 ty -> typed_Tx (set_TxType t ty).
Proof. intros [] E ?; constructor; cbn; try done. by rewrite E. Qed.
Lemma typed_new_Transaction : typed_Tx new_Transaction.
Proof. constructor; cbn; try done; lia. Qed.
#[export] Hint Resolve typed_set_PayloadVersion typed_set_Payload typed_set_Attributes typed_set_UTXOInputs typed_set_Outputs typed_set_LockTime
  typed_SetPrograms typed_SetHash typed_set_TxType typed_new_Transaction : typed.

(** What a transaction read without an error is besides: its payload is there
    and is not a deployment, its attributes are of known kinds. *)
Definition complete (t : Transaction) : Prop :=
  (exists p, payload t = Some p /\ payload_type p <> Deploy) /\ Forall wf_TxAttribute (Attributes t) /\ Fee t = 0 /\ FeePerKB t = 0 /\ tx_hash t = None.
Definition read_Tx (x : Transaction * err) : Prop := typed_Tx x.1 /\ (x.2 = None -> complete x.1).

Lemma DeserializeUnsigned_typed : yields (DeserializeUnsigned new_Transaction) read_Tx.
Proof.
  unfold DeserializeUnsigned, DeserializeUnsignedWithoutType. pose proof typed_new_Transaction as T0.
  assert (Stop : forall t e, typed_Tx t -> yields (mret (t, Some e)) read_Tx) by (intros t e T; apply yields_ret; split; [done|discriminate]).
  eapply yields_bind; [by apply ReadFull_got|]. intros [ty e] [Hty _]. cbn in Hty. destruct e; [by apply Stop|].
  assert (T1 := typed_set_TxType _ (nth 0 ty 0) T0 eq_refl (wf_first _ Hty)). clear T0.
  eapply yields_bind; [by apply ReadFull_got|]. intros [pv e] [Hpv _]. cbn in Hpv.
  assert (T2 := typed_set_PayloadVersion _ (nth 0 (fill 1 pv) 0) T1 (wf_first _ (wf_fill 1 _ Hpv))). clear T1. cbn zeta. destruct e; [by apply Stop|].
  cbn [TxType set_TxType set_PayloadVersion]. destruct (new_Payload (nth 0 ty 0)) as [p0|] eqn:Ep; [|by apply Stop].
  eapply yields_bind; [by eapply Payload_Deserialize_typed|]. intros [p e] (Hp & Hpt & Hd). cbn [fst snd] in *.
  assert (T3 := typed_set_Payload _ p T2 Hp Hpt). clear T2. destruct e; cbn [is_err]; [by apply Stop|].
  eapply yields_bind; [apply ReadVarUint_typed|]. intros [n e] _. destruct e; [by apply Stop|].
  eapply yields_bind; [apply (read_loop_typed (fun a => typed_Attribute a /\ wf_TxAttribute a)); [apply TxAttribute_Deserialize_typed|constructor]|].
  intros [attrs e] [Ha _]. cbn [fst] in Ha. apply list.Forall_and in Ha as [Ha Hw]. assert (T4 := typed_set_Attributes _ attrs T3 Ha). clear T3. destruct e; [by apply Stop|].
  eapply yields_bind; [apply ReadVarUint_typed|]. intros [n2 e] _. destruct e; [by apply Stop|].
  eapply yields_bind; [apply (read_loop_typed wf_Input); [apply Input_Deserialize_typed|constructor]|].
  intros [ins e] [Hi _]. cbn [fst] in Hi. assert (T5 := typed_set_UTXOInputs _ ins T4 Hi). clear T4. destruct e; [by apply Stop|].
  eapply yields_bind; [apply ReadVarUint_typed|]. intros [n3 e] _. destruct e; [by apply Stop|].
  eapply yields_bind; [apply (read_loop_unchecked_typed wf_Output); [apply Output_Deserialize_typed|constructor]|].
  intros outs [Ho _]. assert (T6 := typed_set_Outputs _ outs T5 Ho). clear T5.
  eapply yields_bind; [apply ReadUint32_typed|]. intros [lock e] Hl. assert (T7 := typed_set_LockTime _ lock T6 Hl). clear T6. destruct e; [by apply Stop|].
  apply yields_ret. split; [exact T7|]. intros _. split; [exists p; split; [done|by apply Hd]|]. done.
Qed.
Lemma Tx_Deserialize_typed : yields (Tx_Deserialize new_Transaction) read_Tx.
Proof.
  unfold Tx_Deserialize. eapply yields_bind; [apply DeserializeUnsigned_typed|]. intros [t e] [T C]. cbn [fst snd] in *.
  destruct e; cbn [is_err]; [apply yields_ret; split; [done|discriminate]|]. specialize (C eq_refl).
  eapply yields_bind; [apply ReadVarUint_typed|]. intros [n e] _. destruct e; cbn [is_err]; [apply yields_ret; split; [done|discriminate]|].
  destruct (0 <? n); [|by apply yields_ret].
  eapply yields_bind; [apply (read_loop_unchecked_typed typed_Program); [apply Program_Deserialize_typed|constructor]|].
  intros ps [Hp _]. apply yields_ret. split; [by apply typed_SetPrograms|done].
Qed.

Lemma complete_wf t : typed_Tx t -> complete t ->
  Z.of_nat (length (Attributes t)) < 2 ^ 63 /\ Z.of_nat (length (UTXOInputs t)) < 2 ^ 63 /\
  Z.of_nat (length (Outputs t)) < 2 ^ 63 /\ Z.of_nat (length (Programs t)) < 2 ^ 63 -> wf_Tx t.
Proof.
  intros [T1 T2 T3 T4 T5 T6 T7 T8 T9 T10 T11] ((p & Ep & Hd) & Hw & Hf) Hl. destruct (T3 p Ep) as [Hp Ht].
  constructor; try done.
  - exists p. split; [done|]. split; [|done]. destruct p as [d|a m c| |y d|]; cbn in *; [apply Hp| |done| |done].
    + destruct Hp as ((H1 & H2 & _) & H3 & H4). split; [split; [apply H1|apply H2]|done].
    + destruct Hp as [H1 H2]. split; [apply H1|apply H2].
  - eapply list.Forall_impl; [exact T9|]. intros q [H1 H2]. split; [apply H1|apply H2].
Qed.

(** C29: Parsed transactions are well typed.  Whatever bytes arrive, every field of
    the transaction that the reader leaves - also when it reports an error - is
    in the range of its Go type, the payload is of the kind the type byte says;
    and when no error is reported and its lists are not absurdly long, the
    transaction is one of those that survive serialisation: writing it succeeds
    and reading that gives the same transaction, whatever follows. *)
Theorem parsed_transaction_typed (k : reader_kind) (data : bytes) (t : Transaction) (e : err) (r : reader) :
  wf_bytes data -> Tx_Deserialize new_Transaction (mkReader k data) = Some ((t, e), r) ->
  typed_Tx t /\
  (e = None -> Z.of_nat (length (Attributes t)) < 2 ^ 63 -> Z.of_nat (length (UTXOInputs t)) < 2 ^ 63 ->
   Z.of_nat (length (Outputs t)) < 2 ^ 63 -> Z.of_nat (length (Programs t)) < 2 ^ 63 ->
   wf_Tx t /\ exists enc, Tx_Serialize t = Some (enc, None) /\
     forall k' rest, Tx_Deserialize new_Transaction (mkReader k' (enc ++ rest)) = Some ((t, None), mkReader k' rest)).
Proof.
  intros Hd E. destruct (Tx_Deserialize_typed (mkReader k data) _ _ Hd E) as (_ & T & C). cbn in *. split; [done|]. intros -> L1 L2 L3 L4.
  assert (W : wf_Tx t) by (apply complete_wf; auto). split; [done|].
  destruct (Tx_Deserialize_reads t W) as (enc & Es & R). exists enc. split; [done|]. intros k' rest. by apply R.
Qed.

(** * Blocks *)

Lemma le_val_full n g : wf_bytes g -> Z.of_nat (length g) <= n -> 0 <= le_val g < 256 ^ n.
Proof.
  intros Hg Hl. pose proof (le_val_bound g Hg) as B. split; [lia|]. eapply Z.lt_le_trans; [apply B|]. apply Z.pow_le_mono_r; lia.
Qed.
(** An array read without an error has no zero values left. *)
Lemma read_array_typed {A} (P : A -> Prop) (d : A) (item : rd (A * err)) n : yields item (fun x => x.2 = None -> P x.1) ->
  yields (read_array n d item) (fun x => x.2 = None -> Forall P x.1 /\ length x.1 = n).
Proof.
  intros Hi. induction n as [|n IH]; cbn [read_array]; [apply yields_ret; done|].
  eapply yields_bind; [exact Hi|]. intros [a e] Ha. cbn in Ha. destruct e; [apply yields_ret; discriminate|].
  eapply yields_bind; [exact IH|]. intros [l e] Hl. apply yields_ret. cbn in *. intros ->. destruct (Hl eq_refl) as [Hf Hn].
  split; [constructor; auto|cbn; lia].
Qed.
Lemma alloc_typed {A} (P : A -> Prop) (item : rd (A * err)) : yields item (fun x => x.2 = None -> P x.1) ->
  yields (alloc item) (fun x => x.2 = None -> match x.1 with Some a => P a | None => False end).
Proof. intros Hi. unfold alloc. eapply yields_bind; [exact Hi|]. intros [a e] Ha. by apply yields_ret. Qed.

Lemma BtcReadOutPoint_typed : yields (BtcReadOutPoint new_OutPoint) (fun x => x.2 = None -> wf_OutPoint x.1).
Proof.
  unfold BtcReadOutPoint. typed; cbn in *; try done. split; cbn.
  - split; [rewrite length_app, length_drop; cbn [length]; lia|]. apply Forall_app. split; [done|]. apply wf_bytes_drop, wf_zero256.
  - by apply (le_val_full 4).
Qed.
Lemma BtcReadTxIn_typed : yields (BtcReadTxIn new_BtcTxIn) (fun x => x.2 = None -> wf_BtcTxIn (Some x.1)).
Proof.
  unfold BtcReadTxIn. eapply yields_bind; [apply BtcReadOutPoint_typed|]. intros [op e] Ho. cbn in Ho. destruct e; [by apply yields_ret|].
  typed; unfold small_bytes in *; cbn in *; try done. split; [by apply Ho|]. split; [apply H|by apply (le_val_full 4)].
Qed.
Lemma BtcReadTxOut_typed : yields (BtcReadTxOut new_BtcTxOut) (fun x => x.2 = None -> wf_BtcTxOut (Some x.1)).
Proof.
  unfold BtcReadTxOut. typed; unfold small_bytes in *; cbn in *; try done. split; [apply wrapS_range; lia|]. 
  match goal with Hm : in_memory _ |- _ => apply Hm end.
Qed.
Lemma BtcTx_Deserialize_typed : yields (BtcTx_Deserialize new_BtcTx) (fun x => x.2 = None -> wf_BtcTx x.1).
Proof.
  assert (Stop : forall (t : BtcTx) e, yields (mret (t, Some e)) (fun x : BtcTx * err => x.2 = None -> wf_BtcTx x.1)) by (intros; by apply yields_ret).
  unfold BtcTx_Deserialize. eapply yields_bind; [by apply ReadFull_got|]. intros [buf e] [Hb _]. destruct e; [apply Stop|]. cbn zeta.
  eapply yields_bind; [apply ReadVarUint_typed|]. intros [n e] Hn. unfold in_unsigned in Hn. cbn in Hn. destruct e; [apply Stop|]. unfold make_ok.
  destruct (Z.leb_spec (8 * n) maxAlloc) as [L1|]; cbn [negb]; [|apply yields_panic].
  eapply yields_bind; [apply (read_array_typed wf_BtcTxIn), (alloc_typed _ _ BtcReadTxIn_typed)|]. intros [ins e] Hi. cbn in Hi. destruct e; [apply Stop|].
  eapply yields_bind; [apply ReadVarUint_typed|]. intros [m e] Hm. unfold in_unsigned in Hm. cbn in Hm. destruct e; [apply Stop|].
  destruct (Z.leb_spec (8 * m) maxAlloc) as [L2|]; cbn [negb]; [|apply yields_panic].
  eapply yields_bind; [apply (read_array_typed wf_BtcTxOut), (alloc_typed _ _ BtcReadTxOut_typed)|]. intros [outs e] Ho. cbn in Ho. destruct e; [apply Stop|].
  eapply yields_bind; [by apply ReadFull_got|]. intros [lock e] [Hl1 Hl2]. cbn in *. destruct e; [apply Stop|]. apply yields_ret. intros _. cbn.
  destruct (Hi eq_refl) as [Fi Li], (Ho eq_refl) as [Fo Lo]. constructor; cbn; [apply wrapS_range; lia|done|done|lia|by apply (le_val_full 4)].
Qed.
Lemma BtcHeader_Deserialize_typed : yields (BtcHeader_Deserialize new_BtcHeader) (fun x => wf_BtcHeader x.1).
Proof.
  unfold BtcHeader_Deserialize. typed; unfold in_unsigned in *; cbn in *;
    (constructor; cbn; [first [lia|apply wrapS_range; lia]|auto with typed|auto with typed|split_and!; done || lia]).
Qed.
Lemma AuxPow_Deserialize_typed : yields (AuxPow_Deserialize new_AuxPow) (fun x => x.2 = None -> wf_AuxPow x.1).
Proof.
  assert (Stop : forall (t : AuxPow) e, yields (mret (t, Some e)) (fun x : AuxPow * err => x.2 = None -> wf_AuxPow x.1)) by (intros; by apply yields_ret).
  assert (Hashes : forall n, yields (read_array n zero256 (Uint256_Deserialize zero256)) (fun x => x.2 = None -> Forall wf_u256 x.1 /\ length x.1 = n)).
  { intros n. apply read_array_typed. eapply yields_weaken; [apply Uint256_Deserialize_typed, wf_zero256|]. done. }
  unfold AuxPow_Deserialize. eapply yields_bind; [apply BtcTx_Deserialize_typed|]. intros [t e] Ht. cbn in Ht. destruct e; [apply Stop|]. cbn zeta.
  eapply yields_bind; [apply Uint256_Deserialize_typed, wf_zero256|]. intros [ph e] Hp. cbn in Hp. destruct e; [apply Stop|].
  eapply yields_bind; [apply ReadUint32_typed|]. intros [ami e] Ha. destruct e; [apply Stop|].
  eapply yields_bind; [apply ReadVarUint_typed|]. intros [n e] Hn. unfold in_unsigned in Hn. cbn in Hn. destruct e; [apply Stop|]. unfold make_ok.
  destruct (Z.leb_spec (32 * n) maxAlloc) as [L1|]; cbn [negb]; [|apply yields_panic].
  eapply yields_bind; [apply Hashes|]. intros [amb e] Hamb. cbn in Hamb. destruct e; [apply Stop|].
  eapply yields_bind; [apply ReadUint32_typed|]. intros [pmi e] Hpm. destruct e; [apply Stop|].
  eapply yields_bind; [apply ReadVarUint_typed|]. intros [m e] Hm. unfold in_unsigned in Hm. cbn in Hm. destruct e; [apply Stop|].
  destruct (Z.leb_spec (32 * m) maxAlloc) as [L2|]; cbn [negb]; [|apply yields_panic].
  eapply yields_bind; [apply Hashes|]. intros [pcm e] Hpcm. cbn in Hpcm. destruct e; [apply Stop|].
  eapply yields_bind; [apply BtcHeader_Deserialize_typed|]. intros [bh e] Hb. cbn in Hb. destruct e; [apply Stop|]. apply yields_ret. intros _. cbn.
  destruct (Hamb eq_refl) as [F1 N1], (Hpcm eq_refl) as [F2 N2]. constructor; cbn; [by apply Ht|done|done|done|done|done|lia].
Qed.

Lemma root_loop_typed fuel : forall l r, Forall wf_u256 l -> root_loop fuel l = Some r -> wf_u256 r.
Proof.
  induction fuel as [|fuel IH]; intros l r Hl E; destruct l as [|h [|h2 l]]; try done; cbn [root_loop] in E.
  - injection E as <-. by inversion Hl.
  - injection E as <-. by inversion Hl.
  - eapply IH; [|exact E]. apply wf_hash_level.
Qed.
Lemma ComputeRoot_typed l root e : Forall wf_u256 l -> ComputeRoot l = Some (root, e) -> wf_u256 root.
Proof.
  intros Hl E. destruct (decide (l = [])) as [->|Hne]; [injection E as <- _; apply wf_zero256|].
  destruct (ComputeRoot_root l Hne) as (r & Er & Ec). rewrite E in Ec. injection Ec as -> _. by eapply root_loop_typed.
Qed.

Record typed_header (bd : Blockdata) : Prop := {
  ty_bd_nums : inU 32 (bd_Version bd) /\ inU 32 (bd_Timestamp bd) /\ inU 32 (bd_Bits bd) /\ inU 32 (bd_Height bd) /\ inU 32 (bd_Nonce bd);
  ty_bd_prev : wf_u256 (PrevBlockHash bd);
  ty_bd_root : wf_u256 (TransactionsRoot bd) }.
Definition typed_Block (b : Block) : Prop :=
  typed_header (blk_data b) /\ Forall (fun t => typed_Tx t /\ is_Some (tx_hash t)) (Transactions b) /\ blk_hash b = None.

Lemma typed_new_header : typed_header new_Blockdata.
Proof. constructor; cbn; [lia|apply wf_zero256|apply wf_zero256]. Qed.
(** The proof of work of a header whose read fails halfway is dropped with its
    error; only the fields of the header are typed. *)
Lemma header_fields_typed : yields (Blockdata_DeserializeUnsigned new_Blockdata) (fun x => typed_header x.1 /\ bd_AuxPow x.1 = new_AuxPow).
Proof.
  pose proof typed_new_header as T. unfold Blockdata_DeserializeUnsigned. typed; unfold in_unsigned in *; cbn in *; split; try done;
    (constructor; cbn; [split_and!; done || lia|auto with typed|auto with typed]).
Qed.
Lemma Blockdata_Deserialize_typed : yields (Blockdata_Deserialize new_Blockdata) (fun x => typed_header x.1).
Proof.
  unfold Blockdata_Deserialize. eapply yields_bind; [apply header_fields_typed|]. intros [bd e] [T Ea]. cbn in *. rewrite Ea.
  eapply yields_bind; [apply AuxPow_Deserialize_typed|]. intros [ap e2] _. eapply yields_bind; [by apply Read_got|]. intros [p e3] _.
  destruct T as [T1 T2 T3]. destruct p as [|x p]; [|destruct (negb _)]; apply yields_ret; by constructor.
Qed.
Lemma Tx_Hash_typed t h : typed_Tx t -> Tx_Hash t = Some h -> wf_u256 h.
Proof.
  intros T. unfold Tx_Hash. destruct (tx_hash t) as [h0|] eqn:E; [intros [= <-]; by apply T|].
  destruct (Tx_GetHashData t); [|done]. intros [= <-]. apply wf_dsha256.
Qed.
(** The transactions read so far, with their hashes. *)
Definition hashed_txs (x : list Transaction * list Uint256) : Prop :=
  Forall (fun t => typed_Tx t /\ is_Some (tx_hash t)) x.1 /\ Forall wf_u256 x.2 /\ mapM Tx_Hash x.1 = Some x.2.
Lemma read_txs_typed n : forall txs hs, hashed_txs (txs, hs) -> yields (read_txs n txs hs) hashed_txs.
Proof.
  induction n as [|n IH]; intros txs hs Hx; cbn [read_txs]; [by apply yields_ret|]. destruct Hx as (Ht & Hh & Hm).
  eapply yields_bind; [apply Tx_Deserialize_typed|]. intros [t e] [T _]. cbn in T. unfold hash_cached. destruct (Tx_Hash t) as [h|] eqn:E; [|apply yields_panic]. cbn.
  pose proof (Tx_Hash_typed t h T E). apply IH. split; [|split].
  - apply Forall_app. split; [done|]. constructor; [|constructor]. split; [by apply typed_SetHash|by eexists].
  - apply Forall_app. split; [done|]. by constructor.
  - cbn in Hm |- *. apply mapM_Some. apply mapM_Some in Hm. apply Forall2_app; [done|]. by constructor.
Qed.

(** Parsed blocks are well typed: whatever bytes arrive, the fields of the
    header and of every transaction are in the range of their Go types, each
    transaction carries its hash, and when no error is reported the header
    commits to these hashes by their Merkle root. *)
Theorem parsed_block_typed (k : reader_kind) (data : bytes) (b : Block) (e : err) (r : reader) :
  wf_bytes data -> Block_Deserialize new_Block (mkReader k data) = Some ((b, e), r) ->
  typed_Block b /\
  (e = None -> exists hs, mapM Tx_Hash (Transactions b) = Some hs /\ ComputeRoot hs = Some (TransactionsRoot (blk_data b), None)).
Proof.
  intros Hd E. enough (Y : yields (Block_Deserialize new_Block) (fun x => typed_Block x.1 /\
    (x.2 = None -> exists hs, mapM Tx_Hash (Transactions x.1) = Some hs /\ ComputeRoot hs = Some (TransactionsRoot (blk_data x.1), None)))).
  { exact (proj2 (Y (mkReader k data) _ _ Hd E)). }
  clear. unfold Block_Deserialize. eapply yields_bind; [apply Blockdata_Deserialize_typed|]. intros [bd e] T. cbn in T |- *.
  eapply yields_bind; [apply ReadUint32_typed|]. intros [n e2] _. destruct e2; [apply yields_ret; split; [split; [done|by split; [constructor|]]|discriminate]|].
  eapply yields_bind; [apply (read_txs_typed _ [] []); split; [constructor|split; [constructor|done]]|]. intros [txs hs] (Ht & Hh & Hm). unfold finish_block. cbn in *.
  destruct (ComputeRoot hs) as [[root e3]|] eqn:Er; [|apply yields_panic]. pose proof (ComputeRoot_typed _ _ _ Hh Er) as Hr.
  assert (Tb : typed_Block (mkBlock (set_TransactionsRoot bd root) txs None)) by (split; [destruct T; by constructor|done]).
  destruct e3; cbn [is_err]; apply yields_ret; (split; [exact Tb|]); [discriminate|]. intros _. exists hs. by split.
Qed.

(** ** Examples *)

(** A transfer with a short output: its reader drops the error and leaves
    zeros.  And one that is whole. *)
Definition short_tx : bytes := [2; 0; 0; 0; 1; 7; 7].
Definition whole_tx : bytes := [2; 0; 0; 0; 0; 7; 0; 0; 0; 0; 9].
Lemma parsed_transaction_typed_witness :
  (exists t e r, Tx_Deserialize new_Transaction (mkReader BytesReader short_tx) = Some ((t, e), r) /\ typed_Tx t /\ length (Outputs t) = 1%nat) /\
  (exists t, Tx_Deserialize new_Transaction (mkReader BytesReader whole_tx) = Some ((t, None), mkReader BytesReader [9]) /\ wf_Tx t).
Proof.
  split.
  - destruct (Tx_Deserialize new_Transaction (mkReader BytesReader short_tx)) as [[[t e] r]|] eqn:E; [|vm_compute in E; discriminate E].
    destruct (parsed_transaction_typed BytesReader short_tx t e r) as [T _]; [by_decision|exact E|]. exists t, e, r. split; [reflexivity|]. split; [exact T|].
    vm_compute in E. injection E as <- _ _. reflexivity.
  - exists (mkTx 2 0 (Some PTransferAsset) [] [] [] [] 7 [] 0 0 None).
    assert (E : Tx_Deserialize new_Transaction (mkReader BytesReader whole_tx) = Some ((mkTx 2 0 (Some PTransferAsset) [] [] [] [] 7 [] 0 0 None, None), mkReader BytesReader [9]))
      by (vm_compute; reflexivity). split; [exact E|].
    apply (parsed_transaction_typed BytesReader whole_tx _ None (mkReader BytesReader [9])); [by_decision|exact E|reflexivity|reflexivity..].
Defined.
Lemma parsed_block_typed_witness : exists b e r, Block_Deserialize new_Block (mkReader BytesReader (repeat 7 100)) = Some ((b, e), r) /\ typed_Block b.
Proof.
  destruct (Block_Deserialize new_Block (mkReader BytesReader (repeat 7 100))) as [[[b e] r]|] eqn:E; [|vm_compute in E; discriminate E].
  destruct (parsed_block_typed BytesReader (repeat 7 100) b e r) as [T _]; [by_decision|exact E|]. exists b, e, r. split; [reflexivity|exact T].
Defined.
