(* ===== verification/AccountState.v ===== *)
(** [core/account/accountstate.go]: the balances of an account and their binary
    form.  Go enumerates a map in an arbitrary order, which is an argument of the
    writer; the reader gives the same map back whatever the order. *)

From S2P Require Import Prelude Sha256 Serialization Common Fixed64.

Record AccountState := mkAccountState { as_ProgramHash : Uint160; IsFrozen : bool; Balances : gmap Uint256 Fixed64 }.
Definition NewAccountState (programHash : Uint160) (balances : gmap Uint256 Fixed64) : AccountState := mkAccountState programHash false balances.

Definition write_balance (kv : Uint256 * Fixed64) : bytes := Uint_Serialize kv.1 ++ Fixed64_Serialize kv.2.
(** [enum]: the order in which the entries are enumerated. *)
Definition AccountState_Serialize (enum : list (Uint256 * Fixed64)) (a : AccountState) : bytes :=
  Uint_Serialize (as_ProgramHash a) ++ WriteBool (IsFrozen a) ++ WriteUint64 (uint64 (Z.of_nat (size (Balances a)))) ++ concat (map write_balance enum).

(** One hash and one amount receive every entry. *)
Fixpoint read_balances (n : nat) (u : Uint256) (f : Fixed64) (balances : gmap Uint256 Fixed64) : rd (gmap Uint256 Fixed64 * err) :=
  match n with
  | O => mret (balances, None)
  | S n =>
      '(u, e) ← Uint256_Deserialize u;
      iferr e return balances ;;
      '(f, e) ← Fixed64_Deserialize f;
      iferr e return balances ;;
      read_balances n u f (<[u := f]> balances)
  end.
(** A count of [2^63] and more is negative as an [int]: nothing is read. *)
Definition AccountState_Deserialize (a : AccountState) : rd (AccountState * err) :=
  '(ph, _) ← Uint160_Deserialize (as_ProgramHash a);
  let a := mkAccountState ph (IsFrozen a) (Balances a) in
  '(isFrozen, e) ← ReadBool;
  iferr e return a ;;
  let a := mkAccountState ph isFrozen (Balances a) in
  '(l, e) ← ReadUint64;
  iferr e return a ;;
  '(balances, e) ← read_balances (Z.to_nat (int64 l)) zero256 0 ∅;
  iferr e return a ;;
  mret (mkAccountState ph isFrozen balances, None).

Lemma read_balances_reads l : forall u f m, Forall (fun kv => wf_u256 kv.1 /\ inS 64 kv.2) l ->
  reads any_tail (read_balances (length l) u f m) (concat (map write_balance l)) (foldl (fun m kv => <[kv.1 := kv.2]> m) m l).
Proof.
  induction l as [|[k v] l IH]; intros u f m Hl tag rest Ht; [done|]. inversion Hl as [|? ? [Hk Hv] Hl']; subst.
  cbn [length read_balances map concat foldl]. unfold write_balance at 1. cbn [fst snd]. rewrite <- !app_assoc. field. field. by apply IH.
Qed.
Lemma foldl_insert_list l : forall m : gmap Uint256 Fixed64, NoDup (map fst l) -> (forall k, k ∈ map fst l -> m !! k = None) ->
  foldl (fun m kv => <[kv.1 := kv.2]> m) m l = list_to_map l ∪ m.
Proof.
  induction l as [|[k v] l IH]; intros m Hn Hm; cbn; [by rewrite (left_id_L ∅ (∪))|]. inversion Hn as [|? ? Hk Hn']; subst.
  rewrite IH; [|done|]; cycle 1.
  { intros k' Hk'. rewrite lookup_insert_ne by (intros ->; done). apply Hm. by right. }
  rewrite <- insert_union_r by (apply not_elem_of_list_to_map_1; exact Hk). by rewrite insert_union_l.
Qed.

(** An account is read back whatever the order in which its balances were
    written. *)
Theorem account_state_roundtrip (a : AccountState) (enum : list (Uint256 * Fixed64)) (k : reader_kind) (rest : bytes) :
  enum ≡ₚ map_to_list (Balances a) -> wf_u160 (as_ProgramHash a) -> map_Forall (fun h v => wf_u256 h /\ inS 64 v) (Balances a) ->
  Z.of_nat (size (Balances a)) < 2 ^ 63 ->
  AccountState_Deserialize (NewAccountState zero160 ∅) (mkReader k (AccountState_Serialize enum a ++ rest)) = Some ((a, None), mkReader k rest).
Proof.
  intros Hp Hh Hb Hs. assert (Hl : length enum = size (Balances a)) by (rewrite Hp, length_map_to_list; done).
  unfold AccountState_Deserialize, AccountState_Serialize. rewrite <- !app_assoc. field.
  assert (B : reads any_tail ReadBool (WriteBool (IsFrozen a)) (IsFrozen a)).
  { intros k' r _. unfold ReadBool, WriteBool. cbn [app]. erewrite rd_bind_Some by (apply (ReadFull_app k' [if IsFrozen a then 1 else 0] r 1); done). by destruct (IsFrozen a). }
  erewrite (rd_field any_tail) by (exact I || exact B). cbn beta iota. rewrite wrapU_id by lia. erewrite (rd_field any_tail); [|apply ReadUint64_reads; lia|exact I]. cbn beta iota. rewrite wrapS_id, <- Hl, Nat2Z.id by lia.
  erewrite (rd_field any_tail); [|apply read_balances_reads|exact I]; cycle 1.
  { apply list.Forall_forall. intros [h v] Hv. rewrite Hp in Hv. apply elem_of_map_to_list in Hv. by apply Hb. }
  cbn beta iota. rewrite foldl_insert_list, (right_id_L ∅ (∪)); [|by rewrite Hp; apply NoDup_fst_map_to_list|intros; apply lookup_empty].
  rewrite (list_to_map_proper enum (map_to_list (Balances a))), list_to_map_to_list; [by destruct a|rewrite Hp; apply NoDup_fst_map_to_list|done].
Qed.

Definition two_balances : gmap Uint256 Fixed64 := {[ repeat 1 32 := 5; repeat 2 32 := -7 ]}.
Lemma account_state_roundtrip_witness :
  AccountState_Deserialize (NewAccountState zero160 ∅) (mkReader BytesReader (AccountState_Serialize (reverse (map_to_list two_balances)) (mkAccountState zero160 true two_balances) ++ [9])) =
    Some ((mkAccountState zero160 true two_balances, None), mkReader BytesReader [9]).
Proof.
  apply (account_state_roundtrip (mkAccountState zero160 true two_balances)); cbn [Balances as_ProgramHash].
  - apply reverse_Permutation.
  - by_decision.
  - by_decision.
  - by_decision.
Defined.
