(* ===== verification/Store.v ===== *)
(** [core/store/ChainStore]: what is written to and read from the key-value
    store when a block is persisted or rolled back, the two unspent-output
    indexes, and the list of header announcements.

    The database is a parameter, known through the interface [IStore] of
    [core/store/store.go] with the documented behaviour of a LevelDB batch: the
    operations take effect together, in order.  Input/output failures of the
    database are outside the model.  A panic is [None]. *)

From S2P Require Import Prelude Sha256 Serialization Common Fixed64 Transaction Merkle AuxPow Block.

(** * store.go *)

Inductive batch_op := BatchPut (key value : bytes) | BatchDelete (key : bytes).
#[export] Instance batch_op_eq_dec : EqDecision batch_op.
Proof. solve_decision. Defined.

Class IStore (DB : Type) := {
  (** [None] is [leveldb: not found]. *)
  db_Get : DB -> bytes -> option bytes;
  (** [NewBatch], the operations, [BatchCommit]. *)
  db_Write : DB -> list batch_op -> DB }.

(** What the last operation on a key in a batch leaves there. *)
Fixpoint last_write (ops : list batch_op) (k : bytes) : option (option bytes) :=
  match ops with
  | [] => None
  | op :: ops =>
      match last_write ops k with
      | Some v => Some v
      | None =>
          match op with
          | BatchPut k' v => if decide (k' = k) then Some (Some v) else None
          | BatchDelete k' => if decide (k' = k) then Some None else None
          end
      end
  end.

(** The documented behaviour of a committed batch. *)
Class IStoreLaws (DB : Type) `{IStore DB} :=
  db_Get_Write : forall (db : DB) ops k,
    db_Get (db_Write db ops) k = match last_write ops k with Some v => v | None => db_Get db k end.

Definition apply_op (m : gmap bytes bytes) (op : batch_op) : gmap bytes bytes :=
  match op with BatchPut k v => <[k := v]> m | BatchDelete k => delete k m end.
#[export] Instance map_store : IStore (gmap bytes bytes) := {
  db_Get m k := m !! k; db_Write m ops := foldl apply_op m ops }.

(** * DataEntryPrefix.go *)

Definition DATA_BlockHash : Z := 0x00.
Definition DATA_Header : Z := 0x01.
Definition DATA_Transaction : Z := 0x02.
Definition IX_Unspent : Z := 0x90.
Definition IX_Unspent_UTXO : Z := 0x91.
Definition ST_Info : Z := 0xc0.
Definition SYS_CurrentBlock : Z := 0x40.

Definition hash_key (prefix : Z) (h : bytes) : bytes := prefix :: h.
Definition height_key (height : Z) : bytes := DATA_BlockHash :: WriteUint32 height.
Definition utxo_key (programHash : Uint160) (assetid : Uint256) (height : Z) : bytes :=
  IX_Unspent_UTXO :: programHash ++ assetid ++ WriteUint32 height.

Section ChainStore.
Context {DB : Type} `{IStore DB}.

(** * ChainStore.go: lookups *)

Definition IsTxHashDuplicate (db : DB) (txhash : Uint256) : bool :=
  match db_Get db (hash_key DATA_Transaction txhash) with Some _ => true | None => false end.

Fixpoint IsDoubleSpend_loop (db : DB) (ins : list UTXOTxInput) : bool :=
  match ins with
  | [] => false
  | i :: ins =>
      match db_Get db (hash_key IX_Unspent (ReferTxID i)) with
      | None => true
      | Some v =>
          let '(unspents, _) := GetUint16Array (Some v) in
          if existsb (Z.eqb (ReferTxOutputIndex i)) unspents then IsDoubleSpend_loop db ins else true
      end
  end.
Definition IsDoubleSpend (db : DB) (txn : Transaction) : bool := IsDoubleSpend_loop db (UTXOInputs txn).

Definition GetBlockHash (db : DB) (height : Z) : Uint256 * err :=
  match db_Get db (height_key height) with
  | None => (zero256, Some ErrDBNotFound)
  | Some v =>
      let '(h, e) := Uint256ParseFromBytes v in
      if is_err e then (zero256, e) else (h, None)
  end.

(** The first eight bytes of a stored block are the system fee. *)
Definition GetHeader (db : DB) (hash : Uint256) : option (option Blockdata * err) :=
  match db_Get db (hash_key DATA_Header hash) with
  | None => Some (None, Some ErrDBNotFound)
  | Some data =>
      '((_, e), r) ← ReadUint64 (mkReader BytesReader data);
      if is_err e then Some (None, e) else
      '((h, e), _) ← Header_Deserialize r;
      if is_err e then Some (None, e) else Some (Some h, None)
  end.

Definition GetAsset (db : DB) (hash : Uint256) : option (option Asset * err) :=
  match db_Get db (hash_key ST_Info hash) with
  | None => Some (None, Some ErrDBNotFound)
  | Some data =>
      '((a, _), _) ← Asset_Deserialize new_Asset (mkReader BytesReader data);
      Some (Some a, None)
  end.

Definition store_GetTransaction (db : DB) (hash : Uint256) : option (option Transaction * Z * err) :=
  match db_Get db (hash_key DATA_Transaction hash) with
  | None => Some (None, 0, Some ErrDBNotFound)
  | Some value =>
      '((height, e), r) ← ReadUint32 (mkReader BytesReader value);
      if is_err e then Some (None, 0, e) else
      '((txn, e), _) ← Tx_Deserialize new_Transaction r;
      if is_err e then Some (None, height, e) else Some (Some txn, height, None)
  end.

(** The stubs of a trimmed block are replaced by the stored transactions. *)
Fixpoint load_transactions (db : DB) (stubs : list Transaction) : option (list Transaction * err) :=
  match stubs with
  | [] => Some ([], None)
  | t :: stubs =>
      h ← Tx_Hash t;
      '(tmp, _, e) ← store_GetTransaction db h;
      match tmp, e with
      | Some tmp, None =>
          '(l, e) ← load_transactions db stubs;
          Some (tmp :: l, e)
      | _, _ => Some ([], e)
      end
  end.

Definition GetBlock (db : DB) (hash : Uint256) : option (option Block * err) :=
  match db_Get db (hash_key DATA_Header hash) with
  | None => Some (None, Some ErrDBNotFound)
  | Some data =>
      '((_, e), r) ← ReadUint64 (mkReader BytesReader data);
      if is_err e then Some (None, e) else
      '((b, e), _) ← FromTrimmedData new_Block r;
      if is_err e then Some (None, e) else
      '(txs, e) ← load_transactions db (Transactions b);
      if is_err e then Some (None, e) else Some (Some (mkBlock (blk_data b) txs (blk_hash b)), None)
  end.

Definition IsBlockInStore (db : DB) (currentBlockHeight : Z) (hash : Uint256) : option bool :=
  match db_Get db (hash_key DATA_Header hash) with
  | None => Some false
  | Some data =>
      '((_, e), r) ← ReadUint64 (mkReader BytesReader data);
      if is_err e then Some false else
      '((b, e), _) ← FromTrimmedData new_Block r;
      if is_err e then Some false else Some (negb (currentBlockHeight <? bd_Height (blk_data b)))
  end.

Definition ContainsUnspent (db : DB) (txid : Uint256) (index : Z) : bool * err :=
  match db_Get db (hash_key IX_Unspent txid) with
  | None => (false, Some ErrDBNotFound)
  | Some v =>
      let '(unspentArray, e) := GetUint16Array (Some v) in
      if is_err e then (false, e) else (existsb (fun x => x =? index) unspentArray, None)
  end.

Definition GetUnspent (db : DB) (txid : Uint256) (index : Z) : option (option TxOutput * err) :=
  if (ContainsUnspent db txid index).1 then
    '(t, _, e) ← store_GetTransaction db txid;
    match t, e with
    | Some t, None => o ← Outputs t !! Z.to_nat index; Some (Some o, None)
    | _, _ => Some (None, e)
    end
  else Some (None, Some (NewError "[GetUnspent] NOT ContainsUnspent.")).

(** [make] of the announced number of pointers panics beyond the address space. *)
Definition GetUnspentElementFromProgramHash (db : DB) (programHash : Uint160) (assetid : Uint256) (height : Z) :
    option (list UTXOUnspent * err) :=
  match db_Get db (utxo_key programHash assetid height) with
  | None => Some ([], Some ErrDBNotFound)
  | Some data =>
      '((listNum, e), r) ← ReadVarUint 0 (mkReader BytesReader data);
      if is_err e then Some ([], e) else
      if negb (make_ok 8 listNum) then None else
      '((l, e), _) ← read_loop (Z.to_nat listNum) (UTXOUnspent_Deserialize new_Unspent) [] r;
      if is_err e then Some ([], e) else Some (l, None)
  end.

(** * ChainData.go: what a block writes

    Every function returns the operations it adds to the batch, with the error
    it stops at. *)

Definition PersistTrimmedBlock (b : Block) : option (list batch_op * err) :=
  trimmed ← Trim b;
  Some ([BatchPut (hash_key DATA_Header (Block_Hash b)) (WriteUint64 0 ++ trimmed)], None).

Definition RollbackTrimemedBlock (b : Block) : list batch_op * err :=
  ([BatchDelete (hash_key DATA_Header (Block_Hash b))], None).

Definition PersistBlockHash (b : Block) : list batch_op * err :=
  ([BatchPut (height_key (bd_Height (blk_data b))) (Uint_Serialize (Blockdata_Hash (blk_data b)))], None).

Definition RollbackBlockHash (b : Block) : list batch_op * err :=
  ([BatchDelete (height_key (bd_Height (blk_data b)))], None).

Definition PersistCurrentBlock (b : Block) : list batch_op * err :=
  ([BatchPut [SYS_CurrentBlock] (Uint_Serialize (Block_Hash b) ++ WriteUint32 (bd_Height (blk_data b)))], None).

Definition RollbackCurrentBlock (b : Block) : list batch_op * err :=
  ([BatchPut [SYS_CurrentBlock]
      (Uint_Serialize (PrevBlockHash (blk_data b)) ++ WriteUint32 (uint32 (bd_Height (blk_data b) - 1)))], None).

Definition PersistTransaction (t : Transaction) (height : Z) : option (list batch_op * err) :=
  h ← Tx_Hash t;
  '(enc, _) ← Tx_Serialize t;
  Some ([BatchPut (hash_key DATA_Transaction h) (WriteUint32 height ++ enc)], None).

Definition PersistAsset (assetId : Uint256) (asset : Asset) : list batch_op * err :=
  ([BatchPut (hash_key ST_Info assetId) (Asset_Serialize asset)], None).

Fixpoint PersistTransactions (txs : list Transaction) (height : Z) : option (list batch_op * err) :=
  match txs with
  | [] => Some ([], None)
  | t :: txs =>
      '(ops, _) ← PersistTransaction t height;
      aops ← (if TxType t =? RegisterAsset then
                match payload t with
                | Some (PRegisterAsset a _ _) => h ← Tx_Hash t; Some (fst (PersistAsset h a))
                | _ => None
                end
              else Some []);
      '(rest, e) ← PersistTransactions txs height;
      Some (ops ++ aops ++ rest, e)
  end.

Definition RollbackTransaction (t : Transaction) : option (list batch_op * err) :=
  h ← Tx_Hash t; Some ([BatchDelete (hash_key DATA_Transaction h)], None).
Definition RollbackAsset (assetId : Uint256) : list batch_op * err :=
  ([BatchDelete (hash_key ST_Info assetId)], None).
Fixpoint RollbackTransactions (txs : list Transaction) : option (list batch_op * err) :=
  match txs with
  | [] => Some ([], None)
  | t :: txs =>
      '(ops, _) ← RollbackTransaction t;
      aops ← (if TxType t =? RegisterAsset then h ← Tx_Hash t; Some (fst (RollbackAsset h)) else Some []);
      '(rest, e) ← RollbackTransactions txs;
      Some (ops ++ aops ++ rest, e)
  end.

(** ** The unspent index: transaction hash to unspent output numbers *)

(** [l[i] = l[len-1]; l = l[:len-1]]. *)
Definition swap_remove {A} (i : nat) (l : list A) : list A :=
  match l !! (length l - 1)%nat with
  | None => l
  | Some x => take (length l - 1) (<[i := x]> l)
  end.
(** The same at the first element that satisfies [f]; [None] if none does. *)
Definition remove_first {A} (f : A -> bool) (l : list A) : option (list A) :=
  match list_find (fun x => f x = true) l with
  | None => None
  | Some (i, _) => Some (swap_remove i l)
  end.

Abbreviation unspent_map := (gmap Uint256 (list Z)).

(** One input; an output number that is not in the list is passed over. *)
Definition unspend_input (db : DB) (m : unspent_map) (i : UTXOTxInput) : unspent_map * err :=
  let '(loaded, e) :=
    match m !! ReferTxID i with
    | Some l => (l, None)
    | None =>
        match db_Get db (hash_key IX_Unspent (ReferTxID i)) with
        | None => ([], Some ErrDBNotFound)
        | Some v => GetUint16Array (Some v)
        end
    end in
  if is_err e then (m, e)
  else (<[ReferTxID i := default loaded (remove_first (Z.eqb (ReferTxOutputIndex i)) loaded)]> m, None).

Fixpoint unspend_inputs (db : DB) (m : unspent_map) (ins : list UTXOTxInput) : unspent_map * err :=
  match ins with
  | [] => (m, None)
  | i :: ins =>
      let '(m, e) := unspend_input db m i in
      if is_err e then (m, e) else unspend_inputs db m ins
  end.

Definition add_outputs (m : unspent_map) (h : Uint256) (n : nat) : unspent_map :=
  match n with
  | O => m
  | _ => <[h := default [] (m !! h) ++ map (fun i => uint16 (Z.of_nat i)) (seq 0 n)]> m
  end.

Fixpoint unspend_txs (db : DB) (m : unspent_map) (txs : list Transaction) : option (unspent_map * err) :=
  match txs with
  | [] => Some (m, None)
  | t :: txs =>
      if TxType t =? RegisterAsset then unspend_txs db m txs else
      h ← Tx_Hash t;
      let m := add_outputs m h (length (Outputs t)) in
      let '(m, e) := if IsCoinBaseTx t then (m, None) else unspend_inputs db m (UTXOInputs t) in
      if is_err e then Some (m, e) else unspend_txs db m txs
  end.

(** The Go map is written in its iteration order; the keys are distinct. *)
Definition write_unspents (m : unspent_map) : list batch_op :=
  map (fun '(h, l) => match l with
                      | [] => BatchDelete (hash_key IX_Unspent h)
                      | _ => BatchPut (hash_key IX_Unspent h) (ToByteArray l)
                      end) (map_to_list m).

Definition PersistUnspend (db : DB) (b : Block) : option (list batch_op * err) :=
  '(m, e) ← unspend_txs db ∅ (Transactions b);
  if is_err e then Some ([], e) else Some (write_unspents m, None).

Definition respend_input (db : DB) (m : unspent_map) (i : UTXOTxInput) : unspent_map * err :=
  let '(m, e) :=
    match m !! ReferTxID i with
    | Some _ => (m, None)
    | None =>
        match db_Get db (hash_key IX_Unspent (ReferTxID i)) with
        | None | Some [] => (m, None)
        | Some v => let '(l, e) := GetUint16Array (Some v) in (<[ReferTxID i := l]> m, e)
        end
    end in
  if is_err e then (m, e)
  else (<[ReferTxID i := default [] (m !! ReferTxID i) ++ [ReferTxOutputIndex i]]> m, None).

Fixpoint respend_inputs (db : DB) (m : unspent_map) (ins : list UTXOTxInput) : unspent_map * err :=
  match ins with
  | [] => (m, None)
  | i :: ins =>
      let '(m, e) := respend_input db m i in
      if is_err e then (m, e) else respend_inputs db m ins
  end.

(** The deletions go to the batch at once, the map at the end. *)
Fixpoint respend_txs (db : DB) (m : unspent_map) (ops : list batch_op) (txs : list Transaction) :
    option (unspent_map * list batch_op * err) :=
  match txs with
  | [] => Some (m, ops, None)
  | t :: txs =>
      if TxType t =? RegisterAsset then respend_txs db m ops txs else
      h ← Tx_Hash t;
      let ops := ops ++ [BatchDelete (hash_key IX_Unspent h)] in
      let '(m, e) := if IsCoinBaseTx t then (m, None) else respend_inputs db m (UTXOInputs t) in
      if is_err e then Some (m, ops, e) else respend_txs db m ops txs
  end.

Definition RollbackUnspend (db : DB) (b : Block) : option (list batch_op * err) :=
  '(m, ops, e) ← respend_txs db ∅ [] (Transactions b);
  if is_err e then Some (ops, e) else Some (ops ++ write_unspents m, None).

(** ** The owner index: (program hash, asset, height) to unspent outputs

    The three nested maps of the code are one map here; their intermediate
    levels carry no information. *)

Abbreviation owner_map := (gmap (Uint160 * Uint256 * Z) (list UTXOUnspent)).

Definition owner_key (o : TxOutput) (height : Z) : Uint160 * Uint256 * Z := (o_ProgramHash o, o_AssetID o, height).

Definition load_owner (db : DB) (m : owner_map) (k : Uint160 * Uint256 * Z) : option (list UTXOUnspent * err) :=
  match m !! k with
  | Some l => Some (l, None)
  | None => GetUnspentElementFromProgramHash db k.1.1 k.1.2 k.2
  end.

Fixpoint own_outputs (db : DB) (m : owner_map) (h : Uint256) (height index : Z) (outs : list TxOutput) :
    option owner_map :=
  match outs with
  | [] => Some m
  | o :: outs =>
      let k := owner_key o height in
      '(l, e) ← load_owner db m k;
      let l := if is_err e then [] else l in
      own_outputs db (<[k := l ++ [mkUnspent h (uint32 index) (o_Value o)]]> m) h height (index + 1) outs
  end.

(** The entry of output [index] of a transaction with hash [h]. *)
Definition is_entry (h : Uint256) (index : Z) (u : UTXOUnspent) : bool :=
  (CompareTo (Txid u) h =? 0) && (uu_Index u =? index).

Definition disown_input (db : DB) (m : owner_map) (i : UTXOTxInput) : option (owner_map * err) :=
  '(rt, height, e) ← store_GetTransaction db (ReferTxID i);
  match rt, e with
  | Some rt, None =>
      o ← Outputs rt !! Z.to_nat (ReferTxOutputIndex i);
      let k := owner_key o height in
      '(l, e) ← load_owner db m k;
      if is_err e then Some (m, Some (NewError "[persist] utxoUnspents has no unspent UTXO.")) else
      h ← Tx_Hash rt;
      match remove_first (is_entry h (ReferTxOutputIndex i)) l with
      | None => Some (<[k := l]> m, Some (NewError "[persist] utxoUnspents NOT find UTXO."))
      | Some l => Some (<[k := l]> m, None)
      end
  | _, _ => Some (m, e)
  end.

Fixpoint disown_inputs (db : DB) (m : owner_map) (ins : list UTXOTxInput) : option (owner_map * err) :=
  match ins with
  | [] => Some (m, None)
  | i :: ins =>
      '(m, e) ← disown_input db m i;
      if is_err e then Some (m, e) else disown_inputs db m ins
  end.

Fixpoint own_txs (db : DB) (m : owner_map) (height : Z) (txs : list Transaction) : option (owner_map * err) :=
  match txs with
  | [] => Some (m, None)
  | t :: txs =>
      if TxType t =? RegisterAsset then own_txs db m height txs else
      h ← Tx_Hash t;
      m ← own_outputs db m h height 0 (Outputs t);
      '(m, e) ← (if IsCoinBaseTx t then Some (m, None) else disown_inputs db m (UTXOInputs t));
      if is_err e then Some (m, e) else own_txs db m height txs
  end.

Definition PersistUnspentWithProgramHash (programHash : Uint160) (assetid : Uint256) (height : Z)
    (unspents : list UTXOUnspent) : batch_op :=
  match unspents with
  | [] => BatchDelete (utxo_key programHash assetid height)
  | _ => BatchPut (utxo_key programHash assetid height)
           (WriteVarUint (Z.of_nat (length unspents)) ++ concat (map UTXOUnspent_Serialize unspents))
  end.

Definition write_owners (m : owner_map) : list batch_op :=
  map (fun '(k, l) => PersistUnspentWithProgramHash k.1.1 k.1.2 k.2 l) (map_to_list m).

Definition PersistUnspendUTXOs (db : DB) (b : Block) : option (list batch_op * err) :=
  '(m, e) ← own_txs db ∅ (bd_Height (blk_data b)) (Transactions b);
  if is_err e then Some ([], e) else Some (write_owners m, None).

(** An entry that is not found is position 0; removing from an empty list
    panics. *)
Fixpoint unown_outputs (db : DB) (m : owner_map) (h : Uint256) (height index : Z) (outs : list TxOutput) :
    option (owner_map * err) :=
  match outs with
  | [] => Some (m, None)
  | o :: outs =>
      let k := owner_key o height in
      '(l, e) ← load_owner db m k;
      if is_err e then Some (m, Some (NewError "[persist] utxoUnspents has no unspent UTXO.")) else
      let position :=
        match list_find (fun u => Txid u = h /\ uu_Index u = uint32 index) l with Some (i, _) => i | None => 0%nat end in
      match l with
      | [] => None
      | _ => unown_outputs db (<[k := delete position l]> m) h height (index + 1) outs
      end
  end.

Definition reown_input (db : DB) (m : owner_map) (i : UTXOTxInput) : option (owner_map * err) :=
  '(rt, height, e) ← store_GetTransaction db (ReferTxID i);
  match rt, e with
  | Some rt, None =>
      o ← Outputs rt !! Z.to_nat (ReferTxOutputIndex i);
      let k := owner_key o height in
      '(l, e) ← load_owner db m k;
      let l := if is_err e then [] else l in
      h ← Tx_Hash rt;
      Some (<[k := l ++ [mkUnspent h (uint32 (ReferTxOutputIndex i)) (o_Value o)]]> m, None)
  | _, _ => Some (m, e)
  end.

Fixpoint reown_inputs (db : DB) (m : owner_map) (ins : list UTXOTxInput) : option (owner_map * err) :=
  match ins with
  | [] => Some (m, None)
  | i :: ins =>
      '(m, e) ← reown_input db m i;
      if is_err e then Some (m, e) else reown_inputs db m ins
  end.

Fixpoint unown_txs (db : DB) (m : owner_map) (height : Z) (txs : list Transaction) : option (owner_map * err) :=
  match txs with
  | [] => Some (m, None)
  | t :: txs =>
      if TxType t =? RegisterAsset then unown_txs db m height txs else
      h ← Tx_Hash t;
      '(m, e) ← unown_outputs db m h height 0 (Outputs t);
      if is_err e then Some (m, e) else
      '(m, e) ← (if IsCoinBaseTx t then Some (m, None) else reown_inputs db m (UTXOInputs t));
      if is_err e then Some (m, e) else unown_txs db m height txs
  end.

Definition RollbackUnspendUTXOs (db : DB) (b : Block) : option (list batch_op * err) :=
  '(m, e) ← unown_txs db ∅ (bd_Height (blk_data b)) (Transactions b);
  if is_err e then Some ([], e) else Some (write_owners m, None).

(** * ChainStore.go: persisting and rolling back

    The errors of the steps are dropped; what they wrote so far is committed. *)

Definition persist_ops (db : DB) (b : Block) : option (list batch_op) :=
  '(o1, _) ← PersistTrimmedBlock b;
  '(o3, _) ← PersistTransactions (Transactions b) (bd_Height (blk_data b));
  '(o4, _) ← PersistUnspendUTXOs db b;
  '(o5, _) ← PersistUnspend db b;
  Some (o1 ++ (PersistBlockHash b).1 ++ o3 ++ o4 ++ o5 ++ (PersistCurrentBlock b).1).

Definition persist (db : DB) (b : Block) : option DB := ops ← persist_ops db b; Some (db_Write db ops).

Definition rollback_ops (db : DB) (b : Block) : option (list batch_op) :=
  '(o3, _) ← RollbackTransactions (Transactions b);
  '(o4, _) ← RollbackUnspendUTXOs db b;
  '(o5, _) ← RollbackUnspend db b;
  Some ((RollbackTrimemedBlock b).1 ++ (RollbackBlockHash b).1 ++ o3 ++ o4 ++ o5 ++ (RollbackCurrentBlock b).1).

Definition rollback_db (db : DB) (b : Block) : option DB := ops ← rollback_ops db b; Some (db_Write db ops).

(** ** The writer goroutine

    [loop] handles one task at a time and the senders wait for its reply, so
    the tasks are plain state transformers.  A header is its [Blockdata]; the
    ledger's [UpdateBestHeight] call is returned as a height. *)

Record ChainStore := mkChainStore {
  cs_db : DB; currentBlockHeight : Z;
  headerIdx : list Blockdata; headerCache : gmap Uint256 Blockdata; headerIndex : gmap Z Uint256 }.

Definition with_db (cs : ChainStore) (db : DB) (height : Z) : ChainStore :=
  mkChainStore db height (headerIdx cs) (headerCache cs) (headerIndex cs).
Definition with_headers (cs : ChainStore) (l : list Blockdata) : ChainStore :=
  mkChainStore (cs_db cs) (currentBlockHeight cs) l (headerCache cs) (headerIndex cs).

Definition same_hash (hash : Uint256) (h : Blockdata) : bool := CompareTo (Blockdata_Hash h) hash =? 0.

(** [container/list]: a removed element has no successor, so the loop ends
    with the first removal. *)
Fixpoint remove_header (hash : Uint256) (l : list Blockdata) : list Blockdata :=
  match l with
  | [] => []
  | h :: l => if same_hash hash h then l else h :: remove_header hash l
  end.
Definition clearCache (cs : ChainStore) (b : Block) : ChainStore :=
  with_headers cs (remove_header (Block_Hash b) (headerIdx cs)).
Definition RemoveHeaderListElement (cs : ChainStore) (hash : Uint256) : ChainStore :=
  with_headers cs (remove_header hash (headerIdx cs)).

Definition getHeaderWithCache (cs : ChainStore) (hash : Uint256) : option (option Blockdata) :=
  match list_find (fun h => same_hash hash h = true) (headerIdx cs) with
  | Some (_, h) => Some (Some h)
  | None => '(h, _) ← GetHeader (cs_db cs) hash; Some h
  end.

Definition powVerifyHeader (cs : ChainStore) (header : Blockdata) : option bool :=
  prev ← getHeaderWithCache cs (PrevBlockHash header);
  match prev with
  | None => Some false
  | Some prevHeader =>
      if negb (uint32 (bd_Height prevHeader + 1) =? bd_Height header) then Some false
      else if bd_Timestamp header <? bd_Timestamp prevHeader then Some false
      else Some true
  end.

Definition addHeader (cs : ChainStore) (header : Blockdata) : ChainStore :=
  let hash := Blockdata_Hash header in
  mkChainStore (cs_db cs) (currentBlockHeight cs) (headerIdx cs ++ [header])
    (<[hash := header]> (headerCache cs)) (<[bd_Height header := hash]> (headerIndex cs)).

Definition handlePersistHeaderTask (cs : ChainStore) (header : Blockdata) : option ChainStore :=
  ok ← powVerifyHeader cs header;
  Some (if ok : bool then addHeader cs header else cs).

(** [sort.Slice] by height; the headers of a message have distinct heights
    where the order is determined. *)
Fixpoint persist_headers (cs : ChainStore) (headers : list Blockdata) : option ChainStore :=
  match headers with
  | [] => Some cs
  | h :: headers => cs ← handlePersistHeaderTask cs h; persist_headers cs headers
  end.
Definition AddHeaders (cs : ChainStore) (headers : list Blockdata) : option ChainStore :=
  persist_headers cs (sort_by (fun a b => bd_Height a <=? bd_Height b) headers).

Definition GetHeight (cs : ChainStore) : Z := currentBlockHeight cs.
Definition GetCurrentBlockHash (cs : ChainStore) : Uint256 :=
  let '(hash, e) := GetBlockHash (cs_db cs) (currentBlockHeight cs) in if is_err e then zero256 else hash.

Definition GetHeaderHashFront (cs : ChainStore) : Uint256 * err :=
  match headerIdx cs with
  | [] => (zero256, Some (NewError "no element in headerIdx."))
  | h :: _ => (Blockdata_Hash h, None)
  end.
Fixpoint next_header_hash (prevHash : Uint256) (l : list Blockdata) : Uint256 * err :=
  match l with
  | [] => (zero256, Some (NewError "no element in headerIdx."))
  | h :: l =>
      match l with
      | h2 :: _ => if same_hash prevHash h then (Blockdata_Hash h2, None) else next_header_hash prevHash l
      | [] => (zero256, Some (NewError "no element in headerIdx."))
      end
  end.
Definition GetHeaderHashNext (cs : ChainStore) (prevHash : Uint256) : Uint256 * err :=
  next_header_hash prevHash (headerIdx cs).
Definition GetCurrentHeaderHash (cs : ChainStore) : Uint256 :=
  match headerIdx cs !! (length (headerIdx cs) - 1)%nat with
  | Some h => Blockdata_Hash h
  | None => GetCurrentBlockHash cs
  end.
Definition GetHeaderHashByHeight (cs : ChainStore) (height : Z) : Uint256 :=
  match list_find (fun h => bd_Height h = height) (headerIdx cs) with
  | Some (_, h) => Blockdata_Hash h
  | None => let '(hash, e) := GetBlockHash (cs_db cs) height in if is_err e then zero256 else hash
  end.
Definition GetHeaderHeight (cs : ChainStore) : Z :=
  match headerIdx cs !! (length (headerIdx cs) - 1)%nat with
  | Some h => bd_Height h
  | None => currentBlockHeight cs
  end.

(** [SaveBlock]: a block not above the current height is dropped. *)
Definition handlePersistBlockTask (cs : ChainStore) (b : Block) : option (ChainStore * option Z) :=
  let height := bd_Height (blk_data b) in
  if height <=? currentBlockHeight cs then Some (cs, None)
  else
    db ← persist (cs_db cs) b;
    Some (clearCache (with_db cs db height) b, Some height).

(** [RollbackBlock]. *)
Definition handleRollbackBlockTask (cs : ChainStore) (blockHash : Uint256) : option (ChainStore * option Z) :=
  '(b, e) ← GetBlock (cs_db cs) blockHash;
  match b, e with
  | Some b, None =>
      let height := uint32 (bd_Height (blk_data b) - 1) in
      db ← rollback_db (cs_db cs) b;
      Some (with_db cs db height, Some height)
  | _, _ => Some (cs, None)
  end.
End ChainStore.
Arguments ChainStore DB : clear implicits.
Arguments mkChainStore {DB}.

(** * Batches *)

Definition op_key (op : batch_op) : bytes := match op with BatchPut k _ | BatchDelete k => k end.
Definition op_value (op : batch_op) : option bytes := match op with BatchPut _ v => Some v | BatchDelete _ => None end.

Lemma last_write_cons op ops k :
  last_write (op :: ops) k =
    match last_write ops k with
    | Some v => Some v
    | None => if decide (op_key op = k) then Some (op_value op) else None
    end.
Proof. cbn. by destruct (last_write ops k), op. Qed.

Lemma last_write_app ops ops' k :
  last_write (ops ++ ops') k = match last_write ops' k with Some v => Some v | None => last_write ops k end.
Proof.
  induction ops as [|op ops IH]; [cbn; by destruct (last_write ops' k)|].
  cbn [app]. rewrite !last_write_cons, IH. by destruct (last_write ops' k).
Qed.

Lemma last_write_none ops k : (forall op, op ∈ ops -> op_key op <> k) -> last_write ops k = None.
Proof.
  induction ops as [|op ops IH]; [done|]. intros Hn. rewrite last_write_cons, IH.
  - rewrite decide_False; [done|]. apply Hn. left.
  - intros op' Hop. apply Hn. by right.
Qed.

(** The only operation on its key decides. *)
Lemma last_write_unique ops op k :
  op ∈ ops -> op_key op = k -> (forall op', op' ∈ ops -> op_key op' = k -> op' = op) ->
  last_write ops k = Some (op_value op).
Proof.
  intros Hin Hk Hu. induction ops as [|o ops IH]; [by apply elem_of_nil in Hin|]. rewrite last_write_cons.
  destruct (decide (op ∈ ops)) as [Hi|Hi].
  - rewrite IH; [done|done|]. intros op' Ho. apply Hu. by right.
  - rewrite last_write_none.
    + apply elem_of_cons in Hin as [->|]; [|done]. by rewrite decide_True.
    + intros op' Ho E. apply Hi. rewrite (Hu op') in Ho; [done|by right|done].
Qed.

(** The batch that writes a map: one operation per key. *)
Lemma last_write_map {K V} `{Countable K} (f : K -> V -> batch_op) (kf : K -> bytes) (m : gmap K V) k :
  (forall k v, op_key (f k v) = kf k) ->
  (forall k' v, m !! k' = Some v -> kf k' = kf k -> k' = k) ->
  last_write (map (fun '(k, v) => f k v) (map_to_list m)) (kf k) =
    match m !! k with Some v => Some (op_value (f k v)) | None => None end.
Proof.
  intros Hf Hi. destruct (m !! k) as [v|] eqn:E.
  - apply last_write_unique; [|done|].
    + apply list_elem_of_fmap. exists (k, v). split; [done|]. by apply elem_of_map_to_list.
    + intros op' Ho Hk. apply list_elem_of_fmap in Ho as ([k' v'] & -> & Hm).
      apply elem_of_map_to_list in Hm. rewrite Hf in Hk. pose proof (Hi k' v' Hm Hk). subst. congruence.
  - apply last_write_none. intros op Ho. apply list_elem_of_fmap in Ho as ([k' v'] & -> & Hm).
    apply elem_of_map_to_list in Hm. rewrite Hf. intros Hk. pose proof (Hi k' v' Hm Hk). subst. congruence.
Qed.

#[export] Instance map_store_laws : IStoreLaws (gmap bytes bytes).
Proof.
  intros m ops k. cbn. revert m. induction ops as [|op ops IH]; intros m; [done|].
  rewrite last_write_cons. cbn [foldl]. rewrite IH. destruct (last_write ops k); [done|].
  destruct op as [k' v|k']; cbn [apply_op op_key op_value]; case_decide; subst.
  - apply lookup_insert_eq.
  - by apply lookup_insert_ne.
  - apply lookup_delete_eq.
  - by apply lookup_delete_ne.
Qed.

(** Operations on keys with one of the given first bytes. *)
Definition on_prefixes (ps : list Z) (ops : list batch_op) : Prop :=
  forall op, op ∈ ops -> exists p rest, p ∈ ps /\ op_key op = p :: rest.

Lemma on_prefixes_none ps ops p rest : on_prefixes ps ops -> p ∉ ps -> last_write ops (p :: rest) = None.
Proof.
  intros Ho Hp. apply last_write_none. intros op Hin E. destruct (Ho op Hin) as (q & r & Hq & E').
  rewrite E' in E. by injection E as -> ->.
Qed.
Lemma on_prefixes_app ps ops ops' : on_prefixes ps ops -> on_prefixes ps ops' -> on_prefixes ps (ops ++ ops').
Proof. intros H H' op [Hi|Hi]%elem_of_app; eauto. Qed.
Lemma on_prefixes_nil ps : on_prefixes ps [].
Proof. intros op []%elem_of_nil. Qed.
Lemma on_prefixes_one ps op p rest : op_key op = p :: rest -> p ∈ ps -> on_prefixes ps [op].
Proof. intros E Hp op' ->%list_elem_of_singleton. eauto. Qed.
Lemma on_prefixes_map {A} ps (f : A -> batch_op) (l : list A) :
  (forall x, exists p rest, p ∈ ps /\ op_key (f x) = p :: rest) -> on_prefixes ps (map f l).
Proof. intros Hf op (x & -> & _)%list_elem_of_fmap. apply Hf. Qed.

Section Persist.
Context {DB : Type} `{IStoreLaws DB}.
Implicit Types (db : DB) (b : Block).

(** What one well-formed transaction writes. *)
Definition tx_ops (height : Z) (t : Transaction) : list batch_op :=
  BatchPut (hash_key DATA_Transaction (tx_hash_of t)) (WriteUint32 height ++ tx_enc t) ::
  match payload t with
  | Some (PRegisterAsset a _ _) => [BatchPut (hash_key ST_Info (tx_hash_of t)) (Asset_Serialize a)]
  | _ => []
  end.

Lemma PersistTransactions_eq txs height :
  Forall wf_Tx txs -> PersistTransactions txs height = Some (concat (map (tx_ops height) txs), None).
Proof.
  induction 1 as [|t txs W _ IH]; [done|]. cbn [PersistTransactions map concat]. rewrite IH.
  destruct (wf_Tx_Hash t W) as (h & Eh & _). destruct (Tx_Deserialize_reads t W) as (enc & Es & _).
  unfold PersistTransaction. rewrite Eh, Es. cbn [mbind option_bind].
  assert (tx_hash_of t = h /\ tx_enc t = enc) as [<- <-]
    by (split; [unfold tx_hash_of; by rewrite Eh|unfold tx_enc; by rewrite Es]).
  destruct W as [(p & Ep & _ & Et) _ _ _ _ _ _ _ _]. unfold tx_ops. rewrite Ep, Et. by destruct p.
Qed.

Lemma elem_of_tx_ops op height txs :
  op ∈ concat (map (tx_ops height) txs) -> exists t, t ∈ txs /\ op ∈ tx_ops height t.
Proof.
  intros (l & Hl & Hop)%list_elem_of_In%in_concat. apply list_elem_of_In in Hl, Hop.
  apply list_elem_of_fmap in Hl as (t & -> & Ht). eauto.
Qed.

Lemma tx_ops_cases op height t :
  op ∈ tx_ops height t ->
  op = BatchPut (hash_key DATA_Transaction (tx_hash_of t)) (WriteUint32 height ++ tx_enc t) \/
  exists v, op = BatchPut (hash_key ST_Info (tx_hash_of t)) v.
Proof.
  unfold tx_ops. intros [->|Ho]%elem_of_cons; [by left|]. right.
  destruct (payload t) as [[]|]; try (by apply elem_of_nil in Ho). apply list_elem_of_singleton in Ho. eauto.
Qed.

Lemma tx_ops_prefixes height txs : on_prefixes [DATA_Transaction; ST_Info] (concat (map (tx_ops height) txs)).
Proof.
  intros op (t & _ & Ho)%elem_of_tx_ops. apply tx_ops_cases in Ho as [->|(v & ->)]; cbn; do 2 eexists.
  - split; [left|reflexivity].
  - split; [right; left|reflexivity].
Qed.

Lemma write_unspents_prefixes m : on_prefixes [IX_Unspent] (write_unspents m).
Proof. apply on_prefixes_map. intros [h []]; cbn; do 2 eexists; (split; [left|reflexivity]). Qed.

Lemma write_owners_prefixes m : on_prefixes [IX_Unspent_UTXO] (write_owners m).
Proof. apply on_prefixes_map. intros [k []]; cbn; do 2 eexists; (split; [left|reflexivity]). Qed.

Lemma PersistUnspend_prefixes db b ops e : PersistUnspend db b = Some (ops, e) -> on_prefixes [IX_Unspent] ops.
Proof.
  unfold PersistUnspend. destruct (unspend_txs _ _ _) as [[m e']|]; cbn; [|done].
  case_match; intros [= <- <-]; [apply on_prefixes_nil|apply write_unspents_prefixes].
Qed.

Lemma PersistUnspendUTXOs_prefixes db b ops e :
  PersistUnspendUTXOs db b = Some (ops, e) -> on_prefixes [IX_Unspent_UTXO] ops.
Proof.
  unfold PersistUnspendUTXOs. destruct (own_txs _ _ _ _) as [[m e']|]; cbn; [|done].
  case_match; intros [= <- <-]; [apply on_prefixes_nil|apply write_owners_prefixes].
Qed.

(** The transactions of a block are written under their hashes. *)
Lemma tx_ops_last txs height t :
  t ∈ txs -> NoDup (map tx_hash_of txs) ->
  last_write (concat (map (tx_ops height) txs)) (hash_key DATA_Transaction (tx_hash_of t)) =
    Some (Some (WriteUint32 height ++ tx_enc t)).
Proof.
  intros Ht Hn.
  apply (last_write_unique _ (BatchPut (hash_key DATA_Transaction (tx_hash_of t)) (WriteUint32 height ++ tx_enc t)));
    [|done|].
  - apply list_elem_of_In, in_concat. exists (tx_ops height t). split; [|left; done].
    by apply in_map, list_elem_of_In.
  - intros op' (t' & Ht' & Ho)%elem_of_tx_ops Ek. apply tx_ops_cases in Ho as [->|(v & ->)]; [|done].
    cbn in Ek. injection Ek as Ek. enough (t' = t) as -> by done.
    apply list_elem_of_lookup in Ht as (i & Hi). apply list_elem_of_lookup in Ht' as (j & Hj).
    assert (i = j) as ->; [|congruence]. eapply (NoDup_lookup (map tx_hash_of txs)); [done|..].
    + rewrite list_lookup_fmap, Hi. reflexivity.
    + rewrite list_lookup_fmap, Hj. cbn. by rewrite Ek.
Qed.

(** A persisted block, key by key. *)
Lemma persist_get db b db' trimmed k :
  wf_Block b -> Trim b = Some trimmed -> persist db b = Some db' ->
  match k with p :: _ => p ∉ [IX_Unspent; IX_Unspent_UTXO] | [] => True end ->
  db_Get db' k =
    if decide ([SYS_CurrentBlock] = k) then Some (Block_Hash b ++ WriteUint32 (bd_Height (blk_data b)))
    else match last_write (concat (map (tx_ops (bd_Height (blk_data b))) (Transactions b))) k with
         | Some v => v
         | None =>
             if decide (height_key (bd_Height (blk_data b)) = k) then Some (Blockdata_Hash (blk_data b))
             else if decide (hash_key DATA_Header (Block_Hash b) = k) then Some (WriteUint64 0 ++ trimmed)
             else db_Get db k
         end.
Proof.
  intros W Et E Hk. unfold persist, persist_ops, PersistTrimmedBlock in E. rewrite Et in E.
  rewrite PersistTransactions_eq in E by apply W. cbn [mbind option_bind] in E.
  destruct (PersistUnspendUTXOs db b) as [[o4 e4]|] eqn:E4; [|done].
  destruct (PersistUnspend db b) as [[o5 e5]|] eqn:E5; [|done]. cbn [mbind option_bind] in E.
  injection E as <-. rewrite db_Get_Write.
  assert (last_write o4 k = None /\ last_write o5 k = None) as [N4 N5].
  { apply PersistUnspendUTXOs_prefixes in E4. apply PersistUnspend_prefixes in E5.
    destruct k as [|p k]; [split; apply last_write_none|].
    - intros op Ho Ek. destruct (E4 _ Ho) as (? & ? & _ & E'). congruence.
    - intros op Ho Ek. destruct (E5 _ Ho) as (? & ? & _ & E'). congruence.
    - split; eapply on_prefixes_none; try eassumption; intros ->%list_elem_of_singleton; apply Hk; [right|]; left. }
  cbn [PersistCurrentBlock PersistBlockHash fst app].
  rewrite !last_write_cons, !last_write_app, N4, N5. cbn [last_write op_key op_value].
  destruct (decide ([SYS_CurrentBlock] = k)); [done|]. destruct (last_write (concat _) k); [done|].
  by repeat case_decide.
Qed.

(** A header hash cached in a block is the hash of its header. *)
Definition hash_ok b : Prop := Block_Hash b = Blockdata_Hash (blk_data b).
End Persist.

Section Found.
Context {DB : Type} `{IStoreLaws DB} (db db' : DB) (b : Block).
Hypothesis (W : wf_Block b) (Hper : persist db b = Some db').

Lemma persist_get_header :
  exists trimmed, Trim b = Some trimmed /\
    db_Get db' (hash_key DATA_Header (Block_Hash b)) = Some (WriteUint64 0 ++ trimmed).
Proof.
  destruct (FromTrimmedData_reads b BytesReader [] W) as (trimmed & _ & Et & _).
  exists trimmed. split; [done|]. rewrite (persist_get db b db' trimmed); [|done..|].
  - rewrite decide_False by done. unfold hash_key at 1.
    rewrite (on_prefixes_none [DATA_Transaction; ST_Info]); [|apply tx_ops_prefixes|by_decision].
    rewrite decide_False, decide_True; done.
  - cbn. by_decision.
Qed.

Lemma persist_get_hash : db_Get db' (height_key (bd_Height (blk_data b))) = Some (Blockdata_Hash (blk_data b)).
Proof.
  destruct (FromTrimmedData_reads b BytesReader [] W) as (trimmed & _ & Et & _).
  rewrite (persist_get db b db' trimmed); [|done..|].
  - rewrite decide_False by done. unfold height_key at 1.
    rewrite (on_prefixes_none [DATA_Transaction; ST_Info]); [|apply tx_ops_prefixes|by_decision].
    by rewrite decide_True.
  - cbn. by_decision.
Qed.

Lemma persist_get_tx t : t ∈ Transactions b -> NoDup (map tx_hash_of (Transactions b)) ->
  db_Get db' (hash_key DATA_Transaction (tx_hash_of t)) = Some (WriteUint32 (bd_Height (blk_data b)) ++ tx_enc t).
Proof.
  intros Ht Hn. destruct (FromTrimmedData_reads b BytesReader [] W) as (trimmed & _ & Et & _).
  rewrite (persist_get db b db' trimmed); [|done..|].
  - rewrite decide_False by done. by rewrite tx_ops_last.
  - cbn. by_decision.
Qed.

Lemma persist_GetTransaction t : t ∈ Transactions b -> NoDup (map tx_hash_of (Transactions b)) ->
  store_GetTransaction db' (tx_hash_of t) = Some (Some t, bd_Height (blk_data b), None).
Proof.
  intros Ht Hn. unfold store_GetTransaction. rewrite persist_get_tx by done.
  assert (Wt : wf_Tx t) by (eapply list.Forall_forall; [apply W|done]).
  destruct (Tx_Deserialize_reads t Wt) as (enc & Es & R). unfold tx_enc. rewrite Es.
  rewrite ReadUint32_reads; [|apply W|exact I]. cbn [mbind option_bind is_err].
  rewrite <- (app_nil_r enc), R by exact I. done.
Qed.

Lemma persist_load_transactions txs : (forall t, t ∈ txs -> t ∈ Transactions b) ->
  NoDup (map tx_hash_of (Transactions b)) ->
  load_transactions db' (map (SetHash new_Transaction) (map tx_hash_of txs)) = Some (txs, None).
Proof.
  intros Hs Hn. induction txs as [|t txs IH]; [done|]. cbn [map load_transactions].
  change (Tx_Hash (SetHash new_Transaction (tx_hash_of t))) with (Some (tx_hash_of t)).
  cbn [mbind option_bind]. rewrite persist_GetTransaction by (done || apply Hs; left).
  cbn [mbind option_bind]. rewrite IH; [done|]. intros t' Ht'. apply Hs. by right.
Qed.

Lemma persist_GetBlockHash : Block_Hash b = Blockdata_Hash (blk_data b) ->
  GetBlockHash db' (bd_Height (blk_data b)) = (Block_Hash b, None).
Proof.
  intros ->. unfold GetBlockHash. rewrite persist_get_hash. unfold Uint256ParseFromBytes.
  by assert (length (Blockdata_Hash (blk_data b)) = 32%nat) as -> by apply wf_dsha256.
Qed.

(** The stored form of a block whose Merkle root is right. *)
Lemma persist_trimmed root :
  ComputeRoot (map tx_hash_of (Transactions b)) = Some (root, None) -> TransactionsRoot (blk_data b) = root ->
  exists trimmed r, db_Get db' (hash_key DATA_Header (Block_Hash b)) = Some (WriteUint64 0 ++ trimmed) /\
    FromTrimmedData new_Block (mkReader BytesReader trimmed) =
      Some ((mkBlock (blk_data b) (map (SetHash new_Transaction) (map tx_hash_of (Transactions b))) None, None), r).
Proof.
  intros Hr Hroot. destruct persist_get_header as (trimmed & Et & Eg).
  destruct (FromTrimmedData_reads b BytesReader [] W) as (trimmed' & root' & Et' & Hr' & Ed & _).
  rewrite Et in Et'. injection Et' as <-. rewrite Hr in Hr'. injection Hr' as <-. rewrite app_nil_r in Ed.
  assert (Eb : set_TransactionsRoot (blk_data b) root = blk_data b) by (rewrite <- Hroot; by destruct (blk_data b)).
  rewrite Eb in Ed. eauto.
Qed.

Lemma persist_GetBlock root :
  NoDup (map tx_hash_of (Transactions b)) ->
  ComputeRoot (map tx_hash_of (Transactions b)) = Some (root, None) -> TransactionsRoot (blk_data b) = root ->
  GetBlock db' (Block_Hash b) = Some (Some (mkBlock (blk_data b) (Transactions b) None), None).
Proof.
  intros Hn Hr Hroot. destruct (persist_trimmed root Hr Hroot) as (trimmed & r & Eg & Ed).
  unfold GetBlock. rewrite Eg, ReadUint64_reads by done. cbn [mbind option_bind is_err].
  rewrite Ed. cbn [mbind option_bind is_err Transactions]. by rewrite persist_load_transactions.
Qed.
End Found.

(** ** Rolling back *)

Lemma last_write_deletes ks k : last_write (map BatchDelete ks) k = if decide (k ∈ ks) then Some None else None.
Proof.
  case_decide as Hk.
  - apply (last_write_unique _ (BatchDelete k)); [apply list_elem_of_fmap; eauto|done|].
    intros op (k' & -> & _)%list_elem_of_fmap E. cbn in E. by subst.
  - apply last_write_none. intros op (k' & -> & Hk')%list_elem_of_fmap E. cbn in E. by subst.
Qed.

(** The keys of a transaction, and of a block, apart from the indexes. *)
Definition tx_keys (t : Transaction) : list bytes :=
  hash_key DATA_Transaction (tx_hash_of t) ::
  if TxType t =? RegisterAsset then [hash_key ST_Info (tx_hash_of t)] else [].
Definition block_keys (b : Block) : list bytes :=
  [hash_key DATA_Header (Block_Hash b); height_key (bd_Height (blk_data b))] ++ concat (map tx_keys (Transactions b)).
(** The keys outside the two unspent indexes and the current block. *)
Definition plain_key (k : bytes) : Prop :=
  k <> [SYS_CurrentBlock] /\ match k with p :: _ => p ∉ [IX_Unspent; IX_Unspent_UTXO] | [] => True end.

Lemma RollbackTransactions_eq txs :
  Forall wf_Tx txs -> RollbackTransactions txs = Some (map BatchDelete (concat (map tx_keys txs)), None).
Proof.
  induction 1 as [|t txs W _ IH]; [done|]. cbn [RollbackTransactions map concat]. rewrite IH.
  destruct (wf_Tx_Hash t W) as (h & Eh & _). unfold RollbackTransaction. rewrite Eh.
  assert (tx_hash_of t = h) as <- by (unfold tx_hash_of; by rewrite Eh).
  cbn [mbind option_bind]. unfold tx_keys. by destruct (TxType t =? RegisterAsset).
Qed.

Lemma tx_ops_keys height t : wf_Tx t -> map op_key (tx_ops height t) = tx_keys t.
Proof.
  intros [(p & Ep & _ & Et) _ _ _ _ _ _ _ _]. unfold tx_ops, tx_keys. rewrite Ep, Et. by destruct p.
Qed.

Lemma tx_ops_untouched height txs k : Forall wf_Tx txs -> k ∉ concat (map tx_keys txs) ->
  last_write (concat (map (tx_ops height) txs)) k = None.
Proof.
  intros Hw Hk. apply last_write_none. intros op (t & Ht & Ho)%elem_of_tx_ops <-. apply Hk.
  rewrite list_elem_of_In, in_concat. exists (tx_keys t). split; [by apply in_map, list_elem_of_In|].
  rewrite <- (tx_ops_keys height) by (eapply list.Forall_forall; eauto). by apply in_map, list_elem_of_In.
Qed.

Lemma plain_none ps ops k : on_prefixes ps ops -> (forall p, p ∈ ps -> p ∈ [IX_Unspent; IX_Unspent_UTXO]) ->
  plain_key k -> last_write ops k = None.
Proof.
  intros Ho Hps [_ Hk]. apply last_write_none. intros op Hin E. destruct (Ho op Hin) as (p & r & Hp & E').
  rewrite <- E, E' in Hk. by apply Hk, Hps.
Qed.

Section Rollback.
Context {DB : Type} `{IStoreLaws DB}.
Implicit Types (db : DB) (b : Block).

Lemma RollbackUnspend_prefixes db b ops e : RollbackUnspend db b = Some (ops, e) -> on_prefixes [IX_Unspent] ops.
Proof.
  unfold RollbackUnspend.
  assert (Hops : forall txs m o m' o' e', on_prefixes [IX_Unspent] o ->
            respend_txs db m o txs = Some (m', o', e') -> on_prefixes [IX_Unspent] o').
  { induction txs as [|t txs IH]; intros m o m' o' e' Ho E; cbn [respend_txs] in E; [by simplify_eq|].
    destruct (TxType t =? RegisterAsset); [by eapply IH|]. destruct (Tx_Hash t) as [h|]; [|done].
    cbn [mbind option_bind] in E.
    assert (Ho' : on_prefixes [IX_Unspent] (o ++ [BatchDelete (hash_key IX_Unspent h)])).
    { apply on_prefixes_app; [done|]. eapply on_prefixes_one; [reflexivity|left]. }
    destruct (if IsCoinBaseTx t then _ else _) as [m1 e1]. destruct (is_err e1); [by simplify_eq|by eapply IH]. }
  destruct (respend_txs _ _ _ _) as [[[m o] e']|] eqn:E; cbn; [|done].
  apply Hops in E; [|apply on_prefixes_nil].
  case_match; intros [= <- <-]; [done|]. apply on_prefixes_app; [done|apply write_unspents_prefixes].
Qed.

Lemma RollbackUnspendUTXOs_prefixes db b ops e :
  RollbackUnspendUTXOs db b = Some (ops, e) -> on_prefixes [IX_Unspent_UTXO] ops.
Proof.
  unfold RollbackUnspendUTXOs. destruct (unown_txs _ _ _ _) as [[m e']|]; cbn; [|done].
  case_match; intros [= <- <-]; [apply on_prefixes_nil|apply write_owners_prefixes].
Qed.

Lemma persist_untouched db b db' k :
  wf_Block b -> persist db b = Some db' -> plain_key k -> k ∉ block_keys b -> db_Get db' k = db_Get db k.
Proof.
  intros W E [Hs Hp] Hk. destruct (FromTrimmedData_reads b BytesReader [] W) as (trimmed & _ & Et & _).
  rewrite (persist_get db b db' trimmed k W Et E Hp), decide_False by congruence.
  unfold block_keys in Hk. rewrite tx_ops_untouched; [|apply W|intros Hi; apply Hk; do 2 right; exact Hi].
  rewrite !decide_False; [done| |]; intros <-; apply Hk; [left|right; left].
Qed.

Lemma rollback_get db b db' k :
  wf_Block b -> rollback_db db b = Some db' -> plain_key k ->
  db_Get db' k = if decide (k ∈ block_keys b) then None else db_Get db k.
Proof.
  intros W E Hk. unfold rollback_db, rollback_ops in E. rewrite RollbackTransactions_eq in E by apply W.
  cbn [mbind option_bind] in E.
  destruct (RollbackUnspendUTXOs db b) as [[o4 e4]|] eqn:E4; [|done].
  destruct (RollbackUnspend db b) as [[o5 e5]|] eqn:E5; [|done]. cbn [mbind option_bind] in E.
  injection E as <-. rewrite db_Get_Write.
  apply RollbackUnspendUTXOs_prefixes in E4. apply RollbackUnspend_prefixes in E5.
  assert (Hsub : forall p q, p ∈ [q] -> q ∈ [IX_Unspent; IX_Unspent_UTXO] -> p ∈ [IX_Unspent; IX_Unspent_UTXO])
    by (by intros p q ->%list_elem_of_singleton).
  pose proof (plain_none _ _ k E4 ltac:(intros; eapply Hsub; [done|by_decision]) Hk) as N4.
  pose proof (plain_none _ _ k E5 ltac:(intros; eapply Hsub; [done|by_decision]) Hk) as N5.
  cbn [RollbackCurrentBlock RollbackBlockHash RollbackTrimemedBlock fst app].
  rewrite !last_write_cons, !last_write_app, N4, N5, last_write_deletes. cbn [last_write op_key op_value].
  destruct Hk as [Hs _]. rewrite decide_False by congruence.
  unfold block_keys. cbn [app]. repeat case_decide; try done; set_solver.
Qed.

Lemma rollback_current db b db' :
  rollback_db db b = Some db' ->
  db_Get db' [SYS_CurrentBlock] =
    Some (PrevBlockHash (blk_data b) ++ WriteUint32 (uint32 (bd_Height (blk_data b) - 1))).
Proof.
  intros E. unfold rollback_db, rollback_ops in E.
  destruct (RollbackTransactions _) as [[o3 e3]|]; [|done]. cbn [mbind option_bind] in E.
  destruct (RollbackUnspendUTXOs db b) as [[o4 e4]|]; [|done].
  destruct (RollbackUnspend db b) as [[o5 e5]|]; [|done]. cbn [mbind option_bind] in E.
  injection E as <-. rewrite db_Get_Write. cbn [RollbackCurrentBlock fst app].
  by rewrite !last_write_cons, !last_write_app, last_write_cons, decide_True.
Qed.
End Rollback.

(** A block that can be read back: well-formed, with the hash and the Merkle
    root it states and no transaction twice. *)
Definition readable_block (b : Block) : Prop :=
  wf_Block b /\ Block_Hash b = Blockdata_Hash (blk_data b) /\ NoDup (map tx_hash_of (Transactions b)) /\
  ComputeRoot (map tx_hash_of (Transactions b)) = Some (TransactionsRoot (blk_data b), None).

(** * Properties *)

(** A persisted block is found again.  Whatever was in the store, once
    [persist] has committed a well-formed block (its transaction hashes distinct,
    its Merkle root right), [GetBlock] under its hash gives the block back,
    [GetBlockHash] maps its height to its hash, [IsBlockInStore] confirms it at
    that height, and every transaction is found under its hash with the height
    of the block. *)
Theorem persisted_block_found (DB : Type) (S : IStore DB) (L : IStoreLaws DB) (db db' : DB) (b : Block) (root : Uint256) :
  wf_Block b -> Block_Hash b = Blockdata_Hash (blk_data b) -> NoDup (map tx_hash_of (Transactions b)) ->
  ComputeRoot (map tx_hash_of (Transactions b)) = Some (root, None) -> TransactionsRoot (blk_data b) = root ->
  persist db b = Some db' ->
  GetBlock db' (Block_Hash b) = Some (Some (mkBlock (blk_data b) (Transactions b) None), None) /\
  GetBlockHash db' (bd_Height (blk_data b)) = (Block_Hash b, None) /\
  IsBlockInStore db' (bd_Height (blk_data b)) (Block_Hash b) = Some true /\
  Forall (fun t => IsTxHashDuplicate db' (tx_hash_of t) = true /\
            store_GetTransaction db' (tx_hash_of t) = Some (Some t, bd_Height (blk_data b), None)) (Transactions b).
Proof.
  intros W Hh Hn Hr Hroot E. split_and!.
  - by apply (persist_GetBlock db db' b W E root).
  - by apply (persist_GetBlockHash db db' b W E).
  - destruct (persist_trimmed db db' b W E root Hr Hroot) as (trimmed & r & Eg & Ed).
    unfold IsBlockInStore. rewrite Eg, ReadUint64_reads by done. cbn [mbind option_bind is_err].
    rewrite Ed. cbn. by rewrite Z.ltb_irrefl.
  - apply list.Forall_forall. intros t Ht. split; [|by apply (persist_GetTransaction db db' b W E)].
    unfold IsTxHashDuplicate. by rewrite (persist_get_tx db db' b W E).
Qed.

(** The sample block with its Merkle root filled in. *)
Definition stored_block : Block :=
  mkBlock (set_TransactionsRoot sample_bd (tx_hash_of sample_Coinbase)) [sample_Coinbase] None.

Lemma wf_stored_block : wf_Block stored_block.
Proof.
  destruct wf_sample_bd as [[Hp _] Hn Ha].
  constructor; [|constructor; [exact wf_sample_Coinbase|constructor]|discriminate|reflexivity].
  constructor; [split; [exact Hp|apply wf_tx_hash_of, wf_sample_Coinbase]|exact Hn|exact Ha].
Qed.

Lemma stored_block_persists :
  match persist (∅ : gmap bytes bytes) stored_block with Some _ => true | None => false end = true.
Proof. vm_compute. reflexivity. Qed.

Lemma persisted_block_found_witness :
  exists db' : gmap bytes bytes, persist ∅ stored_block = Some db' /\
    GetBlock db' (Block_Hash stored_block) = Some (Some stored_block, None).
Proof.
  pose proof stored_block_persists as P.
  destruct (persist (∅ : gmap bytes bytes) stored_block) as [db'|] eqn:E; [|discriminate P].
  exists db'. split; [reflexivity|].
  apply (persisted_block_found (gmap bytes bytes) _ _ ∅ db' stored_block (tx_hash_of sample_Coinbase)).
  - exact wf_stored_block.
  - reflexivity.
  - repeat constructor. by intros ?%elem_of_nil.
  - vm_compute. reflexivity.
  - reflexivity.
  - exact E.
Defined.

(** C12: Saving a block and rolling it back.  A block above the current height
    raises it and can be found; when the rollback task for its hash completes,
    the height and the current-block record point to its predecessor, none of
    the block's own entries (header, height, transactions, assets) is left, and
    every entry outside the unspent indexes that is not one of the block's is as
    it was before the block was saved.  A block not above the current height is
    ignored. *)
Theorem save_then_rollback (DB : Type) (S : IStore DB) (L : IStoreLaws DB) (cs cs1 cs2 : ChainStore DB)
    (b : Block) (root : Uint256) (best1 best2 : option Z) :
  wf_Block b -> Block_Hash b = Blockdata_Hash (blk_data b) -> NoDup (map tx_hash_of (Transactions b)) ->
  ComputeRoot (map tx_hash_of (Transactions b)) = Some (root, None) -> TransactionsRoot (blk_data b) = root ->
  0 <= currentBlockHeight cs -> handlePersistBlockTask cs b = Some (cs1, best1) ->
  (bd_Height (blk_data b) <= currentBlockHeight cs -> cs1 = cs /\ best1 = None) /\
  (currentBlockHeight cs < bd_Height (blk_data b) ->
   best1 = Some (bd_Height (blk_data b)) /\ GetHeight cs1 = bd_Height (blk_data b) /\
   GetCurrentBlockHash cs1 = Block_Hash b /\
   (handleRollbackBlockTask cs1 (Block_Hash b) = Some (cs2, best2) ->
    best2 = Some (bd_Height (blk_data b) - 1) /\ GetHeight cs2 = bd_Height (blk_data b) - 1 /\
    db_Get (cs_db cs2) [SYS_CurrentBlock] =
      Some (PrevBlockHash (blk_data b) ++ WriteUint32 (bd_Height (blk_data b) - 1)) /\
    (forall k, plain_key k ->
       db_Get (cs_db cs2) k = if decide (k ∈ block_keys b) then None else db_Get (cs_db cs) k))) .
Proof.
  intros W Hh Hn Hr Hroot H0 E. unfold handlePersistBlockTask in E. split; intros Hc.
  { destruct (Z.leb_spec (bd_Height (blk_data b)) (currentBlockHeight cs)); [by simplify_eq|lia]. }
  destruct (Z.leb_spec (bd_Height (blk_data b)) (currentBlockHeight cs)); [lia|].
  destruct (persist (cs_db cs) b) as [db'|] eqn:Ep; [|done]. cbn in E. injection E as <- <-.
  split_and!; [done|done| |].
  { unfold GetCurrentBlockHash. cbn. by rewrite (persist_GetBlockHash (cs_db cs) db' b W Ep). }
  intros R. unfold handleRollbackBlockTask in R.
  cbn [clearCache with_db with_headers cs_db] in R.
  rewrite (persist_GetBlock (cs_db cs) db' b W Ep root) in R by done. cbn [mbind option_bind blk_data] in R.
  set (b1 := mkBlock (blk_data b) (Transactions b) None) in R.
  assert (W1 : wf_Block b1) by (destruct W; by constructor).
  assert (Ek : block_keys b1 = block_keys b) by (unfold block_keys; by rewrite Hh).
  destruct (rollback_db db' b1) as [db2|] eqn:Er; [|done]. cbn in R. injection R as <- <-.
  assert (inU 32 (bd_Height (blk_data b))) as Hu by apply W. rewrite wrapU_id by lia.
  split_and!; [done|done| |].
  - cbn. rewrite (rollback_current db' b1 db2 Er). cbn. by rewrite wrapU_id by lia.
  - intros k Hk. cbn [with_db cs_db]. rewrite (rollback_get db' b1 db2 k W1 Er Hk), Ek.
    case_decide; [done|]. by apply (persist_untouched _ b).
Qed.

Definition stored_cs : ChainStore (gmap bytes bytes) := mkChainStore ∅ 0 [] ∅ ∅.

Lemma stored_block_rolls_back :
  match handlePersistBlockTask stored_cs stored_block with
  | Some (cs1, _) => match handleRollbackBlockTask cs1 (Block_Hash stored_block) with Some _ => true | None => false end
  | None => false
  end = true.
Proof. vm_compute. reflexivity. Qed.

Lemma save_then_rollback_witness :
  exists cs1 cs2, handlePersistBlockTask stored_cs stored_block = Some (cs1, Some 1) /\
    handleRollbackBlockTask cs1 (Block_Hash stored_block) = Some (cs2, Some 0) /\
    (forall k, plain_key k -> db_Get (cs_db cs2) k = None).
Proof.
  pose proof stored_block_rolls_back as P.
  destruct (handlePersistBlockTask stored_cs stored_block) as [[cs1 best1]|] eqn:E; [|discriminate P].
  destruct (handleRollbackBlockTask cs1 (Block_Hash stored_block)) as [[cs2 best2]|] eqn:R; [|discriminate P].
  destruct (save_then_rollback (gmap bytes bytes) _ _ stored_cs cs1 cs2 stored_block (tx_hash_of sample_Coinbase) best1 best2)
    as [_ B].
  - exact wf_stored_block.
  - reflexivity.
  - repeat constructor. by intros ?%elem_of_nil.
  - vm_compute. reflexivity.
  - reflexivity.
  - cbn. lia.
  - exact E.
  - destruct (B ltac:(cbn; lia)) as (-> & _ & _ & C). destruct (C R) as (-> & _ & _ & D).
    exists cs1, cs2. split_and!; [reflexivity|exact R|]. intros k Hk. rewrite (D k Hk). by case_decide.
Defined.
