(* ===== verification/StoreLoop.v ===== *)
(** The goroutine of [core/store/ChainStore/ChainStore.go] that owns the store.
    [SaveBlock], [RollbackBlock] and [AddHeaders] put a task in a channel of four and
    wait for the answer to it; the goroutine takes one task after the other, handles it
    and answers; [Close] puts a channel in another one and waits for that.  One writer
    goes around the channel: the handler of block messages calls
    [RemoveHeaderListElement] itself.  The model is a transition system whose steps
    are the communications and those calls, in any order the scheduler chooses.  A call of
    [RemoveHeaderListElement] is one step (it takes no lock, so that in the code it can
    also run in the middle of a task).  [InitLedgerStoreWithGenesisBlock]
    writes the store directly too, at start-up, before anybody sends a task: it makes the
    store the system starts from. *)

From S2P Require Import Prelude Sha256 Serialization Common Fixed64 Transaction Merkle AuxPow Block Store.

Section Loop.
Context {DB : Type} `{IStore DB}.

Definition TaskChanCap : nat := 4.

Inductive persistTask :=
  | persistHeaderTask (header : Blockdata)
  | rollbackBlockTask (blockHash : Uint256)
  | persistBlockTask (block : Block).
(** The store after a task, with the height the chain is told, if any.  [None]
    is a panic. *)
Definition handle_task (cs : ChainStore DB) (t : persistTask) : option (ChainStore DB * option Z) :=
  match t with
  | persistHeaderTask header => cs ← handlePersistHeaderTask cs header; Some (cs, None)
  | persistBlockTask block => handlePersistBlockTask cs block
  | rollbackBlockTask blockHash => handleRollbackBlockTask cs blockHash
  end.

(** A call has a number.  [sy_answer]: the caller the goroutine is about to
    answer; [sy_quit]: the calls of [Close] whose channel is in [quit]; [sy_again]:
    those that got their answer and call [Close] again.  The last three fields
    record what happened: the tasks sent and handled and the calls that have
    returned. *)
Record system := mkSystem {
  sy_store : ChainStore DB; sy_height : Z; taskCh : list (nat * persistTask); sy_answer : option nat;
  sy_quit : list nat; sy_again : list nat; sy_running : bool;
  sy_sent : list (nat * persistTask); sy_handled : list (nat * persistTask); sy_returned : list nat }.
Definition NewChainStore (cs : ChainStore DB) (height : Z) : system := mkSystem cs height [] None [] [] true [] [] [].

Inductive loop_step : system -> system -> Prop :=
  | step_call s c t : c ∉ map fst (sy_sent s) -> (length (taskCh s) < TaskChanCap)%nat ->
      loop_step s (mkSystem (sy_store s) (sy_height s) (taskCh s ++ [(c, t)]) (sy_answer s) (sy_quit s) (sy_again s) (sy_running s)
        (sy_sent s ++ [(c, t)]) (sy_handled s) (sy_returned s))
  | step_handle s c t q cs h : sy_running s = true -> sy_answer s = None -> taskCh s = (c, t) :: q -> handle_task (sy_store s) t = Some (cs, h) ->
      loop_step s (mkSystem cs (default (sy_height s) h) q (Some c) (sy_quit s) (sy_again s) true (sy_sent s) (sy_handled s ++ [(c, t)]) (sy_returned s))
  | step_remove_header s hash :
      loop_step s (mkSystem (RemoveHeaderListElement (sy_store s) hash) (sy_height s) (taskCh s) (sy_answer s) (sy_quit s) (sy_again s) (sy_running s)
        (sy_sent s) (sy_handled s) (sy_returned s))
  | step_answer s c : sy_running s = true -> sy_answer s = Some c ->
      loop_step s (mkSystem (sy_store s) (sy_height s) (taskCh s) None (sy_quit s) (sy_again s) true (sy_sent s) (sy_handled s) (sy_returned s ++ [c]))
  | step_close s c : sy_quit s = [] ->
      loop_step s (mkSystem (sy_store s) (sy_height s) (taskCh s) (sy_answer s) [c] (sy_again s) (sy_running s) (sy_sent s) (sy_handled s) (sy_returned s))
  | step_quit s c : sy_running s = true -> sy_answer s = None -> sy_quit s = [c] ->
      loop_step s (mkSystem (sy_store s) (sy_height s) (taskCh s) None [] (c :: sy_again s) false (sy_sent s) (sy_handled s) (sy_returned s))
  | step_close_again s c : sy_quit s = [] -> c ∈ sy_again s ->
      loop_step s (mkSystem (sy_store s) (sy_height s) (taskCh s) (sy_answer s) [c] (filter (fun d => d <> c) (sy_again s)) (sy_running s)
        (sy_sent s) (sy_handled s) (sy_returned s)).

(** What a task means for the database, the current height and the height the
    chain knows: headers do not matter. *)
Definition block_task (d : DB * Z * Z) (t : persistTask) : option (DB * Z * Z) :=
  let '(db, height, told) := d in
  match t with
  | persistHeaderTask _ => Some d
  | persistBlockTask b =>
      if bd_Height (blk_data b) <=? height then Some d
      else db ← persist db b; Some (db, bd_Height (blk_data b), bd_Height (blk_data b))
  | rollbackBlockTask hash =>
      '(b, e) ← GetBlock db hash;
      match b, e with
      | Some b, None => db ← rollback_db db b; Some (db, uint32 (bd_Height (blk_data b) - 1), uint32 (bd_Height (blk_data b) - 1))
      | _, _ => Some d
      end
  end.
(** Tasks one after the other, as in a program with a single thread. *)
Fixpoint run_tasks (d : DB * Z * Z) (ts : list persistTask) : option (DB * Z * Z) :=
  match ts with
  | [] => Some d
  | t :: ts => d ← block_task d t; run_tasks d ts
  end.
Definition data (s : system) : DB * Z * Z := (cs_db (sy_store s), currentBlockHeight (sy_store s), sy_height s).

Lemma run_tasks_app ts us : forall d, run_tasks d (ts ++ us) = (d ← run_tasks d ts; run_tasks d us).
Proof. induction ts as [|t ts IH]; intros d; [done|]. cbn. destruct (block_task d t); [apply IH|done]. Qed.

(** The handlers do that to the store, and only header tasks add to the list of
    headers. *)
Lemma handle_task_data cs told t cs' h : handle_task cs t = Some (cs', h) ->
  block_task (cs_db cs, currentBlockHeight cs, told) t = Some (cs_db cs', currentBlockHeight cs', default told h).
Proof.
  destruct t as [header|hash|b]; cbn [handle_task block_task].
  - unfold handlePersistHeaderTask. destruct (powVerifyHeader cs header) as [[]|]; [| |done]; by intros [= <- <-].
  - unfold handleRollbackBlockTask. destruct (GetBlock (cs_db cs) hash) as [[[b|] [e|]]|]; cbn; try by intros [= <- <-].
    destruct (rollback_db (cs_db cs) b); [|done]. by intros [= <- <-].
  - unfold handlePersistBlockTask. destruct (_ <=? _); [by intros [= <- <-]|].
    destruct (persist (cs_db cs) b); [|done]. by intros [= <- <-].
Qed.
Lemma remove_header_elem hash l x : x ∈ remove_header hash l -> x ∈ l.
Proof.
  induction l as [|h l IH]; [done|]. cbn. destruct (same_hash hash h); [by right|].
  intros [-> |Hx]%elem_of_cons; [left|right; auto].
Qed.
Lemma handle_task_headers cs t cs' h x : handle_task cs t = Some (cs', h) -> x ∈ headerIdx cs' ->
  x ∈ headerIdx cs \/ t = persistHeaderTask x.
Proof.
  destruct t as [header|hash|b]; cbn [handle_task].
  - unfold handlePersistHeaderTask. destruct (powVerifyHeader cs header) as [[]|]; [| |done]; intros [= <- <-]; [|by left].
    intros [Hx| ->%list_elem_of_singleton]%elem_of_app; [by left|by right].
  - unfold handleRollbackBlockTask. destruct (GetBlock (cs_db cs) hash) as [[[b|] [e|]]|]; cbn; try (intros [= <- <-]; by left).
    destruct (rollback_db (cs_db cs) b); [|done]. intros [= <- <-]. by left.
  - unfold handlePersistBlockTask. destruct (_ <=? _); [intros [= <- <-]; by left|].
    destruct (persist (cs_db cs) b); [|done]. intros [= <- <-] Hx%remove_header_elem. by left.
Qed.

(** What holds at any time. *)
Record serial (cs0 : ChainStore DB) (height0 : Z) (s : system) : Prop := {
  se_run : run_tasks (cs_db cs0, currentBlockHeight cs0, height0) (map snd (sy_handled s)) = Some (data s);
  se_headers : forall x, x ∈ headerIdx (sy_store s) -> x ∈ headerIdx cs0 \/ persistHeaderTask x ∈ map snd (sy_handled s);
  se_sent : sy_sent s = sy_handled s ++ taskCh s;
  se_returned : map fst (sy_handled s) = sy_returned s ++ match sy_answer s with Some c => [c] | None => [] end;
  se_calls : NoDup (map fst (sy_sent s));
  se_room : (length (taskCh s) <= TaskChanCap)%nat;
  se_stopped : sy_running s = false -> sy_answer s = None }.

Lemma serial_step cs0 height0 s s' : serial cs0 height0 s -> loop_step s s' -> serial cs0 height0 s'.
Proof.
  intros [R X S T N C D] St.
  destruct St as [s c t Hc Hl|s c t q cs h Hr Ha Hq Eh|s hash|s c Hr Ha|s c Hq|s c Hr Ha Hq|s c Hq Hag]; constructor; cbn; try done.
  - by rewrite S, app_assoc.
  - rewrite map_app. apply list.NoDup_app. split; [done|]. split; [|apply NoDup_singleton]. intros x Hx ->%list_elem_of_singleton. done.
  - rewrite length_app. cbn. lia.
  - rewrite map_app, run_tasks_app, R. cbn [mbind option_bind map run_tasks snd].
    unfold data. by rewrite (handle_task_data _ _ _ _ _ Eh).
  - intros x Hx. rewrite map_app. apply (handle_task_headers _ _ _ _ _ Eh) in Hx as [Hx| ->].
    + destruct (X x Hx); [by left|right; apply elem_of_app; by left].
    + right. apply elem_of_app. right. left.
  - by rewrite S, Hq, <- app_assoc.
  - rewrite map_app, T, Ha, app_nil_r. done.
  - rewrite Hq in C. cbn in C. lia.
  - intros x Hx%remove_header_elem. by apply X.
  - by rewrite T, Ha, app_nil_r.
  - by rewrite T, Ha.
Qed.
Lemma serial_reachable cs0 height0 s s' : rtc loop_step s s' -> serial cs0 height0 s -> serial cs0 height0 s'.
Proof. induction 1 as [|x y z Hs _ IH]; [done|]. intros Hx. apply IH. by eapply serial_step. Qed.
Lemma serial_start cs0 height0 : serial cs0 height0 (NewChainStore cs0 height0).
Proof. constructor; cbn; try done; [intros x Hx; by left|constructor|lia]. Qed.

Lemma persisted_data `{!IStoreLaws DB} db height told b db' height' told' :
  readable_block b -> height < bd_Height (blk_data b) ->
  block_task (db, height, told) (persistBlockTask b) = Some (db', height', told') ->
  GetBlock db' (Block_Hash b) = Some (Some (mkBlock (blk_data b) (Transactions b) None), None) /\
  GetBlockHash db' (bd_Height (blk_data b)) = (Block_Hash b, None) /\
  height' = bd_Height (blk_data b) /\ told' = bd_Height (blk_data b).
Proof.
  intros (W & Hh & Hn & Hr) Hl E. cbn [block_task] in E. rewrite (proj2 (Z.leb_gt _ _)) in E by done.
  destruct (persist db b) as [db1|] eqn:Ep; [|done]. injection E as <- <- <-. split_and!; [|by apply (persist_GetBlockHash db db1 b W Ep)|done|done].
  by apply (persist_GetBlock db db1 b W Ep (TransactionsRoot (blk_data b))).
Qed.


(** A closed store hangs its callers.  Once the goroutine has answered a call of
    [Close], that call, which goes on by calling itself, is still waiting
    whatever happens, nothing is handled any more, the database does not change and no
    call returns. *)
Theorem closed_store_hangs (s s' : system) : sy_running s = false -> rtc loop_step s s' ->
  sy_running s' = false /\ data s' = data s /\ sy_handled s' = sy_handled s /\ sy_returned s' = sy_returned s /\
  (forall c, c ∈ sy_quit s \/ c ∈ sy_again s -> c ∈ sy_quit s' \/ c ∈ sy_again s').
Proof.
  intros Hs R. induction R as [|x y z St _ IH]; [done|].
  assert (P : sy_running y = false /\ data y = data x /\ sy_handled y = sy_handled x /\ sy_returned y = sy_returned x /\
    (forall c, c ∈ sy_quit x \/ c ∈ sy_again x -> c ∈ sy_quit y \/ c ∈ sy_again y)).
  { destruct St as [s c t Hc Hl|s c t q cs h Hr Ha Hq Eh|s hash|s c Hr Ha|s c Hq|s c Hr Ha Hq|s c Hq Hag]; cbn; try congruence; split_and!; try done.
    - intros d [Hd|Hd]; [rewrite Hq in Hd; by apply elem_of_nil in Hd|by right].
    - intros d [Hd|Hd]; [rewrite Hq in Hd; by apply elem_of_nil in Hd|]. destruct (decide (d = c)) as [->|]; [left; by left|right]. by apply list_elem_of_filter. }
  destruct P as (P1 & P2 & P3 & P4 & P5). destruct (IH P1) as (Q1 & Q2 & Q3 & Q4 & Q5). split_and!; [done|congruence..|]. intros c Hc. by apply Q5, P5.
Qed.
End Loop.
Arguments system DB : clear implicits.

(** Two calls overtake neither each other nor their tasks, and a header is
    removed meanwhile; the first one saves a block. *)
Definition empty_cs : ChainStore (gmap bytes bytes) := mkChainStore ∅ 0 [] ∅ ∅.
Definition saving_tasks : list (nat * persistTask) :=
  [(1%nat, persistBlockTask stored_block); (2%nat, rollbackBlockTask (repeat 2 32))].
Definition saved_cs : ChainStore (gmap bytes bytes) :=
  match handlePersistBlockTask stored_cs stored_block with Some (cs, _) => cs | None => stored_cs end.
Definition busy_store : system (gmap bytes bytes) :=
  mkSystem saved_cs 1 [(2%nat, rollbackBlockTask (repeat 2 32))] None [] [] true
    saving_tasks [(1%nat, persistBlockTask stored_block)] [1%nat].
Lemma saved_cs_handled : handle_task stored_cs (persistBlockTask stored_block) = Some (saved_cs, Some 1).
Proof.
  assert (T : match handlePersistBlockTask stored_cs stored_block with Some (_, Some 1) => true | _ => false end = true) by (vm_compute; reflexivity).
  unfold saved_cs. cbn [handle_task]. destruct (handlePersistBlockTask _ _) as [[cs h]|]; [|done].
  destruct h as [[|[| |]|]|]; done.
Qed.
Lemma busy_store_reached : rtc loop_step (NewChainStore stored_cs 0) busy_store.
Proof.
  eapply rtc_l; [apply (step_call _ 1%nat (persistBlockTask stored_block)); [by apply not_elem_of_nil|unfold TaskChanCap; cbn [NewChainStore taskCh length]; lia]|].
  eapply rtc_l; [apply (step_call _ 2%nat (rollbackBlockTask (repeat 2 32))); [by intros ?%list_elem_of_singleton|unfold TaskChanCap; cbn [NewChainStore taskCh length app]; lia]|].
  eapply rtc_l; [apply (step_remove_header _ (repeat 3 32))|].
  eapply rtc_l; [eapply step_handle; [reflexivity|reflexivity|reflexivity|exact saved_cs_handled]|].
  eapply rtc_l; [eapply step_answer; reflexivity|]. apply rtc_refl.
Qed.
Definition closed_store : system (gmap bytes bytes) := mkSystem empty_cs 0 [] None [] [7%nat] false [] [] [].
Lemma closed_store_hangs_witness : exists s', rtc loop_step closed_store s' /\ 7%nat ∈ sy_quit s' /\ sy_returned s' = [].
Proof.
  assert (St : loop_step closed_store (mkSystem empty_cs 0 [] None [7%nat] [] false [] [] [])) by (apply (step_close_again closed_store 7); [reflexivity|left]).
  exists (mkSystem empty_cs 0 [] None [7%nat] [] false [] [] []). split; [by apply rtc_once|].
  destruct (closed_store_hangs closed_store _ eq_refl (rtc_once _ _ St)) as (_ & _ & _ & E & _). split; [left|exact E].
Defined.
