(* ===== verification/Utxo.v ===== *)
(** The unspent index of the chain store as a set of unspent outputs.

    [core/store/ChainStore/ChainData.go] keeps, per transaction hash, the list
    of its unspent output numbers and edits these lists in place.  Here the
    index is abstracted to the predicate "output [i] of transaction [h] is
    unspent", the effect of a block on it is specified transaction by
    transaction, and [PersistUnspend] and [RollbackUnspend] are shown to
    implement that effect and its inverse. *)

From S2P Require Import Prelude Sha256 Serialization Common Fixed64 Transaction Merkle AuxPow Block Store.

(** * Specification *)

Definition utxo_set := Uint256 -> Z -> bool.

Definition creates (t : Transaction) : utxo_set := fun h i =>
  bool_decide (h = tx_hash_of t) && (0 <=? i) && (i <? Z.of_nat (length (Outputs t))).
Definition spends (t : Transaction) : utxo_set := fun h i =>
  negb (IsCoinBaseTx t) &&
  existsb (fun j => bool_decide (ReferTxID j = h) && (ReferTxOutputIndex j =? i)) (UTXOInputs t).

(** A transaction creates its outputs and then uses up its inputs; an asset
    registration does neither. *)
Definition tx_effect (U : utxo_set) (t : Transaction) : utxo_set := fun h i =>
  if TxType t =? RegisterAsset then U h i else (U h i || creates t h i) && negb (spends t h i).
Definition block_effect (U : utxo_set) (txs : list Transaction) : utxo_set := foldl tx_effect U txs.

(** Every input is unspent when its transaction comes up, and is used once. *)
Fixpoint spendable (U : utxo_set) (txs : list Transaction) : Prop :=
  match txs with
  | [] => True
  | t :: txs =>
      (TxType t <> RegisterAsset -> IsCoinBaseTx t = false ->
       NoDup (map (fun j => (ReferTxID j, ReferTxOutputIndex j)) (UTXOInputs t)) /\
       Forall (fun j => U (ReferTxID j) (ReferTxOutputIndex j) || creates t (ReferTxID j) (ReferTxOutputIndex j) = true)
         (UTXOInputs t)) /\
      spendable (tx_effect U t) txs
  end.

Section Index.
Context {DB : Type} `{IStoreLaws DB}.
Implicit Types (db : DB) (m : gmap Uint256 (list Z)) (l : list Z).

Definition unspent (db : DB) : utxo_set := fun h i => fst (ContainsUnspent db h i).

Definition wf_list (l : list Z) : Prop := NoDup l /\ Forall (fun v => inU 16 v) l.
(** The lists of the index are those [ToByteArray] writes, without repetition. *)
Definition wf_index (db : DB) : Prop := forall h v, db_Get db (hash_key IX_Unspent h) = Some v ->
  exists l, v = ToByteArray l /\ l <> [] /\ wf_list l.

Definition mem (l : list Z) (i : Z) : bool := existsb (fun x => x =? i) l.
#[local] Arguments mem : simpl never.

Lemma mem_spec l i : mem l i = true <-> i ∈ l.
Proof.
  unfold mem. rewrite existsb_exists. split.
  - intros (x & Hx & ->%Z.eqb_eq). by apply list_elem_of_In.
  - intros Hi. exists i. split; [by apply list_elem_of_In|apply Z.eqb_refl].
Qed.

Lemma unspent_stored db h l : wf_list l -> db_Get db (hash_key IX_Unspent h) = Some (ToByteArray l) ->
  forall i, unspent db h i = mem l i.
Proof.
  intros [_ Hl] E i. unfold unspent, ContainsUnspent. rewrite E, GetUint16Array_ToByteArray by done. done.
Qed.

Lemma unspent_absent db h : db_Get db (hash_key IX_Unspent h) = None -> forall i, unspent db h i = false.
Proof. intros E i. unfold unspent, ContainsUnspent. by rewrite E. Qed.

(** ** The list edits *)

Lemma swap_remove_perm {A} (i : nat) (l : list A) x : l !! i = Some x -> x :: swap_remove i l ≡ₚ l.
Proof.
  intros Hi. assert (Hl : (i < length l)%nat) by (by eapply lookup_lt_Some).
  destruct l as [|y l' _] using rev_ind; [done|]. unfold swap_remove.
  rewrite length_app in *. cbn [length] in *.
  replace (length l' + 1 - 1)%nat with (length l') by lia. rewrite list_lookup_middle by done.
  destruct (decide (i = length l')) as [->|Hne].
  - rewrite list_lookup_middle in Hi by done. injection Hi as ->.
    rewrite list_insert_id by (by rewrite list_lookup_middle). rewrite take_app_length.
    by rewrite Permutation_app_comm.
  - rewrite lookup_app_l in Hi by lia. rewrite insert_app_l by lia.
    rewrite take_app_le by (rewrite length_insert; lia). rewrite take_ge by (rewrite length_insert; lia).
    apply list_elem_of_split_length in Hi as (l1 & l2 & -> & ->).
    rewrite insert_app_r_alt by lia. rewrite Nat.sub_diag. cbn [insert list_insert].
    rewrite (Permutation_app_comm _ [y]). cbn [app]. rewrite <- !Permutation_middle. apply perm_swap.
Qed.

Lemma remove_first_some {A} (f : A -> bool) (l l' : list A) : remove_first f l = Some l' ->
  exists x, f x = true /\ x :: l' ≡ₚ l.
Proof.
  unfold remove_first. destruct (list_find _ l) as [[i x]|] eqn:E; [|done]. intros [= <-].
  apply list_find_Some in E as (Hi & Hx & _). exists x. split; [done|]. by apply swap_remove_perm.
Qed.

Lemma remove_first_none {A} (f : A -> bool) (l : list A) : remove_first f l = None ->
  forall x, x ∈ l -> f x = false.
Proof.
  unfold remove_first. destruct (list_find _ l) as [[i x]|] eqn:E; [done|]. intros _ x Hx.
  apply list_find_None in E. rewrite list.Forall_forall in E. by apply not_true_is_false, E.
Qed.

Lemma remove_first_spec l i : wf_list l ->
  let l' := default l (remove_first (Z.eqb i) l) in
  wf_list l' /\ forall j, mem l' j = mem l j && negb (i =? j).
Proof.
  intros [Hn Hu]. destruct (remove_first (Z.eqb i) l) as [l'|] eqn:E; cbn.
  - apply remove_first_some in E as (x & <-%Z.eqb_eq & P). rewrite <- P in Hn, Hu.
    apply list.NoDup_cons in Hn as [Hni Hn]. apply list.Forall_cons in Hu as [_ Hu]. split; [done|].
    intros j. apply eq_true_iff_eq. rewrite andb_true_iff, negb_true_iff, Z.eqb_neq, !mem_spec, <- P, elem_of_cons.
    split.
    + intros Hj. split; [by right|]. by intros <-.
    + by intros [[->|Hj] Hne].
  - split; [done|]. intros j. pose proof (remove_first_none _ _ E j) as Hj.
    destruct (mem l j) eqn:Em; [|done]. apply mem_spec in Em. by rewrite Hj.
Qed.

(** ** Simulation: the map of edited lists over the stored index *)

Record sim (db : DB) (created : list Uint256) (m : gmap Uint256 (list Z)) (U : utxo_set) : Prop := {
  sim_wf : forall h l, m !! h = Some l -> wf_list l;
  sim_dom : forall h l, m !! h = Some l -> h ∈ created \/ db_Get db (hash_key IX_Unspent h) <> None;
  sim_set : forall h i, U h i = match m !! h with Some l => mem l i | None => unspent db h i end }.

Lemma sim_init db : sim db [] ∅ (unspent db).
Proof. constructor; intros h; rewrite lookup_empty; done. Qed.

(** Replacing one list. *)
Lemma sim_insert db C C' m U U' h l :
  sim db C m U -> wf_list l -> (forall x, x ∈ C -> x ∈ C') ->
  h ∈ C' \/ db_Get db (hash_key IX_Unspent h) <> None ->
  (forall i, U' h i = mem l i) -> (forall h' i, h' <> h -> U' h' i = U h' i) ->
  sim db C' (<[h := l]> m) U'.
Proof.
  intros [S1 S2 S3] Hl HC Hh Hi Hne. constructor.
  - intros h' l'. destruct (decide (h = h')) as [->|N].
    + rewrite lookup_insert_eq. by intros [= <-].
    + rewrite lookup_insert_ne by done. apply S1.
  - intros h' l'. destruct (decide (h = h')) as [->|N]; [done|].
    rewrite lookup_insert_ne by done. intros E. apply S2 in E as [E|E]; auto.
  - intros h' i. destruct (decide (h = h')) as [->|N].
    + by rewrite lookup_insert_eq.
    + rewrite lookup_insert_ne by done. rewrite Hne by done. apply S3.
Qed.

Lemma outputs_list n : Z.of_nat n <= 2 ^ 16 ->
  wf_list (map (fun i => uint16 (Z.of_nat i)) (seq 0 n)) /\
  forall i, mem (map (fun i => uint16 (Z.of_nat i)) (seq 0 n)) i = (0 <=? i) && (i <? Z.of_nat n).
Proof.
  intros Hn.
  replace (map (fun i => uint16 (Z.of_nat i)) (seq 0 n)) with (map Z.of_nat (seq 0 n)).
  2:{ apply map_ext_in. intros k Hk%in_seq. rewrite wrapU_id; lia. }
  split; [split|].
  - apply NoDup_fmap_2; [intros ???; lia|]. apply NoDup_seq.
  - apply list.Forall_forall. intros x (k & -> & Hk)%list_elem_of_fmap. apply list_elem_of_In, in_seq in Hk. lia.
  - intros i. apply eq_true_iff_eq. rewrite mem_spec, andb_true_iff, Z.leb_le, Z.ltb_lt. split.
    + intros (k & -> & Hk)%list_elem_of_fmap. apply list_elem_of_In, in_seq in Hk. lia.
    + intros Hi. apply list_elem_of_fmap. exists (Z.to_nat i). split; [lia|]. apply list_elem_of_In, in_seq. lia.
Qed.

Lemma add_outputs_sim db C m U t :
  sim db C m U -> tx_hash_of t ∉ C -> db_Get db (hash_key IX_Unspent (tx_hash_of t)) = None ->
  Z.of_nat (length (Outputs t)) <= 2 ^ 16 ->
  sim db (tx_hash_of t :: C) (add_outputs m (tx_hash_of t) (length (Outputs t)))
    (fun h i => U h i || creates t h i).
Proof.
  intros S HC Hdb Hn. pose proof (outputs_list _ Hn) as [Hw Hm].
  assert (Em : m !! tx_hash_of t = None).
  { destruct (m !! tx_hash_of t) eqn:E; [|done]. by apply (sim_dom _ _ _ _ S) in E as []. }
  assert (EU : forall i, U (tx_hash_of t) i = false).
  { intros i. rewrite (sim_set _ _ _ _ S), Em. by apply unspent_absent. }
  destruct (length (Outputs t)) as [|n] eqn:El.
  - cbn [add_outputs]. destruct S as [S1 S2 S3]. constructor; [done| |].
    + intros h l E. apply S2 in E as [E|E]; [left; by right|by right].
    + intros h i. rewrite <- S3. unfold creates. rewrite El.
      destruct (Z.leb_spec 0 i), (Z.ltb_spec i (Z.of_nat 0)); try lia; by rewrite ?andb_false_r, orb_false_r.
  - unfold add_outputs. rewrite Em. change (default [] None ++ ?l) with l.
    eapply sim_insert; [exact S|exact Hw|by right|left; left| |].
    + intros i. rewrite EU, Hm. unfold creates. by rewrite bool_decide_true, El by done.
    + intros h' i Hne. unfold creates. by rewrite bool_decide_false, orb_false_r by done.
Qed.

(** [U] without one output. *)
Definition without (U : utxo_set) (j : UTXOTxInput) : utxo_set := fun h i =>
  U h i && negb (bool_decide (ReferTxID j = h) && (ReferTxOutputIndex j =? i)).

Lemma unspend_input_sim db C m U j :
  wf_index db -> sim db C m U -> U (ReferTxID j) (ReferTxOutputIndex j) = true ->
  exists m', unspend_input db m j = (m', None) /\ sim db C m' (without U j).
Proof.
  intros Wi S HU. unfold unspend_input.
  assert (exists l, (match m !! ReferTxID j with
     | Some l => (l, None)
     | None => match db_Get db (hash_key IX_Unspent (ReferTxID j)) with
               | None => ([], Some ErrDBNotFound) | Some v => GetUint16Array (Some v) end end) = (l, None) /\
     wf_list l /\ (ReferTxID j ∈ C \/ db_Get db (hash_key IX_Unspent (ReferTxID j)) <> None) /\
     forall i, U (ReferTxID j) i = mem l i) as (l & -> & Wl & Hd & Hl).
  { pose proof (sim_set _ _ _ _ S (ReferTxID j)) as HS. destruct (m !! ReferTxID j) as [l|] eqn:E.
    - exists l. split_and!; [done|by apply (sim_wf _ _ _ _ S) in E|by apply (sim_dom _ _ _ _ S) in E|done].
    - destruct (db_Get db (hash_key IX_Unspent (ReferTxID j))) as [v|] eqn:Ev.
      + destruct (Wi _ _ Ev) as (l & -> & _ & Wl). exists l. split_and!; [|done|by right|].
        * by apply GetUint16Array_ToByteArray, Wl.
        * intros i. rewrite HS. by apply unspent_stored.
      + rewrite HS, unspent_absent in HU; done. }
  cbn [is_err]. eexists. split; [reflexivity|].
  destruct (remove_first_spec l (ReferTxOutputIndex j) Wl) as [Wl' Hl'].
  eapply sim_insert; [exact S|exact Wl'|done|exact Hd| |].
  - intros i. rewrite Hl'. unfold without. by rewrite Hl, bool_decide_true.
  - intros h' i Hne. unfold without. by rewrite bool_decide_false, andb_true_r by congruence.
Qed.

Lemma sim_ext db C m U U' : sim db C m U -> (forall h i, U h i = U' h i) -> sim db C m U'.
Proof. intros [S1 S2 S3] E. constructor; [done|done|]. intros h i. by rewrite <- E. Qed.

Lemma unspend_inputs_sim db C m U ins :
  wf_index db -> sim db C m U ->
  NoDup (map (fun j => (ReferTxID j, ReferTxOutputIndex j)) ins) ->
  Forall (fun j => U (ReferTxID j) (ReferTxOutputIndex j) = true) ins ->
  exists m', unspend_inputs db m ins = (m', None) /\
    sim db C m' (fun h i => U h i &&
      negb (existsb (fun j => bool_decide (ReferTxID j = h) && (ReferTxOutputIndex j =? i)) ins)).
Proof.
  intros Wi. revert m U. induction ins as [|j ins IH]; intros m U S Hn HU.
  - exists m. split; [done|]. eapply sim_ext; [exact S|]. intros. cbn. by rewrite andb_true_r.
  - cbn [map] in Hn. apply list.NoDup_cons in Hn as [Hni Hn]. apply list.Forall_cons in HU as [Hj HU].
    destruct (unspend_input_sim db C m U j Wi S Hj) as (m1 & E1 & S1). cbn [unspend_inputs]. rewrite E1.
    cbn [is_err]. destruct (IH m1 (without U j) S1 Hn) as (m2 & E2 & S2).
    { apply list.Forall_forall. intros j' Hj'. rewrite list.Forall_forall in HU. unfold without.
      rewrite HU by done. cbn [andb]. apply negb_true_iff, andb_false_iff.
      destruct (decide (ReferTxID j = ReferTxID j')) as [e|]; [|left; by apply bool_decide_false].
      right. apply Z.eqb_neq. intros e'. apply Hni, list_elem_of_fmap. exists j'. by rewrite e, e'. }
    exists m2. split; [done|]. eapply sim_ext; [exact S2|]. intros h i. unfold without. cbn [existsb].
    by rewrite negb_orb, andb_assoc.
Qed.

(** What a block needs of the store: its outputs are new and can be numbered. *)
Definition fresh_txs (db : DB) (txs : list Transaction) : Prop :=
  NoDup (map tx_hash_of txs) /\
  Forall (fun t => db_Get db (hash_key IX_Unspent (tx_hash_of t)) = None /\
                   Z.of_nat (length (Outputs t)) <= 2 ^ 16) txs.

Lemma unspend_txs_sim db C m U txs :
  wf_index db -> sim db C m U -> Forall wf_Tx txs -> fresh_txs db txs ->
  (forall t, t ∈ txs -> tx_hash_of t ∉ C) -> spendable U txs ->
  exists m' C', unspend_txs db m txs = Some (m', None) /\ sim db C' m' (block_effect U txs).
Proof.
  intros Wi. revert C m U. induction txs as [|t txs IH]; intros C m U S Hw [Hn Hf] HC Hsp; [by exists m, C|].
  apply list.Forall_cons in Hw as [Wt Hw]. cbn [map] in Hn. apply list.NoDup_cons in Hn as [Hni Hn].
  apply list.Forall_cons in Hf as [[Hdb Hlen] Hf]. destruct Hsp as [Hin Hsp].
  cbn [unspend_txs block_effect foldl]. fold (block_effect (tx_effect U t) txs).
  destruct (Z.eqb_spec (TxType t) RegisterAsset) as [Er|Er].
  { apply (IH C m); [|done|done| |done].
    - eapply sim_ext; [exact S|]. intros. unfold tx_effect. by rewrite Er.
    - intros t' Ht'. apply HC. by right. }
  destruct (wf_Tx_Hash t Wt) as (h & Eh & _). assert (tx_hash_of t = h) as Eth by (unfold tx_hash_of; by rewrite Eh).
  rewrite Eh. cbn [mbind option_bind]. rewrite <- Eth in *.
  pose proof (add_outputs_sim db C m U t S ltac:(apply HC; left) Hdb Hlen) as S1.
  assert (exists m2, (if IsCoinBaseTx t then (add_outputs m (tx_hash_of t) (length (Outputs t)), None)
                      else unspend_inputs db (add_outputs m (tx_hash_of t) (length (Outputs t))) (UTXOInputs t)) =
                     (m2, None) /\ sim db (tx_hash_of t :: C) m2 (tx_effect U t)) as (m2 & -> & S2).
  { destruct (IsCoinBaseTx t) eqn:Ec.
    - eexists. split; [reflexivity|]. eapply sim_ext; [exact S1|]. intros. unfold tx_effect, spends.
      rewrite Ec. destruct (Z.eqb_spec (TxType t) RegisterAsset); [done|]. cbn. by rewrite andb_true_r.
    - destruct (Hin Er eq_refl) as [Hnd HU].
      destruct (unspend_inputs_sim db _ _ _ _ Wi S1 Hnd HU) as (m2 & E2 & S2). exists m2. split; [done|].
      eapply sim_ext; [exact S2|]. intros. unfold tx_effect, spends. rewrite Ec.
      by destruct (Z.eqb_spec (TxType t) RegisterAsset). }
  cbn [is_err]. apply (IH (tx_hash_of t :: C)); [done|done|done| |done].
  intros t' Ht' [E|E]%elem_of_cons.
  - apply Hni. rewrite <- E. apply list_elem_of_fmap. eauto.
  - by apply (HC t'); [right|].
Qed.

Definition unspent_op (h : Uint256) (l : list Z) : batch_op :=
  match l with
  | [] => BatchDelete (hash_key IX_Unspent h)
  | _ => BatchPut (hash_key IX_Unspent h) (ToByteArray l)
  end.

Lemma write_unspents_get m h :
  last_write (write_unspents m) (hash_key IX_Unspent h) =
    match m !! h with Some l => Some (op_value (unspent_op h l)) | None => None end.
Proof.
  unfold write_unspents. rewrite <- (last_write_map unspent_op (hash_key IX_Unspent) m h).
  - f_equal.
  - by intros k [].
  - intros k' v _. by intros [= ->].
Qed.

(** The index after a map of lists has been written over it. *)
Lemma commit_sim db C m U ops :
  wf_index db -> sim db C m U ->
  (forall h, last_write ops (hash_key IX_Unspent h) =
     match m !! h with Some l => Some (op_value (unspent_op h l)) | None => None end) ->
  wf_index (db_Write db ops) /\ forall h i, unspent (db_Write db ops) h i = U h i.
Proof.
  intros Wi S Ho.
  assert (Hg : forall h, db_Get (db_Write db ops) (hash_key IX_Unspent h) =
     match m !! h with Some l => op_value (unspent_op h l) | None => db_Get db (hash_key IX_Unspent h) end).
  { intros h. rewrite db_Get_Write, Ho. by destruct (m !! h). }
  split.
  - intros h v. rewrite Hg. destruct (m !! h) as [[|x l]|] eqn:E; [done| |apply Wi].
    cbn. intros [= <-]. exists (x :: l). split_and!; [done|done|]. by apply (sim_wf _ _ _ _ S) in E.
  - intros h i. rewrite (sim_set _ _ _ _ S). pose proof (Hg h) as Hh. destruct (m !! h) as [l|] eqn:E.
    + destruct l as [|x l]; [by apply unspent_absent|]. apply unspent_stored; [|done].
      by apply (sim_wf _ _ _ _ S) in E.
    + unfold unspent, ContainsUnspent. by rewrite Hh.
Qed.

Lemma PersistUnspend_refines db b :
  wf_index db -> Forall wf_Tx (Transactions b) -> fresh_txs db (Transactions b) ->
  spendable (unspent db) (Transactions b) ->
  exists ops, PersistUnspend db b = Some (ops, None) /\ wf_index (db_Write db ops) /\
    forall h i, unspent (db_Write db ops) h i = block_effect (unspent db) (Transactions b) h i.
Proof.
  intros Wi Hw Hf Hs.
  destruct (unspend_txs_sim db [] ∅ (unspent db) (Transactions b) Wi (sim_init db) Hw Hf) as (m & C & E & S).
  - intros t _. by intros ?%elem_of_nil.
  - done.
  - exists (write_unspents m). unfold PersistUnspend. rewrite E. split; [done|].
    eapply commit_sim; [done|exact S|apply write_unspents_get].
Qed.

(** ** Rolling back *)

Definition spending_inputs (t : Transaction) : list UTXOTxInput :=
  if (TxType t =? RegisterAsset) || IsCoinBaseTx t then [] else UTXOInputs t.
Definition all_inputs (txs : list Transaction) : list UTXOTxInput := concat (map spending_inputs txs).
Definition among (ins : list UTXOTxInput) : utxo_set := fun h i =>
  existsb (fun j => bool_decide (ReferTxID j = h) && (ReferTxOutputIndex j =? i)) ins.
Definition outpoint (j : UTXOTxInput) : Uint256 * Z := (ReferTxID j, ReferTxOutputIndex j).

Lemma among_spec ins h i : among ins h i = true <-> (h, i) ∈ map outpoint ins.
Proof.
  unfold among. rewrite existsb_exists, list_elem_of_fmap. split.
  - intros (j & Hj & [E1%bool_decide_eq_true E2%Z.eqb_eq]%andb_true_iff). exists j. split; [|by apply list_elem_of_In].
    unfold outpoint. by rewrite E1, E2.
  - intros (j & [= -> ->] & Hj). exists j. split; [by apply list_elem_of_In|].
    by rewrite bool_decide_true, Z.eqb_refl.
Qed.

(** The hashes whose entries a block creates. *)
Definition created_hashes (txs : list Transaction) : list Uint256 :=
  map tx_hash_of (filter (fun t => TxType t <> RegisterAsset) txs).

Lemma not_created_cons h t txs : h ∉ created_hashes (t :: txs) ->
  (TxType t <> RegisterAsset -> h <> tx_hash_of t) /\ h ∉ created_hashes txs.
Proof.
  unfold created_hashes. rewrite filter_cons. case_decide as D; [|tauto].
  cbn [map]. intros [N1 N2]%not_elem_of_cons. by split.
Qed.

Lemma tx_effect_elsewhere U t h i : (TxType t <> RegisterAsset -> h <> tx_hash_of t) ->
  tx_effect U t h i = U h i && negb (among (spending_inputs t) h i).
Proof.
  intros Hh. unfold tx_effect, spending_inputs, creates, spends.
  destruct (Z.eqb_spec (TxType t) RegisterAsset); cbn [orb]; [cbn; by rewrite andb_true_r|].
  rewrite bool_decide_false by auto. destruct (IsCoinBaseTx t); cbn [negb andb]; by rewrite orb_false_r.
Qed.

Lemma among_app ins ins' h i : among (ins ++ ins') h i = among ins h i || among ins' h i.
Proof. apply existsb_app. Qed.

Lemma block_effect_elsewhere U txs h i : h ∉ created_hashes txs ->
  block_effect U txs h i = U h i && negb (among (all_inputs txs) h i).
Proof.
  revert U. induction txs as [|t txs IH]; intros U Hh; [cbn; by rewrite andb_true_r|].
  apply not_created_cons in Hh as [H1 H2].
  cbn [block_effect foldl]. fold (block_effect (tx_effect U t) txs). rewrite IH, tx_effect_elsewhere by done.
  unfold all_inputs. cbn [map concat]. by rewrite among_app, negb_orb, andb_assoc.
Qed.

(** Inputs of a spendable block that come from outside it. *)
Lemma spendable_inputs U txs :
  spendable U txs -> Forall (fun j => ReferTxID j ∉ created_hashes txs) (all_inputs txs) ->
  NoDup (map outpoint (all_inputs txs)) /\
  Forall (fun j => U (ReferTxID j) (ReferTxOutputIndex j) = true) (all_inputs txs).
Proof.
  revert U. induction txs as [|t txs IH]; intros U Hs Ho; [split; constructor|].
  destruct Hs as [Hin Hs]. unfold all_inputs in *. cbn [map concat] in *. fold (all_inputs txs) in *.
  apply list.Forall_app in Ho as [Ho1 Ho2].
  destruct (IH _ Hs) as [Hn HU]; [eapply list.Forall_impl; [exact Ho2|by intros j [_ ?]%not_created_cons]|].
  assert (Hrest : Forall (fun j => U (ReferTxID j) (ReferTxOutputIndex j) = true /\
                                   outpoint j ∉ map outpoint (spending_inputs t)) (all_inputs txs)).
  { apply list.Forall_forall. intros j Hj. rewrite list.Forall_forall in HU, Ho2.
    specialize (HU j Hj). specialize (Ho2 j Hj). apply not_created_cons in Ho2 as [Hne _].
    rewrite tx_effect_elsewhere in HU by done. apply andb_true_iff in HU as [HU Ha]. split; [done|].
    intros Hi. apply negb_true_iff in Ha. by rewrite (proj2 (among_spec _ _ _) Hi) in Ha. }
  assert (Ht : NoDup (map outpoint (spending_inputs t)) /\
               Forall (fun j => U (ReferTxID j) (ReferTxOutputIndex j) = true) (spending_inputs t)).
  { unfold spending_inputs in *. destruct (Z.eqb_spec (TxType t) RegisterAsset); [split; constructor|].
    destruct (IsCoinBaseTx t) eqn:Ec; [split; constructor|]. cbn [orb] in *.
    destruct (Hin n eq_refl) as [Hnd HF]. split; [exact Hnd|]. rewrite list.Forall_forall in HF, Ho1 |- *.
    intros j Hj. specialize (HF j Hj). specialize (Ho1 j Hj). apply not_created_cons in Ho1 as [Hne _].
    unfold creates in HF. rewrite bool_decide_false in HF by auto. by rewrite orb_false_r in HF. }
  split.
  - rewrite map_app. apply list.NoDup_app. split_and!; [apply Ht| |done].
    intros x Hx (j & -> & Hj)%list_elem_of_fmap. rewrite list.Forall_forall in Hrest. by apply (Hrest j Hj).
  - apply list.Forall_app. split; [apply Ht|]. eapply list.Forall_impl; [exact Hrest|]. by intros j [].
Qed.

Lemma respend_input_sim db C m U j :
  wf_index db -> sim db C m U -> U (ReferTxID j) (ReferTxOutputIndex j) = false ->
  inU 16 (ReferTxOutputIndex j) ->
  exists m', respend_input db m j = (m', None) /\
    sim db (ReferTxID j :: C) m' (fun h i => U h i || among [j] h i) /\
    (forall h, h <> ReferTxID j -> m' !! h = m !! h).
Proof.
  intros Wi S HU Hi. unfold respend_input.
  assert (exists m1 l, (match m !! ReferTxID j with
     | Some _ => (m, None)
     | None => match db_Get db (hash_key IX_Unspent (ReferTxID j)) with
               | None | Some [] => (m, None)
               | Some v => let '(l, e) := GetUint16Array (Some v) in (<[ReferTxID j := l]> m, e) end end) = (m1, None) /\
     default [] (m1 !! ReferTxID j) = l /\ wf_list l /\ (forall i, U (ReferTxID j) i = mem l i) /\
     (forall h, h <> ReferTxID j -> m1 !! h = m !! h)) as (m1 & l & -> & El & Wl & Hl & Hm).
  { pose proof (sim_set _ _ _ _ S (ReferTxID j)) as HS. destruct (m !! ReferTxID j) as [l|] eqn:E.
    - exists m, l. rewrite E. split_and!; [done|done|by apply (sim_wf _ _ _ _ S) in E|done|done].
    - destruct (db_Get db (hash_key IX_Unspent (ReferTxID j))) as [v|] eqn:Ev.
      + destruct (Wi _ _ Ev) as (l & -> & Hne & Wl). pose proof (length_ToByteArray l) as Hlen.
        destruct (ToByteArray l) as [|x v] eqn:Et; [destruct l; [done|cbn in Hlen; lia]|]. rewrite <- Et in *.
        rewrite GetUint16Array_ToByteArray by apply Wl. do 2 eexists. split; [reflexivity|].
        rewrite lookup_insert_eq. split_and!; [reflexivity|done| |by intros; apply lookup_insert_ne].
        intros i. rewrite HS. by apply unspent_stored.
      + exists m, []. rewrite E. split_and!; [done|done|split; constructor| |done].
        intros i. rewrite HS. by apply unspent_absent. }
  cbn [is_err]. rewrite El. eexists. split; [reflexivity|]. split.
  2:{ intros h Hh. rewrite lookup_insert_ne by done. by apply Hm. }
  assert (S1 : sim db (ReferTxID j :: C) (<[ReferTxID j := l ++ [ReferTxOutputIndex j]]> m)
                 (fun h i => U h i || among [j] h i)).
  { eapply sim_insert; [exact S| |by right|left; left| |].
    - destruct Wl as [Wn Wu]. split.
      + apply list.NoDup_app. split_and!; [done| |apply NoDup_singleton]. intros x Hx ->%list_elem_of_singleton.
        apply mem_spec in Hx. rewrite <- Hl in Hx. congruence.
      + apply list.Forall_app. split; [done|]. constructor; [done|constructor].
    - intros i. rewrite Hl. unfold mem, among. rewrite existsb_app. cbn. by rewrite bool_decide_true, !orb_false_r.
    - intros h' i Hne. cbn. by rewrite bool_decide_false, orb_false_r by congruence. }
  destruct S1 as [T1 T2 T3].
  assert (Hins : <[ReferTxID j := l ++ [ReferTxOutputIndex j]]> m1 = <[ReferTxID j := l ++ [ReferTxOutputIndex j]]> m).
  { apply map_eq. intros h. destruct (decide (ReferTxID j = h)) as [<-|N]; [by rewrite !lookup_insert_eq|].
    rewrite !lookup_insert_ne by done. by apply Hm. }
  rewrite Hins. by constructor.
Qed.

Lemma respend_inputs_sim db C m U ins :
  wf_index db -> sim db C m U -> NoDup (map outpoint ins) ->
  Forall (fun j => U (ReferTxID j) (ReferTxOutputIndex j) = false /\ inU 16 (ReferTxOutputIndex j)) ins ->
  exists m' C', respend_inputs db m ins = (m', None) /\ sim db C' m' (fun h i => U h i || among ins h i) /\
    (forall h, h ∉ map ReferTxID ins -> m' !! h = m !! h).
Proof.
  intros Wi. revert C m U. induction ins as [|j ins IH]; intros C m U S Hn HU.
  - exists m, C. split_and!; [done| |done]. eapply sim_ext; [exact S|]. intros. cbn. by rewrite orb_false_r.
  - cbn [map] in Hn. apply list.NoDup_cons in Hn as [Hni Hn]. apply list.Forall_cons in HU as [[Hj Hu] HU].
    destruct (respend_input_sim db C m U j Wi S Hj Hu) as (m1 & E1 & S1 & D1). cbn [respend_inputs]. rewrite E1.
    cbn [is_err]. destruct (IH _ m1 _ S1 Hn) as (m2 & C2 & E2 & S2 & D2).
    { apply list.Forall_forall. intros j' Hj'. rewrite list.Forall_forall in HU. destruct (HU j' Hj') as [-> Hu'].
      split; [|done]. cbn [orb]. apply not_true_is_false. intros Ha%among_spec.
      apply list_elem_of_singleton in Ha. apply Hni. rewrite <- Ha. apply list_elem_of_fmap. by exists j'. }
    exists m2, C2. split_and!; [done| |].
    + eapply sim_ext; [exact S2|]. intros h i. unfold among. cbn [existsb]. by rewrite !orb_false_r, orb_assoc.
    + intros h Hh. cbn [map] in Hh. apply not_elem_of_cons in Hh as [N1 N2]. rewrite D2 by done. by apply D1.
Qed.

Lemma respend_inputs_app db m ins ins' m1 :
  respend_inputs db m ins = (m1, None) -> respend_inputs db m (ins ++ ins') = respend_inputs db m1 ins'.
Proof.
  revert m. induction ins as [|j ins IH]; intros m E; cbn in *; [by simplify_eq|].
  destruct (respend_input db m j) as [m0 [e|]]; cbn in *; [done|]. by apply IH.
Qed.

(** Deletions first, then the inputs of all transactions in turn. *)
Lemma respend_txs_flat db m ops txs m' :
  Forall wf_Tx txs -> respend_inputs db m (all_inputs txs) = (m', None) ->
  respend_txs db m ops txs = Some (m', ops ++ map BatchDelete (map (hash_key IX_Unspent) (created_hashes txs)), None).
Proof.
  intros Hw. revert m ops. induction Hw as [|t txs Wt _ IH]; intros m ops E.
  { cbn in *. simplify_eq. by rewrite app_nil_r. }
  unfold all_inputs in E. cbn [map concat] in E. fold (all_inputs txs) in E.
  destruct (wf_Tx_Hash t Wt) as (h & Eh & _). assert (tx_hash_of t = h) as Eth by (unfold tx_hash_of; by rewrite Eh).
  cbn [respend_txs]. unfold created_hashes, spending_inputs in *. rewrite filter_cons.
  destruct (Z.eqb_spec (TxType t) RegisterAsset) as [Er|Er]; cbn [orb] in *.
  { rewrite decide_False by tauto. by apply IH. }
  rewrite decide_True by done. rewrite Eh. cbn [mbind option_bind map]. rewrite Eth.
  assert (exists m1, (if IsCoinBaseTx t then (m, None) else respend_inputs db m (UTXOInputs t)) = (m1, None) /\
            respend_inputs db m1 (all_inputs txs) = (m', None)) as (m1 & -> & E1).
  { destruct (IsCoinBaseTx t); [by exists m|].
    destruct (respend_inputs db m (UTXOInputs t)) as [m1 e1] eqn:E1.
    assert (e1 = None) as ->.
    { destruct e1 as [e|]; [|done]. exfalso. clear -E1 E. revert m E1 E.
      induction (UTXOInputs t) as [|j ins IH]; intros m E1 E; cbn in *; [done|].
      destruct (respend_input db m j) as [m0 [e0|]]; cbn in *; [done|]. by eapply IH. }
    exists m1. split; [done|]. by rewrite (respend_inputs_app _ _ _ _ _ E1) in E. }
  cbn [is_err]. rewrite (IH m1 _ E1), <- app_assoc. done.
Qed.

(** Lists emptied for the given hashes. *)
Definition emptied (hs : list Uint256) (m : gmap Uint256 (list Z)) : gmap Uint256 (list Z) :=
  foldr (fun h m => <[h := []]> m) m hs.
Lemma lookup_emptied hs m h : emptied hs m !! h = if decide (h ∈ hs) then Some [] else m !! h.
Proof.
  induction hs as [|x hs IH]; [done|]. cbn [emptied foldr]. fold (emptied hs m).
  destruct (decide (x = h)) as [->|N].
  - by rewrite lookup_insert_eq, decide_True by left.
  - rewrite lookup_insert_ne, IH by done. case_decide as D; [rewrite decide_True by (by right)|].
    + done.
    + rewrite decide_False; [done|]. by intros [E|E]%elem_of_cons.
Qed.

Lemma RollbackUnspend_restores db b U :
  wf_index db -> Forall wf_Tx (Transactions b) -> spendable U (Transactions b) ->
  Forall (fun j => ReferTxID j ∉ created_hashes (Transactions b)) (all_inputs (Transactions b)) ->
  (forall h i, h ∈ created_hashes (Transactions b) -> U h i = false) ->
  (forall h i, unspent db h i = block_effect U (Transactions b) h i) ->
  exists ops, RollbackUnspend db b = Some (ops, None) /\ wf_index (db_Write db ops) /\
    forall h i, unspent (db_Write db ops) h i = U h i.
Proof.
  intros Wi Hw Hs Ho Hf Hdb. set (hs := created_hashes (Transactions b)) in *.
  destruct (spendable_inputs U _ Hs Ho) as [Hn HU].
  destruct (respend_inputs_sim db [] ∅ (unspent db) (all_inputs (Transactions b)) Wi (sim_init db) Hn)
    as (m & C & Em & S & D).
  { apply list.Forall_forall. intros j Hj. rewrite list.Forall_forall in Ho. split.
    - rewrite Hdb, block_effect_elsewhere by (by apply Ho). apply andb_false_iff. right. apply negb_false_iff.
      apply among_spec, list_elem_of_fmap. by exists j.
    - apply list_elem_of_In, in_concat in Hj as (l & Hl & Hj). apply in_map_iff in Hl as (t & <- & Ht).
      unfold spending_inputs in Hj. destruct (_ || _); [done|].
      rewrite list.Forall_forall in Hw. apply list_elem_of_In in Ht. specialize (Hw t Ht).
      pose proof (wf_ins _ Hw) as Wins. rewrite list.Forall_forall in Wins. apply list_elem_of_In in Hj.
      by apply Wins. }
  eexists. split.
  { unfold RollbackUnspend. rewrite (respend_txs_flat db ∅ [] _ m Hw Em). cbn [mbind option_bind is_err]. reflexivity. }
  apply (commit_sim db (hs ++ C) (emptied hs m) U); [done| |].
  - destruct S as [S1 S2 S3]. constructor.
    + intros h l. rewrite lookup_emptied. case_decide; [|apply S1]. intros [= <-]. split; constructor.
    + intros h l. rewrite lookup_emptied. case_decide; [intros _; left; apply elem_of_app; by left|].
      intros E. apply S2 in E as [E|E]; [left; apply elem_of_app; by right|by right].
    + intros h i. rewrite lookup_emptied. case_decide as Hh; [by apply Hf|]. rewrite <- S3, Hdb.
      rewrite block_effect_elsewhere by done. destruct (among _ h i) eqn:Ea.
      * apply among_spec, list_elem_of_fmap in Ea as (j & [= -> ->] & Hj). rewrite list.Forall_forall in HU.
        rewrite HU by done. done.
      * by rewrite andb_true_r, orb_false_r.
  - intros h. cbn [app]. rewrite last_write_app, write_unspents_get, last_write_deletes, lookup_emptied.
    destruct (decide (h ∈ hs)) as [Hh|Hh].
    + rewrite D, lookup_empty.
      * rewrite decide_True; [done|]. apply list_elem_of_fmap. by exists h.
      * intros (j & -> & Hj)%list_elem_of_fmap. rewrite list.Forall_forall in Ho. by apply (Ho j).
    + rewrite decide_False; [by destruct (m !! h)|]. by intros (h' & [= ->] & ?)%list_elem_of_fmap.
Qed.

(** [IsDoubleSpend] asks whether some input is not in the set. *)
Lemma IsDoubleSpend_spec db t : wf_index db ->
  IsDoubleSpend db t = negb (forallb (fun j => unspent db (ReferTxID j) (ReferTxOutputIndex j)) (UTXOInputs t)).
Proof.
  intros Wi. unfold IsDoubleSpend. induction (UTXOInputs t) as [|j ins IH]; [done|].
  cbn [IsDoubleSpend_loop forallb]. unfold unspent at 1, ContainsUnspent.
  destruct (db_Get db (hash_key IX_Unspent (ReferTxID j))) as [v|] eqn:E; [|done].
  destruct (Wi _ _ E) as (l & -> & _ & Wl). rewrite GetUint16Array_ToByteArray by apply Wl. cbn [is_err fst].
  replace (existsb (fun x => x =? ReferTxOutputIndex j) l) with (existsb (Z.eqb (ReferTxOutputIndex j)) l).
  - destruct (existsb _ l); [done|]. done.
  - clear E Wl. induction l as [|x l IHl]; [done|]. cbn [existsb]. by rewrite Z.eqb_sym, IHl.
Qed.
End Index.

(** * Properties *)

(** C5: [PersistUnspend] implements the specified effect of a block.  For a
    well-formed index and a block whose outputs are new and whose inputs are
    unspent when their turn comes, it reports no error, the index stays
    well-formed, and an output is unspent afterwards exactly when it was unspent
    or is created by the block and is not spent by it, transaction by
    transaction. *)
Theorem persist_unspent_refines (DB : Type) (S : IStore DB) (L : IStoreLaws DB) (db : DB) (b : Block) :
  wf_index db -> Forall wf_Tx (Transactions b) -> fresh_txs db (Transactions b) ->
  spendable (unspent db) (Transactions b) ->
  exists ops, PersistUnspend db b = Some (ops, None) /\ wf_index (db_Write db ops) /\
    forall h i, unspent (db_Write db ops) h i = block_effect (unspent db) (Transactions b) h i.
Proof. apply PersistUnspend_refines. Qed.

(** A transfer of output [i] of transaction [h]. *)
Definition spend_tx (h : Uint256) (i : Z) : Transaction :=
  NewTransferAssetTransaction [mkInput h i 0] [mkOutput zero256 5 zero160].
Lemma wf_spend_tx h i : wf_u256 h -> inU 16 i -> wf_Tx (spend_tx h i).
Proof.
  intros Hh Hi. constructor; [eexists; split; [reflexivity|]; by vm_compute|constructor| | |constructor|done|..].
  - constructor; [|constructor]. split; [exact Hh|]. split; [exact Hi|cbn; lia].
  - constructor; [|constructor]. by_decision.
  - by_decision.
  - by_decision.
  - done.
Qed.

(** An index with outputs 0 and 1 of one transaction, and a block that spends
    the first. *)
Definition one_entry : gmap bytes bytes := {[ hash_key IX_Unspent (repeat 9 32) := ToByteArray [0; 1] ]}.
Definition spending_block : Block := mkBlock sample_bd [sample_Coinbase; spend_tx (repeat 9 32) 0] None.

Lemma wf_one_entry : wf_index one_entry.
Proof.
  intros h v E. change (one_entry !! hash_key IX_Unspent h = Some v) in E. unfold one_entry in E.
  apply lookup_singleton_Some in E as [_ <-]. exists [0; 1]. split_and!; [done|done|].
  split; [by_decision|by_decision].
Qed.
Lemma wf_spending_block : Forall wf_Tx (Transactions spending_block).
Proof.
  constructor; [exact wf_sample_Coinbase|]. constructor; [|constructor].
  apply wf_spend_tx; [split; [reflexivity|by_decision]|lia].
Qed.
Lemma fresh_spending_block : fresh_txs one_entry (Transactions spending_block).
Proof. split; [by_decision|]. repeat (constructor; [split; [vm_compute; reflexivity|by_decision]|]). constructor. Qed.
Lemma spendable_spending_block : spendable (unspent one_entry) (Transactions spending_block).
Proof.
  split; [intros _ E; discriminate E|]. split; [|exact I]. intros _ _. split; [by_decision|].
  constructor; [vm_compute; reflexivity|constructor].
Qed.

Lemma persist_unspent_refines_witness :
  exists ops, PersistUnspend one_entry spending_block = Some (ops, None) /\
    unspent (db_Write one_entry ops) (repeat 9 32) 0 = false /\
    unspent (db_Write one_entry ops) (repeat 9 32) 1 = true /\
    unspent (db_Write one_entry ops) (tx_hash_of (spend_tx (repeat 9 32) 0)) 0 = true.
Proof.
  destruct (persist_unspent_refines (gmap bytes bytes) _ _ one_entry spending_block) as (ops & E & _ & U).
  - exact wf_one_entry.
  - exact wf_spending_block.
  - exact fresh_spending_block.
  - exact spendable_spending_block.
  - exists ops. rewrite !U. split_and!; [exact E|vm_compute; reflexivity..].
Defined.

(** C6: [RollbackUnspend] undoes [PersistUnspend]: for such a block whose inputs
    all come from outside it, persisting the index and rolling it back gives a
    well-formed index with exactly the outputs unspent that were unspent before. *)
Theorem rollback_unspent_restores (DB : Type) (S : IStore DB) (L : IStoreLaws DB) (db : DB) (b : Block) :
  wf_index db -> Forall wf_Tx (Transactions b) -> fresh_txs db (Transactions b) ->
  spendable (unspent db) (Transactions b) ->
  Forall (fun j => ReferTxID j ∉ created_hashes (Transactions b)) (all_inputs (Transactions b)) ->
  exists ops ops', PersistUnspend db b = Some (ops, None) /\
    RollbackUnspend (db_Write db ops) b = Some (ops', None) /\
    wf_index (db_Write (db_Write db ops) ops') /\
    forall h i, unspent (db_Write (db_Write db ops) ops') h i = unspent db h i.
Proof.
  intros Wi Hw Hf Hs Ho. destruct (PersistUnspend_refines db b Wi Hw Hf Hs) as (ops & E & W1 & U1).
  destruct (RollbackUnspend_restores (db_Write db ops) b (unspent db) W1 Hw Hs Ho) as (ops' & E' & W2 & U2).
  - intros h i (t & -> & Ht)%list_elem_of_fmap. apply list_elem_of_filter in Ht as [_ Ht].
    destruct Hf as [_ Hf]. rewrite list.Forall_forall in Hf. by apply unspent_absent, Hf.
  - done.
  - by exists ops, ops'.
Qed.

Lemma rollback_unspent_restores_witness :
  exists ops ops', PersistUnspend one_entry spending_block = Some (ops, None) /\
    RollbackUnspend (db_Write one_entry ops) spending_block = Some (ops', None) /\
    unspent (db_Write (db_Write one_entry ops) ops') (repeat 9 32) 0 = true /\
    unspent (db_Write (db_Write one_entry ops) ops') (tx_hash_of (spend_tx (repeat 9 32) 0)) 0 = false.
Proof.
  destruct (rollback_unspent_restores (gmap bytes bytes) _ _ one_entry spending_block) as (ops & ops' & E & E' & _ & U).
  - exact wf_one_entry.
  - exact wf_spending_block.
  - exact fresh_spending_block.
  - exact spendable_spending_block.
  - by_decision.
  - exists ops, ops'. rewrite !U. split_and!; [exact E|exact E'|vm_compute; reflexivity..].
Defined.

(** A transaction passes [IsDoubleSpend] exactly when each of its inputs is
    unspent in the stored index; nothing relates its inputs to each other or to
    those of other transactions. *)
Theorem double_spend_check (DB : Type) (S : IStore DB) (L : IStoreLaws DB) (db : DB) (t : Transaction) :
  wf_index db ->
  IsDoubleSpend db t = false <->
    Forall (fun j => unspent db (ReferTxID j) (ReferTxOutputIndex j) = true) (UTXOInputs t).
Proof.
  intros Wi. rewrite IsDoubleSpend_spec by done. rewrite negb_false_iff, forallb_forall, list.Forall_forall.
  split; intros Hx j Hj; apply Hx, list_elem_of_In, Hj.
Qed.

Lemma double_spend_check_witness :
  IsDoubleSpend one_entry (spend_tx (repeat 9 32) 1) = false /\ IsDoubleSpend one_entry (spend_tx (repeat 9 32) 2) = true.
Proof.
  pose proof (double_spend_check (gmap bytes bytes) _ _ one_entry (spend_tx (repeat 9 32) 1) wf_one_entry) as [_ E].
  split; [apply E; constructor; [vm_compute; reflexivity|constructor]|vm_compute; reflexivity].
Defined.

(** A block whose second transaction spends an output of its first. *)
Definition chained_block : Block :=
  let t := spend_tx (repeat 9 32) 0 in mkBlock sample_bd [t; spend_tx (tx_hash_of t) 0] None.

(** Spending inside one block.  The unspent index follows such a block
    correctly, but the owner index does not: the referred transaction is looked
    up in the store only, where it is not yet, so [PersistUnspendUTXOs] fails and
    writes nothing.  And rolling the block back deletes the entry of the first
    transaction and then writes it again: the output it created stays unspent
    although its transaction is gone. *)
Theorem spending_inside_a_block :
  let t := spend_tx (repeat 9 32) 0 in
  exists ops ops', PersistUnspend one_entry chained_block = Some (ops, None) /\
    PersistUnspendUTXOs one_entry chained_block = Some ([], Some ErrDBNotFound) /\
    unspent (db_Write one_entry ops) (tx_hash_of t) 0 = false /\
    RollbackUnspend (db_Write one_entry ops) chained_block = Some (ops', None) /\
    unspent one_entry (tx_hash_of t) 0 = false /\
    unspent (db_Write (db_Write one_entry ops) ops') (tx_hash_of t) 0 = true.
Proof.
  cbn zeta. do 2 eexists. split_and!; try (vm_compute; reflexivity).
Qed.
