(* ===== verification/Difficulty.v ===== *)
(** [core/ledger/difficulty.go], [CalcWork] and [NewBlockNode] of
    [blockchain.go], [CheckProofOfWork] of [blockValidator.go] and the chain
    parameters of [common/config/config.go]: compact targets, the retarget
    rule, block work and the proof-of-work check.

    A [*big.Int] is a [Z].  The node a function starts from is followed by the
    list of its ancestors along [Parent]; running off its end is the nil
    dereference of the code ([None]). *)

From S2P Require Import Prelude Sha256 Serialization Common Fixed64 Transaction Merkle AuxPow Block.

(** * Chain parameters *)

Inductive Net := MainNet | TestNet | RegNet.
Definition time_Second : Z := 1000000000.

Record ChainParams := mkChainParams {
  cp_Name : Net; PowLimit : Z; PowLimitBits : Z; TargetTimespan : Z; TargetTimePerBlock : Z;
  AdjustmentFactor : Z; MaxOrphanBlocks : Z; MinMemoryNodes : Z; SpendCoinbaseSpan : Z }.

Definition mainNet : ChainParams :=
  mkChainParams MainNet (Z.shiftl 1 255 - 1) 0x1f0008ff (time_Second * 60 * 2 * 720) (time_Second * 60 * 2)
    4 10000 20160 100.
Definition testNet : ChainParams :=
  mkChainParams TestNet (Z.shiftl 1 255 - 1) 0x1e1da5ff (time_Second * 10 * 10) (time_Second * 10)
    4 10000 20160 100.
Definition regNet : ChainParams :=
  mkChainParams RegNet (Z.shiftl 1 255 - 1) 0x207fffff (time_Second * 1 * 10) (time_Second * 1)
    4 10000 20160 100.

(** * Compact targets *)

Definition CompactToBig (compact : Z) : Z :=
  let mantissa := Z.land compact 0x007fffff in
  let isNegative := negb (Z.land compact 0x00800000 =? 0) in
  let exponent := Z.shiftr compact 24 in
  let bn :=
    if exponent <=? 3 then Z.shiftr mantissa (8 * (3 - exponent))
    else Z.shiftl mantissa (8 * (exponent - 3)) in
  if isNegative then - bn else bn.

(** [len(n.Bytes())]: the bytes of the absolute value. *)
Definition big_bytes (n : Z) : Z := if n =? 0 then 0 else Z.log2 (Z.abs n) / 8 + 1.

(** [Bits()[0]] is the low 64-bit word of the absolute value; [Rsh] of a
    negative number rounds down. *)
Definition BigToCompact (n : Z) : Z :=
  if n =? 0 then 0
  else
    let exponent := big_bytes n in
    let mantissa :=
      if exponent <=? 3 then uint32 (Z.shiftl (uint32 (uint64 (Z.abs n))) (8 * (3 - exponent)))
      else uint32 (uint64 (Z.abs (Z.shiftr n (8 * (exponent - 3))))) in
    let '(mantissa, exponent) :=
      if negb (Z.land mantissa 0x00800000 =? 0) then (Z.shiftr mantissa 8, exponent + 1)
      else (mantissa, exponent) in
    let compact := Z.lor (uint32 (Z.shiftl exponent 24)) mantissa in
    if n <? 0 then Z.lor compact 0x00800000 else compact.

(** The bytes are reversed and read big-endian. *)
Definition HashToBig (hash : Uint256) : Z := be_val (BytesReverse hash).

(** * Work *)

Definition oneLsh256 : Z := Z.shiftl 1 256.

(** [compactToBig] of [blockchain.go] is the same code as [CompactToBig]. *)
Definition compactToBig : Z -> Z := CompactToBig.

(** [big.Int.Div] by a positive number is [Z.div]. *)
Definition CalcWork (bits : Z) : Z :=
  let difficultyNum := compactToBig bits in
  if difficultyNum <=? 0 then 0 else oneLsh256 / (difficultyNum + 1).

(** * Block nodes

    [Parent] and [Children] are references to nodes. *)

Record BlockNode := mkNode {
  n_Hash : Uint256; n_ParentHash : Uint256; n_Height : Z; n_Version : Z; n_Bits : Z; n_Timestamp : Z;
  n_WorkSum : Z; n_InMainChain : bool; n_Parent : option positive; n_Children : list positive }.

Definition NewBlockNode (blockHeader : Blockdata) (blockSha : Uint256) : BlockNode :=
  mkNode blockSha (PrevBlockHash blockHeader) (bd_Height blockHeader) (bd_Version blockHeader)
    (bd_Bits blockHeader) (bd_Timestamp blockHeader) (CalcWork (bd_Bits blockHeader)) false None [].

(** * Retargeting *)

Section Retarget.
Variable P : ChainParams.

Definition targetTimespan : Z := int64 (Z.quot (TargetTimespan P) time_Second).
Definition targetTimePerBlock : Z := int64 (Z.quot (TargetTimePerBlock P) time_Second).
Definition blocksPerRetarget : Z := uint32 (Z.quot targetTimespan targetTimePerBlock).
Definition minRetargetTimespan : Z := Z.quot targetTimespan (AdjustmentFactor P).
Definition maxRetargetTimespan : Z := int64 (targetTimespan * AdjustmentFactor P).

(** [for ; firstNode != nil && firstNode.Height != height; firstNode = firstNode.Parent]. *)
Fixpoint find_height (height : Z) (nodes : list BlockNode) : option BlockNode :=
  match nodes with
  | [] => None
  | n :: rest => if n_Height n =? height then Some n else find_height height rest
  end.

Definition adjust_timespan (actualTimespan : Z) : Z :=
  if actualTimespan <? minRetargetTimespan then minRetargetTimespan
  else if maxRetargetTimespan <? actualTimespan then maxRetargetTimespan
  else actualTimespan.

Definition CalcNextRequiredDifficulty (prevNode : BlockNode) (ancestors : list BlockNode) : option (Z * err) :=
  if (n_Height prevNode =? 0) || match cp_Name P with RegNet => true | _ => false end
  then Some (uint32 (PowLimitBits P), None)
  else if negb (uint32 (n_Height prevNode + 1) mod blocksPerRetarget =? 0)
  then Some (n_Bits prevNode, None)
  else
    let height := uint32 (n_Height prevNode - blocksPerRetarget + 1) in
    if (height <? 0) || (n_Height prevNode <? height)
    then Some (0, Some (NewError "unable to obtain previous retarget block"))
    else
      firstNode ← find_height height (prevNode :: ancestors);
      let actualTimespan := uint32 (n_Timestamp prevNode - n_Timestamp firstNode) in
      let adjustedTimespan := adjust_timespan actualTimespan in
      let oldTarget := CompactToBig (n_Bits prevNode) in
      let newTarget := oldTarget * adjustedTimespan / targetTimespan in
      let newTarget := if PowLimit P <? newTarget then PowLimit P else newTarget in
      Some (BigToCompact newTarget, None).
End Retarget.

(** * Proof of work *)

Definition CheckProofOfWork (bd : Blockdata) (powLimit : Z) (isAuxPow : bool) : err :=
  let target := CompactToBig (bd_Bits bd) in
  if target <=? 0
  then Some (NewError "[BlockValidator], block target difficulty is too low.")
  else if powLimit <? target
  then Some (NewError "[BlockValidator], block target difficulty is higher than max of limit.")
  else
    let hash := if isAuxPow then BtcHeader_Hash (ParBlockHeader (bd_AuxPow bd)) else Blockdata_Hash bd in
    if target <? HashToBig hash
    then Some (NewError "[BlockValidator], block target difficulty is higher than expected difficulty.")
    else None.

(** * Lemmas on compact targets *)

(** A compact number with exponent [e] and mantissa [m], without sign. *)
Definition pack (e m : Z) : Z := e * 2 ^ 24 + m.
Definition unpack (e m : Z) : Z := if e <=? 3 then m / 256 ^ (3 - e) else m * 256 ^ (e - 3).

Lemma pow256 k : 0 <= k -> 2 ^ (8 * k) = 256 ^ k.
Proof. intros H. by rewrite Z.pow_mul_r by lia. Qed.

Lemma pow256_pos k : 0 <= k -> 0 < 256 ^ k.
Proof. intros H. apply Z.pow_pos_nonneg; lia. Qed.

Lemma land_ones_mod x k : 0 <= k -> Z.land x (2 ^ k - 1) = x mod 2 ^ k.
Proof.
  intros H. replace (2 ^ k - 1) with (Z.ones k); [by apply Z.land_ones|].
  rewrite Z.ones_equiv. lia.
Qed.

(** The test of one bit, by arithmetic. *)
Lemma land_pow2 x k : 0 <= k -> Z.land x (2 ^ k) = (x / 2 ^ k mod 2) * 2 ^ k.
Proof.
  intros H. replace (2 ^ k) with (Z.shiftl 1 k) at 1 by (rewrite Z.shiftl_mul_pow2; lia).
  apply Z.bits_inj'. intros i Hi. rewrite Z.land_spec.
  rewrite <- (Z.shiftr_div_pow2 x k), <- (Z.shiftl_mul_pow2 _ k) by done.
  replace (Z.shiftr x k mod 2) with (Z.land (Z.shiftr x k) (Z.ones 1)) by (by rewrite Z.land_ones by lia).
  destruct (decide (i < k)) as [L|L].
  - rewrite !Z.shiftl_spec_low by done. by rewrite andb_false_r.
  - rewrite !Z.shiftl_spec_high by lia. rewrite Z.land_spec, Z.shiftr_spec by lia.
    rewrite Z.sub_add. destruct (decide (i = k)) as [->|N].
    + rewrite Z.sub_diag. done.
    + change (Z.ones 1) with 1.
      rewrite (Z.bits_above_log2 1 (i - k)) by (change (Z.log2 1) with 0; lia). by rewrite !andb_false_r.
Qed.

Lemma shiftl_land_low x m : 0 <= m < 2 ^ 24 -> Z.land (Z.shiftl x 24) m = 0.
Proof.
  intros H. apply Z.bits_inj'. intros i Hi. rewrite Z.land_spec, Z.bits_0.
  destruct (decide (i < 24)) as [L|L]; [by rewrite Z.shiftl_spec_low|].
  rewrite <- (Z.mod_small m (2 ^ 24)), Z.mod_pow2_bits_high by lia. apply andb_false_r.
Qed.

Lemma CompactToBig_pack e m : 0 <= e -> 0 <= m < 2 ^ 23 -> CompactToBig (pack e m) = unpack e m.
Proof.
  intros He Hm. unfold CompactToBig, pack, unpack.
  change 0x7fffff with (2 ^ 23 - 1). change 0x800000 with (2 ^ 23).
  rewrite land_ones_mod, land_pow2, Z.shiftr_div_pow2 by lia.
  replace ((e * 2 ^ 24 + m) mod 2 ^ 23) with m by zlia.
  replace ((e * 2 ^ 24 + m) / 2 ^ 23 mod 2) with 0 by zlia.
  replace ((e * 2 ^ 24 + m) / 2 ^ 24) with e by zlia.
  cbn [Z.mul Z.eqb negb]. destruct (Z.leb_spec e 3).
  - rewrite Z.shiftr_div_pow2, pow256 by lia. done.
  - rewrite Z.shiftl_mul_pow2, pow256 by lia. done.
Qed.

(** The number of bytes of a positive number. *)
Lemma big_bytes_spec n e : 1 <= e -> 256 ^ (e - 1) <= n < 256 ^ e -> big_bytes n = e.
Proof.
  intros He Hn. pose proof (pow256_pos (e - 1)). unfold big_bytes.
  destruct (Z.eqb_spec n 0); [lia|]. rewrite Z.abs_eq by lia.
  assert (8 * (e - 1) <= Z.log2 n < 8 * e); [|zlia].
  rewrite <- !pow256 in Hn by lia. split; [apply Z.log2_le_pow2; lia|apply Z.log2_lt_pow2; lia].
Qed.

Lemma big_bytes_bounds n : 0 < n -> 1 <= big_bytes n /\ 256 ^ (big_bytes n - 1) <= n < 256 ^ big_bytes n.
Proof.
  intros Hn. unfold big_bytes. destruct (Z.eqb_spec n 0); [lia|]. rewrite Z.abs_eq by lia.
  pose proof (Z.log2_nonneg n). pose proof (Z.log2_spec n Hn) as [L U].
  split; [zlia|]. rewrite <- !pow256 by zlia. split.
  - etrans; [|exact L]. apply Z.pow_le_mono_r; zlia.
  - eapply Z.lt_le_trans; [exact U|]. apply Z.pow_le_mono_r; zlia.
Qed.

(** The leading three bytes. *)
Definition lead (n e : Z) : Z := if e <=? 3 then n * 256 ^ (3 - e) else n / 256 ^ (e - 3).

Lemma lead_bounds n e : 1 <= e -> 256 ^ (e - 1) <= n < 256 ^ e -> 2 ^ 16 <= lead n e < 2 ^ 24.
Proof.
  intros He Hn. unfold lead. destruct (Z.leb_spec e 3).
  - change (2 ^ 16) with (256 ^ 2). change (2 ^ 24) with (256 ^ 3).
    replace (256 ^ 2) with (256 ^ (e - 1) * 256 ^ (3 - e)) by (rewrite <- Z.pow_add_r by lia; f_equal; lia).
    replace (256 ^ 3) with (256 ^ e * 256 ^ (3 - e)) by (rewrite <- Z.pow_add_r by lia; f_equal; lia).
    pose proof (pow256_pos (3 - e)). split; [apply Z.mul_le_mono_nonneg_r; lia|apply Z.mul_lt_mono_pos_r; lia].
  - pose proof (pow256_pos (e - 3)).
    replace (256 ^ (e - 1)) with (256 ^ (e - 3) * 2 ^ 16) in Hn
      by (change (2 ^ 16) with (256 ^ 2); rewrite <- Z.pow_add_r by lia; f_equal; lia).
    replace (256 ^ e) with (256 ^ (e - 3) * 2 ^ 24) in Hn
      by (change (2 ^ 24) with (256 ^ 3); rewrite <- Z.pow_add_r by lia; f_equal; lia).
    split; [apply Z.div_le_lower_bound; lia|apply Z.div_lt_upper_bound; lia].
Qed.

(** What [BigToCompact] packs for a positive number of [e] bytes. *)
Lemma BigToCompact_lead n e :
  1 <= e <= 254 -> 256 ^ (e - 1) <= n < 256 ^ e ->
  BigToCompact n = if lead n e <? 2 ^ 23 then pack e (lead n e) else pack (e + 1) (lead n e / 256).
Proof.
  intros He Hn. pose proof (pow256_pos (e - 1)). pose proof (lead_bounds n e ltac:(lia) Hn) as Hl.
  unfold BigToCompact. destruct (Z.eqb_spec n 0); [lia|].
  rewrite (big_bytes_spec n e) by (lia || done).
  assert (Em : (if e <=? 3 then uint32 (Z.shiftl (uint32 (uint64 (Z.abs n))) (8 * (3 - e)))
                else uint32 (uint64 (Z.abs (Z.shiftr n (8 * (e - 3)))))) = lead n e).
  { unfold lead in *. rewrite Z.abs_eq by lia. destruct (Z.leb_spec e 3).
    - assert (n < 2 ^ 24) by (change (2 ^ 24) with (256 ^ 3);
        eapply Z.lt_le_trans; [apply Hn|apply Z.pow_le_mono_r; lia]).
      rewrite (wrapU_id 64 n), (wrapU_id 32 n), Z.shiftl_mul_pow2, pow256 by lia. apply wrapU_id; lia.
    - rewrite Z.shiftr_div_pow2, pow256 by lia. rewrite Z.abs_eq by lia.
      rewrite (wrapU_id 64), wrapU_id by lia. done. }
  rewrite Em. change 0x800000 with (2 ^ 23). rewrite land_pow2 by lia.
  assert (Hlor : forall e' m, 0 <= e' < 256 -> 0 <= m < 2 ^ 24 -> Z.lor (uint32 (Z.shiftl e' 24)) m = pack e' m).
  { intros e' m He' Hm. rewrite Z.shiftl_mul_pow2, wrapU_id by lia. unfold pack.
    rewrite <- (Z.shiftl_mul_pow2 e' 24) by lia.
    rewrite Z.add_nocarry_lxor; [symmetry; apply Z.lxor_lor|]; by apply shiftl_land_low. }
  destruct (Z.ltb_spec n 0); [lia|].
  destruct (Z.ltb_spec (lead n e) (2 ^ 23)) as [L|L].
  - replace (lead n e / 2 ^ 23 mod 2) with 0 by zlia. cbn [Z.mul Z.eqb negb]. apply Hlor; lia.
  - replace (lead n e / 2 ^ 23 mod 2) with 1 by zlia. cbn [Z.mul].
    destruct (Z.eqb_spec (2 ^ 23) 0); [lia|]. cbn [negb].
    rewrite Z.shiftr_div_pow2 by lia. change (2 ^ 8) with 256. apply Hlor; zlia.
Qed.

(** The value behind the compact form of a number of [e] bytes: the number
    itself up to three bytes, else its leading bytes followed by zeros. *)
Lemma CompactToBig_lead n e :
  1 <= e <= 254 -> 256 ^ (e - 1) <= n < 256 ^ e ->
  CompactToBig (BigToCompact n) =
    if lead n e <? 2 ^ 23 then (if e <=? 3 then n else lead n e * 256 ^ (e - 3))
    else (if e <=? 2 then n else lead n e / 256 * 256 ^ (e - 2)).
Proof.
  intros He Hn. pose proof (lead_bounds n e ltac:(lia) Hn) as Hl.
  rewrite (BigToCompact_lead n e) by done. destruct (Z.ltb_spec (lead n e) (2 ^ 23)) as [L|L].
  - rewrite CompactToBig_pack by lia. unfold unpack, lead. destruct (Z.leb_spec e 3); [|done].
    apply Z.div_mul. pose proof (pow256_pos (3 - e)). lia.
  - rewrite CompactToBig_pack by zlia. unfold unpack, lead.
    destruct (Z.leb_spec e 2).
    + destruct (Z.leb_spec (e + 1) 3); [|lia]. destruct (Z.leb_spec e 3); [|lia].
      replace (3 - e) with (1 + (3 - (e + 1))) by lia. rewrite Z.pow_add_r by lia.
      pose proof (pow256_pos (3 - (e + 1))). change (256 ^ 1) with 256.
      replace (n * (256 * 256 ^ (3 - (e + 1)))) with (n * 256 ^ (3 - (e + 1)) * 256) by lia.
      rewrite Z.div_mul, Z.div_mul by lia. done.
    + destruct (Z.leb_spec (e + 1) 3); [lia|]. by replace (e + 1 - 3) with (e - 2) by lia.
Qed.

(** The pieces of the rounding argument for numbers longer than the mantissa. *)
Lemma lead_round n e k :
  3 <= e -> 256 ^ (e - 1) <= n < 256 ^ e -> 0 <= k <= 1 ->
  let t := lead n e / 256 ^ k * 256 ^ (e - 3 + k) in
  t <= n < t + 256 ^ (e - 3 + k) /\ lead t e = lead n e / 256 ^ k * 256 ^ k /\ 256 ^ (e - 1) <= t.
Proof.
  intros He Hn Hk t. pose proof (lead_bounds n e ltac:(lia) Hn) as Hl.
  pose proof (pow256_pos (e - 3)). pose proof (pow256_pos k).
  assert (El : forall x, lead x e = x / 256 ^ (e - 3)).
  { intros x. unfold lead. destruct (Z.leb_spec e 3); [|done].
    replace e with 3 by lia. cbn. rewrite Z.div_1_r. lia. }
  assert (Et : t = n / 256 ^ (e - 3 + k) * 256 ^ (e - 3 + k)).
  { subst t. rewrite El, Z.div_div, <- Z.pow_add_r by lia. done. }
  pose proof (pow256_pos (e - 3 + k)). split; [rewrite Et; zlia|].
  subst t. rewrite (El (_ * _)), Z.pow_add_r by lia. split.
  - replace (lead n e / 256 ^ k * (256 ^ (e - 3) * 256 ^ k))
      with (lead n e / 256 ^ k * 256 ^ k * 256 ^ (e - 3)) by lia. apply Z.div_mul. lia.
  - replace (256 ^ (e - 1)) with (2 ^ 16 * 256 ^ (e - 3))
      by (change (2 ^ 16) with (256 ^ 2); rewrite <- Z.pow_add_r by lia; f_equal; lia).
    assert (2 ^ 16 <= lead n e / 256 ^ k * 256 ^ k); [|nia].
    assert (k = 0 \/ k = 1) as [-> | ->] by lia; cbn [Z.pow]; change (256 ^ 0) with 1; change (256 ^ 1) with 256; zlia.
Qed.

Lemma compact_round (n : Z) :
  0 < n < 256 ^ 254 ->
  let t := CompactToBig (BigToCompact n) in
  0 < t <= n /\ (n - t) * 2 ^ 15 < n /\ BigToCompact t = BigToCompact n /\ BigToCompact 0 = 0 /\ CompactToBig 0 = 0.
Proof.
  intros Hn. cbn zeta. destruct (big_bytes_bounds n) as [He Hb]; [lia|].
  set (e := big_bytes n) in *.
  assert (e <= 254).
  { destruct (decide (254 < e)) as [D|D]; [|lia].
    assert (256 ^ 254 <= 256 ^ (e - 1)) by (apply Z.pow_le_mono_r; lia). lia. }
  assert (same : forall t, t = n -> 0 < t <= n /\ (n - t) * 2 ^ 15 < n /\ BigToCompact t = BigToCompact n /\
            BigToCompact 0 = 0 /\ CompactToBig 0 = 0) by (intros t ->; repeat split; lia).
  rewrite (CompactToBig_lead n e) by (lia || done).
  pose proof (lead_bounds n e ltac:(lia) Hb) as Hl. pose proof (pow256_pos (e - 1)).
  destruct (Z.ltb_spec (lead n e) (2 ^ 23)) as [L|L].
  - destruct (Z.leb_spec e 3); [by apply same|].
    destruct (lead_round n e 0 ltac:(lia) Hb ltac:(lia)) as ((Ht1 & Ht2) & Hlead & Ht3).
    rewrite Z.pow_0_r, Z.div_1_r, Z.mul_1_r, Z.add_0_r in *. split; [lia|].
    split; [pose proof (pow256_pos (e - 3)); replace (256 ^ (e - 1)) with (2 ^ 16 * 256 ^ (e - 3)) in *
      by (change (2 ^ 16) with (256 ^ 2); rewrite <- Z.pow_add_r by lia; f_equal; lia); lia|].
    split; [|done]. rewrite !(BigToCompact_lead _ e) by lia. by rewrite Hlead.
  - destruct (Z.leb_spec e 2); [by apply same|].
    destruct (lead_round n e 1 ltac:(lia) Hb ltac:(lia)) as ((Ht1 & Ht2) & Hlead & Ht3).
    rewrite Z.pow_1_r in *. replace (e - 3 + 1) with (e - 2) in * by lia. split; [lia|]. split.
    + pose proof (pow256_pos (e - 2)). assert (2 ^ 15 * 256 ^ (e - 2) <= n); [|lia].
      destruct (lead_round n e 0 ltac:(lia) Hb ltac:(lia)) as ((Hn1 & _) & _ & _).
      rewrite Z.pow_0_r, Z.div_1_r, Z.add_0_r in Hn1. pose proof (pow256_pos (e - 3)).
      replace (256 ^ (e - 2)) with (256 * 256 ^ (e - 3)) by (rewrite <- Z.pow_succ_r by lia; f_equal; lia). nia.
    + split; [|done]. rewrite !(BigToCompact_lead _ e) by lia. rewrite Hlead.
      destruct (Z.ltb_spec (lead n e) (2 ^ 23)); [lia|].
      destruct (Z.ltb_spec (lead n e / 256 * 256) (2 ^ 23)); [zlia|]. by rewrite Z.div_mul.
Qed.

(** * Properties *)

(** Compact targets round down and lose less than one part in [2^15]:
    for every positive number of at most 254 bytes, decoding its compact form
    gives a value at most the number and within that relative error, encoding
    that value again gives the same compact form, and zero is kept. *)
Theorem compact_roundtrip (n : Z) :
  0 < n < 256 ^ 254 ->
  let t := CompactToBig (BigToCompact n) in
  0 < t <= n /\ (n - t) * 2 ^ 15 < n /\ BigToCompact t = BigToCompact n /\ BigToCompact 0 = 0 /\ CompactToBig 0 = 0.
Proof. exact (compact_round n). Qed.

Lemma compact_roundtrip_witness :
  CompactToBig (BigToCompact (PowLimit mainNet)) <= PowLimit mainNet /\
  BigToCompact (PowLimit mainNet) = PowLimitBits regNet.
Proof.
  destruct (compact_roundtrip (PowLimit mainNet)) as ((_ & H) & _); [vm_compute; split; reflexivity|].
  split; [exact H|vm_compute; reflexivity].
Defined.

(** The parameter sets retargeting is meant for. *)
Record sane_params (P : ChainParams) : Prop := {
  sane_net : cp_Name P <> RegNet;
  sane_span : 0 < targetTimespan P;
  sane_factor : 0 < AdjustmentFactor P;
  sane_max : targetTimespan P * AdjustmentFactor P < 2 ^ 32;
  sane_blocks : 0 < blocksPerRetarget P < 2 ^ 32;
  sane_limit : 0 < PowLimit P < 256 ^ 254 }.

Lemma mainNet_sane : sane_params mainNet.
Proof. constructor; [discriminate|by_decision..]. Qed.
Lemma testNet_sane : sane_params testNet.
Proof. constructor; [discriminate|by_decision..]. Qed.

Section RetargetLemmas.
Context (P : ChainParams) (S : sane_params P).

Lemma max_timespan : maxRetargetTimespan P = targetTimespan P * AdjustmentFactor P.
Proof. destruct S. apply wrapS_id; lia. Qed.

Lemma adjust_bounds x : 0 <= adjust_timespan P (uint32 x) <= maxRetargetTimespan P.
Proof.
  rewrite max_timespan. unfold adjust_timespan. rewrite max_timespan. destruct S.
  unfold minRetargetTimespan. rewrite Z.quot_div_nonneg by lia.
  pose proof (wrapU_range 32 x ltac:(lia)).
  assert (0 <= targetTimespan P / AdjustmentFactor P <= targetTimespan P).
  { split; [apply Z.div_pos; lia|apply Z.div_le_upper_bound; nia]. }
  assert (targetTimespan P <= targetTimespan P * AdjustmentFactor P) by nia.
  repeat case_match; lia.
Qed.

(** A difference that is negative by less than [2^31]. *)
Lemma adjust_backwards d :
  - 2 ^ 31 < d < 0 -> maxRetargetTimespan P <= 2 ^ 31 -> adjust_timespan P (uint32 d) = maxRetargetTimespan P.
Proof.
  intros Hd Hm. pose proof (adjust_bounds d) as B. unfold adjust_timespan in *.
  assert (E : uint32 d = d + 2 ^ 32) by (unfold wrapU; zlia). rewrite E in *.
  destruct (Z.ltb_spec (d + 2 ^ 32) (minRetargetTimespan P)); [lia|].
  destruct (Z.ltb_spec (maxRetargetTimespan P) (d + 2 ^ 32)); lia.
Qed.

Lemma CalcNext_keep prev ancestors :
  0 < n_Height prev < 2 ^ 32 - 1 -> (n_Height prev + 1) mod blocksPerRetarget P <> 0 ->
  CalcNextRequiredDifficulty P prev ancestors = Some (n_Bits prev, None).
Proof.
  intros Hh Hm. unfold CalcNextRequiredDifficulty. destruct S.
  destruct (Z.eqb_spec (n_Height prev) 0); [lia|]. rewrite (wrapU_id 32 (n_Height prev + 1)) by lia.
  destruct (cp_Name P); [..|done]; cbn [orb].
  all: destruct (Z.eqb_spec ((n_Height prev + 1) mod blocksPerRetarget P) 0); done.
Qed.

Lemma CalcNext_at prev first ancestors :
  0 < n_Height prev < 2 ^ 32 - 1 -> (n_Height prev + 1) mod blocksPerRetarget P = 0 ->
  find_height (n_Height prev + 1 - blocksPerRetarget P) (prev :: ancestors) = Some first ->
  CalcNextRequiredDifficulty P prev ancestors =
    Some (BigToCompact (Z.min (PowLimit P) (CompactToBig (n_Bits prev)
      * adjust_timespan P (uint32 (n_Timestamp prev - n_Timestamp first)) / targetTimespan P)), None).
Proof.
  intros Hh Hm Hf. unfold CalcNextRequiredDifficulty. destruct S.
  destruct (Z.eqb_spec (n_Height prev) 0); [lia|]. rewrite (wrapU_id 32 (n_Height prev + 1)) by lia.
  assert (blocksPerRetarget P <= n_Height prev + 1).
  { apply Z.mod_divide in Hm; [apply Z.divide_pos_le in Hm|]; lia. }
  rewrite Hm, (wrapU_id 32 (n_Height prev - blocksPerRetarget P + 1)) by lia.
  destruct (cp_Name P); [..|done]; cbn [orb Z.eqb negb].
  all: destruct (Z.ltb_spec (n_Height prev - blocksPerRetarget P + 1) 0); [lia|].
  all: destruct (Z.ltb_spec (n_Height prev) (n_Height prev - blocksPerRetarget P + 1)); [lia|]; cbn [orb].
  all: replace (n_Height prev - blocksPerRetarget P + 1) with (n_Height prev + 1 - blocksPerRetarget P) by lia.
  all: rewrite Hf; cbn [mbind option_bind]; do 2 f_equal.
  all: case_match eqn:E; [apply Z.ltb_lt in E|apply Z.ltb_ge in E]; do 2 f_equal; lia.
Qed.

Lemma capped_bounds old span :
  0 < old -> 0 <= span <= maxRetargetTimespan P ->
  let t := CompactToBig (BigToCompact (Z.min (PowLimit P) (old * span / targetTimespan P))) in
  0 <= t <= PowLimit P /\ t <= old * AdjustmentFactor P.
Proof.
  intros Ho Hs. pose proof max_timespan as Em. destruct S.
  assert (B : 0 <= old * span / targetTimespan P <= old * AdjustmentFactor P).
  { split; [apply Z.div_pos; nia|]. apply Z.div_le_upper_bound; [lia|]. nia. }
  set (m := Z.min _ _). destruct (Z.eqb_spec m 0) as [->|Hm].
  - change (CompactToBig (BigToCompact 0)) with 0. nia.
  - destruct (compact_round m) as (Ht & _); [lia|]. cbn zeta in *. lia.
Qed.
End RetargetLemmas.

(** C31: The retarget rule.  Between retarget heights the difficulty is kept.
    At one, with the first block of the interval in memory, the call never
    fails: the target is the old one scaled by the clamped timespan, capped at
    the limit and rounded to compact form.  So the new target never exceeds the
    limit nor [AdjustmentFactor] times the old target; and the timespan is a
    32-bit difference, so an interval whose timestamps run backwards counts as
    a longest one and lowers the difficulty. *)
Theorem retarget (P : ChainParams) (prev first : BlockNode) (ancestors : list BlockNode) :
  sane_params P -> 0 < n_Height prev < 2 ^ 32 - 1 -> 0 < CompactToBig (n_Bits prev) ->
  find_height (n_Height prev + 1 - blocksPerRetarget P) (prev :: ancestors) = Some first ->
  let old := CompactToBig (n_Bits prev) in
  let span := adjust_timespan P (uint32 (n_Timestamp prev - n_Timestamp first)) in
  ((n_Height prev + 1) mod blocksPerRetarget P <> 0 ->
     CalcNextRequiredDifficulty P prev ancestors = Some (n_Bits prev, None)) /\
  ((n_Height prev + 1) mod blocksPerRetarget P = 0 ->
     exists bits, CalcNextRequiredDifficulty P prev ancestors = Some (bits, None) /\
       bits = BigToCompact (Z.min (PowLimit P) (old * span / targetTimespan P)) /\
       0 <= CompactToBig bits <= PowLimit P /\
       CompactToBig bits <= old * AdjustmentFactor P /\
       (n_Timestamp first - 2 ^ 31 < n_Timestamp prev < n_Timestamp first -> maxRetargetTimespan P <= 2 ^ 31 ->
        span = maxRetargetTimespan P)).
Proof.
  intros S Hh Hold Hf old span. split; [by apply CalcNext_keep|]. intros Hm.
  eexists. split; [by apply CalcNext_at|]. split; [reflexivity|].
  destruct (capped_bounds P S old span Hold (adjust_bounds P S _)) as [B1 B2].
  split; [exact B1|]. split; [exact B2|]. intros Ht Hx. apply adjust_backwards; [done|lia|done].
Qed.

Definition sample_node (height ts bits : Z) : BlockNode :=
  mkNode zero256 zero256 height 0 bits ts 0 true None [].

Lemma retarget_witness :
  exists bits, CalcNextRequiredDifficulty testNet (sample_node 9 1000 0x1e1da5ff) [sample_node 0 900 0x1e1da5ff]
               = Some (bits, None) /\ 0 <= CompactToBig bits <= PowLimit testNet.
Proof.
  destruct (retarget testNet (sample_node 9 1000 0x1e1da5ff) (sample_node 0 900 0x1e1da5ff)
              [sample_node 0 900 0x1e1da5ff] testNet_sane) as [_ R].
  - cbn. lia.
  - reflexivity.
  - reflexivity.
  - destruct R as (bits & E & _ & B & _); [reflexivity|]. exists bits. split; assumption.
Defined.

(** The work of a block is the expected number of hashes for its target:
    zero exactly when the target is not positive or exceeds [2^256 - 1], never
    more for an easier target, and [CalcWork bits * (target + 1)] is [2^256] up
    to less than one target. *)
Theorem calc_work_spec (bits bits' : Z) :
  (CompactToBig bits <= 0 -> CalcWork bits = 0) /\
  (0 < CompactToBig bits ->
     (0 < CalcWork bits <-> CompactToBig bits < 2 ^ 256) /\
     CalcWork bits * (CompactToBig bits + 1) <= 2 ^ 256 < (CalcWork bits + 1) * (CompactToBig bits + 1) /\
     (CompactToBig bits <= CompactToBig bits' -> CalcWork bits' <= CalcWork bits)).
Proof.
  unfold CalcWork, compactToBig. change oneLsh256 with (2 ^ 256).
  set (t := CompactToBig bits). set (t' := CompactToBig bits'). split; intros Ht.
  - destruct (Z.leb_spec t 0); [done|lia].
  - destruct (Z.leb_spec t 0); [lia|]. pose proof (Z.div_mod (2 ^ 256) (t + 1) ltac:(lia)).
    pose proof (Z.mod_pos_bound (2 ^ 256) (t + 1) ltac:(lia)). split; [|split; [nia|]].
    + split; intros Hw; [|apply Z.div_str_pos; lia].
      destruct (Z.lt_ge_cases t (2 ^ 256)) as [|G]; [done|]. rewrite Z.div_small in Hw by lia. lia.
    + intros Hle. destruct (Z.leb_spec t' 0); [lia|]. apply Z.div_le_compat_l; lia.
Qed.

Lemma calc_work_spec_witness : 0 < CalcWork 0x207fffff /\ CalcWork 0x207fffff <= CalcWork 0x1f0008ff.
Proof.
  split.
  - apply (calc_work_spec 0x207fffff 0x207fffff); vm_compute; reflexivity.
  - apply (calc_work_spec 0x1f0008ff 0x207fffff); vm_compute; congruence || reflexivity.
Defined.

Lemma CheckProofOfWork_iff bd powLimit isAuxPow :
  CheckProofOfWork bd powLimit isAuxPow = None <->
    0 < CompactToBig (bd_Bits bd) <= powLimit /\
    le_val (if isAuxPow then BtcHeader_Hash (ParBlockHeader (bd_AuxPow bd)) else Blockdata_Hash bd)
      <= CompactToBig (bd_Bits bd).
Proof.
  set (hash := if isAuxPow then BtcHeader_Hash (ParBlockHeader (bd_AuxPow bd)) else Blockdata_Hash bd).
  assert (E : HashToBig hash = le_val hash).
  { unfold HashToBig, be_val. by rewrite BytesReverse_reverse, reverse_involutive. }
  unfold CheckProofOfWork. fold hash. rewrite E. repeat case_match; split; intros; try done; lia.
Qed.

(** A header passes the proof-of-work check exactly when its target is
    positive and within the limit and the hash (of the parent header under
    merged mining), read as a little-endian number, does not exceed it; such a
    header always counts positive work. *)
Theorem proof_of_work_check (bd : Blockdata) (powLimit : Z) (isAuxPow : bool) :
  let hash := if isAuxPow then BtcHeader_Hash (ParBlockHeader (bd_AuxPow bd)) else Blockdata_Hash bd in
  (CheckProofOfWork bd powLimit isAuxPow = None <->
     0 < CompactToBig (bd_Bits bd) <= powLimit /\ le_val hash <= CompactToBig (bd_Bits bd)) /\
  (CheckProofOfWork bd powLimit isAuxPow = None -> powLimit < 2 ^ 256 -> 0 < CalcWork (bd_Bits bd)).
Proof.
  intros hash. pose proof (CheckProofOfWork_iff bd powLimit isAuxPow) as I.
  split; [exact I|]. intros H Hl. apply I in H as [[Hp Hu] _].
  unfold CalcWork, compactToBig. destruct (Z.leb_spec (CompactToBig (bd_Bits bd)) 0); [lia|].
  change oneLsh256 with (2 ^ 256). apply Z.div_str_pos. lia.
Qed.

Lemma proof_of_work_check_witness :
  let bd := mkBlockdata 0 (repeat 3 32) zero256 1506816000 0x207fffff 1 1 new_AuxPow in
  CheckProofOfWork bd (PowLimit regNet) false = None /\ 0 < CalcWork (bd_Bits bd).
Proof.
  assert (H : CheckProofOfWork (mkBlockdata 0 (repeat 3 32) zero256 1506816000 0x207fffff 1 1 new_AuxPow)
                (PowLimit regNet) false = None) by (vm_compute; reflexivity).
  split; [exact H|].
  apply (proof_of_work_check (mkBlockdata 0 (repeat 3 32) zero256 1506816000 0x207fffff 1 1 new_AuxPow)
    (PowLimit regNet) false); [exact H|vm_compute; reflexivity].
Defined.
