(* ===== verification/MedianTime.v ===== *)
(** [core/ledger/mediantime.go] and the median-time functions of
    [core/ledger/blockchain.go]: the network-adjusted clock and the median
    timestamp of the last blocks.

    Times are seconds since the epoch; the local clock is an argument.
    [sort.Sort] is a sorting function: the order of equal integers cannot be
    observed. *)

From S2P Require Import Prelude Sha256 Serialization Common Fixed64 Transaction Merkle AuxPow Block Difficulty.

(** * Sorted integers *)

Definition sort_ints : list Z -> list Z := sort_by Z.leb.

Lemma sort_ints_perm l : sort_ints l ≡ₚ l.
Proof. apply sort_by_perm. Qed.

Lemma sort_ints_sorted l : StronglySorted Z.le (sort_ints l).
Proof.
  assert (S : StronglySorted (fun a b => (a <=? b) = true) (sort_ints l)).
  { apply (sort_by_sorted Z.leb (fun _ => True)); [lia|lia|]. by apply list.Forall_forall. }
  clear -S. induction S as [|a l' _ IH Ha]; constructor; [done|].
  eapply list.Forall_impl; [exact Ha|]. intros x. cbn. lia.
Qed.

(** How many elements are below [v]. *)
Definition below (v : Z) (l : list Z) : nat := length (filter (fun x => x < v) l).

Lemma below_perm v l l' : l ≡ₚ l' -> below v l = below v l'.
Proof. intros H. unfold below. by rewrite H. Qed.

Lemma below_cons v x l : below v (x :: l) = ((if decide (x < v)%Z then 1 else 0) + below v l)%nat.
Proof. unfold below. rewrite filter_cons. by case_decide. Qed.

Lemma below_none v l : Forall (fun x => v <= x) l -> below v l = 0%nat.
Proof. induction 1; [done|]. rewrite below_cons, decide_False by lia. done. Qed.

Lemma below_sorted v l i x :
  StronglySorted Z.le l -> l !! i = Some x -> (below v l <= i)%nat <-> v <= x.
Proof.
  intros S. revert i. induction S as [|a l S IH Ha]; intros i Hi; [done|].
  rewrite below_cons. destruct i as [|i]; cbn in Hi.
  - injection Hi as ->. split; intros H.
    + case_decide; lia.
    + rewrite decide_False by lia. rewrite below_none; [lia|].
      eapply list.Forall_impl; [exact Ha|]. intros y. cbn. lia.
  - specialize (IH i Hi). case_decide; [lia|].
    assert (a <= x) by (rewrite list.Forall_forall in Ha; apply Ha; by eapply list_elem_of_lookup_2).
    rewrite below_none; [lia|]. eapply list.Forall_impl; [exact Ha|]. intros y. cbn. lia.
Qed.

(** The middle of a sorted copy, as both clients compute it. *)
Definition median (l : list Z) : option Z := sort_ints l !! Nat.div (length l) 2.

Lemma length_sort_ints l : length (sort_ints l) = length l.
Proof. by rewrite sort_ints_perm. Qed.

Lemma median_some l : l <> [] -> exists m, median l = Some m /\ m ∈ l.
Proof.
  intros H. unfold median. destruct (lookup_lt_is_Some_2 (sort_ints l) (Nat.div (length l) 2)) as [m E].
  { rewrite length_sort_ints. apply Nat.div_lt; [destruct l; [done|simpl; lia]|lia]. }
  exists m. split; [done|]. rewrite <- (sort_ints_perm l). by eapply list_elem_of_lookup_2.
Qed.

(** [v] is at most the median exactly when at most half of the list is below it. *)
Lemma median_below l m v : median l = Some m -> (below v l <= Nat.div (length l) 2)%nat <-> v <= m.
Proof.
  intros H. rewrite <- (below_perm v _ _ (sort_ints_perm l)).
  apply below_sorted; [apply sort_ints_sorted|exact H].
Qed.

(** * The adjusted clock *)

Definition maxAllowedOffsetSecs : Z := 70 * 60.
Definition similarTimeSecs : Z := 5 * 60.
Definition maxMedianTimeEntries : nat := 200.

Record medianTime := mkMedianTime {
  knownIDs : gset bytes; offsets : list Z; offsetSecs : Z; invalidTimeChecked : bool }.
Definition NewMedianTime : medianTime := mkMedianTime ∅ [] 0 false.

Definition AdjustedTime (m : medianTime) (now : Z) : Z := now + offsetSecs m.
Definition Offset (m : medianTime) : Z := int64 (offsetSecs m * time_Second).

(** [int64(timeVal.Sub(now).Seconds())]: a [time.Duration] saturates. *)
Definition sub_seconds (timeVal now : Z) : Z :=
  let maxSecs := (2 ^ 63 - 1) / time_Second in
  Z.max (- maxSecs) (Z.min maxSecs (timeVal - now)).

Definition AddTimeSample (m : medianTime) (sourceID : bytes) (timeVal now : Z) : medianTime :=
  if decide (sourceID ∈ knownIDs m) then m
  else
    let known := {[sourceID]} ∪ knownIDs m in
    let offset := sub_seconds timeVal now in
    let kept := if (length (offsets m) =? maxMedianTimeEntries)%nat then drop 1 (offsets m) else offsets m in
    let offs := kept ++ [offset] in
    let numOffsets := length offs in
    let m' := mkMedianTime known offs (offsetSecs m) (invalidTimeChecked m) in
    if (numOffsets <? 5)%nat || Nat.even numOffsets then m'
    else
      match sort_ints offs !! Nat.div numOffsets 2 with
      | None => m'
      | Some median =>
          if Z.abs median <? maxAllowedOffsetSecs
          then mkMedianTime known offs median (invalidTimeChecked m)
          else mkMedianTime known offs 0 true
      end.

(** The clocks reachable by adding samples. *)
Inductive time_reachable : medianTime -> Prop :=
  | reach_new : time_reachable NewMedianTime
  | reach_add m id timeVal now : time_reachable m -> time_reachable (AddTimeSample m id timeVal now).

(** * Past median time *)

Definition medianTimeBlocks : nat := 11.

(** [None]: [timestamps[0]] of an empty slice, for a nil node. *)
Definition CalcPastMedianTime (nodes : list BlockNode) : option Z :=
  let timestamps := map n_Timestamp (take medianTimeBlocks nodes) in
  sort_ints timestamps !! Nat.div (length timestamps) 2.

(** [MedianAdjustedTime]: the timestamp a miner puts in a new block. *)
Definition MedianAdjustedTime (m : medianTime) (now medianTimePast : Z) : Z :=
  let newTimestamp := AdjustedTime m now in
  let minTimestamp := medianTimePast + 1 in
  if newTimestamp <? minTimestamp then minTimestamp else newTimestamp.

(** * Lemmas *)

Lemma AddTimeSample_known m id timeVal now : id ∈ knownIDs m -> AddTimeSample m id timeVal now = m.
Proof. intros H. unfold AddTimeSample. by rewrite decide_True. Qed.

(** One unknown sample: the window and the branch taken. *)
Lemma AddTimeSample_fresh m id timeVal now offs :
  id ∉ knownIDs m -> (length (offsets m) <= maxMedianTimeEntries)%nat ->
  offs = (if decide (length (offsets m) = maxMedianTimeEntries) then drop 1 (offsets m) else offsets m)
         ++ [sub_seconds timeVal now] ->
  let m' := AddTimeSample m id timeVal now in
  knownIDs m' = {[id]} ∪ knownIDs m /\ offsets m' = offs /\
  (length offs <= maxMedianTimeEntries)%nat /\
  if decide ((5 <= length offs)%nat /\ Nat.odd (length offs) = true)
  then exists med, median offs = Some med /\
         offsetSecs m' = if decide (Z.abs med < maxAllowedOffsetSecs) then med else 0
  else offsetSecs m' = offsetSecs m.
Proof.
  intros Hid Hlen Hoff m'. subst m'. unfold AddTimeSample. rewrite decide_False by done.
  assert (E : (if (length (offsets m) =? maxMedianTimeEntries)%nat then drop 1 (offsets m) else offsets m)
              ++ [sub_seconds timeVal now] = offs).
  { rewrite Hoff. destruct (Nat.eqb_spec (length (offsets m)) maxMedianTimeEntries); by case_decide. }
  rewrite E. assert (Hoffs : offs <> []) by (rewrite Hoff; intros X; by apply app_eq_nil in X as [_ X]).
  assert (Hl : (length offs <= maxMedianTimeEntries)%nat).
  { rewrite Hoff. rewrite length_app. unfold maxMedianTimeEntries in *; case_decide; rewrite ?length_drop; cbn [length]; lia. }
  destruct (median_some offs Hoffs) as (med & Em & _). unfold median in Em. rewrite Em.
  destruct (Nat.ltb_spec (length offs) 5); cbn [orb].
  { rewrite decide_False by lia. done. }
  destruct (Nat.even (length offs)) eqn:Ev.
  - rewrite decide_False; [done|]. unfold Nat.odd. rewrite Ev. by intros [_ ?].
  - rewrite decide_True by (unfold Nat.odd; rewrite Ev; split; [lia|done]).
    destruct (Z.ltb_spec (Z.abs med) maxAllowedOffsetSecs); cbn [knownIDs offsets offsetSecs];
      (do 3 (split; [done|])); exists med; (split; [exact Em|]).
    + by rewrite decide_True.
    + by rewrite decide_False by lia.
Qed.

(** The invariant: a bounded window and a bounded offset. *)
Definition clock_inv (m : medianTime) : Prop :=
  (length (offsets m) <= maxMedianTimeEntries)%nat /\ Z.abs (offsetSecs m) < maxAllowedOffsetSecs.

Lemma AddTimeSample_inv m id timeVal now : clock_inv m -> clock_inv (AddTimeSample m id timeVal now).
Proof.
  intros [Hl Ho]. destruct (decide (id ∈ knownIDs m)) as [D|D]; [by rewrite AddTimeSample_known|].
  destruct (AddTimeSample_fresh m id timeVal now _ D Hl eq_refl) as (_ & E & Hl' & B). split; [by rewrite E|].
  revert B. generalize (length ((if decide (length (offsets m) = maxMedianTimeEntries) then drop 1 (offsets m)
    else offsets m) ++ [sub_seconds timeVal now])). intros n B.
  destruct (decide ((5 <= n)%nat /\ Nat.odd n = true)) in B; [destruct B as (med & _ & ->)|by rewrite B].
  destruct (decide (Z.abs med < maxAllowedOffsetSecs)) as [A|A]; [exact A|]. unfold maxAllowedOffsetSecs. lia.
Qed.

Lemma reachable_inv m : time_reachable m -> clock_inv m.
Proof. induction 1; [split; cbn; unfold maxMedianTimeEntries, maxAllowedOffsetSecs; lia|by apply AddTimeSample_inv]. Qed.

(** * Properties *)

(** However many peers report their clocks, the adjusted time stays within
    70 minutes of the local clock and at most 200 samples are kept; a sample
    from a known peer changes nothing; and once 200 samples are present the
    offset is never updated again, since only odd counts update it. *)
Theorem adjusted_clock_bounded (m : medianTime) (id : bytes) (timeVal now : Z) :
  time_reachable m ->
  (length (offsets m) <= maxMedianTimeEntries)%nat /\
  Z.abs (AdjustedTime m now - now) < maxAllowedOffsetSecs /\
  (id ∈ knownIDs m -> AddTimeSample m id timeVal now = m) /\
  (length (offsets m) = maxMedianTimeEntries -> offsetSecs (AddTimeSample m id timeVal now) = offsetSecs m).
Proof.
  intros R. destruct (reachable_inv m R) as [Hl Ho]. split; [done|]. split; [unfold AdjustedTime; lia|].
  split; [apply AddTimeSample_known|]. intros Hf.
  destruct (decide (id ∈ knownIDs m)) as [D|D]; [by rewrite AddTimeSample_known|].
  destruct (AddTimeSample_fresh m id timeVal now (drop 1 (offsets m) ++ [sub_seconds timeVal now]) D Hl)
    as (_ & _ & _ & B); [by rewrite decide_True by done|].
  rewrite length_app, length_drop, Hf in B. by rewrite decide_False in B by (by intros [_ ?]).
Qed.

Lemma adjusted_clock_bounded_witness :
  Z.abs (AdjustedTime (AddTimeSample NewMedianTime [1] 1000 7) 7 - 7) < maxAllowedOffsetSecs.
Proof.
  apply (adjusted_clock_bounded (AddTimeSample NewMedianTime [1] 1000 7) [] 0). repeat constructor.
Defined.

(** On an odd number of samples from five to 199, with the new sample
    included, the offset becomes the true median of the samples (no more than
    half of them below it, no more than half above it) when that is within 70
    minutes, and zero otherwise. *)
Theorem clock_median (m : medianTime) (id : bytes) (timeVal now : Z) :
  id ∉ knownIDs m -> (4 <= length (offsets m) < maxMedianTimeEntries)%nat -> Nat.Even (length (offsets m)) ->
  let m' := AddTimeSample m id timeVal now in
  let offs := offsets m ++ [sub_seconds timeVal now] in
  offsets m' = offs /\
  exists med, med ∈ offs /\ offsetSecs m' = (if decide (Z.abs med < maxAllowedOffsetSecs) then med else 0) /\
    (2 * below med offs < length offs)%nat /\ (length offs <= 2 * below (med + 1) offs)%nat.
Proof.
  intros Hid Hl Ev m' offs.
  destruct (AddTimeSample_fresh m id timeVal now offs Hid ltac:(lia)) as (_ & E & _ & B); [by rewrite decide_False by lia|].
  fold m' in E, B. revert B. assert (L : length offs = S (length (offsets m))) by (subst offs; rewrite length_app; simpl; lia).
  assert (O : Nat.Odd (length offs)) by (rewrite L; by apply Nat.Odd_succ).
  rewrite decide_True by (rewrite Nat.odd_spec; split; [lia|done]). intros (med & Em & Eo). split; [done|].
  destruct (median_some offs) as (med' & Em' & Hin); [by intros ?; subst offs; destruct (offsets m)|].
  rewrite Em in Em'. injection Em' as <-. exists med. split; [done|]. split; [done|].
  pose proof (proj2 (median_below offs med med Em) ltac:(lia)) as B1.
  pose proof (median_below offs med (med + 1) Em) as B2.
  destruct O as [k Hk]. rewrite Hk in *.
  assert (Nat.div (2 * k + 1) 2 = k) as Ek by (symmetry; apply (Nat.div_unique _ _ k 1); lia).
  rewrite Ek in *. split; [lia|].
  destruct (decide (below (med + 1) offs <= k)%nat) as [D|D]; [apply B2 in D; lia|lia].
Qed.

Lemma clock_median_witness :
  offsets (AddTimeSample (mkMedianTime ∅ [5; -7; 90; 0] 0 false) [1] 110 100) = [5; -7; 90; 0; 10] /\
  offsetSecs (AddTimeSample (mkMedianTime ∅ [5; -7; 90; 0] 0 false) [1] 110 100) = 5.
Proof.
  destruct (clock_median (mkMedianTime ∅ [5; -7; 90; 0] 0 false) [1] 110 100) as (E & _).
  - by_decision.
  - unfold maxMedianTimeEntries. cbn. lia.
  - exists 2%nat. reflexivity.
  - split; [exact E|vm_compute; reflexivity].
Defined.

Lemma below_app v l l' : below v (l ++ l') = (below v l + below v l')%nat.
Proof. unfold below. by rewrite list.filter_app, length_app. Qed.

(** The window of the next block: one timestamp enters, at most one leaves. *)
Lemma below_window v x l n :
  v <= x -> (below v (take (S n) (x :: l)) <= below v (take (S n) l))%nat.
Proof.
  intros H. cbn [take]. rewrite below_cons, decide_False by lia. cbn.
  rewrite <- (take_drop n (take (S n) l)), take_take, below_app, Nat.min_l by lia. lia.
Qed.

Lemma CalcPastMedianTime_median nodes : CalcPastMedianTime nodes = median (take medianTimeBlocks (map n_Timestamp nodes)).
Proof. unfold CalcPastMedianTime, median. by rewrite firstn_map. Qed.

(** The median time of the last eleven blocks is one of their timestamps,
    and it never decreases along a chain whose blocks respect the rule of
    [PowCheckBlockContext] (timestamp after the median of the predecessors);
    the timestamp chosen for a mined block respects that rule. *)
Theorem past_median_monotone (node : BlockNode) (ancestors : list BlockNode) (clock : medianTime) (now : Z) :
  ancestors <> [] ->
  exists old, CalcPastMedianTime ancestors = Some old /\
    (exists n, n ∈ take 11 ancestors /\ n_Timestamp n = old) /\
    old < MedianAdjustedTime clock now old /\
    (old < n_Timestamp node -> exists new, CalcPastMedianTime (node :: ancestors) = Some new /\ old <= new).
Proof.
  intros Hne. set (ts := map n_Timestamp ancestors). rewrite !CalcPastMedianTime_median. fold ts.
  assert (ts <> []) by (by destruct ancestors).
  destruct (median_some (take medianTimeBlocks ts)) as (old & Eo & Ho); [by destruct ts|].
  exists old. split; [done|]. split; [|split].
  - subst ts. rewrite firstn_map in Ho. apply list_elem_of_fmap in Ho as (n & -> & Hn). eauto.
  - unfold MedianAdjustedTime. destruct (Z.ltb_spec (AdjustedTime clock now) (old + 1)); lia.
  - intros Hn. cbn [map]. fold ts.
    destruct (median_some (take medianTimeBlocks (n_Timestamp node :: ts))) as (new & En & _); [done|].
    exists new. split; [done|]. apply (median_below _ _ old En).
    etrans; [apply below_window; lia|]. etrans; [apply (median_below _ _ old Eo); lia|].
    apply Nat.Div0.div_le_mono. rewrite !length_take. cbn [length]. lia.
Qed.

Lemma past_median_monotone_witness :
  exists old, CalcPastMedianTime [sample_node 2 30 0; sample_node 1 20 0; sample_node 0 10 0] = Some old /\
    (old < n_Timestamp (sample_node 3 25 0) ->
     exists new, CalcPastMedianTime (sample_node 3 25 0 :: [sample_node 2 30 0; sample_node 1 20 0; sample_node 0 10 0])
                 = Some new /\ old <= new).
Proof.
  destruct (past_median_monotone (sample_node 3 25 0) [sample_node 2 30 0; sample_node 1 20 0; sample_node 0 10 0]
              NewMedianTime 100) as (old & E & _ & _ & M); [discriminate|].
  exists old. split; [exact E|exact M].
Defined.
