(* ===== verification/Vm.v ===== *)
(** [vm]: stack items, the random-access stack, the script reader, the engine
    and its opcodes.

    Arithmetic changes its first operand in place, so items have identities: an
    integer has a pointer to its [big.Int], which copies of the item share, and
    the array of its words, which a result shares with the operand it was
    computed in; a byte array has its backing array.  A change of a [big.Int] is
    seen by every item with its pointer.  An operation either returns, panics, or
    is outside the model ([Unmodelled]): writing words that an item with another
    pointer shares, or appending to an array that another item shares, where the
    outcome depends on the capacities the run time chose.

    The engine is a record threaded through a state monad.  A stack is a list
    in the order of its Go slice: bottom first. *)

From S2P Require Import Prelude Sha256 Serialization Common.

(** * Outcomes *)

Inductive outcome (A : Type) :=
  | Ok (a : A)
  | Panic
  | Unmodelled.
Arguments Ok {A} a.
Arguments Panic {A}.
Arguments Unmodelled {A}.

(** * types/ *)

(** The elements of an array are interfaces and may be nil. *)
Inductive StackItem :=
  | Integer (ptr words : nat) (value : Z)
  | Boolean (value : bool)
  | ByteArray (array : nat) (value : bytes)
  | Array (_array : list (option StackItem)).

(** [math/big]: [Bytes] of the absolute value, big-endian without leading
    zeros, and [SetBytes]. *)
Fixpoint big_Bytes_loop (fuel : nat) (n : Z) (acc : bytes) : bytes :=
  match fuel with
  | O => acc
  | S fuel => if n =? 0 then acc else big_Bytes_loop fuel (n / 256) (n mod 256 :: acc)
  end.
Definition big_Bytes (n : Z) : bytes := big_Bytes_loop (Z.to_nat (Z.log2 (Z.abs n) / 8 + 1)) (Z.abs n) [].

Fixpoint GetBigInteger (i : StackItem) : outcome Z :=
  match i with
  | Integer _ _ v => Ok v
  | Boolean b => Ok (if b then 1 else 0)
  | ByteArray _ b => Ok (be_val b)
  | Array [] => Ok 0
  | Array (Some x :: _) => GetBigInteger x
  | Array (None :: _) => Panic
  end.

Fixpoint GetBoolean (i : StackItem) : outcome bool :=
  match i with
  | Integer _ _ v => Ok (negb (v =? 0))
  | Boolean b => Ok b
  | ByteArray _ b => Ok (existsb (fun x => negb (x =? 0)) b)
  | Array [] => Ok false
  | Array (Some x :: _) => GetBoolean x
  | Array (None :: _) => Panic
  end.

Definition GetByteArray (i : StackItem) : bytes :=
  match i with
  | Integer _ _ v => big_Bytes v
  | Boolean b => [if b then 1 else 0]
  | ByteArray _ b => b
  | Array _ => []
  end.

Definition GetArray (i : StackItem) : list (option StackItem) :=
  match i with Array l => l | _ => [Some i] end.

(** [b1.Equals(b2)] with a possibly nil argument; comparing a nil element
    panics. *)
Fixpoint Equals (i : StackItem) (other : option StackItem) : outcome bool :=
  match i, other with
  | Integer _ _ v, Some (Integer _ _ w) => Ok (v =? w)
  | Boolean b, Some (Boolean c) => Ok (Bool.eqb b c)
  | ByteArray _ b, Some (ByteArray _ c) => Ok (bool_decide (b = c))
  | Array l, Some (Array m) =>
      if negb (length l =? length m)%nat then Ok false
      else
        (fix go (l m : list (option StackItem)) : outcome bool :=
           match l, m with
           | Some x :: l, y :: m =>
               match Equals x y with
               | Ok true => go l m
               | r => r
               end
           | None :: _, _ => Panic
           | _, _ => Ok true
           end) l m
  | _, _ => Ok false
  end.

(** *** Identities *)

(** The [big.Int] that [GetBigInteger] returns: that of an integer, or a new one
    ([None]). *)
Fixpoint big_ref (i : StackItem) : option (nat * nat) :=
  match i with
  | Integer p w _ => Some (p, w)
  | Array (Some x :: _) => big_ref x
  | _ => None
  end.
(** A test that holds somewhere in an item, and a change everywhere in it. *)
Fixpoint occurs (f : StackItem -> bool) (i : StackItem) : bool :=
  match i with
  | Array l => existsb (fun x => match x with Some x => occurs f x | None => false end) l
  | i => f i
  end.
Fixpoint everywhere (f : StackItem -> StackItem) (i : StackItem) : StackItem :=
  match i with
  | Array l => Array (map (fun x => match x with Some x => Some (everywhere f x) | None => None end) l)
  | i => f i
  end.
Definition shares_words (p w : nat) (i : StackItem) : bool :=
  match i with Integer q v _ => (v =? w)%nat && negb (q =? p)%nat | _ => false end.
Definition shares_array (a : nat) (i : StackItem) : bool :=
  match i with ByteArray b _ => (b =? a)%nat | _ => false end.
Definition set_big (p : nat) (v : Z) (i : StackItem) : StackItem :=
  match i with Integer q w u => if (q =? p)%nat then Integer q w v else i | i => i end.

(** What the evaluation stack holds: an item, a nil, or another Go value, on
    which [AssertStackItem] gives nil. *)
Inductive elem :=
  | EItem (i : StackItem)
  | ENil
  | EOther.

Definition AssertStackItem (x : elem) : option StackItem :=
  match x with EItem i => Some i | _ => None end.

Definition elem_occurs (f : StackItem -> bool) (x : elem) : bool := match x with EItem i => occurs f i | _ => false end.
Definition elem_everywhere (f : StackItem -> StackItem) (x : elem) : elem := match x with EItem i => EItem (everywhere f i) | x => x end.

(** * utils/stack.go *)

Section RandomAccessStack.
Context {A : Type}.
Definition Count (l : list A) : Z := Z.of_nat (length l).

(** [None] inside is the nil of an index beyond the bottom. *)
Definition Peek (l : list A) (index : Z) : outcome (option A) :=
  if Count l <=? index then Ok None
  else if index <? 0 then Panic
  else Ok (l !! Z.to_nat (Count l - index - 1)).

Definition Remove (l : list A) (index : Z) : outcome (option A * list A) :=
  if Count l <=? index then Ok (None, l)
  else if index <? 0 then Panic
  else
    let i := Z.to_nat (Count l - index - 1) in
    Ok (l !! i, take i l ++ drop (S i) l).

(** [array = append(array, ras.Element[:index])] stores the whole prefix as
    one element, [raw]. *)
Definition Insert (raw : A) (l : list A) (index : Z) (t : A) : outcome (list A) :=
  if Count l <? index then Ok l
  else if index =? 0 then Ok (l ++ [t])
  else if index <? 0 then Panic
  else
    let i := Z.to_nat (Count l - index) in
    Ok ([raw; t] ++ drop i l).

Definition Push (l : list A) (t : A) : list A := l ++ [t].
Definition Pop (l : list A) : option A * list A :=
  match rev l with [] => (None, l) | x :: r => (Some x, rev r) end.

Definition RAS_Set (l : list A) (index : Z) (t : A) : outcome (list A) :=
  if Count l <=? index then Ok l
  else if index <? 0 then Panic
  else Ok (<[Z.to_nat index := t]> l).

Definition Swap (l : list A) (i j : Z) : outcome (list A) :=
  match l !! Z.to_nat i, l !! Z.to_nat j with
  | Some x, Some y =>
      if (0 <=? i) && (0 <=? j) then Ok (<[Z.to_nat j := x]> (<[Z.to_nat i := y]> l)) else Panic
  | _, _ => Panic
  end.
End RandomAccessStack.

(** * utils/vm_reader.go

    The reader is the unread rest of the script. *)

Definition vm_ReadByte (r : bytes) : option Z * bytes :=
  match r with [] => (None, []) | b :: r => (Some b, r) end.

(** Missing bytes are read as zeros. *)
Definition vm_ReadBytes (r : bytes) (count : Z) : bytes * bytes :=
  let n := Z.to_nat count in
  (take n r ++ replicate (n - length r) 0, drop n r).

Definition vm_ReadUint16 (r : bytes) : Z * bytes := let '(b, r) := vm_ReadBytes r 2 in (le_val b, r).
Definition vm_ReadUInt32 (r : bytes) : Z * bytes := let '(b, r) := vm_ReadBytes r 4 in (le_val b, r).
Definition vm_ReadUInt64 (r : bytes) : Z * bytes := let '(b, r) := vm_ReadBytes r 8 in (le_val b, r).
Definition vm_ReadInt16 (r : bytes) : Z * bytes := let '(b, r) := vm_ReadBytes r 2 in (int16 (be_val b), r).
Definition vm_ReadInt32 (r : bytes) : Z * bytes := let '(b, r) := vm_ReadBytes r 4 in (int32 (be_val b), r).

Definition vm_ReadVarInt (r : bytes) (max : Z) : Z * bytes :=
  let '(fb, r) := vm_ReadByte r in
  let fb := default 0 fb in
  let '(value, r) :=
    if fb =? 0xFD then let '(v, r) := vm_ReadInt16 r in (uint64 v, r)
    else if fb =? 0xFE then vm_ReadUInt32 r
    else if fb =? 0xFF then vm_ReadUInt64 r
    else (fb, r) in
  if max <? value then (0, r) else (value, r).

Definition vm_ReadVarBytes (r : bytes) (max : Z) : bytes * bytes :=
  let '(n, r) := vm_ReadVarInt r (uint64 max) in vm_ReadBytes r n.
Definition vm_ReadVarString (r : bytes) : bytes * bytes := vm_ReadVarBytes r 0x7fffffc7.

(** * The engine *)

Record ExecutionContext := mkContext {
  Script : bytes; OpReader : bytes; PushOnly : bool; InstructionPointer : Z }.
Definition NewExecutionContext (script : bytes) (pushOnly : bool) : ExecutionContext :=
  mkContext script script pushOnly 0.
Definition Clone (ec : ExecutionContext) : ExecutionContext := NewExecutionContext (Script ec) (PushOnly ec).

Definition VMState := Z.
Definition NONE : VMState := 0.
Definition HALT : VMState := 1.
Definition FAULT : VMState := 2.
Definition BREAK : VMState := 4.
Definition MAXSTEPS : Z := 1200.

(** [allocated]: the identities given out so far. *)
Record Engine := mkEngine {
  invocationStack : list ExecutionContext; opCount : Z; maxSteps : Z;
  evaluationStack : list elem; altStack : list elem; state : VMState;
  context : ExecutionContext; opCode : Z; allocated : nat }.

Definition no_context : ExecutionContext := NewExecutionContext [] false.
Definition NewExecutionEngine (maxSteps : Z) : Engine :=
  mkEngine [] 0 maxSteps [] [] BREAK no_context 0 0.

Definition with_invocation (e : Engine) v := mkEngine v (opCount e) (maxSteps e) (evaluationStack e)
  (altStack e) (state e) (context e) (opCode e) (allocated e).
Definition with_opCount (e : Engine) v := mkEngine (invocationStack e) v (maxSteps e) (evaluationStack e)
  (altStack e) (state e) (context e) (opCode e) (allocated e).
Definition with_stack (e : Engine) v := mkEngine (invocationStack e) (opCount e) (maxSteps e) v
  (altStack e) (state e) (context e) (opCode e) (allocated e).
Definition with_alt (e : Engine) v := mkEngine (invocationStack e) (opCount e) (maxSteps e) (evaluationStack e)
  v (state e) (context e) (opCode e) (allocated e).
Definition with_state (e : Engine) v := mkEngine (invocationStack e) (opCount e) (maxSteps e) (evaluationStack e)
  (altStack e) v (context e) (opCode e) (allocated e).
Definition with_op (e : Engine) c o := mkEngine (invocationStack e) (opCount e) (maxSteps e) (evaluationStack e)
  (altStack e) (state e) c o (allocated e).
Definition with_allocated (e : Engine) v := mkEngine (invocationStack e) (opCount e) (maxSteps e) (evaluationStack e)
  (altStack e) (state e) (context e) (opCode e) v.
Definition with_reader (e : Engine) (r : bytes) := with_op e
  (mkContext (Script (context e)) r (PushOnly (context e)) (InstructionPointer (context e))) (opCode e).
Definition with_ip (e : Engine) (ip : Z) := with_op e
  (mkContext (Script (context e)) (OpReader (context e)) (PushOnly (context e)) ip) (opCode e).

(** ** The monad *)

Definition vm (A : Type) := Engine -> outcome (A * Engine).
#[global] Instance vm_ret : MRet vm := fun A a e => Ok (a, e).
#[global] Instance vm_bind : MBind vm := fun A B f m e =>
  match m e with
  | Ok (a, e) => f a e
  | Panic => Panic
  | Unmodelled => Unmodelled
  end.
Definition panic {A} : vm A := fun _ => Panic.
Definition unmodelled {A} : vm A := fun _ => Unmodelled.
Definition lift {A} (o : outcome A) : vm A := fun e =>
  match o with Ok a => Ok (a, e) | Panic => Panic | Unmodelled => Unmodelled end.
Definition get : vm Engine := fun e => Ok (e, e).
Definition modify (f : Engine -> Engine) : vm unit := fun e => Ok (tt, f e).

Definition set_stack (l : list elem) : vm unit := modify (fun e => with_stack e l).

(** An operation ends with a state and an error. *)
Definition op := vm (VMState * err).
Definition done_op : op := mret (NONE, None).
(** [return FAULT, nil]. *)
Definition fault_nil : op := mret (FAULT, None).
Definition fault_err (msg : error) : op := mret (FAULT, Some msg).

Definition count : vm Z := e ← get; mret (Count (evaluationStack e)).
Definition pop : vm elem :=
  e ← get;
  let '(x, l) := Pop (evaluationStack e) in
  _ ← set_stack l;
  mret (default ENil x).
Definition push (x : elem) : vm unit := modify (fun e => with_stack e (Push (evaluationStack e) x)).
Definition peek (n : Z) : vm elem :=
  e ← get; x ← lift (Peek (evaluationStack e) n); mret (default ENil x).
(** [AssertStackItem(x).Method()]: a method of a nil interface panics. *)
Definition item (x : elem) : vm StackItem :=
  match AssertStackItem x with Some i => mret i | None => panic end.
Definition pop_item : vm StackItem := x ← pop; item x.
Definition pop_int : vm Z := i ← pop_item; lift (GetBigInteger i).
(** The [big.Int] of the popped item and its value. *)
Definition pop_big : vm (option (nat * nat) * Z) := i ← pop_item; v ← lift (GetBigInteger i); mret (big_ref i, v).
Definition new : vm nat := e ← get; _ ← modify (fun e => with_allocated e (S (allocated e))); mret (allocated e).
Definition pop_bool : vm bool := i ← pop_item; lift (GetBoolean i).
Definition pop_bytes : vm bytes := i ← pop_item; mret (GetByteArray i).
(** [int(x.GetBigInteger().Int64())]. *)
Definition pop_int64 : vm Z := n ← pop_int; mret (int64 n).
Definition read {A} (f : bytes -> A * bytes) : vm A :=
  e ← get;
  let '(a, r) := f (OpReader (context e)) in
  _ ← modify (fun e => with_reader e r);
  mret a.

(** [if e.evaluationStack.Count() < n { return FAULT, nil }]. *)
Definition need (n : Z) (k : op) : op := c ← count; if c <? n then fault_nil else k.

(** ** Opcodes *)

Definition PUSHBYTES1 : Z := 0x01.
Definition PUSHBYTES75 : Z := 0x4B.
Definition PUSH1 : Z := 0x51.
Definition PUSH16 : Z := 0x60.
Definition JMP : Z := 0x62.
Definition JMPIFNOT : Z := 0x64.
Definition RET : Z := 0x66.
Definition CHECKSIG : Z := 0xAC.
Definition CHECKMULTISIG : Z := 0xAE.

(** *** func_pushdata.go *)

Definition push_item (i : StackItem) : op := _ ← push (EItem i); done_op.
(** [pushData] of a new number, of new bytes, and of a [*big.Int]: the struct is
    copied, its words are not. *)
Definition push_int (v : Z) : op := p ← new; push_item (Integer p p v).
Definition push_bytes (v : bytes) : op := a ← new; push_item (ByteArray a v).
Definition push_big (r : option (nat * nat)) (v : Z) : op :=
  match r with Some (_, w) => p ← new; push_item (Integer p w v) | None => push_int v end.

(** [getPushData] for the opcodes the table sends to [opPushData]. *)
Definition getPushData : vm StackItem :=
  e ← get;
  let op := opCode e in
  if op =? 0x00 then a ← new; mret (ByteArray a [0])
  else if op =? 0x4C then d ← read vm_ReadByte; b ← read (fun r => vm_ReadBytes r (default 0 d)); a ← new; mret (ByteArray a b)
  else if op =? 0x4D then d ← read vm_ReadUint16; b ← read (fun r => vm_ReadBytes r d); a ← new; mret (ByteArray a b)
  else if op =? 0x4E then d ← read vm_ReadInt32; b ← read (fun r => vm_ReadBytes r d); a ← new; mret (ByteArray a b)
  else p ← new; mret (Integer p p (int8 (uint8 (op - PUSH1 + 1)))).
Definition opPushData : op := data ← getPushData; push_item data.

(** *** func_flowcontrol.go *)

Definition opNop : op := done_op.

Definition opJmp : op :=
  offset ← read vm_ReadInt16;
  e ← get;
  let offset := int64 (InstructionPointer (context e) + offset - 3) in
  if (offset <? 0) || (Z.of_nat (length (Script (context e))) <? offset)
  then fault_err (NewError "The exeution meet fault")
  else
    fValue ← (if JMP <? opCode e then
                b ← pop_bool; mret (if opCode e =? JMPIFNOT then negb b else b)
              else mret true);
    _ ← (if fValue : bool then modify (fun e => with_ip e offset) else mret tt);
    done_op.

(** The result of [opJmp] is dropped. *)
Definition opCall : op :=
  _ ← modify (fun e => with_invocation e (Push (invocationStack e) (Clone (context e))));
  _ ← modify (fun e => with_ip e (int64 (InstructionPointer (context e) + 2)));
  _ ← opJmp;
  done_op.

(** The popped context is not a stack item. *)
Definition opRet : op :=
  e ← get;
  if Count (invocationStack e) <? 2 then fault_nil else panic.

(** [e.table] is nil in every engine the node creates. *)
Definition opAppCall : op := fault_nil.

(** The names of [NewInteropService]; each handler pushes a value that is not
    a stack item. *)
Definition ascii_bytes (s : string) : bytes := map (fun a => Z.of_nat (Ascii.nat_of_ascii a)) (String.list_ascii_of_string s).
Definition InteropService_Invoke (method : bytes) : vm bool :=
  if decide (method = ascii_bytes "System.ScriptEngine.GetScriptContainer") then _ ← push EOther; mret true
  else if decide (method = ascii_bytes "System.ScriptEngine.GetExecutingScriptHash") then _ ← push EOther; mret true
  else if decide (method = ascii_bytes "System.ScriptEngine.GetCallingScriptHash") then _ ← push EOther; mret true
  else if decide (method = ascii_bytes "System.ScriptEngine.GetEntryScriptHash") then
    e ← get;
    _ ← lift (Peek (invocationStack e) (Count (invocationStack e) - 1));
    _ ← push EOther; mret true
  else mret false.
Definition opSysCall : op :=
  method ← read vm_ReadVarString;
  success ← InteropService_Invoke method;
  if success : bool then done_op else fault_nil.

(** *** func_stack.go *)

Definition opToAltStack : op :=
  need 1 (x ← pop; _ ← modify (fun e => with_alt e (Push (altStack e) x)); done_op).
(** The guard looks at the wrong stack: an empty alt stack yields a nil. *)
Definition opFromAltStack : op :=
  need 1 (e ← get;
          let '(x, l) := Pop (altStack e) in
          _ ← modify (fun e => with_alt e l);
          _ ← push (default ENil x); done_op).
Definition opXDrop : op :=
  need 1 (n ← pop_int64;
          if n <? 0 then fault_nil
          else
            e ← get;
            r ← lift (Remove (evaluationStack e) n);
            _ ← set_stack r.2; done_op).
Definition opXSwap : op :=
  need 1 (n ← pop_int64; c ← count;
          if (n <? 0) || (c - 1 <? n) then fault_nil
          else
            e ← get;
            l ← lift (Swap (evaluationStack e) 0 n);
            _ ← set_stack l; done_op).
Definition opXTuck : op :=
  need 1 (n ← pop_int64; c ← count;
          if (n <? 0) || (c - 1 <? n) then fault_nil
          else
            x ← peek 0; e ← get;
            l ← lift (Insert EOther (evaluationStack e) n x);
            _ ← set_stack l; done_op).
Definition opDepth : op := c ← count; push_int c.
Definition opDrop : op := need 1 (_ ← pop; done_op).
Definition opDup : op := need 1 (x ← peek 0; _ ← push x; done_op).
Definition opNip : op := need 2 (x2 ← pop; _ ← pop; _ ← push x2; done_op).
Definition opOver : op := need 2 (x2 ← pop; x1 ← peek 0; _ ← push x2; _ ← push x1; done_op).
Definition opPick : op :=
  need 2 (n ← pop_int64;
          if n <? 0 then fault_nil
          else
            c ← count;
            if c <? int64 (n + 1) then fault_nil else x ← peek n; _ ← push x; done_op).
Definition opRoll : op :=
  need 2 (n ← pop_int64;
          if n <? 0 then fault_nil
          else if n =? 0 then done_op
          else
            c ← count;
            if c <? int64 (n + 1) then fault_nil
            else
              e ← get;
              r ← lift (Remove (evaluationStack e) n);
              _ ← set_stack r.2;
              _ ← push (default ENil r.1); done_op).
Definition opRot : op :=
  need 3 (x3 ← pop; x2 ← pop; x1 ← pop; _ ← push x2; _ ← push x3; _ ← push x1; done_op).
Definition opSwap : op := need 2 (x2 ← pop; x1 ← pop; _ ← push x2; _ ← push x1; done_op).
Definition opTuck : op := need 2 (x2 ← pop; x1 ← pop; _ ← push x2; _ ← push x1; _ ← push x2; done_op).

(** *** func_splice.go *)

(** [GetByteArray]: the array of an item, or a new one. *)
Definition item_slice (i : StackItem) : vm (nat * bytes) :=
  match i with ByteArray a b => mret (a, b) | _ => a ← new; mret (a, GetByteArray i) end.
(** [append] to an array no other item has. *)
Definition opCat : op :=
  need 2 (x2 ← pop; x1 ← pop; i1 ← item x1; i2 ← item x2;
          '(a, b1) ← item_slice i1;
          let b2 := GetByteArray i2 in
          if negb (length b1 =? length b2)%nat then fault_nil else
          e ← get;
          if (length b2 =? 0)%nat then push_item (ByteArray a b1)
          else if existsb (elem_occurs (shares_array a)) (evaluationStack e ++ altStack e) then unmodelled
          else push_bytes (b1 ++ b2)).

Definition opSubStr : op :=
  need 3 (count ← pop_int64;
          if count <? 0 then fault_nil else
          index ← pop_int64;
          if index <? 0 then fault_nil else
          i ← pop_item;
          '(a, s) ← item_slice i;
          let l1 := int64 (index + count) in
          let l2 := Z.of_nat (length s) in
          if l2 <? l1 then fault_nil
          else
            let hi := l2 - l1 + 1 in
            (** beyond [len(s)] the slice depends on the capacity *)
            if hi =? l2 + 1 then unmodelled
            else if (l2 <? hi) || (hi <? index) then panic
            else push_item (ByteArray a (take (Z.to_nat (hi - index)) (drop (Z.to_nat index) s)))).
Definition opLeft : op :=
  need 2 (count ← pop_int64;
          if count <? 0 then fault_nil else
          i ← pop_item;
          '(a, s) ← item_slice i;
          if Z.of_nat (length s) <? count then fault_nil
          else push_item (ByteArray a (take (Z.to_nat count) s))).
Definition opRight : op :=
  need 2 (count ← pop_int64;
          if count <? 0 then fault_nil else
          i ← pop_item;
          '(a, s) ← item_slice i;
          if Z.of_nat (length s) <? count then fault_nil
          else push_item (ByteArray a (drop (length s - Z.to_nat count) s))).
Definition opSize : op :=
  need 1 (x ← peek 0; i ← item x; push_int (Z.of_nat (length (GetByteArray i)))).

(** *** func_bitwise.go, func_arithmetic.go *)

Definition opEqual : op :=
  need 2 (x2 ← pop; x1 ← pop; b1 ← item x1;
          b ← lift (Equals b1 (AssertStackItem x2)); push_item (Boolean b)).
Definition opNot : op := need 1 (x ← pop_bool; push_item (Boolean (negb x))).
Definition opNz : op := need 1 (x ← pop_int; push_item (Boolean (negb (x =? 0)))).

(** Changes a [big.Int] and pushes it: every item with the pointer sees the new
    value. *)
Definition set_live (p : nat) (v : Z) (e : Engine) : Engine :=
  with_alt (with_stack e (map (elem_everywhere (set_big p v)) (evaluationStack e))) (map (elem_everywhere (set_big p v)) (altStack e)).
Definition assign (r : option (nat * nat)) (v : Z) : op :=
  match r with
  | None => push_int v
  | Some (p, w) =>
      e ← get;
      if existsb (elem_occurs (shares_words p w)) (evaluationStack e ++ altStack e) then unmodelled
      else _ ← modify (set_live p v); push_big r v
  end.
Definition BigIntOp (x op : Z) : Z :=
  if op =? 0x8B then x + 1
  else if op =? 0x8C then x - 1
  else if op =? 0x8D then Z.shiftl x 1
  else if op =? 0x8E then Z.shiftr x 1
  else if op =? 0x8F then - x
  else if op =? 0x90 then Z.abs x
  else x.
Definition opBigInt : op := need 1 ('(r, x) ← pop_big; e ← get; assign r (BigIntOp x (opCode e))).
Definition opInvert : op := need 1 ('(r, x) ← pop_big; assign r (Z.lnot x)).

(** [Div] and [Mod] of [math/big] are Euclidean and panic on zero.  A shift takes
    the low 64 bits of its amount; to the left by more than 2^32 bits the
    result depends on the memory there is. *)
Definition big_Div (x y : Z) : outcome Z := if y =? 0 then Panic else Ok (Z.sgn y * (x / Z.abs y)).
Definition big_Mod (x y : Z) : outcome Z := if y =? 0 then Panic else Ok (x mod Z.abs y).
Definition big_Lsh (x s : Z) : outcome Z := if x =? 0 then Ok 0 else if 2 ^ 32 <? s then Unmodelled else Ok (Z.shiftl x s).
Definition big_Rsh (x s : Z) : Z := if Z.log2 (Z.abs x) <? s then (if x <? 0 then -1 else 0) else Z.shiftr x s.
Definition BigIntZip (x1 x2 op : Z) : outcome Z :=
  if op =? 0x84 then Ok (Z.land x1 x2)
  else if op =? 0x85 then Ok (Z.lor x1 x2)
  else if op =? 0x86 then Ok (Z.lxor x1 x2)
  else if op =? 0x93 then Ok (x1 + x2)
  else if op =? 0x94 then Ok (x1 - x2)
  else if op =? 0x95 then Ok (x1 * x2)
  else if op =? 0x96 then big_Div x1 x2
  else if op =? 0x97 then big_Mod x1 x2
  else if op =? 0x98 then big_Lsh x1 (uint64 (int64 x2))
  else if op =? 0x99 then Ok (big_Rsh x1 (uint64 (int64 x2)))
  else Panic.
(** Two integers with different pointers and the same words. *)
Definition overlap (r1 r2 : option (nat * nat)) : bool :=
  match r1, r2 with Some (p1, w1), Some (p2, w2) => (w1 =? w2)%nat && negb (p1 =? p2)%nat | _, _ => false end.
(** MIN and MAX push one of the operands, unchanged. *)
Definition opBigIntZip : op :=
  need 2 ('(r2, x2) ← pop_big; '(r1, x1) ← pop_big; e ← get;
          if opCode e =? 0xA3 then (if x1 <=? x2 then push_big r1 x1 else push_big r2 x2)
          else if opCode e =? 0xA4 then (if x1 <=? x2 then push_big r2 x2 else push_big r1 x1)
          else if overlap r1 r2 then unmodelled
          else v ← lift (BigIntZip x1 x2 (opCode e)); assign r1 v).
Definition BoolZip (b1 b2 : bool) (op : Z) : bool :=
  if op =? 0x9A then b1 && b2 else if op =? 0x9B then b1 || b2 else false.
Definition opBoolZip : op :=
  need 2 (x2 ← pop_bool; x1 ← pop_bool; e ← get; push_item (Boolean (BoolZip x1 x2 (opCode e)))).
Definition BigIntMultiComp (x1 x2 op : Z) : bool :=
  if op =? 0x9C then x1 =? x2
  else if op =? 0x9E then negb (x1 =? x2)
  else if op =? 0x9F then x1 <? x2
  else if op =? 0xA0 then x2 <? x1
  else if op =? 0xA1 then x1 <=? x2
  else if op =? 0xA2 then x2 <=? x1
  else false.
Definition opBigIntComp : op :=
  need 2 (x2 ← pop_int; x1 ← pop_int; e ← get; push_item (Boolean (BigIntMultiComp x1 x2 (opCode e)))).
Definition WithInOp (x a b : Z) : bool :=
  BoolZip (BigIntMultiComp x a 0xA2) (BigIntMultiComp x b 0x9F) 0x9A.
Definition opWithIn : op :=
  need 3 (b ← pop_int; a ← pop_int; x ← pop_int; push_item (Boolean (WithInOp x a b))).

(** *** func_array.go *)

Definition opArraySize : op :=
  need 1 (i ← pop_item; push_int (Z.of_nat (length (GetArray i)))).
Fixpoint pop_items (n : nat) : vm (list (option StackItem)) :=
  match n with
  | O => mret []
  | S n => x ← pop; l ← pop_items n; mret (AssertStackItem x :: l)
  end.
Definition opPack : op :=
  need 1 (size ← pop_int64; c ← count;
          if (size <? 0) || (c <? size) then fault_nil
          else items ← pop_items (Z.to_nat size); push_item (Array items)).
Definition elem_of_item (x : option StackItem) : elem := match x with Some i => EItem i | None => ENil end.
Fixpoint push_all (l : list (option StackItem)) : vm unit :=
  match l with
  | [] => mret tt
  | x :: l => _ ← push (elem_of_item x); push_all l
  end.
Definition opUnpack : op :=
  need 1 (i ← pop_item;
          _ ← push_all (rev (GetArray i));
          push_int (Z.of_nat (length (GetArray i)))).
(** [NewStackItem] does not accept a stack item: ErrBadType. *)
Definition opPickItem : op :=
  need 1 (index ← pop_int64;
          if index <? 0 then fault_nil
          else
            i ← pop_item;
            if Z.of_nat (length (GetArray i)) <=? index then fault_nil
            else fault_err (NewError "bad type")).

(** *** func_crypto.go

    [ECDsaCrypto.VerifySignature] (point decoding and the curve of
    [crypto]) is a parameter, and so is the message the container signs.
    [Hash160] and [Hash256] of [ECDsaCrypto] return empty slices. *)

Class ICrypto := VerifySignature : bytes -> bytes -> bytes -> bool.

Definition Hash160 (message : bytes) : bytes := [].
Definition Hash256 (message : bytes) : bytes := [].

Section Engine.
Context `{crypto : ICrypto}.
Variable message : bytes.

Definition vm_Hash (b : bytes) (op : Z) : bytes :=
  if op =? 0xA7 then sha1 b
  else if op =? 0xA8 then sha256 b
  else if op =? 0xA9 then Hash160 b
  else if op =? 0xAA then Hash256 b
  else [].
Definition opHash : op := need 1 (x ← pop_bytes; e ← get; push_bytes (vm_Hash x (opCode e))).

Definition opCheckSig : op :=
  need 2 (pubkey ← pop_bytes; signature ← pop_bytes;
          push_item (Boolean (VerifySignature message signature pubkey))).

Fixpoint pop_byte_arrays (n : nat) : vm (list bytes) :=
  match n with
  | O => mret []
  | S n => b ← pop_bytes; l ← pop_byte_arrays n; mret (b :: l)
  end.

(** The keys without the first one that verifies [sig]; [None] if none does. *)
Fixpoint take_key (sig : bytes) (pubkeys : list bytes) : option (list bytes) :=
  match pubkeys with
  | [] => None
  | pk :: rest =>
      if VerifySignature message sig pk then Some rest
      else match take_key sig rest with Some r => Some (pk :: r) | None => None end
  end.

(** Every signature uses up the first key that verifies it. *)
Fixpoint match_signatures (signatures pubkeys : list bytes) : bool :=
  match signatures with
  | [] => true
  | sig :: rest =>
      match take_key sig pubkeys with
      | Some pubkeys => match_signatures rest pubkeys
      | None => false
      end
  end.

(** From the public keys on. *)
Definition multisig_rest (n : Z) : op :=
  pubkeys ← pop_byte_arrays (Z.to_nat n);
  m ← pop_int64;
  if (m <? 1) || (n <? m) then fault_err (NewError "invalid m in multisig") else
  c ← count;
  if c <? m then fault_err (NewError "signatures in stack is not enough") else
  signatures ← pop_byte_arrays (Z.to_nat m);
  push_item (Boolean (match_signatures signatures pubkeys)).

(** [make([][]byte, n)] panics beyond the addressable size; [n+2] and
    [opCount + n] wrap. *)
Definition opCheckMultiSig : op :=
  c ← count;
  if c <? 4 then fault_err (NewError "element count is not enough") else
  n ← pop_int64;
  if n <? 1 then fault_err (NewError "invalid n in multisig") else
  c ← count;
  if c <? int64 (n + 2) then fault_err (NewError "invalid element count") else
  _ ← modify (fun e => with_opCount e (int64 (opCount e + n)));
  e ← get;
  if maxSteps e <? opCount e then fault_err (NewError "too many OP code") else
  if negb (make_ok 24 n) then panic else
  multisig_rest n.

(** ** opcode_exec.go *)

Definition OpExecList (c : Z) : option op :=
  if (c =? 0x00) || (c =? 0x01) || (c =? 0x4B) || (c =? 0x4C) || (c =? 0x4D) || (c =? 0x4E) || (c =? 0x4F)
     || ((0x51 <=? c) && (c <=? 0x60)) then Some opPushData
  else if c =? 0x61 then Some opNop
  else if (0x62 <=? c) && (c <=? 0x64) then Some opJmp
  else if c =? 0x65 then Some opCall
  else if c =? 0x66 then Some opRet
  else if c =? 0x67 then Some opAppCall
  else if c =? 0x68 then Some opSysCall
  else if c =? 0x6B then Some opToAltStack
  else if c =? 0x6C then Some opFromAltStack
  else if c =? 0x6D then Some opXDrop
  else if c =? 0x72 then Some opXSwap
  else if c =? 0x73 then Some opXTuck
  else if c =? 0x74 then Some opDepth
  else if c =? 0x75 then Some opDrop
  else if c =? 0x76 then Some opDup
  else if c =? 0x77 then Some opNip
  else if c =? 0x78 then Some opOver
  else if c =? 0x79 then Some opPick
  else if c =? 0x7A then Some opRoll
  else if c =? 0x7B then Some opRot
  else if c =? 0x7C then Some opSwap
  else if c =? 0x7D then Some opTuck
  else if c =? 0x7E then Some opCat
  else if c =? 0x7F then Some opSubStr
  else if c =? 0x80 then Some opLeft
  else if c =? 0x81 then Some opRight
  else if c =? 0x82 then Some opSize
  else if c =? 0x83 then Some opInvert
  else if (0x84 <=? c) && (c <=? 0x86) then Some opBigIntZip
  else if c =? 0x87 then Some opEqual
  else if (0x8B <=? c) && (c <=? 0x90) then Some opBigInt
  else if c =? 0x91 then Some opNot
  else if c =? 0x92 then Some opNz
  else if (0x93 <=? c) && (c <=? 0x99) then Some opBigIntZip
  else if (0x9A <=? c) && (c <=? 0x9B) then Some opBoolZip
  else if (c =? 0x9C) || ((0x9E <=? c) && (c <=? 0xA2)) then Some opBigIntComp
  else if (0xA3 <=? c) && (c <=? 0xA4) then Some opBigIntZip
  else if c =? 0xA5 then Some opWithIn
  else if (0xA7 <=? c) && (c <=? 0xAA) then Some opHash
  else if c =? CHECKSIG then Some opCheckSig
  else if c =? CHECKMULTISIG then Some opCheckMultiSig
  else if c =? 0xC0 then Some opArraySize
  else if c =? 0xC1 then Some opPack
  else if c =? 0xC2 then Some opUnpack
  else if c =? 0xC3 then Some opPickItem
  else None.

(** ** execution_engine.go *)

Definition LoadScript (e : Engine) (script : bytes) (pushOnly : bool) : Engine :=
  with_invocation e (Push (invocationStack e) (NewExecutionContext script pushOnly)).

(** The context being executed is [context]; a FAULT without an error is
    reported as NONE. *)
Definition ExecuteOp (c : Z) : op :=
  e ← get;
  if (PUSH16 <? c) && negb (c =? RET) && PushOnly (context e) then fault_nil
  else if (PUSH16 <? c) && (maxSteps e <? opCount e) then fault_nil
  else if (PUSHBYTES1 <=? c) && (c <=? PUSHBYTES75)
  then b ← read (fun r => vm_ReadBytes r c); push_bytes b
  else
    _ ← modify (fun e => with_op e (context e) c);
    match OpExecList c with
    | None => fault_nil
    | Some exec =>
        '(st, er) ← exec;
        if is_err er then mret (st, er) else mret (NONE, None)
    end.

(** The inner loop of [StepInto]; [fuel] bounds the bytes left to read.  The
    64-bit counter of executed opcodes cannot overflow by single steps. *)
Fixpoint step_loop (fuel : nat) : vm unit :=
  match fuel with
  | O => mret tt
  | S fuel =>
      b ← read vm_ReadByte;
      match b with
      | None => mret tt
      | Some c =>
          _ ← modify (fun e => with_opCount e (opCount e + 1));
          '(st, _) ← ExecuteOp c;
          if st =? HALT then modify (fun e => with_state e (Z.lor (state e) HALT))
          else if st =? FAULT then modify (fun e => with_state e (Z.lor (state e) FAULT))
          else step_loop fuel
      end
  end.

Definition StepInto : vm unit :=
  _ ← modify (fun e => if Count (invocationStack e) =? 0 then with_state e (Z.lor (state e) HALT) else e);
  e ← get;
  if (Z.land (state e) HALT =? HALT) || (Z.land (state e) FAULT =? FAULT) then mret tt
  else
    match Pop (invocationStack e) with
    | (None, _) => panic
    | (Some c, rest) =>
        _ ← modify (fun e => with_op (with_invocation e rest) c
              (if Z.of_nat (length (Script c)) <=? InstructionPointer c then RET else opCode e));
        step_loop (S (length (OpReader c)))
    end.

(** [Execute] with at most [fuel] turns; [None]: not finished. *)
Fixpoint execute_loop (fuel : nat) (e : Engine) : option (outcome Engine) :=
  if (state e =? FAULT) || (state e =? HALT) || (state e =? BREAK) then Some (Ok e)
  else
    match fuel with
    | O => None
    | S fuel =>
        match StepInto e with
        | Ok (_, e) => execute_loop fuel e
        | Panic => Some Panic
        | Unmodelled => Some Unmodelled
        end
    end.
Definition Execute (fuel : nat) (e : Engine) : option (outcome Engine) :=
  execute_loop fuel (with_state e (Z.ldiff (state e) BREAK)).

Definition GetExecuteResult (e : Engine) : outcome bool :=
  match pop_bool e with Ok (b, _) => Ok b | Panic => Panic | Unmodelled => Unmodelled end.
End Engine.

(** * Frames

    What an ordinary opcode leaves alone: the invocation stack, the step
    counters and the state; and it never un-reads the script. *)

Definition frame (e e' : Engine) : Prop :=
  invocationStack e' = invocationStack e /\ opCount e' = opCount e /\ maxSteps e' = maxSteps e /\
  state e' = state e /\ (length (OpReader (context e')) <= length (OpReader (context e)))%nat.

#[global] Instance frame_preorder : PreOrder frame.
Proof.
  split.
  - intros e. repeat split; lia.
  - intros a b c (H1 & H2 & H3 & H4 & H5) (K1 & K2 & K3 & K4 & K5). repeat split; congruence || lia.
Qed.

Definition frames {A} (m : vm A) : Prop := forall e a e', m e = Ok (a, e') -> frame e e'.

Create HintDb vm.

Lemma frames_ret {A} (a : A) : frames (mret a).
Proof. intros e b e' [= -> ->]. reflexivity. Qed.
Lemma frames_panic {A} : frames (@panic A).
Proof. by intros e b e'. Qed.
Lemma frames_unmodelled {A} : frames (@unmodelled A).
Proof. by intros e b e'. Qed.
Lemma frames_get : frames get.
Proof. intros e b e' [= -> ->]. reflexivity. Qed.
Lemma frames_lift {A} (o : outcome A) : frames (lift o).
Proof. intros e b e' E. unfold lift in E. destruct o; [|done..]. injection E as -> ->. reflexivity. Qed.
Lemma frames_bind {A B} (m : vm A) (f : A -> vm B) : frames m -> (forall a, frames (f a)) -> frames (m ≫= f).
Proof.
  intros Hm Hf e b e' E. unfold mbind, vm_bind in E. destruct (m e) as [[a e1]| |] eqn:E1; [|done..].
  etrans; [by eapply Hm|by eapply Hf].
Qed.
Lemma frames_modify (f : Engine -> Engine) : (forall e, frame e (f e)) -> frames (modify f).
Proof. intros H e b e' [= <- <-]. apply H. Qed.
Lemma frame_with_stack e l : frame e (with_stack e l).
Proof. repeat split; cbn; lia. Qed.
Lemma frame_with_alt e l : frame e (with_alt e l).
Proof. repeat split; cbn; lia. Qed.
Lemma frame_with_allocated e n : frame e (with_allocated e n).
Proof. repeat split; cbn; lia. Qed.
Lemma frame_set_live p v e : frame e (set_live p v e).
Proof. repeat split; cbn; lia. Qed.
Lemma frame_with_ip e n : frame e (with_ip e n).
Proof. repeat split; cbn; lia. Qed.
Lemma frame_with_opcode e n : frame e (with_op e (context e) n).
Proof. repeat split; cbn; lia. Qed.
#[export] Hint Resolve frames_ret frames_panic frames_unmodelled frames_get frames_lift frames_modify
  frame_with_stack frame_with_alt frame_with_allocated frame_set_live frame_with_ip frame_with_opcode : vm.

(** Splits a computation along its binds and tests. *)
Ltac frames :=
  repeat first
    [ progress intros | assumption
    | solve [eauto with vm] | simple apply frames_bind
    | match goal with |- frames (match ?x with _ => _ end) => destruct x end ].

Lemma frames_read {A} (f : bytes -> A * bytes) :
  (forall r, length (f r).2 <= length r)%nat -> frames (read f).
Proof.
  intros H e a e' E. unfold read, mbind, vm_bind, get in E. specialize (H (OpReader (context e))).
  destruct (f (OpReader (context e))) as [x r] eqn:Ef. injection E as <- <-. repeat split; cbn in *; lia.
Qed.

Lemma ReadBytes_shrinks n r : (length (vm_ReadBytes r n).2 <= length r)%nat.
Proof. cbn. rewrite length_drop. lia. Qed.
Lemma ReadByte_shrinks r : (length (vm_ReadByte r).2 <= length r)%nat.
Proof. destruct r; cbn; lia. Qed.
Lemma ReadVarInt_shrinks m r : (length (vm_ReadVarInt r m).2 <= length r)%nat.
Proof.
  unfold vm_ReadVarInt. pose proof (ReadByte_shrinks r). destruct (vm_ReadByte r) as [fb r'].
  unfold vm_ReadInt16, vm_ReadUInt32, vm_ReadUInt64. cbn in *.
  repeat case_match; cbn in *; rewrite ?length_drop in *; simplify_eq; rewrite ?length_drop; lia.
Qed.
Lemma ReadVarString_shrinks r : (length (vm_ReadVarString r).2 <= length r)%nat.
Proof.
  unfold vm_ReadVarString, vm_ReadVarBytes. pose proof (ReadVarInt_shrinks (uint64 0x7fffffc7) r).
  destruct (vm_ReadVarInt r _) as [n r']. etrans; [apply ReadBytes_shrinks|done].
Qed.
Lemma frames_read_bytes n : frames (read (fun r => vm_ReadBytes r n)).
Proof. apply frames_read, ReadBytes_shrinks. Qed.
Lemma frames_read_byte : frames (read vm_ReadByte).
Proof. apply frames_read, ReadByte_shrinks. Qed.
Lemma frames_read_u16 : frames (read vm_ReadUint16).
Proof. apply frames_read. intros r. apply (ReadBytes_shrinks 2 r). Qed.
Lemma frames_read_i16 : frames (read vm_ReadInt16).
Proof. apply frames_read. intros r. apply (ReadBytes_shrinks 2 r). Qed.
Lemma frames_read_i32 : frames (read vm_ReadInt32).
Proof. apply frames_read. intros r. apply (ReadBytes_shrinks 4 r). Qed.
Lemma frames_read_string : frames (read vm_ReadVarString).
Proof. apply frames_read, ReadVarString_shrinks. Qed.
#[export] Hint Resolve frames_read_bytes frames_read_byte frames_read_u16 frames_read_i16 frames_read_i32
  frames_read_string : vm.

Lemma frames_count : frames count.
Proof. unfold count. frames. Qed.
Lemma frames_set_stack l : frames (set_stack l).
Proof. unfold set_stack. frames. Qed.
#[export] Hint Resolve frames_count frames_set_stack : vm.
Lemma frames_pop : frames pop.
Proof. unfold pop. frames. Qed.
Lemma frames_push x : frames (push x).
Proof. unfold push. frames. Qed.
Lemma frames_peek n : frames (peek n).
Proof. unfold peek. frames. Qed.
Lemma frames_item x : frames (item x).
Proof. unfold item. frames. Qed.
#[export] Hint Resolve frames_pop frames_push frames_peek frames_item : vm.
Lemma frames_pop_item : frames pop_item.
Proof. unfold pop_item. frames. Qed.
#[export] Hint Resolve frames_pop_item : vm.
Lemma frames_pop_int : frames pop_int.
Proof. unfold pop_int. frames. Qed.
Lemma frames_pop_bool : frames pop_bool.
Proof. unfold pop_bool. frames. Qed.
Lemma frames_pop_big : frames pop_big.
Proof. unfold pop_big. frames. Qed.
Lemma frames_new : frames new.
Proof. unfold new. frames. Qed.
Lemma frames_pop_bytes : frames pop_bytes.
Proof. unfold pop_bytes. frames. Qed.
#[export] Hint Resolve frames_pop_int frames_pop_bool frames_pop_bytes frames_pop_big frames_new : vm.
Lemma frames_pop_int64 : frames pop_int64.
Proof. unfold pop_int64. frames. Qed.
Lemma frames_fault_nil : frames fault_nil.
Proof. unfold fault_nil. frames. Qed.
Lemma frames_fault_err e : frames (fault_err e).
Proof. unfold fault_err. frames. Qed.
Lemma frames_done : frames done_op.
Proof. unfold done_op. frames. Qed.
#[export] Hint Resolve frames_pop_int64 frames_fault_nil frames_fault_err frames_done : vm.
Lemma frames_push_item i : frames (push_item i).
Proof. unfold push_item. frames. Qed.
#[export] Hint Resolve frames_push_item : vm.
Lemma frames_push_int v : frames (push_int v).
Proof. unfold push_int. frames. Qed.
Lemma frames_push_bytes v : frames (push_bytes v).
Proof. unfold push_bytes. frames. Qed.
#[export] Hint Resolve frames_push_int frames_push_bytes : vm.
Lemma frames_push_big r v : frames (push_big r v).
Proof. unfold push_big. frames. Qed.
#[export] Hint Resolve frames_push_big : vm.
Lemma frames_assign r v : frames (assign r v).
Proof. unfold assign. frames. Qed.
Lemma frames_item_slice i : frames (item_slice i).
Proof. unfold item_slice. frames. Qed.
#[export] Hint Resolve frames_assign frames_item_slice : vm.
Lemma frames_need n k : frames k -> frames (need n k).
Proof. intros H. unfold need. frames. Qed.
Lemma frames_pop_items n : frames (pop_items n).
Proof. induction n; cbn [pop_items]; frames. Qed.
Lemma frames_push_all l : frames (push_all l).
Proof. induction l; cbn [push_all]; frames. Qed.
Lemma frames_pop_byte_arrays n : frames (pop_byte_arrays n).
Proof. induction n; cbn [pop_byte_arrays]; frames. Qed.
#[export] Hint Resolve frames_need frames_pop_items frames_push_all frames_pop_byte_arrays : vm.

Lemma frames_opJmp : frames opJmp.
Proof. unfold opJmp. frames. Qed.
#[export] Hint Resolve frames_opJmp : vm.

Lemma vm_bind_Ok {A B} (m : vm A) (f : A -> vm B) e b e' :
  (m ≫= f) e = Ok (b, e') -> exists a e1, m e = Ok (a, e1) /\ f a e1 = Ok (b, e').
Proof. unfold mbind, vm_bind. destruct (m e) as [[a e1]| |] eqn:E; [|done..]. eauto. Qed.

Section EngineLemmas.
Context `{crypto : ICrypto}.
Variable message : bytes.

(** Every entry of the table but CALL and CHECKMULTISIG. *)
Lemma frames_table c exec :
  OpExecList message c = Some exec -> c <> 0x65 -> c <> CHECKMULTISIG -> frames exec.
Proof.
  intros E H1 H2. unfold OpExecList in E.
  repeat match type of E with (if ?b then _ else _) = _ => destruct b eqn:? end;
    try (injection E as <-); try done; try lia.
  all: unfold opPushData, getPushData, opNop, opRet, opAppCall, opSysCall, InteropService_Invoke, opToAltStack,
    opFromAltStack, opXDrop, opXSwap, opXTuck, opDepth, opDrop, opDup, opNip, opOver, opPick, opRoll, opRot,
    opSwap, opTuck, opCat, opSubStr, opLeft, opRight, opSize, opInvert, opEqual, opBigInt, opNot, opNz, opBigIntZip, opBoolZip, opBigIntComp,
    opWithIn, opHash, opCheckSig, opArraySize, opPack, opUnpack, opPickItem.
  all: try (apply frames_need); frames.
Qed.

(** ** Termination

    A turn of [Execute] uses up a context; CALL, the only opcode that adds
    one, needs a step counter that has not passed the limit. *)

Definition potential (e : Engine) : Z := Count (invocationStack e) + Z.max 0 (maxSteps e - opCount e).

Definition progress (e e' : Engine) : Prop :=
  maxSteps e' = maxSteps e /\ state e' = state e /\ opCount e <= opCount e' /\
  potential e' <= potential e /\ (length (OpReader (context e')) <= length (OpReader (context e)))%nat.

Lemma frame_progress e e' : frame e e' -> progress e e'.
Proof.
  intros (H1 & H2 & H3 & H4 & H5). unfold progress, potential. rewrite H1, H2, H3. repeat split; done || lia.
Qed.

Lemma frames_multisig_rest n : frames (multisig_rest message n).
Proof. unfold multisig_rest. frames. Qed.

Lemma opCheckMultiSig_progress e r e' :
  maxSteps e < 2 ^ 62 -> 0 <= opCount e <= maxSteps e -> opCheckMultiSig message e = Ok (r, e') -> progress e e'.
Proof.
  intros Hm Hc E. unfold opCheckMultiSig in E.
  apply vm_bind_Ok in E as (c1 & e1 & E1 & E). apply frames_count in E1.
  destruct (c1 <? 4); [apply frames_fault_err in E; apply frame_progress; by etrans|].
  apply vm_bind_Ok in E as (n & e2 & E2 & E). apply frames_pop_int64 in E2.
  assert (F2 : frame e e2) by (by etrans). clear E1 E2.
  destruct (n <? 1) eqn:En; [apply frames_fault_err in E; apply frame_progress; by etrans|].
  apply vm_bind_Ok in E as (c3 & e3 & E3 & E). apply frames_count in E3.
  assert (F3 : frame e e3) by (by etrans). clear E3 F2.
  destruct (c3 <? int64 (n + 2)); [apply frames_fault_err in E; apply frame_progress; by etrans|].
  destruct F3 as (I3 & C3 & M3 & S3 & R3).
  apply vm_bind_Ok in E as (? & ? & [= <- <-] & E). apply vm_bind_Ok in E as (? & ? & [= <- <-] & E).
  assert (Hsame : forall e4, frame (with_opCount e3 (int64 (opCount e3 + n))) e4 ->
            opCount e <= int64 (opCount e3 + n) -> progress e e4).
  { intros e4 (I4 & C4 & M4 & S4 & R4) Hle.
    cbn [with_opCount invocationStack opCount maxSteps state context] in *. unfold progress, potential.
    rewrite I4, C4, M4, S4, I3, M3, S3. repeat split; lia. }
  destruct (_ <? _) eqn:Ex in E; [apply frames_fault_err in E; apply Hsame; [done|cbn in Ex; lia]|].
  destruct (make_ok 24 n) eqn:Ek; [|done]. cbn [negb] in E. apply Z.leb_le in Ek. unfold maxAlloc in Ek.
  apply Hsame; [|rewrite wrapS_id; lia].
  eapply frames_multisig_rest. exact E.
Qed.

(** One opcode, the counter already advanced. *)
Lemma ExecuteOp_progress c e r e' :
  maxSteps e < 2 ^ 62 -> 0 <= opCount e ->
  ExecuteOp message c (with_opCount e (opCount e + 1)) = Ok (r, e') -> progress e e'.
Proof.
  intros Hm Hc E. unfold ExecuteOp in E. apply vm_bind_Ok in E as (? & ? & [= <- <-] & E).
  assert (Hinc : forall e1, frame (with_opCount e (opCount e + 1)) e1 -> progress e e1).
  { intros e1 (H1 & H2 & H3 & H4 & H5).
    cbn [with_opCount invocationStack opCount maxSteps state context] in *. unfold progress, potential.
    rewrite H1, H2, H3, H4. repeat split; lia. }
  destruct (_ && PushOnly _) eqn:G1 in E; [apply frames_fault_nil in E; by apply Hinc|].
  destruct ((PUSH16 <? c) && _) eqn:G2 in E; [apply frames_fault_nil in E; by apply Hinc|].
  cbn [maxSteps opCount with_opCount] in G2.
  destruct ((PUSHBYTES1 <=? c) && _) eqn:G3 in E.
  { apply Hinc. revert E. apply frames_bind; [apply frames_read_bytes|intros; apply frames_push_bytes]. }
  apply vm_bind_Ok in E as (? & e1 & [= <- <-] & E).
  set (e1 := with_op _ _ c) in E. assert (F1 : frame (with_opCount e (opCount e + 1)) e1)
    by exact (frame_with_opcode (with_opCount e (opCount e + 1)) c).
  destruct (OpExecList message c) as [exec|] eqn:Et; [|apply frames_fault_nil in E; apply Hinc; by etrans].
  apply vm_bind_Ok in E as ([st er] & e2 & Ex & E).
  assert (e2 = e') as -> by (destruct (is_err er); injection E as _ ->; done). clear E.
  destruct (decide (c = 0x65)) as [->|N1]; [|destruct (decide (c = CHECKMULTISIG)) as [->|N2]].
  - cbn in Et. injection Et as <-. unfold opCall in Ex.
    apply vm_bind_Ok in Ex as (? & ? & [= <- <-] & Ex). apply vm_bind_Ok in Ex as (? & ? & [= <- <-] & Ex).
    apply vm_bind_Ok in Ex as (? & e3 & Ej & Ex). injection Ex as _ _ <-. apply frames_opJmp in Ej.
    destruct Ej as (I & C & M & S & R). cbn in I, C, M, S, R, G2. unfold progress, potential.
    rewrite I, C, M, S. unfold Count, Push. rewrite length_app. cbn. repeat split; lia.
  - cbn in Et. injection Et as <-. apply opCheckMultiSig_progress in Ex; cbn in *; [|lia|lia].
    destruct Ex as (M & S & C & P & R). unfold progress, potential in *. cbn in *. repeat split; lia.
  - apply Hinc. etrans; [exact F1|]. by eapply frames_table.
Qed.

Lemma read_byte_cases e :
  read vm_ReadByte e =
    match OpReader (context e) with
    | [] => Ok (None, with_reader e [])
    | b :: r => Ok (Some b, with_reader e r)
    end.
Proof. unfold read, mbind, vm_bind, get. destruct (OpReader (context e)); reflexivity. Qed.

(** The fuel of [StepInto] is always enough: more changes nothing. *)
Lemma step_loop_fuel f1 f2 e :
  maxSteps e < 2 ^ 62 -> 0 <= opCount e ->
  (length (OpReader (context e)) < f1)%nat -> (length (OpReader (context e)) < f2)%nat ->
  step_loop message f1 e = step_loop message f2 e.
Proof.
  revert f2 e. induction f1 as [|f1 IH]; intros [|f2] e Hm Hc H1 H2; try lia.
  cbn [step_loop]. unfold mbind at 1 4, vm_bind at 1 4. rewrite read_byte_cases.
  destruct (OpReader (context e)) as [|b r] eqn:Er; [done|]. cbn [length] in *.
  unfold mbind, vm_bind, modify. set (e1 := with_opCount (with_reader e r) (opCount (with_reader e r) + 1)).
  destruct (ExecuteOp message b e1) as [[[st er] e2]| |] eqn:Ex; [|done..].
  do 2 (case_match; [done|]).
  apply (ExecuteOp_progress b (with_reader e r)) in Ex; [|done|done].
  destruct Ex as (M & S & C & P & R). cbn in M, S, C, R. apply IH; lia.
Qed.

Definition ended (e e' : Engine) : Prop :=
  state e' = Z.lor (state e) HALT \/ state e' = Z.lor (state e) FAULT.

Lemma step_loop_progress fuel e r e' :
  maxSteps e < 2 ^ 62 -> 0 <= opCount e -> step_loop message fuel e = Ok (r, e') ->
  maxSteps e' = maxSteps e /\ opCount e <= opCount e' /\ potential e' <= potential e /\
  (state e' = state e \/ ended e e').
Proof.
  revert e. induction fuel as [|fuel IH]; intros e Hm Hc E; [injection E as _ <-; repeat split; auto; lia|].
  cbn [step_loop] in E. apply vm_bind_Ok in E as (b & e1 & Eb & E). rewrite read_byte_cases in Eb.
  destruct (OpReader (context e)) as [|c rd] eqn:Er.
  { injection Eb as <- <-. injection E as _ <-. unfold potential; cbn. repeat split; auto; lia. }
  injection Eb as <- <-. apply vm_bind_Ok in E as (? & ? & [= <- <-] & E).
  apply vm_bind_Ok in E as ([st er] & e2 & Ex & E).
  apply (ExecuteOp_progress c (with_reader e rd)) in Ex; [|done|done].
  destruct Ex as (M & S & C & P & _). unfold potential in P. cbn in M, S, C, P. fold (potential e2) in P.
  destruct (st =? HALT); [|destruct (st =? FAULT)].
  1,2: injection E as _ <-; unfold potential in *; cbn; repeat split; try lia; right; unfold ended; cbn; rewrite S; auto.
  apply IH in E; [|lia|lia]. destruct E as (M' & C' & P' & S'). unfold potential in *. repeat split; try lia.
  unfold ended in *. rewrite S in S'. done.
Qed.

Lemma Pop_snoc {A} (l : list A) x : Pop (l ++ [x]) = (Some x, l).
Proof. unfold Pop. rewrite rev_app_distr. cbn. by rewrite rev_involutive. Qed.

Lemma StepInto_progress e r e' :
  maxSteps e < 2 ^ 62 -> 0 <= opCount e -> state e = NONE -> StepInto message e = Ok (r, e') ->
  state e' = HALT \/ state e' = FAULT \/
  (state e' = NONE /\ maxSteps e' = maxSteps e /\ 0 <= opCount e' /\ potential e' < potential e).
Proof.
  intros Hm Hc Hs E. unfold StepInto in E. apply vm_bind_Ok in E as (? & ? & [= <- <-] & E).
  apply vm_bind_Ok in E as (? & ? & [= <- <-] & E).
  destruct (invocationStack e) as [|c l] eqn:Ei using rev_ind.
  { cbn in E. rewrite Hs in E. cbn in E. injection E as _ <-. by left. }
  assert ((Count (l ++ [c]) =? 0) = false) as En.
  { apply Z.eqb_neq. unfold Count. rewrite length_app. cbn [length]. lia. }
  rewrite En in E. rewrite Hs, Ei, Pop_snoc in E. cbn [NONE Z.land Z.eqb HALT FAULT orb] in E.
  change (Z.land NONE HALT =? HALT) with false in E. change (Z.land NONE FAULT =? FAULT) with false in E.
  cbn [orb] in E. apply vm_bind_Ok in E as (? & ? & [= <- <-] & E).
  apply step_loop_progress in E; [|done|done]. destruct E as (M & C & P & S).
  cbn in M, C. unfold potential in *. cbn in P. unfold ended in S. cbn in S. rewrite Hs in S.
  destruct S as [S|[S|S]]; [right; right|by left|by right; left].
  rewrite Ei. unfold Count in *. rewrite length_app. cbn. repeat split; try done; lia.
Qed.

Lemma potential_nonneg e : 0 <= potential e.
Proof. unfold potential, Count. lia. Qed.

Lemma execute_loop_more fuel k e o :
  execute_loop message fuel e = Some o -> execute_loop message (fuel + k) e = Some o.
Proof.
  revert e. induction fuel as [|fuel IH]; intros e E; cbn [execute_loop Nat.add] in *.
  - destruct k; cbn [execute_loop]; by destruct ((state e =? FAULT) || (state e =? HALT) || (state e =? BREAK)).
  - case_match; [done|]. destruct (StepInto message e) as [[? e1]| |]; [by apply IH|done..].
Qed.

Lemma execute_loop_terminates fuel e :
  maxSteps e < 2 ^ 62 -> 0 <= opCount e -> state e = NONE -> potential e < Z.of_nat fuel ->
  exists o, execute_loop message fuel e = Some o /\
    forall e', o = Ok e' -> state e' = HALT \/ state e' = FAULT.
Proof.
  revert e. induction fuel as [|fuel IH]; intros e Hm Hc Hs Hp; [pose proof (potential_nonneg e); lia|].
  cbn [execute_loop]. rewrite Hs. cbn [NONE FAULT HALT BREAK Z.eqb orb].
  change ((NONE =? FAULT) || (NONE =? HALT) || (NONE =? BREAK)) with false. cbn iota.
  destruct (StepInto message e) as [[r e']| |] eqn:E; [|by eexists..].
  apply StepInto_progress in E; [|done..].
  destruct E as [S|[S|(S & M & C & P)]]; [| |apply IH; (done || lia)].
  1,2: exists (Ok e'); split; [destruct fuel; cbn [execute_loop]; rewrite S; done|]; intros ? [= <-]; auto.
Qed.

(** ** Evaluation of scripts *)

Lemma ReadBytes_app data rest n :
  Z.of_nat (length data) = n -> vm_ReadBytes (data ++ rest) n = (data, rest).
Proof.
  intros <-. unfold vm_ReadBytes. rewrite Nat2Z.id, take_app_length, drop_app_length, length_app.
  replace (length data - (length data + length rest))%nat with 0%nat by lia. by rewrite app_nil_r.
Qed.

(** The engine after one opcode read from [r]. *)
Definition ticked (e : Engine) (r : bytes) : Engine := with_opCount (with_reader e r) (opCount e + 1).

Lemma step_loop_cons fuel e c r :
  OpReader (context e) = c :: r ->
  step_loop message (S fuel) e =
    match ExecuteOp message c (ticked e r) with
    | Ok ((st, _), e2) =>
        if st =? HALT then Ok (tt, with_state e2 (Z.lor (state e2) HALT))
        else if st =? FAULT then Ok (tt, with_state e2 (Z.lor (state e2) FAULT))
        else step_loop message fuel e2
    | Panic => Panic
    | Unmodelled => Unmodelled
    end.
Proof.
  intros Er. cbn [step_loop]. unfold mbind at 1, vm_bind at 1. rewrite read_byte_cases, Er.
  unfold mbind, vm_bind, modify.
  change (with_opCount (with_reader e r) (opCount (with_reader e r) + 1)) with (ticked e r).
  destruct (ExecuteOp message c (ticked e r)) as [[[st er] e2]| |]; [|done..].
  repeat case_match; done.
Qed.

Lemma step_loop_nil fuel e :
  OpReader (context e) = [] -> step_loop message (S fuel) e = Ok (tt, with_reader e []).
Proof.
  intros Er. cbn [step_loop]. unfold mbind at 1, vm_bind at 1. by rewrite read_byte_cases, Er.
Qed.

(** A direct push of up to 75 bytes. *)
Lemma step_loop_push fuel e n data rest :
  OpReader (context e) = n :: data ++ rest -> Z.of_nat (length data) = n -> 1 <= n <= 75 ->
  step_loop message (S fuel) e =
    step_loop message fuel (with_stack (with_allocated (ticked e rest) (S (allocated e))) (Push (evaluationStack e) (EItem (ByteArray (allocated e) data)))).
Proof.
  intros Er Hl Hn. rewrite (step_loop_cons fuel e n (data ++ rest)) by done.
  unfold ExecuteOp, mbind at 1, vm_bind at 1. cbn [get].
  destruct (Z.ltb_spec PUSH16 n) as [H|H]; [unfold PUSH16 in H; lia|]. cbn [andb].
  unfold PUSHBYTES1, PUSHBYTES75. destruct (Z.leb_spec 1 n); [|lia]. destruct (Z.leb_spec n 0x4B); [|lia].
  cbn [andb]. unfold mbind, vm_bind, read, get, modify. unfold mbind, vm_bind.
  change (OpReader (context (ticked e (data ++ rest)))) with (data ++ rest).
  rewrite ReadBytes_app by done. reflexivity.
Qed.

(** The opcodes beyond the direct pushes, when neither guard applies. *)
Lemma ExecuteOp_table c e exec :
  PushOnly (context e) = false \/ c <= PUSH16 -> opCount e <= maxSteps e \/ c <= PUSH16 ->
  ~ (1 <= c <= 75) -> OpExecList message c = Some exec ->
  ExecuteOp message c e =
    match exec (with_op e (context e) c) with
    | Ok ((st, er), e2) => if is_err er then Ok ((st, er), e2) else Ok ((NONE, None), e2)
    | Panic => Panic
    | Unmodelled => Unmodelled
    end.
Proof.
  intros G1 G2 G3 Et. unfold ExecuteOp. unfold mbind at 1, vm_bind at 1. cbn [get].
  destruct ((PUSH16 <? c) && negb (c =? RET) && PushOnly (context e)) eqn:B1.
  { destruct G1 as [G1|G1]; [rewrite G1, andb_false_r in B1; done|].
    destruct (Z.ltb_spec PUSH16 c); [lia|done]. }
  destruct ((PUSH16 <? c) && (maxSteps e <? opCount e)) eqn:B2; [lia|].
  destruct ((PUSHBYTES1 <=? c) && (c <=? PUSHBYTES75)) eqn:B3; [unfold PUSHBYTES1, PUSHBYTES75 in B3; lia|].
  rewrite Et. unfold mbind, vm_bind, modify.
  destruct (exec _) as [[[st er] e2]| |]; [|done..]. destruct (is_err er); done.
Qed.

(** PUSH1 to PUSH16. *)
Lemma step_loop_number fuel e n rest :
  OpReader (context e) = 0x50 + n :: rest -> 1 <= n <= 16 ->
  step_loop message (S fuel) e =
    step_loop message fuel (with_stack (with_allocated (with_op (ticked e rest) (context (ticked e rest)) (0x50 + n)) (S (allocated e)))
                              (Push (evaluationStack e) (EItem (Integer (allocated e) (allocated e) n)))).
Proof.
  intros Er Hn. rewrite (step_loop_cons fuel e (0x50 + n) rest) by done.
  assert (Et : OpExecList message (0x50 + n) = Some opPushData).
  { unfold OpExecList. rewrite (proj2 (Z.leb_le 0x51 (0x50 + n))), (proj2 (Z.leb_le (0x50 + n) 0x60)) by lia.
    cbn [andb]. by rewrite orb_true_r. }
  rewrite (ExecuteOp_table _ _ opPushData) by (done || unfold PUSH16; lia).
  unfold opPushData, getPushData. unfold mbind at 1, vm_bind at 1. unfold mbind at 1, vm_bind at 1.
  cbn [get opCode with_op].
  destruct (Z.eqb_spec (0x50 + n) 0x00); [lia|]. destruct (Z.eqb_spec (0x50 + n) 0x4C); [lia|].
  destruct (Z.eqb_spec (0x50 + n) 0x4D); [lia|]. destruct (Z.eqb_spec (0x50 + n) 0x4E); [lia|].
  unfold PUSH1. replace (0x50 + n - 0x51 + 1) with n by lia.
  rewrite (wrapU_id 8), wrapS_id by lia. reflexivity.
Qed.

Lemma count_eq e : count e = Ok (Count (evaluationStack e), e).
Proof. reflexivity. Qed.

Lemma pop_snoc e S x : evaluationStack e = S ++ [x] -> pop e = Ok (x, with_stack e S).
Proof.
  intros E. unfold pop, mbind, vm_bind, get. rewrite E, Pop_snoc. reflexivity.
Qed.

Lemma pop_bytes_snoc e S i :
  evaluationStack e = S ++ [EItem i] -> pop_bytes e = Ok (GetByteArray i, with_stack e S).
Proof.
  intros E. unfold pop_bytes, pop_item, mbind, vm_bind. by rewrite (pop_snoc e S _ E).
Qed.

Lemma pop_int64_snoc e S p w n :
  evaluationStack e = S ++ [EItem (Integer p w n)] -> pop_int64 e = Ok (int64 n, with_stack e S).
Proof.
  intros E. unfold pop_int64, pop_int, pop_item, mbind, vm_bind. by rewrite (pop_snoc e S _ E).
Qed.

(** CHECKSIG with two operands, and with too few: then nothing happens. *)
Lemma step_loop_checksig fuel e S sg pk rest :
  OpReader (context e) = CHECKSIG :: rest -> PushOnly (context e) = false -> opCount e < maxSteps e ->
  evaluationStack e = S ++ [EItem sg; EItem pk] ->
  step_loop message (Datatypes.S fuel) e =
    step_loop message fuel (with_stack (with_op (ticked e rest) (context (ticked e rest)) CHECKSIG)
      (S ++ [EItem (Boolean (VerifySignature message (GetByteArray sg) (GetByteArray pk)))])).
Proof.
  intros Er Hp Hc Hs. rewrite (step_loop_cons fuel e CHECKSIG rest) by done.
  rewrite (ExecuteOp_table _ _ (opCheckSig message)); [|left; done|left; cbn; lia|unfold CHECKSIG; lia|reflexivity].
  unfold opCheckSig, need. unfold mbind at 1, vm_bind at 1. rewrite count_eq.
  cbn [evaluationStack with_op ticked with_opCount with_reader].
  destruct (Z.ltb_spec (Count (evaluationStack e)) 2) as [L|L].
  { unfold Count in L. rewrite Hs, length_app in L. cbn in L. lia. }
  unfold mbind at 1, vm_bind at 1. erewrite (pop_bytes_snoc _ (S ++ [EItem sg]) pk).
  2:{ cbn. rewrite Hs. by rewrite <- app_assoc. }
  unfold mbind at 1, vm_bind at 1. erewrite (pop_bytes_snoc _ S sg) by reflexivity.
  reflexivity.
Qed.

Lemma step_loop_checksig_short fuel e rest :
  OpReader (context e) = CHECKSIG :: rest -> PushOnly (context e) = false -> opCount e < maxSteps e ->
  Count (evaluationStack e) < 2 ->
  step_loop message (S fuel) e =
    step_loop message fuel (with_op (ticked e rest) (context (ticked e rest)) CHECKSIG).
Proof.
  intros Er Hp Hc Hs. rewrite (step_loop_cons fuel e CHECKSIG rest) by done.
  rewrite (ExecuteOp_table _ _ (opCheckSig message)); [|left; done|left; cbn; lia|unfold CHECKSIG; lia|reflexivity].
  unfold opCheckSig, need. unfold mbind at 1, vm_bind at 1. rewrite count_eq.
  cbn [evaluationStack with_op ticked with_opCount with_reader].
  destruct (Z.ltb_spec (Count (evaluationStack e)) 2); [reflexivity|lia].
Qed.

(** Without identities. *)
Definition erase_leaf (i : StackItem) : StackItem :=
  match i with Integer _ _ v => Integer 0 0 v | ByteArray _ b => ByteArray 0 b | i => i end.
Definition erase : StackItem -> StackItem := everywhere erase_leaf.
Definition erase_stack : list elem -> list elem := map (elem_everywhere erase_leaf).
Lemma erase_app l m : erase_stack (l ++ m) = erase_stack l ++ erase_stack m.
Proof. apply map_app. Qed.
Lemma erase_length l : length (erase_stack l) = length l.
Proof. apply length_map. Qed.
Lemma erase_bytes i : GetByteArray (erase i) = GetByteArray i.
Proof. by destruct i. Qed.
Lemma erase_boolean : forall i, GetBoolean (erase i) = GetBoolean i.
Proof. fix IH 1. intros [p w v|b|a b|l]; [done..|]. destruct l as [|[x|] l]; [done| |done]. cbn. apply IH. Qed.
Lemma erase_split l S T : erase_stack l = S ++ T -> exists S0 T0, l = S0 ++ T0 /\ erase_stack S0 = S /\ erase_stack T0 = T.
Proof. intros E. apply map_eq_app in E as (S0 & T0 & -> & <- & <-). by exists S0, T0. Qed.
Lemma erase_items l items : erase_stack l = map EItem items -> exists items0, l = map EItem items0 /\ map erase items0 = items.
Proof.
  revert items. induction l as [|x l IH]; intros [|i items] E; try discriminate E; [by exists []|]. injection E as Ex El.
  destruct (IH items El) as (items0 & -> & <-). destruct x as [i0| |]; [|discriminate Ex..]. injection Ex as <-. by exists (i0 :: items0).
Qed.
Lemma erase_snoc l S i : erase_stack l = S ++ [EItem i] -> exists S0 i0, l = S0 ++ [EItem i0] /\ erase_stack S0 = S /\ erase i0 = i.
Proof.
  intros (S0 & T0 & -> & ES & ET)%erase_split. apply (erase_items T0 [i]) in ET as ([|i0 [|]] & -> & E); try discriminate E.
  injection E as <-. by exists S0, i0.
Qed.
Lemma erase_integer i n : erase i = Integer 0 0 n -> exists p w, i = Integer p w n.
Proof. destruct i as [p w v|b|a b|l]; intros [= <-]. by exists p, w. Qed.
Lemma erase_bytes_map l l0 : map erase l0 = l -> map GetByteArray l0 = map GetByteArray l.
Proof. intros <-. rewrite map_map. apply map_ext. intros i. by rewrite erase_bytes. Qed.

(** [e] is running a script: [r] is left of it, [l] is below it, the stack
    holds [S] up to identities, and [k] more opcodes are within the limit. *)
Definition running (l : list ExecutionContext) (po : bool) (r : bytes) (S : list elem) (k : Z) (e : Engine) : Prop :=
  state e = NONE /\ invocationStack e = l /\ OpReader (context e) = r /\ PushOnly (context e) = po /\
  erase_stack (evaluationStack e) = S /\ 0 <= opCount e /\ opCount e + k <= maxSteps e < 2 ^ 62.

(** The loop gets from [r] and [S] to [r'] and [S'] within [k] opcodes. *)
Definition advance (po : bool) (r : bytes) (S : list elem) (k : Z) (r' : bytes) (S' : list elem) : Prop :=
  forall l k' e fuel, 0 <= k' -> running l po r S (k + k') e -> (length r < fuel)%nat ->
    exists e' fuel', step_loop message fuel e = step_loop message fuel' e' /\
      (length r' < fuel')%nat /\ running l po r' S' k' e'.

Lemma advance_refl po r S : advance po r S 0 r S.
Proof. intros l k' e fuel Hk R Hf. exists e, fuel. by rewrite Z.add_0_l in R. Qed.

Lemma advance_trans po r S k1 r1 S1 k2 r2 S2 :
  0 <= k2 -> advance po r S k1 r1 S1 -> advance po r1 S1 k2 r2 S2 -> advance po r S (k1 + k2) r2 S2.
Proof.
  intros Hk2 A1 A2 l k' e fuel Hk R Hf.
  destruct (A1 l (k2 + k') e fuel ltac:(lia)) as (e1 & f1 & E1 & F1 & R1); [by rewrite Z.add_assoc|done|].
  destruct (A2 l k' e1 f1 Hk R1 F1) as (e2 & f2 & E2 & F2 & R2). exists e2, f2. by rewrite E1.
Qed.

Lemma advance_push po S data rest n :
  Z.of_nat (length data) = n -> 1 <= n <= 75 ->
  advance po (n :: data ++ rest) S 1 rest (S ++ [EItem (ByteArray 0 data)]).
Proof.
  intros Hl Hn l k' e [|fuel] Hk (Rs & Ri & Rr & Rp & RS & Rc & Rm) Hf; [lia|].
  eexists _, fuel. split; [by apply (step_loop_push fuel e n data rest)|].
  cbn [length] in Hf. rewrite length_app in Hf. split; [lia|].
  unfold running, Push; cbn. rewrite erase_app, RS. repeat split; done || lia.
Qed.

Lemma advance_number po S n rest :
  1 <= n <= 16 -> advance po (0x50 + n :: rest) S 1 rest (S ++ [EItem (Integer 0 0 n)]).
Proof.
  intros Hn l k' e [|fuel] Hk (Rs & Ri & Rr & Rp & RS & Rc & Rm) Hf; [lia|].
  eexists _, fuel. split; [by apply (step_loop_number fuel e n rest)|].
  cbn [length] in Hf. split; [lia|]. unfold running, Push; cbn. rewrite erase_app, RS. repeat split; done || lia.
Qed.

Lemma advance_checksig S sg pk rest :
  advance false (CHECKSIG :: rest) (S ++ [EItem sg; EItem pk]) 1 rest
    (S ++ [EItem (Boolean (VerifySignature message (GetByteArray sg) (GetByteArray pk)))]).
Proof.
  intros l k' e [|fuel] Hk (Rs & Ri & Rr & Rp & RS & Rc & Rm) Hf; [lia|].
  apply erase_split in RS as (S0 & T0 & RS & ES & ET). apply (erase_items T0 [sg; pk]) in ET as ([|s0 [|k0 [|]]] & -> & E); try discriminate E. injection E as <- <-.
  eexists _, fuel. split; [apply (step_loop_checksig fuel e S0 s0 k0 rest); done || lia|].
  cbn [length] in Hf. split; [lia|]. unfold running; cbn [evaluationStack with_stack]. rewrite erase_app, ES, !erase_bytes. repeat split; done || cbn; lia.
Qed.

Lemma advance_checksig_short S rest :
  Count S < 2 -> advance false (CHECKSIG :: rest) S 1 rest S.
Proof.
  intros HS l k' e [|fuel] Hk (Rs & Ri & Rr & Rp & RS & Rc & Rm) Hf; [lia|].
  eexists _, fuel. split; [apply (step_loop_checksig_short fuel e rest); try done; [lia|]|].
  { unfold Count in *. by rewrite <- (erase_length (evaluationStack e)), RS. }
  cbn [length] in Hf. split; [lia|]. unfold running; cbn. repeat split; done || lia.
Qed.

(** Several pushes in a row. *)
Definition push_script (data : list bytes) : bytes := concat (map (fun d => Z.of_nat (length d) :: d) data).
Lemma advance_pushes po S data rest :
  Forall (fun d => 1 <= Z.of_nat (length d) <= 75) data ->
  advance po (push_script data ++ rest) S (Z.of_nat (length data)) rest
    (S ++ map (fun d => EItem (ByteArray 0 d)) data).
Proof.
  intros H. revert S. induction H as [|d data Hd _ IH]; intros S.
  - cbn. rewrite app_nil_r. apply advance_refl.
  - cbn [length push_script map concat]. fold (push_script data).
    replace (Z.of_nat (Datatypes.S (length data))) with (1 + Z.of_nat (length data)) by lia.
    eapply (advance_trans _ _ _ 1 _ (S ++ [EItem (ByteArray 0 d)])); [lia| |].
    + rewrite <- app_assoc. cbn [app]. by apply advance_push.
    + specialize (IH (S ++ [EItem (ByteArray 0 d)])). by rewrite <- app_assoc in IH.
Qed.

Lemma pop_byte_arrays_snoc e S items :
  evaluationStack e = S ++ map EItem items ->
  pop_byte_arrays (length items) e = Ok (rev (map GetByteArray items), with_stack e S).
Proof.
  revert e. induction items as [|i items IH] using rev_ind; intros e E.
  - cbn in *. rewrite app_nil_r in E. unfold mret, vm_ret. by destruct e; cbn in *; subst.
  - rewrite map_app in E. cbn in E. rewrite app_assoc in E.
    rewrite length_app, Nat.add_comm. cbn [Nat.add length pop_byte_arrays].
    unfold mbind at 1, vm_bind at 1. rewrite (pop_bytes_snoc e _ i E).
    unfold mbind at 1, vm_bind at 1. rewrite IH by reflexivity.
    rewrite map_app, rev_app_distr. reflexivity.
Qed.

(** CHECKMULTISIG on a well-formed stack. *)
Lemma opCheckMultiSig_ok e S sigs keys p w p' w' :
  let m := Z.of_nat (length sigs) in
  let n := Z.of_nat (length keys) in
  1 <= m <= n -> n < 2 ^ 40 -> 0 <= opCount e -> opCount e + n <= maxSteps e < 2 ^ 62 ->
  evaluationStack e = (((S ++ map EItem sigs) ++ [EItem (Integer p w m)]) ++ map EItem keys) ++ [EItem (Integer p' w' n)] ->
  opCheckMultiSig message e =
    Ok ((NONE, None), with_stack (with_opCount e (opCount e + n))
      (S ++ [EItem (Boolean (match_signatures message (rev (map GetByteArray sigs)) (rev (map GetByteArray keys))))])).
Proof.
  intros m n Hmn Hn Hc Hm HS. unfold opCheckMultiSig.
  unfold mbind at 1, vm_bind at 1. rewrite count_eq.
  destruct (Z.ltb_spec (Count (evaluationStack e)) 4) as [L|L].
  { unfold Count in L. rewrite HS, !length_app, !length_map in L. cbn in L. lia. }
  unfold mbind at 1, vm_bind at 1. rewrite (pop_int64_snoc _ _ _ _ n HS), (wrapS_id 64 n) by lia.
  destruct (Z.ltb_spec n 1); [lia|].
  unfold mbind at 1, vm_bind at 1. rewrite count_eq, (wrapS_id 64 (n + 2)) by lia. cbn [evaluationStack with_stack].
  destruct (Z.ltb_spec (Count (((S ++ map EItem sigs) ++ [EItem (Integer p w m)]) ++ map EItem keys)) (n + 2)) as [L'|L'].
  { unfold Count in L'. rewrite !length_app, !length_map in L'. cbn in L'. lia. }
  unfold mbind at 1, vm_bind at 1, modify at 1. cbn [opCount with_stack]. rewrite wrapS_id by lia.
  unfold mbind at 1, vm_bind at 1, get at 1. cbn [opCount maxSteps with_stack with_opCount].
  destruct (Z.ltb_spec (maxSteps e) (opCount e + n)); [lia|].
  assert (make_ok 24 n = true) as -> by (apply Z.leb_le; unfold maxAlloc; lia). cbn [negb].
  unfold multisig_rest. unfold mbind at 1, vm_bind at 1. subst n. rewrite Nat2Z.id.
  erewrite pop_byte_arrays_snoc by reflexivity.
  unfold mbind at 1, vm_bind at 1. erewrite pop_int64_snoc by reflexivity. rewrite (wrapS_id 64 m) by lia.
  destruct (Z.ltb_spec m 1); [lia|]. destruct (Z.ltb_spec (Z.of_nat (length keys)) m); [lia|]. cbn [orb].
  unfold mbind at 1, vm_bind at 1. rewrite count_eq. cbn [evaluationStack with_stack].
  destruct (Z.ltb_spec (Count (S ++ map EItem sigs)) m) as [L2|L2].
  { unfold Count in L2. rewrite !length_app, !length_map in L2. lia. }
  unfold mbind at 1, vm_bind at 1. subst m. rewrite Nat2Z.id.
  erewrite pop_byte_arrays_snoc by reflexivity. reflexivity.
Qed.

Lemma advance_multisig S sigs keys rest :
  let m := Z.of_nat (length sigs) in
  let n := Z.of_nat (length keys) in
  1 <= m <= n -> n < 2 ^ 40 ->
  advance false (CHECKMULTISIG :: rest)
    ((((S ++ map EItem sigs) ++ [EItem (Integer 0 0 m)]) ++ map EItem keys) ++ [EItem (Integer 0 0 n)]) (1 + n) rest
    (S ++ [EItem (Boolean (match_signatures message (rev (map GetByteArray sigs)) (rev (map GetByteArray keys))))]).
Proof.
  intros m n Hmn Hn l k' e [|fuel] Hk (Rs & Ri & Rr & Rp & RS & Rc & Rm) Hf; [lia|].
  apply erase_snoc in RS as (S4 & in0 & RS & E4 & (pn & wn & ->)%erase_integer).
  apply erase_split in E4 as (S3 & K0 & -> & E3 & (keys0 & -> & EK)%erase_items).
  apply erase_snoc in E3 as (S2 & im0 & -> & E2 & (pm & wm & ->)%erase_integer).
  apply erase_split in E2 as (S1 & G0 & -> & E1 & (sigs0 & -> & EG)%erase_items).
  assert (Lk : length keys0 = length keys) by (rewrite <- EK; by rewrite length_map).
  assert (Lg : length sigs0 = length sigs) by (rewrite <- EG; by rewrite length_map).
  eexists _, fuel. rewrite (step_loop_cons fuel e CHECKMULTISIG rest) by done.
  rewrite (ExecuteOp_table _ _ (opCheckMultiSig message));
    [|left; done|left; cbn; lia|unfold CHECKMULTISIG; lia|reflexivity].
  subst m n. rewrite <- Lk, <- Lg in *.
  rewrite (opCheckMultiSig_ok _ S1 sigs0 keys0 pm wm pn wn) by (done || cbn; lia).
  split; [reflexivity|]. cbn [length] in Hf. split; [lia|].
  unfold running; cbn [evaluationStack with_stack]. rewrite erase_app, E1, (erase_bytes_map _ _ EK), (erase_bytes_map _ _ EG). repeat split; done || cbn; lia.
Qed.

(** ** The engine of [VerifySignableData] *)

Definition loaded (code param : bytes) : Engine :=
  LoadScript (LoadScript (NewExecutionEngine MAXSTEPS) code false) param true.

(** A turn of [Execute] on a fresh context. *)
Lemma StepInto_advance e l script po S S' k k' :
  advance po script S k [] S' -> 0 <= k' -> state e = NONE ->
  invocationStack e = l ++ [NewExecutionContext script po] -> erase_stack (evaluationStack e) = S ->
  0 <= opCount e -> opCount e + (k + k') <= maxSteps e < 2 ^ 62 ->
  exists e', StepInto message e = Ok (tt, e') /\ state e' = NONE /\ invocationStack e' = l /\
    erase_stack (evaluationStack e') = S' /\ 0 <= opCount e' /\ opCount e' + k' <= maxSteps e' < 2 ^ 62.
Proof.
  intros A Hk Hs Hi HS Hc Hm. unfold StepInto.
  unfold mbind at 1, vm_bind at 1, modify at 1.
  assert ((Count (invocationStack e) =? 0) = false) as ->.
  { apply Z.eqb_neq. unfold Count. rewrite Hi, length_app. cbn [length]. lia. }
  unfold mbind at 1, vm_bind at 1, get at 1. rewrite Hs, Hi, Pop_snoc.
  change ((Z.land NONE HALT =? HALT) || (Z.land NONE FAULT =? FAULT)) with false. cbn iota.
  unfold mbind at 1, vm_bind at 1, modify at 1.
  edestruct (A l k') as (e' & fuel' & E & F & R); [done| |apply Nat.lt_succ_diag_r|].
  2:{ cbn [OpReader NewExecutionContext]. rewrite E.
      destruct R as (Rs & Ri & Rr & Rp & RS & Rc & Rm). destruct fuel' as [|fuel']; [lia|].
      rewrite step_loop_nil by done. eexists. split; [reflexivity|]. cbn. repeat split; done || lia. }
  unfold running; cbn. repeat split; done || lia.
Qed.

Lemma Execute_two code param S1 S2 k1 k2 fuel :
  advance true param [] k1 [] S1 -> advance false code S1 k2 [] S2 ->
  0 <= k1 -> 0 <= k2 -> k1 + k2 <= MAXSTEPS -> (3 <= fuel)%nat ->
  exists e', Execute message fuel (loaded code param) = Some (Ok e') /\ state e' = HALT /\ erase_stack (evaluationStack e') = S2.
Proof.
  intros A1 A2 H1 H2 Hk Hf. unfold Execute. set (e0 := with_state _ _).
  destruct (StepInto_advance e0 [NewExecutionContext code false] param true [] S1 k1 k2 A1)
    as (e1 & E1 & Ss1 & I1 & V1 & C1 & M1); try done; try (cbn; unfold MAXSTEPS in *; lia).
  destruct (StepInto_advance e1 [] code false S1 S2 k2 0 A2)
    as (e2 & E2 & Ss2 & I2 & V2 & C2 & M2); try done; try lia.
  assert (E3 : StepInto message e2 = Ok (tt, with_state e2 HALT)).
  { unfold StepInto. unfold mbind, vm_bind, modify, get. rewrite I2. cbn. by rewrite Ss2. }
  exists (with_state e2 HALT). split; [|done].
  replace fuel with (3 + (fuel - 3))%nat by lia. apply execute_loop_more.
  cbn [execute_loop]. change (state e0) with NONE. rewrite E1. cbn [execute_loop]. rewrite Ss1, E2.
  cbn [execute_loop]. rewrite Ss2, E3. reflexivity.
Qed.
End EngineLemmas.

(** * Properties *)

(** C26: Executing any pair of scripts ends: with at least 1203 turns the engine
    of [VerifySignableData] reaches HALT or FAULT, or a panic, or an opcode
    outside the model, and the result does not depend on the number of turns. *)
Theorem vm_terminates (crypto : ICrypto) (message code param : bytes) :
  exists o, (forall fuel, (1203 <= fuel)%nat -> Execute message fuel (loaded code param) = Some o) /\
    (forall e, o = Ok e -> state e = HALT \/ state e = FAULT).
Proof.
  destruct (execute_loop_terminates message 1203 (with_state (loaded code param) NONE)) as (o & E & H);
    [done|done|done|done|].
  exists o. split; [|exact H]. intros fuel Hf.
  replace fuel with (1203 + (fuel - 1203))%nat by lia. by apply execute_loop_more.
Qed.

Section Multisig.
Context `{crypto : ICrypto} (message : bytes).
Abbreviation valid := (fun sig key => VerifySignature message sig key = true).

Lemma take_key_Some sig keys rest :
  take_key message sig keys = Some rest -> exists k, valid sig k /\ keys ≡ₚ k :: rest.
Proof.
  revert rest. induction keys as [|k keys IH]; intros rest E; [done|]. cbn in E.
  destruct (VerifySignature message sig k) eqn:V.
  - injection E as ->. eauto.
  - destruct (take_key message sig keys) as [r|]; [|done]. injection E as <-.
    destruct (IH r eq_refl) as (k' & V' & P). exists k'. split; [done|]. rewrite P. apply Permutation_swap.
Qed.

Lemma take_key_None sig keys k : take_key message sig keys = None -> k ∈ keys -> ~ valid sig k.
Proof.
  induction keys as [|k' keys IH]; intros E Hk; [by apply not_elem_of_nil in Hk|]. cbn in E.
  destruct (VerifySignature message sig k') eqn:V; [done|].
  destruct (take_key message sig keys); [done|]. apply elem_of_cons in Hk as [->|Hk]; [congruence|auto].
Qed.

Lemma match_signatures_sound sigs keys :
  match_signatures message sigs keys = true -> exists used rest, keys ≡ₚ used ++ rest /\ Forall2 valid sigs used.
Proof.
  revert keys. induction sigs as [|sig sigs IH]; intros keys E; [by exists [], keys|]. cbn in E.
  destruct (take_key message sig keys) as [r|] eqn:T; [|done].
  destruct (take_key_Some _ _ _ T) as (k & V & P). destruct (IH r E) as (used & rest & P' & F).
  exists (k :: used), rest. split; [by rewrite P, P'|by constructor].
Qed.

Lemma match_signatures_complete sigs used rest keys :
  (forall sig k k', k ∈ keys -> k' ∈ keys -> valid sig k -> valid sig k' -> k = k') ->
  keys ≡ₚ used ++ rest -> Forall2 valid sigs used -> match_signatures message sigs keys = true.
Proof.
  intros U P F. revert keys U P. induction F as [|sig k sigs used V _ IH]; intros keys U P; [done|]. cbn.
  assert (Hk : k ∈ keys) by (rewrite P; by left).
  destruct (take_key message sig keys) as [r|] eqn:T; [|by apply (take_key_None _ _ k) in T].
  destruct (take_key_Some _ _ _ T) as (k' & V' & P').
  assert (k' = k) as -> by (apply (U sig); try done; rewrite P'; by left).
  apply IH.
  - intros sig' a b Ha Hb. apply (U sig'); rewrite P'; by right.
  - rewrite P' in P. cbn in P. by apply Permutation_cons_inv in P.
Qed.
End Multisig.

(** CHECKMULTISIG accepts only when the signatures verify under distinct
    keys of the list, one key per signature; and when no signature is valid
    under two of the keys, it accepts every such assignment, in any order. *)
Theorem multisig_matching (crypto : ICrypto) (message : bytes) (sigs keys : list bytes) :
  (match_signatures message sigs keys = true ->
     exists used rest, keys ≡ₚ used ++ rest /\ Forall2 (fun s k => VerifySignature message s k = true) sigs used) /\
  ((forall s k k', k ∈ keys -> k' ∈ keys -> VerifySignature message s k = true ->
      VerifySignature message s k' = true -> k = k') ->
   forall used rest, keys ≡ₚ used ++ rest ->
     Forall2 (fun s k => VerifySignature message s k = true) sigs used ->
     match_signatures message sigs keys = true).
Proof.
  split; [apply match_signatures_sound|]. intros U used rest P F. by eapply match_signatures_complete.
Qed.

(** A signature is valid under the key equal to it. *)
Definition sample_crypto : ICrypto := fun _ s k => bool_decide (s = k).

Lemma multisig_matching_witness :
  match_signatures (crypto := sample_crypto) [] [[3]; [1]] [[1]; [2]; [3]] = true /\
  exists used rest, [[1]; [2]; [3]] ≡ₚ used ++ rest /\
    Forall2 (fun s k => sample_crypto [] s k = true) [[3]; [1]] used.
Proof.
  destruct (multisig_matching sample_crypto [] [[3]; [1]] [[1]; [2]; [3]]) as [S _].
  split; [vm_compute; reflexivity|apply S; vm_compute; reflexivity].
Defined.

(** The counts of CHECKMULTISIG overflow: with the largest 64-bit [n] on
    top of three more items, [n + 2] and the step counter wrap, every guard
    passes, and the allocation of the key list panics. *)
Theorem multisig_count_overflow (crypto : ICrypto) (message : bytes) (fuel : nat) :
  Execute message (2 + fuel) (loaded ([0x51; 0x51; 0x51; 8; 127] ++ repeat 255 7 ++ [CHECKMULTISIG]) []) = Some Panic.
Proof. apply execute_loop_more. vm_compute. reflexivity. Qed.
