(* ===== verification/Debugger.v ===== *)
(** The parts of [vm] that stepping through a script needs and that the node
    does not use: [StepOut], [StepOver] and the breakpoints of
    [execution_engine.go], the scripts of the invocation stack, and the helper
    functions of [common.go] on numbers, bytes and booleans. *)

From S2P Require Import Prelude Sha256 Serialization Common Vm.

(** * common.go *)

Definition SumBigInt (ints : list Z) : Z := foldl Z.add 0 ints.
(** The first element of an empty slice panics. *)
Definition MinBigInt (ints : list Z) : option Z := m ← head ints; Some (foldl (fun m d => if d <? m then d else m) m ints).
Definition MaxBigInt (ints : list Z) : option Z := m ← head ints; Some (foldl (fun m d => if m <? d then d else m) m ints).
(** The variants on [int64] start from zero and take the first element. *)
Fixpoint min_loop (i : nat) (minimum : Z) (datas : list Z) : Z :=
  match datas with
  | [] => minimum
  | d :: datas => let minimum := if (i =? 0)%nat then d else minimum in min_loop (S i) (if d <? minimum then d else minimum) datas
  end.
Definition MinInt64 (datas : list Z) : Z := min_loop 0 0 datas.
Fixpoint max_loop (i : nat) (maximum : Z) (datas : list Z) : Z :=
  match datas with
  | [] => maximum
  | d :: datas => let maximum := if (i =? 0)%nat then d else maximum in max_loop (S i) (if maximum <? d then d else maximum) datas
  end.
Definition MaxInt64 (datas : list Z) : Z := max_loop 0 0 datas.
Fixpoint Concat (array1 array2 : bytes) : bytes :=
  match array2 with [] => array1 | b :: array2 => Concat (array1 ++ [b]) array2 end.
(** Of a value that is not bytes, [None], the answer is false. *)
Definition AsBool (e : option bytes) : bool := match e with Some v => existsb (fun b => negb (b =? 0)) v | None => false end.
Definition AsInt64 (b : bytes) : Z * err :=
  if (length b =? 0)%nat then (0, None)
  else if (8 <? length b)%nat then (0, Some (NewError "bad value"))
  else (int64 (le_val (fill 8 b)), None).
Definition BoolArrayOp (negated : bool) (bools : list bool) : list bool := map (fun b => if negated then negb b else b) bools.
Fixpoint equal_loop (b1 b2 : bytes) : bool :=
  match b1, b2 with x :: b1, y :: b2 => if negb (x =? y) then false else equal_loop b1 b2 | _, _ => true end.
Definition vm_IsEqualBytes (b1 b2 : bytes) : bool := if negb (length b1 =? length b2)%nat then false else equal_loop b1 b2.

(** * execution_engine.go *)

(** The script of a context that is there. *)
Definition script_of (c : outcome (option ExecutionContext)) : outcome (option bytes) :=
  match c with Ok c => Ok (Script <$> c) | Panic => Panic | Unmodelled => Unmodelled end.
Definition ExecutingScript (e : Engine) : outcome (option bytes) := script_of (Peek (invocationStack e) 0).
Definition CallingScript (e : Engine) : outcome (option bytes) :=
  if 1 <? Count (invocationStack e) then script_of (Peek (invocationStack e) 1) else Ok None.
Definition EntryScript (e : Engine) : outcome (option bytes) := script_of (Peek (invocationStack e) (Count (invocationStack e) - 1)).
(** Both have an empty body. *)
Definition AddBreakPoint (position : Z) (e : Engine) : Engine := e.
Definition RemoveBreakPoint (position : Z) (e : Engine) : Engine * bool := (e, true).

Section Stepping.
Context `{ICrypto} (message : bytes).

Definition stopped (e : Engine) : bool := (state e =? FAULT) || (state e =? HALT) || (state e =? BREAK).
(** [None]: not finished after [fuel] turns. *)
Fixpoint step_until (stop : Engine -> bool) (fuel : nat) (e : Engine) : option (outcome Engine) :=
  if stopped e || stop e then Some (Ok e)
  else
    match fuel with
    | O => None
    | S fuel =>
        match StepInto message e with
        | Ok (_, e) => step_until stop fuel e
        | Panic => Some Panic
        | Unmodelled => Some Unmodelled
        end
    end.
Definition StepOut (fuel : nat) (e : Engine) : option (outcome Engine) :=
  let e := with_state e (Z.ldiff (state e) BREAK) in
  let c := Count (invocationStack e) in
  step_until (fun e => c <=? Count (invocationStack e)) fuel e.
Definition StepOver (fuel : nat) (e : Engine) : option (outcome Engine) :=
  if (state e =? FAULT) || (state e =? HALT) then Some (Ok e) else
  let e := with_state e (Z.ldiff (state e) BREAK) in
  let c := Count (invocationStack e) in
  step_until (fun e => c <? Count (invocationStack e)) fuel e.

(** * Theorems *)

Lemma step_until_execute stop fuel : forall e e', step_until stop fuel e = Some (Ok e') -> stop e' = false -> execute_loop message fuel e = Some (Ok e').
Proof.
  induction fuel as [|fuel IH]; intros e e' E Hs; cbn [step_until execute_loop] in *; fold (stopped e); destruct (stopped e) eqn:Ht; cbn [orb] in E; try done;
    destruct (stop e) eqn:Es; try (injection E as <-; congruence); try done.
  destruct (StepInto message e) as [[[] e1]| |]; [by apply IH|done|done].
Qed.

(** Stepping.  [StepOut] executes nothing: it stops as soon as there are as many
    contexts as at the start, which is at once.  [StepOver] that returns with no
    more contexts than before has executed the script to its end, exactly as
    [Execute] does; and breakpoints have no effect. *)
Theorem stepping (fuel : nat) (e e' : Engine) :
  StepOut fuel e = Some (Ok (with_state e (Z.ldiff (state e) BREAK))) /\
  (StepOver fuel e = Some (Ok e') -> state e <> FAULT -> state e <> HALT ->
   Count (invocationStack e') <= Count (invocationStack e) -> Execute message fuel e = Some (Ok e')) /\
  (forall p, StepOver fuel (AddBreakPoint p e) = StepOver fuel e).
Proof.
  split; [|split; [|done]].
  - unfold StepOut. destruct fuel; cbn [step_until]; cbn [invocationStack with_state]; rewrite Z.leb_refl, orb_true_r; done.
  - intros E H1 H2 Hc. unfold StepOver in E. rewrite (proj2 (Z.eqb_neq _ _) H1), (proj2 (Z.eqb_neq _ _) H2) in E. cbn [orb] in E.
    eapply step_until_execute; [exact E|]. cbn. apply Z.ltb_ge. done.
Qed.
End Stepping.

Lemma min_loop_spec l : forall i m, (0 < i)%nat -> min_loop i m l <= m /\ (forall x, x ∈ l -> min_loop i m l <= x) /\ (min_loop i m l = m \/ min_loop i m l ∈ l).
Proof.
  induction l as [|d l IH]; intros i m Hi; cbn [min_loop]; [split; [lia|]; split; [by intros x ?%elem_of_nil|by left]|].
  destruct (Nat.eqb_spec i 0); [lia|]. destruct (IH (S i) (if d <? m then d else m) ltac:(lia)) as (H1 & H2 & H3).
  destruct (Z.ltb_spec d m); (split; [lia|]); (split; [intros x [->|Hx]%elem_of_cons; [lia|by apply H2]|]).
  - destruct H3 as [->|H3]; [right; left|right; by right].
  - destruct H3 as [->|H3]; [by left|right; by right].
Qed.
Lemma equal_loop_spec b1 : forall b2, length b1 = length b2 -> equal_loop b1 b2 = true <-> b1 = b2.
Proof.
  induction b1 as [|x b1 IH]; intros [|y b2] Hl; try done. cbn. injection Hl as Hl. destruct (Z.eqb_spec x y) as [->|]; cbn.
  - rewrite IH by done. naive_solver.
  - naive_solver.
Qed.
Lemma Concat_app a b : Concat a b = a ++ b.
Proof. revert a. induction b as [|x b IH]; intros a; cbn; [by rewrite app_nil_r|]. rewrite IH. by rewrite <- app_assoc. Qed.

(** The helpers do what their names say: the minimum is a least element,
    concatenation appends, equality of bytes is equality, and a number of up to
    eight bytes is read back from its little-endian bytes. *)
Theorem helpers_correct (datas : list Z) (a b : bytes) (v : Z) :
  (datas <> [] -> MinInt64 datas ∈ datas /\ forall x, x ∈ datas -> MinInt64 datas <= x) /\
  Concat a b = a ++ b /\ (vm_IsEqualBytes a b = true <-> a = b) /\
  (inS 64 v -> AsInt64 (le_bytes 8 (uint64 v)) = (v, None)).
Proof.
  split; [|split; [apply Concat_app|split]].
  - destruct datas as [|d datas]; [done|]. intros _. unfold MinInt64. cbn [min_loop Nat.eqb]. rewrite Z.ltb_irrefl.
    destruct (min_loop_spec datas 1 d ltac:(lia)) as (H1 & H2 & H3). split.
    + destruct H3 as [->|H3]; [left|by right].
    + intros x [->|Hx]%elem_of_cons; [done|by apply H2].
  - unfold vm_IsEqualBytes. destruct (Nat.eqb_spec (length a) (length b)) as [E|E]; cbn [negb]; [by apply equal_loop_spec|]. split; [done|]. intros ->. done.
  - intros Hv. unfold AsInt64. rewrite length_le_bytes. cbn [Nat.eqb Nat.ltb Nat.leb]. rewrite fill_full by (by rewrite length_le_bytes).
    rewrite le_val_le_bytes. f_equal. pose proof (wrapU_range 64 v ltac:(lia)).
    rewrite Z.mod_small by (change (256 ^ Z.of_nat 8) with (2 ^ 64); lia). by apply wrapS_of_U.
Qed.
