(* ===== verification/Address.v ===== *)
(** Addresses of program hashes: [ToAddress] and [ToScriptHash] of
    [common/uint160.go].

    Base58 is a third-party package that turns decimal numerals into Base58 text
    and back; it is a class, and what the code relies on is its one law.
    Numerals go through [math/big], which is modelled here. *)

From Stdlib Require Ascii String.
From S2P Require Import Prelude Sha256 Serialization Common Vm.

(** * Numerals *)

(** The digits of [n], most significant first; none for 0. *)
Fixpoint to_base_loop (fuel : nat) (b n : Z) (acc : list Z) : list Z :=
  match fuel with
  | O => acc
  | S fuel => if n =? 0 then acc else to_base_loop fuel b (n / b) (n mod b :: acc)
  end.
(** Every digit takes at least one bit. *)
Definition to_base (b n : Z) : list Z := to_base_loop (Z.to_nat (Z.log2 n + 1)) b n [].
Definition from_base (b : Z) (l : list Z) : Z := foldl (fun a d => b * a + d) 0 l.

(** [big.Int.String]. *)
Definition big_String (n : Z) : bytes := if n =? 0 then [48] else map (Z.add 48) (to_base 10 n).
(** [big.Int.SetBytes]. *)
Definition big_SetBytes (l : bytes) : Z := from_base 256 l.
(** [big.Int.SetString(s, 10)]; [None] when [s] is not a numeral. *)
Definition big_SetString (s : bytes) : option Z :=
  let '(neg, d) := match s with
                   | c :: t => if c =? 45 then (true, t) else if c =? 43 then (false, t) else (false, s)
                   | [] => (false, [])
                   end in
  if (length d =? 0)%nat || negb (forallb (fun c => (48 <=? c) && (c <=? 57)) d) then None
  else let v := from_base 10 (map (fun c => c - 48) d) in Some (if neg then - v else v).

(** [base58.BitcoinEncoding]; [None] is an error. *)
Class IBase58 := {
  base58_Encode : bytes -> option bytes;
  base58_Decode : bytes -> option bytes }.
(** Decoding what a positive numeral was encoded to gives the numeral. *)
Class IBase58Laws `{IBase58} :=
  base58_roundtrip : forall n, 0 < n -> exists e, base58_Encode (big_String n) = Some e /\ base58_Decode e = Some (big_String n).

Section Address.
Context `{IBase58}.

Definition address_data (f : Uint160) : bytes :=
  let data := 33 :: f in data ++ take 4 (sha256 (sha256 data)).

Definition ToAddress (f : Uint160) : bytes * err :=
  match base58_Encode (big_String (big_SetBytes (address_data f))) with
  | Some encoded => (encoded, None)
  | None => ([], Some (NewError "base58"))
  end.

(** [x.Bytes()[1:21]] of an unparsable or a short numeral panics. *)
Definition ToScriptHash (address : bytes) : outcome (Uint160 * err) :=
  match base58_Decode address with
  | None => Ok (zero160, Some (NewError "base58"))
  | Some decoded =>
      match big_SetString decoded with
      | None => Panic
      | Some x =>
          let b := big_Bytes x in
          if (length b <? 21)%nat then Panic else
          let '(ph, e) := Uint160ParseFromBytes (take 20 (drop 1 b)) in
          if is_err e then Ok (zero160, e) else
          let '(addr, e) := ToAddress ph in
          if is_err e then Ok (zero160, e) else
          if bool_decide (addr = address) then Ok (ph, None)
          else Ok (zero160, Some (NewError "[AddressToProgramHash]: decode address verify failed."))
      end
  end.
End Address.

(** * Lemmas *)

Lemma from_base_snoc b l d : from_base b (l ++ [d]) = b * from_base b l + d.
Proof. unfold from_base. by rewrite foldl_app. Qed.
Lemma from_base_bound b l : 1 < b -> Forall (fun d => 0 <= d < b) l -> 0 <= from_base b l < b ^ Z.of_nat (length l).
Proof.
  intros Hb. induction l as [|d l IH] using rev_ind; intros Hl; [cbn; lia|].
  apply Forall_app in Hl as [Hl Hd]. inversion Hd; subst. specialize (IH Hl).
  rewrite from_base_snoc, length_app. cbn [length]. rewrite Nat.add_1_r, Nat2Z.inj_succ, Z.pow_succ_r by lia. nia.
Qed.
Lemma from_base_lead b d l : 1 < b -> 1 <= d -> Forall (fun d => 0 <= d < b) l -> from_base b (d :: l) >= b ^ Z.of_nat (length l).
Proof.
  intros Hb Hd. induction l as [|x l IH] using rev_ind; intros Hl; [cbn; lia|].
  apply Forall_app in Hl as [Hl Hx]. inversion Hx; subst. specialize (IH Hl).
  rewrite app_comm_cons, from_base_snoc, length_app. cbn [length]. rewrite Nat.add_1_r, Nat2Z.inj_succ, Z.pow_succ_r by lia. nia.
Qed.

(** Numerals without leading zeros are unique. *)
Definition numeral (b : Z) (l : list Z) : Prop := Forall (fun d => 0 <= d < b) l /\ hd_error l <> Some 0.
Lemma numeral_snoc b l d : numeral b (l ++ [d]) -> numeral b l /\ 0 <= d < b /\ (l = [] -> d <> 0).
Proof.
  intros [Hl Hh]. apply Forall_app in Hl as [Hl Hd]. inversion Hd; subst. split_and!; [|lia|lia|].
  - split; [done|]. by destruct l.
  - intros -> ->. by apply Hh.
Qed.
Lemma numeral_zero b l : 1 < b -> numeral b l -> from_base b l = 0 -> l = [].
Proof.
  intros Hb. induction l as [|d l IH] using rev_ind; [done|]. intros (Hl & Hd & Hn)%numeral_snoc E.
  rewrite from_base_snoc in E. pose proof (from_base_bound b l Hb (proj1 Hl)).
  assert (l = []) as -> by (apply IH; [done|nia]). cbn in E. by destruct Hn; [|nia].
Qed.
Lemma from_base_inj b l l' : 1 < b -> numeral b l -> numeral b l' -> from_base b l = from_base b l' -> l = l'.
Proof.
  intros Hb. revert l'. induction l as [|d l IH] using rev_ind; intros l' Hl Hl' E; [symmetry; by apply (numeral_zero b)|].
  destruct l' as [|d' l' _] using rev_ind; [by apply (numeral_zero b)|].
  apply numeral_snoc in Hl as (Hl & Hd & _), Hl' as (Hl' & Hd' & _). rewrite !from_base_snoc in E.
  assert (from_base b l = from_base b l' /\ d = d') as [Ev ->]
    by (apply (Z.div_mod_unique b); [by left|by left|done]). f_equal. by apply IH.
Qed.

Lemma to_base_loop_spec b fuel : 1 < b -> forall n acc, 0 <= n < b ^ Z.of_nat fuel ->
  exists l, to_base_loop fuel b n acc = l ++ acc /\ from_base b l = n /\ numeral b l.
Proof.
  intros Hb. induction fuel as [|fuel IH]; intros n acc Hn; cbn [to_base_loop].
  { exists []. cbn in *. split_and!; [done|cbn; lia|by split; [constructor|]]. }
  destruct (Z.eqb_spec n 0) as [->|Hn0]; [exists []; split_and!; [done|done|by split; [constructor|]]|].
  rewrite Nat2Z.inj_succ, Z.pow_succ_r in Hn by lia.
  assert (Hm := Z.mod_pos_bound n b ltac:(lia)). assert (Hd := Z.div_mod n b ltac:(lia)).
  assert (Hq : 0 <= n / b < b ^ Z.of_nat fuel) by (split; [apply Z.div_pos; lia|apply Z.div_lt_upper_bound; lia]).
  destruct (IH (n / b) (n mod b :: acc) Hq) as (l & -> & Hv & Hl & Hh).
  exists (l ++ [n mod b]). split_and!; [by rewrite <- app_assoc|rewrite from_base_snoc, Hv; lia|split].
  - apply Forall_app. split; [done|]. constructor; [lia|constructor].
  - destruct l as [|d l]; [|done]. cbn in *. intros [= E]. lia.
Qed.
Lemma to_base_spec b n : 1 < b -> 0 <= n -> from_base b (to_base b n) = n /\ numeral b (to_base b n).
Proof.
  intros Hb Hn. unfold to_base.
  destruct (to_base_loop_spec b (Z.to_nat (Z.log2 n + 1)) Hb n []) as (l & -> & ? & ?); [|by rewrite app_nil_r].
  pose proof (Z.log2_nonneg n). rewrite Z2Nat.id by lia. split; [done|].
  destruct (Z.eq_dec n 0) as [->|]; [cbn; lia|]. pose proof (Z.log2_spec n ltac:(lia)).
  apply Z.lt_le_trans with (2 ^ (Z.log2 n + 1)); [lia|]. apply Z.pow_le_mono_l. lia.
Qed.
Lemma big_Bytes_base n : 0 <= n -> from_base 256 (big_Bytes n) = n /\ numeral 256 (big_Bytes n).
Proof.
  intros Hn. unfold big_Bytes. rewrite Z.abs_eq by done.
  assert (E : forall fuel m acc, big_Bytes_loop fuel m acc = to_base_loop fuel 256 m acc)
    by (induction fuel; intros; cbn; [done|]; by destruct (_ =? 0)).
  rewrite E. destruct (to_base_loop_spec 256 (Z.to_nat (Z.log2 n / 8 + 1)) ltac:(lia) n []) as (l & -> & ? & ?); [|by rewrite app_nil_r].
  pose proof (Z.log2_nonneg n). assert (0 <= Z.log2 n / 8) by (apply Z.div_pos; lia). rewrite Z2Nat.id by lia. split; [done|].
  destruct (Z.eq_dec n 0) as [->|]; [done|]. pose proof (Z.log2_spec n ltac:(lia)).
  apply Z.lt_le_trans with (2 ^ (Z.log2 n + 1)); [lia|]. change 256 with (2 ^ 8). rewrite <- Z.pow_mul_r by lia.
  apply Z.pow_le_mono_r; [lia|]. pose proof (Z.div_mod (Z.log2 n) 8 ltac:(lia)). pose proof (Z.mod_pos_bound (Z.log2 n) 8 ltac:(lia)). lia.
Qed.

Lemma big_SetString_String n : 0 <= n -> big_SetString (big_String n) = Some n.
Proof.
  intros Hn. unfold big_String. destruct (Z.eqb_spec n 0) as [->|Hn0]; [done|].
  destruct (to_base_spec 10 n ltac:(lia) Hn) as [Hv [Hd _]]. unfold big_SetString.
  assert (Hf : forallb (fun c => (48 <=? c) && (c <=? 57)) (map (Z.add 48) (to_base 10 n)) = true).
  { apply forallb_forall. intros c Hc. apply in_map_iff in Hc as (d & <- & Hin). rewrite List.Forall_forall in Hd.
    specialize (Hd d Hin). cbn in Hd. apply andb_true_iff. split; apply Z.leb_le; lia. }
  assert (Hm : map (fun c => c - 48) (map (Z.add 48) (to_base 10 n)) = to_base 10 n).
  { rewrite map_map. rewrite <- (map_id (to_base 10 n)) at 2. apply map_ext. intros. lia. }
  destruct (to_base 10 n) as [|d l] eqn:E; [cbn in Hv; lia|]. inversion Hd; subst.
  cbn [map]. destruct (Z.eqb_spec (48 + d) 45); [lia|]. destruct (Z.eqb_spec (48 + d) 43); [lia|].
  cbn [map length Nat.eqb] in *. rewrite Hf, Hm. done.
Qed.

(** ** A codec that satisfies the law *)

Definition base58_alphabet : bytes :=
  map (fun c => Z.of_N (Ascii.N_of_ascii c))
    (String.list_ascii_of_string "123456789ABCDEFGHJKLMNPQRSTUVWXYZabcdefghijkmnopqrstuvwxyz").
Definition base58_char (d : Z) : Z := nth (Z.to_nat d) base58_alphabet 0.
Fixpoint base58_index (i : Z) (alphabet : bytes) (c : Z) : option Z :=
  match alphabet with
  | [] => None
  | x :: alphabet => if x =? c then Some i else base58_index (i + 1) alphabet c
  end.
#[export] Instance bitcoin_base58 : IBase58 := {
  base58_Encode s := n ← big_SetString s; Some (map base58_char (to_base 58 n));
  base58_Decode e := ds ← mapM (base58_index 0 base58_alphabet) e; Some (big_String (from_base 58 ds)) }.

Lemma base58_index_char d : 0 <= d < 58 -> base58_index 0 base58_alphabet (base58_char d) = Some d.
Proof.
  intros Hd. assert (A : forallb (fun k => bool_decide (base58_index 0 base58_alphabet (base58_char (Z.of_nat k)) = Some (Z.of_nat k))) (seq 0 58) = true)
    by (vm_compute; reflexivity).
  rewrite forallb_forall in A. specialize (A (Z.to_nat d)). rewrite Z2Nat.id in A by lia.
  apply bool_decide_eq_true in A; [done|]. apply in_seq. lia.
Qed.
#[export] Instance bitcoin_base58_laws : IBase58Laws.
Proof.
  intros n Hn. cbn [base58_Encode base58_Decode bitcoin_base58]. rewrite big_SetString_String by lia. cbn [mbind option_bind].
  eexists. split; [done|]. destruct (to_base_spec 58 n ltac:(lia) ltac:(lia)) as [Hv [Hd _]].
  assert (E : mapM (base58_index 0 base58_alphabet) (map base58_char (to_base 58 n)) = Some (to_base 58 n)).
  { apply mapM_Some. revert Hd. generalize (to_base 58 n). induction l as [|d l IH]; intros Hd; inversion Hd; subst; [constructor|].
    cbn [map]. constructor; [by apply base58_index_char|by apply IH]. }
  rewrite E. cbn [mbind option_bind]. by rewrite Hv.
Qed.

(** An address that is accepted is the address of the hash. *)
Lemma ToScriptHash_sound `{IBase58} a f : ToScriptHash a = Ok (f, None) -> ToAddress f = (a, None).
Proof.
  unfold ToScriptHash. destruct (base58_Decode a) as [d|]; [|done]. destruct (big_SetString d) as [x|]; [|done].
  destruct (_ <? _)%nat; [done|]. destruct (Uint160ParseFromBytes _) as [ph [e|]]; cbn [is_err]; [done|].
  destruct (ToAddress ph) as [addr [e'|]] eqn:Et; cbn [is_err]; [done|].
  destruct (bool_decide_reflect (addr = a)) as [->|]; [|done]. by intros [= <-].
Qed.

(** * Theorems *)

Section Theorems.
Context `{IBase58Laws}.

Lemma address_numeral f : wf_u160 f -> numeral 256 (address_data f) /\ 0 < big_SetBytes (address_data f).
Proof.
  intros [Hl Hw]. assert (Hn : numeral 256 (address_data f)).
  { split; [|done]. unfold address_data. apply Forall_app. split; [constructor; [lia|]|apply Forall_take].
    - exact Hw.
    - apply wf_sha256. }
  split; [done|]. unfold big_SetBytes. pose proof (from_base_bound 256 _ ltac:(lia) (proj1 Hn)).
  destruct (Z.eq_dec (from_base 256 (address_data f)) 0) as [E|]; [|lia].
  apply numeral_zero in E; [done|lia|done].
Qed.
Lemma Bytes_SetBytes l : numeral 256 l -> big_Bytes (big_SetBytes l) = l.
Proof.
  intros Hl. pose proof (from_base_bound 256 l ltac:(lia) (proj1 Hl)).
  destruct (big_Bytes_base (big_SetBytes l)) as [Hv Hn]; [unfold big_SetBytes; lia|]. by apply (from_base_inj 256).
Qed.

(** The address of a program hash is read back as that hash, and an address is
    accepted only if it is the address of the hash it is read as, so a hash has
    a single address and a wrong checksum is refused. *)
Theorem address_roundtrip :
  (forall f, wf_u160 f -> exists a, ToAddress f = (a, None) /\ ToScriptHash a = Ok (f, None)) /\
  (forall a f, ToScriptHash a = Ok (f, None) -> ToAddress f = (a, None)).
Proof.
  split.
  - intros f Hf. destruct (address_numeral f Hf) as [Hn Hp]. destruct (base58_roundtrip _ Hp) as (a & Ee & Ed).
    assert (Et : ToAddress f = (a, None)) by (unfold ToAddress; by rewrite Ee).
    exists a. split; [done|]. unfold ToScriptHash. rewrite Ed, big_SetString_String, Bytes_SetBytes by (done || lia).
    destruct Hf as [Hl Hw]. assert (Ht : take 20 (drop 1 (address_data f)) = f).
    { change (take 20 (f ++ take 4 (sha256 (sha256 (33 :: f)))) = f). rewrite <- Hl. apply take_app_length. }
    rewrite (proj2 (Nat.ltb_ge _ _)).
    + rewrite Ht. unfold Uint160ParseFromBytes. rewrite Hl. change (negb (Z.of_nat 20 =? UINT160SIZE)) with false.
      cbn beta iota. rewrite Et. cbn [is_err]. by rewrite bool_decide_eq_true_2.
    + unfold address_data. rewrite length_app. cbn [length]. lia.
  - intros a f. apply ToScriptHash_sound.
Qed.

(** An address that decodes to a number of fewer than 21 bytes panics instead of
    being refused. *)
Theorem short_address_panics a n :
  base58_Decode a = Some (big_String n) -> 0 <= n < 256 ^ 20 -> ToScriptHash a = Panic.
Proof.
  intros Hd Hn. unfold ToScriptHash. rewrite Hd, big_SetString_String by lia.
  destruct (big_Bytes_base n) as [Hv Hb]; [lia|]. rewrite (proj2 (Nat.ltb_lt _ _)); [done|].
  destruct (le_lt_dec 21 (length (big_Bytes n))) as [Hl|]; [|lia]. exfalso.
  destruct (big_Bytes n) as [|d l]; [cbn in Hl; lia|]. destruct Hb as [Hf Hh]. inversion Hf; subst. cbn in Hh.
  assert (Hc : from_base 256 (d :: l) >= 256 ^ Z.of_nat (length l)).
  { apply from_base_lead; [lia| |done]. destruct (Z.eq_dec d 0) as [->|]; [by destruct Hh|lia]. }
  cbn [length] in Hl. assert (256 ^ 20 <= 256 ^ Z.of_nat (length l)) by (apply Z.pow_le_mono_r; lia). lia.
Qed.
End Theorems.

Lemma address_roundtrip_witness :
  exists a, ToAddress zero160 = (a, None) /\ ToScriptHash a = Ok (zero160, None).
Proof. destruct address_roundtrip as [R _]. apply R. by_decision. Defined.
(** The address with the single character 2, the number 1. *)
Lemma short_address_panics_witness : ToScriptHash [50] = Panic.
Proof. apply (short_address_panics [50] 1); [vm_compute; reflexivity|lia]. Defined.
