(* ===== verification/Events.v ===== *)
(** [events] and [errors]: subscriptions to the events of the chain, signals, and
    errors that carry a message, a code and the error they were made of.

    A subscriber is a channel, here a number; closing one twice panics.  The
    functions an event starts run in goroutines of their own, in no order: [Notify]
    returns them. *)

From S2P Require Import Prelude Serialization Common Vm.

(** * event.go and eventType.go *)

Definition EventSaveBlock : Z := 0.
Definition EventReplyTx : Z := 1.
Definition EventBlockPersistCompleted : Z := 2.
Definition EventNewInventory : Z := 3.
Definition EventNodeDisconnect : Z := 4.
Definition EventRollbackTransaction : Z := 5.
Definition EventNewTransactionPutInPool : Z := 6.

Section Event.
Context {F : Type}.

(** A subscribed function may be nil.  [ev_next]: the next channel made. *)
Record Event := mkEvent { subscribers : gmap Z (gmap positive (option F)); ev_closed : gset positive; ev_next : positive }.
Definition NewEvent : Event := mkEvent ∅ ∅ 1.
Definition Subscribe (eventtype : Z) (eventfunc : option F) (e : Event) : Event * positive :=
  let sub := ev_next e in
  let subs := default ∅ (subscribers e !! eventtype) in
  (mkEvent (<[eventtype := <[sub := eventfunc]> subs]> (subscribers e)) (ev_closed e) (Pos.succ sub), sub).
Definition UnSubscribe (eventtype : Z) (subscriber : positive) (e : Event) : outcome (Event * err) :=
  match subscribers e !! eventtype with
  | None => Ok (e, Some (NewError "No event type."))
  | Some subEvent =>
      if bool_decide (subscriber ∈ ev_closed e) then Panic
      else Ok (mkEvent (<[eventtype := delete subscriber subEvent]> (subscribers e)) ({[ subscriber ]} ∪ ev_closed e) (ev_next e), None)
  end.
(** [NotifySubscriber] does nothing for a nil function. *)
Definition NotifySubscriber (eventfunc : option F) : list F := match eventfunc with Some f => [f] | None => [] end.
Definition Notify (eventtype : Z) (e : Event) : list F * err :=
  match subscribers e !! eventtype with
  | None => ([], Some (NewError "No event type."))
  | Some subs => (concat (map (fun s => NotifySubscriber s.2) (map_to_list subs)), None)
  end.
Definition NotifyAll (e : Event) : list F * list error :=
  foldr (fun t acc => let '(fs, er) := Notify t e in (fs ++ acc.1, match er with Some x => x :: acc.2 | None => acc.2 end))
    ([], []) (map fst (map_to_list (subscribers e))).

(** * What is promised *)

(** The calls made, and the subscriptions that are alive after them. *)
Inductive ev_op := OpSubscribe (t : Z) (f : option F) | OpUnSubscribe (t : Z) (sub : positive).
Definition ev_run1 (op : ev_op) (e : Event) : outcome Event :=
  match op with
  | OpSubscribe t f => Ok (Subscribe t f e).1
  | OpUnSubscribe t s => match UnSubscribe t s e with Ok (e, _) => Ok e | Panic => Panic | Unmodelled => Unmodelled end
  end.
Fixpoint ev_run (ops : list ev_op) (e : Event) : outcome Event :=
  match ops with [] => Ok e | op :: ops => match ev_run1 op e with Ok e => ev_run ops e | r => r end end.
(** The [n]-th subscription has the number [n]. *)
Fixpoint alive (ops : list ev_op) (n : positive) (live : list (Z * positive * option F)) : list (Z * positive * option F) :=
  match ops with
  | [] => live
  | OpSubscribe t f :: ops => alive ops (Pos.succ n) ((t, n, f) :: live)
  | OpUnSubscribe t s :: ops => alive ops n (List.filter (fun x => negb ((x.1.1 =? t) && (x.1.2 =? s)%positive)) live)
  end.
Definition of_type (t : Z) (live : list (Z * positive * option F)) : list (positive * option F) :=
  map (fun x => (x.1.2, x.2)) (List.filter (fun x => x.1.1 =? t) live).

(** The maps hold the live subscriptions. *)
Record ev_rel (e : Event) (live : list (Z * positive * option F)) : Prop := {
  er_perm t : map_to_list (default ∅ (subscribers e !! t)) ≡ₚ of_type t live;
  er_fresh t s f : (t, s, f) ∈ live -> (s < ev_next e)%positive }.

Lemma of_type_cons t x live : of_type t (x :: live) = (if x.1.1 =? t then [(x.1.2, x.2)] else []) ++ of_type t live.
Proof. unfold of_type. cbn [List.filter]. by destruct (x.1.1 =? t). Qed.
Lemma of_type_In t s f live : (s, f) ∈ of_type t live <-> (t, s, f) ∈ live.
Proof.
  unfold of_type. rewrite !list_elem_of_In, in_map_iff. split.
  - intros ([[t' s'] f'] & [= <- <-] & Hi). apply filter_In in Hi as [Hi Ht]. cbn in Ht. apply Z.eqb_eq in Ht. by subst.
  - intros Hi. exists (t, s, f). split; [done|]. apply filter_In. split; [done|]. cbn. apply Z.eqb_refl.
Qed.
Lemma of_type_remove t t' s live : of_type t (List.filter (fun x => negb ((x.1.1 =? t') && (x.1.2 =? s)%positive)) live) =
  (if t =? t' then List.filter (fun y => negb (y.1 =? s)%positive) (of_type t live) else of_type t live).
Proof.
  induction live as [|[[a b] c] live IH]; [by destruct (t =? t')|]. cbn [List.filter fst snd]. rewrite (of_type_cons t (a, b, c)). cbn [fst snd].
  destruct ((a =? t') && (b =? s)%positive) eqn:E; cbn [negb].
  - rewrite IH. apply andb_true_iff in E as [->%Z.eqb_eq Eb]. destruct (Z.eqb_spec t t') as [->|Ht].
    + rewrite Z.eqb_refl. cbn [app List.filter fst]. by rewrite Eb.
    + rewrite (proj2 (Z.eqb_neq t' t)) by done. done.
  - rewrite of_type_cons. cbn [fst snd]. rewrite IH. destruct (Z.eqb_spec t t') as [->|Ht]; [|done].
    destruct (Z.eqb_spec a t') as [->|Ha]; [|done]. cbn [andb] in E. cbn [app List.filter fst]. by rewrite E.
Qed.
Lemma delete_perm {A} (m : gmap positive A) s l : map_to_list m ≡ₚ l -> map_to_list (delete s m) ≡ₚ List.filter (fun y => negb (y.1 =? s)%positive) l.
Proof.
  intros Hp. assert (N : NoDup l) by (rewrite <- Hp; apply NoDup_map_to_list).
  apply NoDup_Permutation; [apply NoDup_map_to_list| |].
  - clear Hp. induction N as [|x l Hx N IH]; cbn [List.filter]; [constructor|]. destruct (negb _); [|done]. constructor; [|done].
    rewrite list_elem_of_In, filter_In, <- list_elem_of_In. tauto.
  - intros [k a]. rewrite elem_of_map_to_list, lookup_delete_Some, list_elem_of_In, filter_In, <- list_elem_of_In, <- Hp, elem_of_map_to_list.
    cbn. rewrite negb_true_iff, Pos.eqb_neq. naive_solver.
Qed.
Lemma ev_run1_rel op e e' live : ev_rel e live -> ev_run1 op e = Ok e' ->
  exists live', (forall ops, alive (op :: ops) (ev_next e) live = alive ops (ev_next e') live') /\ ev_rel e' live'.
Proof.
  intros [Hp Hf] E. destruct op as [t f|t s]; cbn [ev_run1 Subscribe fst] in E.
  - injection E as <-. exists ((t, ev_next e, f) :: live). split; [done|]. split; cbn [subscribers ev_next].
    + intros t'. rewrite of_type_cons. cbn [fst snd]. destruct (Z.eqb_spec t t') as [<-|Ht].
      * rewrite lookup_insert_eq. cbn [default id]. unfold id. rewrite map_to_list_insert, (Hp t); [done|].
        destruct (default ∅ (subscribers e !! t) !! ev_next e) as [g|] eqn:Eg; [|done].
        apply elem_of_map_to_list in Eg. rewrite Hp, of_type_In in Eg. apply Hf in Eg. lia.
      * rewrite lookup_insert_ne by done. apply Hp.
    + intros t' s f' Hi. apply elem_of_cons in Hi as [[= -> -> ->]|Hi]; [lia|]. apply Hf in Hi. lia.
  - unfold UnSubscribe in E. destruct (subscribers e !! t) as [m|] eqn:Em.
    + destruct (bool_decide _); [done|]. injection E as <-. eexists. split; [intros ops; reflexivity|]. split; cbn [subscribers ev_next].
      * intros t'. rewrite of_type_remove. destruct (Z.eqb_spec t' t) as [->|Ht].
        -- rewrite lookup_insert_eq. cbn [default id]. unfold id. apply delete_perm. pose proof (Hp t) as H. by rewrite Em in H.
        -- rewrite lookup_insert_ne by done. apply Hp.
      * intros t' s' f Hi. rewrite list_elem_of_In in Hi. apply filter_In in Hi as [Hi _]. apply (Hf t' s' f). by apply list_elem_of_In.
    + injection E as <-. eexists. split; [intros ops; reflexivity|]. split; [|intros t' s' f Hi; rewrite list_elem_of_In in Hi; apply filter_In in Hi as [Hi _]; apply (Hf t' s' f); by apply list_elem_of_In].
      intros t'. rewrite of_type_remove. destruct (Z.eqb_spec t' t) as [->|Ht]; [|apply Hp].
      pose proof (Hp t) as H. rewrite Em in H. cbn [default id] in H. unfold id in H. rewrite map_to_list_empty in H. apply Permutation_nil in H. rewrite H, Em. cbn. by rewrite map_to_list_empty.
Qed.
Lemma ev_run_rel ops : forall e e' live, ev_rel e live -> ev_run ops e = Ok e' -> ev_rel e' (alive ops (ev_next e) live).
Proof.
  induction ops as [|op ops IH]; intros e e' live R E; cbn [ev_run] in E; [injection E as <-; exact R|].
  destruct (ev_run1 op e) as [e1| |] eqn:E1; [|done..]. destruct (ev_run1_rel op e e1 live R E1) as (live' & -> & R'). by apply IH.
Qed.
Lemma NewEvent_rel : ev_rel NewEvent [].
Proof. split; cbn; [intros t; by rewrite lookup_empty; cbn; rewrite map_to_list_empty|intros t s f Hi; by apply not_elem_of_nil in Hi]. Qed.

(** A type is known once something subscribed to it. *)
Definition subscribed (t : Z) (op : ev_op) : bool := match op with OpSubscribe t' _ => t' =? t | _ => false end.
Lemma ev_run_known t ops : forall e e', ev_run ops e = Ok e' ->
  is_Some (subscribers e' !! t) <-> is_Some (subscribers e !! t) \/ existsb (subscribed t) ops = true.
Proof.
  induction ops as [|op ops IH]; intros e e' E; cbn [ev_run] in E; [injection E as <-; cbn; split; [by left|by intros [?|?]]|].
  destruct (ev_run1 op e) as [e1| |] eqn:E1; [|done..]. rewrite (IH e1 e' E). cbn [existsb]. rewrite orb_true_iff.
  enough (is_Some (subscribers e1 !! t) <-> is_Some (subscribers e !! t) \/ subscribed t op = true) by tauto.
  destruct op as [t' f|t' s]; cbn [ev_run1 Subscribe fst subscribed] in *.
  - injection E1 as <-. cbn [subscribers]. destruct (Z.eqb_spec t' t) as [->|Ht].
    + rewrite lookup_insert_eq. split; [by right|by eexists].
    + rewrite lookup_insert_ne by done. split; [by left|by intros [?|?]].
  - unfold UnSubscribe in E1. destruct (subscribers e !! t') as [m|] eqn:Em.
    + destruct (bool_decide _); [done|]. injection E1 as <-. cbn [subscribers]. destruct (decide (t' = t)) as [->|Ht].
      * rewrite lookup_insert_eq, Em. split; [by left|by eexists].
      * rewrite lookup_insert_ne by done. split; [by left|by intros [?|?]].
    + injection E1 as <-. split; [by left|by intros [?|?]].
Qed.

(** After any calls of [Subscribe] and [UnSubscribe] that did not panic,
    an event starts exactly the functions whose subscriptions of its type were not
    taken back, each once per subscription (nil functions apart), and is refused
    exactly when nothing ever subscribed to its type. *)
Theorem subscribers_notified (ops : list ev_op) (e : Event) (t : Z) :
  ev_run ops NewEvent = Ok e ->
  (Notify t e).1 ≡ₚ concat (map (fun x => NotifySubscriber x.2) (List.filter (fun x => x.1.1 =? t) (alive ops 1 []))) /\
  ((Notify t e).2 = None <-> existsb (subscribed t) ops = true).
Proof.
  intros E. pose proof (ev_run_rel ops NewEvent e [] NewEvent_rel E) as [Hp _]. pose proof (ev_run_known t ops NewEvent e E) as Hk.
  cbn [NewEvent subscribers ev_next] in *. rewrite lookup_empty in Hk. specialize (Hp t). unfold Notify. split.
  - assert (Ec : forall l : list (Z * positive * option F), concat (map (fun x => NotifySubscriber x.2) l) = concat (map (fun s : positive * option F => NotifySubscriber s.2) (map (fun x => (x.1.2, x.2)) l)))
      by (intros l; by rewrite map_map).
    rewrite Ec. fold (of_type t (alive ops 1 [])). destruct (subscribers e !! t) as [m|]; cbn [fst]; cbn [default id] in Hp; unfold id in Hp.
    + by rewrite Hp.
    + rewrite map_to_list_empty in Hp. apply Permutation_nil in Hp. by rewrite Hp.
  - destruct (subscribers e !! t) as [m|]; cbn [snd].
    + split; [|done]. intros _. destruct Hk as [[[? ?]|Hk] _]; [by eexists|done|exact Hk].
    + split; [done|]. intros Hs. destruct Hk as [_ Hk]. destruct (Hk (or_intror Hs)) as [? ?]. done.
Qed.
End Event.
Arguments Event : clear implicits.
Arguments ev_op : clear implicits.

(** The events of the repository, with functions numbered. *)
Lemma subscribers_notified_witness :
  exists e, ev_run (F := nat) [OpSubscribe EventBlockPersistCompleted (Some 7%nat); OpSubscribe EventNewInventory (Some 8%nat);
      OpSubscribe EventBlockPersistCompleted (Some 9%nat); OpUnSubscribe EventBlockPersistCompleted 1] NewEvent = Ok e /\
    (Notify EventBlockPersistCompleted e).1 ≡ₚ [9%nat] /\ ((Notify EventNodeDisconnect e).2 = None <-> false = true).
Proof.
  eexists. split; [reflexivity|]. split.
  - apply (subscribers_notified [OpSubscribe EventBlockPersistCompleted (Some 7%nat); OpSubscribe EventNewInventory (Some 8%nat);
      OpSubscribe EventBlockPersistCompleted (Some 9%nat); OpUnSubscribe EventBlockPersistCompleted 1] _ EventBlockPersistCompleted eq_refl).
  - apply (subscribers_notified [OpSubscribe EventBlockPersistCompleted (Some 7%nat); OpSubscribe EventNewInventory (Some 8%nat);
      OpSubscribe EventBlockPersistCompleted (Some 9%nat); OpUnSubscribe EventBlockPersistCompleted 1] _ EventNodeDisconnect eq_refl).
Defined.

(** Taking a subscription back twice closes its channel twice. *)
Lemma unsubscribe_twice_panics {F} t s (e e' : Event F) er : UnSubscribe t s e = Ok (e', er) -> er = None -> UnSubscribe t s e' = Panic.
Proof.
  unfold UnSubscribe. destruct (subscribers e !! t) as [m|]; [|intros [= <- <-]; done]. destruct (bool_decide _); [done|]. intros [= <- _] _.
  cbn [subscribers ev_closed]. rewrite lookup_insert_eq, bool_decide_true by set_solver. done.
Qed.

(** * net/node/eventNotice.go *)

Record eventQueue (F : Type) := mkEventQueue { eq_Consensus : Event F; eq_Block : Event F; eq_Disconnect : Event F }.
Arguments mkEventQueue {F} _ _ _.
Arguments eq_Consensus {F} _.
Arguments eq_Block {F} _.
Arguments eq_Disconnect {F} _.
Definition eventQueue_init {F} : eventQueue F := mkEventQueue NewEvent NewEvent NewEvent.
(** [None]: the nil pointer of an unknown name. *)
Definition GetEvent {F} (eq : eventQueue F) (eventName : string) : option (Event F) :=
  if String.eqb eventName "consensus" then Some (eq_Consensus eq)
  else if String.eqb eventName "block" then Some (eq_Block eq)
  else if String.eqb eventName "disconnect" then Some (eq_Disconnect eq)
  else None.

(** * signalset.go *)

Definition SignalSet (F : Type) : Type := gmap Z F.
Definition signal_Register {F} (signal : Z) (handle : F) (s : SignalSet F) : SignalSet F :=
  match s !! signal with None => <[signal := handle]> s | Some _ => s end.
Definition signal_Handle {F} (signal : Z) (s : SignalSet F) : option F * err :=
  match s !! signal with Some h => (Some h, None) | None => (None, Some (NewError "No handler available for signalset")) end.

(** * errors.go and dnaerror.go *)

(** A plain error is its message; the call stack of a detailed one is left out. *)
Inductive goerror := Plain (msg : bytes) | Detail (errmsg : bytes) (root : goerror) (code : Z).
Definition go_Error (e : goerror) : bytes := match e with Plain m => m | Detail m _ _ => m end.
Definition NewDetailErr (e : option goerror) (errcode : Z) (errmsg : bytes) : option goerror :=
  match e with
  | None => None
  | Some e =>
      let '(msg, root, code) := match e with Detail m r c => (m, r, c) | Plain m => (m, e, errcode) end in
      Some (Detail (if bool_decide (errmsg = []) then msg else errmsg ++ [58; 32] ++ msg) root code)
  end.
Definition RootErr (e : goerror) : goerror := match e with Detail _ r _ => r | Plain _ => e end.
Definition ErrUnknown_value : Z := -1.
Definition ErrerCode (e : goerror) : Z := match e with Detail _ _ c => c | Plain _ => ErrUnknown_value end.

(** The message of an error after it was wrapped: the texts that are not empty,
    the last wrapping first. *)
Definition wrapped_text (msgs : list bytes) (msg : bytes) : bytes :=
  foldl (fun acc m => if bool_decide (m = []) then acc else m ++ [58; 32] ++ acc) msg msgs.

(** An error wrapped any number of times keeps the error it was made of
    and the code of the first wrapping - the codes given later are ignored - and its
    text is the texts of the wrappings, the last first, before its own; nil stays
    nil. *)
Theorem wrapped_error (msg : bytes) (c : Z) (m : bytes) (more : list (Z * bytes)) :
  let wrap e cm := NewDetailErr e (fst cm) (snd cm) in
  (exists e, foldl wrap (Some (Plain msg)) ((c, m) :: more) = Some e /\
     RootErr e = Plain msg /\ ErrerCode e = c /\ go_Error e = wrapped_text (m :: map snd more) msg) /\
  foldl wrap None ((c, m) :: more) = None.
Proof.
  cbn [foldl map wrapped_text]. split.
  - set (t := if bool_decide (m = []) then msg else m ++ [58; 32] ++ msg).
    assert (G : forall more t, exists e, foldl (fun e cm => NewDetailErr e (fst cm) (snd cm)) (Some (Detail t (Plain msg) c)) more = Some e /\
      RootErr e = Plain msg /\ ErrerCode e = c /\ go_Error e = wrapped_text (map snd more) t).
    { clear. induction more as [|[c' m'] more IH]; intros t; [by eexists|]. cbn [foldl map snd fst]. apply IH. }
    exact (G more t).
  - induction more as [|cm more IH]; [done|]. exact IH.
Qed.
