(* ===== verification/PubKey.v ===== *)
(** [crypto/crypto.go] and [crypto/encode.go]: public keys, their binary form
    and the (compressed) encoding of curve points.

    The curve is an argument ([algSet] of the code); [nil] coordinates, which
    stand for the point at infinity, are [None].  Square roots are computed as
    in the code: by one exponentiation when [P] is 3 modulo 4 (both curves of
    the repository), otherwise by Lucas sequences with the random primes the
    code draws, which are an argument too. *)

From Stdlib Require Import Zpow_facts.
From S2P Require Import Prelude Serialization Common Vm.

Record CurveParams := mkCurve { ec_P : Z; ec_B : Z }.
Record PubKey := mkPubKey { pk_X : option Z; pk_Y : option Z }.

(** * [math/big] *)

Definition big_BitLen (z : Z) : Z := if z =? 0 then 0 else Z.log2 (Z.abs z) + 1.
(** [Exp(x, y, m)] for [y >= 0] and [m > 0]. *)
Definition big_Exp (x y m : Z) : Z := Zpow_mod x y m.
Definition big_Bit (z i : Z) : Z := if Z.testbit z i then 1 else 0.

(** * crypto.go *)

Definition NEGBIGNUMLEN : nat := 33.

(** A negative number carries a zero byte in front. *)
Definition signed_Bytes (z : Z) : bytes := (if z <? 0 then [0] else []) ++ big_Bytes z.
Definition PubKey_Serialize (e : option PubKey) : option bytes :=
  e ← e; x ← pk_X e; y ← pk_Y e;
  Some (WriteVarBytes (signed_Bytes x) ++ WriteVarBytes (signed_Bytes y)).

Definition signed_SetBytes (b : bytes) : Z := if (length b =? NEGBIGNUMLEN)%nat then - be_val b else be_val b.
Definition PubKey_DeSerialize (e : PubKey) : rd (PubKey * err) :=
  '(bufX, er) ← ReadVarBytes;
  iferr er return e ;;
  let e := mkPubKey (Some (signed_SetBytes bufX)) (pk_Y e) in
  '(bufY, er) ← ReadVarBytes;
  iferr er return e ;;
  mret (mkPubKey (pk_X e) (Some (signed_SetBytes bufY)), None).

(** [PubKeySlice.Less] and [Equal]; [None]: a nil coordinate is dereferenced. *)
Definition PubKey_Less (a b : PubKey) : option bool := x ← pk_X a; x' ← pk_X b; Some (x <=? x').
Definition PubKey_Equal (e1 e2 : PubKey) : option bool :=
  x ← pk_X e1; x' ← pk_X e2;
  if negb (x =? x') then Some false else y ← pk_Y e1; y' ← pk_Y e2; Some (y =? y').

(** * encode.go *)

Definition COMPRESSEDLEN : nat := 33.
Definition NOCOMPRESSEDLEN : nat := 65.
Definition isEven (k : Z) : bool := k mod 2 =? 0.

(** [None]: the loop does not end. *)
Fixpoint trailing_zeros (p : positive) : nat := match p with xO p => S (trailing_zeros p) | _ => O end.
Definition getLowestSetBit (k : Z) : option nat :=
  match k with Z0 => None | Zpos p | Zneg p => Some (trailing_zeros p) end.

Record lucas_state := mkLucas { uh : Z; vl : Z; vh : Z; ql : Z; qh : Z }.

Section Lucas.
Variables (curveP lucasParamP lucasParamQ k : Z).

Definition lucas_step (st : lucas_state) (j : nat) : lucas_state :=
  let ql := (ql st * qh st) mod curveP in
  if big_Bit k (Z.of_nat j) =? 1 then
    let qh := (ql * lucasParamQ) mod curveP in
    mkLucas ((uh st * vh st) mod curveP) ((vh st * vl st - lucasParamP * ql) mod curveP)
      ((vh st * vh st - 2 * qh) mod curveP) ql qh
  else
    mkLucas ((uh st * vl st - ql) mod curveP) ((vl st * vl st - 2 * ql) mod curveP)
      ((vh st * vl st - lucasParamP * ql) mod curveP) ql ql.

(** The last loop multiplies [uh] by [curveP] where it should reduce it. *)
Definition lucas_double (st : lucas_state) : lucas_state :=
  mkLucas (uh st * vl st * curveP) ((vl st * vl st - 2 * ql st) mod curveP) (vh st)
    ((ql st * ql st) mod curveP) (qh st).

Definition fastLucasSequence : option (Z * Z) :=
  let n := Z.to_nat (big_BitLen k) in
  s ← getLowestSetBit k;
  let st := foldl lucas_step (mkLucas 1 2 lucasParamP 1 1) (reverse (seq (s + 1) (n - 1 - s))) in
  let ql' := (ql st * qh st) mod curveP in
  let qh' := (ql' * lucasParamQ) mod curveP in
  let st := mkLucas ((uh st * vl st - ql') mod curveP) ((vh st * vl st - lucasParamP * ql') mod curveP)
              (vh st) ((ql' * qh') mod curveP) qh' in
  let st := Nat.iter s lucas_double st in
  Some (uh st, vl st).
End Lucas.

Section Curve.
Context (alg : CurveParams).

(** The loops that draw primes: [Unmodelled] when the draws are used up. *)
Fixpoint lucas_search (ySquare fourQ qMinusOne legendExponent k : Z) (primes : list Z) : outcome (option Z) :=
  match primes with
  | [] => Unmodelled
  | lucasParamP :: primes =>
      if (lucasParamP <? ec_P alg) &&
         (big_Exp (lucasParamP * lucasParamP - fourQ) legendExponent (ec_P alg) =? qMinusOne)
      then
        match fastLucasSequence (ec_P alg) lucasParamP ySquare k with
        | None => Unmodelled
        | Some (seqU, seqV) =>
            if (seqV * seqV) mod ec_P alg =? fourQ
            then Ok (Some (Z.shiftr (if big_Bit seqV 0 =? 1 then seqV + ec_P alg else seqV) 1))
            else if (seqU =? 1) || (seqU =? qMinusOne) then Ok None
            else lucas_search ySquare fourQ qMinusOne legendExponent k primes
        end
      else lucas_search ySquare fourQ qMinusOne legendExponent k primes
  end.

Definition curveSqrt (primes : list Z) (ySquare : Z) : outcome (option Z) :=
  if big_Bit (ec_P alg) 1 =? 1 then
    let tmp1 := Z.shiftr (ec_P alg) 2 + 1 in
    let tmp2 := big_Exp ySquare tmp1 (ec_P alg) in
    let tmp3 := big_Exp tmp2 2 (ec_P alg) in
    if tmp3 =? ySquare then Ok (Some tmp2) else Ok None
  else
    let qMinusOne := ec_P alg - 1 in
    let legendExponent := Z.shiftr qMinusOne 1 in
    if negb (big_Exp ySquare legendExponent (ec_P alg) =? 1) then Ok None
    else
      let k := Z.shiftl (Z.shiftr qMinusOne 2) 1 + 1 in
      let fourQ := (Z.shiftl ySquare 2) mod ec_P alg in
      lucas_search ySquare fourQ qMinusOne legendExponent k primes.

Definition P256PARAMA : Z := -3.
Definition deCompress (primes : list Z) (yTilde : Z) (xValue : bytes) : outcome (option PubKey * err) :=
  let P := ec_P alg in
  let xCoord := be_val xValue in
  let ySquare := big_Exp xCoord 2 P in
  let ySquare := (ySquare + P256PARAMA) mod P in
  let ySquare := (ySquare * xCoord) mod P in
  let ySquare := (ySquare + ec_B alg) mod P in
  match curveSqrt primes ySquare with
  | Ok None => Ok (None, Some (NewError "Invalid point compression"))
  | Ok (Some yValue) =>
      let yCoord := if (isEven yValue && negb (yTilde =? 0)) || (negb (isEven yValue) && negb (yTilde =? 1))
                    then P - yValue else yValue in
      Ok (Some (mkPubKey (Some xCoord) (Some yCoord)), None)
  | Panic => Panic
  | Unmodelled => Unmodelled
  end.

(** [None] is the nil slice; slicing past the end of the data panics, for data
    whose capacity is its length (a shorter uncompressed key in a larger buffer
    would be read on into the buffer; no theorem concludes anything of such keys). *)
Definition DecodePoint (primes : list Z) (encodeData : option bytes) : outcome (option PubKey * err) :=
  match encodeData with
  | None => Ok (None, Some (NewError "The encodeData cann't be nil"))
  | Some data =>
      let expectedLength := (big_BitLen (ec_P alg) + 7) / 8 in
      match data with
      | [] => Panic
      | flag :: _ =>
          if flag =? 0x00 then Ok (Some (mkPubKey None None), None)
          else if (flag =? 0x02) || (flag =? 0x03) then
            if negb (Z.of_nat (length data) =? expectedLength + 1)
            then Ok (None, Some (NewError "The encodeData format is error"))
            else
              match slice data 1 33 with
              | None => Panic
              | Some xValue =>
                  match deCompress primes (Z.land flag 1) xValue with
                  | Ok (_, Some e) => Ok (None, Some (NewError "Invalid point encoding"))
                  | r => r
                  end
              end
          else if (flag =? 0x04) || (flag =? 0x06) || (flag =? 0x07) then
            match slice data 1 33, slice data 33 65 with
            | Some x, Some y => Ok (Some (mkPubKey (Some (be_val x)) (Some (be_val y))), None)
            | _, _ => Panic
            end
          else Ok (None, Some (NewError "The encodeData format is error"))
      end
  end.

End Curve.

(** The bytes of a coordinate end at [hi]; [None] when they do not fit. *)
Definition place (buf : bytes) (hi : nat) (b : bytes) : option bytes :=
  if (length b <=? hi)%nat then Some (take (hi - length b) buf ++ b ++ drop hi buf) else None.

Definition EncodePoint (e : PubKey) (isCommpressed : bool) : option (bytes * err) :=
  match pk_X e, pk_Y e with
  | Some x, Some y =>
      buf ← (if isCommpressed then Some (replicate COMPRESSEDLEN 0)
             else place (replicate NOCOMPRESSEDLEN 0) NOCOMPRESSEDLEN (big_Bytes y));
      buf ← place buf COMPRESSEDLEN (big_Bytes x);
      let flag := if isCommpressed then (if isEven y then 0x02 else 0x03) else 0x04 in
      Some (flag :: drop 1 buf, None)
  | _, _ => Some ([0], None)
  end.

(** * Coordinates as bytes *)

Lemma be_bytes_S n v : 0 <= v -> be_bytes (S n) v = be_bytes n (v / 256) ++ [v mod 256].
Proof. intros _. unfold be_bytes. simpl. by rewrite reverse_cons. Qed.

(** [Bytes] is the big-endian form with the fewest digits. *)
Lemma big_Bytes_loop_spec fuel n acc : 0 <= n < 256 ^ Z.of_nat fuel ->
  exists m, big_Bytes_loop fuel n acc = be_bytes m n ++ acc /\ n < 256 ^ Z.of_nat m /\
    (m = 0%nat \/ 256 ^ Z.of_nat (pred m) <= n).
Proof.
  revert n acc. induction fuel as [|fuel IH]; intros n acc Hn.
  { exists 0%nat. simpl in *. split; [done|]. split; [lia|by left]. }
  cbn [big_Bytes_loop]. destruct (Z.eqb_spec n 0) as [->|Hz].
  { exists 0%nat. simpl. split; [done|]. split; [lia|by left]. }
  rewrite pow256_succ in Hn.
  destruct (IH (n / 256) (n mod 256 :: acc)) as (m & -> & Hlt & Hge).
  { split; [apply Z.div_pos; lia|]. apply Z.div_lt_upper_bound; lia. }
  exists (S m). rewrite be_bytes_S by lia. rewrite <- app_assoc. split; [done|].
  rewrite pow256_succ. split; [zlia|]. right. cbn [pred].
  destruct Hge as [->|Hge].
  - simpl. lia.
  - destruct m as [|m]; [simpl; lia|]. cbn [pred] in Hge. rewrite pow256_succ. zlia.
Qed.

Lemma big_Bytes_spec z : exists m,
  big_Bytes z = be_bytes m (Z.abs z) /\ Z.abs z < 256 ^ Z.of_nat m /\
  (m = 0%nat \/ 256 ^ Z.of_nat (pred m) <= Z.abs z).
Proof.
  unfold big_Bytes. destruct (big_Bytes_loop_spec (Z.to_nat (Z.log2 (Z.abs z) / 8 + 1)) (Z.abs z) []) as (m & E & H).
  { split; [lia|]. destruct (Z.eq_dec z 0) as [->|Hz]; [simpl; lia|].
    pose proof (Z.log2_nonneg (Z.abs z)). rewrite Z2Nat.id by zlia.
    change 256 with (2 ^ 8). rewrite <- Z.pow_mul_r by zlia.
    eapply Z.lt_le_trans; [apply (Z.log2_spec (Z.abs z)); lia|]. apply Z.pow_le_mono_r; zlia. }
  exists m. by rewrite app_nil_r in E.
Qed.

Lemma be_val_big_Bytes z : be_val (big_Bytes z) = Z.abs z.
Proof. destruct (big_Bytes_spec z) as (m & -> & Hlt & _). rewrite be_val_be_bytes. apply Z.mod_small. lia. Qed.

Lemma length_big_Bytes z n : Z.abs z < 256 ^ Z.of_nat n -> (length (big_Bytes z) <= n)%nat.
Proof.
  intros Hz. destruct (big_Bytes_spec z) as (m & -> & _ & Hm). rewrite length_be_bytes.
  destruct Hm as [->|Hm]; [lia|]. destruct (le_lt_dec m n) as [|Hn]; [done|].
  assert (256 ^ Z.of_nat n <= 256 ^ Z.of_nat (pred m)); [apply Z.pow_le_mono_r; lia|lia].
Qed.

Lemma length_big_Bytes_exact z n : 256 ^ Z.of_nat n <= Z.abs z < 256 ^ Z.of_nat (S n) -> length (big_Bytes z) = S n.
Proof.
  intros Hz. pose proof (length_big_Bytes z (S n)) as Hle.
  destruct (big_Bytes_spec z) as (m & E & Hm & _). rewrite E, length_be_bytes in *.
  destruct (le_lt_dec m n) as [Hn|Hn]; [|lia].
  assert (256 ^ Z.of_nat m <= 256 ^ Z.of_nat n); [apply Z.pow_le_mono_r; lia|lia].
Qed.

(** The digits of [z] after padding zeros are its big-endian form. *)
Lemma be_bytes_pad z n : 0 <= z < 256 ^ Z.of_nat n ->
  replicate (n - length (big_Bytes z)) 0 ++ big_Bytes z = be_bytes n z.
Proof.
  intros Hz. pose proof (length_big_Bytes z n ltac:(lia)) as Hl.
  destruct (big_Bytes_spec z) as (m & E & Hm & _). rewrite Z.abs_eq in E, Hm by lia. rewrite E in *. rewrite length_be_bytes in *.
  replace n with ((n - m) + m)%nat at 2 by lia. generalize (n - m)%nat as d. intros d. unfold be_bytes.
  apply (inj reverse). rewrite reverse_involutive, reverse_app, reverse_involutive, reverse_replicate.
  apply le_val_inj.
  - apply Forall_app. split; [apply wf_le_bytes|]. apply Forall_replicate. unfold wf_byte. lia.
  - apply wf_le_bytes.
  - rewrite length_app, !length_le_bytes, length_replicate. lia.
  - rewrite le_val_app, le_val_zeros, !le_val_le_bytes, Z.mul_0_r, Z.add_0_r.
    rewrite !Z.mod_small; [done| |lia]. split; [lia|].
    eapply Z.lt_le_trans; [exact Hm|]. apply Z.pow_le_mono_r; lia.
Qed.

(** A coordinate [Serialize] keeps: not negative, or negative with 32 digits. *)
Definition coordinate (z : Z) : Prop := 0 <= z < 2 ^ 256 \/ - 2 ^ 256 < z <= - 2 ^ 248.

Lemma signed_coordinate z : coordinate z ->
  (length (signed_Bytes z) <= 33)%nat /\ signed_SetBytes (signed_Bytes z) = z.
Proof.
  intros Hz. unfold signed_Bytes, signed_SetBytes, NEGBIGNUMLEN.
  assert (E256 : 2 ^ 256 = 256 ^ Z.of_nat 32) by reflexivity. assert (E248 : 2 ^ 248 = 256 ^ Z.of_nat 31) by reflexivity.
  unfold coordinate in Hz. rewrite E256, E248 in Hz. destruct (Z.ltb_spec z 0) as [Hn|Hn]; cbn [app length].
  - assert (Hl : length (big_Bytes z) = 32%nat) by (apply length_big_Bytes_exact; lia).
    rewrite Hl. split; [lia|]. cbn [Nat.eqb]. unfold be_val. rewrite reverse_cons, le_val_app. cbn [le_val].
    rewrite Z.mul_0_r. fold (be_val (big_Bytes z)). rewrite be_val_big_Bytes. lia.
  - pose proof (length_big_Bytes z 32 ltac:(lia)) as Hl.
    split; [lia|]. rewrite (proj2 (Nat.eqb_neq _ _)) by lia. rewrite be_val_big_Bytes. lia.
Qed.

Lemma PubKey_DeSerialize_reads e x y : coordinate x -> coordinate y ->
  reads live_tail (PubKey_DeSerialize e) (WriteVarBytes (signed_Bytes x) ++ WriteVarBytes (signed_Bytes y)) (mkPubKey (Some x) (Some y)).
Proof.
  intros Hx Hy k rest Ht. destruct (signed_coordinate x Hx) as [Lx Ex], (signed_coordinate y Hy) as [Ly Ey].
  assert (forall l : bytes, (length l <= 33)%nat -> Z.of_nat (length l) <= maxAlloc) as Hs by (unfold maxAlloc; intros; lia).
  unfold PubKey_DeSerialize. rewrite <- app_assoc.
  erewrite (rd_field live_tail) by (live || apply ReadVarBytes_live; by apply Hs). cbn beta iota.
  erewrite (rd_field live_tail) by (assumption || apply ReadVarBytes_live; by apply Hs). cbn beta iota.
  by rewrite Ex, Ey.
Qed.

(** * Square roots and points *)

Section Points.
Context (alg : CurveParams).
Abbreviation P := (ec_P alg).

Definition on_curve (x y : Z) : Prop := (y * y) mod P = (x * x * x - 3 * x + ec_B alg) mod P.

Lemma big_Exp_spec x y : 1 < P -> 0 <= y -> big_Exp x y P = (x ^ y) mod P.
Proof. intros HP Hy. unfold big_Exp. rewrite Zpow_mod_correct by lia. done. Qed.

(** Four is invertible modulo an odd number. *)
Lemma halve_square v q : 1 < P -> Z.odd P = true -> 0 <= q < P ->
  (4 * (v * v)) mod P = (4 * q) mod P -> (v * v) mod P = q.
Proof.
  intros HP Ho Hq E.
  assert (Hd : (P | 4 * (v * v - q))).
  { apply Z.mod_divide; [lia|]. replace (4 * (v * v - q)) with (4 * (v * v) - 4 * q) by lia.
    rewrite Zminus_mod, E, Z.sub_diag. by rewrite Z.mod_0_l by lia. }
  apply Z.gauss in Hd.
  - destruct Hd as [c Hc]. replace (v * v) with (q + c * P) by lia. rewrite Z.mod_add by lia. by apply Z.mod_small.
  - rewrite Z.gcd_comm, <- Z.gcd_mod by lia.
    assert (Hm : P mod 4 = 1 \/ P mod 4 = 3) by (rewrite <- Z.bit0_odd, Z.testbit_odd, Z.shiftr_0_r in Ho; apply Zodd_bool_iff, Zodd_ex in Ho as [m ->]; zlia).
    by destruct Hm as [-> | ->].
Qed.

Lemma lucas_search_sound q k primes y : 1 < P -> Z.odd P = true -> 0 <= q < P ->
  forall m e, lucas_search alg q ((Z.shiftl q 2) mod P) m e k primes = Ok (Some y) -> (y * y) mod P = q.
Proof.
  intros HP Ho Hq m e. rewrite Z.shiftl_mul_pow2 by lia. change (2 ^ 2) with 4. rewrite (Z.mul_comm q).
  induction primes as [|p primes IH]; cbn [lucas_search]; [done|].
  destruct (_ && _); [|done]. destruct (fastLucasSequence _ _ _ _) as [[u v]|]; [|done].
  destruct (Z.eqb_spec ((v * v) mod P) ((4 * q) mod P)) as [E|_]; [|destruct (_ || _); [done|exact IH]].
  intros [= <-]. rewrite Z.shiftr_div_pow2 by lia. change (2 ^ 1) with 2. apply halve_square; [done..|].
  unfold big_Bit. rewrite Z.bit0_odd. destruct (Z.odd v) eqn:Ev; cbn [Z.eqb Pos.eqb].
  - assert (H2 : (v + P) = 2 * ((v + P) / 2)).
    { apply Zodd_bool_iff, Zodd_ex in Ev as [a ->], Ho as [b Hb]. rewrite Hb. zlia. }
    replace (4 * ((v + P) / 2 * ((v + P) / 2))) with ((2 * ((v + P) / 2)) * (2 * ((v + P) / 2))) by lia.
    rewrite <- H2. replace ((v + P) * (v + P)) with (v * v + (2 * v + P) * P) by lia. by rewrite Z.mod_add by lia.
  - assert (H2 : v = 2 * (v / 2)) by (rewrite <- Z.negb_even in Ev; apply negb_false_iff, Z.even_spec in Ev as [a ->]; zlia).
    replace (4 * (v / 2 * (v / 2))) with ((2 * (v / 2)) * (2 * (v / 2))) by lia. by rewrite <- H2.
Qed.

Lemma curveSqrt_sound primes q y : 1 < P -> Z.odd P = true -> 0 <= q < P ->
  curveSqrt alg primes q = Ok (Some y) -> (y * y) mod P = q.
Proof.
  intros HP Ho Hq. unfold curveSqrt. destruct (_ =? 1).
  - rewrite (big_Exp_spec (big_Exp _ _ _)) by lia. rewrite Z.pow_2_r.
    destruct (Z.eqb_spec ((big_Exp q (Z.shiftr P 2 + 1) P * big_Exp q (Z.shiftr P 2 + 1) P) mod P) q) as [E|_]; [|done].
    intros [= <-]. exact E.
  - destruct (negb _); [done|]. by apply lucas_search_sound.
Qed.

Lemma curve_rhs x : 1 < P ->
  ((((big_Exp x 2 P + P256PARAMA) mod P * x) mod P) + ec_B alg) mod P = (x * x * x - 3 * x + ec_B alg) mod P.
Proof.
  intros HP. rewrite big_Exp_spec, Z.pow_2_r by lia. unfold P256PARAMA.
  assert (Hmod : forall a, exists c, a mod P = a + c * P).
  { intros a. exists (- (a / P)). rewrite Z.mod_eq by lia. lia. }
  destruct (Hmod (x * x)) as [c ->]. destruct (Hmod (x * x + c * P + -3)) as [d ->].
  rewrite Z.add_mod_idemp_l by lia.
  replace ((x * x + c * P + -3 + d * P) * x + ec_B alg) with (x * x * x - 3 * x + ec_B alg + (c + d) * x * P) by lia.
  by rewrite Z.mod_add by lia.
Qed.

Lemma deCompress_sound primes t xv key : 1 < P -> Z.odd P = true -> t = 0 \/ t = 1 ->
  deCompress alg primes t xv = Ok (Some key, None) ->
  exists y, key = mkPubKey (Some (be_val xv)) (Some y) /\ on_curve (be_val xv) y /\ y mod 2 = t.
Proof.
  intros HP Ho Ht. unfold deCompress. rewrite curve_rhs by done.
  set (q := (_ + ec_B alg) mod P).
  destruct (curveSqrt alg primes q) as [[y|]| |] eqn:E; [|done..].
  assert (Hq : 0 <= q < P) by (apply Z.mod_pos_bound; lia).
  apply curveSqrt_sound in E; [|done..]. intros [= <-]. eexists. split; [reflexivity|].
  apply Zodd_bool_iff, Zodd_ex in Ho as [m Hm]. unfold on_curve. fold q. unfold isEven.
  destruct (Z.eqb_spec (y mod 2) 0) as [He|He], Ht as [-> | ->]; cbn.
  - done.
  - split; [|zlia]. replace ((P - y) * (P - y)) with (y * y + (P - 2 * y) * P) by lia. by rewrite Z.mod_add by lia.
  - split; [|zlia]. replace ((P - y) * (P - y)) with (y * y + (P - 2 * y) * P) by lia. by rewrite Z.mod_add by lia.
  - split; [done|zlia].
Qed.
End Points.

(** The slot of a coordinate that fits is filled with its big-endian form. *)
Lemma place_coordinate buf hi z : 0 <= z < 2 ^ 256 -> (32 <= hi)%nat -> length buf = hi \/ (hi <= length buf)%nat ->
  Forall (eq 0) (take 32 (drop (hi - 32) buf)) ->
  place buf hi (big_Bytes z) = Some (take (hi - 32) buf ++ be_bytes 32 z ++ drop hi buf).
Proof.
  intros Hz Hhi Hlen H0. assert (Hz' : 0 <= z < 256 ^ Z.of_nat 32) by exact Hz.
  pose proof (length_big_Bytes z 32 ltac:(lia)) as Hl. unfold place.
  rewrite (proj2 (Nat.leb_le _ _)) by lia. f_equal. rewrite <- (be_bytes_pad z 32), <- app_assoc by done.
  rewrite (app_assoc (take (hi - 32) buf)). f_equal.
  rewrite <- (take_drop (hi - 32) (take (hi - length (big_Bytes z)) buf)).
  rewrite take_take, Nat.min_l by lia. f_equal.
  symmetry. apply replicate_as_Forall. split.
  - rewrite length_drop, length_take. lia.
  - apply Forall_lookup. intros i y Hi. rewrite lookup_drop, lookup_take_Some in Hi. destruct Hi as [Hi Hlt].
    eapply Forall_lookup in H0; [by rewrite H0|].
    rewrite lookup_take_Some, lookup_drop. split; [exact Hi|lia].
Qed.

Lemma EncodePoint_compressed x y : 0 <= x < 2 ^ 256 ->
  EncodePoint (mkPubKey (Some x) (Some y)) true = Some ((if isEven y then 0x02 else 0x03) :: be_bytes 32 x, None).
Proof.
  intros Hx. unfold EncodePoint. cbn [pk_X pk_Y mbind option_bind].
  rewrite (place_coordinate _ 33) by (done || lia || (left; done) || by repeat constructor).
  cbn [mbind option_bind]. rewrite drop_app_le by done. rewrite (drop_ge (replicate _ _)) by done. by rewrite app_nil_r.
Qed.

Lemma EncodePoint_uncompressed x y : 0 <= x < 2 ^ 256 -> 0 <= y < 2 ^ 256 ->
  EncodePoint (mkPubKey (Some x) (Some y)) false = Some (0x04 :: be_bytes 32 x ++ be_bytes 32 y, None).
Proof.
  intros Hx Hy. unfold EncodePoint. cbn [pk_X pk_Y].
  rewrite (place_coordinate _ 65) by (done || lia || (left; done) || by repeat constructor).
  cbn [mbind option_bind]. rewrite (drop_ge (replicate _ _)), app_nil_r by done.
  change (take (65 - 32) (replicate NOCOMPRESSEDLEN 0)) with (replicate 33 0).
  rewrite (place_coordinate _ 33).
  - cbn [mbind option_bind]. rewrite drop_app_length' by done. done.
  - done.
  - lia.
  - right. rewrite length_app, length_be_bytes, length_replicate. lia.
  - change (33 - 32)%nat with 1%nat. rewrite drop_app_le by (rewrite length_replicate; lia).
    rewrite take_app_le by (rewrite length_drop, length_replicate; lia). by repeat constructor.
Qed.

(** * Properties *)

(** A public key whose coordinates are not negative and have at most 32
    bytes, or are negative with exactly 32, survives serialisation: reading
    what [Serialize] wrote, from any reader that more data follows, gives the
    key back and consumes its bytes only.  (A negative coordinate with fewer
    bytes loses its sign.) *)
Theorem pubkey_roundtrip (x y : Z) (e : PubKey) :
  coordinate x -> coordinate y ->
  exists b, PubKey_Serialize (Some (mkPubKey (Some x) (Some y))) = Some b /\
    reads live_tail (PubKey_DeSerialize e) b (mkPubKey (Some x) (Some y)).
Proof. intros Hx Hy. eexists. split; [reflexivity|]. by apply PubKey_DeSerialize_reads. Qed.

(** The curve P-256 of the Go library and its base point. *)
Definition p256 : CurveParams := mkCurve
  0xffffffff00000001000000000000000000000000ffffffffffffffffffffffff
  0x5ac635d8aa3a93e7b3ebbd55769886bc651d06b0cc53b0f63bce3c3e27d2604b.
Definition p256_Gx : Z := 0x6b17d1f2e12c4247f8bce6e563a440f277037d812deb33a0f4a13945d898c296.
Definition p256_Gy : Z := 0x4fe342e2fe1a7f9b8ee7eb4a7c0f9e162bce33576b315ececbb6406837bf51f5.

Lemma pubkey_roundtrip_witness :
  coordinate p256_Gx /\ coordinate (- p256_Gy) /\
  exists b, PubKey_Serialize (Some (mkPubKey (Some p256_Gx) (Some (- p256_Gy)))) = Some b /\
    reads live_tail (PubKey_DeSerialize (mkPubKey None None)) b (mkPubKey (Some p256_Gx) (Some (- p256_Gy))).
Proof.
  assert (Hx : coordinate p256_Gx) by (left; unfold p256_Gx; lia).
  assert (Hy : coordinate (- p256_Gy)) by (right; unfold p256_Gy; lia).
  split; [exact Hx|]. split; [exact Hy|]. exact (pubkey_roundtrip p256_Gx (- p256_Gy) (mkPubKey None None) Hx Hy).
Defined.

(** C30: Point encodings, for a curve over an odd modulus of at most 256 bits.
    What [DecodePoint] accepts in compressed form is a point of the curve with
    the encoded [X], whichever of the two square-root methods ran and whatever
    primes it drew, and [EncodePoint] gives exactly the accepted bytes back.
    The uncompressed form round trips for every pair of 256-bit coordinates:
    it is accepted without a check that the point lies on the curve. *)
Theorem point_encoding (alg : CurveParams) (primes : list Z) :
  1 < ec_P alg < 2 ^ 256 -> Z.odd (ec_P alg) = true ->
  (forall flag xs key, wf_bytes xs -> flag = 0x02 \/ flag = 0x03 ->
     DecodePoint alg primes (Some (flag :: xs)) = Ok (Some key, None) ->
     (exists y, key = mkPubKey (Some (be_val xs)) (Some y) /\ on_curve alg (be_val xs) y) /\
     EncodePoint key true = Some (flag :: xs, None)) /\
  (forall x y, 0 <= x < 2 ^ 256 -> 0 <= y < 2 ^ 256 ->
     exists b, EncodePoint (mkPubKey (Some x) (Some y)) false = Some (b, None) /\
       DecodePoint alg primes (Some b) = Ok (Some (mkPubKey (Some x) (Some y)), None)).
Proof.
  intros HP Ho. split.
  - intros flag xs key Hw Hf. unfold DecodePoint. rewrite (proj2 (Z.eqb_neq flag 0)) by lia.
    replace ((flag =? 2) || (flag =? 3)) with true by (destruct Hf as [-> | ->]; done).
    destruct (Z.eqb_spec (Z.of_nat (length (flag :: xs))) ((big_BitLen (ec_P alg) + 7) / 8 + 1)) as [E|_]; cbn [negb]; [|done].
    destruct (slice (flag :: xs) 1 33) as [xv|] eqn:Es; [|done].
    assert (Hl : length xs = 32%nat).
    { unfold slice in Es. destruct (_ && _)%nat eqn:Hc in Es; [|done]. apply andb_true_iff in Hc as [_ Hc%Nat.leb_le].
      cbn [length] in Hc, E. unfold big_BitLen in E. rewrite (proj2 (Z.eqb_neq _ 0)) in E by lia.
      assert (Z.log2 (Z.abs (ec_P alg)) < 256) by (apply Z.log2_lt_pow2; lia). zlia. }
    assert (xv = xs) as ->.
    { unfold slice in Es. destruct (_ && _)%nat in Es; [|done]. cbn [drop Nat.sub] in Es. rewrite (take_ge xs) in Es by (rewrite Hl; done). congruence. }
    destruct (deCompress alg primes (Z.land flag 1) xs) as [[key' [e|]]| |] eqn:Ed; [done| |done..].
    intros [= ->]. apply deCompress_sound in Ed as (y & -> & Hc & Hp); [|lia|done|destruct Hf as [-> | ->]; [by left|by right]].
    split; [by exists y|]. rewrite EncodePoint_compressed.
    + f_equal. f_equal. f_equal; [unfold isEven; rewrite Hp; by destruct Hf as [-> | ->]|].
      rewrite <- Hl, <- (length_reverse xs). unfold be_bytes, be_val. rewrite le_bytes_le_val by (by apply Forall_reverse).
      apply reverse_involutive.
    + unfold be_val. pose proof (le_val_bound (reverse xs) ltac:(by apply Forall_reverse)) as Hb.
      rewrite length_reverse, Hl in Hb. exact Hb.
  - intros x y Hx Hy. eexists. split; [by apply EncodePoint_uncompressed|]. unfold DecodePoint, slice.
    rewrite !length_cons, !length_app, !length_be_bytes. cbn [Z.eqb Pos.eqb orb Nat.leb Nat.add andb Nat.sub drop].
    rewrite drop_0, take_app_length', drop_app_length' by (by rewrite length_be_bytes).
    rewrite take_ge by (rewrite length_be_bytes; lia). rewrite !be_val_be_bytes, !Z.mod_small by done. done.
Qed.

(** The base point of P-256 is decoded from its compressed form. *)
Lemma point_encoding_witness :
  DecodePoint p256 [] (Some (0x03 :: be_bytes 32 p256_Gx)) = Ok (Some (mkPubKey (Some p256_Gx) (Some p256_Gy)), None) /\
  EncodePoint (mkPubKey (Some p256_Gx) (Some p256_Gy)) true = Some (0x03 :: be_bytes 32 p256_Gx, None).
Proof.
  assert (H : DecodePoint p256 [] (Some (0x03 :: be_bytes 32 p256_Gx)) = Ok (Some (mkPubKey (Some p256_Gx) (Some p256_Gy)), None))
    by (vm_compute; reflexivity).
  split; [exact H|].
  destruct (point_encoding p256 [] ltac:(unfold p256; cbn [ec_P]; lia) eq_refl) as [Hc _].
  exact (proj2 (Hc 0x03 (be_bytes 32 p256_Gx) _ (wf_be_bytes 32 p256_Gx) (or_intror eq_refl) H)).
Defined.
