(* ===== verification/Sm3.v ===== *)
(** [crypto/sm3]: the SM3 hash, written to in pieces.

    A digest keeps the chaining value, a block of 64 bytes of which the first
    [nx] are waiting, and the number of bytes written.  The theorem: however the
    data is cut into writes, the result is the hash of the whole, as the
    standard defines it on the padded message, and [checkSum] never panics. *)

From S2P Require Import Prelude.

Definition Size : nat := 32.
Definition chunk : nat := 64.
Definition sm3_init : list Z :=
  [0x7380166F; 0x4914B2B9; 0x172442D7; 0xDA8A0600; 0xA96F30BC; 0x163138AA; 0xE38DEE4D; 0xB0FB0E4E].

(** * sm3block.go *)

Definition sm3_t (j : nat) : Z := if (16 <=? j)%nat then 0x7A879D8A else 0x79CC4519.
Definition sm3_ff (x y z : Z) (j : nat) : Z :=
  if (16 <=? j)%nat then Z.land (Z.land (Z.lor x y) (Z.lor x z)) (Z.lor y z) else Z.lxor (Z.lxor x y) z.
Definition sm3_gg (x y z : Z) (j : nat) : Z :=
  if (16 <=? j)%nat then Z.lor (Z.land x y) (Z.land (Z.lxor x 0xFFFFFFFF) z) else Z.lxor (Z.lxor x y) z.
Definition sm3_rotl (x n : Z) : Z := Z.lor (uint32 (Z.shiftl x (n mod 32))) (Z.shiftr x (32 - n mod 32)).
Definition sm3_p0 (x : Z) : Z := Z.lxor (Z.lxor x (sm3_rotl x 9)) (sm3_rotl x 17).
Definition sm3_p1 (x : Z) : Z := Z.lxor (Z.lxor x (sm3_rotl x 15)) (sm3_rotl x 23).

Definition nthZ (l : list Z) (i : nat) : Z := nth i l 0.
(** [w[0..15]] from the bytes, then up to [w[67]], and [w1]. *)
Definition first_words (p : bytes) : list Z :=
  map (fun i => Z.lor (Z.lor (Z.lor (Z.shiftl (nthZ p (4 * i)) 24) (Z.shiftl (nthZ p (4 * i + 1)) 16)) (Z.shiftl (nthZ p (4 * i + 2)) 8)) (nthZ p (4 * i + 3))) (seq 0 16).
Definition next_word (w : list Z) (i : nat) : Z :=
  Z.lxor (Z.lxor (sm3_p1 (Z.lxor (Z.lxor (nthZ w (i - 16)) (nthZ w (i - 9))) (sm3_rotl (nthZ w (i - 3)) 15))) (sm3_rotl (nthZ w (i - 13)) 7)) (nthZ w (i - 6)).
Definition expand (p : bytes) : list Z := foldl (fun w i => w ++ [next_word w i]) (first_words p) (seq 16 52).
Definition expand1 (w : list Z) : list Z := map (fun i => Z.lxor (nthZ w i) (nthZ w (i + 4))) (seq 0 64).

(** [a .. h]. *)
Record vars := mkVars { va : Z; vb : Z; vc : Z; vd : Z; ve : Z; vf : Z; vg : Z; vh : Z }.
Definition sm3_round (w w1 : list Z) (v : vars) (j : nat) : vars :=
  let ss1 := sm3_rotl (uint32 (sm3_rotl (va v) 12 + ve v + sm3_rotl (sm3_t j) (Z.of_nat j))) 7 in
  let ss2 := Z.lxor ss1 (sm3_rotl (va v) 12) in
  let tt1 := uint32 (sm3_ff (va v) (vb v) (vc v) j + vd v + ss2 + nthZ w1 j) in
  let tt2 := uint32 (sm3_gg (ve v) (vf v) (vg v) j + vh v + ss1 + nthZ w j) in
  mkVars tt1 (va v) (sm3_rotl (vb v) 9) (vc v) (sm3_p0 tt2) (ve v) (sm3_rotl (vf v) 19) (vg v).
Definition vars_of (h : list Z) : vars :=
  mkVars (nthZ h 0) (nthZ h 1) (nthZ h 2) (nthZ h 3) (nthZ h 4) (nthZ h 5) (nthZ h 6) (nthZ h 7).
Definition vars_list (v : vars) : list Z := [va v; vb v; vc v; vd v; ve v; vf v; vg v; vh v].
(** One block of 64 bytes. *)
Definition compress (h : list Z) (p : bytes) : list Z :=
  let w := expand p in
  let v := foldl (sm3_round w (expand1 w)) (vars_of h) (seq 0 64) in
  zip_with Z.lxor h (vars_list v).
(** [for len(p) >= chunk]: as many turns as there are whole blocks. *)
Fixpoint block_loop (n : nat) (h : list Z) (p : bytes) : list Z :=
  match n with
  | O => h
  | S n => block_loop n (compress h (take chunk p)) (drop chunk p)
  end.
Definition blockGeneric (h : list Z) (p : bytes) : list Z := block_loop (length p / chunk) h p.

(** * sm3.go *)

Record digest := mkDigest { dg_h : list Z; dg_x : bytes; dg_nx : nat; dg_len : Z }.
(** [Reset]; the block keeps what it held. *)
Definition Reset (d : digest) : digest := mkDigest sm3_init (dg_x d) 0 0.
Definition New : digest := Reset (mkDigest (replicate 8 0) (replicate chunk 0) 0 0).

(** [copy(x[off:], p)]. *)
Definition copy_at (x : bytes) (off : nat) (p : bytes) : bytes :=
  let n := Nat.min (length x - off) (length p) in
  take off x ++ take n p ++ drop (off + n) x.
Definition Write (d : digest) (p : bytes) : digest :=
  let len := uint64 (dg_len d + Z.of_nat (length p)) in
  let '(h, x, nx, p) :=
    if (0 <? dg_nx d)%nat then
      let n := Nat.min (chunk - dg_nx d) (length p) in
      let x := copy_at (dg_x d) (dg_nx d) p in
      let nx := (dg_nx d + n)%nat in
      if (nx =? chunk)%nat then (blockGeneric (dg_h d) x, x, 0%nat, drop n p) else (dg_h d, x, nx, drop n p)
    else (dg_h d, dg_x d, dg_nx d, p) in
  let '(h, p) :=
    if (chunk <=? length p)%nat then
      let n := (length p / chunk * chunk)%nat in (blockGeneric h (take n p), drop n p)
    else (h, p) in
  if (0 <? length p)%nat then mkDigest h (copy_at x 0 p) (Nat.min (length x) (length p)) len else mkDigest h x nx len.

Definition uint32_bytes (s : Z) : bytes := [uint8 (Z.shiftr s 24); uint8 (Z.shiftr s 16); uint8 (Z.shiftr s 8); uint8 s].
Definition length_bytes (len : Z) : bytes := map (fun i => uint8 (Z.shiftr len (56 - 8 * Z.of_nat i))) (seq 0 8).
(** [None]: the panic at the end. *)
Definition checkSum (d : digest) : option bytes :=
  let len := dg_len d in
  let pad := if len mod 64 <? 56 then 56 - len mod 64 else 64 + 56 - len mod 64 in
  let d := Write d (take (Z.to_nat pad) (0x80 :: replicate 63 0)) in
  let d := Write d (length_bytes (uint64 (Z.shiftl len 3))) in
  if (dg_nx d =? 0)%nat then Some (concat (map uint32_bytes (dg_h d))) else None.
Definition digest_Sum (d : digest) (b : bytes) : option bytes := hash ← checkSum d; Some (b ++ hash).
Definition Sum (data : bytes) : option bytes := checkSum (Write New data).

(** * The standard's definition *)

(** The padded message and its hash, block by block.  The compression of a block
    and the initial value are those of the code; what is defined apart from it
    is the padding and the order of the blocks ([sm3_abc] compares one digest
    with the standard's). *)
Definition padding (m : bytes) : bytes :=
  let n := Z.of_nat (length m) in
  0x80 :: replicate (Z.to_nat ((55 - n) mod 64)) 0 ++ length_bytes (8 * n mod 2 ^ 64).
Definition sm3 (m : bytes) : bytes := concat (map uint32_bytes (blockGeneric sm3_init (m ++ padding m))).

(** * Writing in pieces *)

Lemma block_loop_app n k h p : block_loop (n + k) h p = block_loop k (block_loop n h p) (drop (n * chunk) p).
Proof.
  revert h p. induction n as [|n IH]; intros h p; [by rewrite drop_0|].
  cbn [block_loop Nat.add]. rewrite IH, drop_drop. do 2 f_equal.
Qed.
Lemma block_loop_take n h p q : (n * chunk <= length p)%nat -> block_loop n h (p ++ q) = block_loop n h p.
Proof.
  revert h p. induction n as [|n IH]; intros h p Hn; [done|].
  assert (chunk <= length p)%nat by (unfold chunk in *; lia).
  cbn [block_loop]. rewrite take_app_le, drop_app_le by done. apply IH. rewrite length_drop. unfold chunk in *; lia.
Qed.
Lemma blockGeneric_app h a b : (length a mod chunk = 0)%nat -> blockGeneric h (a ++ b) = blockGeneric (blockGeneric h a) b.
Proof.
  intros Ha. unfold blockGeneric. pose proof (Nat.div_mod_eq (length a) chunk) as E.
  rewrite length_app.
  replace ((length a + length b) / chunk)%nat with (length a / chunk + length b / chunk)%nat.
  - rewrite block_loop_app, block_loop_take by lia. rewrite drop_app_length'; [done|lia].
  - replace (length a + length b)%nat with (length b + length a / chunk * chunk)%nat by lia.
    rewrite Nat.div_add by (unfold chunk; lia). lia.
Qed.

(** The digest [d] has been given [m]: the whole blocks of [m] are in the
    chaining value, what is left waits in the block. *)
Record repr (d : digest) (m : bytes) : Prop := {
  repr_h : exists a, m = a ++ take (dg_nx d) (dg_x d) /\ (length a mod chunk = 0)%nat /\ dg_h d = blockGeneric sm3_init a;
  repr_nx : (dg_nx d < chunk)%nat;
  repr_x : length (dg_x d) = chunk;
  repr_len : dg_len d = uint64 (Z.of_nat (length m)) }.

Lemma New_repr : repr New [].
Proof. split; [by exists []|cbv; lia|done|done]. Qed.

Lemma copy_at_take x off p : (off <= length x)%nat -> (off + length p <= length x)%nat ->
  take (off + length p) (copy_at x off p) = take off x ++ p /\ length (copy_at x off p) = length x.
Proof.
  intros H H'. unfold copy_at. rewrite (Nat.min_r _ (length p)) by lia. rewrite (take_ge p) by lia. split.
  - rewrite app_assoc. apply take_app_length'. rewrite length_app, length_take. lia.
  - rewrite !length_app, length_take, length_drop. lia.
Qed.
Lemma copy_at_full x off p : (off <= length x)%nat -> (length x <= off + length p)%nat ->
  copy_at x off p = take off x ++ take (length x - off) p.
Proof.
  intros H H'. unfold copy_at. rewrite Nat.min_l by lia. rewrite (drop_ge x) by lia. by rewrite app_nil_r.
Qed.

(** The end of [Write], on a digest with nothing waiting. *)
Lemma write_tail h x p a len : length x = chunk -> (length a mod chunk = 0)%nat -> h = blockGeneric sm3_init a ->
  len = uint64 (Z.of_nat (length (a ++ p))) ->
  repr (let '(h, p) := if (chunk <=? length p)%nat then
          let n := (length p / chunk * chunk)%nat in (blockGeneric h (take n p), drop n p) else (h, p) in
        if (0 <? length p)%nat then mkDigest h (copy_at x 0 p) (Nat.min (length x) (length p)) len else mkDigest h x 0 len) (a ++ p).
Proof.
  intros Hx Ha Hh Hlen.
  assert (G : forall a p h, (length a mod chunk = 0)%nat -> h = blockGeneric sm3_init a -> (length p < chunk)%nat ->
    len = uint64 (Z.of_nat (length (a ++ p))) ->
    repr (if (0 <? length p)%nat then mkDigest h (copy_at x 0 p) (Nat.min (length x) (length p)) len else mkDigest h x 0 len) (a ++ p)).
  { clear a p h Ha Hh Hlen. intros a p h Ha Hh Hp Hlen. destruct (Nat.ltb_spec 0 (length p)).
    - destruct (copy_at_take x 0 p ltac:(lia) ltac:(lia)) as [Et El]. cbn [Nat.add] in Et.
      split; cbn [dg_h dg_x dg_nx dg_len]; rewrite ?Nat.min_r by lia; [exists a; by rewrite Et, take_0|done|by rewrite El|done].
    - destruct p; [|cbn in *; lia]. split; cbn [dg_h dg_x dg_nx dg_len]; [exists a; by rewrite take_0|cbv; lia|done|done]. }
  destruct (Nat.leb_spec chunk (length p)) as [Hp|Hp]; cbv zeta iota beta; [|by apply G].
  set (n := (length p / chunk * chunk)%nat).
  pose proof (Nat.div_mod_eq (length p) chunk) as E. pose proof (Nat.mod_upper_bound (length p) chunk ltac:(cbv; lia)).
  assert (Hn : (length (take n p) = n)%nat) by (rewrite length_take; unfold n; lia).
  replace (a ++ p) with ((a ++ take n p) ++ drop n p) in * by (by rewrite <- app_assoc, take_drop).
  apply G; [| |rewrite length_drop; unfold n; lia|done].
  - rewrite length_app, Hn. unfold n. by rewrite Nat.Div0.mod_add.
  - subst h. symmetry. by apply blockGeneric_app.
Qed.

Lemma Write_repr d m p : repr d m -> repr (Write d p) (m ++ p).
Proof.
  intros [(a & Em & Ha & Hh) Hnx Hx Hl]. unfold Write.
  assert (Hlen : uint64 (dg_len d + Z.of_nat (length p)) = uint64 (Z.of_nat (length (m ++ p)))).
  { rewrite Hl, length_app, Nat2Z.inj_add. unfold wrapU. by rewrite Zplus_mod_idemp_l. }
  destruct (Nat.ltb_spec 0 (dg_nx d)) as [H0|H0].
  - destruct (Nat.eqb_spec (dg_nx d + Nat.min (chunk - dg_nx d) (length p)) chunk) as [E|E]; cbv zeta iota beta.
    + assert (chunk - dg_nx d <= length p)%nat by lia. rewrite Nat.min_l by lia. clear E.
      rewrite copy_at_full, Hx by lia.
      set (r := take (dg_nx d) (dg_x d)) in *. set (n := (chunk - dg_nx d)%nat) in *.
      replace (m ++ p) with ((a ++ r ++ take n p) ++ drop n p) in * by (subst m; by rewrite <- !app_assoc, take_drop).
      assert (length (r ++ take n p) = chunk) as Hr by (unfold r; rewrite length_app, !length_take; lia).
      apply write_tail; [done| | |done].
      * rewrite length_app, Hr. change chunk with (1 * chunk)%nat at 1. by rewrite Nat.Div0.mod_add.
      * subst m. rewrite Hh. symmetry. by apply blockGeneric_app.
    + assert (dg_nx d + length p < chunk)%nat by lia. rewrite Nat.min_r by lia. rewrite drop_ge by lia. change (chunk <=? length (@nil Z))%nat with false. cbv iota beta. change (0 <? length (@nil Z))%nat with false. cbv iota beta.
      destruct (copy_at_take (dg_x d) (dg_nx d) p ltac:(lia) ltac:(lia)) as [Et El].
      split; cbn [dg_h dg_x dg_nx dg_len]; [|lia|by rewrite El|done].
      exists a. rewrite Et, app_assoc. by rewrite <- Em.
  - assert (dg_nx d = 0%nat) as En by lia. rewrite En in *. rewrite take_0, app_nil_r in Em. subst m.
    by apply write_tail.
Qed.

Lemma writes_repr d m ps : repr d m -> repr (foldl Write d ps) (m ++ concat ps).
Proof.
  revert d m. induction ps as [|p ps IH]; intros d m H; cbn [foldl concat]; [by rewrite app_nil_r|].
  rewrite app_assoc. apply IH. by apply Write_repr.
Qed.

(** The two writes of [checkSum] are the padding, and end a block. *)
Lemma checkSum_padding d m : repr d m -> checkSum d = Some (sm3 m).
Proof.
  intros Hd. unfold checkSum. pose proof (repr_len _ _ Hd) as Hl.
  set (n := Z.of_nat (length m)) in *.
  assert (Em : dg_len d mod 64 = n mod 64).
  { rewrite Hl. unfold wrapU. apply Z.mod_mod_divide. by exists (2 ^ 58). }
  pose proof (Z.mod_pos_bound n 64 ltac:(lia)) as Hn.
  set (pad := if dg_len d mod 64 <? 56 then 56 - dg_len d mod 64 else 64 + 56 - dg_len d mod 64).
  assert (Hpad : pad = 1 + (55 - n) mod 64).
  { unfold pad. rewrite Em. clear. destruct (Z.ltb_spec (n mod 64) 56); Z.div_mod_to_equations; lia. }
  pose proof (Z.mod_pos_bound (55 - n) 64 ltac:(lia)) as Hr.
  assert (Et : take (Z.to_nat pad) (0x80 :: replicate 63 0) = 0x80 :: replicate (Z.to_nat ((55 - n) mod 64)) 0).
  { rewrite Hpad, Z2Nat.inj_add by lia. change (Z.to_nat 1) with 1%nat. cbn [Nat.add firstn].
    f_equal. change (firstn ?a ?b) with (take a b). rewrite take_replicate. f_equal. lia. }
  rewrite Et. clear Et Hpad. cbv zeta.
  assert (El : wrapU 64 (Z.shiftl (dg_len d) 3) = 8 * n mod 2 ^ 64).
  { rewrite Z.shiftl_mul_pow2, Hl by lia. unfold wrapU. change (2 ^ 3) with 8. rewrite Zmult_mod_idemp_l. f_equal. lia. }
  rewrite El.
  pose proof (Write_repr _ _ (length_bytes (8 * n mod 2 ^ 64)) (Write_repr _ _ (0x80 :: replicate (Z.to_nat ((55 - n) mod 64)) 0) Hd)) as Hw.
  rewrite <- app_assoc in Hw. change (m ++ (_ :: ?l) ++ ?q) with (m ++ padding m) in Hw.
  destruct Hw as [(a & Ea & Ha & Hh) Hx Hxl _]. set (d' := Write (Write d _) _) in *.
  assert (Hz : (length (m ++ padding m) mod chunk = 0)%nat).
  { apply Nat2Z.inj. rewrite Nat2Z.inj_mod, length_app. unfold padding. cbn [length]. rewrite length_app, length_replicate.
    change (length (length_bytes _)) with 8%nat. fold n. rewrite Nat2Z.inj_add, Nat2Z.inj_succ, Nat2Z.inj_add, Z2Nat.id by lia.
    change (Z.of_nat chunk) with 64. fold n. Z.div_mod_to_equations; lia. }
  assert (dg_nx d' = 0%nat) as E0.
  { rewrite Ea, length_app, length_take, Hxl, Nat.min_l in Hz by lia.
    rewrite Nat.Div0.add_mod, Ha in Hz. cbn [Nat.add] in Hz. rewrite Nat.Div0.mod_mod in Hz. by rewrite Nat.mod_small in Hz. }
  rewrite E0 in *. rewrite take_0, app_nil_r in Ea. rewrite Nat.eqb_refl, Hh, <- Ea. done.
Qed.

Lemma Sum_sm3 m : Sum m = Some (sm3 m).
Proof. apply checkSum_padding. exact (Write_repr New [] m New_repr). Qed.
Lemma writes_Sum ps b : digest_Sum (foldl Write New ps) b = Some (b ++ sm3 (concat ps)).
Proof. unfold digest_Sum. by rewrite (checkSum_padding _ (concat ps)) by exact (writes_repr New [] ps New_repr). Qed.

(** C39: however the data of an SM3 hash is cut into writes, reading the digest
    never panics and appends the hash of the whole: the code's compression of a
    block, folded over the blocks of the message padded as the standard defines it; and
    the one-call form gives the same. *)
Theorem sm3_streaming ps b :
  digest_Sum (foldl Write New ps) b = Some (b ++ sm3 (concat ps)) /\ Sum (concat ps) = Some (sm3 (concat ps)).
Proof. split; [apply writes_Sum|apply Sum_sm3]. Qed.

(** The standard's first example. *)
Example sm3_abc : Sum [97; 98; 99] = Some
  [0x66;0xc7;0xf0;0xf4;0x62;0xee;0xed;0xd9;0xd1;0xf2;0xd4;0x6b;0xdc;0x10;0xe4;0xe2;
   0x41;0x67;0xc4;0x87;0x5c;0xf2;0xf7;0xa2;0x29;0x7d;0xa0;0x2b;0x8f;0x4b;0xa8;0xe0].
Proof. vm_compute. reflexivity. Qed.
