(* ===== verification/Curve.v ===== *)
(** The elliptic curves the signatures are made on: [math/big]'s inverse and the
    arithmetic of [crypto/elliptic]'s [CurveParams], which [crypto/sm2] uses as
    it is, and the interface [elliptic.Curve] the signing code calls.

    The interface is the record [Curve]; [CurveLaws] is what signing relies on: the
    multiples of the base point form a group of prime order.  [generic_curve] is
    the arithmetic of the Go library in Jacobian coordinates; on a small subgroup
    over a 256-bit field ([toy]) it is checked to satisfy the laws by evaluation. *)

From S2P Require Import Prelude Serialization Common Vm PubKey.

(** * [big.Int.ModInverse] *)

(** The extended Euclidean algorithm on [(a, b)], with [x] and [y] such that
    [a] is [x] times the number and [b] is [y] times it, modulo [n]. *)
Fixpoint egcd (fuel : nat) (a b x y : Z) : Z * Z :=
  match fuel with
  | O => (a, x)
  | S fuel => if b =? 0 then (a, x) else egcd fuel b (a mod b) y (x - a / b * y)
  end.
(** [None]: the number has no inverse. *)
Definition big_ModInverse (g n : Z) : option Z :=
  let g := g mod n in
  let '(d, x) := egcd (S (Z.to_nat (Z.log2 (n * g)))) n g 0 1 in
  if d =? 1 then Some (x mod n) else None.

(** The product of the pair at least halves with each turn. *)
Lemma egcd_spec fuel n g a b x y : 0 <= b < a -> a * b < 2 ^ Z.of_nat fuel ->
  (n | a - x * g) -> (n | b - y * g) ->
  exists z, egcd fuel a b x y = (Z.gcd a b, z) /\ (n | Z.gcd a b - z * g).
Proof.
  revert a b x y. induction fuel as [|fuel IH]; intros a b x y Hb Hf Ha Hy; cbn [egcd].
  - assert (b = 0) as -> by (change (2 ^ Z.of_nat 0) with 1 in Hf; nia). exists x. rewrite Z.gcd_0_r, Z.abs_eq by lia. done.
  - destruct (Z.eqb_spec b 0) as [->|Hz]; [exists x; by rewrite Z.gcd_0_r, Z.abs_eq by lia|].
    pose proof (Z.mod_pos_bound a b ltac:(lia)). pose proof (Z.div_mod a b Hz).
    assert (1 <= a / b) by (apply Z.div_le_lower_bound; lia).
    destruct (IH b (a mod b) y (x - a / b * y)) as (z & E & Hz').
    + lia.
    + rewrite Nat2Z.inj_succ, Z.pow_succ_r in Hf by lia. assert (2 * (a mod b) < a) by nia. nia.
    + done.
    + replace (a mod b - (x - a / b * y) * g) with ((a - x * g) - a / b * (b - y * g)) by nia.
      apply Z.divide_sub_r; [done|]. by apply Z.divide_mul_r.
    + rewrite (Z.gcd_comm b (a mod b)), Z.gcd_mod, (Z.gcd_comm b) in * by lia. by exists z.
Qed.

Lemma big_ModInverse_spec g n : 1 < n -> Z.gcd g n = 1 ->
  exists x, big_ModInverse g n = Some x /\ 0 <= x < n /\ (x * g) mod n = 1.
Proof.
  intros Hn Hr. unfold big_ModInverse.
  pose proof (Z.mod_pos_bound g n ltac:(lia)) as Hg.
  destruct (egcd_spec (S (Z.to_nat (Z.log2 (n * (g mod n))))) n (g mod n) n (g mod n) 0 1) as (z & -> & Hz).
  - lia.
  - rewrite Nat2Z.inj_succ, Z2Nat.id by apply Z.log2_nonneg.
    destruct (Z.eq_dec (g mod n) 0) as [->|]; [by rewrite Z.mul_0_r|]. apply Z.log2_spec. nia.
  - exists 1. lia.
  - exists 0. lia.
  - assert (Z.gcd n (g mod n) = 1) as E by (by rewrite Z.gcd_comm, Z.gcd_mod, Z.gcd_comm by lia).
    rewrite E in *. cbn [Z.eqb Pos.eqb]. eexists. split; [done|]. split; [apply Z.mod_pos_bound; lia|].
    rewrite Z.mul_mod_idemp_l, <- (Z.mul_mod_idemp_r z g) by lia. destruct Hz as [c Hc].
    replace (z * (g mod n)) with (1 + (- c) * n) by lia. rewrite Z.mod_add by lia. by apply Z.mod_small.
Qed.

(** * [crypto/elliptic] *)

(** [CurveParams] with all its fields. *)
Record EccParams := mkEcc { ecc_alg : CurveParams; ecc_N : Z; ecc_Gx : Z; ecc_Gy : Z; ecc_BitSize : Z }.
Definition point : Type := Z * Z.
(** The interface, with the two operations a curve may offer besides. *)
Record Curve := mkElliptic {
  Params : EccParams;
  Add : point -> point -> point;
  ScalarMult : point -> bytes -> point;
  ScalarBaseMult : bytes -> point;
  CombinedMult : option (point -> bytes -> bytes -> point);
  Inverse : option (Z -> Z) }.
Abbreviation curveN c := (ecc_N (Params c)).

Section Jacobian.
Context (P : Z).

Definition zForAffine (p : point) : Z := if negb (p.1 =? 0) || negb (p.2 =? 0) then 1 else 0.
Definition jacobian : Type := Z * Z * Z.
(** [None]: [z] has no inverse, which a prime [P] excludes. *)
Definition affineFromJacobian (q : jacobian) : option point :=
  let '(x, y, z) := q in
  if z =? 0 then Some (0, 0)
  else
    zinv ← big_ModInverse z P;
    let zinvsq := zinv * zinv in
    Some ((x * zinvsq) mod P, (y * (zinvsq * zinv)) mod P).

Definition doubleJacobian (q : jacobian) : jacobian :=
  let '(x, y, z) := q in
  let delta := (z * z) mod P in
  let gamma := (y * y) mod P in
  let alpha := 3 * ((x - delta) * (x + delta)) in
  let beta := x * gamma in
  let x3 := (alpha * alpha - 8 * beta) mod P in
  let z3 := ((y + z) * (y + z) - gamma - delta) mod P in
  let y3 := (alpha * (4 * beta - x3) - 8 * (gamma * gamma)) mod P in
  (x3, y3, z3).

Definition addJacobian (q1 q2 : jacobian) : jacobian :=
  let '(x1, y1, z1) := q1 in
  let '(x2, y2, z2) := q2 in
  if z1 =? 0 then q2
  else if z2 =? 0 then q1
  else
    let z1z1 := (z1 * z1) mod P in
    let z2z2 := (z2 * z2) mod P in
    let u1 := (x1 * z2z2) mod P in
    let u2 := (x2 * z1z1) mod P in
    let h := (u2 - u1) mod P in
    let i := (2 * h) * (2 * h) in
    let j := h * i in
    let s1 := (y1 * z2 * z2z2) mod P in
    let s2 := (y2 * z1 * z1z1) mod P in
    let r := (s2 - s1) mod P in
    if (h =? 0) && (r =? 0) then doubleJacobian q1
    else
      let r := 2 * r in
      let v := u1 * i in
      let x3 := (r * r - j - v - v) mod P in
      let y3 := (r * (v - x3) - 2 * (s1 * j)) mod P in
      let z3 := (((z1 + z2) * (z1 + z2) - z1z1 - z2z2) * h) mod P in
      (x3, y3, z3).

(** The bits of a byte, the highest first. *)
Definition byte_bits (b : Z) : list bool := map (fun i => Z.testbit b (7 - Z.of_nat i)) (seq 0 8).
Definition mult_bit (B : point) (q : jacobian) (bit : bool) : jacobian :=
  let q := doubleJacobian q in if bit then addJacobian (B.1, B.2, 1) q else q.
Definition generic_ScalarMult (B : point) (k : bytes) : option point :=
  affineFromJacobian (foldl (fun q b => foldl (mult_bit B) q (byte_bits b)) (0, 0, 0) k).
Definition generic_Add (p1 p2 : point) : option point :=
  affineFromJacobian (addJacobian (p1.1, p1.2, zForAffine p1) (p2.1, p2.2, zForAffine p2)).
End Jacobian.

(** [CurveParams] as a [Curve]. *)
Definition generic_curve (c : EccParams) : Curve :=
  let P := ec_P (ecc_alg c) in
  {| Params := c;
     Add p1 p2 := default (0, 0) (generic_Add P p1 p2);
     ScalarMult B k := default (0, 0) (generic_ScalarMult P B k);
     ScalarBaseMult k := default (0, 0) (generic_ScalarMult P (ecc_Gx c, ecc_Gy c) k);
     CombinedMult := None; Inverse := None |}.

(** * What signing relies on *)

(** The multiple of the base point by a number. *)
Definition base (c : Curve) (k : Z) : point := ScalarBaseMult c (big_Bytes k).
(** [fermatInverse], where the curve has no inverse of its own. *)
Definition scalar_inverse (c : Curve) (k : Z) : Z :=
  match Inverse c with Some f => f k | None => big_Exp k (curveN c - 2) (curveN c) end.

Class CurveLaws (c : Curve) : Prop := {
  law_prime k : 0 < k < curveN c -> Z.gcd k (curveN c) = 1;
  law_order : 2 < curveN c <= 2 ^ 256;
  law_zeros b : wf_bytes b -> ScalarBaseMult c b = base c (be_val b);
  law_add d s t : 0 < d < curveN c -> 0 <= s < curveN c -> 0 <= t < curveN c ->
    Add c (base c s) (ScalarMult c (base c d) (big_Bytes t)) = base c ((s + t * d) mod curveN c);
  law_combined f d s t : CombinedMult c = Some f -> 0 < d < curveN c -> 0 <= s < curveN c -> 0 <= t < curveN c ->
    f (base c d) (big_Bytes s) (big_Bytes t) = base c ((s + t * d) mod curveN c);
  law_inverse k : 0 < k < curveN c -> (scalar_inverse c k * k) mod curveN c = 1 }.

(** [s] times the base point plus [t] times the key, as both algorithms compute it. *)
Definition combined (c : Curve) (pub : point) (s t : Z) : point :=
  match CombinedMult c with
  | Some f => f pub (big_Bytes s) (big_Bytes t)
  | None => Add c (ScalarBaseMult c (big_Bytes s)) (ScalarMult c pub (big_Bytes t))
  end.
Lemma combined_base c `{CurveLaws c} d s t : 0 < d < curveN c -> 0 <= s < curveN c -> 0 <= t < curveN c ->
  combined c (base c d) s t = base c ((s + t * d) mod curveN c).
Proof.
  intros. unfold combined. destruct (CombinedMult c) as [f|] eqn:E; [by apply (law_combined f)|by apply law_add].
Qed.

(** * The arithmetic of the library keeps leading zeros out *)

Lemma mult_bit_zero P B : 0 < P -> mult_bit P B (0, 0, 0) false = (0, 0, 0).
Proof. intros HP. unfold mult_bit, doubleJacobian. cbn. by rewrite !Z.mod_0_l by lia. Qed.
Lemma byte_zero P B : 0 < P -> foldl (mult_bit P B) (0, 0, 0) (byte_bits 0) = (0, 0, 0).
Proof. intros HP. change (byte_bits 0) with (replicate 8 false). cbn [replicate foldl]. by rewrite !mult_bit_zero. Qed.
Lemma wf_big_Bytes z : wf_bytes (big_Bytes z).
Proof. destruct (big_Bytes_spec z) as (m & -> & _). apply wf_be_bytes. Qed.
Lemma be_val_bound b : wf_bytes b -> 0 <= be_val b < 256 ^ Z.of_nat (length b).
Proof. intros Hw. unfold be_val. rewrite <- (length_reverse b). apply le_val_bound. by apply Forall_reverse. Qed.
(** Any bytes of a number are its digits after some zeros. *)
Lemma bytes_of_number b : wf_bytes b -> exists n, b = replicate n 0 ++ big_Bytes (be_val b).
Proof.
  intros Hw. pose proof (be_val_bound b Hw). exists (length b - length (big_Bytes (be_val b)))%nat.
  rewrite be_bytes_pad by done. unfold be_bytes, be_val. rewrite <- (length_reverse b).
  rewrite le_bytes_le_val by (by apply Forall_reverse). by rewrite reverse_involutive.
Qed.
Lemma generic_zeros P B b : 0 < P -> wf_bytes b ->
  generic_ScalarMult P B b = generic_ScalarMult P B (big_Bytes (be_val b)).
Proof.
  intros HP Hw. destruct (bytes_of_number b Hw) as [n E]. rewrite E at 1. unfold generic_ScalarMult. rewrite foldl_app.
  assert (foldl (fun q b => foldl (mult_bit P B) q (byte_bits b)) (0, 0, 0) (replicate n 0) = (0, 0, 0)) as ->; [|done].
  clear E. induction n as [|n IH]; [done|]. cbn [replicate foldl]. by rewrite byte_zero.
Qed.

(** * A small group over a large field *)

(** The curve [y^2 = x^3 - 3x] over a 256-bit prime that is 3 modulo 4 and 4
    modulo 5: it has as many points as the field has elements, plus one, and a
    base point of order 5. *)
Definition toy : EccParams := mkEcc (mkCurve (2 ^ 255 + 611) 0) 5
  0x571681c702fa486a91e69bcd571cfae3a12f3f3baef7cd3d81d8a14ee6a54576
  0x6acae15dc22b20d333ce08db8ca68ed37168ec52923cbcf94148e1db97786976 256.
Definition toy_curve : Curve := generic_curve toy.

Lemma forallb_range (n : nat) (f : Z -> bool) : forallb (fun i => f (Z.of_nat i)) (seq 0 n) = true ->
  forall k, 0 <= k < Z.of_nat n -> f k = true.
Proof.
  intros H k Hk. rewrite forallb_forall in H. rewrite <- (Z2Nat.id k) by lia. apply H. apply in_seq. lia.
Qed.
Definition point_eqb (p q : point) : bool := (p.1 =? q.1) && (p.2 =? q.2).
Lemma point_eqb_eq p q : point_eqb p q = true -> p = q.
Proof. destruct p, q. unfold point_eqb. cbn. rewrite andb_true_iff, !Z.eqb_eq. by intros [-> ->]. Qed.

(** The multiples of the base point, and what the operations do to them. *)
Definition toy_points : list point := Eval vm_compute in map (fun k => base toy_curve (Z.of_nat k)) (seq 0 5).
Definition toy_point (k : Z) : point := nth (Z.to_nat k) toy_points (0, 0).
Lemma toy_base k : 0 <= k < 5 -> base toy_curve k = toy_point k.
Proof.
  intros Hk. apply point_eqb_eq. revert k Hk. apply (forallb_range 5 (fun k => point_eqb (base toy_curve k) (toy_point k))).
  vm_compute. reflexivity.
Qed.
Lemma toy_mult d t : 0 <= d < 5 -> 0 <= t < 5 -> ScalarMult toy_curve (toy_point d) (big_Bytes t) = toy_point ((t * d) mod 5) \/ d = 0.
Proof.
  intros Hd Ht. destruct (Z.eq_dec d 0) as [|H0]; [by right|left]. apply point_eqb_eq.
  assert (H : (d =? 0) || forallb (fun t => point_eqb (ScalarMult toy_curve (toy_point d) (big_Bytes (Z.of_nat t))) (toy_point ((Z.of_nat t * d) mod 5))) (seq 0 5) = true).
  { revert d Hd H0. intros d Hd _. revert d Hd.
    apply (forallb_range 5 (fun d => (d =? 0) || forallb (fun t => point_eqb (ScalarMult toy_curve (toy_point d) (big_Bytes (Z.of_nat t))) (toy_point ((Z.of_nat t * d) mod 5))) (seq 0 5))).
    vm_compute. reflexivity. }
  apply orb_true_iff in H as [H|H]; [lia|].
  by apply (forallb_range 5 (fun t => point_eqb (ScalarMult toy_curve (toy_point d) (big_Bytes t)) (toy_point ((t * d) mod 5)))) with (k := t) in H.
Qed.
Lemma toy_add s u : 0 <= s < 5 -> 0 <= u < 5 -> Add toy_curve (toy_point s) (toy_point u) = toy_point ((s + u) mod 5).
Proof.
  intros Hs Hu. apply point_eqb_eq.
  assert (H : forallb (fun u => point_eqb (Add toy_curve (toy_point s) (toy_point (Z.of_nat u))) (toy_point ((s + Z.of_nat u) mod 5))) (seq 0 5) = true).
  { revert s Hs. apply (forallb_range 5 (fun s => forallb (fun u => point_eqb (Add toy_curve (toy_point s) (toy_point (Z.of_nat u))) (toy_point ((s + Z.of_nat u) mod 5))) (seq 0 5))).
    vm_compute. reflexivity. }
  by apply (forallb_range 5 (fun u => point_eqb (Add toy_curve (toy_point s) (toy_point u)) (toy_point ((s + u) mod 5)))) with (k := u) in H.
Qed.

Lemma toy_laws : CurveLaws toy_curve.
Proof.
  split.
  - change (curveN toy_curve) with 5. intros k Hk. apply Z.eqb_eq.
    assert (Hz : forallb (fun i => (Z.of_nat i =? 0) || (Z.gcd (Z.of_nat i) 5 =? 1)) (seq 0 5) = true) by reflexivity.
    apply (forallb_range 5 (fun k => (k =? 0) || (Z.gcd k 5 =? 1))) with (k := k) in Hz; [|lia].
    apply orb_true_iff in Hz as [Hz|Hz]; [lia|done].
  - change (curveN toy_curve) with 5. lia.
  - intros b Hw. unfold base. cbn [toy_curve generic_curve ScalarBaseMult]. by rewrite generic_zeros.
  - change (curveN toy_curve) with 5. intros d s t Hd Hs Ht.
    rewrite !toy_base by (done || lia || (apply Z.mod_pos_bound; lia)).
    destruct (toy_mult d t) as [-> | ->]; [lia..| |lia]. rewrite toy_add by (done || apply Z.mod_pos_bound; lia).
    by rewrite Z.add_mod_idemp_r by lia.
  - done.
  - change (curveN toy_curve) with 5. intros k Hk. apply Z.eqb_eq.
    assert (Hz : forallb (fun i => (Z.of_nat i =? 0) || ((scalar_inverse toy_curve (Z.of_nat i) * Z.of_nat i) mod 5 =? 1)) (seq 0 5) = true) by reflexivity.
    apply (forallb_range 5 (fun k => (k =? 0) || ((scalar_inverse toy_curve k * k) mod 5 =? 1))) with (k := k) in Hz; [|lia].
    apply orb_true_iff in Hz as [Hz|Hz]; [lia|done].
Qed.

(** The curve of [sm2.Init]; twice its base point lies on it. *)
Definition p256_sm2 : EccParams := mkEcc
  (mkCurve 0xFFFFFFFEFFFFFFFFFFFFFFFFFFFFFFFFFFFFFFFF00000000FFFFFFFFFFFFFFFF
           0x28E9FA9E9D9F5E344D5A9E4BCF6509A7F39789F515AB8F92DDBCBD414D940E93)
  0xFFFFFFFEFFFFFFFFFFFFFFFFFFFFFFFF7203DF6B21C6052B53BBF40939D54123
  0x32C4AE2C1F1981195F9904466A39C9948FE30BBFF2660BE1715A4589334C74C7
  0xBC3736A2F4F6779C59BDCEE36B692153D0A9877CC62A474002DF32E52139F0A0 256.
Definition on_curveb (c : CurveParams) (p : point) : bool :=
  ((p.2 * p.2) mod ec_P c =? (p.1 * p.1 * p.1 - 3 * p.1 + ec_B c) mod ec_P c).
Example sm2_points : forallb (fun k => on_curveb (ecc_alg p256_sm2) (base (generic_curve p256_sm2) k)) [1; 2; 3] = true.
Proof. vm_compute. reflexivity. Qed.
