(* ===== verification/Signing.v ===== *)
(** [crypto/sm2/sm2.go], [crypto/p256r1/p256r1.go], [crypto/crypto.go] and
    [vm/ECDsaCrypto.go]: key pairs, signatures and their verification, on an
    [elliptic.Curve].

    What [crypto/rand] gives when asked for a number of bytes is an argument,
    [None] being an error of the reader; SHA-512 and the AES counter mode that make a stream of candidates from
    them are the parameter [IRandom].  The loops that draw candidates until one
    fits have fuel; [None] is a loop that has not ended.  ECDSA of the Go library,
    which [p256r1] calls, is written out as the library has it.

    The theorems: a key pair of [GenKeyPair] is in the range signing needs; the
    signature made with the first candidate that fits has 64 bytes and is accepted
    under the public key, for both algorithms, directly and through the encoded
    key as the virtual machine checks it. *)

From S2P Require Import Prelude Serialization Sha256 Common Vm PubKey Sm3 Curve.

(** [sha512.New] with the sum of what was written; the [i]-th read of [n] bytes from the
    key stream of AES in counter mode under a key, after an initial value. *)
Class IRandom := { sha512 : bytes -> bytes; ctr_read : bytes -> bytes -> nat -> nat -> bytes }.
Class IRandomLaws `{IRandom} := length_sha512 : forall b, length (sha512 b) = 64%nat.

Definition string_bytes (s : string) : bytes := map (fun c => Z.of_N (Ascii.N_of_ascii c)) (String.list_ascii_of_string s).

(** A loop that draws candidates until one gives a signature. *)
Fixpoint sign_loop (try : Z -> outcome (option (Z * Z))) (draw : nat -> Z) (fuel i : nat) : option (outcome (Z * Z)) :=
  match fuel with
  | O => None
  | S fuel =>
      match try (draw i) with
      | Ok None => sign_loop try draw fuel (S i)
      | Ok (Some rs) => Some (Ok rs)
      | Panic => Some Panic
      | Unmodelled => Some Unmodelled
      end
  end.

(** The entropy both algorithms read, and the key of the stream. *)
Definition entropyLen (c : EccParams) : Z := let n := Z.quot (ecc_BitSize c + 7) 16 in if 32 <? n then 32 else n.
Definition stream_key `{IRandom} (priKey entropy hash : bytes) : bytes := take 32 (sha512 (priKey ++ entropy ++ hash)).
Definition aes_key_ok (key : bytes) : bool := (length key =? 16)%nat || (length key =? 24)%nat || (length key =? 32)%nat.
Definition draw_length (c : EccParams) : nat := Z.to_nat (Z.quot (ecc_BitSize c) 8 + 8).

(** * sm2.go *)

Definition sm2_aesIV : string := "IV for <SM2> CTR".
Definition sm2_USERID : string := "1234567812345678".
Definition sm2_paramA : Z := 0xFFFFFFFEFFFFFFFFFFFFFFFFFFFFFFFFFFFFFFFF00000000FFFFFFFFFFFFFFFC.
(** [sm2_Init]: the curve of the algorithm set. *)
Definition sm2_Init : Curve := generic_curve p256_sm2.

Definition sm2_randFieldElement (c : Curve) (b : bytes) : Z := be_val b mod (curveN c - 1 - 1) + 1.

Definition sm2_combineZ (raw : bytes) (pub : point) (userID : string) : option bytes :=
  let id := string_bytes userID in
  let len := Z.of_nat (length id) * 8 in
  h ← digest_Sum (foldl Write New
    [ [Z.land (Z.shiftr len 8) 0xff; Z.land len 0xff]; id; big_Bytes sm2_paramA; big_Bytes (ec_B (ecc_alg p256_sm2));
      big_Bytes (ecc_Gx p256_sm2); big_Bytes (ecc_Gy p256_sm2); big_Bytes pub.1; big_Bytes pub.2 ]) [];
  Some (h ++ raw).

(** The keys of [sm2_GenKeyPair], from the bytes it reads. *)
Definition sm2_GenKeyPair (c : Curve) (random : nat -> option bytes) : option (bytes * point) * err :=
  match random (draw_length (Params c)) with
  | None => (None, Some (NewError "Generate key pair error"))
  | Some b => let k := sm2_randFieldElement c b in (Some (big_Bytes k, ScalarBaseMult c (big_Bytes k)), None)
  end.

(** One turn of the loops of [sm2_Sign] on a candidate: the inner loop goes on with
    the next unless [r] is not zero or [r + k] is [N], the outer one when [s] is
    zero. *)
Definition sm2_try (c : Curve) (e D : Z) (k : Z) : outcome (option (Z * Z)) :=
  let N := curveN c in
  let r := ((ScalarBaseMult c (big_Bytes k)).1 + e) mod N in
  if negb (negb (r =? 0) || (r + k =? N)) then Ok None
  else
    match big_ModInverse (D + 1) N with
    | None => Unmodelled
    | Some d1Inv =>
        let s := ((k - D * r) * d1Inv) mod N in
        if negb (s =? 0) then Ok (Some (r, s)) else Ok None
    end.

Definition sm2_Sign `{IRandom} (fuel : nat) (c : Curve) (random : nat -> option bytes) (priKey data : bytes) : option (outcome (option (Z * Z) * err)) :=
  let pub := ScalarBaseMult c priKey in
  match (sm2_combineZ data pub sm2_USERID ≫= Sum) with
  | None => Some Panic
  | Some hash =>
      match random (Z.to_nat (entropyLen (Params c))) with
      | None => Some (Ok (None, Some (NewError "unexpected EOF")))
      | Some entropy =>
          let key := stream_key priKey entropy hash in
          if negb (aes_key_ok key) then Some (Ok (None, Some (NewError "crypto/aes: invalid key size")))
          else if curveN c =? 0 then Some (Ok (None, Some (NewError "zero parameter")))
          else
            match sign_loop (sm2_try c (be_val hash) (be_val priKey))
                    (fun i => sm2_randFieldElement c (ctr_read key (string_bytes sm2_aesIV) (draw_length (Params c)) i)) fuel 0 with
            | None => None
            | Some (Ok rs) => Some (Ok (Some rs, None))
            | Some Panic => Some Panic
            | Some Unmodelled => Some Unmodelled
            end
      end
  end.

(** [None]: a key without coordinates, read after the checks of the numbers. *)
Definition sm2_Verify (c : Curve) (pub : option point) (data : bytes) (r s : Z) : outcome err :=
  let N := curveN c in
  if (r <=? 0) || (s <=? 0) then Ok (Some (NewError "SM2 signature contained zero or negative values"))
  else if (N <=? r) || (N <=? s) then Ok (Some (NewError "SM2 signature contained zero or negative values"))
  else if N =? 0 then Panic
  else
    match pub with
    | None => Panic
    | Some pub =>
        let t := (r + s) mod N in
        let x := (combined c pub s t).1 in
        match (sm2_combineZ data pub sm2_USERID ≫= Sum) with
        | None => Panic
        | Some hash => if (x + be_val hash) mod N =? r then Ok None else Ok (Some (NewError "[Validation], Verify failed."))
        end
    end.

(** * p256r1.go over [crypto/ecdsa] *)

Definition ecdsa_aesIV : string := "IV for ECDSA CTR".
Definition ecdsa_randFieldElement (c : Curve) (b : bytes) : Z := be_val b mod (curveN c - 1) + 1.
(** The leftmost bits of the digest, as many as [N] has. *)
Definition ecdsa_hashToInt (c : Curve) (hash : bytes) : Z :=
  let orderBits := big_BitLen (curveN c) in
  let orderBytes := (orderBits + 7) / 8 in
  let hash := if orderBytes <? Z.of_nat (length hash) then take (Z.to_nat orderBytes) hash else hash in
  let excess := Z.of_nat (length hash) * 8 - orderBits in
  if 0 <? excess then Z.shiftr (be_val hash) excess else be_val hash.

Definition ecdsa_try (c : Curve) (e D : Z) (k : Z) : outcome (option (Z * Z)) :=
  let N := curveN c in
  let kInv := scalar_inverse c k in
  let r := (ScalarBaseMult c (big_Bytes k)).1 mod N in
  if r =? 0 then Ok None
  else
    let s := ((D * r + e) * kInv) mod N in
    if s =? 0 then Ok None else Ok (Some (r, s)).

Definition ecdsa_Sign `{IRandom} (fuel : nat) (c : Curve) (random : nat -> option bytes) (D : Z) (hash : bytes) : option (outcome (option (Z * Z) * err)) :=
  match random (Z.to_nat (entropyLen (Params c))) with
  | None => Some (Ok (None, Some (NewError "unexpected EOF")))
  | Some entropy =>
      let key := stream_key (big_Bytes D) entropy hash in
      if negb (aes_key_ok key) then Some (Ok (None, Some (NewError "crypto/aes: invalid key size")))
      else if curveN c =? 0 then Some (Ok (None, Some (NewError "zero parameter")))
      else
        match sign_loop (ecdsa_try c (ecdsa_hashToInt c hash) D)
                (fun i => ecdsa_randFieldElement c (ctr_read key (string_bytes ecdsa_aesIV) (draw_length (Params c)) i)) fuel 0 with
        | None => None
        | Some (Ok rs) => Some (Ok (Some rs, None))
        | Some Panic => Some Panic
        | Some Unmodelled => Some Unmodelled
        end
  end.

Definition ecdsa_Verify (c : Curve) (pub : point) (hash : bytes) (r s : Z) : outcome bool :=
  let N := curveN c in
  if (r <=? 0) || (s <=? 0) then Ok false
  else if (N <=? r) || (N <=? s) then Ok false
  else
    match (match Inverse c with Some f => Some (f s) | None => big_ModInverse s N end) with
    | None => Unmodelled
    | Some w =>
        let u1 := (ecdsa_hashToInt c hash * w) mod N in
        let u2 := (r * w) mod N in
        let '(x, y) := combined c pub u1 u2 in
        if (x =? 0) && (y =? 0) then Ok false else Ok (x mod N =? r)
    end.

Definition p256r1_GenKeyPair (c : Curve) (random : nat -> option bytes) : option (bytes * point) * err :=
  match random (draw_length (Params c)) with
  | None => (None, Some (NewError "Generate key pair error"))
  | Some b => let k := ecdsa_randFieldElement c b in (Some (big_Bytes k, ScalarBaseMult c (big_Bytes k)), None)
  end.
Definition p256r1_Sign `{IRandom} (fuel : nat) (c : Curve) (random : nat -> option bytes) (priKey data : bytes) : option (outcome (option (Z * Z) * err)) :=
  ecdsa_Sign fuel c random (be_val priKey) (sha256 data).
Definition p256r1_Verify (c : Curve) (pub : point) (data : bytes) (r s : Z) : outcome err :=
  match ecdsa_Verify c pub (sha256 data) r s with
  | Ok true => Ok None
  | Ok false => Ok (Some (NewError "[Validation], Verify failed."))
  | Panic => Panic
  | Unmodelled => Unmodelled
  end.

(** * crypto.go *)

Definition P256R1 : Z := 0.
Definition SM2 : Z := 1.
Definition SIGNRLEN : nat := 32.
Definition SIGNATURELEN : nat := 64.
(** The package's two variables; before [SetAlg] there is no curve. *)
Record AlgSet := mkAlgSet { AlgChoice : Z; algSet : option Curve }.
Definition crypto_init : AlgSet := mkAlgSet 0 None.
(** [P256()] of the Go library is an argument. *)
Definition SetAlg (P256 : Curve) (algChoice : string) : AlgSet :=
  if String.eqb "SM2" algChoice then mkAlgSet SM2 (Some sm2_Init) else mkAlgSet P256R1 (Some P256).

(** util.go *)
Definition RandomNum (random : nat -> option bytes) (n : nat) : bytes * err :=
  match random n with Some b => (b, None) | None => ([], Some (NewError "unexpected EOF")) end.
Definition util_Hash (data : bytes) : bytes := sha256 data.
Definition util_SM3 (data : bytes) : option bytes := Sum data.
(** HMAC over SHA-256: the key is hashed when longer than a block. *)
Definition hmac_key (key : bytes) : bytes :=
  let k := if (64 <? length key)%nat then sha256 key else key in k ++ replicate (64 - length k) 0.
Definition hmac_sha256 (key message : bytes) : bytes :=
  let k := hmac_key key in
  sha256 (map (Z.lxor 0x5c) k ++ sha256 (map (Z.lxor 0x36) k ++ message)).
Definition CheckMAC (message messageMAC key : bytes) : bool := bool_decide (messageMAC = hmac_sha256 key message).
Definition util_RIPEMD160 (value : bytes) : option bytes := None.

Section Crypto.
Context (alg : AlgSet).

Definition crypto_GenKeyPair (random : nat -> option bytes) : outcome (bytes * PubKey * err) :=
  match algSet alg with
  | None => Panic
  | Some c =>
      match (if SM2 =? AlgChoice alg then sm2_GenKeyPair c random else p256r1_GenKeyPair c random) with
      | (Some (privateD, (X, Y)), None) => Ok (privateD, mkPubKey (Some X) (Some Y), None)
      | (_, e) => Ok ([], mkPubKey None None, e)
      end
  end.

Definition layout (r s : Z) : option bytes :=
  let R := big_Bytes r in
  let S := big_Bytes s in
  if ((SIGNRLEN <? length R) || (SIGNATURELEN <? length S))%nat then None
  else Some (copy_at (copy_at (replicate SIGNATURELEN 0) (SIGNRLEN - length R) R) (SIGNATURELEN - length S) S).
Definition crypto_Sign `{IRandom} (fuel : nat) (random : nat -> option bytes) (privateKey data : bytes) : option (outcome (bytes * err)) :=
  match algSet alg with
  | None => Some Panic
  | Some c =>
      res ← (if SM2 =? AlgChoice alg then sm2_Sign fuel c random privateKey data else p256r1_Sign fuel c random privateKey data);
      match res with
      | Ok (Some (r, s), None) => match layout r s with Some sg => Some (Ok (sg, None)) | None => Some Panic end
      | Ok (_, e) => Some (Ok ([], e))
      | Panic => Some Panic
      | Unmodelled => Some Unmodelled
      end
  end.

Definition coordinates (publicKey : PubKey) : option point := X ← pk_X publicKey; Y ← pk_Y publicKey; Some (X, Y).
(** The other algorithm copies the coordinates first. *)
Definition crypto_Verify (publicKey : PubKey) (data signature : bytes) : outcome err :=
  if negb (length signature =? SIGNATURELEN)%nat then Ok (Some (NewError "Unknown signature length"))
  else
    let r := be_val (take (length signature / 2) signature) in
    let s := be_val (drop (length signature / 2) signature) in
    match algSet alg with
    | None => Panic
    | Some c =>
        if SM2 =? AlgChoice alg then sm2_Verify c (coordinates publicKey) data r s
        else match coordinates publicKey with Some pub => p256r1_Verify c pub data r s | None => Panic end
    end.

(** * ECDsaCrypto.go *)

Definition ECDsa_VerifySignature (primes : list Z) (message signature pubkey : bytes) : outcome (bool * err) :=
  match algSet alg with
  | None => Panic
  | Some c =>
      match DecodePoint (ecc_alg (Params c)) primes (Some pubkey) with
      | Ok (Some pk, None) =>
          match crypto_Verify pk message signature with
          | Ok None => Ok (true, None)
          | Ok (Some _) => Ok (false, Some (NewError "[ECDsaCrypto], VerifySignature failed."))
          | Panic => Panic
          | Unmodelled => Unmodelled
          end
      | Ok (None, None) => Panic
      | Ok (_, Some _) => Ok (false, Some (NewError "[ECDsaCrypto], crypto.DecodePoint failed."))
      | Panic => Panic
      | Unmodelled => Unmodelled
      end
  end.
(** As the virtual machine's interface; it answers only where the code does not
    panic. *)
Definition ECDsaCrypto (primes : list Z) : ICrypto := fun message signature pubkey =>
  match ECDsa_VerifySignature primes message signature pubkey with Ok (b, _) => b | _ => false end.
End Crypto.

(** * The loops end at the first candidate that fits *)

(** When every candidate either fails or gives a signature with [Q], and the
    [n]-th does not fail, the loop returns one. *)
Lemma sign_loop_total try draw (Q : Z * Z -> Prop) n :
  (forall i, exists o, try (draw i) = Ok o /\ forall rs, o = Some rs -> Q rs) -> try (draw n) <> Ok None ->
  forall fuel, (n < fuel)%nat -> exists rs, sign_loop try draw fuel 0 = Some (Ok rs) /\ Q rs.
Proof.
  intros Hq Hn fuel Hfuel.
  enough (G : forall fuel i, (i <= n)%nat -> (n - i < fuel)%nat -> exists rs, sign_loop try draw fuel i = Some (Ok rs) /\ Q rs) by (apply G; lia).
  clear fuel Hfuel. induction fuel as [|fuel IH]; intros i Hi Hf; [lia|]. cbn [sign_loop].
  destruct (Hq i) as (o & E & Ho). rewrite E. destruct o as [rs|]; [exists rs; by split; [|apply Ho]|].
  destruct (decide (i = n)) as [->|]; [done|]. apply IH; lia.
Qed.

(** * Both equations hold for what the loops return *)

(** The numbers of a signature. *)
Definition signature_range (N : Z) (rs : Z * Z) : Prop := 0 < rs.1 < N /\ 0 < rs.2 < N.

(** A candidate that gives a signature of [data] under [d]: with [x] the first
    coordinate of [k] times the base point, neither number comes out as zero. *)
Definition sm2_hash (c : Curve) (d : Z) (data : bytes) : Z :=
  match sm2_combineZ data (base c d) sm2_USERID ≫= Sum with Some h => be_val h | None => 0 end.
Definition good_nonce (alg : AlgSet) (c : Curve) (d : Z) (data : bytes) (k : Z) : Prop :=
  let x := (base c k).1 in
  if SM2 =? AlgChoice alg then
    let r := (x + sm2_hash c d data) mod curveN c in r <> 0 /\ (k - d * r) mod curveN c <> 0
  else
    let r := x mod curveN c in r <> 0 /\ (d * r + ecdsa_hashToInt c (sha256 data)) mod curveN c <> 0.

Section Equations.
Context (c : Curve) `{!CurveLaws c}.
Abbreviation N := (curveN c).

(** SM2: [s * (1 + d)] is [k - r * d]. *)
Lemma sm2_try_spec e d k : 0 < d < N - 1 -> 0 < k < N - 1 ->
  let r := ((base c k).1 + e) mod N in
  exists o, sm2_try c e d k = Ok o /\
    (o = None <-> (r = 0 \/ (k - d * r) mod N = 0)) /\
    forall rs, o = Some rs -> rs.1 = r /\ signature_range N rs /\ (rs.2 * (d + 1)) mod N = (k - d * r) mod N.
Proof.
  intros Hd Hk r. pose proof (proj1 (law_order (c := c))) as HN.
  pose proof (Z.mod_pos_bound ((base c k).1 + e) N ltac:(lia)) as Hr. fold r in Hr.
  unfold sm2_try. fold (base c k). fold r. destruct (Z.eqb_spec r 0) as [Hz|Hz]; cbn [negb orb].
  { rewrite Hz. rewrite (proj2 (Z.eqb_neq (0 + k) N)) by lia. cbn [negb]. exists None. split; [done|]. split; [|done]. tauto. }
  destruct (big_ModInverse_spec (d + 1) N ltac:(lia) (law_prime (c := c) (d + 1) ltac:(lia))) as (i & -> & Hi & Ei).
  set (s := ((k - d * r) * i) mod N). pose proof (Z.mod_pos_bound ((k - d * r) * i) N ltac:(lia)) as Hs. fold s in Hs.
  assert (Es : (s * (d + 1)) mod N = (k - d * r) mod N).
  { unfold s. rewrite Z.mul_mod_idemp_l, <- Z.mul_assoc, <- Z.mul_mod_idemp_r, Ei, Z.mul_1_r by lia. done. }
  assert (E0 : s = 0 <-> (k - d * r) mod N = 0).
  { split; intros E; [by rewrite <- Es, E, Z.mul_0_l, Z.mod_0_l by lia|].
    unfold s. by rewrite <- Z.mul_mod_idemp_l, E, Z.mul_0_l, Z.mod_0_l by lia. }
  destruct (Z.eqb_spec s 0) as [Hs0|Hs0]; cbn [negb].
  - exists None. split; [done|]. split; [|done]. tauto.
  - exists (Some (r, s)). split; [done|]. split; [split; [done|tauto]|].
    intros rs [= <-]. unfold signature_range. cbn. repeat split; lia || done.
Qed.

(** ECDSA: [s * k] is [e + r * d]. *)
Lemma ecdsa_try_spec e d k : 0 < k < N ->
  let r := (base c k).1 mod N in
  exists o, ecdsa_try c e d k = Ok o /\
    (o = None <-> (r = 0 \/ (d * r + e) mod N = 0)) /\
    forall rs, o = Some rs -> rs.1 = r /\ signature_range N rs /\ (rs.2 * k) mod N = (d * r + e) mod N.
Proof.
  intros Hk r. pose proof (proj1 (law_order (c := c))) as HN. pose proof (law_inverse k Hk) as Ei.
  pose proof (Z.mod_pos_bound (base c k).1 N ltac:(lia)) as Hr. fold r in Hr.
  unfold ecdsa_try. fold (base c k). fold r. destruct (Z.eqb_spec r 0) as [Hz|Hz]; [exists None; split; [done|]; split; [|done]; tauto|].
  set (i := scalar_inverse c k) in *. set (s := ((d * r + e) * i) mod N).
  pose proof (Z.mod_pos_bound ((d * r + e) * i) N ltac:(lia)) as Hs. fold s in Hs.
  assert (Es : (s * k) mod N = (d * r + e) mod N).
  { unfold s. rewrite Z.mul_mod_idemp_l, <- Z.mul_assoc, <- Z.mul_mod_idemp_r, Ei, Z.mul_1_r by lia. done. }
  assert (E0 : s = 0 <-> (d * r + e) mod N = 0).
  { split; intros E; [by rewrite <- Es, E, Z.mul_0_l, Z.mod_0_l by lia|].
    unfold s. by rewrite <- Z.mul_mod_idemp_l, E, Z.mul_0_l, Z.mod_0_l by lia. }
  destruct (Z.eqb_spec s 0) as [Hs0|Hs0].
  - exists None. split; [done|]. split; [|done]. tauto.
  - exists (Some (r, s)). split; [done|]. split; [split; [done|tauto]|].
    intros rs [= <-]. unfold signature_range. cbn. repeat split; lia || done.
Qed.

Lemma mod_congr a b z : 0 < N -> (exists m, a = b + m * N) -> b mod N = z -> a mod N = z.
Proof. intros HN [m ->] <-. apply Z.mod_add. lia. Qed.
Lemma mod_witness a : 0 < N -> exists m, a mod N = a + m * N.
Proof. intros HN. exists (- (a / N)). rewrite Z.mod_eq by lia. lia. Qed.
Lemma mod_eq_witness a b : 0 < N -> a mod N = b mod N -> exists m, a = b + m * N.
Proof. intros HN E. exists (a / N - b / N). rewrite (Z.div_mod a N), (Z.div_mod b N) at 1 by lia. rewrite E. lia. Qed.

(** The candidate the standard rejects, with [r + k] equal to [N], is used: the
    two numbers of the signature then add up to [N]. *)
Lemma sm2_zero_sum e d k : 0 < d < N - 1 -> 0 < k < N - 1 -> ((base c k).1 + e) mod N + k = N ->
  sm2_try c e d k = Ok (Some (((base c k).1 + e) mod N, k)).
Proof.
  intros Hd Hk Hr. pose proof (proj1 (law_order (c := c))) as HN. set (r := ((base c k).1 + e) mod N) in *.
  destruct (sm2_try_spec e d k Hd Hk) as (o & E & _ & Ho). fold r in Ho. rewrite E. unfold sm2_try in E. fold (base c k) in E. fold r in E.
  rewrite (proj2 (Z.eqb_neq r 0)) in E by lia. cbn [negb orb] in E.
  destruct (big_ModInverse_spec (d + 1) N ltac:(lia) (law_prime (c := c) (d + 1) ltac:(lia))) as (i & Ei & Hi & Em). rewrite Ei in E.
  assert (((k - d * r) * i) mod N = k) as Es.
  { assert (Em1 : (i * (d + 1)) mod N = 1 mod N) by (rewrite Em, Z.mod_small; lia).
    destruct (mod_eq_witness _ _ ltac:(lia) Em1) as [m Hm].
    apply (mod_congr _ k); [lia| |apply Z.mod_small; lia]. exists (m * k - d * i). replace r with (N - k) by lia. nia. }
  rewrite Es, (proj2 (Z.eqb_neq k 0)) in E by lia. cbn [negb] in E. congruence.
Qed.

Lemma combineZ_total data pub : is_Some (sm2_combineZ data pub sm2_USERID ≫= Sum).
Proof.
  unfold sm2_combineZ. rewrite writes_Sum. generalize (sm3 (concat [[Z.land (Z.shiftr (Z.of_nat (length (string_bytes sm2_USERID)) * 8) 8) 255;
    Z.land (Z.of_nat (length (string_bytes sm2_USERID)) * 8) 255]; string_bytes sm2_USERID; big_Bytes sm2_paramA; big_Bytes (ec_B (ecc_alg p256_sm2));
    big_Bytes (ecc_Gx p256_sm2); big_Bytes (ecc_Gy p256_sm2); big_Bytes pub.1; big_Bytes pub.2])).
  intros h. cbn [mbind option_bind]. rewrite Sum_sm3. by eexists.
Qed.

(** Proofs must not evaluate the hash of the curve's constants. *)
#[local] Opaque sm2_combineZ Sum.
Lemma sm2_verify d k data r s : 0 < d < N - 1 -> 0 < k < N - 1 -> signature_range N (r, s) ->
  r = ((base c k).1 + sm2_hash c d data) mod N -> (s * (d + 1)) mod N = (k - d * r) mod N ->
  sm2_Verify c (Some (base c d)) data r s = Ok None.
Proof.
  intros Hd Hk [Hr Hs] Er Es. cbn [fst snd] in *. pose proof (proj1 (law_order (c := c))) as HN. unfold sm2_Verify.
  rewrite (proj2 (Z.leb_gt r 0)), (proj2 (Z.leb_gt s 0)), (proj2 (Z.leb_gt N r)), (proj2 (Z.leb_gt N s)), (proj2 (Z.eqb_neq N 0)) by lia.
  cbn [orb]. rewrite combined_base by (assumption || lia || (apply Z.mod_pos_bound; lia)).
  assert ((s + (r + s) mod N * d) mod N = k) as ->.
  { destruct (mod_witness (r + s) ltac:(lia)) as [m ->]. destruct (mod_eq_witness _ _ ltac:(lia) Es) as [m' Em].
    apply (mod_congr _ k); [lia| |apply Z.mod_small; lia]. exists (m * d + m'). nia. }
  unfold sm2_hash in Er. destruct (combineZ_total data (base c d)) as [h Eh]. rewrite Eh in Er |- *. by rewrite <- Er, Z.eqb_refl.
Qed.

Lemma ecdsa_verify d k data r s : 0 < d < N -> 0 < k < N -> signature_range N (r, s) ->
  r = (base c k).1 mod N -> (s * k) mod N = (d * r + ecdsa_hashToInt c (sha256 data)) mod N ->
  p256r1_Verify c (base c d) data r s = Ok None.
Proof.
  intros Hd Hk [Hr Hs] Er Es. cbn [fst snd] in *. pose proof (proj1 (law_order (c := c))) as HN. unfold p256r1_Verify, ecdsa_Verify.
  rewrite (proj2 (Z.leb_gt r 0)), (proj2 (Z.leb_gt s 0)), (proj2 (Z.leb_gt N r)), (proj2 (Z.leb_gt N s)) by lia. cbn [orb].
  set (e := ecdsa_hashToInt c (sha256 data)) in *.
  assert (exists w, match Inverse c with Some f => Some (f s) | None => big_ModInverse s N end = Some w /\ (w * s) mod N = 1) as (w & -> & Ew).
  { pose proof (law_inverse (c := c) s Hs) as Hi. unfold scalar_inverse in Hi. destruct (Inverse c) as [f|]; [by exists (f s)|].
    destruct (big_ModInverse_spec s N ltac:(lia) (law_prime (c := c) s Hs)) as (w & E & _ & Ew). by exists w. }
  rewrite combined_base by (assumption || lia || (apply Z.mod_pos_bound; lia)).
  assert (((e * w) mod N + (r * w) mod N * d) mod N = k) as ->.
  { destruct (mod_witness (e * w) ltac:(lia)) as [m ->]. destruct (mod_witness (r * w) ltac:(lia)) as [m' ->].
    destruct (mod_eq_witness _ _ ltac:(lia) Es) as [a Ea].
    assert (Ew1 : (w * s) mod N = 1 mod N) by (rewrite Ew, Z.mod_small; lia).
    destruct (mod_eq_witness _ _ ltac:(lia) Ew1) as [b Eb].
    apply (mod_congr _ k); [lia| |apply Z.mod_small; lia]. exists (b * k - a * w + m + m' * d).
    replace (e * w + m * N + (r * w + m' * N) * d) with ((d * r + e) * w + (m + m' * d) * N) by lia.
    replace (d * r + e) with (s * k - a * N) by lia. replace ((s * k - a * N) * w) with ((w * s) * k - a * w * N) by lia. rewrite Eb. lia. }
  destruct (base c k) as [x y]. cbn [fst] in Er.
  destruct (Z.eqb_spec x 0) as [->|]; [rewrite Z.mod_0_l in Er by lia; lia|]. cbn [andb]. by rewrite <- Er, Z.eqb_refl.
Qed.
End Equations.

(** The 64 bytes of a signature hold both numbers. *)
Lemma copy_at_zeros n off b m : length b = m -> (off + m <= n)%nat ->
  copy_at (replicate n 0) off b = replicate off 0 ++ b ++ replicate (n - off - m) 0.
Proof.
  intros <- H. unfold copy_at. rewrite length_replicate, Nat.min_r by lia. rewrite take_replicate, drop_replicate, (take_ge b) by lia.
  rewrite Nat.min_l by lia. by replace (n - (off + length b))%nat with (n - off - length b)%nat by lia.
Qed.
Lemma layout_spec r s : 0 <= r < 2 ^ 256 -> 0 <= s < 2 ^ 256 -> layout r s = Some (be_bytes 32 r ++ be_bytes 32 s).
Proof.
  intros Hr Hs. change (2 ^ 256) with (256 ^ Z.of_nat 32) in *.
  pose proof (length_big_Bytes r 32 ltac:(lia)) as Lr. pose proof (length_big_Bytes s 32 ltac:(lia)) as Ls.
  unfold layout, SIGNRLEN, SIGNATURELEN. rewrite (proj2 (Nat.ltb_ge 32 _)), (proj2 (Nat.ltb_ge 64 _)) by lia. cbn [orb]. f_equal.
  rewrite (copy_at_zeros 64 _ (big_Bytes r) (length (big_Bytes r))) by lia. rewrite app_assoc, be_bytes_pad by done.
  replace (64 - (32 - length (big_Bytes r)) - length (big_Bytes r))%nat with 32%nat by lia.
  unfold copy_at. rewrite length_app, length_be_bytes, length_replicate. rewrite Nat.min_r by lia.
  rewrite (take_ge (big_Bytes s)), drop_ge, app_nil_r by (rewrite ?length_app, ?length_be_bytes, ?length_replicate; lia).
  rewrite take_app, length_be_bytes, take_replicate. rewrite (take_ge (be_bytes 32 r)) by (rewrite length_be_bytes; lia).
  rewrite <- app_assoc. f_equal. rewrite <- (be_bytes_pad s 32) by done. do 2 f_equal. lia.
Qed.
Lemma Verify_layout alg c pub data r s : algSet alg = Some c -> 0 <= r < 2 ^ 256 -> 0 <= s < 2 ^ 256 ->
  crypto_Verify alg (mkPubKey (Some pub.1) (Some pub.2)) data (be_bytes 32 r ++ be_bytes 32 s) =
  (if SM2 =? AlgChoice alg then sm2_Verify c (Some pub) data r s else p256r1_Verify c pub data r s).
Proof.
  intros Ec Hr Hs. unfold crypto_Verify. rewrite length_app, !length_be_bytes. cbn [Nat.add Nat.eqb SIGNATURELEN negb]. change (64 / 2)%nat with 32%nat.
  rewrite take_app_length', drop_app_length' by (by rewrite length_be_bytes). rewrite !be_val_be_bytes, !Z.mod_small by done. rewrite Ec.
  by destruct pub.
Qed.

(** * Signing and verifying *)

#[local] Opaque sm2_combineZ Sum.

(** The [i]-th candidate of a signature. *)
Definition candidate `{IRandom} (alg : AlgSet) (c : Curve) (entropy priKey data : bytes) (i : nat) : Z :=
  if SM2 =? AlgChoice alg then
    let hash := default [] (sm2_combineZ data (base c (be_val priKey)) sm2_USERID ≫= Sum) in
    sm2_randFieldElement c (ctr_read (stream_key priKey entropy hash) (string_bytes sm2_aesIV) (draw_length (Params c)) i)
  else
    ecdsa_randFieldElement c (ctr_read (stream_key (big_Bytes (be_val priKey)) entropy (sha256 data)) (string_bytes ecdsa_aesIV) (draw_length (Params c)) i).

(** The public key of a private one. *)
Definition public_key (c : Curve) (priKey : bytes) : PubKey :=
  mkPubKey (Some (base c (be_val priKey)).1) (Some (base c (be_val priKey)).2).

Section Signing.
Context `{IRandom} `{!IRandomLaws} (alg : AlgSet) (c : Curve) `{!CurveLaws c}.
Abbreviation N := (curveN c).

Lemma stream_key_ok a b d : aes_key_ok (stream_key a b d) = true.
Proof. unfold aes_key_ok, stream_key. rewrite length_take, length_sha512. done. Qed.

Lemma sm2_sign random entropy priKey data n fuel : wf_bytes priKey -> 0 < be_val priKey < N - 1 -> (SM2 =? AlgChoice alg) = true ->
  random (Z.to_nat (entropyLen (Params c))) = Some entropy ->
  good_nonce alg c (be_val priKey) data (candidate alg c entropy priKey data n) -> (n < fuel)%nat ->
  exists r s, sm2_Sign fuel c random priKey data = Some (Ok (Some (r, s), None)) /\ signature_range N (r, s) /\
    sm2_Verify c (Some (base c (be_val priKey))) data r s = Ok None.
Proof.
  intros Hw Hd Ha Hr Hg Hf. pose proof (proj1 (law_order (c := c))) as HN. set (d := be_val priKey) in *.
  unfold good_nonce, candidate in Hg. rewrite Ha in Hg. unfold sm2_Sign. rewrite law_zeros by done. fold d in Hg |- *.
  destruct (combineZ_total data (base c d)) as [h Eh]. rewrite Eh in *. cbn [default] in Hg. unfold id in Hg. rewrite Hr, stream_key_ok.
  cbn [negb]. rewrite (proj2 (Z.eqb_neq N 0)) by lia.
  assert (He : sm2_hash c d data = be_val h) by (unfold sm2_hash; by rewrite Eh). rewrite He in Hg.
  set (draw := fun i => sm2_randFieldElement c (ctr_read (stream_key priKey entropy h) (string_bytes sm2_aesIV) (draw_length (Params c)) i)) in *.
  assert (Hk : forall i, 0 < draw i < N - 1) by (intros i; unfold draw, sm2_randFieldElement; pose proof (Z.mod_pos_bound (be_val (ctr_read (stream_key priKey entropy h) (string_bytes sm2_aesIV) (draw_length (Params c)) i)) (N - 1 - 1)); lia).
  destruct (sign_loop_total (sm2_try c (be_val h) d) draw
    (fun rs => signature_range N rs /\ sm2_Verify c (Some (base c d)) data rs.1 rs.2 = Ok None) n) with (fuel := fuel) as ([r s] & -> & Hs & Hv); [| |done|].
  - intros i. destruct (sm2_try_spec c (be_val h) d (draw i) Hd (Hk i)) as (o & E & _ & Ho). exists o. split; [done|]. intros [r s] Eo.
    destruct (Ho _ Eo) as (E1 & E2 & E3). split; [done|]. cbn [fst snd] in *. apply (sm2_verify c d (draw i)); [done..| |by rewrite E1]. by rewrite He.
  - destruct (sm2_try_spec c (be_val h) d (draw n) Hd (Hk n)) as (o & E & Hn & _). rewrite E. intros [= Ho]. apply Hn in Ho as [Ho|Ho]; by apply Hg in Ho || by destruct Hg.
  - exists r, s. split; [reflexivity|]. exact (conj Hs Hv).
Qed.

Lemma ecdsa_sign random entropy priKey data n fuel : 0 < be_val priKey < N -> (SM2 =? AlgChoice alg) = false ->
  random (Z.to_nat (entropyLen (Params c))) = Some entropy ->
  good_nonce alg c (be_val priKey) data (candidate alg c entropy priKey data n) -> (n < fuel)%nat ->
  exists r s, p256r1_Sign fuel c random priKey data = Some (Ok (Some (r, s), None)) /\ signature_range N (r, s) /\
    p256r1_Verify c (base c (be_val priKey)) data r s = Ok None.
Proof.
  intros Hd Ha Hr Hg Hf. pose proof (proj1 (law_order (c := c))) as HN. set (d := be_val priKey) in *.
  unfold good_nonce, candidate in Hg. rewrite Ha in Hg. fold d in Hg. unfold p256r1_Sign, ecdsa_Sign. fold d. rewrite Hr, stream_key_ok.
  cbn [negb]. rewrite (proj2 (Z.eqb_neq N 0)) by lia. set (e := ecdsa_hashToInt c (sha256 data)) in *.
  set (draw := fun i => ecdsa_randFieldElement c (ctr_read (stream_key (big_Bytes d) entropy (sha256 data)) (string_bytes ecdsa_aesIV) (draw_length (Params c)) i)) in *.
  assert (Hk : forall i, 0 < draw i < N) by (intros i; unfold draw, ecdsa_randFieldElement; pose proof (Z.mod_pos_bound (be_val (ctr_read (stream_key (big_Bytes d) entropy (sha256 data)) (string_bytes ecdsa_aesIV) (draw_length (Params c)) i)) (N - 1)); lia).
  destruct (sign_loop_total (ecdsa_try c e d) draw
    (fun rs => signature_range N rs /\ p256r1_Verify c (base c d) data rs.1 rs.2 = Ok None) n) with (fuel := fuel) as ([r s] & -> & Hs & Hv); [| |done|].
  - intros i. destruct (ecdsa_try_spec c e d (draw i) (Hk i)) as (o & E & _ & Ho). exists o. split; [done|]. intros [r s] Eo.
    destruct (Ho _ Eo) as (E1 & E2 & E3). split; [done|]. cbn [fst snd] in *. apply (ecdsa_verify c d (draw i)); [done..|by rewrite E1].
  - destruct (ecdsa_try_spec c e d (draw n) (Hk n)) as (o & E & Hn & _). rewrite E. intros [= Ho]. apply Hn in Ho as [Ho|Ho]; by destruct Hg.
  - exists r, s. split; [reflexivity|]. exact (conj Hs Hv).
Qed.
End Signing.

Lemma generated_keys alg c random b : algSet alg = Some c -> CurveLaws c -> random (draw_length (Params c)) = Some b ->
  exists priKey, crypto_GenKeyPair alg random = Ok (priKey, public_key c priKey, None) /\
    wf_bytes priKey /\ 0 < be_val priKey < (if SM2 =? AlgChoice alg then curveN c - 1 else curveN c).
Proof.
  intros Ec L Hb. pose proof (proj1 (law_order (c := c))) as HN. unfold crypto_GenKeyPair, sm2_GenKeyPair, p256r1_GenKeyPair. rewrite Ec, Hb.
  set (k := if SM2 =? AlgChoice alg then sm2_randFieldElement c b else ecdsa_randFieldElement c b).
  exists (big_Bytes k). unfold public_key. rewrite be_val_big_Bytes. split; [|split; [apply wf_big_Bytes|]].
  - assert (0 < k) by (unfold k, sm2_randFieldElement, ecdsa_randFieldElement; destruct (_ =? _); [pose proof (Z.mod_pos_bound (be_val b) (curveN c - 1 - 1))|pose proof (Z.mod_pos_bound (be_val b) (curveN c - 1))]; lia).
    rewrite Z.abs_eq by lia. unfold k, base. destruct (SM2 =? AlgChoice alg); by destruct (ScalarBaseMult c _).
  - unfold k, sm2_randFieldElement, ecdsa_randFieldElement.
    destruct (SM2 =? AlgChoice alg); [pose proof (Z.mod_pos_bound (be_val b) (curveN c - 1 - 1))|pose proof (Z.mod_pos_bound (be_val b) (curveN c - 1))]; lia.
Qed.

(** A signature is made, and accepted under the key it was made with. *)
Lemma sign_accepts `{IRandom} (RL : IRandomLaws) (alg : AlgSet) (c : Curve) (random : nat -> option bytes)
    (entropy priKey data : bytes) (n fuel : nat) :
  algSet alg = Some c -> CurveLaws c ->
  wf_bytes priKey -> 0 < be_val priKey < (if SM2 =? AlgChoice alg then curveN c - 1 else curveN c) ->
  random (Z.to_nat (entropyLen (Params c))) = Some entropy ->
  good_nonce alg c (be_val priKey) data (candidate alg c entropy priKey data n) -> (n < fuel)%nat ->
  exists sg, crypto_Sign alg fuel random priKey data = Some (Ok (sg, None)) /\ length sg = 64%nat /\
    crypto_Verify alg (public_key c priKey) data sg = Ok None /\
    forall primes key, DecodePoint (ecc_alg (Params c)) primes (Some key) = Ok (Some (public_key c priKey), None) ->
      ECDsaCrypto alg primes data sg key = true.
Proof.
  intros Ec L Hw Hd Hr Hg Hf. pose proof (proj2 (law_order (c := c))) as HN.
  assert (exists r s, (if SM2 =? AlgChoice alg then sm2_Sign fuel c random priKey data else p256r1_Sign fuel c random priKey data) = Some (Ok (Some (r, s), None)) /\
    signature_range (curveN c) (r, s) /\ (if SM2 =? AlgChoice alg then sm2_Verify c (Some (base c (be_val priKey))) data r s else p256r1_Verify c (base c (be_val priKey)) data r s) = Ok None)
    as (r & s & Es & [Rr Rs] & Ev).
  { destruct (SM2 =? AlgChoice alg) eqn:Ea; [by apply (sm2_sign alg c random entropy priKey data n fuel)|by apply (ecdsa_sign alg c random entropy priKey data n fuel)]. }
  cbn [fst snd] in *. exists (be_bytes 32 r ++ be_bytes 32 s).
  assert (V : crypto_Verify alg (public_key c priKey) data (be_bytes 32 r ++ be_bytes 32 s) = Ok None).
  { unfold public_key. rewrite (Verify_layout alg c) by (done || lia). exact Ev. }
  split; [|split; [by rewrite length_app, !length_be_bytes|split; [exact V|]]].
  - unfold crypto_Sign. rewrite Ec, Es. cbn [mbind option_bind]. by rewrite layout_spec by lia.
  - intros primes key Ek. unfold ECDsaCrypto, ECDsa_VerifySignature. by rewrite Ec, Ek, V.
Qed.

(** C3: A key in the range of [GenKeyPair] signs, under either algorithm, on
    any curve whose base point has prime order: when one of the first candidates
    drawn makes neither number of the signature zero, the loop ends within that
    many draws with a signature of 64 bytes, which [Verify] accepts under the
    public key, and so does the virtual machine's check under any encoding that
    decodes to it.  [GenKeyPair] makes such a key pair of any bytes it reads. *)
Theorem signature_verifies `{IRandom} (RL : IRandomLaws) (alg : AlgSet) (c : Curve) (random : nat -> option bytes)
    (entropy b priKey data : bytes) (n fuel : nat) :
  algSet alg = Some c -> CurveLaws c -> random (draw_length (Params c)) = Some b ->
  wf_bytes priKey -> 0 < be_val priKey < (if SM2 =? AlgChoice alg then curveN c - 1 else curveN c) ->
  random (Z.to_nat (entropyLen (Params c))) = Some entropy ->
  good_nonce alg c (be_val priKey) data (candidate alg c entropy priKey data n) -> (n < fuel)%nat ->
  (exists sg, crypto_Sign alg fuel random priKey data = Some (Ok (sg, None)) /\ length sg = 64%nat /\
     crypto_Verify alg (public_key c priKey) data sg = Ok None /\
     forall primes key, DecodePoint (ecc_alg (Params c)) primes (Some key) = Ok (Some (public_key c priKey), None) ->
       ECDsaCrypto alg primes data sg key = true) /\
  exists newKey, crypto_GenKeyPair alg random = Ok (newKey, public_key c newKey, None) /\
    wf_bytes newKey /\ 0 < be_val newKey < (if SM2 =? AlgChoice alg then curveN c - 1 else curveN c).
Proof.
  intros Ec L Hb Hw Hd Hr Hg Hf. split; [by apply (sign_accepts RL alg c random entropy priKey data n)|by apply (generated_keys alg c random b)].
Qed.

(** A stream of candidates that counts, on the small group. *)
Definition sample_random : IRandom := {| sha512 _ := replicate 64 0; ctr_read _ _ _ i := [Z.of_nat i] |}.
Definition sample_alg (choice : Z) : AlgSet := mkAlgSet choice (Some toy_curve).
Definition sample_bytes (n : nat) : option bytes := Some (replicate n 7).
Definition good_nonceb (alg : AlgSet) (c : Curve) (d : Z) (data : bytes) (k : Z) : bool :=
  let x := (base c k).1 in
  if SM2 =? AlgChoice alg then
    let r := (x + sm2_hash c d data) mod curveN c in negb (r =? 0) && negb ((k - d * r) mod curveN c =? 0)
  else
    let r := x mod curveN c in negb (r =? 0) && negb ((d * r + ecdsa_hashToInt c (sha256 data)) mod curveN c =? 0).
Lemma good_nonceb_spec alg c d data k : good_nonceb alg c d data k = true -> good_nonce alg c d data k.
Proof.
  unfold good_nonceb, good_nonce. destruct (SM2 =? AlgChoice alg); rewrite andb_true_iff, !negb_true_iff, !Z.eqb_neq; done.
Qed.

(** Both algorithms sign on the small group, with the key 2. *)
Lemma signature_verifies_witness :
  exists sg, crypto_Sign (H := sample_random) (sample_alg SM2) 4 sample_bytes [2] [1; 2; 3] = Some (Ok (sg, None)) /\
    ECDsaCrypto (sample_alg SM2) [] [1; 2; 3] sg (default [] (fst <$> EncodePoint (public_key toy_curve [2]) true)) = true /\
    exists sg', crypto_Sign (H := sample_random) (sample_alg P256R1) 4 sample_bytes [2] [1; 2; 3] = Some (Ok (sg', None)) /\
      ECDsaCrypto (sample_alg P256R1) [] [1; 2; 3] sg' (default [] (fst <$> EncodePoint (public_key toy_curve [2]) true)) = true.
Proof.
  assert (RL : @IRandomLaws sample_random) by (intros b; reflexivity).
  assert (Hk : DecodePoint (ecc_alg (Params toy_curve)) [] (Some (default [] (fst <$> EncodePoint (public_key toy_curve [2]) true))) = Ok (Some (public_key toy_curve [2]), None))
    by (vm_compute; reflexivity).
  assert (Hw : wf_bytes [2]) by (repeat constructor; lia).
  assert (Hc : forall a, a = SM2 \/ a = P256R1 -> exists n, (n < 4)%nat /\
    good_nonce (sample_alg a) toy_curve (be_val [2]) [1; 2; 3] (candidate (H := sample_random) (sample_alg a) toy_curve (replicate 16 7) [2] [1; 2; 3] n)).
  { intros a [-> | ->]; [exists 1%nat|exists 0%nat]; (split; [lia|]; apply good_nonceb_spec; vm_compute; reflexivity). }
  destruct (Hc SM2 (or_introl eq_refl)) as (n & Hn & Hg).
  destruct (signature_verifies (H := sample_random) RL (sample_alg SM2) toy_curve sample_bytes (replicate 16 7) (replicate 40 7) [2] [1; 2; 3] n 4
    eq_refl toy_laws eq_refl Hw (conj eq_refl eq_refl) eq_refl Hg Hn) as [(sg & Es & _ & _ & Hv) _].
  exists sg. split; [exact Es|]. split; [exact (Hv _ _ Hk)|].
  destruct (Hc P256R1 (or_intror eq_refl)) as (n' & Hn' & Hg').
  destruct (signature_verifies (H := sample_random) RL (sample_alg P256R1) toy_curve sample_bytes (replicate 16 7) (replicate 40 7) [2] [1; 2; 3] n' 4
    eq_refl toy_laws eq_refl Hw (conj eq_refl eq_refl) eq_refl Hg' Hn') as [(sg' & Es' & _ & _ & Hv') _].
  exists sg'. split; [exact Es'|exact (Hv' _ _ Hk)].
Defined.

(** * helper.go: padding to whole blocks *)

Definition PKCS5Padding (src : bytes) (blockSize : Z) : bytes :=
  let padding := blockSize - Z.of_nat (length src) mod blockSize in
  src ++ replicate (Z.to_nat padding) (uint8 padding).
(** [None]: an index or a slice out of range. *)
Definition PKCS5UnPadding (src : bytes) : option bytes :=
  unpadding ← src !! (length src - 1)%nat;
  let n := Z.of_nat (length src) - unpadding in
  if (0 <=? n) && (n <=? Z.of_nat (length src)) then Some (take (Z.to_nat n) src) else None.
Lemma PKCS5_roundtrip src blockSize : 0 < blockSize < 256 ->
  PKCS5UnPadding (PKCS5Padding src blockSize) = Some src /\ Z.of_nat (length (PKCS5Padding src blockSize)) mod blockSize = 0.
Proof.
  intros Hb. unfold PKCS5UnPadding, PKCS5Padding. pose proof (Z.mod_pos_bound (Z.of_nat (length src)) blockSize ltac:(lia)).
  set (p := blockSize - Z.of_nat (length src) mod blockSize). assert (0 < p < 256) by lia.
  assert (E : (src ++ replicate (Z.to_nat p) (uint8 p)) !! (length (src ++ replicate (Z.to_nat p) (uint8 p)) - 1)%nat = Some p).
  { rewrite length_app, length_replicate, lookup_app_r by lia. rewrite lookup_replicate_2 by lia. unfold wrapU. by rewrite Z.mod_small by lia. }
  rewrite E. cbn [mbind option_bind]. rewrite length_app, length_replicate. split.
  - rewrite (proj2 (Z.leb_le 0 _)), (proj2 (Z.leb_le _ _)) by lia. cbn [andb]. f_equal. apply take_app_length'. lia.
  - rewrite Nat2Z.inj_add, Z2Nat.id by lia. apply Z.mod_divide; [lia|]. exists (Z.of_nat (length src) / blockSize + 1).
    pose proof (Z.div_mod (Z.of_nat (length src)) blockSize ltac:(lia)). unfold p. lia.
Qed.
