(* ===== verification/Expressions.v ===== *)
(** Arithmetic on the virtual machine: scripts compiled from expressions compute
    their values, and what the in-place arithmetic of [vm/common.go] does to
    copies of an operand. *)

From S2P Require Import Prelude Sha256 Serialization Common Vm.

(** * Expressions and their scripts *)

Inductive unary_op := Invert | Inc | Dec | Sal | Sar | Negate | Abs.
Inductive binary_op := And | Or | Xor | Add | Sub | Mul | Div | Mod | Shl | Shr | Min | Max.
Definition unary_code (o : unary_op) : Z :=
  match o with Invert => 0x83 | Inc => 0x8B | Dec => 0x8C | Sal => 0x8D | Sar => 0x8E | Negate => 0x8F | Abs => 0x90 end.
Definition binary_code (o : binary_op) : Z :=
  match o with
  | And => 0x84 | Or => 0x85 | Xor => 0x86 | Add => 0x93 | Sub => 0x94 | Mul => 0x95 | Div => 0x96 | Mod => 0x97 | Shl => 0x98 | Shr => 0x99
  | Min => 0xA3 | Max => 0xA4
  end.
Inductive expr :=
  | Num (n : Z)
  | Data (b : bytes)
  | Un (o : unary_op) (a : expr)
  | Bin (o : binary_op) (a b : expr).

Fixpoint wf_expr (x : expr) : bool :=
  match x with
  | Num n => (1 <=? n) && (n <=? 16)
  | Data b => (1 <=? Z.of_nat (length b)) && (Z.of_nat (length b) <=? 75)
  | Un _ a => wf_expr a
  | Bin _ a b => wf_expr a && wf_expr b
  end.
(** Operands first, in order, then the opcode. *)
Fixpoint script (x : expr) : bytes :=
  match x with
  | Num n => [0x50 + n]
  | Data b => Z.of_nat (length b) :: b
  | Un o a => script a ++ [unary_code o]
  | Bin o a b => script a ++ script b ++ [binary_code o]
  end.
Fixpoint opcodes (x : expr) : Z :=
  match x with Num _ | Data _ => 1 | Un _ a => opcodes a + 1 | Bin _ a b => opcodes a + opcodes b + 1 end.

(** The meaning of the operations, on integers. *)
Definition unary_value (o : unary_op) (v : Z) : Z :=
  match o with
  | Invert => - v - 1 | Inc => v + 1 | Dec => v - 1 | Sal => 2 * v | Sar => v / 2 | Negate => - v | Abs => Z.max v (- v)
  end.
(** The quotient whose remainder is not negative. *)
Definition quotient (v w : Z) : Z := if 0 <? w then v / w else - (v / - w).
Definition remainder (v w : Z) : Z := v - w * quotient v w.
Lemma remainder_range v w : w <> 0 -> 0 <= remainder v w < Z.abs w.
Proof.
  intros Hw. unfold remainder, quotient. destruct (Z.ltb_spec 0 w).
  - pose proof (Z.mod_pos_bound v w). rewrite Z.mod_eq in * by lia. lia.
  - pose proof (Z.mod_pos_bound v (- w)). rewrite Z.mod_eq in * by lia. lia.
Qed.
Definition binary_value (o : binary_op) (v w : Z) : outcome Z :=
  match o with
  | And => Ok (Z.land v w) | Or => Ok (Z.lor v w) | Xor => Ok (Z.lxor v w)
  | Add => Ok (v + w) | Sub => Ok (v - w) | Mul => Ok (v * w)
  | Div => if w =? 0 then Panic else Ok (quotient v w)
  | Mod => if w =? 0 then Panic else Ok (remainder v w)
  | Shl => if v =? 0 then Ok 0 else if 2 ^ 32 <? w mod 2 ^ 64 then Unmodelled else Ok (v * 2 ^ (w mod 2 ^ 64))
  | Shr => Ok (v / 2 ^ (w mod 2 ^ 64))
  | Min => Ok (Z.min v w) | Max => Ok (Z.max v w)
  end.
Fixpoint value (x : expr) : outcome Z :=
  match x with
  | Num n => Ok n
  | Data b => Ok (be_val b)
  | Un o a => match value a with Ok v => Ok (unary_value o v) | r => r end
  | Bin o a b => match value a with Ok v => match value b with Ok w => binary_value o v w | r => r end | r => r end
  end.

(** What the code computes under an opcode. *)
Definition unary (op : Z) : bool := (op =? 0x83) || ((0x8B <=? op) && (op <=? 0x90)).
Definition binary (op : Z) : bool := ((0x84 <=? op) && (op <=? 0x86)) || ((0x93 <=? op) && (op <=? 0x99)) || (op =? 0xA3) || (op =? 0xA4).
Definition un_result (op v : Z) : Z := if op =? 0x83 then Z.lnot v else BigIntOp v op.
Definition bin_result (op v w : Z) : outcome Z :=
  if op =? 0xA3 then Ok (Z.min v w) else if op =? 0xA4 then Ok (Z.max v w) else BigIntZip v w op.
Lemma unary_code_ok o : unary (unary_code o) = true.
Proof. by destruct o. Qed.
Lemma binary_code_ok o : binary (binary_code o) = true.
Proof. by destruct o. Qed.
Lemma unary_meaning o v : un_result (unary_code o) v = unary_value o v.
Proof.
  destruct o; cbn; [unfold Z.lnot; lia|lia|lia|rewrite Z.shiftl_mul_pow2; lia|by rewrite Z.shiftr_div_pow2|lia|lia].
Qed.
Lemma shift_amount w : uint64 (int64 w) = w mod 2 ^ 64.
Proof. unfold wrapU. apply wrapS_mod. Qed.
Lemma Rsh_div v s : 0 <= s -> big_Rsh v s = v / 2 ^ s.
Proof.
  intros Hs. unfold big_Rsh. destruct (Z.ltb_spec (Z.log2 (Z.abs v)) s) as [L|L]; [|by apply Z.shiftr_div_pow2].
  destruct (Z.eq_dec v 0) as [->|Hv]; [by rewrite Z.div_0_l by lia|].
  assert (B : Z.abs v < 2 ^ s) by (apply Z.log2_lt_pow2; lia).
  destruct (Z.ltb_spec v 0) as [N|N]; [|by rewrite Z.div_small by lia].
  apply (Z.div_unique v (2 ^ s) (-1) (v + 2 ^ s)); lia.
Qed.
Lemma Div_quotient v w : big_Div v w = if w =? 0 then Panic else Ok (quotient v w).
Proof.
  unfold big_Div, quotient. destruct (Z.eqb_spec w 0); [done|]. f_equal. destruct (Z.ltb_spec 0 w).
  - rewrite Z.sgn_pos, Z.abs_eq by lia. lia.
  - rewrite Z.sgn_neg, Z.abs_neq by lia. lia.
Qed.
Lemma Mod_remainder v w : big_Mod v w = if w =? 0 then Panic else Ok (remainder v w).
Proof.
  unfold big_Mod, remainder, quotient. destruct (Z.eqb_spec w 0); [done|]. f_equal. rewrite Z.mod_eq by lia. destruct (Z.ltb_spec 0 w).
  - rewrite Z.abs_eq by lia. lia.
  - rewrite Z.abs_neq by lia. lia.
Qed.
Lemma binary_meaning o v w : bin_result (binary_code o) v w = binary_value o v w.
Proof.
  destruct o; cbn; try done.
  - apply Div_quotient.
  - apply Mod_remainder.
  - unfold BigIntZip. cbn. rewrite shift_amount. unfold big_Lsh. destruct (v =? 0); [done|]. destruct (2 ^ 32 <? w mod 2 ^ 64); [done|].
    rewrite Z.shiftl_mul_pow2; [done|]. apply Z.mod_pos_bound. lia.
  - unfold BigIntZip. cbn. rewrite shift_amount, Rsh_div; [done|]. apply Z.mod_pos_bound. lia.
Qed.

Lemma opcodes_pos x : 1 <= opcodes x.
Proof. induction x; cbn; lia. Qed.

(** * Identities below a bound *)

Definition leaf_above (n : nat) (i : StackItem) : bool := match i with Integer p w _ => (n <=? p)%nat || (n <=? w)%nat | _ => false end.
Definition below (n : nat) (l : list elem) : Prop := Forall (fun x => elem_occurs (leaf_above n) x = false) l.

(** An induction on items that goes into arrays. *)
Lemma item_ind (P : StackItem -> Prop) :
  (forall p w v, P (Integer p w v)) -> (forall b, P (Boolean b)) -> (forall a b, P (ByteArray a b)) ->
  (forall l, Forall (fun x => match x with Some i => P i | None => True end) l -> P (Array l)) -> forall i, P i.
Proof.
  intros HI HB HY HA. fix IH 1. intros [p w v|b|a b|l]; [apply HI|apply HB|apply HY|]. apply HA.
  induction l as [|[x|] l IHl]; [constructor|constructor; [apply IH|exact IHl]|constructor; [exact I|exact IHl]].
Qed.
Lemma occurs_weaken f g i : (forall j, f j = true -> g j = true) -> occurs g i = false -> occurs f i = false.
Proof.
  intros H. induction i as [p w v|b|a b|l IH] using item_ind; intros E; cbn in *; try (apply not_true_is_false; intros F; apply H in F; cbn in F; congruence).
  induction IH as [|[x|] l Hx Hl IH']; [done| |]; cbn in *; [|by apply IH']. apply orb_false_iff in E as [E1 E2]. rewrite Hx by done. by apply IH'.
Qed.
Lemma everywhere_same f g i : (forall j, f j = false -> g j = j) -> occurs f i = false -> everywhere g i = i.
Proof.
  intros H. induction i as [p w v|b|a b|l IH] using item_ind; intros E; cbn in *; try by apply H.
  f_equal. induction IH as [|[x|] l Hx Hl IH']; [done| |]; cbn in *; [|by rewrite IH']. apply orb_false_iff in E as [E1 E2]. by rewrite Hx, IH'.
Qed.
Lemma below_mono n m l : (n <= m)%nat -> below n l -> below m l.
Proof.
  intros Hm B. eapply list.Forall_impl; [exact B|]. intros [i| |] E; [|done..]. cbn in *. revert E. apply occurs_weaken.
  intros [p w v| | |]; [|done..]. cbn. rewrite !orb_true_iff, !Nat.leb_le. lia.
Qed.
Lemma below_unshared n p w l : (n <= w)%nat -> below n l -> existsb (elem_occurs (shares_words p w)) l = false.
Proof.
  intros Hw H. induction H as [|[i| |] l Hx Hl IH]; [done| |done|done]. cbn in *. rewrite IH, orb_false_r. revert Hx. apply occurs_weaken.
  intros [q v u| | |]; [|done..]. cbn. rewrite andb_true_iff, orb_true_iff, Nat.eqb_eq, !Nat.leb_le. lia.
Qed.
Lemma below_unchanged n p v l : (n <= p)%nat -> below n l -> map (elem_everywhere (set_big p v)) l = l.
Proof.
  intros Hp H. induction H as [|[i| |] l Hx Hl IH]; [done| |cbn; by rewrite IH|cbn; by rewrite IH]. cbn in *. rewrite IH. do 2 f_equal.
  apply (everywhere_same (leaf_above n)); [|done]. intros [q w u| | |] E; [|done..]. cbn in *. apply orb_false_iff in E as [E _]. apply Nat.leb_gt in E.
  destruct (Nat.eqb_spec q p); [lia|done].
Qed.

(** * Operands *)

(** The value of a new item: a number or bytes. *)
Inductive operand (lo hi : nat) (v : Z) : StackItem -> Prop :=
  | number_operand p w : (lo <= p < hi)%nat -> (lo <= w < hi)%nat -> operand lo hi v (Integer p w v)
  | bytes_operand a b : be_val b = v -> operand lo hi v (ByteArray a b).
Lemma operand_mono lo hi lo' hi' v i : (lo' <= lo)%nat -> (hi <= hi')%nat -> operand lo hi v i -> operand lo' hi' v i.
Proof. intros H1 H2 [p w Hp Hw|a b E]; constructor; lia || done. Qed.
Lemma operand_value lo hi v i : operand lo hi v i -> GetBigInteger i = Ok v.
Proof. intros [p w _ _|a b <-]; done. Qed.
Lemma operand_below lo hi v i : operand lo hi v i -> elem_occurs (leaf_above hi) (EItem i) = false.
Proof.
  intros [p w Hp Hw|a b _]; [|done]. cbn. apply orb_false_iff. rewrite !Nat.leb_gt. lia.
Qed.
Lemma below_snoc n l i lo v : below lo l -> (lo <= n)%nat -> operand lo n v i -> below n (l ++ [EItem i]).
Proof. intros H Hn O. apply Forall_app. split; [by apply (below_mono lo)|]. constructor; [by eapply operand_below|constructor]. Qed.

(** The engine with a new number pushed. *)
Definition pushed (e : Engine) (w : nat) (v : Z) : Engine :=
  with_stack (with_allocated e (S (allocated e))) (evaluationStack e ++ [EItem (Integer (allocated e) w v)]).
Lemma pop_big_operand e S lo hi v i : evaluationStack e = S ++ [EItem i] -> operand lo hi v i -> pop_big e = Ok ((big_ref i, v), with_stack e S).
Proof.
  intros E O. unfold pop_big, pop_item. unfold mbind, vm_bind. rewrite (pop_snoc e S _ E). cbn. by rewrite (operand_value _ _ _ _ O).
Qed.
Lemma push_big_operand e lo hi v u i : operand lo hi u i -> (lo <= hi <= allocated e)%nat ->
  exists w, (lo <= w <= allocated e)%nat /\ push_big (big_ref i) v e = Ok ((NONE, None), pushed e w v).
Proof. intros [p w Hp Hw|a b _] Ha; [exists w|exists (allocated e)]; (split; [lia|reflexivity]). Qed.
Lemma assign_operand e lo hi v u i : operand lo hi u i -> (lo <= hi <= allocated e)%nat -> below lo (evaluationStack e) -> below lo (altStack e) ->
  exists w, (lo <= w <= allocated e)%nat /\ assign (big_ref i) v e = Ok ((NONE, None), pushed e w v).
Proof.
  intros [p w Hp Hw|a b _] Ha Bs Ba; [exists w|exists (allocated e); split; [lia|reflexivity]]. split; [lia|].
  cbn [big_ref assign]. unfold mbind, vm_bind, get, modify. rewrite (below_unshared lo) by (lia || by apply Forall_app).
  assert (Es : set_live p v e = e).
  { unfold set_live. rewrite !(below_unchanged lo) by (done || lia). by destruct e. }
  rewrite Es. reflexivity.
Qed.
Lemma operands_apart lo m hi v1 v2 i1 i2 : operand lo m v1 i1 -> operand m hi v2 i2 -> overlap (big_ref i1) (big_ref i2) = false.
Proof.
  intros [p w Hp Hw|a b _] [p' w' Hp' Hw'|a' b' _]; try done. cbn. destruct (Nat.eqb_spec w w'); [lia|done].
Qed.

(** * Running a script *)

Section Run.
Context `{crypto : ICrypto} (message : bytes).

(** [e] is about to run [r], with [k] opcodes within the limit and every number
    it can reach known to the allocator. *)
Definition ready (r : bytes) (k : Z) (e : Engine) : Prop :=
  OpReader (context e) = r /\ PushOnly (context e) = false /\ 0 <= opCount e /\ opCount e + k <= maxSteps e /\
  below (allocated e) (evaluationStack e) /\ below (allocated e) (altStack e).
(** What is left alone. *)
Definition kept (e e' : Engine) : Prop :=
  state e' = state e /\ invocationStack e' = invocationStack e /\ maxSteps e' = maxSteps e /\ altStack e' = altStack e /\ (allocated e <= allocated e')%nat.
Lemma kept_trans e1 e2 e3 : kept e1 e2 -> kept e2 e3 -> kept e1 e3.
Proof. intros (S1 & I1 & M1 & A1 & L1) (S2 & I2 & M2 & A2 & L2). repeat split; congruence || lia. Qed.

(** A script that leaves one more item with the value [v] on the stack. *)
Definition yields (r : bytes) (k : Z) (v : Z) : Prop := forall e rest k' fuel, 0 <= k' -> ready (r ++ rest) (k + k') e -> (length (r ++ rest) < fuel)%nat ->
  exists e' fuel' i, step_loop message fuel e = step_loop message fuel' e' /\ (length rest < fuel')%nat /\ ready rest k' e' /\ kept e e' /\
    evaluationStack e' = evaluationStack e ++ [EItem i] /\ operand (allocated e) (allocated e') v i.
Definition panics (r : bytes) (k : Z) : Prop := forall e rest k' fuel, 0 <= k' -> ready (r ++ rest) (k + k') e -> (length (r ++ rest) < fuel)%nat ->
  step_loop message fuel e = Panic.

Lemma yields_push r v : forall k, k = 1 ->
  (forall e rest fuel, OpReader (context e) = r ++ rest -> exists i e1, operand (allocated e) (S (allocated e)) v i /\
    step_loop message (S fuel) e = step_loop message fuel (with_stack (with_allocated e1 (S (allocated e))) (Push (evaluationStack e) (EItem i))) /\
    OpReader (context e1) = rest /\ PushOnly (context e1) = PushOnly (context e) /\ opCount e1 = opCount e + 1 /\ maxSteps e1 = maxSteps e /\
    state e1 = state e /\ invocationStack e1 = invocationStack e /\ altStack e1 = altStack e) ->
  (1 <= length r)%nat -> yields r k v.
Proof.
  intros k -> H Hr e rest k' [|fuel] Hk (Er & Ep & Ec & Em & Bs & Ba) Hf; [lia|].
  destruct (H e rest fuel Er) as (i & e1 & O & E & E1 & E2 & E3 & E4 & E5 & E6 & E7). rewrite length_app in Hf.
  exists (with_stack (with_allocated e1 (S (allocated e))) (Push (evaluationStack e) (EItem i))), fuel, i.
  split; [exact E|]. split; [lia|]. split.
  - unfold ready, Push. cbn. rewrite E1, E2, E3, E4, E7. repeat split; try done; try lia; [by apply (below_snoc _ _ _ (allocated e) v); [done|lia|]|].
    apply (below_mono (allocated e)); [lia|done].
  - split; [unfold kept; cbn; rewrite E4, E5, E6, E7; repeat split; lia|]. done.
Qed.
Lemma yields_number n : 1 <= n <= 16 -> yields [0x50 + n] 1 n.
Proof.
  intros Hn. apply yields_push; [done| |cbn; lia]. intros e rest fuel Er. exists (Integer (allocated e) (allocated e) n), (with_op (ticked e rest) (context (ticked e rest)) (0x50 + n)).
  split; [constructor; lia|]. split; [by apply step_loop_number|done].
Qed.
Lemma yields_data b : 1 <= Z.of_nat (length b) <= 75 -> yields (Z.of_nat (length b) :: b) 1 (be_val b).
Proof.
  intros Hb. apply yields_push; [done| |cbn; lia]. intros e rest fuel Er. exists (ByteArray (allocated e) b), (ticked e rest).
  split; [by constructor|]. split; [by apply (step_loop_push message fuel e (Z.of_nat (length b)) b rest)|done].
Qed.

(** An arithmetic opcode on operands: what its operation does to the engine that
    has read it. *)
Definition at_op (e : Engine) (op : Z) (rest : bytes) : Engine := with_op (ticked e rest) (context (ticked e rest)) op.
Lemma step_operation fuel e op rest exec e2 : 0x60 < op -> OpExecList message op = Some exec -> OpReader (context e) = op :: rest ->
  PushOnly (context e) = false -> opCount e + 1 <= maxSteps e ->
  (exec (at_op e op rest) = Ok ((NONE, None), e2) -> step_loop message (S fuel) e = step_loop message fuel e2) /\
  (exec (at_op e op rest) = Panic -> step_loop message (S fuel) e = Panic).
Proof.
  intros Ho Et Er Ep Ec. rewrite (step_loop_cons message fuel e op rest) by done.
  rewrite (ExecuteOp_table message op (ticked e rest) exec) by (done || cbn; lia || (left; cbn; done || lia)).
  split; intros E; unfold at_op in E; rewrite E; reflexivity.
Qed.
(** The number an opcode pushes in place of its operands. *)
Lemma pushed_ready e e1 rest k w v lo : ready rest k e1 -> (allocated e1 = allocated e) -> (lo <= w <= allocated e)%nat -> (lo <= allocated e)%nat ->
  below lo (evaluationStack e1) -> below lo (altStack e1) -> ready rest k (pushed e1 w v) /\ operand lo (S (allocated e)) v (Integer (allocated e1) w v).
Proof.
  intros (Er & Ep & Ec & Em & Bs & Ba) Ea Hw Hlo Bs1 Ba1. split; [|rewrite Ea; constructor; lia].
  unfold ready, pushed. cbn. repeat split; try done.
  - apply (below_snoc _ _ _ lo v); [done|lia|]. constructor; lia.
  - apply (below_mono lo); [lia|done].
Qed.
Lemma un_exec op e S i lo hi v : unary op = true -> opCode e = op -> evaluationStack e = S ++ [EItem i] -> operand lo hi v i ->
  (lo <= hi <= allocated e)%nat -> below lo S -> below lo (altStack e) ->
  exists exec w, OpExecList message op = Some exec /\ (lo <= w <= allocated e)%nat /\ exec e = Ok ((NONE, None), pushed (with_stack e S) w (un_result op v)).
Proof.
  intros Hu Ho ES O Ha Bs Ba. unfold unary in Hu. destruct (assign_operand (with_stack e S) lo hi (un_result op v) v i O Ha Bs Ba) as (w & Hw & Ew).
  assert (Hc : (Count (S ++ [EItem i]) <? 1) = false) by (apply Z.ltb_ge; unfold Count; rewrite length_app; cbn; lia).
  assert (D : op = 0x83 \/ 0x8B <= op <= 0x90) by lia. destruct D as [->|D].
  - exists opInvert, w. split; [reflexivity|]. split; [done|].
    unfold opInvert, need, mbind, vm_bind. rewrite count_eq, ES, Hc, (pop_big_operand e S _ _ _ _ ES O). exact Ew.
  - exists opBigInt, w. split; [|split; [done|]].
    + assert (H : op ∈ seqZ 0x8B 6) by (apply elem_of_seqZ; lia). clear -H. revert op H.
      apply (list.Forall_forall (fun op => OpExecList message op = Some opBigInt)). repeat constructor.
    + unfold opBigInt, need, mbind, vm_bind. rewrite count_eq, ES, Hc, (pop_big_operand e S _ _ _ _ ES O). unfold get. cbn [opCode with_stack]. rewrite Ho.
      unfold un_result in Ew |- *. destruct (Z.eqb_spec op 0x83); [lia|exact Ew].
Qed.
Lemma binary_table op : binary op = true -> OpExecList message op = Some opBigIntZip.
Proof.
  unfold binary. intros Hb. assert (H : op ∈ seqZ 0x84 3 ++ seqZ 0x93 7 ++ [0xA3; 0xA4]).
  { rewrite !elem_of_app, !elem_of_seqZ, !elem_of_cons. lia. }
  clear -H. revert op H. apply (list.Forall_forall (fun op => OpExecList message op = Some opBigIntZip)). repeat constructor.
Qed.
Lemma bin_exec op e S i1 i2 lo m hi v1 v2 : binary op = true -> opCode e = op -> evaluationStack e = S ++ [EItem i1; EItem i2] ->
  operand lo m v1 i1 -> operand m hi v2 i2 -> (lo <= m <= hi)%nat -> (hi <= allocated e)%nat -> below lo S -> below lo (altStack e) ->
  match bin_result op v1 v2 with
  | Ok v => exists w, (lo <= w <= allocated e)%nat /\ opBigIntZip e = Ok ((NONE, None), pushed (with_stack e S) w v)
  | Panic => opBigIntZip e = Panic
  | Unmodelled => True
  end.
Proof.
  intros Hb Ho ES O1 O2 Hm Ha Bs Ba.
  assert (Hc : (Count (evaluationStack e) <? 2) = false) by (apply Z.ltb_ge; unfold Count; rewrite ES, length_app; cbn; lia).
  assert (P2 : pop_big e = Ok ((big_ref i2, v2), with_stack e (S ++ [EItem i1]))) by (eapply pop_big_operand; [|exact O2]; by rewrite <- app_assoc).
  assert (P1 : pop_big (with_stack e (S ++ [EItem i1])) = Ok ((big_ref i1, v1), with_stack e S)) by exact (pop_big_operand (with_stack e (S ++ [EItem i1])) S _ _ _ _ eq_refl O1).
  assert (E : opBigIntZip e =
    (if op =? 0xA3 then (if v1 <=? v2 then push_big (big_ref i1) v1 else push_big (big_ref i2) v2)
     else if op =? 0xA4 then (if v1 <=? v2 then push_big (big_ref i2) v2 else push_big (big_ref i1) v1)
     else v ← lift (BigIntZip v1 v2 op); assign (big_ref i1) v) (with_stack e S)).
  { unfold opBigIntZip, need. unfold mbind at 1, vm_bind at 1. rewrite count_eq, Hc. unfold mbind at 1, vm_bind at 1. rewrite P2. unfold mbind at 1, vm_bind at 1. rewrite P1.
    unfold mbind at 1, vm_bind at 1, get at 1. cbn [opCode with_stack]. by rewrite Ho, (operands_apart _ _ _ _ _ _ _ O1 O2). }
  rewrite E. unfold bin_result.
  assert (Q1 : exists w, (lo <= w <= allocated e)%nat /\ push_big (big_ref i1) v1 (with_stack e S) = Ok ((NONE, None), pushed (with_stack e S) w v1))
    by (eapply (push_big_operand (with_stack e S)); [exact O1|cbn; lia]).
  assert (Q2 : exists w, (lo <= w <= allocated e)%nat /\ push_big (big_ref i2) v2 (with_stack e S) = Ok ((NONE, None), pushed (with_stack e S) w v2)).
  { destruct (push_big_operand (with_stack e S) m hi v2 v2 i2 O2) as (w & Hw & Ew); [cbn; lia|]. exists w. split; [cbn in Hw; lia|exact Ew]. }
  destruct (op =? 0xA3); [destruct (Z.leb_spec v1 v2); [rewrite Z.min_l by lia|rewrite Z.min_r by lia]; done|].
  destruct (op =? 0xA4); [destruct (Z.leb_spec v1 v2); [rewrite Z.max_r by lia|rewrite Z.max_l by lia]; done|].
  destruct (BigIntZip v1 v2 op) as [v| |]; [|reflexivity|done]. unfold mbind, vm_bind, lift.
  eapply (assign_operand (with_stack e S)); [exact O1|cbn; lia|done|done].
Qed.

Lemma yields_un op r k v : unary op = true -> yields r k v -> yields (r ++ [op]) (k + 1) (un_result op v).
Proof.
  intros Hu Y e rest k' fuel Hk R Hf. rewrite <- app_assoc in R, Hf. cbn [app] in R, Hf. rewrite <- Z.add_assoc in R.
  destruct (Y e (op :: rest) (1 + k') fuel ltac:(lia) R Hf) as (e1 & [|f1] & i & E1 & F1 & (Er & Ep & Ec & Em & Bs & Ba) & K1 & V1 & O1); [cbn in F1; lia|].
  cbn [length] in F1. destruct K1 as (Ks & Ki & Km & Ka & Kl). destruct R as (_ & _ & _ & _ & Bs0 & Ba0).
  destruct (un_exec op (at_op e1 op rest) (evaluationStack e) i (allocated e) (allocated e1) v Hu eq_refl V1 O1) as (exec & w & Et & Hw & Ew); [cbn; lia|done|cbn; by rewrite Ka|].
  assert (Ho : 0x60 < op) by (unfold unary in Hu; lia).
  pose proof (proj1 (step_operation f1 e1 op rest exec _ Ho Et Er Ep ltac:(lia)) Ew) as Es.
  set (e2 := with_stack (at_op e1 op rest) (evaluationStack e)) in *.
  assert (R2 : ready rest k' e2).
  { unfold ready, e2. cbn. rewrite Ka. repeat split; try done; try lia; by apply (below_mono (allocated e)). }
  destruct (pushed_ready e1 e2 rest k' w (un_result op v) (allocated e) R2 eq_refl Hw Kl) as [R3 O3]; [done|cbn; by rewrite Ka|].
  exists (pushed e2 w (un_result op v)), f1, (Integer (allocated e2) w (un_result op v)). split; [by rewrite E1|]. split; [lia|]. split; [exact R3|].
  split; [unfold kept, pushed, e2; cbn; repeat split; congruence || lia|]. split; [reflexivity|exact O3].
Qed.

(** Both operands on the stack, before the opcode. *)
Lemma two_operands r1 k1 v1 r2 k2 v2 op e rest k' fuel : yields r1 k1 v1 -> yields r2 k2 v2 -> 0 <= k2 -> 0 <= k' ->
  ready ((r1 ++ r2 ++ [op]) ++ rest) (k1 + k2 + 1 + k') e -> (length ((r1 ++ r2 ++ [op]) ++ rest) < fuel)%nat ->
  exists e2 f2 i1 i2 m, step_loop message fuel e = step_loop message (S f2) e2 /\ (length rest < f2)%nat /\ ready (op :: rest) (1 + k') e2 /\ kept e e2 /\
    evaluationStack e2 = evaluationStack e ++ [EItem i1; EItem i2] /\ operand (allocated e) m v1 i1 /\ operand m (allocated e2) v2 i2 /\
    (allocated e <= m <= allocated e2)%nat.
Proof.
  intros Y1 Y2 Hk2 Hk R Hf. rewrite <- !app_assoc in R, Hf. cbn [app] in R, Hf. replace (k1 + k2 + 1 + k') with (k1 + (k2 + (1 + k'))) in R by lia.
  destruct (Y1 e (r2 ++ op :: rest) (k2 + (1 + k')) fuel ltac:(lia) R Hf) as (e1 & f1 & i1 & E1 & F1 & R1 & K1 & V1 & O1).
  destruct (Y2 e1 (op :: rest) (1 + k') f1 ltac:(lia) R1 F1) as (e2 & [|f2] & i2 & E2 & F2 & R2 & K2 & V2 & O2); [cbn in F2; lia|].
  exists e2, f2, i1, i2, (allocated e1). cbn [length] in F2. split; [by rewrite E1|]. split; [lia|]. split; [done|]. split; [by eapply kept_trans|].
  rewrite V2, V1, <- app_assoc. cbn [app]. split; [done|]. split; [done|]. split; [done|]. destruct K1 as (_ & _ & _ & _ & L1), K2 as (_ & _ & _ & _ & L2). lia.
Qed.
Lemma yields_bin op r1 k1 v1 r2 k2 v2 : binary op = true -> yields r1 k1 v1 -> yields r2 k2 v2 -> 0 <= k2 ->
  match bin_result op v1 v2 with
  | Ok v => yields (r1 ++ r2 ++ [op]) (k1 + k2 + 1) v
  | Panic => panics (r1 ++ r2 ++ [op]) (k1 + k2 + 1)
  | Unmodelled => True
  end.
Proof.
  intros Hb Y1 Y2 Hk2. assert (Ho : 0x60 < op) by (unfold binary in Hb; lia). pose proof (binary_table op Hb) as Et.
  assert (X : forall e rest k' fuel, 0 <= k' -> ready ((r1 ++ r2 ++ [op]) ++ rest) (k1 + k2 + 1 + k') e -> (length ((r1 ++ r2 ++ [op]) ++ rest) < fuel)%nat ->
    match bin_result op v1 v2 with
    | Ok v => exists e2 f2 w, step_loop message fuel e = step_loop message f2 (pushed e2 w v) /\ (length rest < f2)%nat /\ ready rest k' e2 /\ kept e e2 /\
        evaluationStack e2 = evaluationStack e /\ (allocated e <= w <= allocated e2)%nat
    | Panic => step_loop message fuel e = Panic
    | Unmodelled => True
    end).
  { intros e rest k' fuel Hk R Hf.
    destruct (two_operands r1 k1 v1 r2 k2 v2 op e rest k' fuel Y1 Y2 Hk2 Hk R Hf) as (e2 & f2 & i1 & i2 & m & E2 & F2 & R2 & K2 & V2 & O1 & O2 & L).
    destruct R as (_ & _ & _ & _ & Bs0 & Ba0), R2 as (Er & Ep & Ec & Em & Bs & Ba). destruct K2 as (Ks & Ki & Km & Ka & Kl).
    assert (B := bin_exec op (at_op e2 op rest) (evaluationStack e) i1 i2 (allocated e) m (allocated e2) v1 v2 Hb eq_refl V2 O1 O2 L ltac:(cbn; lia) Bs0).
    destruct (bin_result op v1 v2) as [v| |]; [|rewrite E2|done].
    - destruct B as (w & Hw & Ew); [cbn; by rewrite Ka|]. cbn in Hw.
      exists (with_stack (at_op e2 op rest) (evaluationStack e)), f2, w. split.
      + rewrite E2. exact (proj1 (step_operation f2 e2 op rest _ _ Ho Et Er Ep ltac:(lia)) Ew).
      + split; [lia|]. split; [|split; [unfold kept; cbn; repeat split; congruence || lia|by split]].
        unfold ready. cbn. rewrite Ka. repeat split; try done; try lia; apply (below_mono (allocated e)); (done || lia).
    - refine (proj2 (step_operation f2 e2 op rest _ e2 Ho Et Er Ep ltac:(lia)) _). apply B. cbn. by rewrite Ka. }
  destruct (bin_result op v1 v2) as [v| |] eqn:Ev; [|exact X|done].
  intros e rest k' fuel Hk R Hf. destruct (X e rest k' fuel Hk R Hf) as (e2 & f2 & w & E2 & F2 & R2 & K2 & V2 & Hw).
  destruct R as (_ & _ & _ & _ & Bs0 & Ba0). destruct K2 as (Ks & Ki & Km & Ka & Kl).
  destruct (pushed_ready e2 e2 rest k' w v (allocated e) R2 eq_refl Hw Kl) as [R3 O3]; [by rewrite V2|by rewrite Ka|].
  exists (pushed e2 w v), f2, (Integer (allocated e2) w v). split; [exact E2|]. split; [done|]. split; [exact R3|].
  split; [unfold kept, pushed; cbn; repeat split; congruence || lia|]. split; [unfold pushed; cbn; by rewrite V2|exact O3].
Qed.

Lemma panics_app r1 k1 v1 r2 k2 : yields r1 k1 v1 -> panics r2 k2 -> forall r3 k3, 0 <= k2 -> 0 <= k3 -> panics (r1 ++ r2 ++ r3) (k1 + k2 + k3).
Proof.
  intros Y P r3 k3 Hk2 Hk3 e rest k' fuel Hk R Hf. rewrite <- !app_assoc in R, Hf. replace (k1 + k2 + k3 + k') with (k1 + (k2 + (k3 + k'))) in R by lia.
  destruct (Y e (r2 ++ r3 ++ rest) (k2 + (k3 + k')) fuel ltac:(lia) R Hf) as (e1 & f1 & i1 & E1 & F1 & R1 & _). rewrite E1.
  exact (P e1 (r3 ++ rest) (k3 + k') f1 ltac:(lia) R1 F1).
Qed.
Lemma panics_more r k r' k' : panics r k -> 0 <= k' -> panics (r ++ r') (k + k').
Proof.
  intros P Hk' e rest k2 fuel Hk R Hf. rewrite <- app_assoc in R, Hf. rewrite <- Z.add_assoc in R. exact (P e (r' ++ rest) (k' + k2) fuel ltac:(lia) R Hf).
Qed.

Lemma script_runs x : wf_expr x = true ->
  match value x with Ok v => yields (script x) (opcodes x) v | Panic => panics (script x) (opcodes x) | Unmodelled => True end.
Proof.
  induction x as [n|b|op a IHa|op a IHa b IHb]; intros W; cbn in W; cbn [value script opcodes].
  - apply yields_number. lia.
  - apply yields_data. lia.
  - specialize (IHa W). destruct (value a) as [v| |]; [|apply panics_more; [done|lia]|done].
    rewrite <- unary_meaning. apply yields_un; [apply unary_code_ok|done].
  - apply andb_true_iff in W as [Wa Wb]. specialize (IHa Wa). specialize (IHb Wb). pose proof (opcodes_pos a). pose proof (opcodes_pos b).
    destruct (value a) as [v| |]; [|rewrite <- Z.add_assoc; apply panics_more; [done|lia]|done].
    destruct (value b) as [w| |]; [| |done].
    + rewrite <- binary_meaning. apply yields_bin; [apply binary_code_ok|done|done|lia].
    + eapply panics_app; done || lia.
Qed.
End Run.

(** * Theorems *)

Section Execute.
Context `{crypto : ICrypto} (message : bytes).

(** The engine after the empty parameter script, about to run the code. *)
Definition started (code : bytes) : Engine :=
  mkEngine [NewExecutionContext code false] 0 MAXSTEPS [] [] NONE (NewExecutionContext [] true) RET 0.
Lemma parameter_step code : StepInto message (with_state (loaded code []) NONE) = Ok (tt, started code).
Proof. reflexivity. Qed.
Definition entered (code : bytes) : Engine :=
  mkEngine [] 0 MAXSTEPS [] [] NONE (NewExecutionContext code false) RET 0.
Lemma code_step code : StepInto message (started code) = step_loop message (S (length code)) (entered code).
Proof.
  unfold StepInto, mbind, vm_bind, modify, get. change (Count (invocationStack (started code)) =? 0) with false.
  change (Pop (invocationStack (started code))) with (Some (NewExecutionContext code false), @nil ExecutionContext). cbn -[step_loop Z.of_nat].
  by destruct (Z.of_nat (length code) <=? 0).
Qed.
Lemma entered_ready code k : k <= MAXSTEPS -> ready code k (entered code).
Proof. intros Hk. unfold ready. cbn. repeat split; try done; constructor. Qed.

(** C34: The script of an expression computes its value: with an empty parameter, the
    engine halts with one item on the stack, and the number it stands for is
    the value of the expression - additions, products, bit operations on numbers
    of any size and sign, Euclidean division and remainder, shifts, MIN and MAX,
    although every operation changes its first operand in place; a division by
    zero panics. *)
Theorem expression_computed (x : expr) :
  wf_expr x = true -> opcodes x <= MAXSTEPS ->
  match value x with
  | Ok v => exists e i, Execute message 1203 (loaded (script x) []) = Some (Ok e) /\ state e = HALT /\
      evaluationStack e = [EItem i] /\ GetBigInteger i = Ok v
  | Panic => Execute message 1203 (loaded (script x) []) = Some Panic
  | Unmodelled => True
  end.
Proof.
  intros W Hk. pose proof (script_runs message x W) as R. unfold Execute. change (with_state (loaded (script x) []) _) with (with_state (loaded (script x) []) NONE).
  replace 1203%nat with (3 + 1200)%nat by done. destruct (value x) as [v| |]; [| |done].
  - destruct (R (entered (script x)) [] 0 (S (length (script x))) ltac:(lia)) as (e' & [|f'] & i & E & F & (Er & _) & (Ks & Ki & _) & V & O);
      [rewrite app_nil_r, Z.add_0_r; by apply entered_ready|rewrite app_nil_r; lia|cbn in F; lia|].
    exists (with_state (with_reader e' []) HALT), i. split; [|split; [done|split; [exact V|by eapply operand_value]]].
    apply execute_loop_more. cbn [execute_loop]. rewrite parameter_step. cbn [execute_loop]. rewrite code_step, E, step_loop_nil by done.
    cbn [execute_loop]. change (state (started (script x))) with NONE. cbn. rewrite Ks. cbn.
    unfold StepInto, mbind, vm_bind, modify, get. cbn. rewrite Ki. cbn. rewrite Ks. reflexivity.
  - apply execute_loop_more. cbn [execute_loop]. rewrite parameter_step. cbn [execute_loop]. rewrite code_step.
    rewrite (R (entered (script x)) [] 0 (S (length (script x)))); [reflexivity|lia|rewrite app_nil_r, Z.add_0_r; by apply entered_ready|rewrite app_nil_r; lia].
Qed.
End Execute.

(** (7 - 16 * -3) mod 5. *)
Definition sample_expr : expr := Bin Mod (Bin Sub (Num 7) (Bin Mul (Num 16) (Un Negate (Num 3)))) (Num 5).
Lemma expression_computed_witness :
  exists e i, Execute (crypto := sample_crypto) [] 1203 (loaded (script sample_expr) []) = Some (Ok e) /\ state e = HALT /\ evaluationStack e = [EItem i] /\ GetBigInteger i = Ok 0.
Proof. exact (expression_computed (crypto := sample_crypto) [] sample_expr eq_refl ltac:(vm_compute; discriminate)). Defined.

(** The copy that DUP makes is the same number: arithmetic on the upper one
    changes the lower one as well. *)
Theorem copies_change (crypto : ICrypto) (message : bytes) (n : Z) (o : unary_op) (k : nat) :
  1 <= n <= 16 ->
  exists e, Execute message (3 + k) (loaded [0x50 + n; 0x76; unary_code o] []) = Some (Ok e) /\
    evaluationStack e = [EItem (Integer 0 0 (unary_value o n)); EItem (Integer 1 0 (unary_value o n))].
Proof.
  intros Hn. rewrite <- unary_meaning. pose proof (unary_code_ok o) as Hu. set (op := unary_code o) in *. clearbody op. set (code := [0x50 + n; 0x76; op]).
  assert (H : exists e, step_loop message 4 (entered code) = Ok (tt, e) /\ state e = NONE /\ invocationStack e = [] /\
    evaluationStack e = [EItem (Integer 0 0 (un_result op n)); EItem (Integer 1 0 (un_result op n))]).
  { rewrite (step_loop_number message 3 (entered code) n [0x76; op]) by done.
    set (e1 := with_stack _ _). set (i := Integer 0 0 n). set (e2 := with_stack (at_op e1 0x76 [op]) [EItem i; EItem i]).
    rewrite (proj1 (step_operation message 2 e1 0x76 [op] opDup e2 ltac:(lia) eq_refl eq_refl eq_refl ltac:(cbn; unfold MAXSTEPS; lia)) eq_refl).
    set (u := un_result op n). set (e3 := with_allocated (with_stack (at_op e2 op []) [EItem (Integer 0 0 u); EItem (Integer 1 0 u)]) 2).
    assert (X : exists exec, OpExecList message op = Some exec /\ exec (at_op e2 op []) = Ok ((NONE, None), e3)).
    { assert (D : op = 0x83 \/ op = 0x8B \/ op = 0x8C \/ op = 0x8D \/ op = 0x8E \/ op = 0x8F \/ op = 0x90) by (unfold unary in Hu; lia).
      destruct D as [->|[->|[->|[->|[->|[->| ->]]]]]]; eexists; (split; [reflexivity|reflexivity]). }
    destruct X as (exec & Et & Ex). assert (Ho : 0x60 < op) by (unfold unary in Hu; lia).
    rewrite (proj1 (step_operation message 1 e2 op [] exec e3 Ho Et eq_refl eq_refl ltac:(cbn; unfold MAXSTEPS; lia)) Ex).
    exists (with_reader e3 []). split; [by apply step_loop_nil|done]. }
  destruct H as (e & E & Es & Ei & V). exists (with_state e HALT). split; [|exact V]. unfold Execute. apply execute_loop_more.
  change (with_state (loaded code []) _) with (with_state (loaded code []) NONE).
  cbn [execute_loop]. rewrite parameter_step. cbn [execute_loop]. rewrite code_step. change (S (length code)) with 4%nat. rewrite E. cbn. rewrite Es. cbn.
  unfold StepInto, mbind, vm_bind, modify, get. rewrite Ei. cbn. rewrite Es. reflexivity.
Qed.
Lemma copies_change_witness : exists e, Execute (crypto := sample_crypto) [] 3 (loaded [0x55; 0x76; 0x8B] []) = Some (Ok e) /\ evaluationStack e = [EItem (Integer 0 0 6); EItem (Integer 1 0 6)].
Proof. exact (copies_change sample_crypto [] 5 Inc 0 ltac:(lia)). Defined.
