(* ===== verification/Contract.v ===== *)
(** [core/contract] (contracts, their redeem scripts and the signing context),
    [core/contract/program/ProgramBuilder.go] and
    [core/validation/validation.go]: how programs are built, recognised, filled
    with signatures and verified by the virtual machine.

    RIPEMD-160 and the curve arithmetic behind [VerifySignature] and
    [EncodePoint] are parameters; a public key stands for its encoded form. *)

From S2P Require Import Prelude Sha256 Serialization Common Fixed64 Transaction Vm.

(** * ProgramBuilder.go *)

(** [AddOp] and the buffer are list appends.  [len(data)] is never negative
    and a nil slice is not distinguished from an empty one by the callers
    modelled here. *)
Definition PushData (data : bytes) : bytes :=
  let len := Z.of_nat (length data) in
  if len <=? PUSHBYTES75 then len :: data
  else if len <? 0x100 then 0x4C :: uint8 len :: data
  else if len <? 0x10000 then 0x4D :: take 2 (IntToBytes len) ++ data
  else 0x4E :: take 4 (IntToBytes len) ++ data.

Definition PushNumber (number : Z) : bytes :=
  if number =? -1 then [0x4F]
  else if number =? 0 then [0x00]
  else if (0 <? number) && (number <=? 16) then [uint8 (PUSH1 - 1 + nth 0 (big_Bytes number) 0)]
  else PushData (big_Bytes number).

(** * contract.go *)

Record Contract := mkContract {
  c_Code : bytes; c_Parameters : list Z; c_ProgramHash : Uint160; c_OwnerPubkeyHash : Uint160 }.

(** [ContractParameterType]; [Signature] is its first value. *)
Definition Signature_param : Z := 0.

Inductive ContractType := SignatureContract | MultiSigContract | CustomContract.

Definition IsStandard (code : bytes) : bool :=
  (length code =? 35)%nat && (nth 0 code 0 =? 33) && (nth 34 code 0 =? CHECKSIG).

(** [for c.Code[i] == 33 { i += 34; if len(c.Code) <= i { return false }; n++ }]:
    [None] panics, [Some None] returns false. *)
Fixpoint count_keys (fuel : nat) (code : bytes) (i : nat) (n : Z) : option (option (nat * Z)) :=
  match fuel with
  | O => None
  | S fuel =>
      b ← code !! i;
      if b =? 33 then
        let i := (i + 34)%nat in
        if (length code <=? i)%nat then Some None else count_keys fuel code i (int16 (n + 1))
      else Some (Some (i, n))
  end.

(** The two [switch]es: a number at position [i], and the position behind it. *)
Definition script_number (code : bytes) (i : nat) : option (Z * nat) :=
  b ← code !! i;
  if b =? 1 then v ← code !! (i + 1)%nat; Some (v, (i + 2)%nat)
  else if b =? 2 then
    if (length code <? i + 1)%nat then None else Some (BytesToInt16 (drop (i + 1) code), (i + 3)%nat)
  else Some (int16 (b - 80), (i + 1)%nat).

Definition IsMultiSigContract (code : bytes) : option bool :=
  if (length code <? 37)%nat then Some false else
  b0 ← code !! 0%nat;
  if PUSH16 <? b0 then Some false else
  if (b0 <? PUSH1) && negb (b0 =? 1) && negb (b0 =? 2) then Some false else
  '(m, i) ← script_number code 0;
  if (m <? 1) || (1024 <? m) then Some false else
  r ← count_keys (length code) code i 0;
  match r with
  | None => Some false
  | Some (i, n) =>
      if (n <? m) || (1024 <? n) then Some false else
      '(n', i) ← script_number code i;
      if negb (n =? n') then Some false else
      b ← code !! i;
      if negb (b =? CHECKMULTISIG) then Some false
      else Some (Nat.eqb (length code) (i + 1))
  end.

Definition GetType (c : Contract) : option ContractType :=
  if IsStandard (c_Code c) then Some SignatureContract
  else b ← IsMultiSigContract (c_Code c); Some (if b : bool then MultiSigContract else CustomContract).

Definition Contract_Serialize (c : Contract) : bytes :=
  Uint_Serialize (c_OwnerPubkeyHash c) ++ WriteVarBytes (c_Parameters c) ++ WriteVarBytes (c_Code c).

Definition Contract_Deserialize (c : Contract) : rd (Contract * err) :=
  '(h, _) ← Uint160_Deserialize (c_OwnerPubkeyHash c);
  let c := mkContract (c_Code c) (c_Parameters c) (c_ProgramHash c) h in
  '(p, e) ← ReadVarBytes;
  iferr e return c ;;
  let c := mkContract (c_Code c) p (c_ProgramHash c) h in
  '(code, e) ← ReadVarBytes;
  let c := mkContract code p (c_ProgramHash c) h in
  iferr e return c ;;
  mret (c, None).

(** * contractBuilder.go *)

Definition CreateSignatureRedeemScript (pubkey : bytes) : bytes := PushData pubkey ++ [CHECKSIG].

(** The keys are given in the order [sort.Sort] leaves them. *)
Definition CreateMultiSigRedeemScript (m : Z) (pubkeys : list bytes) : bytes :=
  let n := Z.of_nat (length pubkeys) in
  if negb ((1 <=? m) && (m <=? n) && (n <=? 24)) then []
  else PushNumber m ++ concat (map PushData pubkeys) ++ PushNumber n ++ [CHECKMULTISIG].

Section Ripemd.
Variable ripemd160 : bytes -> bytes.

Definition CreateSignatureContract (ownerPubKey : bytes) : Contract * err :=
  let script := CreateSignatureRedeemScript ownerPubKey in
  let '(hash, e) := ToCodeHash ripemd160 ownerPubKey in
  match e with
  | Some _ => (mkContract [] [] zero160 zero160, Some (NewError "[Contract],CreateSignatureContract failed."))
  | None =>
      let '(ph, e) := ToCodeHash ripemd160 script in
      match e with
      | Some _ => (mkContract [] [] zero160 zero160, Some (NewError "[Contract],CreateSignatureContract failed."))
      | None => (mkContract script [Signature_param] ph hash, None)
      end
  end.

Definition CreateMultiSigContract (publicKeyHash : Uint160) (m : Z) (publicKeys : list bytes) : Contract * err :=
  let script := CreateMultiSigRedeemScript m publicKeys in
  let '(ph, e) := ToCodeHash ripemd160 script in
  match e with
  | Some _ => (mkContract [] [] zero160 zero160, Some (NewError "[Contract],CreateSignatureContract failed."))
  | None => (mkContract script (replicate (Z.to_nat m) Signature_param) ph publicKeyHash, None)
  end.
End Ripemd.

(** * contractContext.go

    A nil slice ([None]) is distinguished from an empty one: [IsCompleted]
    tests for nil. *)

Record ContractContext := mkContractContext {
  ProgramHashes : list Uint160; Codes : list (option bytes);
  cxt_Parameters : list (option (list (option bytes))); tempParaIndex : Z }.

Definition NewContractContext (programHashes : list Uint160) : ContractContext :=
  mkContractContext programHashes (replicate (length programHashes) None)
    (replicate (length programHashes) None) 0.

Fixpoint index_of_hash (h : Uint160) (hs : list Uint160) (i : nat) : option nat :=
  match hs with
  | [] => None
  | x :: hs => if decide (x = h) then Some i else index_of_hash h hs (S i)
  end.
(** [None] for [-1]. *)
Definition GetIndex (cxt : ContractContext) (programHash : Uint160) : option nat :=
  index_of_hash programHash (ProgramHashes cxt) 0.

(** An index out of range panics ([None]). *)
Definition cxt_Add (cxt : ContractContext) (contract : Contract) (index : Z) (parameter : bytes) :
    option (ContractContext * err) :=
  let i := default 0%nat (GetIndex cxt (c_ProgramHash contract)) in
  code ← Codes cxt !! i;
  let codes := match code with None => <[i := Some (c_Code contract)]> (Codes cxt) | Some _ => Codes cxt end in
  ps ← cxt_Parameters cxt !! i;
  let ps := match ps with None => replicate (length (c_Parameters contract)) None | Some ps => ps end in
  if (index <? 0) || (Z.of_nat (length ps) <=? index) then None
  else
    Some (mkContractContext (ProgramHashes cxt) codes
            (<[i := Some (<[Z.to_nat index := Some parameter]> ps)]> (cxt_Parameters cxt)) (tempParaIndex cxt), None).

(** The loop that looks for the only [Signature] parameter. *)
Fixpoint signature_index (ps : list Z) (i index : Z) : option Z :=
  match ps with
  | [] => Some index
  | p :: ps =>
      if p =? Signature_param then (if 0 <=? index then None else signature_index ps (i + 1) i)
      else signature_index ps (i + 1) index
  end.

Definition AddContract (cxt : ContractContext) (contract : Contract) (parameter : bytes) :
    option (ContractContext * err) :=
  ty ← GetType contract;
  match ty with
  | MultiSigContract =>
      '(cxt, e) ← cxt_Add cxt contract (tempParaIndex cxt) parameter;
      let t := tempParaIndex cxt + 1 in
      let t := if t =? Z.of_nat (length (c_Parameters contract)) then 0 else t in
      Some (mkContractContext (ProgramHashes cxt) (Codes cxt) (cxt_Parameters cxt) t, None)
  | _ =>
      match signature_index (c_Parameters contract) 0 (-1) with
      | None => Some (cxt, Some (NewError "Contract Parameters are not supported."))
      | Some index => cxt_Add cxt contract index parameter
      end
  end.

Definition IsCompleted (cxt : ContractContext) : bool :=
  forallb (fun p => match p with
                    | None => false
                    | Some ps => forallb (fun pp => match pp with None => false | Some _ => true end) ps
                    end) (cxt_Parameters cxt).

Definition build_parameter (pp : option bytes) : bytes :=
  let p := default [] pp in
  if (length p <=? 2)%nat then PushNumber (be_val p) else PushData p.
Definition build_program (code : option bytes) (ps : option (list (option bytes))) : Program :=
  mkProgram (default [] code) (concat (map build_parameter (default [] ps))).
Definition GetUncompletedPrograms (cxt : ContractContext) : list Program :=
  zip_with build_program (Codes cxt) (cxt_Parameters cxt).
(** [None] is the nil of an incomplete context. *)
Definition cxt_GetPrograms (cxt : ContractContext) : option (list Program) :=
  if IsCompleted cxt then Some (GetUncompletedPrograms cxt) else None.

(** * validation.go *)

(** [sig.SignableData]: what the verifier asks of the data it checks. *)
Class SignableData (D : Type) := {
  sig_GetProgramHashes : D -> list Uint160 * err;
  sig_GetPrograms : D -> list Program;
  sig_GetMessage : D -> option bytes }.

#[export] Instance Transaction_SignableData `{TxStore} : SignableData Transaction := {
  sig_GetProgramHashes := GetProgramHashes; sig_GetPrograms := Programs; sig_GetMessage := Tx_GetHashData }.

Section Verify.
Context `{crypto : ICrypto} (ripemd160 : bytes -> bytes).

(** One turn of the loop: [None] goes on.  1203 turns of the engine are
    always enough. *)
Definition verify_program (message : bytes) (h : Uint160) (p : Program) : outcome (option error) :=
  if negb (bool_decide (h = (ToCodeHash ripemd160 (pg_Code p)).1))
  then Ok (Some (NewError "The data hashes is different with corresponding program code."))
  else
    match Execute message 1203 (loaded (pg_Code p) (pg_Parameter p)) with
    | None => Unmodelled
    | Some Panic => Panic
    | Some Unmodelled => Unmodelled
    | Some (Ok se) =>
        if negb (state se =? HALT) then Ok (Some (NewError "[VM] Finish State not equal to HALT."))
        else if negb (Count (evaluationStack se) =? 1)
        then Ok (Some (NewError "[VM] Execute Engine Stack Count Error."))
        else
          match GetExecuteResult se with
          | Ok true => Ok None
          | Ok false => Ok (Some (NewError "[VM] Check Sig FALSE."))
          | Panic => Panic
          | Unmodelled => Unmodelled
          end
    end.

Fixpoint verify_programs (message : bytes) (hs : list Uint160) (ps : list Program) : outcome (bool * err) :=
  match hs, ps with
  | h :: hs, p :: ps =>
      match verify_program message h p with
      | Ok None => verify_programs message hs ps
      | Ok (Some e) => Ok (false, Some e)
      | Panic => Panic
      | Unmodelled => Unmodelled
      end
  | _, _ => Ok (true, None)
  end.

(** Data whose message cannot be computed (a deployment with a nil code) is
    outside the model. *)
Definition VerifySignableData {D} `{SignableData D} (d : D) : outcome (bool * err) :=
  let '(hashes, e) := sig_GetProgramHashes d in
  match e with
  | Some _ => Ok (false, e)
  | None =>
      let programs := sig_GetPrograms d in
      if negb (length hashes =? length programs)%nat
      then Ok (false, Some (NewError "The number of data hashes is different with number of programs."))
      else
        match sig_GetMessage d with
        | None => Unmodelled
        | Some message => verify_programs message hashes programs
        end
  end.
End Verify.

(** * Built scripts run *)

Section Pushes.
Context `{crypto : ICrypto} (message : bytes).

Lemma with_reader_opcode e r r' c : with_reader (with_op (ticked e r) (context (ticked e r)) c) r'
  = with_op (ticked e r') (context (ticked e r')) c.
Proof. reflexivity. Qed.

Lemma step_loop_pushdata1 fuel e n data rest :
  OpReader (context e) = 0x4C :: n :: data ++ rest -> Z.of_nat (length data) = n -> 0 <= n < 256 ->
  step_loop message (S fuel) e =
    step_loop message fuel (with_stack (with_allocated (with_op (ticked e rest) (context (ticked e rest)) 0x4C) (S (allocated e)))
                              (Push (evaluationStack e) (EItem (ByteArray (allocated e) data)))).
Proof.
  intros Er Hl Hn. rewrite (step_loop_cons message fuel e 0x4C (n :: data ++ rest)) by done.
  rewrite (ExecuteOp_table message _ _ opPushData) by (done || unfold PUSH16; lia).
  unfold opPushData, getPushData. unfold mbind, vm_bind, get. cbn [opCode with_op Z.eqb Pos.eqb].
  unfold read, mbind, vm_bind, get, modify.
  change (OpReader (context (with_op (ticked e (n :: data ++ rest)) (context (ticked e (n :: data ++ rest))) 0x4C)))
    with (n :: data ++ rest).
  cbn [vm_ReadByte from_option id]. unfold mret at 1, vm_ret at 1.
  rewrite with_reader_opcode. cbn [OpReader context with_op ticked with_reader with_opCount].
  rewrite ReadBytes_app by done. reflexivity.
Qed.

Lemma step_loop_pushdata2 fuel e n data rest :
  OpReader (context e) = 0x4D :: le_bytes 2 n ++ data ++ rest -> Z.of_nat (length data) = n -> 0 <= n < 65536 ->
  step_loop message (S fuel) e =
    step_loop message fuel (with_stack (with_allocated (with_op (ticked e rest) (context (ticked e rest)) 0x4D) (S (allocated e)))
                              (Push (evaluationStack e) (EItem (ByteArray (allocated e) data)))).
Proof.
  intros Er Hl Hn. rewrite (step_loop_cons message fuel e 0x4D (le_bytes 2 n ++ data ++ rest)) by done.
  rewrite (ExecuteOp_table message _ _ opPushData) by (done || unfold PUSH16; lia).
  unfold opPushData, getPushData. unfold mbind, vm_bind, get. cbn [opCode with_op Z.eqb Pos.eqb].
  unfold read, mbind, vm_bind, get, modify.
  change (OpReader (context (with_op (ticked e (le_bytes 2 n ++ data ++ rest))
    (context (ticked e (le_bytes 2 n ++ data ++ rest))) 0x4D))) with (le_bytes 2 n ++ data ++ rest).
  unfold vm_ReadUint16. rewrite (ReadBytes_app (le_bytes 2 n) (data ++ rest) 2) by reflexivity.
  unfold mret at 1, vm_ret at 1. rewrite with_reader_opcode.
  cbn [OpReader context with_op ticked with_reader with_opCount].
  rewrite le_val_le_bytes, Z.mod_small by (change (256 ^ Z.of_nat 2) with 65536; lia).
  rewrite ReadBytes_app by done. reflexivity.
Qed.

(** [PushData] is undone by the engine up to 65535 bytes. *)
Lemma advance_PushData po S data rest :
  1 <= Z.of_nat (length data) < 65536 ->
  advance message po (PushData data ++ rest) S 1 rest (S ++ [EItem (ByteArray 0 data)]).
Proof.
  intros Hl. unfold PushData. set (n := Z.of_nat (length data)) in *.
  destruct (Z.leb_spec n PUSHBYTES75) as [H|H]; [unfold PUSHBYTES75 in H; apply advance_push; [done|lia]|].
  destruct (Z.ltb_spec n 0x100) as [H1|H1]; [|destruct (Z.ltb_spec n 0x10000) as [H2|H2]; [|lia]].
  all: intros l k' e [|fuel] Hk (Rs & Ri & Rr & Rp & RS & Rc & Rm) Hf; [lia|].
  - rewrite wrapU_id in Rr by lia.
    eexists _, fuel. split; [apply (step_loop_pushdata1 fuel e n data rest); [exact Rr|done|lia]|].
    rewrite length_app in Hf. cbn [length] in Hf. split; [lia|].
    unfold running, Push; cbn. rewrite erase_app, RS. repeat split; done || lia.
  - assert (E : take 2 (IntToBytes n) = le_bytes 2 n).
    { unfold IntToBytes. rewrite (wrapS_id 32), (wrapU_id 32) by lia. reflexivity. }
    rewrite E in Rr, Hf. rewrite <- app_comm_cons, <- app_assoc in Rr.
    eexists _, fuel. split; [apply (step_loop_pushdata2 fuel e n data rest); [exact Rr|done|lia]|].
    rewrite length_app in Hf. cbn [length] in Hf. rewrite length_app in Hf. split; [lia|].
    unfold running, Push; cbn. rewrite erase_app, RS. repeat split; done || lia.
Qed.
End Pushes.

Lemma PushData_short d : Z.of_nat (length d) <= 75 -> PushData d = Z.of_nat (length d) :: d.
Proof. intros H. unfold PushData. destruct (Z.leb_spec (Z.of_nat (length d)) PUSHBYTES75) as [|L]; [done|unfold PUSHBYTES75 in L; lia]. Qed.

Lemma PushNumber_small n : 1 <= n <= 16 -> PushNumber n = [0x50 + n].
Proof.
  intros H. assert (n ∈ seqZ 1 16) as Hin by (apply elem_of_seqZ; lia).
  revert n Hin H. apply (list.Forall_forall (fun n => 1 <= n <= 16 -> PushNumber n = [0x50 + n])).
  repeat constructor.
Qed.

Lemma push_script_PushData l :
  Forall (fun d => 1 <= Z.of_nat (length d) <= 75) l -> concat (map PushData l) = push_script l.
Proof.
  unfold push_script. induction 1 as [|d l Hd _ IH]; [done|]. cbn [map concat]. rewrite IH, PushData_short by lia. done.
Qed.

Section VerifyLemmas.
Context `{crypto : ICrypto} (ripemd160 : bytes -> bytes) (message : bytes).

Lemma verify_program_runs h code param S1 k1 k2 i b :
  h = (ToCodeHash ripemd160 code).1 ->
  advance message true param [] k1 [] S1 -> advance message false code S1 k2 [] [EItem i] ->
  0 <= k1 -> 0 <= k2 -> k1 + k2 <= MAXSTEPS -> GetBoolean i = Ok b ->
  verify_program ripemd160 message h (mkProgram code param)
    = Ok (if b then None else Some (NewError "[VM] Check Sig FALSE.")).
Proof.
  intros Hh A1 A2 H1 H2 Hk Hb. unfold verify_program. cbn [pg_Code pg_Parameter].
  rewrite bool_decide_true by done. cbn [negb].
  destruct (Execute_two message code param S1 [EItem i] k1 k2 1203 A1 A2 H1 H2 Hk ltac:(lia)) as (e & E & Hs & HS).
  apply (erase_snoc _ [] i) in HS as (S0 & i0 & HS & E0 & <-). apply map_eq_nil in E0 as ->. rewrite erase_boolean in Hb.
  rewrite E, Hs, HS. cbn [Z.eqb negb Pos.eqb Count HALT length Z.of_nat Pos.of_succ_nat].
  change (HALT =? HALT) with true. cbn [negb]. change (Count ([] ++ [EItem i0]) =? 1) with true. cbn [negb].
  unfold GetExecuteResult, pop_bool, pop_item, mbind, vm_bind.
  rewrite (pop_snoc e [] (EItem i0)) by done. unfold item, AssertStackItem, mret, vm_ret, lift. rewrite Hb.
  by destruct b.
Qed.

Lemma advance_standard_code S pk rest S' :
  length pk = 33%nat ->
  advance message false (CHECKSIG :: rest) (S ++ [EItem (ByteArray 0 pk)]) 1 rest S' ->
  advance message false (CreateSignatureRedeemScript pk ++ rest) S 2 rest S'.
Proof.
  intros Hl A. unfold CreateSignatureRedeemScript. rewrite <- app_assoc.
  apply (advance_trans _ _ _ _ 1 (CHECKSIG :: rest) (S ++ [EItem (ByteArray 0 pk)]) 1); [lia| |done].
  apply advance_PushData. rewrite Hl. lia.
Qed.

Lemma verify_standard h pk sg :
  h = (ToCodeHash ripemd160 (CreateSignatureRedeemScript pk)).1 -> length pk = 33%nat -> length sg = 64%nat ->
  verify_program ripemd160 message h (mkProgram (CreateSignatureRedeemScript pk) (PushData sg))
    = Ok (if VerifySignature message sg pk then None else Some (NewError "[VM] Check Sig FALSE.")).
Proof.
  intros Hh Hpk Hsg.
  apply (verify_program_runs h _ _ [EItem (ByteArray 0 sg)] 1 2 (Boolean (VerifySignature message sg pk)));
    [done| | |lia|lia|unfold MAXSTEPS; lia|done].
  - rewrite <- (app_nil_r (PushData sg)). apply (advance_PushData _ true []). rewrite Hsg. lia.
  - rewrite <- (app_nil_r (CreateSignatureRedeemScript pk)). apply advance_standard_code; [done|].
    apply (advance_checksig message [] (ByteArray 0 sg) (ByteArray 0 pk) []).
Qed.

Lemma verify_standard_empty h pk :
  h = (ToCodeHash ripemd160 (CreateSignatureRedeemScript pk)).1 -> length pk = 33%nat ->
  existsb (fun x => negb (x =? 0)) pk = true ->
  verify_program ripemd160 message h (mkProgram (CreateSignatureRedeemScript pk) []) = Ok None.
Proof.
  intros Hh Hpk Hnz.
  apply (verify_program_runs h _ [] [] 0 2 (ByteArray 0 pk) true);
    [done|apply advance_refl| |lia|lia|unfold MAXSTEPS; lia|cbn; by rewrite Hnz].
  rewrite <- (app_nil_r (CreateSignatureRedeemScript pk)). apply advance_standard_code; [done|].
  by apply (advance_checksig_short message [EItem (ByteArray 0 pk)] []).
Qed.

Definition valid_m_of_n (m n : Z) : Prop := 1 <= m <= n /\ n <= 16.

Lemma verify_multisig h m keys sigs :
  valid_m_of_n m (Z.of_nat (length keys)) -> Z.of_nat (length sigs) = m ->
  Forall (fun k => length k = 33%nat) keys -> Forall (fun s => length s = 64%nat) sigs ->
  h = (ToCodeHash ripemd160 (CreateMultiSigRedeemScript m keys)).1 ->
  verify_program ripemd160 message h (mkProgram (CreateMultiSigRedeemScript m keys) (concat (map PushData sigs)))
    = Ok (if match_signatures message (rev sigs) (rev keys) then None else Some (NewError "[VM] Check Sig FALSE.")).
Proof.
  intros [Hmn Hn] Hm Hkeys Hsigs Hh. set (n := Z.of_nat (length keys)) in *.
  assert (Lk : Forall (fun d => 1 <= Z.of_nat (length d) <= 75) keys)
    by (eapply list.Forall_impl; [exact Hkeys|]; intros k Hk; cbn in Hk; rewrite Hk; lia).
  assert (Ls : Forall (fun d => 1 <= Z.of_nat (length d) <= 75) sigs)
    by (eapply list.Forall_impl; [exact Hsigs|]; intros k Hk; cbn in Hk; rewrite Hk; lia).
  assert (Ec : CreateMultiSigRedeemScript m keys
               = 0x50 + m :: push_script keys ++ (0x50 + n :: CHECKMULTISIG :: [])).
  { unfold CreateMultiSigRedeemScript. fold n.
    destruct (Z.leb_spec 1 m); [|lia]. destruct (Z.leb_spec m n); [|lia]. destruct (Z.leb_spec n 24); [|lia].
    cbn [andb negb]. rewrite !PushNumber_small, push_script_PushData by (done || lia). done. }
  apply (verify_program_runs h _ _ ([] ++ map (fun d => EItem (ByteArray 0 d)) sigs) m (1 + (n + (1 + (1 + n))))
           (Boolean (match_signatures message (rev sigs) (rev keys))));
    [done| | |lia|lia|unfold MAXSTEPS; lia|done].
  - rewrite push_script_PushData by done. rewrite <- (app_nil_r (push_script sigs)), <- Hm. by apply advance_pushes.
  - rewrite Ec. eapply advance_trans; [lia|by apply advance_number; lia|].
    eapply advance_trans; [lia|by apply advance_pushes|].
    eapply advance_trans; [lia|by apply advance_number; lia|].
    pose proof (advance_multisig message [] (map (ByteArray 0) sigs) (map (ByteArray 0) keys) []) as A.
    cbn zeta in A. rewrite !length_map, !map_map in A. cbn [GetByteArray] in A. rewrite !map_id in A.
    rewrite Hm in A. fold n in A. apply A; lia.
Qed.
End VerifyLemmas.

Lemma VerifySignableData_true `{ICrypto} {D} `{SignableData D} ripemd160 (d : D) flag :
  VerifySignableData ripemd160 d = Ok (flag, None) -> flag = true.
Proof.
  unfold VerifySignableData. destruct (sig_GetProgramHashes d) as [hs [e|]]; [done|].
  destruct (negb _); [done|]. destruct (sig_GetMessage d) as [message|]; [|done].
  revert hs. induction (sig_GetPrograms d) as [|p ps IH]; intros [|h hs] E; cbn [verify_programs] in E; try (by injection E).
  destruct (verify_program ripemd160 message h p) as [[e|]| |]; try done. by apply (IH hs).
Qed.

Lemma VerifySignableData_programs `{ICrypto} {D} `{SignableData D} ripemd160 (d : D) hs ps message r :
  sig_GetProgramHashes d = (hs, None) -> sig_GetPrograms d = ps -> length hs = length ps ->
  sig_GetMessage d = Some message -> verify_programs ripemd160 message hs ps = r ->
  VerifySignableData ripemd160 d = r.
Proof.
  intros E1 E2 Hl E3 <-. unfold VerifySignableData. rewrite E1, E2, E3, Hl, Nat.eqb_refl. done.
Qed.

(** * Properties *)

Definition code_hash (ripemd160 : bytes -> bytes) (p : Program) : Uint160 := (ToCodeHash ripemd160 (pg_Code p)).1.

(** C1: Data whose every program is a single-signature contract with one
    64-byte signature as parameter verifies exactly when every signature
    verifies under its key over the data's message. *)
Theorem signature_contracts_verify (D : Type) (S : SignableData D) (crypto : ICrypto)
    (ripemd160 : bytes -> bytes) (d : D) (signed : list (bytes * bytes)) (message : bytes) :
  let program '(pk, sg) := mkProgram (CreateSignatureRedeemScript pk) (PushData sg) in
  Forall (fun '(pk, sg) => length pk = 33%nat /\ length sg = 64%nat) signed ->
  sig_GetPrograms d = map program signed ->
  sig_GetProgramHashes d = (map (code_hash ripemd160) (sig_GetPrograms d), None) ->
  sig_GetMessage d = Some message ->
  VerifySignableData ripemd160 d =
    Ok (if forallb (fun '(pk, sg) => VerifySignature message sg pk) signed
        then (true, None) else (false, Some (NewError "[VM] Check Sig FALSE."))).
Proof.
  intros program Hl Hp Hh Hm. rewrite Hp in Hh. subst program.
  eapply VerifySignableData_programs; [exact Hh|exact Hp|by rewrite !length_map|exact Hm|]. clear Hh Hp.
  induction Hl as [|[pk sg] signed [Lp Ls] _ IH]; [done|]. cbn [map verify_programs forallb].
  rewrite verify_standard by done. destruct (VerifySignature message sg pk); [exact IH|done].
Qed.

(** A sample of signable data. *)
Definition sample_data (hashes : list Uint160) (programs : list Program) : SignableData unit :=
  {| sig_GetProgramHashes := fun _ => (hashes, None); sig_GetPrograms := fun _ => programs;
     sig_GetMessage := fun _ => Some [1; 2] |}.
Definition sample_ripemd (b : bytes) : bytes := take 20 (b ++ replicate 20 0).
Lemma sample_ripemd_length b : length (sample_ripemd b) = 20%nat.
Proof. unfold sample_ripemd. rewrite length_take, length_app, length_replicate. lia. Qed.
(** A signature that repeats its key is valid. *)
Definition prefix_crypto : ICrypto := fun _ s k => bool_decide (take 33 s = k).

Lemma signature_contracts_verify_witness :
  let p := mkProgram (CreateSignatureRedeemScript (repeat 2 33)) (PushData (repeat 2 64)) in
  VerifySignableData (crypto := prefix_crypto) (H := sample_data [code_hash sample_ripemd p] [p]) sample_ripemd tt
    = Ok (true, None).
Proof.
  exact (signature_contracts_verify unit (sample_data
    [code_hash sample_ripemd (mkProgram (CreateSignatureRedeemScript (repeat 2 33)) (PushData (repeat 2 64)))]
    [mkProgram (CreateSignatureRedeemScript (repeat 2 33)) (PushData (repeat 2 64))])
    prefix_crypto sample_ripemd tt [(repeat 2 33, repeat 2 64)] [1; 2]
    ltac:(repeat constructor) eq_refl eq_refl eq_refl).
Defined.

(** Signatures can be left out.  A FAULT reported without an error is
    dropped by [ExecuteOp], so CHECKSIG on too short a stack does nothing: with
    an empty parameter the public key stays on the stack, the engine halts, and
    any non-zero key counts as true.  Data whose programs are single-signature
    contracts with empty parameters verifies, whatever the signature scheme. *)
Theorem empty_parameter_verifies (D : Type) (S : SignableData D) (crypto : ICrypto)
    (ripemd160 : bytes -> bytes) (d : D) (keys : list bytes) (message : bytes) :
  Forall (fun pk => length pk = 33%nat /\ existsb (fun x => negb (x =? 0)) pk = true) keys ->
  sig_GetPrograms d = map (fun pk => mkProgram (CreateSignatureRedeemScript pk) []) keys ->
  sig_GetProgramHashes d = (map (code_hash ripemd160) (sig_GetPrograms d), None) ->
  sig_GetMessage d = Some message ->
  VerifySignableData ripemd160 d = Ok (true, None).
Proof.
  intros Hl Hp Hh Hm. rewrite Hp in Hh.
  eapply VerifySignableData_programs; [exact Hh|exact Hp|by rewrite !length_map|exact Hm|]. clear Hh Hp.
  induction Hl as [|pk keys [Lp Nz] _ IH]; [done|]. cbn [map verify_programs].
  rewrite verify_standard_empty by done. exact IH.
Qed.

(** No signature is ever valid. *)
Definition no_crypto : ICrypto := fun _ _ _ => false.

Lemma empty_parameter_verifies_witness :
  let p := mkProgram (CreateSignatureRedeemScript (repeat 2 33)) [] in
  VerifySignableData (crypto := no_crypto) (H := sample_data [code_hash sample_ripemd p] [p]) sample_ripemd tt
    = Ok (true, None).
Proof.
  exact (empty_parameter_verifies unit (sample_data
    [code_hash sample_ripemd (mkProgram (CreateSignatureRedeemScript (repeat 2 33)) [])]
    [mkProgram (CreateSignatureRedeemScript (repeat 2 33)) []])
    no_crypto sample_ripemd tt [repeat 2 33] [1; 2]
    ltac:(repeat constructor) eq_refl eq_refl eq_refl).
Defined.

(** Every signature is valid under a key of its own: the keys used, one per
    signature, are part of the list of keys, each position at most once. *)
Definition one_key_each `{crypto : ICrypto} (message : bytes) (sigs keys : list bytes) : Prop :=
  exists used rest, keys ≡ₚ used ++ rest /\ Forall2 (fun s k => VerifySignature message s k = true) sigs used.

Lemma one_key_each_rev `{crypto : ICrypto} message sigs keys :
  one_key_each message (rev sigs) (rev keys) <-> one_key_each message sigs keys.
Proof.
  assert (R : forall sigs keys, one_key_each message sigs keys -> one_key_each message (rev sigs) (rev keys)).
  { intros s k (used & rest & P & F). exists (rev used), rest. split.
    - rewrite <- !Permutation_rev. exact P.
    - clear P. induction F; cbn [rev]; [done|]. apply Forall2_app; auto. }
  split; [|apply R]. intros H%R. by rewrite !rev_involutive in H.
Qed.

(** C2: A program that runs the redeem script of an m-of-n contract (at most
    16 keys, of 33 bytes) on m pushed signatures either verifies or is refused with
    the error of a failed check, never anything else.  It verifies only when every
    signature is valid under a key of its own: no key of the list counts for two
    signatures.  When no signature is valid under two different keys, it verifies whenever
    the signatures are valid under keys of their own, in whatever order they are given. *)
Theorem multisig_contract_verifies (crypto : ICrypto) (ripemd160 : bytes -> bytes) (message : bytes)
    (m : Z) (keys sigs : list bytes) :
  valid_m_of_n m (Z.of_nat (length keys)) -> Z.of_nat (length sigs) = m ->
  Forall (fun k => length k = 33%nat) keys -> Forall (fun s => length s = 64%nat) sigs ->
  let p := mkProgram (CreateMultiSigRedeemScript m keys) (concat (map PushData sigs)) in
  let answer := verify_programs ripemd160 message [code_hash ripemd160 p] [p] in
  (answer = Ok (true, None) \/ answer = Ok (false, Some (NewError "[VM] Check Sig FALSE."))) /\
  (answer = Ok (true, None) -> one_key_each message sigs keys) /\
  ((forall s k k', k ∈ keys -> k' ∈ keys -> VerifySignature message s k = true ->
      VerifySignature message s k' = true -> k = k') ->
   one_key_each message sigs keys -> answer = Ok (true, None)).
Proof.
  intros Hmn Hm Hk Hs p answer.
  assert (E : answer = Ok (if match_signatures message (rev sigs) (rev keys) then (true, None)
                           else (false, Some (NewError "[VM] Check Sig FALSE.")))).
  { unfold answer. cbn [verify_programs]. unfold p. rewrite verify_multisig by done.
    by destruct (match_signatures message (rev sigs) (rev keys)). }
  rewrite E. clear E answer p. split; [destruct (match_signatures _ _ _); auto|]. split.
  - destruct (match_signatures _ _ _) eqn:M; [|done]. intros _.
    apply one_key_each_rev. by apply match_signatures_sound.
  - intros U (used & rest & P & F)%one_key_each_rev.
    erewrite match_signatures_complete; [done| |exact P|exact F].
    intros s k k' Hi Hi'. apply U; [rewrite (Permutation_rev keys)|rewrite (Permutation_rev keys)]; done.
Qed.

Lemma multisig_contract_verifies_witness :
  let p sigs := mkProgram (CreateMultiSigRedeemScript 2 [repeat 1 33; repeat 2 33; repeat 3 33])
             (concat (map PushData sigs)) in
  let answer sigs := verify_programs (crypto := prefix_crypto) sample_ripemd [] [code_hash sample_ripemd (p sigs)] [p sigs] in
  answer [repeat 3 64; repeat 1 64] = Ok (true, None) /\
  answer [repeat 3 64; repeat 3 64] = Ok (false, Some (NewError "[VM] Check Sig FALSE.")).
Proof.
  assert (V : valid_m_of_n 2 3) by (unfold valid_m_of_n; lia).
  split.
  - destruct (multisig_contract_verifies prefix_crypto sample_ripemd [] 2
      [repeat 1 33; repeat 2 33; repeat 3 33] [repeat 3 64; repeat 1 64] V eq_refl
      ltac:(repeat constructor) ltac:(repeat constructor)) as (_ & _ & H).
    apply H.
    + intros s k k' Hk Hk' Hs Hs'.
      unfold VerifySignature, prefix_crypto in Hs, Hs'.
      apply bool_decide_eq_true in Hs, Hs'. congruence.
    + exists [repeat 3 33; repeat 1 33], [repeat 2 33]. split; [|repeat constructor].
      cbn [app]. etransitivity; [apply (Permutation_cons_append [repeat 2 33; repeat 3 33])|]. cbn [app].
      etransitivity; [apply perm_swap|]. apply perm_skip, perm_swap.
  - destruct (multisig_contract_verifies prefix_crypto sample_ripemd [] 2
      [repeat 1 33; repeat 2 33; repeat 3 33] [repeat 3 64; repeat 3 64] V eq_refl
      ltac:(repeat constructor) ltac:(repeat constructor)) as ([H|H] & _); [|exact H].
    exfalso. revert H. vm_compute. discriminate.
Defined.

(** ** Recognition and signing *)

Lemma length_push_script keys :
  Forall (fun k => length k = 33%nat) keys -> length (push_script keys) = (34 * length keys)%nat.
Proof.
  unfold push_script. induction 1 as [|k keys Hk _ IH]; [done|]. cbn [map concat length app].
  rewrite length_app, Hk, IH. lia.
Qed.

(** The loop over the keys stops behind the last one. *)
Lemma count_keys_script fuel pre keys b rest n :
  Forall (fun k => length k = 33%nat) keys -> b <> 33 -> 0 <= n -> n + Z.of_nat (length keys) < 2 ^ 15 ->
  (length keys < fuel)%nat ->
  count_keys fuel (pre ++ push_script keys ++ b :: rest) (length pre) n =
    Some (Some ((length pre + 34 * length keys)%nat, n + Z.of_nat (length keys))).
Proof.
  intros Hk Hb. revert fuel pre n. induction Hk as [|k keys Lk Hk IH]; intros [|fuel] pre n Hn Hm Hf; try (simpl in Hf; lia).
  - cbn [count_keys push_script map concat app]. rewrite lookup_app_r, Nat.sub_diag by lia. cbn.
    destruct (Z.eqb_spec b 33); [done|]. cbn [length Z.of_nat]. do 3 f_equal; lia.
  - cbn [count_keys push_script map concat]. fold (push_script keys). rewrite <- app_assoc.
    rewrite lookup_app_r, Nat.sub_diag by lia. cbn [app lookup list_lookup mbind option_bind]. rewrite Lk.
    change (Z.of_nat 33) with 33. change (33 =? 33) with true. cbn iota.
    destruct (Nat.leb_spec (length (pre ++ 33 :: k ++ push_script keys ++ b :: rest)) (length pre + 34)) as [L|L].
    { rewrite length_app in L. cbn [length] in L. rewrite !length_app, Lk in L. cbn [length] in L. lia. }
    cbn [length] in *. rewrite wrapS_id by lia.
    specialize (IH fuel (pre ++ 33 :: k) (n + 1)).
    replace (length (pre ++ 33 :: k)) with (length pre + 34)%nat in IH by (rewrite length_app; cbn [length]; lia).
    rewrite <- app_assoc in IH. etransitivity; [apply IH; lia|]. do 3 f_equal; lia.
Qed.

Definition key_list (keys : list bytes) : Prop := Forall (fun k => length k = 33%nat) keys.

Lemma script_number_small pre n rest i : 1 <= n <= 24 -> i = length pre ->
  script_number (pre ++ 0x50 + n :: rest) i = Some (n, (i + 1)%nat).
Proof.
  intros Hn ->. unfold script_number. rewrite (list_lookup_middle pre rest (0x50 + n) (length pre)) by reflexivity. cbn [mbind option_bind].
  destruct (Z.eqb_spec (0x50 + n) 1); [lia|]. destruct (Z.eqb_spec (0x50 + n) 2); [lia|].
  rewrite wrapS_id by lia. do 2 f_equal. lia.
Qed.

Lemma multisig_script_shape m keys :
  valid_m_of_n m (Z.of_nat (length keys)) -> key_list keys ->
  CreateMultiSigRedeemScript m keys =
    [] ++ 0x50 + m :: push_script keys ++ 0x50 + Z.of_nat (length keys) :: [CHECKMULTISIG] /\
  length (CreateMultiSigRedeemScript m keys) = (3 + 34 * length keys)%nat.
Proof.
  intros [Hm Hn] Hk.
  assert (Ec : CreateMultiSigRedeemScript m keys =
    [] ++ 0x50 + m :: push_script keys ++ 0x50 + Z.of_nat (length keys) :: [CHECKMULTISIG]).
  { unfold CreateMultiSigRedeemScript. set (n := Z.of_nat (length keys)) in *.
    destruct (Z.leb_spec 1 m); [|lia]. destruct (Z.leb_spec m n); [|lia]. destruct (Z.leb_spec n 24); [|lia].
    cbn [andb negb]. rewrite !PushNumber_small, push_script_PushData; [done| |lia|lia].
    eapply list.Forall_impl; [exact Hk|]. intros k Lk. cbn in Lk. rewrite Lk. lia. }
  split; [done|]. rewrite Ec. cbn [app length]. rewrite length_app, length_push_script by done.
  cbn [length]. lia.
Qed.

Lemma recognised_multisig m keys :
  valid_m_of_n m (Z.of_nat (length keys)) -> key_list keys ->
  IsMultiSigContract (CreateMultiSigRedeemScript m keys) = Some true.
Proof.
  intros Hv Hk. destruct (multisig_script_shape m keys Hv Hk) as [Ec Hlen]. destruct Hv as [Hm Hn].
  unfold IsMultiSigContract. rewrite Hlen. destruct (Nat.ltb_spec (3 + 34 * length keys) 37); [lia|].
  rewrite Ec. rewrite (list_lookup_middle [] _ _ 0) by done. cbn [mbind option_bind].
  destruct (Z.ltb_spec PUSH16 (0x50 + m)) as [L|_]; [unfold PUSH16 in L; lia|].
  destruct (Z.ltb_spec (0x50 + m) PUSH1) as [L|_]; [unfold PUSH1 in L; lia|]. cbn [andb].
  rewrite script_number_small by (done || lia). cbn [mbind option_bind].
  destruct (Z.ltb_spec m 1); [lia|]. destruct (Z.ltb_spec 1024 m); [lia|]. cbn [orb].
  set (n := Z.of_nat (length keys)) in *.
  change ([] ++ 0x50 + m :: push_script keys ++ 0x50 + n :: [CHECKMULTISIG])
    with ([0x50 + m] ++ push_script keys ++ 0x50 + n :: [CHECKMULTISIG]) in *.
  change (0 + 1)%nat with (length [0x50 + m]).
  pose proof (count_keys_script (3 + 34 * length keys) [0x50 + m] keys (0x50 + n) [CHECKMULTISIG] 0 Hk) as ->; try lia.
  cbn [mbind option_bind length]. rewrite Z.add_0_l. fold n.
  destruct (Z.ltb_spec n m); [lia|]. destruct (Z.ltb_spec 1024 n); [lia|]. cbn [orb].
  rewrite app_assoc. pose proof (length_push_script keys Hk) as Lp.
  rewrite script_number_small by (lia || (rewrite length_app, Lp; done)). cbn [mbind option_bind].
  rewrite Z.eqb_refl. cbn [negb]. rewrite lookup_app_r by (rewrite length_app, Lp; cbn [length]; lia).
  rewrite length_app, Lp. cbn [length].
  replace (1 + 34 * length keys + 1 - (1 + 34 * length keys))%nat with 1%nat by lia.
  cbn [lookup list_lookup mbind option_bind]. rewrite Z.eqb_refl. cbn [negb]. f_equal.
  apply Nat.eqb_eq. lia.
Qed.

Lemma recognised_standard pubkey : length pubkey = 33%nat ->
  IsStandard (CreateSignatureRedeemScript pubkey) = true.
Proof.
  intros Hk. unfold IsStandard, CreateSignatureRedeemScript, PushData. rewrite Hk.
  change (Z.of_nat 33 <=? PUSHBYTES75) with true. cbn iota. rewrite length_app. cbn [length]. rewrite Hk.
  change (Z.of_nat 33) with 33. cbn [app nth]. rewrite app_nth2 by lia. rewrite Hk. done.
Qed.

Section Signing.
Context (ripemd160 : bytes -> bytes) (ripemd160_length : forall d, length (ripemd160 d) = 20%nat).

Lemma ToCodeHash_ok code : snd (ToCodeHash ripemd160 code) = None.
Proof. unfold ToCodeHash, Uint160ParseFromBytes. by rewrite ripemd160_length. Qed.

(** The contract the builders return. *)
Definition multisig_contract (owner : Uint160) (m : Z) (keys : list bytes) : Contract :=
  fst (CreateMultiSigContract ripemd160 owner m keys).
Definition signature_contract (key : bytes) : Contract := fst (CreateSignatureContract ripemd160 key).

Lemma multisig_contract_eq owner m keys :
  CreateMultiSigContract ripemd160 owner m keys =
    (mkContract (CreateMultiSigRedeemScript m keys) (replicate (Z.to_nat m) Signature_param)
       (fst (ToCodeHash ripemd160 (CreateMultiSigRedeemScript m keys))) owner, None).
Proof.
  unfold CreateMultiSigContract. pose proof (ToCodeHash_ok (CreateMultiSigRedeemScript m keys)) as H.
  destruct (ToCodeHash ripemd160 _) as [h e]. cbn in *. by subst.
Qed.

Lemma signature_contract_eq key :
  CreateSignatureContract ripemd160 key =
    (mkContract (CreateSignatureRedeemScript key) [Signature_param]
       (fst (ToCodeHash ripemd160 (CreateSignatureRedeemScript key))) (fst (ToCodeHash ripemd160 key)), None).
Proof.
  unfold CreateSignatureContract. pose proof (ToCodeHash_ok key) as H.
  pose proof (ToCodeHash_ok (CreateSignatureRedeemScript key)) as H'.
  destruct (ToCodeHash ripemd160 key) as [h e]. cbn in H. subst e.
  destruct (ToCodeHash ripemd160 (CreateSignatureRedeemScript key)) as [h' e]. cbn in *. by subst.
Qed.

Lemma GetType_multisig owner m keys :
  valid_m_of_n m (Z.of_nat (length keys)) -> key_list keys ->
  GetType (multisig_contract owner m keys) = Some MultiSigContract.
Proof.
  intros Hv Hk. unfold GetType, multisig_contract. rewrite multisig_contract_eq. cbn [fst c_Code].
  destruct (multisig_script_shape m keys Hv Hk) as [_ L]. unfold IsStandard. rewrite L.
  destruct (Nat.eqb_spec (3 + 34 * length keys) 35); [lia|]. cbn [andb].
  by rewrite recognised_multisig.
Qed.

Lemma GetType_signature key : length key = 33%nat ->
  GetType (signature_contract key) = Some SignatureContract.
Proof.
  intros Hk. unfold GetType, signature_contract. rewrite signature_contract_eq. cbn [fst c_Code].
  by rewrite recognised_standard.
Qed.

(** Signatures are added one call at a time. *)
Fixpoint add_signatures (cxt : ContractContext) (c : Contract) (sigs : list bytes) : option ContractContext :=
  match sigs with
  | [] => Some cxt
  | s :: sigs => '(cxt, _) ← AddContract cxt c s; add_signatures cxt c sigs
  end.

(** The context of a contract that has received the signatures [dn]. *)
Definition signing_state (c : Contract) (dn : list bytes) : ContractContext :=
  mkContractContext [c_ProgramHash c]
    [match dn with [] => None | _ => Some (c_Code c) end]
    [match dn with
     | [] => None
     | _ => Some (map Some dn ++ replicate (length (c_Parameters c) - length dn) None)
     end]
    (if decide (length dn = length (c_Parameters c)) then 0 else Z.of_nat (length dn)).

(** [Add] on the context of a single program. *)
Lemma cxt_Add_single c code ps t i s :
  let ps' := default (replicate (length (c_Parameters c)) None) ps in
  (i < length ps')%nat ->
  cxt_Add (mkContractContext [c_ProgramHash c] [code] [ps] t) c (Z.of_nat i) s =
    Some (mkContractContext [c_ProgramHash c] [Some (default (c_Code c) code)]
            [Some (<[i := Some s]> ps')] t, None).
Proof.
  intros ps' Hi. unfold cxt_Add, GetIndex. cbn [ProgramHashes index_of_hash].
  rewrite decide_True by reflexivity. change (default 0%nat (Some 0%nat)) with 0%nat.
  cbn [Codes cxt_Parameters lookup list_lookup mbind option_bind].
  change (match ps with None => _ | Some ps => ps end) with ps'. rewrite Nat2Z.id.
  destruct (Z.ltb_spec (Z.of_nat i) 0); [lia|].
  destruct (Z.leb_spec (Z.of_nat (length ps')) (Z.of_nat i)); [lia|]. cbn [orb].
  destruct code; reflexivity.
Qed.

Lemma AddContract_step c dn s :
  GetType c = Some MultiSigContract -> (length dn < length (c_Parameters c))%nat ->
  AddContract (signing_state c dn) c s = Some (signing_state c (dn ++ [s]), None).
Proof.
  intros Ht Hl. unfold AddContract. rewrite Ht. cbn [mbind option_bind]. unfold signing_state.
  rewrite (decide_False (P := length dn = _)) by lia. cbn [tempParaIndex].
  set (ps := match dn with [] => None | _ => Some (map Some dn ++ _) end).
  assert (Eps : default (replicate (length (c_Parameters c)) None) ps =
                map Some dn ++ replicate (length (c_Parameters c) - length dn) None).
  { unfold ps. destruct dn; [cbn; by rewrite Nat.sub_0_r|done]. }
  rewrite cxt_Add_single by (rewrite Eps, length_app, length_map, length_replicate; lia).
  cbn [mbind option_bind tempParaIndex ProgramHashes Codes cxt_Parameters]. rewrite Eps.
  destruct (dn ++ [s]) as [|d0 dr] eqn:Ed; [by destruct dn|]. rewrite <- Ed. do 3 f_equal.
  - by destruct dn.
  - do 2 f_equal. rewrite map_app, length_app. cbn [map length].
    rewrite insert_app_r_alt by (rewrite length_map; lia). rewrite length_map, Nat.sub_diag, <- app_assoc.
    f_equal. by replace (length (c_Parameters c) - length dn)%nat
      with (S (length (c_Parameters c) - (length dn + 1))) by lia.
  - rewrite length_app. cbn [length]. case_decide as E;
      destruct (Z.eqb_spec (Z.of_nat (length dn) + 1) (Z.of_nat (length (c_Parameters c)))); lia.
Qed.

Lemma add_signatures_state c sigs dn :
  GetType c = Some MultiSigContract -> (length dn + length sigs <= length (c_Parameters c))%nat ->
  add_signatures (signing_state c dn) c sigs = Some (signing_state c (dn ++ sigs)).
Proof.
  intros Ht. revert dn. induction sigs as [|s sigs IH]; intros dn Hl; [by rewrite app_nil_r|].
  cbn [add_signatures length] in *. rewrite AddContract_step by (done || lia). cbn [mbind option_bind].
  rewrite IH by (rewrite length_app; cbn [length]; lia). by rewrite <- app_assoc.
Qed.
End Signing.

Lemma build_parameter_signature s : length s = 64%nat -> build_parameter (Some s) = PushData s.
Proof. intros L. unfold build_parameter. change (default [] (Some s)) with s. by rewrite L. Qed.

(** Programs of a signing state: complete exactly when every parameter is in. *)
Lemma signing_state_programs c sigs :
  Forall (fun s => length s = 64%nat) sigs -> (length sigs <= length (c_Parameters c))%nat ->
  (0 < length (c_Parameters c))%nat ->
  cxt_GetPrograms (signing_state c sigs) =
    if decide (length sigs = length (c_Parameters c))
    then Some [mkProgram (c_Code c) (concat (map PushData sigs))] else None.
Proof.
  intros Hs Hl Hp. unfold cxt_GetPrograms, IsCompleted, signing_state. cbn [cxt_Parameters forallb].
  destruct sigs as [|s sigs]; [case_decide as E; [cbn in E; lia|done]|].
  set (l := s :: sigs) in *. rewrite forallb_app.
  assert (Hf : forallb (fun pp : option bytes => match pp with None => false | Some _ => true end) (map Some l) = true)
    by (by apply forallb_forall; intros ? (? & <- & ?)%in_map_iff).
  rewrite Hf. cbn [andb]. case_decide as E.
  - rewrite E, Nat.sub_diag. cbn [replicate forallb andb]. unfold GetUncompletedPrograms.
    cbn [Codes cxt_Parameters zip_with]. unfold build_program. cbn [default id]. do 4 f_equal.
    rewrite app_nil_r, map_map. apply map_ext_in. intros x Hx. apply build_parameter_signature.
    by apply (proj1 (List.Forall_forall _ _) Hs).
  - destruct (length (c_Parameters c) - length l)%nat eqn:El; [lia|done].
Qed.

(** the multi-signature signing flow.  [CreateMultiSigContract] builds a
    contract that [GetType] recognises as multi-signature; adding signatures to
    a fresh context for its program hash yields no program until the [m]-th
    signature is in, and then exactly one program, whose redeem script is the
    contract's and whose parameter pushes the signatures in the order they were
    added. *)
Theorem multisig_signing_flow (ripemd160 : bytes -> bytes) (owner : Uint160) (m : Z) (keys sigs : list bytes) :
  (forall d, length (ripemd160 d) = 20%nat) ->
  valid_m_of_n m (Z.of_nat (length keys)) -> Forall (fun k => length k = 33%nat) keys ->
  Forall (fun s => length s = 64%nat) sigs -> Z.of_nat (length sigs) <= m ->
  let c := fst (CreateMultiSigContract ripemd160 owner m keys) in
  GetType c = Some MultiSigContract /\
  (cxt ← add_signatures (NewContractContext [c_ProgramHash c]) c sigs; Some (cxt_GetPrograms cxt)) =
    Some (if decide (Z.of_nat (length sigs) = m)
          then Some [mkProgram (CreateMultiSigRedeemScript m keys) (concat (map PushData sigs))]
          else None).
Proof.
  intros Hr Hv Hk Hs Hl c. pose proof (GetType_multisig ripemd160 Hr owner m keys Hv Hk) as Ht.
  fold (multisig_contract ripemd160 owner m keys) in c. split; [done|].
  assert (Hp : length (c_Parameters c) = Z.to_nat m).
  { unfold c, multisig_contract. rewrite multisig_contract_eq by done. cbn. by rewrite length_replicate. }
  destruct Hv as [Hm _].
  replace (NewContractContext [c_ProgramHash c]) with (signing_state c [])
    by (unfold signing_state; cbn [length]; rewrite decide_False by lia; done).
  rewrite add_signatures_state by (done || cbn; lia). cbn [app mbind option_bind]. f_equal.
  rewrite signing_state_programs, Hp by (done || lia).
  destruct (decide (length sigs = Z.to_nat m)), (decide (Z.of_nat (length sigs) = m)); try lia; [|done].
  do 3 f_equal. unfold c, multisig_contract. by rewrite multisig_contract_eq.
Qed.

Lemma multisig_signing_flow_witness :
  let c := fst (CreateMultiSigContract sample_ripemd zero160 2 [repeat 1 33; repeat 2 33; repeat 3 33]) in
  GetType c = Some MultiSigContract /\
  (cxt ← add_signatures (NewContractContext [c_ProgramHash c]) c [repeat 7 64]; Some (cxt_GetPrograms cxt)) = Some None.
Proof.
  apply (multisig_signing_flow sample_ripemd zero160 2 [repeat 1 33; repeat 2 33; repeat 3 33] [repeat 7 64]).
  - intros d. apply sample_ripemd_length.
  - unfold valid_m_of_n. cbn. lia.
  - repeat constructor.
  - repeat constructor.
  - cbn. lia.
Defined.

(** the single-signature signing flow.  [CreateSignatureContract] builds a
    contract that [GetType] recognises as a signature contract, and adding one
    signature to a fresh context completes it with the program that pushes the
    signature for the contract's redeem script. *)
Theorem signature_signing_flow (ripemd160 : bytes -> bytes) (key sgn : bytes) :
  (forall d, length (ripemd160 d) = 20%nat) -> length key = 33%nat -> length sgn = 64%nat ->
  let c := fst (CreateSignatureContract ripemd160 key) in
  GetType c = Some SignatureContract /\ c_ProgramHash c = fst (ToCodeHash ripemd160 (c_Code c)) /\
  cxt_GetPrograms (NewContractContext [c_ProgramHash c]) = None /\
  exists cxt, AddContract (NewContractContext [c_ProgramHash c]) c sgn = Some (cxt, None) /\
    cxt_GetPrograms cxt = Some [mkProgram (CreateSignatureRedeemScript key) (PushData sgn)].
Proof.
  intros Hr Hk Hs c. pose proof (GetType_signature ripemd160 Hr key Hk) as Ht.
  fold (signature_contract ripemd160 key) in c. fold c in Ht.
  assert (Hc : c = mkContract (CreateSignatureRedeemScript key) [Signature_param]
         (fst (ToCodeHash ripemd160 (CreateSignatureRedeemScript key))) (fst (ToCodeHash ripemd160 key))).
  { unfold c, signature_contract. by rewrite signature_contract_eq. }
  split; [done|]. split; [by rewrite Hc|]. split; [done|].
  unfold AddContract. rewrite Ht. cbn [mbind option_bind].
  replace (signature_index (c_Parameters c) 0 (-1)) with (Some (Z.of_nat 0)) by (by rewrite Hc).
  unfold NewContractContext. cbn [length replicate].
  assert (Lp : length (c_Parameters c) = 1%nat) by (by rewrite Hc).
  eexists. split; [apply cxt_Add_single; cbn; rewrite Lp; cbn; lia|].
  change (default (replicate (length (c_Parameters c)) None) None) with (replicate (length (c_Parameters c)) (@None bytes)).
  rewrite Lp. cbn [replicate]. unfold cxt_GetPrograms, GetUncompletedPrograms, build_program.
  cbn -[PushData build_parameter]. rewrite build_parameter_signature by done. by rewrite app_nil_r, Hc.
Qed.

Lemma signature_signing_flow_witness :
  let c := fst (CreateSignatureContract sample_ripemd (repeat 2 33)) in
  GetType c = Some SignatureContract /\
  exists cxt, AddContract (NewContractContext [c_ProgramHash c]) c (repeat 9 64) = Some (cxt, None) /\
    cxt_GetPrograms cxt = Some [mkProgram (CreateSignatureRedeemScript (repeat 2 33)) (PushData (repeat 9 64))].
Proof.
  destruct (signature_signing_flow sample_ripemd (repeat 2 33) (repeat 9 64)) as (A & _ & _ & B).
  - intros d. apply sample_ripemd_length.
  - reflexivity.
  - reflexivity.
  - split; assumption.
Defined.
