(* ===== verification/Message.v ===== *)
(** [net/message]: the messages nodes exchange - the header with its magic
    number, command and checksum, the payloads and their binary form, and the
    table that allocates a message for a command.

    A message value is a [Messager]; a constructor that only embeds the header
    in the code only carries it here.  [Deserialization] fills a message that
    [AllocMsg] made and returns what it filled together with the error, because
    the dispatcher goes on with a partly filled message.  [None] is a panic.
    What the handlers do with messages is in [Handlers]. *)

From S2P Require Import Prelude Sha256 Serialization Common Transaction Merkle AuxPow Block Vm PubKey Contract.

Definition str (s : string) : bytes := map (fun c => Z.of_N (Ascii.N_of_ascii c)) (String.list_ascii_of_string s).

(** * net/protocol *)

Definition MSGCMDLEN : nat := 12.
Definition CMDOFFSET : nat := 4.
Definition CHECKSUMLEN : nat := 4.
Definition HASHLEN : Z := 32.
Definition MSGHDRLEN : Z := 24.
Definition MAXBLKHDRCNT : Z := 400.
Definition MAXINVHDRCNT : Z := 50.

(** [common.InventoryType]. *)
Definition TRANSACTION : Z := 0x01.
Definition BLOCK : Z := 0x02.
Definition CONSENSUS : Z := 0xe0.

Record NodeAddr := mkNodeAddr { na_Time : Z; na_Services : Z; na_IpAddr : bytes; na_Port : Z; na_ID : Z }.
Definition new_NodeAddr : NodeAddr := mkNodeAddr 0 0 (replicate 16 0) 0 0.

(** [binary.Read] of a value of [n] bytes: all of them, or an error that leaves
    the value as it was. *)
Definition binary_Read (n : Z) : rd (bytes * err) := if n =? 0 then mret ([], None) else ReadFull n.

Definition NodeAddr_Serialization (a : NodeAddr) : bytes :=
  WriteUint64 (uint64 (na_Time a)) ++ WriteUint64 (na_Services a) ++ na_IpAddr a ++ WriteUint16 (na_Port a) ++ WriteUint64 (na_ID a).
Definition NodeAddr_of (b : bytes) : NodeAddr :=
  mkNodeAddr (int64 (le_val (take 8 b))) (le_val (take 8 (drop 8 b))) (take 16 (drop 16 b))
    (le_val (take 2 (drop 32 b))) (le_val (take 8 (drop 34 b))).
Definition NodeAddr_Deserialization (a : NodeAddr) : rd (NodeAddr * err) :=
  '(b, e) ← binary_Read 42; iferr e return a ;; mret (NodeAddr_of b, None).

(** * The header *)

Record msgHdr := mkHdr { Magic : Z; CMD : bytes; Length : Z; Checksum : bytes }.
Definition new_hdr : msgHdr := mkHdr 0 (replicate MSGCMDLEN 0) 0 (replicate CHECKSUMLEN 0).

Definition Hdr_Serialization (h : msgHdr) : bytes :=
  WriteUint32 (Magic h) ++ CMD h ++ WriteUint32 (Length h) ++ Checksum h.
Definition hdr_of (b : bytes) : msgHdr :=
  mkHdr (le_val (take 4 b)) (take 12 (drop 4 b)) (le_val (take 4 (drop 16 b))) (take 4 (drop 20 b)).
(** [binary.Read(buf, binary.LittleEndian, &hdr)]. *)
Definition read_hdr (h : msgHdr) : rd (msgHdr * err) :=
  '(b, e) ← binary_Read MSGHDRLEN; iferr e return h ;; mret (hdr_of b, None).
Definition in_buffer {A} (m : rd A) (p : bytes) : option A := fst <$> m (mkReader BytesBuffer p).
Definition Hdr_Deserialization (h : msgHdr) (p : bytes) : option (msgHdr * err) :=
  p ← slice p 0 (Z.to_nat MSGHDRLEN); in_buffer (read_hdr h) p.

Definition checkSum (p : bytes) : bytes := take CHECKSUMLEN (dsha256 p).
(** [copy(hdr.CMD[0:len(cmd)], cmd)] on a new header. *)
Definition cmd_field (cmd : bytes) : bytes := cmd ++ replicate (MSGCMDLEN - length cmd) 0.

Definition MsgType (buf : bytes) : option (bytes * err) :=
  cmd ← slice buf CMDOFFSET (CMDOFFSET + MSGCMDLEN);
  match list_find (eq 0) cmd with
  | Some (n, _) => Some (take n cmd, None)
  | None => Some ([], Some (NewError "Unexpected length of CMD command"))
  end.

Fixpoint msg_reverse (input : bytes) : bytes :=
  match input with [] => [] | b :: input => msg_reverse input ++ [b] end.

Section Header.
Context (magic : Z).

Definition magicVerify (m : Z) : bool := m =? magic.
Definition ValidMsgHdr (buf : bytes) : option bool :=
  '(h, _) ← Hdr_Deserialization new_hdr buf; Some (magicVerify (Magic h)).
Definition PayloadLen (buf : bytes) : option Z :=
  '(h, _) ← Hdr_Deserialization new_hdr buf; Some (Length h).
(** The first place a header may start; [None] when there is none. *)
Fixpoint LocateMsgHdr (buf : bytes) : option bytes :=
  match buf with
  | [] => None
  | _ :: rest =>
      if Z.of_nat (length buf) <? MSGHDRLEN then None
      else if magicVerify (le_val (take 4 buf)) then Some buf
      else LocateMsgHdr rest
  end.

Definition hdr_init (hdr : msgHdr) (cmd checksum : bytes) (length : Z) : msgHdr :=
  mkHdr magic (cmd ++ drop (List.length cmd) (CMD hdr)) length (take CHECKSUMLEN checksum).
Definition hdr_Verify (hdr : msgHdr) (buf : bytes) : err :=
  if negb (magicVerify (Magic hdr)) then Some (NewError "Unmatched magic number")
  else if negb (bool_decide (Checksum hdr = checkSum buf)) then Some (NewError "Message Checksum error")
  else None.

(** The header the constructors of the messages fill in for a payload. *)
Definition payload_hdr (cmd payload : bytes) : msgHdr :=
  mkHdr magic (cmd_field cmd) (uint32 (Z.of_nat (length payload))) (checkSum payload).
End Header.

(** * Payloads *)

Record version_P := mkVersion {
  vp_Version : Z; vp_Services : Z; vp_TimeStamp : Z; vp_Port : Z; vp_HttpInfoPort : Z; vp_Cap : bytes;
  vp_Nonce : Z; vp_UserAgent : Z; vp_StartHeight : Z; vp_Relay : Z }.
Definition new_version_P : version_P := mkVersion 0 0 0 0 0 (replicate 32 0) 0 0 0 0.
Definition version_P_bytes (p : version_P) : bytes :=
  WriteUint32 (vp_Version p) ++ WriteUint64 (vp_Services p) ++ WriteUint32 (vp_TimeStamp p) ++
  WriteUint16 (vp_Port p) ++ WriteUint16 (vp_HttpInfoPort p) ++ vp_Cap p ++ WriteUint64 (vp_Nonce p) ++
  WriteUint8 (vp_UserAgent p) ++ WriteUint64 (vp_StartHeight p) ++ WriteUint8 (vp_Relay p).
Definition version_P_of (b : bytes) : version_P :=
  mkVersion (le_val (take 4 b)) (le_val (take 8 (drop 4 b))) (le_val (take 4 (drop 12 b)))
    (le_val (take 2 (drop 16 b))) (le_val (take 2 (drop 18 b))) (take 32 (drop 20 b))
    (le_val (take 8 (drop 52 b))) (le_val (take 1 (drop 60 b))) (le_val (take 8 (drop 61 b))) (le_val (take 1 (drop 69 b))).

(** The payload of [blocksReq] and of [headersReq]. *)
Record hashes_P := mkHashes { hp_len : Z; hashStart : list Uint256; hashEnd : Uint256 }.
Definition new_hashes_P : hashes_P := mkHashes 0 [] zero256.
Definition hashes_P_bytes (p : hashes_P) : bytes :=
  WriteUint32 (hp_len p) ++ concat (map Uint_Serialize (hashStart p)) ++ Uint_Serialize (hashEnd p).

Record InvPayload := mkInvP { InvType : Z; Cnt : Z; Blk : bytes }.
Definition NewInvPayload := mkInvP.
Definition InvPayload_Serialization (p : InvPayload) : bytes :=
  WriteUint8 (InvType p) ++ WriteUint32 (Cnt p) ++ Blk p.

Record ConsensusPayload := mkConsensus {
  cp_Version : Z; cp_PrevHash : Uint256; cp_Height : Z; BookKeeperIndex : Z; cp_Timestamp : Z;
  cp_Data : bytes; cp_Owner : option PubKey; cp_Program : option Program }.
Definition new_ConsensusPayload : ConsensusPayload := mkConsensus 0 zero256 0 0 0 [] None None.
Definition set_cp_Version (v : Z) (cp : ConsensusPayload) : ConsensusPayload :=
  mkConsensus v (cp_PrevHash cp) (cp_Height cp) (BookKeeperIndex cp) (cp_Timestamp cp) (cp_Data cp) (cp_Owner cp) (cp_Program cp).
Definition set_cp_PrevHash (v : Uint256) (cp : ConsensusPayload) : ConsensusPayload :=
  mkConsensus (cp_Version cp) v (cp_Height cp) (BookKeeperIndex cp) (cp_Timestamp cp) (cp_Data cp) (cp_Owner cp) (cp_Program cp).
Definition set_cp_Height (v : Z) (cp : ConsensusPayload) : ConsensusPayload :=
  mkConsensus (cp_Version cp) (cp_PrevHash cp) v (BookKeeperIndex cp) (cp_Timestamp cp) (cp_Data cp) (cp_Owner cp) (cp_Program cp).
Definition set_cp_Index (v : Z) (cp : ConsensusPayload) : ConsensusPayload :=
  mkConsensus (cp_Version cp) (cp_PrevHash cp) (cp_Height cp) v (cp_Timestamp cp) (cp_Data cp) (cp_Owner cp) (cp_Program cp).
Definition set_cp_Timestamp (v : Z) (cp : ConsensusPayload) : ConsensusPayload :=
  mkConsensus (cp_Version cp) (cp_PrevHash cp) (cp_Height cp) (BookKeeperIndex cp) v (cp_Data cp) (cp_Owner cp) (cp_Program cp).
Definition set_cp_Data (v : bytes) (cp : ConsensusPayload) : ConsensusPayload :=
  mkConsensus (cp_Version cp) (cp_PrevHash cp) (cp_Height cp) (BookKeeperIndex cp) (cp_Timestamp cp) v (cp_Owner cp) (cp_Program cp).
Definition set_cp_Owner (v : option PubKey) (cp : ConsensusPayload) : ConsensusPayload :=
  mkConsensus (cp_Version cp) (cp_PrevHash cp) (cp_Height cp) (BookKeeperIndex cp) (cp_Timestamp cp) (cp_Data cp) v (cp_Program cp).
Definition set_cp_Program (v : option Program) (cp : ConsensusPayload) : ConsensusPayload :=
  mkConsensus (cp_Version cp) (cp_PrevHash cp) (cp_Height cp) (BookKeeperIndex cp) (cp_Timestamp cp) (cp_Data cp) (cp_Owner cp) v.

(** * consensus.go *)

Definition cp_SerializeUnsigned (cp : ConsensusPayload) : option bytes :=
  owner ← PubKey_Serialize (cp_Owner cp);
  Some (WriteUint32 (cp_Version cp) ++ Uint_Serialize (cp_PrevHash cp) ++ WriteUint32 (cp_Height cp) ++
        WriteUint16 (BookKeeperIndex cp) ++ WriteUint32 (cp_Timestamp cp) ++ WriteVarBytes (cp_Data cp) ++ owner).
Definition cp_Serialize (cp : ConsensusPayload) : option (bytes * err) :=
  b ← cp_SerializeUnsigned cp;
  match cp_Program cp with
  | None => Some (b, Some (NewError "Program in consensus is NULL"))
  | Some p => Some (b ++ Program_Serialize p, None)
  end.
Definition cp_GetMessage (cp : ConsensusPayload) : option bytes := cp_SerializeUnsigned cp.
Definition cp_Hash (cp : ConsensusPayload) : option Uint256 := d ← cp_SerializeUnsigned cp; Some (dsha256 d).
Definition cp_Type (cp : ConsensusPayload) : Z := CONSENSUS.
Definition cp_GetPrograms (cp : ConsensusPayload) : list (option Program) := [cp_Program cp].
(** [None] is the nil slice. *)
Definition cp_SetPrograms (cp : ConsensusPayload) (programs : option (list Program)) : ConsensusPayload :=
  match programs with
  | Some (p :: _) => set_cp_Program (Some p) cp
  | _ => cp
  end.
(** [currentBlockHash]: what the store of the default ledger answers.  The hash
    of a contract that was not created is a nil dereference. *)
Definition cp_GetProgramHashes (ripemd160 : bytes -> bytes) (currentBlockHash : Uint256) (cp : ConsensusPayload) :
    option (list Uint160 * err) :=
  if negb (bool_decide (cp_PrevHash cp = currentBlockHash)) then Some ([], Some (NewError "The PreHash Not matched."))
  else
    owner ← cp_Owner cp;
    '(key, e) ← EncodePoint owner true;
    let '(c, e) := CreateSignatureContract ripemd160 key in
    if is_err e then None else Some ([c_ProgramHash c], None).

Definition cp_DeserializeUnsigned (cp : ConsensusPayload) : rd (ConsensusPayload * err) :=
  '(v, e) ← ReadUint32;
  let cp := set_cp_Version v cp in
  if is_err e then mret (cp, Some (NewError "consensus item Version Deserialize failed.")) else
  '(h, e) ← Uint256_Deserialize zero256;
  if is_err e then mret (cp, Some (NewError "consensus item preHash Deserialize failed.")) else
  let cp := set_cp_PrevHash h cp in
  '(height, e) ← ReadUint32;
  let cp := set_cp_Height height cp in
  if is_err e then mret (cp, Some (NewError "consensus item Height Deserialize failed.")) else
  '(i, e) ← ReadUint16;
  let cp := set_cp_Index i cp in
  if is_err e then mret (cp, Some (NewError "consensus item BookKeeperIndex Deserialize failed.")) else
  '(t, e) ← ReadUint32;
  let cp := set_cp_Timestamp t cp in
  if is_err e then mret (cp, Some (NewError "consensus item Timestamp Deserialize failed.")) else
  '(d, e) ← ReadVarBytes;
  let cp := set_cp_Data d cp in
  if is_err e then mret (cp, Some (NewError "consensus item Data Deserialize failed.")) else
  '(pk, e) ← PubKey_DeSerialize (mkPubKey None None);
  if is_err e then mret (cp, Some (NewError "consensus item Owner deserialize failed.")) else
  mret (set_cp_Owner (Some pk) cp, None).

(** The error of the unsigned part is overwritten. *)
Definition cp_Deserialize (cp : ConsensusPayload) : rd (ConsensusPayload * err) :=
  '(cp, _) ← cp_DeserializeUnsigned cp;
  '(pg, e) ← Program_Deserialize new_Program;
  if is_err e then mret (cp, Some (NewError "Blockdata item Program Deserialize failed.")) else
  mret (set_cp_Program (Some pg) cp, None).

(** * Messages *)

Inductive Messager :=
  | MMsgHdr (h : msgHdr)
  | MVersion (h : msgHdr) (P : version_P) (pk : option PubKey)
  | MVerACK (h : msgHdr)
  | MHeadersReq (h : msgHdr) (p : hashes_P)
  | MBlkHeader (h : msgHdr) (cnt : Z) (blkHdr : list Blockdata)
  | MAddrReq (h : msgHdr)
  | MAddr (h : msgHdr) (nodeCnt : Z) (nodeAddrs : list NodeAddr)
  | MInv (h : msgHdr) (P : InvPayload)
  | MDataReq (h : msgHdr) (dataType : Z) (hash : Uint256)
  | MBlock (h : msgHdr) (blk : Block)
  | MTrn (h : msgHdr) (txn : Transaction)
  | MConsensus (h : msgHdr) (cons : ConsensusPayload)
  | MFilteradd (h : msgHdr)
  | MFilterclear (h : msgHdr)
  | MFilterload (h : msgHdr)
  | MBlocksReq (h : msgHdr) (p : hashes_P)
  | MTxnPool (h : msgHdr)
  | MNotFound (h : msgHdr) (hash : Uint256)
  | MPing (h : msgHdr) (height : Z)
  | MPong (h : msgHdr) (height : Z).

Definition msg_hdr (m : Messager) : msgHdr :=
  match m with
  | MMsgHdr h | MVersion h _ _ | MVerACK h | MHeadersReq h _ | MBlkHeader h _ _ | MAddrReq h | MAddr h _ _
  | MInv h _ | MDataReq h _ _ | MBlock h _ | MTrn h _ | MConsensus h _ | MFilteradd h | MFilterclear h
  | MFilterload h | MBlocksReq h _ | MTxnPool h | MNotFound h _ | MPing h _ | MPong h _ => h
  end.

(** Every [Verify] checks the header only. *)
Definition Verify (magic : Z) (m : Messager) (buf : bytes) : err := hdr_Verify magic (msg_hdr m) buf.

(** A header whose command is [t]; [make] panics on a negative length, and
    unsupported or unknown commands give nil. *)
Definition alloc_hdr (t : bytes) : msgHdr := mkHdr 0 (cmd_field t) 0 (replicate CHECKSUMLEN 0).
Definition AllocMsg (t : bytes) (length : Z) : option (option Messager) :=
  let h := alloc_hdr t in
  if bool_decide (t = str "msgheader") then Some (Some (MMsgHdr new_hdr))
  else if bool_decide (t = str "version") then Some (Some (MVersion h new_version_P None))
  else if bool_decide (t = str "verack") then Some (Some (MVerACK h))
  else if bool_decide (t = str "getheaders") then Some (Some (MHeadersReq h new_hashes_P))
  else if bool_decide (t = str "headers") then Some (Some (MBlkHeader h 0 []))
  else if bool_decide (t = str "getaddr") then Some (Some (MAddrReq h))
  else if bool_decide (t = str "addr") then Some (Some (MAddr h 0 []))
  else if bool_decide (t = str "inv") then
    let n := length - MSGHDRLEN - 1 in
    if (n <? 0) || negb (make_ok 1 n) then None
    else Some (Some (MInv h (mkInvP 0 0 (replicate (Z.to_nat n) 0))))
  else if bool_decide (t = str "getdata") then Some (Some (MDataReq h 0 zero256))
  else if bool_decide (t = str "block") then Some (Some (MBlock h new_Block))
  else if bool_decide (t = str "tx") then Some (Some (MTrn h new_Transaction))
  else if bool_decide (t = str "consensus") then Some (Some (MConsensus h new_ConsensusPayload))
  else if bool_decide (t = str "filteradd") then Some (Some (MFilteradd h))
  else if bool_decide (t = str "filterclear") then Some (Some (MFilterclear h))
  else if bool_decide (t = str "filterload") then Some (Some (MFilterload h))
  else if bool_decide (t = str "getblocks") then Some (Some (MBlocksReq h new_hashes_P))
  else if bool_decide (t = str "txnpool") then Some (Some (MTxnPool h))
  else if bool_decide (t = str "notfound") then Some (Some (MNotFound h zero256))
  else if bool_decide (t = str "ping") then Some (Some (MPing h 0))
  else if bool_decide (t = str "pong") then Some (Some (MPong h 0))
  else Some None.

(** * [Serialization] *)

Definition hdr_and (h : msgHdr) (payload : bytes) : option (bytes * err) := Some (Hdr_Serialization h ++ payload, None).
Definition version_Serialization (h : msgHdr) (P : version_P) (pk : option PubKey) : option (bytes * err) :=
  k ← PubKey_Serialize pk; hdr_and h (version_P_bytes P ++ k).
Definition headersReq_Serialization (h : msgHdr) (p : hashes_P) : option (bytes * err) := hdr_and h (hashes_P_bytes p).
Definition blocksReq_Serialization (h : msgHdr) (p : hashes_P) : option (bytes * err) := hdr_and h (hashes_P_bytes p).
Definition blkHeader_Serialization (h : msgHdr) (cnt : Z) (hs : list Blockdata) : option (bytes * err) :=
  bs ← mapM Header_Serialize hs; hdr_and h (WriteUint32 cnt ++ concat bs).
Definition addrReq_Serialization (h : msgHdr) : option (bytes * err) := hdr_and h [].
Definition addr_Serialization (h : msgHdr) (cnt : Z) (l : list NodeAddr) : option (bytes * err) :=
  hdr_and h (WriteUint64 cnt ++ concat (map NodeAddr_Serialization l)).
Definition Inv_Serialization (h : msgHdr) (P : InvPayload) : option (bytes * err) := hdr_and h (InvPayload_Serialization P).
Definition dataReq_Serialization (h : msgHdr) (ty : Z) (hash : Uint256) : option (bytes * err) :=
  hdr_and h (WriteUint8 ty ++ Uint_Serialize hash).
Definition block_Serialization (h : msgHdr) (b : Block) : option (bytes * err) := d ← Block_Serialize b; hdr_and h d.
Definition trn_Serialization (h : msgHdr) (t : Transaction) : option (bytes * err) := '(d, _) ← Tx_Serialize t; hdr_and h d.
Definition consensus_Serialization (h : msgHdr) (cp : ConsensusPayload) : option (bytes * err) :=
  '(d, e) ← cp_Serialize cp; Some (Hdr_Serialization h ++ d, e).
Definition notFound_Serialization (h : msgHdr) (hash : Uint256) : option (bytes * err) := hdr_and h (Uint_Serialize hash).
Definition ping_Serialization (h : msgHdr) (n : Z) : option (bytes * err) := hdr_and h (WriteUint64 n).
Definition pong_Serialization (h : msgHdr) (n : Z) : option (bytes * err) := hdr_and h (WriteUint64 n).

Definition Serialization (m : Messager) : option (bytes * err) :=
  match m with
  | MMsgHdr h | MVerACK h | MFilteradd h | MFilterclear h | MFilterload h | MTxnPool h => hdr_and h []
  | MAddrReq h => addrReq_Serialization h
  | MVersion h P pk => version_Serialization h P pk
  | MHeadersReq h p => headersReq_Serialization h p
  | MBlocksReq h p => blocksReq_Serialization h p
  | MBlkHeader h cnt hs => blkHeader_Serialization h cnt hs
  | MAddr h cnt l => addr_Serialization h cnt l
  | MInv h P => Inv_Serialization h P
  | MDataReq h ty hash => dataReq_Serialization h ty hash
  | MBlock h b => block_Serialization h b
  | MTrn h t => trn_Serialization h t
  | MConsensus h cp => consensus_Serialization h cp
  | MNotFound h hash => notFound_Serialization h hash
  | MPing h n => ping_Serialization h n
  | MPong h n => pong_Serialization h n
  end.

(** * [Deserialization] *)

(** The loops over hashes and headers keep an element that failed and end
    without the error, which an inner variable of the same name holds. *)
Fixpoint read_kept {A} (n : nat) (item : rd (A * err)) (acc : list A) : rd (list A * bool) :=
  match n with
  | O => mret (acc, false)
  | S n =>
      '(a, e) ← item;
      if is_err e then mret (acc ++ [a], true) else read_kept n item (acc ++ [a])
  end.

Definition read_le (n : Z) (old : Z) : rd (Z * err) :=
  '(b, e) ← binary_Read n; iferr e return old ;; mret (le_val b, None).

Definition hashes_P_Deserialization (p : hashes_P) : rd (hashes_P * err) :=
  '(len, e) ← read_le 4 (hp_len p);
  iferr e return p ;;
  '(hs, failed) ← read_kept (Z.to_nat len) (Uint256_Deserialize zero256) (hashStart p);
  if (failed : bool) then mret (mkHashes len hs (hashEnd p), None) else
  '(h, e) ← Uint256_Deserialize (hashEnd p);
  mret (mkHashes len hs h, e).

Definition Inv_Deserialization (h : msgHdr) (P : InvPayload) (p : bytes) : option (Messager * err) :=
  '(h, e) ← Hdr_Deserialization h p;
  if is_err e then Some (MInv h P, e) else
  in_buffer (
    '(ty, e) ← ReadUint8;
    if is_err e then mret (MInv h P, e) else
    '(cnt, e) ← ReadUint32;
    if is_err e then mret (MInv h (mkInvP ty cnt (Blk P)), e) else
    let size := uint32 (cnt * HASHLEN) in
    '(b, e) ← binary_Read size;
    mret (MInv h (mkInvP ty cnt (if is_err e then replicate (Z.to_nat size) 0 else b)), e))
  (drop (Z.to_nat MSGHDRLEN) p).

(** The addresses after the one that failed stay zero. *)
Definition addr_Deserialization (h : msgHdr) (nodeCnt : Z) : rd (Messager * err) :=
  '(h, _) ← read_hdr h;
  '(n, e) ← read_le 8 nodeCnt;
  if negb (make_ok 48 n) then rd_panic else
  '(l, _) ← read_kept (Z.to_nat n) (NodeAddr_Deserialization new_NodeAddr) [];
  mret (MAddr h n (l ++ replicate (Z.to_nat n - length l) new_NodeAddr), e).

Definition version_Deserialization (h : msgHdr) (P : version_P) (pk : option PubKey) : rd (Messager * err) :=
  '(h, e) ← read_hdr h;
  if is_err e then mret (MVersion h P pk, Some (NewError "Parse version message hdr error")) else
  '(b, e) ← binary_Read 70;
  if is_err e then mret (MVersion h P pk, Some (NewError "Parse version P message error")) else
  let P := version_P_of b in
  '(k, e) ← PubKey_DeSerialize (mkPubKey None None);
  if is_err e then mret (MVersion h P pk, Some (NewError "Parse pubkey Deserialize failed.")) else
  mret (MVersion h P (Some k), None).

Definition dataReq_Deserialization (h : msgHdr) (ty : Z) (hash : Uint256) : rd (Messager * err) :=
  '(h, e) ← read_hdr h;
  if is_err e then mret (MDataReq h ty hash, Some (NewError "Parse datareq message hdr error")) else
  '(ty, e) ← read_le 1 ty;
  if is_err e then mret (MDataReq h ty hash, Some (NewError "Parse datareq message dataType error")) else
  '(hash, e) ← Uint256_Deserialize hash;
  if is_err e then mret (MDataReq h ty hash, Some (NewError "Parse datareq message hash error")) else
  mret (MDataReq h ty hash, None).

Definition addrReq_Deserialization (h : msgHdr) : rd (Messager * err) := '(h, e) ← read_hdr h; mret (MAddrReq h, e).
Definition headersReq_Deserialization (h : msgHdr) (q : hashes_P) : rd (Messager * err) :=
  '(h, e) ← read_hdr h; if is_err e then mret (MHeadersReq h q, e) else
  '(q, e) ← hashes_P_Deserialization q; mret (MHeadersReq h q, e).
Definition blocksReq_Deserialization (h : msgHdr) (q : hashes_P) : rd (Messager * err) :=
  '(h, e) ← read_hdr h; if is_err e then mret (MBlocksReq h q, e) else
  '(q, e) ← hashes_P_Deserialization q; mret (MBlocksReq h q, e).
Definition blkHeader_Deserialization (h : msgHdr) (cnt : Z) (hs : list Blockdata) : rd (Messager * err) :=
  '(h, e) ← read_hdr h; if is_err e then mret (MBlkHeader h cnt hs, e) else
  '(cnt, e) ← read_le 4 cnt; if is_err e then mret (MBlkHeader h cnt hs, e) else
  '(hs, _) ← read_kept (Z.to_nat cnt) Header_Deserialize hs; mret (MBlkHeader h cnt hs, None).
Definition block_Deserialization (h : msgHdr) (b : Block) : rd (Messager * err) :=
  '(h, e) ← read_hdr h;
  if is_err e then mret (MBlock h b, Some (NewError "Parse block message hdr error")) else
  '(b, e) ← Block_Deserialize b;
  mret (MBlock h b, if is_err e then Some (NewError "Parse block message error") else None).
Definition trn_Deserialization (h : msgHdr) (t : Transaction) : rd (Messager * err) :=
  '(h, _) ← read_hdr h; '(t, e) ← Tx_Deserialize t; mret (MTrn h t, e).
Definition consensus_Deserialization (h : msgHdr) (cp : ConsensusPayload) : rd (Messager * err) :=
  '(h, _) ← read_hdr h; '(cp, e) ← cp_Deserialize cp; mret (MConsensus h cp, e).
Definition notFound_Deserialization (h : msgHdr) (hash : Uint256) : rd (Messager * err) :=
  '(h, e) ← read_hdr h;
  if is_err e then mret (MNotFound h hash, Some (NewError "Parse notfound message hdr error")) else
  '(hash, e) ← Uint256_Deserialize hash;
  mret (MNotFound h hash, if is_err e then Some (NewError "Parse notfound message error") else None).
Definition ping_Deserialization (h : msgHdr) (n : Z) : rd (Messager * err) :=
  '(h, e) ← read_hdr h; if is_err e then mret (MPing h n, e) else
  '(n, e) ← ReadUint64; mret (MPing h n, e).
Definition pong_Deserialization (h : msgHdr) (n : Z) : rd (Messager * err) :=
  '(h, e) ← read_hdr h; if is_err e then mret (MPong h n, e) else
  '(n, e) ← ReadUint64; mret (MPong h n, e).

Definition Deserialization (m : Messager) (p : bytes) : option (Messager * err) :=
  match m with
  | MMsgHdr h => '(h, e) ← Hdr_Deserialization h p; Some (MMsgHdr h, e)
  | MVerACK h => '(h, e) ← Hdr_Deserialization h p; Some (MVerACK h, e)
  | MFilteradd h => '(h, e) ← Hdr_Deserialization h p; Some (MFilteradd h, e)
  | MFilterclear h => '(h, e) ← Hdr_Deserialization h p; Some (MFilterclear h, e)
  | MFilterload h => '(h, e) ← Hdr_Deserialization h p; Some (MFilterload h, e)
  | MTxnPool h => '(h, e) ← Hdr_Deserialization h p; Some (MTxnPool h, e)
  | MAddrReq h => in_buffer (addrReq_Deserialization h) p
  | MVersion h P pk => in_buffer (version_Deserialization h P pk) p
  | MHeadersReq h q => in_buffer (headersReq_Deserialization h q) p
  | MBlocksReq h q => in_buffer (blocksReq_Deserialization h q) p
  | MBlkHeader h cnt hs => in_buffer (blkHeader_Deserialization h cnt hs) p
  | MAddr h cnt l => in_buffer (addr_Deserialization h cnt) p
  | MInv h P => Inv_Deserialization h P p
  | MDataReq h ty hash => in_buffer (dataReq_Deserialization h ty hash) p
  | MBlock h b => in_buffer (block_Deserialization h b) p
  | MTrn h t => in_buffer (trn_Deserialization h t) p
  | MConsensus h cp => in_buffer (consensus_Deserialization h cp) p
  | MNotFound h hash => in_buffer (notFound_Deserialization h hash) p
  | MPing h n => in_buffer (ping_Deserialization h n) p
  | MPong h n => in_buffer (pong_Deserialization h n) p
  end.

(** * Constructors *)

Section New.
Context (magic : Z).

Definition NewPingMsg (height : Z) : option (bytes * err) :=
  Serialization (MPing (payload_hdr magic (str "ping") (WriteUint64 height)) height).
Definition NewPongMsg (height : Z) : option (bytes * err) :=
  Serialization (MPong (payload_hdr magic (str "pong") (WriteUint64 height)) height).

(** The checksum of an empty payload, as the code spells it. *)
Definition empty_sum : bytes := [0x5d; 0xf6; 0xe0; 0xe2].
Definition NewVerack : option (bytes * err) := Serialization (MVerACK (hdr_init magic new_hdr (str "verack") empty_sum 0)).
Definition newGetAddr : option (bytes * err) := Serialization (MAddrReq (hdr_init magic new_hdr (str "getaddr") empty_sum 0)).

Definition NewNotFound (hash : Uint256) : option (bytes * err) :=
  Serialization (MNotFound (payload_hdr magic (str "notfound") (Uint_Serialize hash)) hash).
Definition hashes_msg (blocator : list Uint256) (hash : Uint256) : hashes_P :=
  mkHashes (uint32 (Z.of_nat (length blocator))) blocator hash.
Definition NewBlocksReq (blocator : list Uint256) (hash : Uint256) : option (bytes * err) :=
  let p := hashes_msg blocator hash in
  Serialization (MBlocksReq (payload_hdr magic (str "getblocks") (hashes_P_bytes p)) p).
(** The block locator of the start hash is an argument. *)
Definition NewHeadersReq (blocator : list Uint256) (stopHash : Uint256) : option (bytes * err) :=
  let p := hashes_msg blocator stopHash in
  Serialization (MHeadersReq (payload_hdr magic (str "getheaders") (hashes_P_bytes p)) p).
Definition NewHeaders (headers : list Blockdata) (count : Z) : option (bytes * err) :=
  bs ← mapM Header_Serialize headers;
  Serialization (MBlkHeader (payload_hdr magic (str "headers") (WriteUint32 count ++ concat bs)) count headers).
Definition NewAddrs (nodeaddrs : list NodeAddr) (count : Z) : option (bytes * err) :=
  Serialization (MAddr (payload_hdr magic (str "addr") (WriteUint64 count ++ concat (map NodeAddr_Serialization nodeaddrs))) count nodeaddrs).
Definition NewInv (inv : InvPayload) : option (bytes * err) :=
  Serialization (MInv (payload_hdr magic (str "inv") (InvPayload_Serialization inv)) inv).
Definition NewBlock (bk : Block) : option (bytes * err) :=
  d ← Block_Serialize bk; Serialization (MBlock (payload_hdr magic (str "block") d) bk).
Definition NewTxn (txn : Transaction) : option (bytes * err) :=
  '(d, _) ← Tx_Serialize txn; Serialization (MTrn (payload_hdr magic (str "tx") d) txn).
Definition NewConsensus (cp : ConsensusPayload) : option (bytes * err) :=
  '(d, _) ← cp_Serialize cp;
  '(b, e) ← Serialization (MConsensus (payload_hdr magic (str "consensus") d) cp);
  if is_err e then Some ([], e) else Some (b, None).
(** The payload of [NewVersion], which [Handlers] fills from the node. *)
Definition version_msg (P : version_P) (pk : option PubKey) : option (bytes * err) :=
  k ← PubKey_Serialize pk;
  Serialization (MVersion (payload_hdr magic (str "version") (version_P_bytes P ++ k)) P pk).
(** The request [ReqBlkData] sends. *)
Definition getdata_msg (hash : Uint256) : option (bytes * err) :=
  Serialization (MDataReq (payload_hdr magic (str "getdata") (WriteUint8 BLOCK ++ Uint_Serialize hash)) BLOCK hash).
End New.

(** The other requests leave the header empty; the hash of a transaction is
    not even filled in. *)
Definition reqTxnData_msg : option (bytes * err) := Serialization (MDataReq new_hdr TRANSACTION zero256).
Definition reqConsensusData_msg (hash : Uint256) : option (bytes * err) := Serialization (MDataReq new_hdr CONSENSUS hash).
Definition ReqTxnPool_msg : option (bytes * err) := Serialization (MTxnPool (alloc_hdr (str "txnpool"))).

(** * Reading back *)

Record wf_hdr (h : msgHdr) : Prop := {
  wfh_nums : inU 32 (Magic h) /\ inU 32 (Length h);
  wfh_cmd : length (CMD h) = MSGCMDLEN;
  wfh_sum : length (Checksum h) = CHECKSUMLEN }.

Lemma binary_Read_reads enc : enc <> [] -> reads any_tail (binary_Read (Z.of_nat (length enc))) enc enc.
Proof.
  intros He k rest _. unfold binary_Read. rewrite (proj2 (Z.eqb_neq _ 0)) by (destruct enc; [done|cbn; lia]).
  unfold ReadFull. cbn [rdata rkind]. rewrite length_app, Nat2Z.inj_add.
  rewrite Z.min_l, Nat2Z.id, take_app_length, drop_app_length by lia.
  rewrite (proj2 (Z.eqb_neq _ 0)) by (destruct enc; [done|cbn; lia]).
  by rewrite (proj2 (Z.ltb_ge _ _)) by lia.
Qed.

Lemma read_le_reads n v old : (0 < n)%nat -> 0 <= v < 256 ^ Z.of_nat n ->
  reads any_tail (read_le (Z.of_nat n) old) (le_bytes n v) v.
Proof.
  intros Hn Hv k rest _. unfold read_le.
  assert (He : le_bytes n v <> []) by (destruct n; [lia|done]).
  pose proof (binary_Read_reads _ He) as R. rewrite length_le_bytes in R.
  erewrite (rd_field any_tail) by (exact R || exact I). cbn beta iota. by rewrite le_val_le_bytes, Z.mod_small.
Qed.

(** Fields of known lengths, one after the other. *)
Lemma length_WriteUint8 v : length (WriteUint8 v) = 1%nat.
Proof. reflexivity. Qed.
Lemma length_WriteUint16 v : length (WriteUint16 v) = 2%nat.
Proof. reflexivity. Qed.
Lemma length_WriteUint32 v : length (WriteUint32 v) = 4%nat.
Proof. reflexivity. Qed.
Lemma length_WriteUint64 v : length (WriteUint64 v) = 8%nat.
Proof. reflexivity. Qed.
Lemma le_val_WriteUint8 v : inU 8 v -> le_val (WriteUint8 v) = v.
Proof. intros H. cbn. lia. Qed.
Lemma le_val_WriteUint16 v : inU 16 v -> le_val (WriteUint16 v) = v.
Proof. intros H. unfold WriteUint16. rewrite le_val_le_bytes, Z.mod_small; [done|exact H]. Qed.
Lemma le_val_WriteUint32 v : inU 32 v -> le_val (WriteUint32 v) = v.
Proof. intros H. unfold WriteUint32. rewrite le_val_le_bytes, Z.mod_small; [done|exact H]. Qed.
Lemma le_val_WriteUint64 v : inU 64 v -> le_val (WriteUint64 v) = v.
Proof. intros H. unfold WriteUint64. rewrite le_val_le_bytes, Z.mod_small; [done|exact H]. Qed.
Create Rewrite HintDb layout.
#[local] Hint Rewrite length_WriteUint8 length_WriteUint16 length_WriteUint32 length_WriteUint64 : layout.
#[local] Hint Rewrite le_val_WriteUint8 le_val_WriteUint16 le_val_WriteUint32 le_val_WriteUint64 using assumption : layout.
#[local] Opaque WriteUint8 WriteUint16 WriteUint32 WriteUint64.

(** Read the fields of a struct off its encoding; the lengths of the byte
    arrays are hypotheses. *)
Ltac layout_len := autorewrite with layout; repeat match goal with H : length ?l = _ |- context [length ?l] => rewrite H end; cbn [Nat.sub].
Ltac layout :=
  repeat match goal with
    | |- context [drop ?n (?l ++ ?k)] => rewrite (drop_app_ge l k n) by (layout_len; lia); layout_len
    end;
  rewrite ?drop_0;
  repeat match goal with
    | |- context [take ?n (?l ++ ?k)] => rewrite (take_app_length' l k n) by (by layout_len)
    | |- context [take ?n ?l] => rewrite (take_ge l n) by (layout_len; lia)
    end;
  autorewrite with layout.

Lemma length_Hdr h : wf_hdr h -> length (Hdr_Serialization h) = 24%nat.
Proof. intros [_ Hc Hs]. unfold Hdr_Serialization, MSGCMDLEN, CHECKSUMLEN in *. rewrite !length_app. by layout_len. Qed.

Lemma hdr_of_Serialization h : wf_hdr h -> hdr_of (Hdr_Serialization h) = h.
Proof.
  intros [[Hm Hl] Hc Hs]. unfold hdr_of, Hdr_Serialization, MSGCMDLEN, CHECKSUMLEN in *. layout. by destruct h.
Qed.

Lemma read_hdr_reads h0 h : wf_hdr h -> reads any_tail (read_hdr h0) (Hdr_Serialization h) h.
Proof.
  intros W k rest _. unfold read_hdr. pose proof (length_Hdr h W) as L.
  assert (He : Hdr_Serialization h <> []) by (intros E; rewrite E in L; done).
  pose proof (binary_Read_reads _ He) as R. rewrite L in R.
  erewrite (rd_field any_tail) by (exact R || exact I). cbn beta iota. by rewrite hdr_of_Serialization.
Qed.

Lemma Hdr_Deserialization_spec h0 h rest : wf_hdr h -> Hdr_Deserialization h0 (Hdr_Serialization h ++ rest) = Some (h, None).
Proof.
  intros W. pose proof (length_Hdr h W) as L. unfold Hdr_Deserialization, slice. rewrite length_app, L. cbn [andb Nat.leb].
  rewrite drop_0. change (Z.to_nat MSGHDRLEN - 0)%nat with 24%nat. rewrite take_app_length' by done.
  rewrite (proj2 (Nat.leb_le _ _)) by (change (Z.to_nat MSGHDRLEN) with 24%nat; lia). cbn [mbind option_bind].
  unfold in_buffer. rewrite <- (app_nil_r (Hdr_Serialization h)), (read_hdr_reads h0 h W BytesBuffer []) by exact I. done.
Qed.

Definition wf_NodeAddr (a : NodeAddr) : Prop :=
  inS 64 (na_Time a) /\ inU 64 (na_Services a) /\ length (na_IpAddr a) = 16%nat /\ inU 16 (na_Port a) /\ inU 64 (na_ID a).

Lemma NodeAddr_reads a0 a : wf_NodeAddr a -> reads any_tail (NodeAddr_Deserialization a0) (NodeAddr_Serialization a) a.
Proof.
  intros (Ht & Hs & Hi & Hp & Hd) k rest _. unfold NodeAddr_Deserialization.
  assert (L : length (NodeAddr_Serialization a) = 42%nat).
  { unfold NodeAddr_Serialization. rewrite !length_app. by layout_len. }
  assert (He : NodeAddr_Serialization a <> []) by (intros E; rewrite E in L; done).
  pose proof (binary_Read_reads _ He) as R. rewrite L in R.
  erewrite (rd_field any_tail) by (exact R || exact I). cbn beta iota. do 4 f_equal.
  assert (Hu : inU 64 (uint64 (na_Time a))) by (unfold wrapU; pose proof (Z.mod_pos_bound (na_Time a) (2 ^ 64)); lia).
  unfold NodeAddr_of, NodeAddr_Serialization. layout. rewrite wrapS_of_U by (lia || done). by destruct a.
Qed.

Record wf_version_P (p : version_P) : Prop := {
  wfv_head : inU 32 (vp_Version p) /\ inU 64 (vp_Services p) /\ inU 32 (vp_TimeStamp p) /\ inU 16 (vp_Port p) /\ inU 16 (vp_HttpInfoPort p);
  wfv_cap : length (vp_Cap p) = 32%nat;
  wfv_tail : inU 64 (vp_Nonce p) /\ inU 8 (vp_UserAgent p) /\ inU 64 (vp_StartHeight p) /\ inU 8 (vp_Relay p) }.

Lemma length_version_P p : wf_version_P p -> length (version_P_bytes p) = 70%nat.
Proof. intros [_ Hc _]. unfold version_P_bytes. rewrite !length_app. by layout_len. Qed.

Lemma version_P_of_bytes p : wf_version_P p -> version_P_of (version_P_bytes p) = p.
Proof.
  intros [(H1 & H2 & H3 & H4 & H5) Hc (H6 & H7 & H8 & H9)]. unfold version_P_of, version_P_bytes. layout. by destruct p.
Qed.

(** A list that is read without failing is read in full. *)
Lemma read_kept_reads {A} T `{!Tail T} (enc : A -> bytes) (item : rd (A * err)) l acc :
  Forall (fun a => reads T item (enc a) a) l ->
  forall k rest, T k rest ->
  read_kept (length l) item acc (mkReader k (concat (map enc l) ++ rest)) = Some ((acc ++ l, false), mkReader k rest).
Proof.
  intros Hl. revert acc. induction Hl as [|a l Ha Hl IH]; intros acc k rest Ht.
  - simpl. by rewrite app_nil_r.
  - cbn [length read_kept map concat]. rewrite <- app_assoc.
    erewrite (rd_field T) by (by apply tail_app || done). cbn beta iota. cbn [is_err].
    rewrite IH by done. by rewrite <- app_assoc.
Qed.

Definition wf_hashes (l : list Uint256) (h : Uint256) : Prop :=
  Forall wf_u256 l /\ Z.of_nat (length l) < 2 ^ 32 /\ wf_u256 h.

Lemma hashes_P_reads p l h : wf_hashes l h ->
  reads any_tail (hashes_P_Deserialization (mkHashes p [] zero256)) (hashes_P_bytes (hashes_msg l h)) (hashes_msg l h).
Proof.
  intros (Hl & Hn & Hh) k rest _. unfold hashes_P_Deserialization, hashes_P_bytes, hashes_msg. cbn [hp_len hashStart hashEnd].
  rewrite wrapU_id by lia. rewrite <- !app_assoc.
  erewrite (rd_field any_tail) by (exact I || (apply (read_le_reads 4); [lia|cbn; lia])). cbn beta iota.
  rewrite Nat2Z.id. erewrite rd_bind_Some.
  2:{ apply (read_kept_reads any_tail Uint_Serialize); [|exact I]. eapply list.Forall_impl; [exact Hl|].
      intros u Hu. by apply Uint256_Deserialize_reads. }
  cbn beta iota. rewrite app_nil_l.
  erewrite (rd_field any_tail) by (exact I || by apply Uint256_Deserialize_reads). done.
Qed.

Lemma Header_reads bd : wf_Blockdata bd -> exists enc, Header_Serialize bd = Some enc /\ reads any_tail Header_Deserialize enc bd.
Proof.
  intros W. destruct (Blockdata_reads bd W) as (d & Ed & Rd). unfold Header_Serialize. rewrite Ed. cbn [mbind option_bind].
  eexists. split; [reflexivity|]. intros k rest _. unfold Header_Deserialize. rewrite <- app_assoc.
  erewrite (rd_field any_tail) by (exact Rd || exact I). cbn beta iota.
  assert (R : reads any_tail (binary_Read 1) [48] [48]) by (apply (binary_Read_reads [48]); done).
  unfold binary_Read in R. cbn [Z.eqb] in R. erewrite (rd_field any_tail) by (exact R || exact I). done.
Qed.

Lemma Headers_reads hs : Forall wf_Blockdata hs ->
  exists bs, mapM Header_Serialize hs = Some bs /\
    forall acc k rest, read_kept (length hs) Header_Deserialize acc (mkReader k (concat bs ++ rest)) = Some ((acc ++ hs, false), mkReader k rest).
Proof.
  intros W. set (enc := fun bd => default [] (Header_Serialize bd)).
  assert (Henc : Forall (fun bd => Header_Serialize bd = Some (enc bd) /\ reads any_tail Header_Deserialize (enc bd) bd) hs).
  { eapply list.Forall_impl; [exact W|]. intros bd Wb. destruct (Header_reads bd Wb) as (b & E & R). unfold enc. by rewrite E. }
  exists (map enc hs). split.
  - clear W. induction Henc as [|bd hs [E _] _ IH]; [done|]. cbn [mapM map]. rewrite E. cbn. by rewrite IH.
  - intros acc k rest. apply (read_kept_reads any_tail); [|exact I]. eapply list.Forall_impl; [exact Henc|]. by intros bd [_ R].
Qed.

Lemma Program_reads_live p : wf_Program p -> reads live_tail (Program_Deserialize new_Program) (Program_Serialize p) p.
Proof.
  intros [Hc Hp] k rest Ht. unfold Program_Deserialize, Program_Serialize. rewrite <- !app_assoc.
  field. cbn [is_err]. field. by destruct p.
Qed.

Record wf_consensus (cp : ConsensusPayload) : Prop := {
  wfc_nums : inU 32 (cp_Version cp) /\ inU 32 (cp_Height cp) /\ inU 16 (BookKeeperIndex cp) /\ inU 32 (cp_Timestamp cp);
  wfc_prev : wf_u256 (cp_PrevHash cp);
  wfc_data : Z.of_nat (length (cp_Data cp)) <= maxAlloc;
  wfc_owner : exists x y, cp_Owner cp = Some (mkPubKey (Some x) (Some y)) /\ coordinate x /\ coordinate y;
  wfc_program : exists p, cp_Program cp = Some p /\ wf_Program p }.

Lemma cp_reads cp : wf_consensus cp ->
  exists d, cp_Serialize cp = Some (d, None) /\ reads live_tail (cp_Deserialize new_ConsensusPayload) d cp.
Proof.
  intros [(H1 & H2 & H3 & H4) Hp Hd (x & y & Eo & Hx & Hy) (pg & Ep & Wp)].
  unfold cp_Serialize, cp_SerializeUnsigned. rewrite Eo, Ep. cbn [PubKey_Serialize mbind option_bind pk_X pk_Y].
  eexists. split; [reflexivity|]. intros k rest Ht. unfold cp_Deserialize, cp_DeserializeUnsigned. rewrite <- !app_assoc.
  erewrite rd_bind_Some.
  2:{ do 5 (field; cbn [is_err]).
      erewrite (rd_field live_tail); [|by apply ReadVarBytes_live|apply live_tail_app, WriteVarBytes_ne].
      cbn beta iota. cbn [is_err].
      rewrite (app_assoc (WriteVarBytes (signed_Bytes x))).
      erewrite (rd_field live_tail); [|by apply PubKey_DeSerialize_reads|].
      2:{ apply live_tail_app. unfold Program_Serialize. intros E. apply app_eq_nil in E as [E _]. by apply WriteVarBytes_ne in E. }
      cbn beta iota. cbn [is_err]. reflexivity. }
  cbn beta iota. erewrite (rd_field live_tail); [|by apply Program_reads_live|exact Ht].
  cbn beta iota. cbn [is_err]. destruct cp. cbn in Eo, Ep. by subst.
Qed.

(** * What a peer receives *)

(** The steps of [HandleNodeMsg] before [Handle]: the message it would handle,
    the error of [Deserialization] and the error of [Verify]. *)
Definition parse (magic : Z) (buf : bytes) : option (option Messager * err * err) :=
  '(s, e) ← MsgType buf;
  if is_err e then Some (None, e, None) else
  m ← AllocMsg s (Z.of_nat (length buf));
  match m with
  | None => Some (None, Some (NewError "Allocation message failed"), None)
  | Some m =>
      '(m, e) ← Deserialization m buf;
      p ← slice buf (Z.to_nat MSGHDRLEN) (length buf);
      Some (Some m, e, Verify magic m p)
  end.

(** [sent b m]: the bytes [b] one of the constructors makes stand for the
    message [m].  The payload fits the 32-bit length field. *)
Section Sent.
Context (magic : Z).

Definition fits (b : bytes) : Prop := Z.of_nat (length b) < 2 ^ 32.

(** The command is text shorter than the field. *)
Definition command (cmd : bytes) : Prop := (length cmd < MSGCMDLEN)%nat /\ Forall (fun c => c <> 0) cmd.

Lemma wf_payload_hdr cmd p : inU 32 magic -> command cmd -> fits p -> wf_hdr (payload_hdr magic cmd p).
Proof.
  intros Hm [Hc _] Hf. constructor; cbn [payload_hdr Magic Length CMD Checksum].
  - split; [done|]. unfold fits in Hf. rewrite wrapU_id; lia.
  - unfold cmd_field. rewrite length_app, length_replicate. unfold MSGCMDLEN in *. lia.
  - unfold checkSum, CHECKSUMLEN. rewrite length_take. pose proof (proj1 (wf_dsha256 p)). lia.
Qed.

Lemma find_zero l n : Forall (fun c => c <> 0) l -> list_find (eq 0) (l ++ replicate (S n) 0) = Some (length l, 0).
Proof.
  intros H. apply list_find_Some. split; [by rewrite lookup_app_r, Nat.sub_diag by lia|]. split; [done|].
  intros j y Hj Hlt. rewrite lookup_app_l in Hj by lia. rewrite Forall_lookup in H. intros <-. by apply (H j 0 Hj).
Qed.

Lemma MsgType_hdr h cmd rest : wf_hdr h -> command cmd -> CMD h = cmd_field cmd ->
  MsgType (Hdr_Serialization h ++ rest) = Some (cmd, None).
Proof.
  intros W [Hc Hz] E. pose proof (length_Hdr h W) as L. destruct W as [_ Wc _].
  unfold MsgType, slice, CMDOFFSET, MSGCMDLEN in *. rewrite length_app, L. cbn [Nat.add andb Nat.leb Nat.sub].
  unfold Hdr_Serialization. rewrite <- !app_assoc. rewrite drop_app_length' by done. rewrite take_app_length' by done.
  cbn [mbind option_bind]. rewrite E. unfold cmd_field. destruct (MSGCMDLEN - length cmd)%nat as [|n] eqn:En; [unfold MSGCMDLEN in En; lia|].
  rewrite find_zero by done. by rewrite take_app_length.
Qed.

Lemma Verify_payload m cmd p : msg_hdr m = payload_hdr magic cmd p -> Verify magic m p = None.
Proof.
  intros E. unfold Verify, hdr_Verify, magicVerify. rewrite E. cbn. rewrite Z.eqb_refl. cbn. by rewrite bool_decide_eq_true_2.
Qed.

(** The common frame of the round trips: the message [m0] the command allocates
    reads the payload back as [m]. *)
Lemma parse_message h cmd p m0 m :
  wf_hdr h -> command cmd -> CMD h = cmd_field cmd ->
  AllocMsg cmd (24 + Z.of_nat (length p)) = Some (Some m0) ->
  Deserialization m0 (Hdr_Serialization h ++ p) = Some (m, None) -> Verify magic m p = None ->
  parse magic (Hdr_Serialization h ++ p) = Some (Some m, None, None).
Proof.
  intros W C E A D V. pose proof (length_Hdr h W) as L. unfold parse. rewrite (MsgType_hdr h cmd) by done.
  cbn [mbind option_bind is_err]. rewrite length_app, L, Nat2Z.inj_add.
  change (Z.of_nat 24) with 24. rewrite A. cbn [mbind option_bind]. rewrite D. cbn [mbind option_bind].
  unfold slice. rewrite length_app, L. change (Z.to_nat MSGHDRLEN) with 24%nat.
  rewrite (proj2 (Nat.leb_le 24 _)), (proj2 (Nat.leb_le _ _)) by lia. cbn [andb mbind option_bind].
  rewrite drop_app_length', take_ge by (done || lia). by rewrite V.
Qed.

Inductive sent : option (bytes * err) -> Messager -> Prop :=
  | sent_ping n : inU 64 n -> sent (NewPingMsg magic n) (MPing (payload_hdr magic (str "ping") (WriteUint64 n)) n)
  | sent_pong n : inU 64 n -> sent (NewPongMsg magic n) (MPong (payload_hdr magic (str "pong") (WriteUint64 n)) n)
  | sent_verack : sent (NewVerack magic) (MVerACK (payload_hdr magic (str "verack") []))
  | sent_getaddr : sent (newGetAddr magic) (MAddrReq (payload_hdr magic (str "getaddr") []))
  | sent_notfound h : wf_u256 h -> sent (NewNotFound magic h) (MNotFound (payload_hdr magic (str "notfound") h) h)
  | sent_getdata h : wf_u256 h ->
      sent (getdata_msg magic h) (MDataReq (payload_hdr magic (str "getdata") (BLOCK :: h)) BLOCK h)
  | sent_getblocks l h : wf_hashes l h -> fits (hashes_P_bytes (hashes_msg l h)) ->
      sent (NewBlocksReq magic l h)
        (MBlocksReq (payload_hdr magic (str "getblocks") (hashes_P_bytes (hashes_msg l h))) (hashes_msg l h))
  | sent_getheaders l h : wf_hashes l h -> fits (hashes_P_bytes (hashes_msg l h)) ->
      sent (NewHeadersReq magic l h)
        (MHeadersReq (payload_hdr magic (str "getheaders") (hashes_P_bytes (hashes_msg l h))) (hashes_msg l h))
  | sent_headers hs bs : Forall wf_Blockdata hs -> mapM Header_Serialize hs = Some bs ->
      let p := WriteUint32 (Z.of_nat (length hs)) ++ concat bs in fits p -> Z.of_nat (length hs) < 2 ^ 32 ->
      sent (NewHeaders magic hs (Z.of_nat (length hs)))
        (MBlkHeader (payload_hdr magic (str "headers") p) (Z.of_nat (length hs)) hs)
  | sent_addr l : Forall wf_NodeAddr l ->
      let p := WriteUint64 (Z.of_nat (length l)) ++ concat (map NodeAddr_Serialization l) in fits p ->
      sent (NewAddrs magic l (Z.of_nat (length l)))
        (MAddr (payload_hdr magic (str "addr") p) (Z.of_nat (length l)) l)
  | sent_inv P : inU 8 (InvType P) -> inU 32 (Cnt P) -> Z.of_nat (length (Blk P)) = HASHLEN * Cnt P ->
      HASHLEN * Cnt P < 2 ^ 32 - 5 ->
      sent (NewInv magic P) (MInv (payload_hdr magic (str "inv") (InvPayload_Serialization P)) P)
  | sent_block b d root : wf_Block b -> Block_Serialize b = Some d -> fits d ->
      ComputeRoot (map tx_hash_of (Transactions b)) = Some (root, None) ->
      sent (NewBlock magic b) (MBlock (payload_hdr magic (str "block") d)
        (mkBlock (set_TransactionsRoot (blk_data b) root) (map hashed (Transactions b)) None))
  | sent_tx t d : wf_Tx t -> Tx_Serialize t = Some (d, None) -> fits d ->
      sent (NewTxn magic t) (MTrn (payload_hdr magic (str "tx") d) t)
  | sent_consensus cp d : wf_consensus cp -> cp_Serialize cp = Some (d, None) -> fits d ->
      sent (NewConsensus magic cp) (MConsensus (payload_hdr magic (str "consensus") d) cp)
  | sent_version P x y k : wf_version_P P -> coordinate x -> coordinate y ->
      PubKey_Serialize (Some (mkPubKey (Some x) (Some y))) = Some k ->
      sent (version_msg magic P (Some (mkPubKey (Some x) (Some y))))
        (MVersion (payload_hdr magic (str "version") (version_P_bytes P ++ k)) P (Some (mkPubKey (Some x) (Some y)))).

(** What the constructors promise: a frame that parses to the message. *)
Definition framed (b : bytes) : Prop :=
  exists cmd p, b = Hdr_Serialization (payload_hdr magic cmd p) ++ p /\ command cmd /\ fits p.
Definition delivers (b : option (bytes * err)) (m : Messager) : Prop :=
  exists b', b = Some (b', None) /\ framed b' /\ parse magic b' = Some (Some m, None, None).

Lemma sent_parse m0 m cmd p (b : option (bytes * err)) :
  inU 32 magic -> msg_hdr m = payload_hdr magic cmd p -> command cmd -> fits p ->
  b = Some (Hdr_Serialization (payload_hdr magic cmd p) ++ p, None) ->
  AllocMsg cmd (24 + Z.of_nat (length p)) = Some (Some m0) ->
  Deserialization m0 (Hdr_Serialization (payload_hdr magic cmd p) ++ p) = Some (m, None) ->
  delivers b m.
Proof.
  intros Hm Eh Hc Hf -> A D. eexists. split; [reflexivity|]. split; [by exists cmd, p|]. eapply parse_message; try done.
  - by apply wf_payload_hdr.
  - by apply Verify_payload with (cmd := cmd).
Qed.
End Sent.

Lemma in_buffer_hdr {A} (f : msgHdr * err -> rd A) h0 h p : wf_hdr h ->
  in_buffer (read_hdr h0 ≫= f) (Hdr_Serialization h ++ p) = in_buffer (f (h, None)) p.
Proof.
  intros W. unfold in_buffer. by erewrite (rd_field any_tail) by (exact I || by apply read_hdr_reads).
Qed.

Lemma in_buffer_reads {A B} T (m : rd (A * err)) (f : A * err -> rd B) enc rest a : reads T m enc a -> T BytesBuffer rest ->
  in_buffer (m ≫= f) (enc ++ rest) = in_buffer (f (a, None)) rest.
Proof. intros R Ht. unfold in_buffer. by erewrite (rd_field T) by done. Qed.

Lemma in_buffer_last {A B} T (m : rd (A * err)) (f : A * err -> rd B) enc a : reads T m enc a -> T BytesBuffer [] ->
  in_buffer (m ≫= f) enc = in_buffer (f (a, None)) [].
Proof. intros R Ht. rewrite <- (app_nil_r enc) at 1. by apply (in_buffer_reads T). Qed.

Lemma live_end : live_tail BytesBuffer [].
Proof. by left. Qed.

Lemma version_reads P x y k h : wf_hdr h -> wf_version_P P -> coordinate x -> coordinate y ->
  PubKey_Serialize (Some (mkPubKey (Some x) (Some y))) = Some k ->
  in_buffer (version_Deserialization (alloc_hdr (str "version")) new_version_P None)
    (Hdr_Serialization h ++ version_P_bytes P ++ k) = Some (MVersion h P (Some (mkPubKey (Some x) (Some y))), None).
Proof.
  intros W WP Hx Hy E. cbn [PubKey_Serialize mbind option_bind pk_X pk_Y] in E. injection E as <-.
  unfold version_Deserialization. rewrite in_buffer_hdr by done. cbn beta iota. cbn [is_err].
  pose proof (length_version_P P WP) as L. assert (He : version_P_bytes P <> []) by (intros E; rewrite E in L; done).
  pose proof (binary_Read_reads _ He) as R. rewrite L in R.
  erewrite (in_buffer_reads any_tail) by (exact R || exact I). cbn beta iota. cbn [is_err]. rewrite version_P_of_bytes by done.
  by erewrite (in_buffer_last live_tail) by (apply live_end || by apply PubKey_DeSerialize_reads).
Qed.

Lemma addr_reads l h : wf_hdr h -> Forall wf_NodeAddr l -> 42 * Z.of_nat (length l) < 2 ^ 32 ->
  in_buffer (addr_Deserialization (alloc_hdr (str "addr")) 0)
    (Hdr_Serialization h ++ WriteUint64 (Z.of_nat (length l)) ++ concat (map NodeAddr_Serialization l))
  = Some (MAddr h (Z.of_nat (length l)) l, None).
Proof.
  intros W Hl Hn. unfold addr_Deserialization. rewrite in_buffer_hdr by done. cbn beta iota.
  erewrite (in_buffer_reads any_tail) by (exact I || (apply (read_le_reads 8); [lia|cbn; lia])). cbn beta iota.
  unfold make_ok. rewrite (proj2 (Z.leb_le _ _)) by (unfold maxAlloc; lia). cbn [negb].
  rewrite Nat2Z.id. unfold in_buffer. rewrite <- (app_nil_r (concat _)). erewrite rd_bind_Some.
  2:{ apply (read_kept_reads any_tail NodeAddr_Serialization); [|exact I]. eapply list.Forall_impl; [exact Hl|].
      intros a Ha. by apply NodeAddr_reads. }
  cbn. by rewrite Nat.sub_diag, app_nil_r.
Qed.

Lemma Inv_reads P P0 h0 h : wf_hdr h -> inU 8 (InvType P) -> inU 32 (Cnt P) -> Z.of_nat (length (Blk P)) = HASHLEN * Cnt P ->
  HASHLEN * Cnt P < 2 ^ 32 ->
  Inv_Deserialization h0 P0 (Hdr_Serialization h ++ InvPayload_Serialization P) = Some (MInv h P, None).
Proof.
  intros W Ht Hc Hl Hb. unfold Inv_Deserialization. rewrite Hdr_Deserialization_spec by done. cbn [mbind option_bind is_err].
  rewrite drop_app_length' by (by rewrite length_Hdr). unfold InvPayload_Serialization.
  etransitivity; [apply (in_buffer_reads any_tail); [by apply ReadUint8_reads|exact I]|]. cbn beta iota. cbn [is_err].
  etransitivity; [apply (in_buffer_reads any_tail); [by apply ReadUint32_reads|exact I]|]. cbn beta iota. cbn [is_err].
  rewrite (Z.mul_comm (Cnt P)), wrapU_id, <- Hl by (unfold HASHLEN in *; lia).
  destruct (Blk P) as [|b blk] eqn:Eb.
  - destruct P. cbn in *. by subst.
  - etransitivity; [apply (in_buffer_last any_tail); [by apply binary_Read_reads|exact I]|]. cbn beta iota. cbn [is_err].
    destruct P. cbn in *. by subst.
Qed.

Lemma hashes_in_buffer {B} l h0 (f : hashes_P * err -> rd B) : wf_hashes l h0 ->
  in_buffer (hashes_P_Deserialization new_hashes_P ≫= f) (hashes_P_bytes (hashes_msg l h0)) = in_buffer (f (hashes_msg l h0, None)) [].
Proof. intros W. apply (in_buffer_last any_tail); [by apply hashes_P_reads|exact I]. Qed.

(** The payload of a message that is not too large. *)
Lemma fits_small (p : bytes) n : length p = n -> Z.of_nat n < 2 ^ 32 -> fits p.
Proof. intros <-. done. Qed.

Ltac cmd_ok := unfold command; by_decision.
Ltac fits_ok := first [assumption | unfold fits; rewrite ?length_WriteUint64; cbn [length]; lia].
(** One message: its command, size, header and allocation are settled; the
    reading of the payload is left, after the header. *)
Ltac sent_case :=
  eapply sent_parse; [assumption|reflexivity|cmd_ok|fits_ok|try reflexivity|reflexivity|cbn [Deserialization];
    unfold addrReq_Deserialization, headersReq_Deserialization, blocksReq_Deserialization, blkHeader_Deserialization, block_Deserialization, trn_Deserialization, consensus_Deserialization, notFound_Deserialization, ping_Deserialization, pong_Deserialization;
    first [rewrite in_buffer_hdr by (apply wf_payload_hdr; [assumption|cmd_ok|fits_ok]); cbn beta iota; cbn [is_err]|idtac]].

Lemma hdr_init_empty magic cmd : cmd = str "verack" \/ cmd = str "getaddr" ->
  hdr_init magic new_hdr cmd empty_sum 0 = payload_hdr magic cmd [].
Proof.
  assert (E : checkSum [] = empty_sum) by (vm_compute; reflexivity).
  unfold hdr_init, payload_hdr. rewrite E. by intros [-> | ->].
Qed.

Section Cases.
Context (magic : Z) (Hm : inU 32 magic).

(** The messages of a fixed size. *)
Lemma sent_height n : inU 64 n ->
  (delivers magic (NewPingMsg magic n) (MPing (payload_hdr magic (str "ping") (WriteUint64 n)) n)) /\
  (delivers magic (NewPongMsg magic n) (MPong (payload_hdr magic (str "pong") (WriteUint64 n)) n)).
Proof.
  intros Hn. split; sent_case; erewrite (in_buffer_last any_tail) by (exact I || by apply ReadUint64_reads); reflexivity.
Qed.

Lemma sent_hash h : wf_u256 h ->
  (delivers magic (NewNotFound magic h) (MNotFound (payload_hdr magic (str "notfound") h) h)) /\
  (delivers magic (getdata_msg magic h) (MDataReq (payload_hdr magic (str "getdata") (BLOCK :: h)) BLOCK h)).
Proof.
  intros Hh. assert (L := proj1 Hh).
  assert (fits h) by (by apply (fits_small h 32)). assert (fits (BLOCK :: h)) by (apply (fits_small (BLOCK :: h) 33); [cbn; by rewrite L|done]).
  split; sent_case.
  - erewrite (in_buffer_last any_tail) by (exact I || by apply Uint256_Deserialize_reads). reflexivity.
  - unfold dataReq_Deserialization. rewrite in_buffer_hdr by (apply wf_payload_hdr; [assumption|cmd_ok|assumption]). cbn beta iota. cbn [is_err].
    change (BLOCK :: h) with (le_bytes 1 BLOCK ++ h).
    erewrite (in_buffer_reads any_tail) by (exact I || (apply (read_le_reads 1); [lia|cbn; unfold BLOCK; lia])). cbn beta iota. cbn [is_err].
    erewrite (in_buffer_last any_tail) by (exact I || by apply Uint256_Deserialize_reads). reflexivity.
Qed.

Lemma sent_empty :
  (delivers magic (NewVerack magic) (MVerACK (payload_hdr magic (str "verack") []))) /\
  (delivers magic (newGetAddr magic) (MAddrReq (payload_hdr magic (str "getaddr") []))).
Proof.
  unfold NewVerack, newGetAddr. rewrite !hdr_init_empty by auto. split; sent_case.
  - rewrite Hdr_Deserialization_spec by (apply wf_payload_hdr; [assumption|cmd_ok|fits_ok]). reflexivity.
  - reflexivity.
Qed.

(** Block locators and the messages that carry lists. *)
Lemma sent_hashes l h : wf_hashes l h -> fits (hashes_P_bytes (hashes_msg l h)) ->
  (delivers magic (NewBlocksReq magic l h) (MBlocksReq (payload_hdr magic (str "getblocks") (hashes_P_bytes (hashes_msg l h))) (hashes_msg l h))) /\
  (delivers magic (NewHeadersReq magic l h) (MHeadersReq (payload_hdr magic (str "getheaders") (hashes_P_bytes (hashes_msg l h))) (hashes_msg l h))).
Proof. intros W F. split; sent_case; rewrite hashes_in_buffer by assumption; reflexivity. Qed.

Lemma sent_headers_case hs bs : Forall wf_Blockdata hs -> mapM Header_Serialize hs = Some bs ->
  let p := WriteUint32 (Z.of_nat (length hs)) ++ concat bs in fits p -> Z.of_nat (length hs) < 2 ^ 32 ->
  delivers magic (NewHeaders magic hs (Z.of_nat (length hs))) (MBlkHeader (payload_hdr magic (str "headers") p) (Z.of_nat (length hs)) hs).
Proof.
  intros W E p F Hn. destruct (Headers_reads hs W) as (bs' & E' & R). rewrite E' in E. injection E as ->.
  unfold NewHeaders. rewrite E'. cbn [mbind option_bind]. sent_case.
  { cbn [Serialization]. unfold blkHeader_Serialization. rewrite E'. reflexivity. }
  unfold p. erewrite (in_buffer_reads any_tail) by (exact I || (apply (read_le_reads 4); [lia|cbn; lia])). cbn beta iota. cbn [is_err].
  rewrite Nat2Z.id. unfold in_buffer. rewrite <- (app_nil_r (concat bs)).
  erewrite rd_bind_Some by apply R. reflexivity.
Qed.

Lemma length_NodeAddrs l : Forall wf_NodeAddr l -> length (concat (map NodeAddr_Serialization l)) = (42 * length l)%nat.
Proof.
  induction 1 as [|a l (_ & _ & Hi & _) _ IH]; [done|]. cbn [map concat length]. rewrite length_app, IH.
  unfold NodeAddr_Serialization. rewrite !length_app. layout_len. lia.
Qed.

Lemma sent_addr_case l : Forall wf_NodeAddr l ->
  let p := WriteUint64 (Z.of_nat (length l)) ++ concat (map NodeAddr_Serialization l) in fits p ->
  delivers magic (NewAddrs magic l (Z.of_nat (length l))) (MAddr (payload_hdr magic (str "addr") p) (Z.of_nat (length l)) l).
Proof.
  intros W p F. sent_case. unfold p in *. rewrite addr_reads; [reflexivity|apply wf_payload_hdr; [assumption|cmd_ok|assumption]|done|].
  unfold fits in F. rewrite length_app, length_NodeAddrs, length_WriteUint64 in F by done. lia.
Qed.

Lemma AllocMsg_inv n : 0 < n <= maxAlloc ->
  AllocMsg (str "inv") (24 + n) = Some (Some (MInv (alloc_hdr (str "inv")) (mkInvP 0 0 (replicate (Z.to_nat (n - 1)) 0)))).
Proof.
  intros Hn. unfold AllocMsg. repeat (rewrite bool_decide_eq_false_2 by discriminate). rewrite bool_decide_eq_true_2 by done.
  replace (24 + n - MSGHDRLEN - 1) with (n - 1) by (unfold MSGHDRLEN; lia). unfold make_ok.
  by rewrite (proj2 (Z.ltb_ge _ _)), (proj2 (Z.leb_le _ _)) by lia.
Qed.

Lemma sent_inv_case P : inU 8 (InvType P) -> inU 32 (Cnt P) -> Z.of_nat (length (Blk P)) = HASHLEN * Cnt P ->
  HASHLEN * Cnt P < 2 ^ 32 - 5 ->
  delivers magic (NewInv magic P) (MInv (payload_hdr magic (str "inv") (InvPayload_Serialization P)) P).
Proof.
  intros Ht Hc Hl Hb. set (p := InvPayload_Serialization P).
  assert (L : Z.of_nat (length p) = 5 + HASHLEN * Cnt P).
  { unfold p, InvPayload_Serialization. rewrite !length_app, length_WriteUint32, length_WriteUint8. lia. }
  assert (F : fits p) by (unfold fits; lia).
  eapply sent_parse; [assumption|reflexivity|cmd_ok|exact F|reflexivity| |].
  - apply AllocMsg_inv; unfold maxAlloc, HASHLEN in *; lia.
  - cbn [Deserialization]. apply Inv_reads; [|done..|lia]. apply wf_payload_hdr; [assumption|cmd_ok|assumption].
Qed.

(** The messages that carry one value of the core. *)
Lemma sent_block_case b d root : wf_Block b -> Block_Serialize b = Some d -> fits d ->
  ComputeRoot (map tx_hash_of (Transactions b)) = Some (root, None) ->
  delivers magic (NewBlock magic b) (MBlock (payload_hdr magic (str "block") d)
      (mkBlock (set_TransactionsRoot (blk_data b) root) (map hashed (Transactions b)) None)).
Proof.
  intros W E F Er. unfold NewBlock. rewrite E. cbn [mbind option_bind]. sent_case; [cbn [Serialization]; unfold block_Serialization, trn_Serialization, version_Serialization; rewrite E; reflexivity|].
  destruct (Block_Deserialize_reads b BytesBuffer [] W) as (d' & root' & Ed & Er' & R & _).
  rewrite E in Ed. injection Ed as <-. rewrite Er in Er'. injection Er' as <-. rewrite app_nil_r in R.
  unfold in_buffer. erewrite rd_bind_Some by exact R. reflexivity.
Qed.

Lemma sent_tx_case t d : wf_Tx t -> Tx_Serialize t = Some (d, None) -> fits d ->
  delivers magic (NewTxn magic t) (MTrn (payload_hdr magic (str "tx") d) t).
Proof.
  intros W E F. unfold NewTxn. rewrite E. cbn [mbind option_bind]. sent_case; [cbn [Serialization]; unfold block_Serialization, trn_Serialization, version_Serialization; rewrite E; reflexivity|].
  destruct (Tx_Deserialize_reads t W) as (d' & Ed & R). rewrite E in Ed. injection Ed as <-.
  erewrite (in_buffer_last any_tail) by (exact I || exact R). reflexivity.
Qed.

Lemma sent_consensus_case cp d : wf_consensus cp -> cp_Serialize cp = Some (d, None) -> fits d ->
  delivers magic (NewConsensus magic cp) (MConsensus (payload_hdr magic (str "consensus") d) cp).
Proof.
  intros W E F. unfold NewConsensus. rewrite E. cbn [mbind option_bind Serialization]. unfold consensus_Serialization. rewrite E. cbn [mbind option_bind is_err].
  sent_case. destruct (cp_reads cp W) as (d' & Ed & R). rewrite E in Ed. injection Ed as <-.
  erewrite (in_buffer_last live_tail) by (apply live_end || exact R). reflexivity.
Qed.

Lemma length_PubKey_Serialize x y k : coordinate x -> coordinate y ->
  PubKey_Serialize (Some (mkPubKey (Some x) (Some y))) = Some k -> (length k <= 84)%nat.
Proof.
  intros Hx Hy [= <-]. destruct (signed_coordinate x Hx) as [Lx _], (signed_coordinate y Hy) as [Ly _].
  unfold WriteVarBytes. rewrite !length_app.
  pose proof (length_WriteVarUint (Z.of_nat (length (signed_Bytes x)))). pose proof (length_WriteVarUint (Z.of_nat (length (signed_Bytes y)))).
  unfold GetVarUintSize in *. repeat case_match; lia.
Qed.

Lemma sent_version_case P x y k : wf_version_P P -> coordinate x -> coordinate y ->
  PubKey_Serialize (Some (mkPubKey (Some x) (Some y))) = Some k ->
  delivers magic (version_msg magic P (Some (mkPubKey (Some x) (Some y)))) (MVersion (payload_hdr magic (str "version") (version_P_bytes P ++ k)) P (Some (mkPubKey (Some x) (Some y)))).
Proof.
  intros W Hx Hy E. assert (F : fits (version_P_bytes P ++ k)).
  { unfold fits. rewrite length_app, length_version_P by done. pose proof (length_PubKey_Serialize x y k Hx Hy E). lia. }
  unfold version_msg. rewrite E. cbn [mbind option_bind]. sent_case; [cbn [Serialization]; unfold block_Serialization, trn_Serialization, version_Serialization; rewrite E; reflexivity|].
  apply version_reads; [|done..]. apply wf_payload_hdr; [assumption|cmd_ok|assumption].
Qed.
End Cases.

Lemma sent_delivers magic b m : inU 32 magic -> sent magic b m -> delivers magic b m.
Proof.
  intros Hm S. destruct S as [n Hn|n Hn| | |h Hh|h Hh|l h Wl Hf|l h Wl Hf|hs bs Wh E p Hf Hn|l Wl p Hf|P Ht Hc Hl Hb|b d root Wb E Hf Er|t d Wt E Hf|cp d Wc E Hf|P x y k WP Hx Hy E].
  - by apply sent_height.
  - by apply sent_height.
  - by apply sent_empty.
  - by apply sent_empty.
  - by apply sent_hash.
  - by apply sent_hash.
  - by apply sent_hashes.
  - by apply sent_hashes.
  - by apply sent_headers_case.
  - by apply sent_addr_case.
  - by apply sent_inv_case.
  - by apply sent_block_case.
  - by apply sent_tx_case.
  - by apply sent_consensus_case.
  - by apply sent_version_case.
Qed.

(** * Properties *)

(** What every constructor of a message puts on the wire is what the peer
    takes off it: for the messages a node sends (version, verack, getaddr,
    addr, ping, pong, getheaders, headers, getblocks, inv, getdata, notfound,
    block, tx, consensus), with fields in their ranges and a payload that fits
    the length field, the constructor succeeds, the command is found in the
    header, the message allocated for it reads back exactly the fields that
    were sent, without error, and the magic number and checksum verify.  A
    block comes back with its Merkle root recomputed. *)
Theorem message_roundtrip (magic : Z) (b : option (bytes * err)) (m : Messager) :
  inU 32 magic -> sent magic b m ->
  exists b', b = Some (b', None) /\ parse magic b' = Some (Some m, None, None).
Proof. intros Hm S. destruct (sent_delivers magic b m Hm S) as (b' & E & _ & Hp). by exists b'. Qed.

(** A ping from a node at height 7. *)
Lemma message_roundtrip_witness :
  inU 32 7630401 /\ inU 64 7 /\
  exists b', NewPingMsg 7630401 7 = Some (b', None) /\
    parse 7630401 b' = Some (Some (MPing (payload_hdr 7630401 (str "ping") (WriteUint64 7)) 7), None, None).
Proof.
  split; [lia|]. split; [lia|].
  apply (message_roundtrip 7630401 _ _ ltac:(lia) (sent_ping 7630401 7 ltac:(lia))).
Defined.

(** Two messages end the process of any node that receives them, before the
    checksum is looked at and whatever the state of the connection: an "inv"
    without a payload (the allocation of its list gets the length -1), and an
    "addr" whose count is too large to allocate.  The magic number is all the
    sender has to know. *)
Theorem crafted_messages_panic (magic : Z) (h : msgHdr) (cnt : Z) (rest : bytes) :
  wf_hdr h ->
  (CMD h = cmd_field (str "inv") -> parse magic (Hdr_Serialization h) = None) /\
  (CMD h = cmd_field (str "addr") -> inU 64 cnt -> maxAlloc < 48 * cnt ->
   parse magic (Hdr_Serialization h ++ WriteUint64 cnt ++ rest) = None).
Proof.
  intros W. split; intros E.
  - unfold parse. rewrite <- (app_nil_r (Hdr_Serialization h)), (MsgType_hdr h (str "inv")) by (done || cmd_ok).
    rewrite app_nil_r, length_Hdr by done. reflexivity.
  - intros Hc Hbig. unfold parse. rewrite (MsgType_hdr h (str "addr")) by (done || cmd_ok).
    cbn [mbind option_bind is_err]. change (AllocMsg (str "addr") _) with (Some (Some (MAddr (alloc_hdr (str "addr")) 0 []))).
    cbn [mbind option_bind Deserialization]. unfold addr_Deserialization. rewrite in_buffer_hdr by done. cbn beta iota.
    erewrite (in_buffer_reads any_tail) by (exact I || (apply (read_le_reads 8); [lia|exact Hc])). cbn beta iota.
    unfold make_ok. by rewrite (proj2 (Z.leb_gt _ _)) by lia.
Qed.

Definition crafted_hdr (cmd : bytes) : msgHdr := mkHdr 7630401 (cmd_field cmd) 0 [0; 0; 0; 0].
Lemma crafted_messages_panic_witness :
  parse 7630401 (Hdr_Serialization (crafted_hdr (str "inv"))) = None /\
  parse 7630401 (Hdr_Serialization (crafted_hdr (str "addr")) ++ WriteUint64 (2 ^ 60) ++ []) = None.
Proof.
  assert (W : forall cmd, length (cmd_field cmd) = MSGCMDLEN -> wf_hdr (crafted_hdr cmd))
    by (intros cmd Hc; split; [cbn; lia|exact Hc|reflexivity]).
  split.
  - exact (proj1 (crafted_messages_panic 7630401 (crafted_hdr (str "inv")) 0 [] (W (str "inv") eq_refl)) eq_refl).
  - exact (proj2 (crafted_messages_panic 7630401 (crafted_hdr (str "addr")) (2 ^ 60) [] (W (str "addr") eq_refl)) eq_refl ltac:(lia) ltac:(reflexivity)).
Defined.

(** A block locator cut short is taken without an error: when the message ends
    before the announced number of hashes, the loop ends and the error it met
    is lost; the hashes read so far, the missing one as zeros, and a zero stop
    hash make up the message. *)
Theorem truncated_locator_accepted (l : list Uint256) (n : Z) (h0 h : msgHdr) :
  wf_hdr h -> Forall wf_u256 l -> inU 32 n -> Z.of_nat (length l) < n ->
  Deserialization (MBlocksReq h0 new_hashes_P) (Hdr_Serialization h ++ WriteUint32 n ++ concat (map Uint_Serialize l))
  = Some (MBlocksReq h (mkHashes n (l ++ [zero256]) zero256), None).
Proof.
  intros W Hl Hn Hlt. cbn [Deserialization]. unfold blocksReq_Deserialization. rewrite in_buffer_hdr by done. cbn beta iota. cbn [is_err].
  assert (R : forall m acc, (length l < m)%nat ->
    read_kept m (Uint256_Deserialize zero256) acc (mkReader BytesBuffer (concat (map Uint_Serialize l)))
    = Some ((acc ++ l ++ [zero256], true), mkReader BytesBuffer [])).
  { clear Hlt. induction Hl as [|u l Hu Hl IH]; intros m acc Hm; (destruct m as [|m]; [cbn in Hm; lia|]); cbn [read_kept].
    - reflexivity.
    - cbn [map concat]. erewrite (rd_field any_tail) by (exact I || by apply Uint256_Deserialize_reads). cbn beta iota. cbn [is_err].
      rewrite IH by (cbn in Hm; lia). by rewrite <- app_assoc. }
  unfold in_buffer. erewrite rd_bind_Some.
  2:{ unfold hashes_P_Deserialization.
      erewrite (rd_field any_tail) by (exact I || (apply (read_le_reads 4); [lia|cbn; lia])). cbn beta iota.
      erewrite rd_bind_Some by (apply R; lia). reflexivity. }
  reflexivity.
Qed.

Lemma truncated_locator_accepted_witness :
  Deserialization (MBlocksReq new_hdr new_hashes_P) (Hdr_Serialization (crafted_hdr (str "getblocks")) ++ WriteUint32 3 ++ concat (map Uint_Serialize [replicate 32 1]))
  = Some (MBlocksReq (crafted_hdr (str "getblocks")) (mkHashes 3 ([replicate 32 1] ++ [zero256]) zero256), None).
Proof.
  apply (truncated_locator_accepted [replicate 32 1] 3 new_hdr (crafted_hdr (str "getblocks"))).
  - split; [cbn; lia|reflexivity|reflexivity].
  - unfold wf_u256. by_decision.
  - lia.
  - cbn. lia.
Defined.

(** The requests a node answers announcements with never reach the peer:
    [reqTxnData], [reqConsensusData] and [ReqTxnPool] send headers whose magic
    number is zero, which a peer on any network with another number throws
    away, and [reqTxnData] does not even name the transaction. *)
Theorem unframed_requests (magic : Z) (hash : Uint256) :
  magic <> 0 ->
  Forall (fun r => exists b, r = Some (b, None) /\ ValidMsgHdr magic (take 24 b) = Some false)
    [reqTxnData_msg; reqConsensusData_msg hash; ReqTxnPool_msg] /\
  reqTxnData_msg = Some (Hdr_Serialization new_hdr ++ TRANSACTION :: zero256, None).
Proof.
  intros Hm. split; [|reflexivity].
  assert (V : forall h p, wf_hdr h -> Magic h = 0 -> ValidMsgHdr magic (take 24 (Hdr_Serialization h ++ p)) = Some false).
  { intros h p W E. rewrite take_app_length' by (by rewrite length_Hdr). unfold ValidMsgHdr.
    rewrite <- (app_nil_r (Hdr_Serialization h)), Hdr_Deserialization_spec by done. cbn. rewrite E. unfold magicVerify.
    by rewrite (proj2 (Z.eqb_neq 0 magic)) by lia. }
  repeat constructor; (eexists; split; [reflexivity|]); apply V; (reflexivity || by split).
Qed.

Lemma unframed_requests_witness :
  Forall (fun r => exists b, r = Some (b, None) /\ ValidMsgHdr 7630401 (take 24 b) = Some false)
    [reqTxnData_msg; reqConsensusData_msg zero256; ReqTxnPool_msg].
Proof. exact (proj1 (unframed_requests 7630401 zero256 ltac:(lia))). Defined.
