(* ===== verification/Link.v ===== *)
(** [net/node/link.go]: cutting the byte stream of a connection into messages.

    [rxBuf] is the receive buffer of a node; [unpackNodeBuf] takes what one read
    returned and yields the new buffer together with the messages it hands to
    [HandleNodeMsg], in order (the code starts a goroutine for each).  [None] is
    a panic or fuel that ran out; the theorem excludes both. *)

From S2P Require Import Prelude Serialization Common Message.

Record rxBuf := mkRx { rx_p : bytes; rx_len : Z }.
Definition rx_empty : rxBuf := mkRx [] 0.

Section Link.
Context (magic : Z).

(** The end of the function, once the length of the payload is known. *)
Definition unpack_payload (again : rxBuf -> bytes -> option (rxBuf * list bytes)) (rx : rxBuf) (buf : bytes) :
    option (rxBuf * list bytes) :=
  let msgLen := rx_len rx in
  let n := Z.of_nat (length buf) in
  if n =? msgLen then Some (rx_empty, [rx_p rx ++ buf])
  else if n <? msgLen then Some (mkRx (rx_p rx ++ buf) (msgLen - n), [])
  else
    payload ← slice buf 0 (Z.to_nat msgLen);
    '(rx', msgs) ← again rx_empty (drop (Z.to_nat msgLen) buf);
    Some (rx', (rx_p rx ++ payload) :: msgs).

Fixpoint unpackNodeBuf (fuel : nat) (rx : rxBuf) (buf : bytes) : option (rxBuf * list bytes) :=
  match fuel with
  | O => None
  | S fuel =>
      if (length buf =? 0)%nat then Some (rx, [])
      else if rx_len rx =? 0 then
        let length := 24 - Z.of_nat (List.length (rx_p rx)) in
        if Z.of_nat (List.length buf) <? length then Some (mkRx (rx_p rx ++ buf) (rx_len rx), [])
        else if length <? 0 then None
        else
          let p := rx_p rx ++ take (Z.to_nat length) buf in
          valid ← ValidMsgHdr magic p;
          if negb valid then Some (rx_empty, [])
          else
            len ← PayloadLen p;
            unpack_payload (unpackNodeBuf fuel) (mkRx p len) (drop (Z.to_nat length) buf)
      else unpack_payload (unpackNodeBuf fuel) rx buf
  end.

(** A turn consumes at least one byte. *)
Definition unpack (rx : rxBuf) (buf : bytes) : option (rxBuf * list bytes) := unpackNodeBuf (S (length buf)) rx buf.

(** [rx]: one chunk per read of the connection. *)
Fixpoint receive (rx : rxBuf) (chunks : list bytes) : option (rxBuf * list bytes) :=
  match chunks with
  | [] => Some (rx, [])
  | c :: chunks =>
      '(rx, msgs) ← unpack rx c;
      '(rx, msgs') ← receive rx chunks;
      Some (rx, msgs ++ msgs')
  end.

(** [None]: no colon, in which case the code returns the whole text. *)
Definition parseIPaddr (s : bytes) : bytes * err :=
  match list_find (eq 58) s with
  | Some (i, _) => (take i s, None)
  | None => (s, Some (NewError "Split IP address&port error"))
  end.

(** * Frames *)

(** A message: a header of this network and as many bytes as it announces. *)
Definition frame (f : bytes) : Prop :=
  (24 <= length f)%nat /\ Magic (hdr_of f) = magic /\ Z.of_nat (length f) = 24 + Length (hdr_of f).
(** The beginning of a message that is not complete yet. *)
Definition partial (pre : bytes) : Prop :=
  (length pre < 24)%nat \/
  ((24 <= length pre)%nat /\ Magic (hdr_of pre) = magic /\ Z.of_nat (length pre) < 24 + Length (hdr_of pre)).
(** The buffer after such a beginning was received. *)
Definition rx_of (pre : bytes) : rxBuf :=
  mkRx pre (if (length pre <? 24)%nat then 0 else 24 + Length (hdr_of pre) - Z.of_nat (length pre)).

Lemma hdr_of_app pre rest : (24 <= length pre)%nat -> hdr_of (pre ++ rest) = hdr_of pre.
Proof.
  intros H. unfold hdr_of.
  rewrite !drop_app_le by lia. rewrite !take_app_le by (rewrite ?length_drop; lia). done.
Qed.

Lemma Hdr_Deserialization_24 h0 p : length p = 24%nat -> Hdr_Deserialization h0 p = Some (hdr_of p, None).
Proof.
  intros L. unfold Hdr_Deserialization, slice. rewrite L. change (Z.to_nat MSGHDRLEN) with 24%nat.
  cbn [Nat.leb andb Nat.sub]. rewrite drop_0, take_ge by lia. cbn [mbind option_bind].
  unfold in_buffer, read_hdr. rewrite <- (app_nil_r p) at 1.
  assert (He : p <> []) by (intros ->; done). pose proof (binary_Read_reads p He) as R. rewrite L in R.
  by erewrite (rd_field any_tail) by (exact R || exact I).
Qed.

Lemma ValidMsgHdr_24 p : length p = 24%nat -> ValidMsgHdr magic p = Some (Magic (hdr_of p) =? magic).
Proof. intros L. unfold ValidMsgHdr. by rewrite Hdr_Deserialization_24. Qed.
Lemma PayloadLen_24 p : length p = 24%nat -> PayloadLen p = Some (Length (hdr_of p)).
Proof. intros L. unfold PayloadLen. by rewrite Hdr_Deserialization_24. Qed.


(** Two beginnings of one stream that hold a header have the same one. *)
Lemma same_hdr a b s s' : (24 <= length a)%nat -> (24 <= length b)%nat -> a ++ s = b ++ s' -> hdr_of a = hdr_of b.
Proof. intros Ha Hb E. rewrite <- (hdr_of_app a s), <- (hdr_of_app b s') by done. by rewrite E. Qed.

(** What a stream of messages that starts with a header of length [L] is. *)
Lemma stream_cases pre buf fs tail :
  (24 <= length pre)%nat -> Forall frame fs -> partial tail -> pre ++ buf = concat fs ++ tail ->
  Magic (hdr_of pre) = magic /\
  ((fs = [] /\ tail = pre ++ buf /\ Z.of_nat (length (pre ++ buf)) < 24 + Length (hdr_of pre)) \/
   (exists f fs', fs = f :: fs' /\ frame f /\ Forall frame fs' /\ Z.of_nat (length f) = 24 + Length (hdr_of pre) /\
      pre ++ buf = f ++ concat fs' ++ tail)).
Proof.
  intros Hp Hfs Ht E. destruct Hfs as [|f fs Hf Hfs].
  - cbn in E. subst tail. destruct Ht as [Ht|(Ht & Hm & Hl)]; [rewrite length_app in Ht; lia|].
    rewrite hdr_of_app in Hm, Hl by done. split; [done|]. by left.
  - cbn [concat] in E. rewrite <- app_assoc in E. pose proof Hf as (Hl & Hm & Hn).
    rewrite (same_hdr pre f _ _ Hp Hl E). split; [done|]. right. by exists f, fs.
Qed.

Lemma frame_ne f : frame f -> f <> [].
Proof. intros (H & _) ->. cbn in H. lia. Qed.

Lemma unpack_payload_stream k again pre buf fs tail :
  (forall buf' fs', (length buf' < k)%nat -> Forall frame fs' -> buf' = concat fs' ++ tail ->
     again rx_empty buf' = Some (rx_of tail, fs')) ->
  (24 <= length pre)%nat -> Z.of_nat (length pre) <= 24 + Length (hdr_of pre) ->
  Forall frame fs -> partial tail -> Z.of_nat (length buf) < Z.of_nat k + (24 + Length (hdr_of pre) - Z.of_nat (length pre)) ->
  pre ++ buf = concat fs ++ tail ->
  unpack_payload again (mkRx pre (24 + Length (hdr_of pre) - Z.of_nat (length pre))) buf = Some (rx_of tail, fs).
Proof.
  intros Hagain Hp HL Hfs Ht Hk E. destruct (stream_cases pre buf fs tail) as [_ Hc]; [done..|].
  unfold unpack_payload. cbn [rx_p rx_len].
  destruct Hc as [(-> & -> & Hlt)|(f & fs' & -> & Hf & Hfs' & Hlf & E')].
  - rewrite length_app, Nat2Z.inj_add in Hlt. rewrite (proj2 (Z.eqb_neq _ _)), (proj2 (Z.ltb_lt _ _)) by lia.
    do 2 f_equal. unfold rx_of. rewrite hdr_of_app by done. rewrite (proj2 (Nat.ltb_ge _ _)) by (rewrite length_app; lia).
    f_equal. rewrite length_app. lia.
  - assert (Hsplit : f = pre ++ take (length f - length pre) buf /\ drop (length f - length pre) buf = concat fs' ++ tail).
    { assert (Hlp : (length pre <= length f)%nat) by lia.
      apply (f_equal (fun l => (take (length f) l, drop (length f) l))) in E'. injection E' as Et Ed.
      rewrite take_app_length, take_app_ge in Et by lia. rewrite drop_app_length, drop_app_ge in Ed by lia. done. }
    destruct Hsplit as [Hf' Hrest].
    replace (24 + Length (hdr_of pre) - Z.of_nat (length pre)) with (Z.of_nat (length f - length pre)) by lia.
    set (n := (length f - length pre)%nat) in *.
    assert (Hn : (n <= length buf)%nat).
    { apply (f_equal length) in Hf'. rewrite length_app, length_take in Hf'. lia. }
    destruct (Z.eqb_spec (Z.of_nat (length buf)) (Z.of_nat n)) as [En|En].
    + rewrite drop_ge in Hrest by lia. symmetry in Hrest. apply app_eq_nil in Hrest as [Hc ->].
      rewrite take_ge in Hf' by lia. subst f. destruct Hfs' as [|g fs' Hg _]; [done|].
      cbn in Hc. apply app_eq_nil in Hc as [Hg' _]. by apply frame_ne in Hg.
    + rewrite (proj2 (Z.ltb_ge _ _)) by lia. unfold slice. rewrite Nat2Z.id. cbn [Nat.leb andb].
      rewrite (proj2 (Nat.leb_le _ _)) by lia. cbn [mbind option_bind]. rewrite drop_0, Nat.sub_0_r.
      rewrite (Hagain _ fs') by (done || (rewrite length_drop; lia)). cbn. by rewrite <- Hf'.
Qed.

Lemma unpack_stream fuel pre buf fs tail :
  (length buf < fuel)%nat -> partial pre -> Forall frame fs -> partial tail -> pre ++ buf = concat fs ++ tail ->
  unpackNodeBuf fuel (rx_of pre) buf = Some (rx_of tail, fs).
Proof.
  revert pre buf fs. induction fuel as [|fuel IH]; intros pre buf fs Hfuel Hp Hfs Ht E; [lia|].
  assert (Hagain : forall buf' fs', (length buf' < fuel)%nat -> Forall frame fs' -> buf' = concat fs' ++ tail ->
     unpackNodeBuf fuel rx_empty buf' = Some (rx_of tail, fs')).
  { intros buf' fs' Hl Hf E'. apply (IH []); [done|left; cbn; lia|done..]. }
  cbn [unpackNodeBuf]. destruct (Nat.eqb_spec (length buf) 0) as [Hb|Hb].
  - apply length_zero_iff_nil in Hb as ->. rewrite app_nil_r in E. subst pre.
    destruct Hfs as [|f fs Hf Hfs]; [done|]. exfalso. cbn [concat] in Hp. rewrite <- app_assoc in Hp.
    destruct Hf as (Hl & _ & Hn). destruct Hp as [Hp|(_ & _ & Hp)]; [rewrite length_app in Hp; lia|].
    rewrite hdr_of_app, length_app in Hp by done. lia.
  - destruct Hp as [Hp|(Hl & Hm & Hlt)].
    + assert (Erx : rx_of pre = mkRx pre 0) by (unfold rx_of; by rewrite (proj2 (Nat.ltb_lt _ _))).
      rewrite Erx. cbn [rx_p rx_len Z.eqb]. destruct (Z.ltb_spec (Z.of_nat (length buf)) (24 - Z.of_nat (length pre))) as [Hs|Hs].
      * destruct Hfs as [|f fs (Hl & _) Hfs].
        -- cbn in E. subst tail. unfold rx_of. by rewrite (proj2 (Nat.ltb_lt _ _)) by (rewrite length_app; lia).
        -- exfalso. apply (f_equal length) in E. cbn [concat] in E. rewrite !length_app in E. lia.
      * rewrite (proj2 (Z.ltb_ge (24 - _) 0)) by lia. set (k := Z.to_nat (24 - Z.of_nat (length pre))).
        assert (L : length (pre ++ take k buf) = 24%nat) by (rewrite length_app, length_take; lia).
        rewrite ValidMsgHdr_24, PayloadLen_24 by done.
        assert (E' : (pre ++ take k buf) ++ drop k buf = concat fs ++ tail) by (by rewrite <- app_assoc, take_drop).
        destruct (stream_cases (pre ++ take k buf) (drop k buf) fs tail) as [Hm Hc]; [by rewrite L|done..|].
        rewrite Hm, Z.eqb_refl. cbn [negb mbind option_bind].
        assert (HL : 24 <= 24 + Length (hdr_of (pre ++ take k buf))).
        { destruct Hc as [(_ & _ & Hc)|(f & _ & _ & (Hf & _) & _ & Hc & _)]; [rewrite length_app, L in Hc|]; lia. }
        replace (Length (hdr_of (pre ++ take k buf))) with (24 + Length (hdr_of (pre ++ take k buf)) - Z.of_nat (length (pre ++ take k buf))) at 1 by (rewrite L; lia).
        apply (unpack_payload_stream fuel); [done|by rewrite L|by rewrite L|done..| |done]. rewrite length_drop, L. lia.
    + assert (Erx : rx_of pre = mkRx pre (24 + Length (hdr_of pre) - Z.of_nat (length pre)))
        by (unfold rx_of; by rewrite (proj2 (Nat.ltb_ge _ _))).
      rewrite Erx. cbn [rx_len]. rewrite (proj2 (Z.eqb_neq _ 0)) by lia.
      apply (unpack_payload_stream fuel); done || lia.
Qed.

Lemma partial_prefix a b : partial (a ++ b) -> partial a.
Proof.
  intros H. destruct (le_lt_dec 24 (length a)) as [Ha|Ha]; [|by left]. right. split; [done|].
  destruct H as [H|(_ & Hm & Hl)]; [rewrite length_app in H; lia|]. rewrite hdr_of_app in Hm, Hl by done. rewrite length_app in Hl. split; [done|lia].
Qed.

Lemma partial_of_frame a b : b <> [] -> frame (a ++ b) -> partial a.
Proof.
  intros Hb (_ & Hm & Hl). destruct (le_lt_dec 24 (length a)) as [Ha|Ha]; [|by left]. right. split; [done|].
  rewrite hdr_of_app in Hm, Hl by done. rewrite length_app in Hl. destruct b; [done|]. cbn [length] in Hl. split; [done|lia].
Qed.

(** A stream cut anywhere falls into whole messages and a beginning. *)
Lemma split_stream x y fs tail : Forall frame fs -> partial tail -> x ++ y = concat fs ++ tail ->
  exists fs1 fs2 t, fs = fs1 ++ fs2 /\ x = concat fs1 ++ t /\ partial t /\ t ++ y = concat fs2 ++ tail.
Proof.
  intros Hfs Ht. revert x. induction Hfs as [|f fs Hf Hfs IH]; intros x E.
  - exists [], [], x. cbn in E. split; [done|]. split; [done|]. split; [|done]. apply (partial_prefix x y). by rewrite E.
  - cbn [concat] in E. rewrite <- app_assoc in E. apply app_eq_inv in E as [(k & Hx & Hk)|(k & Hx & Hk)].
    + subst x. destruct (IH k) as (fs1 & fs2 & t & -> & -> & Hp & E'); [done|].
      exists (f :: fs1), fs2, t. cbn [concat app]. by rewrite <- app_assoc.
    + destruct k as [|b k].
      * rewrite app_nil_r in Hx. subst f. cbn in Hk. exists [x], fs, []. cbn [app concat]. rewrite !app_nil_r.
        split; [done|]. split; [done|]. split; [left; cbn; lia|done].
      * exists [], (f :: fs), x. split; [done|]. split; [done|]. split; [|cbn [concat]; rewrite <- app_assoc, Hk; subst f; by rewrite <- app_assoc].
        apply (partial_of_frame x (b :: k)); [done|]. by rewrite <- Hx.
Qed.

Lemma receive_stream chunks pre fs tail :
  partial pre -> Forall frame fs -> partial tail -> pre ++ concat chunks = concat fs ++ tail ->
  receive (rx_of pre) chunks = Some (rx_of tail, fs).
Proof.
  revert pre fs. induction chunks as [|c chunks IH]; intros pre fs Hp Hfs Ht E; cbn [receive].
  - exact (unpack_stream 1 pre [] fs tail ltac:(cbn; lia) Hp Hfs Ht E).
  - cbn [concat] in E. rewrite app_assoc in E.
    destruct (split_stream (pre ++ c) (concat chunks) fs tail Hfs Ht E) as (fs1 & fs2 & t & -> & Ec & Hpt & E').
    apply Forall_app in Hfs as [H1 H2]. unfold unpack. rewrite (unpack_stream _ pre c fs1 t) by (done || lia).
    cbn [mbind option_bind]. by rewrite (IH t fs2).
Qed.

(** A header of another network empties the buffer and drops the rest of the
    read. *)
Lemma bad_header pre buf : (length pre < 24)%nat -> (24 <= length (pre ++ buf))%nat -> Magic (hdr_of (pre ++ buf)) <> magic ->
  unpack (rx_of pre) buf = Some (rx_empty, []).
Proof.
  intros Hp Hl Hm. unfold unpack. cbn [unpackNodeBuf]. rewrite length_app in Hl.
  rewrite (proj2 (Nat.eqb_neq _ 0)) by lia.
  assert (Erx : rx_of pre = mkRx pre 0) by (unfold rx_of; by rewrite (proj2 (Nat.ltb_lt _ _))).
  rewrite Erx. cbn [rx_p rx_len Z.eqb]. rewrite (proj2 (Z.ltb_ge (Z.of_nat _) _)), (proj2 (Z.ltb_ge (24 - _) 0)) by lia.
  set (k := Z.to_nat (24 - Z.of_nat (length pre))).
  assert (L : length (pre ++ take k buf) = 24%nat) by (rewrite length_app, length_take; lia).
  rewrite ValidMsgHdr_24 by done. cbn [mbind option_bind].
  assert (Eh : hdr_of (pre ++ take k buf) = hdr_of (pre ++ buf)).
  { rewrite <- (hdr_of_app (pre ++ take k buf) (drop k buf)) by lia. by rewrite <- app_assoc, take_drop. }
  rewrite Eh. by rewrite (proj2 (Z.eqb_neq _ _)).
Qed.

(** * Properties *)

(** C20: The receive loop cuts the stream of a connection into the messages that
    were put into it, however the reads split it.  If the bytes received so far
    are whole messages of this network followed by the beginning of another
    one, then exactly those messages were handed to the dispatcher, once each,
    complete and in order, and the buffer holds the beginning - for every way
    to cut the bytes into chunks, empty ones included: the loop neither panics
    nor runs on.  Only a header with another magic number breaks this: it is
    thrown away together with everything else of the same read. *)
Theorem stream_framing (chunks : list bytes) (fs : list bytes) (tail : bytes) :
  Forall frame fs -> partial tail ->
  (concat chunks = concat fs ++ tail -> receive rx_empty chunks = Some (rx_of tail, fs)) /\
  (forall buf, (length tail < 24)%nat -> (24 <= length (tail ++ buf))%nat -> Magic (hdr_of (tail ++ buf)) <> magic ->
     concat chunks = concat fs ++ tail -> receive rx_empty (chunks ++ [buf]) = Some (rx_empty, fs)).
Proof.
  intros Hfs Ht. assert (R : concat chunks = concat fs ++ tail -> receive rx_empty chunks = Some (rx_of tail, fs)).
  { intros E. apply (receive_stream chunks []); [left; cbn; lia|done..]. }
  split; [exact R|]. intros buf Hl Hb Hm E. specialize (R E).
  assert (Happ : forall cs rx rx' ms, receive rx cs = Some (rx', ms) -> unpack rx' buf = Some (rx_empty, []) ->
    receive rx (cs ++ [buf]) = Some (rx_empty, ms)).
  { clear. induction cs as [|c cs IH]; intros rx rx' ms H Hb; cbn [receive app] in *.
    - injection H as -> <-. by rewrite Hb.
    - destruct (unpack rx c) as [[rx1 m1]|]; [|done]. cbn [mbind option_bind] in *.
      destruct (receive rx1 cs) as [[rx2 m2]|] eqn:E; [|done]. cbn [mbind option_bind] in H. injection H as -> <-.
      by rewrite (IH _ _ _ E Hb). }
  apply (Happ _ _ _ _ R). by apply bad_header.
Qed.
End Link.

(** Two messages and the first two bytes of a third, in reads of 30, 0 and the
    remaining bytes. *)
Definition ping_bytes : bytes := match NewPingMsg 7630401 7 with Some (b, _) => b | None => [] end.
Definition verack_bytes : bytes := match NewVerack 7630401 with Some (b, _) => b | None => [] end.
Definition sample_stream : bytes := concat [ping_bytes; verack_bytes] ++ take 2 ping_bytes.

Lemma stream_framing_witness :
  receive 7630401 rx_empty [take 30 sample_stream; []; drop 30 sample_stream] = Some (rx_of (take 2 ping_bytes), [ping_bytes; verack_bytes]) /\
  receive 7630401 rx_empty ([take 30 sample_stream; []; drop 30 sample_stream] ++ [replicate 40 0]) = Some (rx_empty, [ping_bytes; verack_bytes]).
Proof.
  assert (Hf : Forall (frame 7630401) [ping_bytes; verack_bytes]) by (repeat constructor; vm_compute; (reflexivity || (intros; discriminate) || lia)).
  assert (Ht : partial 7630401 (take 2 ping_bytes)) by (left; vm_compute; lia).
  assert (Ec : concat [take 30 sample_stream; []; drop 30 sample_stream] = concat [ping_bytes; verack_bytes] ++ take 2 ping_bytes)
    by (vm_compute; reflexivity).
  destruct (stream_framing 7630401 [take 30 sample_stream; []; drop 30 sample_stream] [ping_bytes; verack_bytes] (take 2 ping_bytes) Hf Ht) as [H1 H2].
  split; [exact (H1 Ec)|]. apply H2; [vm_compute; lia|vm_compute; lia| |exact Ec]. vm_compute. discriminate.
Defined.

(** A framed payload is a frame. *)
Lemma framed_frame magic b : inU 32 magic -> framed magic b -> frame magic b.
Proof.
  intros Hm (cmd & p & -> & Hc & Hf). pose proof (wf_payload_hdr magic cmd p Hm Hc Hf) as W.
  pose proof (length_Hdr _ W) as L. unfold frame. rewrite hdr_of_app by (rewrite L; lia).
  rewrite hdr_of_Serialization by done. cbn [payload_hdr Magic Length]. rewrite length_app, L.
  unfold fits in Hf. rewrite wrapU_id by lia. split; [lia|]. split; [done|lia].
Qed.

(** A conversation arrives: whatever messages a node builds with the
    constructors and writes to a connection one after the other, and however
    the reads of its peer cut the bytes, the peer hands to its dispatcher these
    messages, in order, and each parses to what was sent, with a valid
    checksum. *)
Theorem conversation_received (magic : Z) (out : list (option (bytes * err) * Messager)) (chunks : list bytes) :
  inU 32 magic -> Forall (fun bm => sent magic bm.1 bm.2) out ->
  exists bs, map fst out = map (fun b => Some (b, None)) bs /\
    (concat chunks = concat bs -> receive magic rx_empty chunks = Some (rx_empty, bs)) /\
    Forall2 (fun b bm => parse magic b = Some (Some bm.2, None, None)) bs out.
Proof.
  intros Hm Hs.
  assert (H : exists bs, map fst out = map (fun b => Some (b, None)) bs /\ Forall (frame magic) bs /\
    Forall2 (fun b bm => parse magic b = Some (Some bm.2, None, None)) bs out).
  { induction Hs as [|[b m] out Hb _ IH]; [by exists []|]. destruct IH as (bs & E & Hf & Hp).
    destruct (sent_delivers magic b m Hm Hb) as (b' & -> & Hfr & Hpr).
    exists (b' :: bs). cbn [map fst]. rewrite E. split; [done|]. split; constructor; [by apply framed_frame|done..]. }
  destruct H as (bs & E & Hf & Hp). exists bs. split; [done|]. split; [|done]. intros Ec.
  apply (receive_stream magic chunks [] bs []); [left; cbn; lia|done|left; cbn; lia|]. by rewrite app_nil_r.
Qed.

Lemma conversation_received_witness :
  exists bs, map fst [(NewPingMsg 7630401 7, MPing (payload_hdr 7630401 (str "ping") (WriteUint64 7)) 7);
                      (NewVerack 7630401, MVerACK (payload_hdr 7630401 (str "verack") []))] = map (fun b => Some (b, None)) bs /\
    (concat [take 30 (ping_bytes ++ verack_bytes); drop 30 (ping_bytes ++ verack_bytes)] = concat bs ->
     receive 7630401 rx_empty [take 30 (ping_bytes ++ verack_bytes); drop 30 (ping_bytes ++ verack_bytes)] = Some (rx_empty, bs)) /\
    Forall2 (fun b bm => parse 7630401 b = Some (Some bm.2, None, None)) bs
      [(NewPingMsg 7630401 7, MPing (payload_hdr 7630401 (str "ping") (WriteUint64 7)) 7);
       (NewVerack 7630401, MVerACK (payload_hdr 7630401 (str "verack") []))].
Proof.
  apply (conversation_received 7630401 _ [take 30 (ping_bytes ++ verack_bytes); drop 30 (ping_bytes ++ verack_bytes)] ltac:(lia)).
  constructor; [exact (sent_ping 7630401 7 ltac:(lia))|]. constructor; [exact (sent_verack 7630401)|constructor].
Defined.
