(* ===== verification/Peers.v ===== *)
(** [net/node]: the tables a node keeps about its peers - the cache of seen
    identifiers ([idCache.go]), the known addresses ([knowaddrlist.go]), the
    addresses being connected or retried, the heights and hashes in flight and
    the checkpoints ([node.go]).

    Each table is a value and each operation a function on it; locks are
    dropped.  Times are nanoseconds and arguments.  Where the code ranges over
    a map, the order in which Go enumerates it is an argument. *)

From S2P Require Import Prelude Serialization Common Fixed64 Message.

(** * idCache.go *)

Section IdCache.
(** 5000 in the code. *)
Context (MAXIDCACHED : nat).

Record idCache := mkIdCache { lastid : Uint256; idc_index : nat; idarray : list Uint256; idmaplsit : gmap Uint256 nat }.
Definition idCache_init : idCache := mkIdCache zero256 0 (replicate MAXIDCACHED zero256) ∅.

Definition idCache_add (id : Uint256) (c : idCache) : option idCache :=
  oldid ← idarray c !! idc_index c;
  Some (mkIdCache id (S (idc_index c) mod MAXIDCACHED)%nat (<[idc_index c := id]> (idarray c)) (<[id := idc_index c]> (delete oldid (idmaplsit c)))).

Definition ExistedID (id : Uint256) (c : idCache) : option (bool * idCache) :=
  if bool_decide (id = lastid c) then Some (true, c)
  else if bool_decide (is_Some (idmaplsit c !! id)) then Some (true, c)
  else c' ← idCache_add id c; Some (false, c').
End IdCache.

(** * knowaddrlist.go *)

Record KnownAddress := mkKnown { srcAddr : NodeAddr; lastattempt : Z; lastDisconnect : Z; attempts : Z }.
Record KnownAddressList := mkKnownList { ka_List : gmap Z KnownAddress; addrCount : Z }.
Definition KnownAddressList_init : KnownAddressList := mkKnownList ∅ 0.
Definition needAddressThreshold : Z := 1000.
Definition numMissingDays : Z := 30.
Definition numRetries : Z := 10.
Definition MAXOUTBOUNDCNT : Z := 8.
(** Go's zero time, in nanoseconds before the epoch. *)
Definition zero_time : Z := -62135596800 * 10 ^ 9.

Definition increaseAttempts (ka : KnownAddress) : KnownAddress :=
  mkKnown (srcAddr ka) (lastattempt ka) (lastDisconnect ka) (attempts ka + 1).
Definition updateLastAttempt (now : Z) (ka : KnownAddress) : KnownAddress :=
  mkKnown (srcAddr ka) now (lastDisconnect ka) (attempts ka).
Definition updateLastDisconnect (now : Z) (ka : KnownAddress) : KnownAddress :=
  mkKnown (srcAddr ka) (lastattempt ka) now (attempts ka).
Definition isBad (now : Z) (ka : KnownAddress) : bool :=
  (na_Time (srcAddr ka) <? now - numMissingDays * 3600 * 24 * 10 ^ 9) || (numRetries <=? attempts ka).
Definition SaveAddr (na : NodeAddr) (ka : KnownAddress) : KnownAddress :=
  mkKnown na (lastattempt ka) (lastDisconnect ka) (attempts ka).

Definition NeedMoreAddresses (al : KnownAddressList) : bool := addrCount al <? needAddressThreshold.
Definition AddressExisted (uid : Z) (al : KnownAddressList) : bool := bool_decide (is_Some (ka_List al !! uid)).
Definition UpdateAddress (id : Z) (na : NodeAddr) (al : KnownAddressList) : option KnownAddressList :=
  kaold ← ka_List al !! id;
  if (na_Time (srcAddr kaold) <? na_Time na) ||
     negb (Z.land (na_Services (srcAddr kaold)) (na_Services na) =? na_Services na)
  then Some (mkKnownList (<[id := SaveAddr na kaold]> (ka_List al)) (addrCount al))
  else Some al.
Definition UpdateLastDisconn (now id : Z) (al : KnownAddressList) : option KnownAddressList :=
  ka ← ka_List al !! id;
  Some (mkKnownList (<[id := updateLastDisconnect now ka]> (ka_List al)) (addrCount al)).
Definition AddAddressToKnownAddress (na : NodeAddr) (al : KnownAddressList) : option KnownAddressList :=
  let ka := SaveAddr na (mkKnown new_NodeAddr zero_time zero_time 0) in
  let id := na_ID (srcAddr ka) in
  if AddressExisted id al then UpdateAddress id na al
  else Some (mkKnownList (<[id := ka]> (ka_List al)) (uint64 (addrCount al + 1))).
(** The count is left as it was. *)
Definition DelAddressFromList (id : Z) (al : KnownAddressList) : KnownAddressList * bool :=
  if AddressExisted id al then (mkKnownList (delete id (ka_List al)) (addrCount al), true) else (al, false).
Definition isInNbrList (id : Z) (nbrAddrs : list NodeAddr) : bool := existsb (fun na => id =? na_ID na) nbrAddrs.

(** Select one address: its attempts are counted. *)
Definition try_address (now v : Z) (al : KnownAddressList) : KnownAddressList * list NodeAddr :=
  match ka_List al !! v with
  | None => (al, [])
  | Some ka =>
      (mkKnownList (<[v := updateLastAttempt now (increaseAttempts ka)]> (ka_List al)) (addrCount al), [srcAddr ka])
  end.
Fixpoint try_all (now : Z) (keys : list Z) (al : KnownAddressList) (addrs : list NodeAddr) : KnownAddressList * list NodeAddr :=
  match keys with
  | [] => (al, addrs)
  | v :: keys => let '(al, a) := try_address now v al in try_all now keys al (addrs ++ a)
  end.
(** The first position of [keys] that the permutation maps to itself. *)
Definition fixed_point (order : list nat) (keys : list Z) : option nat :=
  fst <$> list_find (fun j => order !! j = Some j) (seq 0 (length keys)).
Fixpoint try_some (now : Z) (count : nat) (order : list nat) (keys : list Z) (al : KnownAddressList) (addrs : list NodeAddr) :
    KnownAddressList * list NodeAddr :=
  match count with
  | O => (al, addrs)
  | S count =>
      match fixed_point order keys with
      | None => try_some now count order keys al addrs
      | Some j =>
          match keys !! j with
          | None => (al, addrs)
          | Some v =>
              let '(al, a) := try_address now v al in
              try_some now count order (delete j keys) al (addrs ++ a)
          end
      end
  end.
(** [enum]: the keys of the map in Go's order; [order]: [rand.Perm] of the number
    of candidates. *)
Definition candidates (now : Z) (enum : list Z) (nbrAddrs : list NodeAddr) (al : KnownAddressList) : list Z :=
  List.filter (fun k => negb (isInNbrList k nbrAddrs) && negb (default true (isBad now <$> ka_List al !! k))) enum.
Definition RandGetAddresses (now : Z) (enum : list Z) (order : list nat) (nbrAddrs : list NodeAddr) (al : KnownAddressList) :
    KnownAddressList * list NodeAddr :=
  let keys := candidates now enum nbrAddrs al in
  let count := MAXOUTBOUNDCNT - Z.of_nat (length nbrAddrs) in
  if Z.of_nat (length keys) <? count then try_all now keys al []
  else try_some now (Z.to_nat count) order keys al [].
Definition RandSelectAddresses (enum : list Z) (al : KnownAddressList) : list NodeAddr :=
  omap (fun v => srcAddr <$> ka_List al !! v) (take (Z.to_nat (Z.min MAXOUTBOUNDCNT (Z.of_nat (length enum)))) enum).

(** * Addresses being connected and retried *)

Definition SetAddrInConnectingList (addr : bytes) (l : list bytes) : list bytes * bool :=
  if bool_decide (addr ∈ l) then (l, false) else (l ++ [addr], true).

(** [append(arr[:i], arr[i+1:]...)] shifts the shared array in place: its last
    element stays where it was. *)
Definition shift_out (i : nat) (arr : list bytes) : list bytes :=
  take i arr ++ drop (S i) arr ++ drop (pred (length arr)) arr.
(** The loop over the array of length [n]; the flag says whether [addrs] was
    assigned, in which case it is the array without its last element. *)
Fixpoint remove_loop (turns i : nat) (addr : bytes) (arr : list bytes) (found : bool) : list bytes * bool :=
  match turns with
  | O => (arr, found)
  | S turns =>
      if bool_decide (arr !! i = Some addr) then remove_loop turns (S i) addr (shift_out i arr) true
      else remove_loop turns (S i) addr arr found
  end.
Definition RemoveAddrInConnectingList (addr : bytes) (l : list bytes) : list bytes :=
  let '(arr, found) := remove_loop (length l) 0 addr l false in
  if found then take (pred (length l)) arr else [].

Definition AddInRetryList (addr : bytes) (m : gmap bytes Z) : gmap bytes Z := <[addr := 0]> (delete addr m).
Definition RemoveFromRetryList (addr : bytes) (m : gmap bytes Z) : gmap bytes Z := delete addr m.

(** * Heights and hashes in flight *)

Definition StoreFlightHeight (height : Z) (l : list Z) : list Z := l ++ [height].
Definition ExistFlightHeight (height : Z) (l : list Z) : bool := bool_decide (height ∈ l).
Definition RemoveFlightHeight (height : Z) (l : list Z) : list Z := SliceRemove l height.
(** [None]: the fuel ran out. *)
Fixpoint less_than_loop (fuel : nat) (h : Z) (i p : nat) (heights : list Z) : option (nat * list Z) :=
  if (i <? p)%nat then
    match fuel with
    | O => None
    | S fuel =>
        if nth i heights 0 <? h
        then less_than_loop fuel h i (pred p) (<[pred p := nth i heights 0]> (<[i := nth (pred p) heights 0]> heights))
        else less_than_loop fuel h (S i) p heights
    end
  else Some (p, heights).
Definition RemoveFlightHeightLessThan (h : Z) (l : list Z) : option (list Z) :=
  '(p, heights) ← less_than_loop (length l) h 0 (length l) l; Some (take p heights).

Definition MAXCACHEHASH : nat := 16.
Definition cache_hash (max : nat) (hash : Uint256) (l : list Uint256) : list Uint256 :=
  let l := l ++ [hash] in if (max <? length l)%nat then drop 1 l else l.
Definition CacheHash (hash : Uint256) (l : list Uint256) : list Uint256 := cache_hash MAXCACHEHASH hash l.
(** Up to 50000 hashes. *)
Definition CacheInvHash (MAXINVCACHEHASH : nat) (hash : Uint256) (l : list Uint256) : list Uint256 := cache_hash MAXINVCACHEHASH hash l.
Definition ExistHash (hash : Uint256) (l : list Uint256) : bool := bool_decide (hash ∈ l).

(** * Synchronisation flags *)

Definition IsSyncHeaders (flag : Z) : bool := Z.land flag 0x01 =? 0x01.
Definition SetSyncHeaders (b : bool) (flag : Z) : Z := if b then Z.lor flag 0x01 else Z.land flag 0xFE.
Definition IsSyncFailed (flag : Z) : bool := Z.land flag 0x02 =? 0x02.
Definition SetSyncFailed (flag : Z) : Z := Z.lor flag 0x02.

(** * Checkpoints *)

Record Checkpoint := mkCheckpoint { ck_Height : Z; ck_Hash : Uint256 }.

(** [strings.Split(s, ":")]. *)
Fixpoint split_colon (s : bytes) : list bytes :=
  match s with
  | [] => [[]]
  | c :: s =>
      match split_colon s with
      | w :: ws => if c =? 58 then [] :: w :: ws else (c :: w) :: ws
      | [] => [[c]]
      end
  end.
(** [hex.DecodeString]: the bytes decoded before an error. *)
Definition hex_value (c : Z) : option Z :=
  if (48 <=? c) && (c <=? 57) then Some (c - 48)
  else if (97 <=? c) && (c <=? 102) then Some (c - 87)
  else if (65 <=? c) && (c <=? 70) then Some (c - 55) else None.
Fixpoint hex_DecodeString (s : bytes) : bytes * err :=
  match s with
  | [] => ([], None)
  | [_] => ([], Some (NewError "encoding/hex: odd length hex string"))
  | a :: b :: s =>
      match hex_value a, hex_value b with
      | Some x, Some y => let '(d, e) := hex_DecodeString s in (16 * x + y :: d, e)
      | _, _ => ([], Some (NewError "encoding/hex: invalid byte"))
      end
  end.
Definition HexStringToBytesReverse (value : bytes) : bytes * err :=
  let '(u, e) := hex_DecodeString value in if is_err e then (u, e) else (BytesReverse u, e).
(** [copy(hash[:], b)]. *)
Definition copy_hash (b : bytes) : Uint256 := take 32 b ++ drop (length (take 32 b)) zero256.

Definition newCheckpointFromStr (checkpoint : bytes) : Checkpoint * err :=
  match split_colon checkpoint with
  | [h; hashstr] =>
      let '(height, e) := ParseInt h in
      if is_err e then (mkCheckpoint 0 zero256, Some (NewError "malformed height"))
      else if (length hashstr =? 0)%nat then (mkCheckpoint 0 zero256, Some (NewError "missing hash"))
      else (mkCheckpoint (uint64 height) (copy_hash (fst (HexStringToBytesReverse hashstr))), None)
  | _ => (mkCheckpoint 0 zero256, Some (NewError "use the syntax <height>:<hash>"))
  end.
Fixpoint parseCheckpoints (l : list bytes) : list Checkpoint * err :=
  match l with
  | [] => ([], None)
  | s :: l =>
      let '(c, e) := newCheckpointFromStr s in
      if is_err e then ([], e)
      else let '(cs, e) := parseCheckpoints l in if is_err e then ([], e) else (c :: cs, None)
  end.

(** The checkpoint found, which is also stored in the node; when there is none
    the node keeps the one it had. *)
Definition find_checkpoint (height : Z) (checkpoints : list Checkpoint) : option Checkpoint :=
  final ← list.last checkpoints;
  if ck_Height final <=? height then None
  else
    Some (default final (List.find (fun c => height <? ck_Height c) (take (pred (length checkpoints)) checkpoints))).

(** * The identifier cache is a queue *)

Section IdCacheLemmas.
Context (N : nat).

(** The specification: the last [N] identifiers that were new. *)
Definition queue_step (id : Uint256) (q : list Uint256) : bool * list Uint256 :=
  if bool_decide (id ∈ q) then (true, q)
  else (false, drop (S (length q) - N) (q ++ [id])).

(** The array, read from the index on, holds unused slots and then the queue;
    the map holds the queue. *)
Record cache_queue (c : idCache) (q : list Uint256) : Prop := {
  cq_index : (idc_index c < N)%nat;
  cq_array : length (idarray c) = N;
  cq_ring : drop (idc_index c) (idarray c) ++ take (idc_index c) (idarray c) = replicate (N - length q) zero256 ++ q;
  cq_map : forall id, is_Some (idmaplsit c !! id) <-> id ∈ q;
  cq_nodup : NoDup q;
  cq_nonzero : zero256 ∉ q;
  cq_len : (length q <= N)%nat;
  cq_last : lastid c = default zero256 (list.last q) }.

Lemma cache_queue_init : (0 < N)%nat -> cache_queue (idCache_init N) [].
Proof.
  intros HN. constructor; cbn [idCache_init idc_index idarray idmaplsit lastid length]; try done.
  - apply length_replicate.
  - by rewrite drop_0, take_0, Nat.sub_0_r.
  - intros id. rewrite lookup_empty. split; [by intros [? ?]|by intros ?%not_elem_of_nil].
  - constructor.
  - apply not_elem_of_nil.
  - lia.
Qed.

(** The ring after one slot was overwritten and the index moved on. *)
Lemma ring_insert (arr : list Uint256) i id : (i < length arr)%nat ->
  exists old rest, drop i arr ++ take i arr = old :: rest /\ arr !! i = Some old /\
    let j := (S i mod length arr)%nat in drop j (<[i := id]> arr) ++ take j (<[i := id]> arr) = rest ++ [id].
Proof.
  intros Hi. destruct (lookup_lt_is_Some_2 arr i Hi) as [old Ho].
  exists old, (drop (S i) arr ++ take i arr). split.
  { rewrite <- (take_drop_middle arr i old Ho) at 1. rewrite drop_app_length' by (rewrite length_take; lia). done. }
  split; [done|]. cbn zeta. rewrite insert_take_drop by done.
  destruct (decide (S i = length arr)) as [E|E].
  - rewrite E, Nat.Div0.mod_same, drop_0. cbn [take]. rewrite drop_ge, !app_nil_r by lia. cbn. done.
  - rewrite Nat.mod_small by lia. rewrite cons_middle, app_assoc.
    rewrite drop_app_length', take_app_length' by (rewrite length_app, length_take; cbn; lia).
    by rewrite app_assoc.
Qed.

Lemma ExistedID_queue id c q : cache_queue c q -> id <> zero256 ->
  exists c', ExistedID N id c = Some ((queue_step id q).1, c') /\ cache_queue c' (queue_step id q).2.
Proof.
  intros [Hi Ha Hr Hm Hn Hz Hl Hlast] Hid. unfold ExistedID, queue_step.
  assert (Hq : id = lastid c -> id ∈ q).
  { rewrite Hlast. intros ->. destruct (list.last q) eqn:E; [|done]. by apply last_Some_elem_of in E. }
  destruct (bool_decide_reflect (id ∈ q)) as [Hin|Hin].
  - exists c. rewrite (bool_decide_eq_true_2 (is_Some _)) by (by apply Hm). split; [by case_bool_decide|done].
  - rewrite bool_decide_eq_false_2 by auto. rewrite bool_decide_eq_false_2 by (by rewrite Hm).
    rewrite <- Ha in Hi. destruct (ring_insert (idarray c) (idc_index c) id Hi) as (old & rest & Ering & Eold & Enew).
    unfold idCache_add. rewrite Eold. cbn [mbind option_bind fst snd]. eexists. split; [reflexivity|].
    rewrite Ering in Hr. cbn zeta in Enew. rewrite Ha in Hi, Enew.
    assert (Hlast' : forall l : list Uint256, id = default zero256 (list.last (l ++ [id]))) by (intros; by rewrite last_snoc).
    destruct (decide (length q = N)) as [Efull|Enot].
    + rewrite Efull, Nat.sub_diag in Hr. cbn [replicate app] in Hr. destruct q as [|o q]; [done|]. injection Hr as -> ->.
      replace (S (length (o :: q)) - N)%nat with 1%nat by lia. cbn [app drop]. rewrite drop_0.
      apply list.NoDup_cons in Hn as [Hno Hn]. rewrite elem_of_cons in Hin, Hz. cbn [length] in *.
      constructor; cbn [idc_index idarray idmaplsit lastid]; [apply Nat.mod_upper_bound; lia|by rewrite length_insert| | |..].
      * rewrite Enew, length_app. cbn. by replace (N - (length q + 1))%nat with 0%nat by lia.
      * intros x. rewrite lookup_insert_is_Some, lookup_delete_is_Some, Hm, elem_of_app, list_elem_of_singleton, elem_of_cons.
        destruct (decide (x = id)), (decide (x = o)); naive_solver.
      * apply list.NoDup_app. split; [done|]. split; [|apply list.NoDup_singleton]. intros x Hx ->%list_elem_of_singleton. auto.
      * rewrite elem_of_app, list_elem_of_singleton. naive_solver.
      * rewrite length_app. cbn. lia.
      * apply Hlast'.
    + destruct (N - length q)%nat as [|z] eqn:Ez; [lia|]. cbn [replicate app] in Hr. injection Hr as -> ->.
      replace (S (length q) - N)%nat with 0%nat by lia. rewrite drop_0.
      constructor; cbn [idc_index idarray idmaplsit lastid]; [apply Nat.mod_upper_bound; lia|by rewrite length_insert| | |..].
      * rewrite Enew, <- app_assoc. replace (N - length (q ++ [id]))%nat with z; [done|rewrite length_app; cbn; lia].
      * intros x. rewrite lookup_insert_is_Some, lookup_delete_is_Some, Hm, elem_of_app, list_elem_of_singleton.
        destruct (decide (x = id)), (decide (x = zero256)); naive_solver.
      * apply list.NoDup_app. split; [done|]. split; [|apply list.NoDup_singleton]. intros x Hx ->%list_elem_of_singleton. auto.
      * rewrite elem_of_app, list_elem_of_singleton. naive_solver.
      * rewrite length_app. cbn. lia.
      * apply Hlast'.
Qed.
End IdCacheLemmas.

(** * Selecting addresses *)

Definition src (al : KnownAddressList) (k : Z) : option NodeAddr := srcAddr <$> ka_List al !! k.

Lemma try_address_spec now v al :
  (try_address now v al).2 = default [] ((fun a => [a]) <$> src al v) /\ (forall k, src (try_address now v al).1 k = src al k).
Proof.
  unfold try_address, src. destruct (ka_List al !! v) as [ka|] eqn:E; cbn; [|done]. split; [done|]. intros k.
  destruct (decide (k = v)) as [->|Hk]; [by rewrite lookup_insert_eq, E|by rewrite lookup_insert_ne].
Qed.

Lemma omap_src_ext al al' (ks : list Z) : (forall k, src al' k = src al k) -> omap (src al') ks = omap (src al) ks.
Proof. intros H. induction ks as [|k ks IH]; cbn; [done|]. by rewrite H, IH. Qed.

Lemma omap_src_cons al v ks : omap (src al) (v :: ks) = default [] ((fun a => [a]) <$> src al v) ++ omap (src al) ks.
Proof. cbn. by destruct (src al v). Qed.

Lemma try_all_spec now keys al acc : (try_all now keys al acc).2 = acc ++ omap (src al) keys.
Proof.
  revert al acc. induction keys as [|v keys IH]; intros al acc; cbn [try_all]; [by rewrite app_nil_r|].
  destruct (try_address_spec now v al) as [Ha Hs]. destruct (try_address now v al) as [al' a]. cbn [fst snd] in *.
  rewrite IH, omap_src_cons, Ha, <- app_assoc, (omap_src_ext al al') by done. done.
Qed.

Lemma try_some_spec now count order keys al acc :
  exists picked, picked ⊆+ keys /\ (length picked <= count)%nat /\
    (try_some now count order keys al acc).2 = acc ++ omap (src al) picked.
Proof.
  revert keys al acc. induction count as [|count IH]; intros keys al acc; cbn [try_some].
  { exists []. split; [apply submseteq_nil_l|]. split; [done|]. by rewrite app_nil_r. }
  destruct (fixed_point order keys) as [j|].
  2:{ destruct (IH keys al acc) as (p & Hp & Hl & E). exists p. split; [done|]. split; [lia|done]. }
  destruct (keys !! j) as [v|] eqn:Ej.
  2:{ exists []. split; [apply submseteq_nil_l|]. split; [cbn; lia|]. by rewrite app_nil_r. }
  destruct (try_address_spec now v al) as [Ha Hs]. destruct (try_address now v al) as [al' a]. cbn [fst snd] in *.
  destruct (IH (delete j keys) al' (acc ++ a)) as (p & Hp & Hl & E).
  exists (v :: p). split; [|split; [cbn; lia|]].
  - rewrite (delete_Permutation keys j v Ej). by apply submseteq_skip.
  - rewrite E, omap_src_cons, Ha, <- app_assoc, (omap_src_ext al al') by done. done.
Qed.

(** Without a fixed point nothing is selected. *)
Lemma try_some_none now count order keys al acc :
  (forall j, (j < length keys)%nat -> order !! j <> Some j) -> try_some now count order keys al acc = (al, acc).
Proof.
  intros H. assert (E : fixed_point order keys = None).
  { unfold fixed_point. destruct (list_find _ _) as [[i j]|] eqn:Ef; [|done].
    apply list_find_Some in Ef as (Hi & Ho & _). apply lookup_seq in Hi as [-> Hi]. by apply H in Ho. }
  induction count as [|count IH]; cbn [try_some]; [done|]. by rewrite E.
Qed.

(** Every entry is stored under its identifier, and the counter counts. *)
Record known_inv (al : KnownAddressList) : Prop := {
  ki_id : forall k ka, ka_List al !! k = Some ka -> na_ID (srcAddr ka) = k;
  ki_count : addrCount al = Z.of_nat (size (ka_List al)) }.

Lemma known_inv_init : known_inv KnownAddressList_init.
Proof. constructor; cbn; [by intros k ka; rewrite lookup_empty|]. by rewrite map_size_empty. Qed.

Lemma SaveAddr_existing al id ka na : ka_List al !! id = Some ka -> na_ID na = id -> known_inv al ->
  known_inv (mkKnownList (<[id := SaveAddr na ka]> (ka_List al)) (addrCount al)).
Proof.
  intros E <- [Hi Hc]. constructor; cbn.
  - intros k ka'. destruct (decide (k = na_ID na)) as [->|Hk]; [rewrite lookup_insert_eq; by intros [= <-]|].
    rewrite lookup_insert_ne by done. apply Hi.
  - rewrite map_size_insert_Some by eauto. done.
Qed.

Lemma AddAddress_inv na al : known_inv al -> Z.of_nat (size (ka_List al)) + 1 < 2 ^ 64 ->
  exists al', AddAddressToKnownAddress na al = Some al' /\ known_inv al' /\
    exists ka, ka_List al' !! na_ID na = Some ka /\
      (srcAddr ka = na \/
       (na_Time na <= na_Time (srcAddr ka) /\ Z.land (na_Services (srcAddr ka)) (na_Services na) = na_Services na)).
Proof.
  intros I Hs. unfold AddAddressToKnownAddress, AddressExisted. cbn [SaveAddr srcAddr].
  case_bool_decide as Hex.
  - destruct Hex as [ka E]. unfold UpdateAddress. rewrite E. cbn [mbind option_bind].
    destruct (_ || _) eqn:Hc.
    + eexists. split; [reflexivity|]. split; [by apply SaveAddr_existing|]. eexists. split; [cbn; apply lookup_insert_eq|by left].
    + exists al. split; [done|]. split; [done|]. exists ka. split; [done|]. right.
      apply orb_false_iff in Hc as [Ht Hv]. apply Z.ltb_ge in Ht. apply negb_false_iff, Z.eqb_eq in Hv. done.
  - eexists. split; [reflexivity|]. apply eq_None_not_Some in Hex. destruct I as [Hi Hc]. split.
    + constructor; cbn.
      * intros k ka'. destruct (decide (k = na_ID na)) as [->|Hk]; [rewrite lookup_insert_eq; by intros [= <-]|].
        rewrite lookup_insert_ne by done. apply Hi.
      * rewrite map_size_insert_None, Hc, wrapU_id by (done || lia). lia.
    + eexists. split; [cbn; apply lookup_insert_eq|by left].
Qed.

(** * The connecting list *)

Lemma remove_loop_absent turns i addr arr found : addr ∉ arr -> remove_loop turns i addr arr found = (arr, found).
Proof.
  intros H. revert i. induction turns as [|turns IH]; intros i; cbn [remove_loop]; [done|].
  rewrite bool_decide_eq_false_2; [apply IH|]. intros E. by apply list_elem_of_lookup_2 in E.
Qed.

Lemma remove_loop_before turns i addr arr found k : (forall j, (i <= j < i + k)%nat -> arr !! j <> Some addr) -> (k <= turns)%nat ->
  remove_loop turns i addr arr found = remove_loop (turns - k) (i + k) addr arr found.
Proof.
  revert i turns. induction k as [|k IH]; intros i turns H Hk; [by rewrite Nat.sub_0_r, Nat.add_0_r|].
  destruct turns as [|turns]; [lia|]. cbn [remove_loop]. rewrite bool_decide_eq_false_2 by (apply H; lia).
  rewrite (IH (S i)) by (try lia; intros j Hj; apply H; lia). cbn [Nat.sub]. f_equal. lia.
Qed.

Lemma shift_out_middle a x b : shift_out (length a) (a ++ x :: b) = a ++ b ++ [default x (list.last b)].
Proof.
  unfold shift_out. rewrite take_app_length. rewrite (drop_app_ge a) by lia.
  replace (S (length a) - length a)%nat with 1%nat by lia. cbn [drop]. rewrite drop_0. do 2 f_equal.
  rewrite length_app. cbn [length]. rewrite Nat.add_succ_r. cbn [pred].
  rewrite drop_app_ge by lia. replace (length a + length b - length a)%nat with (length b) by lia.
  destruct b as [|y b] using rev_ind; [done|]. rewrite last_snoc, length_app. cbn [length default].
  rewrite Nat.add_1_r. cbn [drop]. by rewrite drop_app_length.
Qed.

Lemma RemoveAddr_present a x b : NoDup (a ++ x :: b) -> RemoveAddrInConnectingList x (a ++ x :: b) = a ++ b.
Proof.
  intros Hn. apply list.NoDup_app in Hn as (Ha & Hab & Hb). apply list.NoDup_cons in Hb as [Hxb Hb].
  assert (Hxa : x ∉ a) by (intros Hx; apply (Hab x Hx); constructor).
  unfold RemoveAddrInConnectingList. rewrite (remove_loop_before _ 0 x _ false (length a)).
  - rewrite length_app. cbn [length]. replace (length a + S (length b) - length a)%nat with (S (length b)) by lia.
    cbn [remove_loop Nat.add]. rewrite bool_decide_eq_true_2 by (by rewrite lookup_app_r, Nat.sub_diag by lia).
    rewrite shift_out_middle.
    assert (E : remove_loop (length b) (S (length a)) x (a ++ b ++ [default x (list.last b)]) true = (a ++ b ++ [default x (list.last b)], true)).
    { destruct b as [|y b] using rev_ind; [done|]. apply remove_loop_absent. rewrite last_snoc. cbn [default].
      rewrite !elem_of_app, !list_elem_of_singleton in *. naive_solver. }
    rewrite E, Nat.add_succ_r. cbn [pred]. rewrite app_assoc. apply take_app_length'. by rewrite length_app.
  - intros j Hj E. rewrite lookup_app_l in E by lia. by apply list_elem_of_lookup_2 in E.
  - rewrite length_app. cbn. lia.
Qed.

(** * Heights in flight *)

Lemma insert_swap_Permutation (l : list Z) i j x y : l !! i = Some x -> l !! j = Some y -> <[j := x]> (<[i := y]> l) ≡ₚ l.
Proof.
  intros Ei Ej. pose proof (lookup_lt_Some _ _ _ Ei). pose proof (lookup_lt_Some _ _ _ Ej).
  apply Permutation_inj. split; [by rewrite !length_insert|].
  exists (fun k => if decide (k = i) then j else if decide (k = j) then i else k). split.
  - intros a b. repeat case_decide; naive_solver.
  - intros k. destruct (decide (k = j)) as [->|Hj].
    + rewrite list_lookup_insert_eq by (rewrite length_insert; lia). case_decide; [by subst; simplify_eq|done].
    + rewrite list_lookup_insert_ne by done. case_decide as Hi; [subst; by rewrite list_lookup_insert_eq|].
      by rewrite list_lookup_insert_ne.
Qed.

(** Both parts of the array while the loop runs. *)
Lemma less_than_loop_spec fuel h i p l : (p - i <= fuel)%nat -> (i <= p <= length l)%nat ->
  Forall (fun x => h <= x) (take i l) -> Forall (fun x => x < h) (drop p l) ->
  exists q l', less_than_loop fuel h i p l = Some (q, l') /\ l' ≡ₚ l /\ (q <= length l')%nat /\
    Forall (fun x => h <= x) (take q l') /\ Forall (fun x => x < h) (drop q l').
Proof.
  revert i p l. induction fuel as [|fuel IH]; intros i p l Hf Hip Hlo Hhi; cbn [less_than_loop];
    (destruct (Nat.ltb_spec i p) as [Hlt|Hge]; [|exists p, l; replace i with p in Hlo by lia; split; [done|]; split; [done|]; split; [lia|done]]).
  { lia. }
  destruct (lookup_lt_is_Some_2 l i ltac:(lia)) as [x Ex]. destruct (lookup_lt_is_Some_2 l (pred p) ltac:(lia)) as [y Ey].
  rewrite (nth_lookup_Some _ _ 0 _ Ex), (nth_lookup_Some _ _ 0 _ Ey).
  destruct (Z.ltb_spec x h) as [Hx|Hx].
  - set (l' := <[pred p := x]> (<[i := y]> l)).
    assert (Hp : l' ≡ₚ l) by (by apply insert_swap_Permutation).
    destruct (IH i (pred p) l') as (q & l'' & E & Hp' & H); [lia|unfold l'; rewrite !length_insert; lia| | |].
    + unfold l'. by rewrite !take_insert_ge by lia.
    + unfold l'. rewrite (drop_S _ x (pred p)) by (apply list_lookup_insert_eq; rewrite length_insert; lia).
      constructor; [done|]. replace (S (pred p)) with p by lia. by rewrite !drop_insert_lt by lia.
    + exists q, l''. split; [done|]. split; [by rewrite Hp'|done].
  - apply IH; [lia|lia| |done]. rewrite (take_S_r _ _ x) by done. apply Forall_app. split; [done|by repeat constructor].
Qed.

Lemma RemoveFlightHeightLessThan_spec h l : exists l', RemoveFlightHeightLessThan h l = Some l' /\ l' ≡ₚ List.filter (fun x => h <=? x) l.
Proof.
  destruct (less_than_loop_spec (length l) h 0 (length l) l) as (q & l' & E & Hp & Hq & Hlo & Hhi); [lia|lia|constructor|by rewrite drop_all|].
  unfold RemoveFlightHeightLessThan. rewrite E. eexists. split; [reflexivity|].
  assert (F : forall a b, a ≡ₚ b -> List.filter (fun x => h <=? x) a ≡ₚ List.filter (fun x => h <=? x) b).
  { induction 1 as [|x a b Hab IH|x y a|a b c _ IH1 _ IH2]; cbn; repeat case_match; try done; try (by constructor); by rewrite IH1. }
  rewrite <- (F _ _ Hp). rewrite <- (take_drop q l') at 2. rewrite List.filter_app.
  assert (Et : List.filter (fun x => h <=? x) (take q l') = take q l').
  { clear -Hlo. induction Hlo as [|x a Hx _ IH]; cbn; [done|]. rewrite (proj2 (Z.leb_le h x)) by done. by rewrite IH. }
  assert (Ed : List.filter (fun x => h <=? x) (drop q l') = []).
  { clear -Hhi. induction Hhi as [|x a Hx _ IH]; cbn; [done|]. by rewrite (proj2 (Z.leb_gt h x)). }
  by rewrite Et, Ed, app_nil_r.
Qed.

(** * Checkpoints *)

(** In a sorted list the first entry above a height is the lowest one. *)
Lemma find_first height l c : StronglySorted (fun a b => ck_Height a <= ck_Height b) l ->
  List.find (fun c => height <? ck_Height c) l = Some c ->
  c ∈ l /\ height < ck_Height c /\ forall c', c' ∈ l -> height < ck_Height c' -> ck_Height c <= ck_Height c'.
Proof.
  induction 1 as [|a l Hs IH Ha]; cbn [List.find]; [done|]. destruct (Z.ltb_spec height (ck_Height a)) as [Hl|Hl].
  - intros [= ->]. split; [constructor|]. split; [done|]. intros c' [->|Hc]%elem_of_cons _; [done|].
    rewrite list.Forall_forall in Ha. by apply Ha.
  - intros E. destruct (IH E) as (Hin & Hc & Hmin). split; [by constructor|]. split; [done|].
    intros c' [->|Hc']%elem_of_cons Hlt; [lia|by apply Hmin].
Qed.

(** The search over all but the last entry, with the last one as default, is
    the search over all of them. *)
Lemma find_checkpoint_find height cps : StronglySorted (fun a b => ck_Height a <= ck_Height b) cps ->
  find_checkpoint height cps = List.find (fun c => height <? ck_Height c) cps.
Proof.
  intros Hs. unfold find_checkpoint. destruct cps as [|final init _] using rev_ind; [done|].
  rewrite last_snoc. cbn [mbind option_bind]. rewrite length_app. cbn [length]. rewrite Nat.add_1_r. cbn [pred].
  rewrite take_app_length. destruct (Z.leb_spec (ck_Height final) height) as [Hf|Hf].
  - symmetry. destruct (List.find _ _) as [c|] eqn:E; [|done]. apply find_first in E as (Hin & Hc & _); [|done].
    exfalso. apply elem_of_app in Hin as [Hin| ->%list_elem_of_singleton]; [|lia].
    assert (ck_Height c <= ck_Height final); [|lia]. revert Hs Hin. clear. induction init as [|a init IH]; [by intros _ ?%not_elem_of_nil|].
    intros [Hs Ha]%StronglySorted_inv [->|Hc]%elem_of_cons; [|by apply IH].
    rewrite Forall_app, Forall_singleton in Ha. apply Ha.
  - clear Hs. induction init as [|a init IH]; cbn [List.find app].
    + by rewrite (proj2 (Z.ltb_lt _ _)).
    + destruct (height <? ck_Height a); [done|exact IH].
Qed.

(** * Properties *)

(** A sequence of queries, and the same on the specification. *)
Fixpoint exist_all (N : nat) (ids : list Uint256) (c : idCache) : option (list bool * idCache) :=
  match ids with
  | [] => Some ([], c)
  | id :: ids => '(b, c) ← ExistedID N id c; '(bs, c) ← exist_all N ids c; Some (b :: bs, c)
  end.
Fixpoint queue_all (N : nat) (ids q : list Uint256) : list bool * list Uint256 :=
  match ids with
  | [] => ([], q)
  | id :: ids => let '(b, q) := queue_step N id q in let '(bs, q) := queue_all N ids q in (b :: bs, q)
  end.

(** The cache of identifiers implements a queue: for every sequence of
    queries with identifiers other than the zero hash, the ring buffer with its
    map and last identifier answers exactly as a list of the most recent
    [MAXIDCACHED] identifiers that were new - "seen" for those in the list, "new"
    for all others, which are then appended, the oldest one leaving a full
    list - and no query indexes out of range. *)
Theorem id_cache_is_queue (N : nat) (ids : list Uint256) :
  (0 < N)%nat -> Forall (fun id => id <> zero256) ids ->
  exists c, exist_all N ids (idCache_init N) = Some ((queue_all N ids []).1, c) /\ cache_queue N c (queue_all N ids []).2.
Proof.
  intros HN Hids. pose proof (cache_queue_init N HN) as H. revert H. generalize (idCache_init N) as c. generalize (@nil Uint256) as q.
  induction Hids as [|id ids Hid _ IH]; intros q c H; cbn [exist_all queue_all]; [by exists c|].
  destruct (ExistedID_queue N id c q H Hid) as (c' & E & H'). rewrite E. cbn [mbind option_bind].
  destruct (queue_step N id q) as [b q'] eqn:Eq. cbn [fst snd] in *. destruct (IH q' c' H') as (c'' & E'' & H'').
  rewrite E''. destruct (queue_all N ids q') as [bs q'']. by exists c''.
Qed.

Lemma id_cache_is_queue_witness :
  let ids := [replicate 32 1; replicate 32 2; replicate 32 1; replicate 32 3; replicate 32 1] in
  (queue_all 2 ids []).1 = [false; false; true; false; false] /\
  exists c, exist_all 2 ids (idCache_init 2) = Some ((queue_all 2 ids []).1, c) /\ cache_queue 2 c (queue_all 2 ids []).2.
Proof.
  split; [vm_compute; reflexivity|]. apply (id_cache_is_queue 2); [lia|]. repeat constructor; discriminate.
Defined.

(** Adding addresses keeps the table of known addresses consistent: every
    entry is filed under the identifier it carries and the counter is the
    number of entries; the announced address is stored, unless what is known
    is at least as recent and offers its services already. *)
Theorem known_addresses (al : KnownAddressList) (na : NodeAddr) :
  known_inv al -> Z.of_nat (size (ka_List al)) + 1 < 2 ^ 64 ->
  exists al', AddAddressToKnownAddress na al = Some al' /\ known_inv al' /\
    exists ka, ka_List al' !! na_ID na = Some ka /\
      (srcAddr ka = na \/
       (na_Time na <= na_Time (srcAddr ka) /\ Z.land (na_Services (srcAddr ka)) (na_Services na) = na_Services na)).
Proof. exact (AddAddress_inv na al). Qed.

Lemma known_addresses_witness :
  exists al', AddAddressToKnownAddress (mkNodeAddr 5 1 (replicate 16 0) 20866 7) KnownAddressList_init = Some al' /\ known_inv al' /\
    exists ka, ka_List al' !! 7 = Some ka /\
      (srcAddr ka = mkNodeAddr 5 1 (replicate 16 0) 20866 7 \/ (5 <= na_Time (srcAddr ka) /\ Z.land (na_Services (srcAddr ka)) 1 = 1)).
Proof. apply (known_addresses KnownAddressList_init); [exact known_inv_init|vm_compute; reflexivity]. Defined.

(** Which addresses a node dials: whatever the enumeration of the map and the
    permutation drawn, the addresses selected are known, not those of current
    neighbours, not out of date and not tried too often, and there are at most
    as many as there is room for connections; when the candidates are fewer
    than the room, all of them are selected.  When they are not, only the
    fixed points of the permutation are looked at, so a permutation that moves
    every position selects nothing. *)
Theorem address_selection (now : Z) (enum : list Z) (order : list nat) (nbrs : list NodeAddr) (al : KnownAddressList) :
  let r := (RandGetAddresses now enum order nbrs al).2 in
  let room := MAXOUTBOUNDCNT - Z.of_nat (length nbrs) in
  let cands := candidates now enum nbrs al in
  (forall a, a ∈ r -> exists k ka, k ∈ enum /\ ka_List al !! k = Some ka /\ a = srcAddr ka /\
     isInNbrList k nbrs = false /\ isBad now ka = false) /\
  Z.of_nat (length r) <= Z.max 0 room /\
  (Z.of_nat (length cands) < room -> r = omap (src al) cands) /\
  (room <= Z.of_nat (length cands) -> (forall j, (j < length cands)%nat -> order !! j <> Some j) -> r = []).
Proof.
  cbn zeta. unfold RandGetAddresses. set (cands := candidates now enum nbrs al).
  assert (Hc : forall k a, k ∈ cands -> src al k = Some a -> exists k ka, k ∈ enum /\ ka_List al !! k = Some ka /\ a = srcAddr ka /\
     isInNbrList k nbrs = false /\ isBad now ka = false).
  { intros k a Hk Ha. unfold cands, candidates in Hk. apply list_elem_of_In, filter_In in Hk as [Hk Hf]. apply list_elem_of_In in Hk.
    unfold src in Ha. destruct (ka_List al !! k) as [ka|] eqn:E; [|done]. injection Ha as <-. cbn in Hf.
    apply andb_true_iff in Hf as [H1 H2]. apply negb_true_iff in H1, H2. by exists k, ka. }
  assert (Hp : exists picked, picked ⊆+ cands /\ Z.of_nat (length picked) <= Z.max 0 (MAXOUTBOUNDCNT - Z.of_nat (length nbrs)) /\
    (if Z.of_nat (length cands) <? MAXOUTBOUNDCNT - Z.of_nat (length nbrs) then try_all now cands al []
     else try_some now (Z.to_nat (MAXOUTBOUNDCNT - Z.of_nat (length nbrs))) order cands al []).2 = omap (src al) picked).
  { destruct (Z.ltb_spec (Z.of_nat (length cands)) (MAXOUTBOUNDCNT - Z.of_nat (length nbrs))) as [Hl|Hl].
    - exists cands. split; [done|]. split; [lia|]. by rewrite try_all_spec.
    - destruct (try_some_spec now (Z.to_nat (MAXOUTBOUNDCNT - Z.of_nat (length nbrs))) order cands al []) as (p & Hp & Hn & E).
      exists p. split; [done|]. split; [lia|]. by rewrite E. }
  destruct Hp as (p & Hsub & Hlen & E). rewrite E. split; [|split; [|split]].
  - intros a Ha. apply list_elem_of_omap in Ha as (k & Hk & Ha). apply (Hc k a); [|done]. by apply (elem_of_submseteq p cands).
  - etransitivity; [|exact Hlen]. apply inj_le. clear. induction p as [|k p IH]; [done|]. rewrite omap_src_cons, length_app.
    cbn [length]. destruct (src al k); cbn; lia.
  - intros Hl. rewrite (proj2 (Z.ltb_lt _ _)) in E by done. by rewrite <- E, try_all_spec.
  - intros Hl Ho. rewrite (proj2 (Z.ltb_ge _ _)) in E by done. by rewrite <- E, try_some_none.
Qed.

(** The list of addresses being connected: adding one keeps it free of
    duplicates and tells whether the address is new; removing one that is in
    the list removes just it; removing one that is not empties the list. *)
Theorem connecting_list (l : list bytes) (addr : bytes) :
  NoDup l ->
  (let '(l', added) := SetAddrInConnectingList addr l in
   NoDup l' /\ addr ∈ l' /\ (added = true <-> addr ∉ l) /\ forall a, a ∈ l -> a ∈ l') /\
  (forall a b, l = a ++ addr :: b -> RemoveAddrInConnectingList addr l = a ++ b) /\
  (addr ∉ l -> RemoveAddrInConnectingList addr l = []).
Proof.
  intros Hn. split; [|split].
  - unfold SetAddrInConnectingList. case_bool_decide as Hin; [by split; [|split; [|split]]|].
    rewrite !elem_of_app, list_elem_of_singleton. split.
    + apply list.NoDup_app. split; [done|]. split; [|apply list.NoDup_singleton]. by intros x Hx ->%list_elem_of_singleton.
    + split; [by right|]. split; [done|]. intros a Ha. apply elem_of_app. by left.
  - intros a b ->. by apply RemoveAddr_present.
  - intros Hin. unfold RemoveAddrInConnectingList. by rewrite remove_loop_absent.
Qed.

Lemma connecting_list_witness :
  NoDup [[1]; [2]] /\ RemoveAddrInConnectingList [1] [[1]; [2]] = [[2]] /\ RemoveAddrInConnectingList [3] [[1]; [2]] = [].
Proof.
  assert (Hn : NoDup [[1]; [2]]) by by_decision. split; [exact Hn|]. split.
  - exact (proj1 (proj2 (connecting_list [[1]; [2]] [1] Hn)) [] [[2]] eq_refl).
  - apply (connecting_list [[1]; [2]] [3] Hn). by_decision.
Defined.

(** For checkpoints in ascending order, the next checkpoint of a height is the
    lowest one above it, and there is none exactly when the height has reached
    the last one. *)
Theorem next_checkpoint (height : Z) (cps : list Checkpoint) :
  StronglySorted (fun a b => ck_Height a <= ck_Height b) cps ->
  match find_checkpoint height cps with
  | Some c => c ∈ cps /\ height < ck_Height c /\ forall c', c' ∈ cps -> height < ck_Height c' -> ck_Height c <= ck_Height c'
  | None => forall c, c ∈ cps -> ck_Height c <= height
  end.
Proof.
  intros Hs. rewrite find_checkpoint_find by done. destruct (List.find _ cps) as [c|] eqn:E; [by apply find_first|].
  intros c Hc. apply list_elem_of_In in Hc. pose proof (find_none _ _ E c Hc) as Hn. cbn in Hn. by apply Z.ltb_ge in Hn.
Qed.

Definition sample_checkpoints : list Checkpoint := (parseCheckpoints [str "100:00ff"; str "200:01"]).1.
Lemma next_checkpoint_witness :
  match find_checkpoint 150 sample_checkpoints with
  | Some c => c ∈ sample_checkpoints /\ 150 < ck_Height c /\ forall c', c' ∈ sample_checkpoints -> 150 < ck_Height c' -> ck_Height c <= ck_Height c'
  | None => False
  end.
Proof. apply (next_checkpoint 150 sample_checkpoints). repeat constructor; vm_compute; discriminate. Defined.
