(* ===== verification/Validator.v ===== *)
(** [core/ledger/txValidator.go] and [core/ledger/blockValidator.go]: the checks
    a transaction and a block must pass.

    The validators see the chain store through the interface [Ledger] below; the
    configuration file, the foundation's address (a Base58 text) and RIPEMD-160
    are parameters.  Log lines are left out. *)

From S2P Require Import Prelude Sha256 Serialization Common Fixed64 Transaction Merkle AuxPow Block.
From S2P Require Import Store Utxo Difficulty MedianTime Vm Contract.

#[export] Instance outcome_ret : MRet outcome := fun A a => Ok a.
#[export] Instance outcome_bind : MBind outcome := fun A B f m =>
  match m with Ok a => f a | Panic => Panic | Unmodelled => Unmodelled end.
(** A panic of the option-valued definitions. *)
Definition no_panic {A} (o : option A) : outcome A := match o with Some a => Ok a | None => Panic end.

(** * errors/errcode.go *)

Inductive ErrCode :=
  | ErrNoCode | ErrNoError | ErrUnknown | ErrDuplicatedTx | ErrInvalidInput | ErrInvalidOutput
  | ErrAssetPrecision | ErrTransactionBalance | ErrAttributeProgram | ErrTransactionContracts
  | ErrTransactionPayload | ErrDoubleSpend | ErrTxHashDuplicate | ErrStateUpdaterVaild | ErrSummaryAsset
  | ErrXmitFail | ErrTransactionSize | ErrUnknownReferedTxn | ErrInvalidReferedTxn | ErrIneffectiveCoinbase.
#[export] Instance ErrCode_eq_dec : EqDecision ErrCode.
Proof. solve_decision. Defined.

(** * What the validators ask of the ledger and of the configuration *)

(** The part of [ILedgerStore] used here; [TxStore] is its [GetTransaction]. *)
Class Ledger := {
  ledger_txs :: TxStore;
  ledger_GetAsset : Uint256 -> Asset + error;
  ledger_IsTxHashDuplicate : Uint256 -> bool;
  ledger_IsDoubleSpend : Transaction -> bool;
  ledger_GetHeight : Z }.

Record Config := mkConfig {
  cfg_MaxBlockSize : Z; cfg_MaxTxInBlock : Z; cfg_MinTxFee : Z; cfg_CoMining : bool;
  (** [DefaultLedger.Blockchain.AssetID]. *)
  cfg_AssetID : Uint256;
  (** [output.ProgramHash.ToAddress() == FoundationAddress]. *)
  cfg_is_foundation : Uint160 -> bool;
  cfg_ChainParam : ChainParams }.

Definition MaxUint16 : Z := 65535.

(** * txValidator.go *)

(** [amount % int64(math.Pow(10, 8-precision)) != 0]; the divisor is zero for a
    precision above eight. *)
Definition checkAmountPrecise (amount : Fixed64) (precision : Z) : outcome bool :=
  if 8 <? precision then Panic else Ok (negb (Z.rem amount (10 ^ (8 - precision)) =? 0)).

Definition null_input (j : UTXOTxInput) : bool :=
  (CompareTo (ReferTxID j) zero256 =? 0) && (ReferTxOutputIndex j =? MaxUint16).

(** [seen] holds the inputs before the current one. *)
Fixpoint check_inputs (seen ins : list UTXOTxInput) : err :=
  match ins with
  | [] => None
  | j :: ins =>
      if null_input j then Some (NewError "invalid transaction input")
      else if existsb (fun i => bool_decide (ReferTxID j = ReferTxID i) && (ReferTxOutputIndex j =? ReferTxOutputIndex i)) seen
      then Some (NewError "duplicated transaction inputs")
      else check_inputs (seen ++ [j]) ins
  end.

Definition CheckTransactionInput (txn : Transaction) : err :=
  if IsCoinBaseTx txn then
    match UTXOInputs txn with
    | [j] => if null_input j then None else Some (NewError "invalid coinbase input")
    | _ => Some (NewError "coinbase must has only one input")
    end
  else
    match UTXOInputs txn with
    | [] => Some (NewError "transaction has no inputs")
    | ins => check_inputs [] ins
    end.

Section Checks.
Context (cfg : Config).

Fixpoint check_coinbase_outputs (found : bool) (outs : list TxOutput) : err :=
  match outs with
  | [] => if found then None else Some (NewError "no foundation address in coinbase output")
  | o :: outs =>
      if negb (bool_decide (o_AssetID o = cfg_AssetID cfg)) then Some (NewError "asset ID in coinbase is invalid")
      else check_coinbase_outputs (found || cfg_is_foundation cfg (o_ProgramHash o)) outs
  end.

Definition CheckTransactionOutput (txn : Transaction) : err :=
  if IsCoinBaseTx txn then
    if (length (Outputs txn) <? 2)%nat then Some (NewError "coinbase output is not enough, at least 2")
    else check_coinbase_outputs false (Outputs txn)
  else
    match Outputs txn with
    | [] => Some (NewError "transaction has no outputs")
    | _ => None
    end.

Definition CheckTransactionSize (txn : Transaction) : outcome err :=
  size ← no_panic (Tx_GetSize txn);
  mret (if (size <=? 0) || (cfg_MaxBlockSize cfg <? size) then Some (NewError "Invalid transaction size") else None).

(** The outputs are grouped by asset in a Go map; the first error found ends
    the check, and any output can cause one.  Here in output order. *)
Fixpoint check_precisions `{Ledger} (outs : list TxOutput) : outcome err :=
  match outs with
  | [] => mret None
  | o :: outs =>
      match ledger_GetAsset (o_AssetID o) with
      | inr _ => mret (Some (NewError "The asset not exist in local blockchain."))
      | inl asset =>
          bad ← checkAmountPrecise (o_Value o) (a_Precision asset);
          if bad : bool then mret (Some (NewError "The precision of asset is incorrect.")) else check_precisions outs
      end
  end.
Definition CheckAssetPrecision `{Ledger} (txn : Transaction) : outcome err := check_precisions (Outputs txn).

Definition CheckTransactionBalance `{Ledger} (txn : Transaction) : err :=
  if existsb (fun o => o_Value o <=? 0) (Outputs txn) then Some (NewError "Invalide transaction UTXO output.")
  else
    let '(results, e) := GetTransactionResults txn in
    if is_err e then e
    else if existsb (fun '(_, v) => v <? cfg_MinTxFee cfg) (map_to_list results)
    then Some (NewError "in Transfer transactions, input <= output .")
    else None.

Definition CheckAttributeProgram (txn : Transaction) : err := None.

(** A verification that fails without an error would pass. *)
Definition CheckTransactionContracts `{Ledger} `{ICrypto} (ripemd160 : bytes -> bytes) (txn : Transaction) : outcome err :=
  '(flag, e) ← VerifySignableData ripemd160 txn;
  mret (match flag : bool, e with true, None => None | _, _ => e end).

Definition CheckTransactionPayload (txn : Transaction) : outcome err :=
  match payload txn with
  | Some (PRegisterAsset a amount _) =>
      if (a_Precision a <? MinPrecision) || (MaxPrecision <? a_Precision a)
      then mret (Some (NewError "Invalide asset Precision."))
      else
        bad ← checkAmountPrecise amount (a_Precision a);
        mret (if bad : bool then Some (NewError "Invalide asset value,out of precise.") else None)
  | Some _ => mret None
  | None => mret (Some (NewError "[txValidator],invalidate transaction payload type."))
  end.

Definition CheckTransactionSanity `{Ledger} `{ICrypto} (ripemd160 : bytes -> bytes) (txn : Transaction) : outcome ErrCode :=
  e ← CheckTransactionSize txn;
  if is_err e then mret ErrTransactionSize else
  if is_err (CheckTransactionInput txn) then mret ErrInvalidInput else
  if is_err (CheckTransactionOutput txn) then mret ErrInvalidOutput else
  e ← CheckAssetPrecision txn;
  if is_err e then mret ErrAssetPrecision else
  if is_err (CheckAttributeProgram txn) then mret ErrAttributeProgram else
  e ← CheckTransactionPayload txn;
  if is_err e then mret ErrTransactionPayload else
  if IsCoinBaseTx txn then mret ErrNoError else
  if is_err (CheckTransactionBalance txn) then mret ErrTransactionBalance else
  e ← CheckTransactionContracts ripemd160 txn;
  if is_err e then mret ErrTransactionContracts else
  mret ErrNoError.

(** The difference of the 32-bit heights wraps. *)
Fixpoint check_references `{Ledger} (ins : list UTXOTxInput) : outcome ErrCode :=
  match ins with
  | [] => mret ErrNoError
  | j :: ins =>
      match GetTransaction (ReferTxID j) with
      | inr _ => mret ErrUnknownReferedTxn
      | inl (referTxn, _) =>
          o ← no_panic (Outputs referTxn !! Z.to_nat (ReferTxOutputIndex j));
          if o_Value o <=? 0 then mret ErrInvalidReferedTxn
          else if IsCoinBaseTx referTxn &&
                  (uint32 (ledger_GetHeight - LockTime referTxn) <? SpendCoinbaseSpan (cfg_ChainParam cfg))
          then mret ErrIneffectiveCoinbase
          else check_references ins
      end
  end.

Definition CheckTransactionContext `{Ledger} (txn : Transaction) : outcome ErrCode :=
  h ← no_panic (Tx_Hash txn);
  if ledger_IsTxHashDuplicate h then mret ErrTxHashDuplicate else
  if IsCoinBaseTx txn then mret ErrNoError else
  if ledger_IsDoubleSpend txn then mret ErrDoubleSpend else
  check_references (UTXOInputs txn).

(** * blockValidator.go *)

Definition MaxTimeOffsetSeconds : Z := 2 * 60 * 60.

(** The hashes are added to a set one by one. *)
Fixpoint has_duplicate (existing : gset Uint256) (hs : list Uint256) : bool :=
  match hs with
  | [] => false
  | h :: hs => bool_decide (h ∈ existing) || has_duplicate ({[h]} ∪ existing) hs
  end.

Fixpoint all_sane `{Ledger} `{ICrypto} (ripemd160 : bytes -> bytes) (txs : list Transaction) : outcome bool :=
  match txs with
  | [] => mret true
  | t :: txs =>
      c ← CheckTransactionSanity ripemd160 t;
      if bool_decide (c = ErrNoError) then all_sane ripemd160 txs else mret false
  end.

Definition sanity_error (msg : string) : outcome err := mret (Some (NewError msg)).

Definition PowCheckBlockSanity `{Ledger} `{ICrypto} (ripemd160 : bytes -> bytes) (block : Block) (powLimit : Z)
    (timeSource : medianTime) (now : Z) : outcome err :=
  let header := blk_data block in
  let isAuxPow := cfg_CoMining cfg in
  proof ← (if isAuxPow then no_panic (AuxPow_Check (bd_AuxPow header) (Blockdata_Hash header) AuxPowChainID) else mret true);
  if negb proof then sanity_error "[PowCheckBlockSanity] block check proof is failed" else
  if is_err (CheckProofOfWork header powLimit isAuxPow)
  then sanity_error "[PowCheckBlockSanity] block check proof is failed." else
  if AdjustedTime timeSource now + MaxTimeOffsetSeconds <? bd_Timestamp header
  then sanity_error "[PowCheckBlockSanity] block timestamp of is too far in the future" else
  let numTx := Z.of_nat (length (Transactions block)) in
  if numTx =? 0 then sanity_error "[PowCheckBlockSanity]  block does not contain any transactions" else
  if cfg_MaxTxInBlock cfg <? numTx then sanity_error "[PowCheckBlockSanity]  block contains too many transactions" else
  blockSize ← no_panic (Block_GetSize block);
  if cfg_MaxBlockSize cfg <? blockSize then sanity_error "[PowCheckBlockSanity] serialized block is too big" else
  if negb (match Transactions block with t :: _ => IsCoinBaseTx t | [] => false end)
  then sanity_error "[PowCheckBlockSanity] first transaction in block is not a coinbase" else
  if existsb IsCoinBaseTx (tail (Transactions block))
  then sanity_error "[PowCheckBlockSanity] block contains second coinbase" else
  tharray ← no_panic (mapM Tx_Hash (Transactions block));
  '(calcTransactionsRoot, e) ← no_panic (ComputeRoot tharray);
  if is_err e then sanity_error "[PowCheckBlockSanity] merkleTree compute failed" else
  if negb (CompareTo (TransactionsRoot header) calcTransactionsRoot =? 0)
  then sanity_error "[PowCheckBlockSanity] block merkle root is invalid" else
  if has_duplicate ∅ tharray then sanity_error "[PowCheckBlockSanity] block contains duplicate transaction" else
  sane ← all_sane ripemd160 (Transactions block);
  if negb sane then sanity_error "CheckTransactionSanity failed when verifiy block" else mret None.

(** The sequence number is compared with the largest 16-bit number. *)
Definition IsFinalizedTransaction (msgTx : Transaction) (blockHeight : Z) : bool :=
  (LockTime msgTx =? 0) || (LockTime msgTx <? blockHeight) ||
  forallb (fun j => Sequence j =? MaxUint16) (UTXOInputs msgTx).

(** [prevNode] with its ancestors, nearest first; [[]] is a nil node. *)
Definition PowCheckBlockContext (block : Block) (prev : list BlockNode) : outcome err :=
  match prev with
  | [] => mret None
  | prevNode :: ancestors =>
      let header := blk_data block in
      '(expectedDifficulty, e) ← no_panic (CalcNextRequiredDifficulty (cfg_ChainParam cfg) prevNode ancestors);
      if is_err e then mret e else
      if negb (bd_Bits header =? expectedDifficulty) then sanity_error "block difficulty is not the expected" else
      medianTime ← no_panic (CalcPastMedianTime prev);
      if negb (medianTime <? bd_Timestamp header) then sanity_error "block timestamp is not after expected" else
      let blockHeight := uint32 (n_Height prevNode + 1) in
      match Transactions block with
      | [] => Panic
      | _ :: txs =>
          if forallb (fun t => IsFinalizedTransaction t blockHeight) txs then mret None
          else sanity_error "block contains unfinalized transaction"
      end
  end.
End Checks.

(** ** The chain store behind the interface

    The interface has no room for a panic of the store's readers, which would
    end the process; it is shown as a missing entry. *)
Definition store_ledger {DB} `{IStore DB} (cs : ChainStore DB) : Ledger := {|
  ledger_txs := fun h =>
    match store_GetTransaction (cs_db cs) h with
    | Some (Some t, height, None) => inl (t, height)
    | Some (_, _, Some e) => inr e
    | _ => inr ErrDBNotFound
    end;
  ledger_GetAsset := fun h =>
    match GetAsset (cs_db cs) h with
    | Some (Some a, None) => inl a
    | Some (_, Some e) => inr e
    | _ => inr ErrDBNotFound
    end;
  ledger_IsTxHashDuplicate := IsTxHashDuplicate (cs_db cs);
  ledger_IsDoubleSpend := IsDoubleSpend (cs_db cs);
  ledger_GetHeight := GetHeight cs |}.

(** * Lemmas *)

Lemma outcome_bind_Ok {A B} (m : outcome A) (f : A -> outcome B) b :
  m ≫= f = Ok b -> exists a, m = Ok a /\ f a = Ok b.
Proof. destruct m; cbn; eauto; discriminate. Qed.
Lemma no_panic_Ok {A} (o : option A) a : no_panic o = Ok a -> o = Some a.
Proof. destruct o; cbn; congruence. Qed.

(** Follows a validator through a check that passed: the next step is a call
    that returned, or a test whose failing branch is an error. *)
Ltac passed H E :=
  lazymatch type of H with
  | (_ ≫= _) = Ok _ => let a := fresh "a" in apply outcome_bind_Ok in H as (a & E & H); try apply no_panic_Ok in E
  | (if is_err ?e then _ else _) = Ok _ => destruct e eqn:E; cbn [is_err] in H; [discriminate H|]
  | (if ?c then _ else _) = Ok _ => destruct c eqn:E; [discriminate H|]
  end.

Lemma check_inputs_ok seen ins :
  check_inputs seen ins = None ->
  Forall (fun j => null_input j = false) ins /\
  (NoDup (map outpoint seen) -> NoDup (map outpoint (seen ++ ins))).
Proof.
  revert seen. induction ins as [|j ins IH]; intros seen E; [split; [constructor|by rewrite app_nil_r]|].
  cbn [check_inputs] in E. destruct (null_input j) eqn:En; [done|].
  destruct (existsb _ seen) eqn:Ee; [done|]. destruct (IH _ E) as [Hf Hn].
  split; [by constructor|]. intros Hs. rewrite <- app_assoc in Hn. cbn [app] in Hn. apply Hn.
  rewrite map_app. apply list.NoDup_app. split_and!; [done| |apply NoDup_singleton].
  intros x (i & -> & Hi)%list_elem_of_fmap Hx. cbn in Hx. apply list_elem_of_singleton in Hx.
  apply not_true_iff_false in Ee. apply Ee, existsb_exists. exists i. split; [by apply list_elem_of_In|].
  unfold outpoint in Hx. injection Hx as E1 E2. by rewrite bool_decide_true, E2, Z.eqb_refl.
Qed.

Lemma CheckTransactionInput_ok t : CheckTransactionInput t = None -> IsCoinBaseTx t = false ->
  UTXOInputs t <> [] /\ NoDup (map outpoint (UTXOInputs t)) /\ Forall (fun j => null_input j = false) (UTXOInputs t).
Proof.
  unfold CheckTransactionInput. intros E Ec. rewrite Ec in E. destruct (UTXOInputs t) as [|j ins]; [done|].
  apply check_inputs_ok in E as [Hf Hn]. split_and!; [done| |done]. apply Hn. constructor.
Qed.

Lemma check_precisions_ok `{Ledger} outs :
  check_precisions outs = Ok None ->
  Forall (fun o => exists a, ledger_GetAsset (o_AssetID o) = inl a /\ a_Precision a <= 8 /\
                     Z.rem (o_Value o) (10 ^ (8 - a_Precision a)) = 0) outs.
Proof.
  induction outs as [|o outs IH]; intros E; [constructor|]. cbn [check_precisions] in E.
  destruct (ledger_GetAsset (o_AssetID o)) as [a|e] eqn:Ea; [|done]. unfold checkAmountPrecise in E.
  destruct (Z.ltb_spec 8 (a_Precision a)); [done|]. cbn [mbind outcome_bind] in E.
  destruct (Z.eqb_spec (Z.rem (o_Value o) (10 ^ (8 - a_Precision a))) 0); [|done].
  constructor; [eauto|]. by apply IH.
Qed.

Lemma CheckTransactionBalance_ok `{Ledger} cfg t refs :
  GetReference t = (refs, None) ->
  Forall (fun o => inS 64 (o_Value o)) (map snd refs) -> Forall (fun o => inS 64 (o_Value o)) (Outputs t) ->
  CheckTransactionBalance cfg t = None <->
    Forall (fun o => 0 < o_Value o) (Outputs t) /\
    forall a, a ∈ map o_AssetID (map snd refs) \/ a ∈ map o_AssetID (Outputs t) ->
      cfg_MinTxFee cfg <= int64 (asset_sum a (map snd refs) - asset_sum a (Outputs t)).
Proof.
  intros Hr Hi Ho. unfold CheckTransactionBalance.
  destruct (existsb (fun o => o_Value o <=? 0) (Outputs t)) eqn:Ev.
  { split; [done|]. intros [Hp _]. apply existsb_exists in Ev as (o & Hin & Hv%Z.leb_le).
    rewrite list.Forall_forall in Hp. apply list_elem_of_In in Hin. specialize (Hp o Hin). lia. }
  assert (Hp : Forall (fun o => 0 < o_Value o) (Outputs t)).
  { apply list.Forall_forall. intros o Hin. apply not_true_iff_false in Ev. apply Z.nle_gt. intros Hle. apply Ev.
    apply existsb_exists. exists o. split; [by apply list_elem_of_In|by apply Z.leb_le]. }
  destruct (results_lookup t refs [] Hr Hi Ho) as (res & E & _). rewrite E. cbn [is_err].
  assert (L : forall a, res !! a = if decide (a ∈ map o_AssetID (map snd refs) \/ a ∈ map o_AssetID (Outputs t))
               then Some (int64 (asset_sum a (map snd refs) - asset_sum a (Outputs t))) else None).
  { intros a. destruct (results_lookup t refs a Hr Hi Ho) as (res' & E' & L). congruence. }
  destruct (existsb _ (map_to_list res)) eqn:Ex.
  - split; [done|]. intros [_ Ha]. apply existsb_exists in Ex as ([a v] & Hin & Hv%Z.ltb_lt).
    apply list_elem_of_In, elem_of_map_to_list in Hin. rewrite L in Hin. case_decide as D; [|done].
    injection Hin as <-. specialize (Ha a D). lia.
  - split; [|done]. intros _. split; [done|]. intros a Ha. apply Z.nlt_ge. intros Hlt.
    apply not_true_iff_false in Ex. apply Ex, existsb_exists. eexists (a, _). split; [|by apply Z.ltb_lt].
    apply list_elem_of_In, elem_of_map_to_list. by rewrite L, decide_True.
Qed.

(** A balance that passes has resolved its references. *)
Lemma CheckTransactionBalance_resolved `{Ledger} cfg t :
  CheckTransactionBalance cfg t = None -> exists refs, GetReference t = (refs, None).
Proof.
  unfold CheckTransactionBalance, GetTransactionResults, GetMergedAssetIDValueFromReference.
  destruct (existsb _ (Outputs t)); [done|]. destruct (GetReference t) as [refs [e|]]; [done|eauto].
Qed.

(** The output an input names, in a transaction of the ledger. *)
Definition resolves `{Ledger} (j : UTXOTxInput) (r : UTXOTxInput * TxOutput) : Prop :=
  r.1 = j /\ exists rt h, ledger_txs (ReferTxID j) = inl (rt, h) /\
    Outputs rt !! Z.to_nat (ReferTxOutputIndex j) = Some r.2.

Lemma GetReference_resolves `{Ledger} ins refs : GetReference_loop ins = (refs, None) -> Forall2 resolves ins refs.
Proof.
  revert refs. induction ins as [|j ins IH]; intros refs E; cbn in E; [injection E as <-; constructor|].
  destruct (GetTransaction (ReferTxID j)) as [[rt h]|] eqn:Eg; [|done].
  destruct (Outputs rt !! _) as [o|] eqn:Eo; [|done].
  destruct (GetReference_loop ins) as [refs' [e|]]; [done|]. injection E as <-.
  constructor; [|by apply IH]. split; [done|]. exists rt, h. done.
Qed.

(** What the references of a transaction are, and that their amounts are
    those of the ledger. *)
Lemma GetReference_ok `{Ledger} t refs : GetReference t = (refs, None) ->
  if TxType t =? RegisterAsset then refs = [] else Forall2 resolves (UTXOInputs t) refs.
Proof. unfold GetReference. destruct (TxType t =? RegisterAsset); [by intros [= <-]|apply GetReference_resolves]. Qed.

Definition amounts_fit `{Ledger} : Prop :=
  forall h rt k, ledger_txs h = inl (rt, k) -> Forall (fun o => inS 64 (o_Value o)) (Outputs rt).

Lemma GetReference_amounts `{Ledger} t refs : amounts_fit -> GetReference t = (refs, None) ->
  Forall (fun o => inS 64 (o_Value o)) (map snd refs).
Proof.
  intros A R%GetReference_ok. destruct (TxType t =? RegisterAsset); [by subst|].
  induction R as [|j r ins refs (_ & rt & h & Eg & Eo) _ IH]; [constructor|]. cbn [map]. constructor; [|done].
  specialize (A _ _ _ Eg). rewrite list.Forall_forall in A. apply A. by eapply list_elem_of_lookup_2.
Qed.

(** * Properties *)

(** C8: What an accepted transaction guarantees.  Let [CheckTransactionSanity]
    accept a transaction that is not a coinbase, where amounts are 64-bit
    integers, in it and in the ledger.  Its size is within the block limit; it has
    inputs, all different and none the null reference; it has outputs, all
    positive and within the precision of a registered asset; every input of it
    names an output of a transaction of the ledger (a registration of an asset
    is not asked for that: its inputs are not looked up); for every asset involved the
    64-bit difference of those outputs and its own is at least the minimum fee;
    and its programs verify. *)
Theorem accepted_transaction (L : Ledger) (crypto : ICrypto) (cfg : Config) (ripemd160 : bytes -> bytes)
    (t : Transaction) :
  CheckTransactionSanity cfg ripemd160 t = Ok ErrNoError -> IsCoinBaseTx t = false ->
  amounts_fit -> Forall (fun o => inS 64 (o_Value o)) (Outputs t) ->
  (exists size, Tx_GetSize t = Some size /\ 0 < size <= cfg_MaxBlockSize cfg) /\
  (UTXOInputs t <> [] /\ NoDup (map outpoint (UTXOInputs t)) /\ Forall (fun j => null_input j = false) (UTXOInputs t)) /\
  (Outputs t <> [] /\
   Forall (fun o => 0 < o_Value o /\ exists a, ledger_GetAsset (o_AssetID o) = inl a /\ a_Precision a <= 8 /\
             Z.rem (o_Value o) (10 ^ (8 - a_Precision a)) = 0) (Outputs t)) /\
  (exists refs, GetReference t = (refs, None) /\
     (if TxType t =? RegisterAsset then refs = [] else Forall2 resolves (UTXOInputs t) refs) /\
     (forall a, a ∈ map o_AssetID (map snd refs) \/ a ∈ map o_AssetID (Outputs t) ->
        cfg_MinTxFee cfg <= int64 (asset_sum a (map snd refs) - asset_sum a (Outputs t)))) /\
  VerifySignableData ripemd160 t = Ok (true, None).
Proof.
  intros E Ec Ha Ho. unfold CheckTransactionSanity in E.
  passed E Es. passed E e1. subst. passed E Ein. passed E Eout. passed E Ep. passed E e2. subst.
  passed E Ea. passed E Epl. passed E e3. subst. rewrite Ec in E. passed E Eb. passed E Ect. passed E e4. subst.
  unfold CheckTransactionSize in Es. passed Es Esz. injection Es as Es.
  destruct (CheckTransactionBalance_resolved cfg t Eb) as [refs Hr].
  apply check_precisions_ok in Ep.
  apply (CheckTransactionBalance_ok cfg t refs) in Eb as [Hpos Hbal]; [|done|by eapply GetReference_amounts|done].
  unfold CheckTransactionContracts in Ect. passed Ect Ev. destruct a0 as [flag e]. injection Ect as Ect.
  split_and!; try (by apply CheckTransactionInput_ok).
  - exists a. split; [done|]. destruct (Z.leb_spec a 0); [done|]. destruct (Z.ltb_spec (cfg_MaxBlockSize cfg) a); [done|]. lia.
  - unfold CheckTransactionOutput in Eout. rewrite Ec in Eout. by destruct (Outputs t).
  - apply list.Forall_and. by split.
  - exists refs. split; [done|]. split; [by apply GetReference_ok|done].
  - destruct e as [e|]; [by destruct flag|]. by rewrite Ev, (VerifySignableData_true _ _ _ Ev).
Qed.

(** A ledger with one asset of precision 8 and one transaction of two outputs
    owned by a signature contract. *)
Definition owner_code : bytes := CreateSignatureRedeemScript (repeat 2 33).
Definition owner_hash : Uint160 := fst (ToCodeHash sample_ripemd owner_code).
Definition sample_ledger : Ledger := {|
  ledger_txs := fun h =>
    if decide (h = repeat 9 32) then
      inl (NewTransferAssetTransaction [] [mkOutput (repeat 1 32) 1000 owner_hash; mkOutput (repeat 1 32) 500 owner_hash], 3)
    else inr ErrDBNotFound;
  ledger_GetAsset := fun h => if decide (h = repeat 1 32) then inl (mkAsset [69; 76; 65] [] 8 0 0) else inr ErrDBNotFound;
  ledger_IsTxHashDuplicate := fun _ => false;
  ledger_IsDoubleSpend := fun _ => false;
  ledger_GetHeight := 10 |}.
Definition sample_cfg : Config := mkConfig 1000000 100 100 false (repeat 1 32) (fun h => bool_decide (h = zero160)) testNet.
Definition signed_spend (outs : list TxOutput) : Transaction :=
  SetPrograms (NewTransferAssetTransaction [mkInput (repeat 9 32) 0 0] outs)
    [mkProgram owner_code (PushData (repeat 2 64))].

Lemma sample_amounts_fit : amounts_fit (H := sample_ledger).
Proof.
  intros h rt k E. cbn in E. case_decide; [|done]. injection E as <- <-. repeat constructor; cbn; lia.
Qed.

Lemma accepted_transaction_witness :
  CheckTransactionSanity (H := sample_ledger) (H0 := prefix_crypto) sample_cfg sample_ripemd
    (signed_spend [mkOutput (repeat 1 32) 900 zero160]) = Ok ErrNoError /\
  NoDup (map outpoint (UTXOInputs (signed_spend [mkOutput (repeat 1 32) 900 zero160]))) /\
  exists refs, Forall2 (resolves (H := sample_ledger)) [mkInput (repeat 9 32) 0 0] refs.
Proof.
  assert (E : CheckTransactionSanity (H := sample_ledger) (H0 := prefix_crypto) sample_cfg sample_ripemd
    (signed_spend [mkOutput (repeat 1 32) 900 zero160]) = Ok ErrNoError) by (vm_compute; reflexivity).
  split; [exact E|].
  destruct (accepted_transaction sample_ledger prefix_crypto sample_cfg sample_ripemd
    (signed_spend [mkOutput (repeat 1 32) 900 zero160]) E)
    as (_ & (_ & D & _) & _ & (refs & _ & R & _) & _).
  - reflexivity.
  - exact sample_amounts_fit.
  - repeat constructor; cbn; lia.
  - split; [exact D|]. exists refs. exact R.
Defined.

(** C10: Conservation, as far as it goes.  When the summed amounts of an asset on
    both sides of an accepted transaction fit 64 bits, its outputs plus the
    minimum fee do not exceed its inputs. *)
Theorem accepted_balance_conserves (L : Ledger) (cfg : Config) (t : Transaction)
    (refs : list (UTXOTxInput * TxOutput)) (a : Uint256) :
  CheckTransactionBalance cfg t = None -> GetReference t = (refs, None) ->
  Forall (fun o => inS 64 (o_Value o)) (map snd refs) -> Forall (fun o => inS 64 (o_Value o)) (Outputs t) ->
  a ∈ map o_AssetID (map snd refs) \/ a ∈ map o_AssetID (Outputs t) ->
  0 <= asset_sum a (map snd refs) < 2 ^ 63 -> asset_sum a (Outputs t) < 2 ^ 63 ->
  Forall (fun o => 0 < o_Value o) (Outputs t) /\ asset_sum a (Outputs t) + cfg_MinTxFee cfg <= asset_sum a (map snd refs).
Proof.
  intros E Hr Hi Ho Ha B1 B2. apply (CheckTransactionBalance_ok cfg t refs) in E as [Hp Hb]; [|done..].
  split; [done|]. specialize (Hb a Ha).
  assert (0 <= asset_sum a (Outputs t)).
  { clear -Hp. induction Hp as [|o outs Ho _ IH]; [done|]. unfold asset_sum in *. cbn [foldr]. case_decide; lia. }
  rewrite wrapS_id in Hb by lia. lia.
Qed.

Lemma accepted_balance_conserves_witness :
  asset_sum (repeat 1 32) [mkOutput (repeat 1 32) 900 zero160] + 100 <= 1000.
Proof.
  destruct (accepted_balance_conserves sample_ledger sample_cfg (signed_spend [mkOutput (repeat 1 32) 900 zero160])
    [(mkInput (repeat 9 32) 0 0, mkOutput (repeat 1 32) 1000 owner_hash)] (repeat 1 32)) as [_ B].
  - vm_compute. reflexivity.
  - vm_compute. reflexivity.
  - repeat constructor; cbn; lia.
  - repeat constructor; cbn; lia.
  - left. by_decision.
  - vm_compute. split; [discriminate|reflexivity].
  - vm_compute. reflexivity.
  - exact B.
Defined.

(** Beyond 64 bits conservation fails.  Four outputs of 2^62 sum to 0 in
    64-bit arithmetic, so a correctly signed transaction that turns an input of
    1000 units into 2^64 units passes every check of [CheckTransactionSanity]. *)
Theorem amount_overflow_accepted :
  let t := signed_spend (repeat (mkOutput (repeat 1 32) (2 ^ 62) zero160) 4) in
  CheckTransactionSanity (H := sample_ledger) (H0 := prefix_crypto) sample_cfg sample_ripemd t = Ok ErrNoError /\
  asset_sum (repeat 1 32) (Outputs t) = 2 ^ 64 /\
  map snd (fst (GetReference (store := ledger_txs (Ledger := sample_ledger)) t)) = [mkOutput (repeat 1 32) 1000 owner_hash].
Proof. vm_compute. split_and!; reflexivity. Qed.

Lemma check_references_ok `{Ledger} cfg ins :
  check_references cfg ins = Ok ErrNoError ->
  Forall (fun j => exists rt height o, GetTransaction (ReferTxID j) = inl (rt, height) /\
            Outputs rt !! Z.to_nat (ReferTxOutputIndex j) = Some o /\ 0 < o_Value o /\
            (IsCoinBaseTx rt = true ->
             SpendCoinbaseSpan (cfg_ChainParam cfg) <= uint32 (ledger_GetHeight - LockTime rt))) ins.
Proof.
  induction ins as [|j ins IH]; intros E; [constructor|]. cbn [check_references] in E.
  destruct (GetTransaction (ReferTxID j)) as [[rt height]|e] eqn:Et; [|discriminate E].
  passed E Eo. destruct (Z.leb_spec (o_Value a) 0); [discriminate E|]. passed E Ec.
  constructor; [|by apply IH]. exists rt, height, a. split_and!; [done|done|done|]. intros Hc.
  rewrite Hc in Ec. cbn [andb] in Ec. apply Z.ltb_ge in Ec. done.
Qed.

(** C11: The context check against the chain store.  If it accepts a transaction
    that is not a coinbase, over a store whose unspent index is well-formed, then
    the transaction is not stored yet, every input is unspent in the index and
    refers to a stored transaction's output of positive value, and an output of a
    coinbase is spent only at the required depth (counted modulo 2^32 from the
    lock time of the coinbase). *)
Theorem context_check_sound (DB : Type) (S : IStore DB) (Laws : IStoreLaws DB) (cs : ChainStore DB)
    (cfg : Config) (t : Transaction) :
  wf_index (cs_db cs) -> IsCoinBaseTx t = false ->
  CheckTransactionContext (H := store_ledger cs) cfg t = Ok ErrNoError ->
  exists h, Tx_Hash t = Some h /\ IsTxHashDuplicate (cs_db cs) h = false /\
  Forall (fun j => unspent (cs_db cs) (ReferTxID j) (ReferTxOutputIndex j) = true /\
    exists rt height o, store_GetTransaction (cs_db cs) (ReferTxID j) = Some (Some rt, height, None) /\
      Outputs rt !! Z.to_nat (ReferTxOutputIndex j) = Some o /\ 0 < o_Value o /\
      (IsCoinBaseTx rt = true ->
       SpendCoinbaseSpan (cfg_ChainParam cfg) <= uint32 (GetHeight cs - LockTime rt))) (UTXOInputs t).
Proof.
  intros Wi Ec E. unfold CheckTransactionContext in E. rewrite Ec in E. passed E Eh. passed E Ed. passed E Es.
  exists a. split_and!; [done|done|]. cbn [ledger_IsDoubleSpend store_ledger] in Es.
  rewrite IsDoubleSpend_spec, negb_false_iff, forallb_forall in Es by done.
  apply check_references_ok in E. rewrite list.Forall_forall in E |- *. intros j Hj.
  split; [by apply Es, list_elem_of_In|]. destruct (E j Hj) as (rt & height & o & Et & Eo & Ev & Em).
  exists rt, height, o. split_and!; [|done|done|done]. unfold GetTransaction in Et. cbn in Et.
  destruct (store_GetTransaction (cs_db cs) (ReferTxID j)) as [[[[rt'|] ht'] [e|]]|]; congruence.
Qed.

Definition context_cs : ChainStore (gmap bytes bytes) :=
  mkChainStore (<[hash_key DATA_Transaction (repeat 9 32) :=
      WriteUint32 3 ++ tx_enc (NewTransferAssetTransaction [] [mkOutput (repeat 1 32) 1000 owner_hash])]> one_entry)
    10 [] ∅ ∅.

Lemma context_check_sound_witness :
  unspent (cs_db context_cs) (repeat 9 32) 0 = true /\
  CheckTransactionContext (H := store_ledger context_cs) sample_cfg (signed_spend []) = Ok ErrNoError.
Proof.
  assert (E : CheckTransactionContext (H := store_ledger context_cs) sample_cfg (signed_spend []) = Ok ErrNoError)
    by (vm_compute; reflexivity).
  split; [|exact E].
  destruct (context_check_sound (gmap bytes bytes) _ _ context_cs sample_cfg (signed_spend [])) as (h & _ & _ & F).
  - intros h v G. apply (wf_one_entry h v). rewrite <- G. symmetry. by apply lookup_insert_ne.
  - reflexivity.
  - exact E.
  - apply list.Forall_cons in F as [[F _] _]. exact F.
Defined.

Lemma has_duplicate_false X hs : has_duplicate X hs = false <-> NoDup hs /\ Forall (fun h => h ∉ X) hs.
Proof.
  revert X. induction hs as [|h hs IH]; intros X; cbn [has_duplicate]; [by split; [split; constructor|]|].
  rewrite orb_false_iff, bool_decide_eq_false, IH, list.NoDup_cons, list.Forall_cons, !list.Forall_forall. split.
  - intros (Hh & Hn & Hf). split_and!; [|done|done|].
    + intros Hi. specialize (Hf h Hi). set_solver.
    + intros x Hx. specialize (Hf x Hx). set_solver.
  - intros ((Hh & Hn) & Hx & Hf). split_and!; [done|done|]. intros x Hi. specialize (Hf x Hi). set_solver.
Qed.

Lemma all_sane_ok `{Ledger} `{ICrypto} cfg ripemd160 txs :
  all_sane cfg ripemd160 txs = Ok true -> Forall (fun t => CheckTransactionSanity cfg ripemd160 t = Ok ErrNoError) txs.
Proof.
  induction txs as [|t txs IH]; intros E; [constructor|]. cbn [all_sane] in E. passed E Et.
  destruct (bool_decide (a = ErrNoError)) eqn:Ea; [|discriminate E]. apply bool_decide_eq_true in Ea as ->.
  constructor; [done|]. by apply IH.
Qed.

(** C9: What a sane block guarantees.  If [PowCheckBlockSanity] reports no
    error, the header carries a valid proof of work (of its own hash, or of a
    parent block that commits to it under merged mining) and a timestamp at most
    two hours ahead of the adjusted clock; the block has between one and the
    configured number of transactions, exactly the first of which is a coinbase;
    the transaction hashes are distinct and their Merkle root is the one in the
    header; and every transaction passes its own checks. *)
Theorem sane_block (L : Ledger) (crypto : ICrypto) (cfg : Config) (ripemd160 : bytes -> bytes) (b : Block)
    (powLimit : Z) (clock : medianTime) (now : Z) :
  PowCheckBlockSanity cfg ripemd160 b powLimit clock now = Ok None ->
  (0 < CompactToBig (bd_Bits (blk_data b)) <= powLimit /\
   le_val (if cfg_CoMining cfg then BtcHeader_Hash (ParBlockHeader (bd_AuxPow (blk_data b))) else Blockdata_Hash (blk_data b))
     <= CompactToBig (bd_Bits (blk_data b)) /\
   (cfg_CoMining cfg = true ->
    AuxPow_Check (bd_AuxPow (blk_data b)) (Blockdata_Hash (blk_data b)) AuxPowChainID = Some true)) /\
  bd_Timestamp (blk_data b) <= AdjustedTime clock now + MaxTimeOffsetSeconds /\
  (exists cb txs, Transactions b = cb :: txs /\ IsCoinBaseTx cb = true /\
     Forall (fun t => IsCoinBaseTx t = false) txs /\ Z.of_nat (length (Transactions b)) <= cfg_MaxTxInBlock cfg) /\
  (exists hs root, mapM Tx_Hash (Transactions b) = Some hs /\ NoDup hs /\
     ComputeRoot hs = Some (root, None) /\ CompareTo (TransactionsRoot (blk_data b)) root = 0) /\
  Forall (fun t => CheckTransactionSanity cfg ripemd160 t = Ok ErrNoError) (Transactions b).
Proof.
  intros E. unfold PowCheckBlockSanity in E. passed E Eaux. passed E E1. passed E Epow. passed E Ets. passed E E0.
  passed E Emax. passed E Esz. passed E E2. passed E Ecb. passed E Ecbs. passed E Ehs. passed E Ert.
  destruct a2 as [root e]. passed E E3. subst. passed E Eroot. passed E Edup. passed E Esane. passed E E4.
  apply negb_false_iff in E1, Ecb, Eroot, E4. subst a a2.
  apply CheckProofOfWork_iff in Epow as [Hp Hh]. apply Z.ltb_ge in Ets, Emax. split_and!; [lia|lia|done| |lia| | |].
  - intros Hc. rewrite Hc in Eaux. by apply no_panic_Ok.
  - destruct (Transactions b) as [|cb txs]; [done|]. exists cb, txs. split_and!; [done|done| |done].
    apply list.Forall_forall. intros t Ht. apply not_true_iff_false. intros Hc.
    apply not_true_iff_false in Ecbs. apply Ecbs, existsb_exists. exists t. split; [by apply list_elem_of_In|done].
  - exists a1, root. apply has_duplicate_false in Edup as [Hn _]. split_and!; [done|done|done|]. by apply Z.eqb_eq.
  - by apply all_sane_ok in Esane.
Qed.

Definition paying_coinbase : Transaction :=
  set_Outputs (set_UTXOInputs sample_Coinbase [mkInput zero256 MaxUint16 0])
    [mkOutput (repeat 1 32) 3 zero160; mkOutput (repeat 1 32) 7 (repeat 2 20)].
Definition mined_block (nonce : Z) : Block :=
  mkBlock (mkBlockdata 0 (repeat 3 32) (tx_hash_of paying_coinbase) 1506816000 0x207fffff 1 nonce new_AuxPow)
    [paying_coinbase] None.

Lemma sane_block_witness :
  PowCheckBlockSanity (H := sample_ledger) (H0 := prefix_crypto) sample_cfg sample_ripemd (mined_block 0)
    (PowLimit regNet) NewMedianTime 1506816000 = Ok None /\
  bd_Timestamp (blk_data (mined_block 0)) <= AdjustedTime NewMedianTime 1506816000 + MaxTimeOffsetSeconds.
Proof.
  assert (E : PowCheckBlockSanity (H := sample_ledger) (H0 := prefix_crypto) sample_cfg sample_ripemd (mined_block 0)
    (PowLimit regNet) NewMedianTime 1506816000 = Ok None) by (vm_compute; reflexivity).
  split; [exact E|].
  destruct (sane_block sample_ledger prefix_crypto sample_cfg sample_ripemd (mined_block 0) (PowLimit regNet)
    NewMedianTime 1506816000 E) as (_ & T & _). exact T.
Defined.

(** What a block needs to extend a node.  [PowCheckBlockContext] accepts
    exactly the blocks with the difficulty the retarget rule prescribes, a
    timestamp after the median of the last eleven blocks, and only final
    transactions behind the coinbase; a transaction whose lock time has not
    passed is final when every sequence number is 65535, so the largest 32-bit
    sequence number does not make it final. *)
Theorem context_accepts (cfg : Config) (b : Block) (prev : BlockNode) (ancestors : list BlockNode)
    (cb : Transaction) (txs : list Transaction) (bits median : Z) :
  Transactions b = cb :: txs ->
  CalcNextRequiredDifficulty (cfg_ChainParam cfg) prev ancestors = Some (bits, None) ->
  CalcPastMedianTime (prev :: ancestors) = Some median ->
  PowCheckBlockContext cfg b (prev :: ancestors) = Ok None <->
    bd_Bits (blk_data b) = bits /\ median < bd_Timestamp (blk_data b) /\
    Forall (fun t => LockTime t = 0 \/ LockTime t < uint32 (n_Height prev + 1) \/
              Forall (fun j => Sequence j = 65535) (UTXOInputs t)) txs.
Proof.
  intros Et Ed Em. unfold PowCheckBlockContext. rewrite Ed, Et. cbn [no_panic mbind outcome_bind is_err].
  rewrite Em. cbn [no_panic mbind outcome_bind].
  destruct (Z.eqb_spec (bd_Bits (blk_data b)) bits); cbn [negb]; [|split; [discriminate|tauto]].
  destruct (Z.ltb_spec median (bd_Timestamp (blk_data b))); cbn [negb]; [|split; [discriminate|lia]].
  assert (Hf : forallb (fun t => IsFinalizedTransaction t (uint32 (n_Height prev + 1))) txs = true <->
    Forall (fun t => LockTime t = 0 \/ LockTime t < uint32 (n_Height prev + 1) \/
              Forall (fun j => Sequence j = 65535) (UTXOInputs t)) txs).
  { rewrite forallb_forall, list.Forall_forall.
    assert (Ht : forall t, IsFinalizedTransaction t (uint32 (n_Height prev + 1)) = true <->
       (LockTime t = 0 \/ LockTime t < uint32 (n_Height prev + 1) \/ Forall (fun j => Sequence j = 65535) (UTXOInputs t))).
    { intros t. unfold IsFinalizedTransaction. rewrite !orb_true_iff, Z.eqb_eq, Z.ltb_lt, forallb_forall, list.Forall_forall.
      setoid_rewrite Z.eqb_eq. setoid_rewrite list_elem_of_In. tauto. }
    split; intros Hx t Hin; apply Ht, Hx, list_elem_of_In, Hin. }
  destruct (forallb _ txs) eqn:E.
  - split; [|done]. intros _. split_and!; [done|done|]. by apply Hf.
  - split; [discriminate|]. intros (_ & _ & F). apply Hf in F. done.
Qed.

Definition sample_node : BlockNode := mkNode (repeat 4 32) zero256 0 0 0x207fffff 1506815000 2 true None [].

Lemma context_accepts_witness :
  PowCheckBlockContext (mkConfig 1000000 100 100 false (repeat 1 32) (fun _ => true) regNet) (mined_block 0) [sample_node] = Ok None.
Proof.
  apply (context_accepts (mkConfig 1000000 100 100 false (repeat 1 32) (fun _ => true) regNet) (mined_block 0) sample_node []
    paying_coinbase [] 0x207fffff 1506815000).
  - reflexivity.
  - vm_compute. reflexivity.
  - vm_compute. reflexivity.
  - split_and!; [reflexivity|vm_compute; reflexivity|constructor].
Defined.
