(* ===== verification/Wallet.v ===== *)
(** [account] and [sdk]: the wallet - its file, keys, contracts and coins - and
    the transactions it makes.

    [ClientImpl] embeds its file store, so one record holds both.  The file is
    kept as the value its JSON text stands for: every field is hexadecimal text,
    an address or a number, which [encoding/json] writes and reads back as they
    are; [None] is a file that cannot be opened.  Writing the file succeeds (the
    code ignores the result).  The map of coins is keyed by pointers, so two
    equal inputs are two entries: it is a list, in the order Go would enumerate
    it.  Keys are generated by an argument, AES is the class [IAes], the product
    of the base point and signing are arguments. *)

From S2P Require Import Prelude Sha256 Serialization Common Fixed64 Transaction Merkle AuxPow Block.
From S2P Require Import Store Vm Address PubKey Contract Message Peers Validator.

(** * crypto/helper.go *)

(** The block cipher: [None] is a key of a length [aes.NewCipher] refuses. *)
Class IAes := { aes_Encrypt : bytes -> bytes -> option bytes; aes_Decrypt : bytes -> bytes -> option bytes }.
Definition aes_key (key : bytes) : bool := (length key =? 16)%nat || (length key =? 24)%nat || (length key =? 32)%nat.
(** A block of sixteen bytes is encrypted to such a block, and decrypted to what
    was encrypted. *)
Class IAesLaws `{IAes} :=
  aes_roundtrip : forall key b, aes_key key = true -> length b = 16%nat -> wf_bytes b ->
    exists c, aes_Encrypt key b = Some c /\ length c = 16%nat /\ wf_bytes c /\ aes_Decrypt key c = Some b.

Definition ToAesKey (pwd : bytes) : bytes := sha256 (sha256 pwd).

Section Aes.
Context `{IAes}.

Definition xor_bytes (a b : bytes) : bytes := zip_with Z.lxor a b.
(** [cipher.NewCBCEncrypter] and its [CryptBlocks], one turn per block. *)
Fixpoint cbc_encrypt (turns : nat) (key iv src : bytes) : option bytes :=
  match turns with
  | O => Some []
  | S turns =>
      c ← aes_Encrypt key (xor_bytes (take 16 src) iv);
      rest ← cbc_encrypt turns key c (drop 16 src);
      Some (c ++ rest)
  end.
Fixpoint cbc_decrypt (turns : nat) (key iv src : bytes) : option bytes :=
  match turns with
  | O => Some []
  | S turns =>
      b ← aes_Decrypt key (take 16 src);
      rest ← cbc_decrypt turns key (take 16 src) (drop 16 src);
      Some (xor_bytes b iv ++ rest)
  end.
(** An initialisation vector or a text of the wrong length panics. *)
Definition AesEncrypt (plaintext key iv : bytes) : option (bytes * err) :=
  if negb (aes_key key) then Some ([], Some (NewError "invalid decrypt key")) else
  if negb (length iv =? 16)%nat || negb (length plaintext mod 16 =? 0)%nat then None else
  c ← cbc_encrypt (length plaintext / 16) key iv plaintext;
  Some (c, None).
Definition AesDecrypt (ciphertext key iv : bytes) : option (bytes * err) :=
  if negb (aes_key key) then Some ([], Some (NewError "invalid decrypt key")) else
  if (length ciphertext <? 16)%nat then Some ([], Some (NewError "ciphertext too short")) else
  if negb (length ciphertext mod 16 =? 0)%nat then Some ([], Some (NewError "ciphertext is not a multiple of the block size")) else
  if negb (length iv =? 16)%nat then None else
  p ← cbc_decrypt (length ciphertext / 16) key iv ciphertext;
  Some (p, None).
End Aes.

(** * Text *)

Definition to_hex_digit (d : Z) : Z := if d <? 10 then 48 + d else 87 + d.
Definition BytesToHexString (data : bytes) : bytes := concat (map (fun b => [to_hex_digit (b / 16); to_hex_digit (b mod 16)]) data).
Definition HexStringToBytes (value : bytes) : bytes * err := hex_DecodeString value.

(** * coin.go *)

Definition SingleSign : Z := 0.
Definition MultiSign : Z := 1.
Record Coin := mkCoin { coin_Output : TxOutput; AddressType : Z; coin_Height : Z }.
Definition new_Coin : Coin := mkCoin new_Output 0 0.

(** The version is not used. *)
Definition Coin_Serialize (c : Coin) : bytes :=
  TxOutput_Serialize (coin_Output c) ++ [AddressType c] ++ WriteUint32 (coin_Height c).
Definition Coin_Deserialize : rd (Coin * err) :=
  '(o, _) ← TxOutput_Deserialize new_Output;
  '(ty, e) ← ReadUint8;
  iferr e return (mkCoin o 0 0) ;;
  '(h, e) ← ReadUint32;
  iferr e return (mkCoin o ty 0) ;;
  mret (mkCoin o ty h, None).

(** * account.go *)

Record Account := mkAccount { PrivateKey : bytes; ac_PublicKey : PubKey; ac_ProgramHash : Uint160 }.

Section Account.
Context (ripemd160 : bytes -> bytes) (ScalarBaseMult : Z -> Z * Z).

(** [crypto.NewPubKey]. *)
Definition NewPubKey (priKey : bytes) : PubKey :=
  let '(x, y) := ScalarBaseMult (be_val priKey) in mkPubKey (Some x) (Some y).
(** [CreateSignatureRedeemScript] of a key, with the encoding of the point. *)
Definition signature_script (pubKey : PubKey) : option (bytes * err) :=
  '(key, e) ← EncodePoint pubKey true;
  Some (if is_err e then ([], e) else (CreateSignatureRedeemScript key, None)).
Definition account_of (priKey : bytes) (pubKey : PubKey) : option (option Account * err) :=
  '(script, e) ← signature_script pubKey;
  if is_err e then Some (None, Some (NewError "CreateSignatureRedeemScript failed")) else
  let '(programHash, e) := ToCodeHash ripemd160 script in
  if is_err e then Some (None, Some (NewError "ToCodeHash failed")) else
  Some (Some (mkAccount priKey pubKey programHash), None).
(** [pair]: what [GenKeyPair] returned; its error is ignored. *)
Definition NewAccount (pair : bytes * PubKey) : option (option Account * err) := account_of pair.1 pair.2.
Definition NewAccountWithPrivatekey (privateKey : bytes) : option (option Account * err) :=
  let n := length privateKey in
  if negb (n =? 32)%nat && negb (n =? 96)%nat && negb (n =? 104)%nat then Some (None, Some (NewError "Invalid private Key."))
  else account_of privateKey (NewPubKey privateKey).
End Account.

(** * fileStore.go *)

Record AccountData := mkAccountData { ad_Address : bytes; ad_ProgramHash : bytes; ad_PrivateKeyEncrypted : bytes; ad_Type : bytes }.
Record ContractData := mkContractData { cd_ProgramHash : bytes; cd_RawData : bytes }.
Record FileData := mkFileData {
  fd_PasswordHash : bytes; fd_IV : bytes; fd_MasterKey : bytes; fd_Height : Z; fd_Version : bytes;
  fd_Account : list AccountData; fd_Contract : list ContractData; fd_Coins : bytes }.
Definition new_FileData : FileData := mkFileData [] [] [] 0 [] [] [] [].
Definition set_fd_PasswordHash (v : bytes) (d : FileData) : FileData :=
  mkFileData v (fd_IV d) (fd_MasterKey d) (fd_Height d) (fd_Version d) (fd_Account d) (fd_Contract d) (fd_Coins d).
Definition set_fd_IV (v : bytes) (d : FileData) : FileData :=
  mkFileData (fd_PasswordHash d) v (fd_MasterKey d) (fd_Height d) (fd_Version d) (fd_Account d) (fd_Contract d) (fd_Coins d).
Definition set_fd_MasterKey (v : bytes) (d : FileData) : FileData :=
  mkFileData (fd_PasswordHash d) (fd_IV d) v (fd_Height d) (fd_Version d) (fd_Account d) (fd_Contract d) (fd_Coins d).
Definition set_fd_Height (v : Z) (d : FileData) : FileData :=
  mkFileData (fd_PasswordHash d) (fd_IV d) (fd_MasterKey d) v (fd_Version d) (fd_Account d) (fd_Contract d) (fd_Coins d).
Definition set_fd_Version (v : bytes) (d : FileData) : FileData :=
  mkFileData (fd_PasswordHash d) (fd_IV d) (fd_MasterKey d) (fd_Height d) v (fd_Account d) (fd_Contract d) (fd_Coins d).
Definition set_fd_Account (v : list AccountData) (d : FileData) : FileData :=
  mkFileData (fd_PasswordHash d) (fd_IV d) (fd_MasterKey d) (fd_Height d) (fd_Version d) v (fd_Contract d) (fd_Coins d).
Definition set_fd_Contract (v : list ContractData) (d : FileData) : FileData :=
  mkFileData (fd_PasswordHash d) (fd_IV d) (fd_MasterKey d) (fd_Height d) (fd_Version d) (fd_Account d) v (fd_Coins d).
Definition set_fd_Coins (v : bytes) (d : FileData) : FileData :=
  mkFileData (fd_PasswordHash d) (fd_IV d) (fd_MasterKey d) (fd_Height d) (fd_Version d) (fd_Account d) (fd_Contract d) v.

Record Client := mkClient {
  cl_iv : bytes; cl_masterKey : bytes; mainAccount : Uint160;
  accounts : gmap Uint160 Account; contracts : gmap Uint160 Contract; coins : list (UTXOTxInput * Coin);
  currentHeight : Z; fs_data : FileData; fs_file : option FileData }.
Definition set_cl_iv (v : bytes) (c : Client) : Client :=
  mkClient v (cl_masterKey c) (mainAccount c) (accounts c) (contracts c) (coins c) (currentHeight c) (fs_data c) (fs_file c).
Definition set_cl_masterKey (v : bytes) (c : Client) : Client :=
  mkClient (cl_iv c) v (mainAccount c) (accounts c) (contracts c) (coins c) (currentHeight c) (fs_data c) (fs_file c).
Definition set_mainAccount (v : Uint160) (c : Client) : Client :=
  mkClient (cl_iv c) (cl_masterKey c) v (accounts c) (contracts c) (coins c) (currentHeight c) (fs_data c) (fs_file c).
Definition set_accounts (v : gmap Uint160 Account) (c : Client) : Client :=
  mkClient (cl_iv c) (cl_masterKey c) (mainAccount c) v (contracts c) (coins c) (currentHeight c) (fs_data c) (fs_file c).
Definition set_contracts (v : gmap Uint160 Contract) (c : Client) : Client :=
  mkClient (cl_iv c) (cl_masterKey c) (mainAccount c) (accounts c) v (coins c) (currentHeight c) (fs_data c) (fs_file c).
Definition set_coins (v : list (UTXOTxInput * Coin)) (c : Client) : Client :=
  mkClient (cl_iv c) (cl_masterKey c) (mainAccount c) (accounts c) (contracts c) v (currentHeight c) (fs_data c) (fs_file c).
Definition set_currentHeight (v : Z) (c : Client) : Client :=
  mkClient (cl_iv c) (cl_masterKey c) (mainAccount c) (accounts c) (contracts c) (coins c) v (fs_data c) (fs_file c).
Definition set_fs_data (v : FileData) (c : Client) : Client :=
  mkClient (cl_iv c) (cl_masterKey c) (mainAccount c) (accounts c) (contracts c) (coins c) (currentHeight c) v (fs_file c).
Definition set_fs_file (v : option FileData) (c : Client) : Client :=
  mkClient (cl_iv c) (cl_masterKey c) (mainAccount c) (accounts c) (contracts c) (coins c) (currentHeight c) (fs_data c) v.

(** An operation of the client: it changes the client and returns a value or an
    error, or panics. *)
Definition wM (A : Type) : Type := Client -> outcome (Client * (A + error)).
#[export] Instance wM_ret : MRet wM := fun A a c => Ok (c, inl a).
#[export] Instance wM_bind : MBind wM := fun A B f m c =>
  match m c with
  | Ok (c, inl a) => f a c
  | Ok (c, inr e) => Ok (c, inr e)
  | Panic => Panic
  | Unmodelled => Unmodelled
  end.
Definition w_fail {A} (e : error) : wM A := fun c => Ok (c, inr e).
Definition w_get {A} (f : Client -> A) : wM A := fun c => Ok (c, inl (f c)).
Definition w_upd (f : Client -> Client) : wM unit := fun c => Ok (f c, inl tt).
Definition w_need {A} (o : option A) : wM A := fun c => match o with Some a => Ok (c, inl a) | None => Panic end.
Definition w_check (e : err) : wM unit := match e with Some e => w_fail e | None => mret tt end.
(** Go on after an error. *)
Definition w_try {A} (m : wM A) : wM (A + error) := fun c =>
  match m c with Ok (c, r) => Ok (c, inl r) | Panic => Panic | Unmodelled => Unmodelled end.
(** Another error in place of the one that occurred. *)
Definition w_error {A} (e : error) (m : wM A) : wM A :=
  r ← w_try m; match r with inl a => mret a | inr _ => w_fail e end.
(** A value with its error: the error ends the operation. *)
Definition w_ok {A} (r : A * err) : wM A := _ ← w_check r.2; mret r.1.

Definition WalletStoreVersion : bytes := str "1.0.0".
Definition MAINACCOUNT : bytes := str "main-account".
Definition SUBACCOUNT : bytes := str "sub-account".

Definition readDB : wM unit :=
  f ← w_get fs_file;
  match f with
  | None => w_fail (NewError "error: reading db")
  | Some d => w_upd (set_fs_data d)
  end.
Definition writeDB : wM unit := w_upd (fun c => set_fs_file (Some (fs_data c)) c).
Definition upd_data (f : FileData -> FileData) : wM unit := w_upd (fun c => set_fs_data (f (fs_data c)) c).
Definition BuildDatabase : wM unit := writeDB.

(** [binary.Read] of an int32. *)
Definition read_int32 (b : bytes) : Z := if (length b <? 4)%nat then 0 else int32 (le_val (take 4 b)).
Definition SaveStoredData (name value : bytes) : wM unit :=
  _ ← readDB;
  _ ← upd_data (fun d =>
    if bool_decide (name = str "Version") then set_fd_Version value d
    else if bool_decide (name = str "IV") then set_fd_IV (BytesToHexString value) d
    else if bool_decide (name = str "MasterKey") then set_fd_MasterKey (BytesToHexString value) d
    else if bool_decide (name = str "PasswordHash") then set_fd_PasswordHash (BytesToHexString value) d
    else if bool_decide (name = str "Height") then set_fd_Height (read_int32 value) d
    else d);
  writeDB.
Definition LoadStoredData (name : bytes) : wM bytes :=
  _ ← readDB;
  d ← w_get fs_data;
  if bool_decide (name = str "Version") then mret (fd_Version d)
  else if bool_decide (name = str "IV") then w_ok (HexStringToBytes (fd_IV d))
  else if bool_decide (name = str "MasterKey") then w_ok (HexStringToBytes (fd_MasterKey d))
  else if bool_decide (name = str "PasswordHash") then w_ok (HexStringToBytes (fd_PasswordHash d))
  else if bool_decide (name = str "Height") then mret (WriteUint32 (uint32 (fd_Height d)))
  else w_fail (NewError "Can't find the key").

(** The loops that delete range over the slice as it was, with its elements
    read from the array the deletions shift: [arr] is the array, [len] the
    length of the shortened slice.  [keep] stops the loop with an error. *)
Fixpoint delete_loop {A} (turns i : nat) (hit keep : A -> bool) (arr : list A) (len : nat) : outcome (list A * nat * bool) :=
  match turns with
  | O => Ok (arr, len, false)
  | S turns =>
      match arr !! i with
      | None => Panic
      | Some v =>
          if hit v then
            if keep v then Ok (arr, len, true)
            else if (len <? S i)%nat then Panic
            else delete_loop turns (S i) hit keep (take i arr ++ take (len - S i) (drop (S i) arr) ++ drop (len - 1) arr) (len - 1)
          else delete_loop turns (S i) hit keep arr len
      end
  end.
Definition delete_all {A} (hit keep : A -> bool) (l : list A) : outcome (list A * bool) :=
  match delete_loop (length l) 0 hit keep l (length l) with
  | Ok (arr, len, kept) => Ok (take len arr, kept)
  | Panic => Panic
  | Unmodelled => Unmodelled
  end.
Definition w_lift {A} (o : outcome A) : wM A := fun c =>
  match o with Ok a => Ok (c, inl a) | Panic => Panic | Unmodelled => Unmodelled end.

Definition LoadAccountData : wM (list AccountData) := _ ← readDB; w_get (fun c => fd_Account (fs_data c)).
Definition DeleteAccountData (programHash : bytes) : wM unit :=
  _ ← readDB;
  d ← w_get fs_data;
  '(l, kept) ← w_lift (delete_all (fun v => bool_decide (programHash = ad_ProgramHash v)) (fun v => bool_decide (ad_Type v = MAINACCOUNT)) (fd_Account d));
  _ ← upd_data (set_fd_Account l);
  if kept : bool then w_fail (NewError "Can't remove main account") else writeDB.

Definition SaveContractData (ct : Contract) : wM unit :=
  _ ← readDB;
  _ ← upd_data (fun d => set_fd_Contract (fd_Contract d ++ [mkContractData (BytesToHexString (c_ProgramHash ct)) (BytesToHexString (Contract_Serialize ct))]) d);
  writeDB.
Definition DeleteContractData (programHash : bytes) : wM unit :=
  _ ← readDB;
  d ← w_get fs_data;
  '(l, _) ← w_lift (delete_all (fun v => bool_decide (programHash = cd_ProgramHash v)) (fun _ => false) (fd_Contract d));
  _ ← upd_data (set_fd_Contract l);
  writeDB.
Definition LoadContractData : wM (list ContractData) := _ ← readDB; w_get (fun c => fd_Contract (fs_data c)).

Definition coins_bytes (cs : list (UTXOTxInput * Coin)) : bytes :=
  WriteUint32 (uint32 (Z.of_nat (length cs))) ++ concat (map (fun kc => UTXOTxInput_Serialize kc.1 ++ Coin_Serialize kc.2) cs).
Definition SaveCoinsData (cs : list (UTXOTxInput * Coin)) : wM unit :=
  _ ← readDB;
  _ ← upd_data (set_fd_Coins (if uint32 (Z.of_nat (length cs)) =? 0 then [] else BytesToHexString (coins_bytes cs)));
  writeDB.
Fixpoint read_coins (n : nat) (acc : list (UTXOTxInput * Coin)) : rd (list (UTXOTxInput * Coin) * err) :=
  match n with
  | O => mret (acc, None)
  | S n =>
      '(i, e) ← UTXOTxInput_Deserialize new_Input;
      iferr e return acc ;;
      '(c, e) ← Coin_Deserialize;
      iferr e return acc ;;
      read_coins n (acc ++ [(i, c)])
  end.
(** The errors of the text and of the count are dropped. *)
Definition coins_of (text : bytes) : option (list (UTXOTxInput * Coin) * err) :=
  let raw := fst (HexStringToBytes text) in
  fst <$> (('(num, _) ← ReadUint32; read_coins (Z.to_nat num) []) (mkReader BytesReader raw)).
Definition LoadCoinsData : wM (list (UTXOTxInput * Coin)) :=
  _ ← readDB;
  d ← w_get fs_data;
  r ← w_need (coins_of (fd_Coins d));
  w_ok r.
Definition DeleteCoinsData (programHash : Uint160) : wM unit :=
  _ ← readDB;
  d ← w_get fs_data;
  if bool_decide (fd_Coins d = []) then mret tt else
  r ← w_need (coins_of (fd_Coins d));
  cs ← w_ok r;
  SaveCoinsData (List.filter (fun kc => negb (bool_decide (o_ProgramHash (coin_Output kc.2) = programHash))) cs).

(** * client.go *)

Section Client.
Context `{IAes} `{IBase58} (ripemd160 : bytes -> bytes) (ScalarBaseMult : Z -> Z * Z).

Definition SaveAccountData (programHash encryptedPrivateKey : bytes) : wM unit :=
  _ ← readDB;
  d ← w_get fs_data;
  let accountType := match fd_Account d with [] => MAINACCOUNT | _ => SUBACCOUNT end in
  let '(pHash, e) := Uint160ParseFromBytes programHash in
  if is_err e then w_fail (NewError "invalid program hash") else
  let '(addr, e) := ToAddress pHash in
  if is_err e then w_fail (NewError "invalid address") else
  _ ← upd_data (set_fd_Account (fd_Account d ++ [mkAccountData addr (BytesToHexString programHash) (BytesToHexString encryptedPrivateKey) accountType]));
  writeDB.

Definition EncryptPrivateKey (prikey : bytes) : wM bytes :=
  c ← w_get id; r ← w_need (AesEncrypt prikey (cl_masterKey c) (cl_iv c)); w_ok r.
Definition DecryptPrivateKey (prikey : bytes) : wM bytes :=
  if negb (length prikey =? 96)%nat then w_fail (NewError "The len of PriKeyEnc is not 96bytes") else
  c ← w_get id; r ← w_need (AesDecrypt prikey (cl_masterKey c) (cl_iv c)); w_ok r.

(** The key pair as it is encrypted: the point and the private key, which is
    written to the end of the 96 bytes; one of more than 96 bytes panics. *)
Definition key_pair (point priKey : bytes) : option bytes :=
  if negb (65 <=? length point)%nat || (96 <? length priKey)%nat then None
  else Some (take (96 - length priKey) (take 64 (drop 1 point) ++ replicate 32 0) ++ priKey).
Definition SaveAccount (ac : Account) : wM unit :=
  _ ← w_upd (fun c => set_accounts (<[ac_ProgramHash ac := ac]> (accounts c)) c);
  r ← w_need (EncodePoint (ac_PublicKey ac) false);
  temp ← w_ok r;
  pair ← w_need (key_pair temp (PrivateKey ac));
  enc ← EncryptPrivateKey pair;
  SaveAccountData (ac_ProgramHash ac) enc.
Definition CreateAccount (pair : bytes * PubKey) : wM Account :=
  '(ac, e) ← w_need (NewAccount ripemd160 pair);
  _ ← w_check e;
  ac ← w_need ac;
  _ ← SaveAccount ac;
  mret ac.
Definition CreateAccountByPrivateKey (privateKey : bytes) : wM Account :=
  '(ac, e) ← w_need (NewAccountWithPrivatekey ripemd160 ScalarBaseMult privateKey);
  _ ← w_check e;
  ac ← w_need ac;
  _ ← SaveAccount ac;
  mret ac.
(** The account leaves the memory before the file refuses to delete it. *)
Definition DeleteAccount (programHash : Uint160) : wM unit :=
  _ ← w_upd (fun c => set_accounts (delete programHash (accounts c)) c);
  DeleteAccountData (BytesToHexString programHash).

(** An entry that cannot be decrypted is skipped; the result of a key pair that
    makes no account is used without a test. *)
Fixpoint load_accounts (l : list AccountData) (acs : gmap Uint160 Account) : wM (gmap Uint160 Account) :=
  match l with
  | [] => mret acs
  | a :: l =>
      _ ← (if bool_decide (ad_Type a = MAINACCOUNT)
           then w_upd (set_mainAccount (fst (Uint160ParseFromBytes (fst (HexStringToBytes (ad_ProgramHash a))))))
           else mret tt);
      r ← w_try (DecryptPrivateKey (fst (HexStringToBytes (ad_PrivateKeyEncrypted a))));
      match r with
      | inr _ => load_accounts l acs
      | inl keyPair =>
          privateKey ← w_need (slice keyPair 64 96);
          '(ac, _) ← w_need (NewAccountWithPrivatekey ripemd160 ScalarBaseMult privateKey);
          ac ← w_need ac;
          load_accounts l (<[ac_ProgramHash ac := ac]> acs)
      end
  end.
Definition LoadAccounts : wM unit :=
  l ← LoadAccountData;
  acs ← load_accounts l ∅;
  w_upd (set_accounts acs).

Definition SaveContract (ct : Contract) : wM unit :=
  _ ← w_upd (fun c => set_contracts (<[c_ProgramHash ct := ct]> (contracts c)) c);
  SaveContractData ct.
Definition CreateContract (account : Account) : wM unit :=
  r ← w_need (EncodePoint (ac_PublicKey account) true);
  key ← w_ok r;
  ct ← w_ok (CreateSignatureContract ripemd160 key);
  SaveContract ct.
(** [keys]: the encoded keys in the order [sort.Sort] leaves them. *)
Definition CreateMultiSignContract (contractOwner : Uint160) (m : Z) (keys : list bytes) : wM unit :=
  ct ← w_ok (CreateMultiSigContract ripemd160 contractOwner m keys);
  SaveContract ct.
Definition DeleteContract (programHash : Uint160) : wM unit :=
  _ ← w_upd (fun c => set_contracts (delete programHash (contracts c)) c);
  DeleteContractData (BytesToHexString programHash).
(** [None] of [Contract_Deserialize] is a panic of the reader. *)
Fixpoint load_contracts (l : list ContractData) (cts : gmap Uint160 Contract) : wM (gmap Uint160 Contract) :=
  match l with
  | [] => mret cts
  | c :: l =>
      '((ct, _), _) ← w_need (Contract_Deserialize (mkContract [] [] zero160 zero160) (mkReader BytesReader (fst (HexStringToBytes (cd_RawData c)))));
      let hash := fst (Uint160ParseFromBytes (fst (HexStringToBytes (cd_ProgramHash c)))) in
      load_contracts l (<[hash := mkContract (c_Code ct) (c_Parameters ct) hash (c_OwnerPubkeyHash ct)]> cts)
  end.
Definition LoadContracts : wM unit :=
  l ← LoadContractData;
  cts ← load_contracts l ∅;
  w_upd (set_contracts cts).

Definition LoadCoins : wM unit := l ← LoadCoinsData; w_upd (fun c => set_coins (coins c ++ l) c).
Definition SaveCoins : wM unit := cs ← w_get coins; SaveCoinsData cs.
(** Every coin leaves the memory; errors of the file are dropped. *)
Fixpoint delete_coins (l : list (UTXOTxInput * Coin)) : wM unit :=
  match l with
  | [] => mret tt
  | (_, c) :: l =>
      _ ← w_upd (fun cl => set_coins l cl);
      _ ← w_try (DeleteCoinsData (o_ProgramHash (coin_Output c)));
      delete_coins l
  end.
Definition DeleteCoins : wM unit := l ← w_get coins; delete_coins l.
Definition Rebuild : wM unit :=
  _ ← w_upd (set_currentHeight (-1));
  _ ← SaveStoredData (str "Height") (WriteUint32 (uint32 (-1)));
  DeleteCoins.

Definition verifyPasswordKey (passwordKey : bytes) : wM bool :=
  r ← w_try (LoadStoredData (str "PasswordHash"));
  match r with
  | inr _ => mret false
  | inl saved => mret (bool_decide (saved = sha256 passwordKey))
  end.
(** The result says whether the password was changed; an error that was
    printed leaves [false]. *)
Definition ChangePassword (oldPassword newPassword : bytes) : wM bool :=
  ok ← verifyPasswordKey (ToAesKey oldPassword);
  if negb ok then mret false else
  let newKey := ToAesKey newPassword in
  c ← w_get id;
  '(newMasterKey, e) ← w_need (AesEncrypt (cl_masterKey c) newKey (cl_iv c));
  if is_err e then mret false else
  r ← w_try (SaveStoredData (str "PasswordHash") (sha256 newKey));
  match r with
  | inr _ => mret false
  | inl _ =>
      r ← w_try (SaveStoredData (str "MasterKey") newMasterKey);
      mret (match r with inl _ => true | inr _ => false end)
  end.

Definition blank_client (file : option FileData) : Client :=
  mkClient [] [] zero160 ∅ ∅ [] (-1) new_FileData file.
(** [NewClient] with [create]: the random bytes and the height of the local
    chain, if there is one, are arguments.  An error returns nil. *)
Definition NewClient_create (iv masterKey password : bytes) (chain : option Z) : wM unit :=
  let passwordKey := ToAesKey password in
  _ ← w_upd (fun c => set_cl_masterKey masterKey (set_cl_iv iv c));
  _ ← BuildDatabase;
  _ ← SaveStoredData (str "Version") WalletStoreVersion;
  _ ← SaveStoredData (str "PasswordHash") (sha256 passwordKey);
  _ ← SaveStoredData (str "IV") iv;
  r ← w_need (AesEncrypt masterKey passwordKey iv);
  aesmk ← w_ok r;
  _ ← SaveStoredData (str "MasterKey") aesmk;
  _ ← w_upd (fun c => set_currentHeight (match chain with Some h => int32 h | None => currentHeight c end) c);
  c ← w_get id;
  SaveStoredData (str "Height") (WriteUint32 (uint32 (currentHeight c))).
Definition NewClient_open (password : bytes) : wM unit :=
  let passwordKey := ToAesKey password in
  ok ← verifyPasswordKey passwordKey;
  if negb ok then w_fail (NewError "password wrong") else
  iv ← LoadStoredData (str "IV");
  _ ← w_upd (set_cl_iv iv);
  enc ← LoadStoredData (str "MasterKey");
  r ← w_need (AesDecrypt enc passwordKey iv);
  mk ← w_ok r;
  _ ← w_upd (set_cl_masterKey mk);
  tmp ← LoadStoredData (str "Height");
  w_upd (set_currentHeight (read_int32 tmp)).

Definition Create (iv masterKey password : bytes) (chain : option Z) (pair : bytes * PubKey) : wM unit :=
  _ ← w_error (NewError "client nil") (NewClient_create iv masterKey password chain);
  account ← CreateAccount pair;
  _ ← CreateContract account;
  w_upd (set_mainAccount (ac_ProgramHash account)).
Definition Open (password : bytes) : wM unit :=
  _ ← w_error (NewError "client nil") (NewClient_open password);
  _ ← w_error (NewError "Load accounts failure") LoadAccounts;
  _ ← w_error (NewError "Load contracts failure") LoadContracts;
  w_error (NewError "Load coins failure") LoadCoins.
(** The main account stays unset. *)
Definition Recover (iv masterKey password : bytes) (chain : option Z) (privateKeyHex : bytes) : wM unit :=
  _ ← w_error (NewError "client nil") (NewClient_create iv masterKey password chain);
  privateKeyBytes ← w_ok (HexStringToBytes privateKeyHex);
  account ← CreateAccountByPrivateKey privateKeyBytes;
  CreateContract account.

Definition GetAccountByProgramHash (programHash : Uint160) (c : Client) : option Account := accounts c !! programHash.
Definition GetDefaultAccount (c : Client) : option Account := GetAccountByProgramHash (mainAccount c) c.
Definition GetContract (programHash : Uint160) (c : Client) : option Contract := contracts c !! programHash.
Definition GetAccount (pubKey : PubKey) (c : Client) : option (option Account * err) :=
  '(script, e) ← signature_script pubKey;
  if is_err e then Some (None, Some (NewError "CreateSignatureRedeemScript failed")) else
  let '(programHash, e) := ToCodeHash ripemd160 script in
  if is_err e then Some (None, Some (NewError "ToCodeHash failed")) else Some (GetAccountByProgramHash programHash c, None).
Definition ContainsAccount (pubKey : PubKey) (c : Client) : option bool :=
  '(ac, e) ← GetAccount pubKey c;
  Some (negb (is_err e) && bool_decide (is_Some ac)).
End Client.

(** ** Blocks *)

(** The loop over the outputs of one transaction; a contract that is neither
    standard nor multi-signature would make a coin without an output. *)
Fixpoint receive_outputs (cts : gmap Uint160 Contract) (t : Transaction) (height : Z) (index : Z) (outs : list TxOutput) :
    outcome (list (UTXOTxInput * Coin)) :=
  match outs with
  | [] => Ok []
  | o :: outs =>
      match cts !! o_ProgramHash o with
      | None => receive_outputs cts t height (index + 1) outs
      | Some ct =>
          '(_, hash) ← no_panic (hash_cached t);
          multi ← no_panic (if IsStandard (c_Code ct) then Some false else IsMultiSigContract (c_Code ct));
          if negb (IsStandard (c_Code ct)) && negb multi then Unmodelled else
          rest ← receive_outputs cts t height (index + 1) outs;
          Ok ((mkInput hash (uint16 index) 0, mkCoin o (if multi : bool then MultiSign else SingleSign) height) :: rest)
      end
  end.
(** The coins a block brings; those of a coinbase mature later. *)
Fixpoint received (span : Z) (cts : gmap Uint160 Contract) (height : Z) (txs : list Transaction) : outcome (list (UTXOTxInput * Coin)) :=
  match txs with
  | [] => Ok []
  | t :: txs =>
      cs ← receive_outputs cts t (if IsCoinBaseTx t then uint32 (height + span) else 0) 0 (Outputs t);
      rest ← received span cts height txs;
      Ok (cs ++ rest)
  end.
Definition same_outpoint (i j : UTXOTxInput) : bool :=
  (ReferTxOutputIndex i =? ReferTxOutputIndex j) && bool_decide (ReferTxID i = ReferTxID j).
Definition is_spent (txs : list Transaction) (k : UTXOTxInput) : bool :=
  existsb (fun t => existsb (same_outpoint k) (UTXOInputs t)) txs.

(** [span]: [SpendCoinbaseSpan] of the network.  A new pointer is never a key of
    the map, so every output is added. *)
Definition ProcessOneBlock (span : Z) (block : Block) : wM unit :=
  c ← w_get id;
  new ← w_lift (received span (contracts c) (bd_Height (blk_data block)) (Transactions block));
  let cs := coins c ++ new in
  let kept := List.filter (fun kc => negb (is_spent (Transactions block) kc.1)) cs in
  _ ← w_upd (set_coins kept);
  let needUpdate := negb (length new =? 0)%nat || negb (length kept =? length cs)%nat in
  _ ← (if needUpdate then _ ← w_try SaveCoins; mret tt else mret tt);
  _ ← w_upd (fun c => set_currentHeight (int32 (currentHeight c + 1)) c);
  h ← w_get currentHeight;
  _ ← w_try (SaveStoredData (str "Height") (WriteUint32 (uint32 h)));
  mret tt.

(** [ProcessBlocks] catching up with a chain: [block] is the block of a height. *)
Fixpoint ProcessBlocks (turns : nat) (span blockHeight : Z) (block : Z -> option Block) : wM unit :=
  match turns with
  | O => mret tt
  | S turns =>
      h ← w_get currentHeight;
      if int32 blockHeight <=? h then mret tt else
      match block (uint32 (uint32 h + 1)) with
      | None => mret tt
      | Some b => _ ← ProcessOneBlock span b; ProcessBlocks turns span blockHeight block
      end
  end.

(** ** Signing *)

Section Sign.
Context (ripemd160 : bytes -> bytes) (sign : bytes -> bytes -> option bytes).

(** [SignBySigner] of the message [data]. *)
Definition SignBySigner (data : bytes) (ac : Account) : bytes * err :=
  match sign (PrivateKey ac) data with
  | Some s => (s, None)
  | None => ([], Some (NewError "[Signature],SignBySigner failed."))
  end.
Fixpoint sign_multi (c : Client) (data : bytes) (ct : Contract) (hashes : list Uint160) (found : bool) (cxt : ContractContext) :
    option (ContractContext * bool * err) :=
  match hashes with
  | [] => Some (cxt, found, None)
  | h :: hashes =>
      match GetAccountByProgramHash h c with
      | None => sign_multi c data ct hashes found cxt
      | Some ac =>
          let '(s, e) := SignBySigner data ac in
          if is_err e then Some (cxt, true, e) else
          '(cxt, e) ← AddContract cxt ct s;
          if is_err e then Some (cxt, true, e) else sign_multi c data ct hashes true cxt
      end
  end.
(** A custom contract is passed over. *)
Fixpoint sign_hashes (c : Client) (data : bytes) (hashes : list Uint160) (cxt : ContractContext) : option (ContractContext * err) :=
  match hashes with
  | [] => Some (cxt, None)
  | h :: hashes =>
      match GetContract h c with
      | None => Some (cxt, Some (NewError "no available contract in wallet"))
      | Some ct =>
          multi ← (if IsStandard (c_Code ct) then Some false else IsMultiSigContract (c_Code ct));
          if IsStandard (c_Code ct) then
            match GetAccountByProgramHash h c with
            | None => Some (cxt, Some (NewError "no available account in wallet to do single-sign"))
            | Some ac =>
                let '(s, e) := SignBySigner data ac in
                if is_err e then Some (cxt, e) else
                '(cxt, e) ← AddContract cxt ct s;
                if is_err e then Some (cxt, e) else sign_hashes c data hashes cxt
            end
          else if multi : bool then
            '(cxt, found, e) ← sign_multi c data ct (default [] (ParseMultisigTransactionCode ripemd160 (c_Code ct))) false cxt;
            if is_err e then Some (cxt, e) else
            if negb found then Some (cxt, Some (NewError "no available account detected")) else sign_hashes c data hashes cxt
          else sign_hashes c data hashes cxt
      end
  end.
Definition Sign (c : Client) (data : bytes) (cxt : ContractContext) : option (ContractContext * err) :=
  sign_hashes c data (ProgramHashes cxt) cxt.
End Sign.
