(* ===== verification/Sdk.v ===== *)
(** [sdk/sdk.go]: transactions made from the coins of a wallet.

    The sorted list of coins is taken from the map in some order; ties of
    [sort.Sort], which is not stable, are left in the order of [sort_by]. *)

From S2P Require Import Prelude Sha256 Serialization Common Fixed64 Transaction Merkle AuxPow Block.
From S2P Require Import Store Vm Address PubKey Contract Message Peers Validator Wallet.

Record BatchOut := mkBatchOut { bo_Address : bytes; bo_Value : bytes }.

Definition coin_value (kc : UTXOTxInput * Coin) : Z := o_Value (coin_Output kc.2).
Definition sortedCoins_Less (a b : UTXOTxInput * Coin) : bool := negb (coin_value b <? coin_value a).
(** [best]: the height of the best block. *)
Definition sortAvailableCoinsByValue (best : Z) (cs : list (UTXOTxInput * Coin)) (addrtype : Z) : list (UTXOTxInput * Coin) :=
  sort_by sortedCoins_Less (List.filter (fun kc => (coin_Height kc.2 <=? best) && (AddressType kc.2 =? addrtype)) cs).

Section Outputs.
Context `{IBase58} (assetID : Uint256).

(** The outputs asked for, and the amount to find. *)
Fixpoint batch_outputs (bad : string) (batchOut : list BatchOut) (expected : Fixed64) : outcome (list TxOutput * Fixed64 * err) :=
  match batchOut with
  | [] => Ok ([], expected, None)
  | o :: batchOut =>
      let '(outputValue, e) := StringToFixed64 (bo_Value o) in
      if is_err e then Ok ([], expected, e) else
      let expected := int64 (expected + outputValue) in
      '(address, e) ← ToScriptHash (bo_Address o);
      if is_err e then Ok ([], expected, Some (NewError bad)) else
      '(outs, expected, e) ← batch_outputs bad batchOut expected;
      Ok (mkOutput assetID outputValue address :: outs, expected, e)
  end.

(** The loop over the coins: the inputs, the change and what is still missing.
    [changeTo] is nil when there is no main account. *)
Fixpoint select_coins (usable : Coin -> bool) (changeTo : option Uint160) (sorted : list (UTXOTxInput * Coin)) (expected : Fixed64) :
    option (list UTXOTxInput * list TxOutput * Fixed64) :=
  match sorted with
  | [] => Some ([], [], expected)
  | (i, c) :: sorted =>
      if negb (usable c) then select_coins usable changeTo sorted expected else
      let v := o_Value (coin_Output c) in
      if expected <? v then
        to ← changeTo;
        Some ([i], [mkOutput assetID (int64 (v - expected)) to], 0)
      else if v =? expected then Some ([i], [], 0)
      else
        '(ins, outs, rest) ← select_coins usable changeTo sorted (int64 (expected - v));
        Some (i :: ins, outs, rest)
  end.
End Outputs.

Section Sdk.
Context `{TxStore} `{IBase58} (ripemd160 : bytes -> bytes) (sign : bytes -> bytes -> option bytes).

(** The transaction before it is signed. *)
Definition transfer_skeleton (bad : string) (best nonce : Z) (c : Client) (assetID : Uint256) (fee : bytes) (batchOut : list BatchOut)
    (addrtype : Z) (usable : Coin -> bool) (changeTo : option Uint160) : outcome (option Transaction * err) :=
  let '(txnfee, e) := StringToFixed64 fee in
  if is_err e || (txnfee <=? 0) then Ok (None, Some (NewError "invalid transation fee")) else
  '(outs, expected, e) ← batch_outputs assetID bad batchOut txnfee;
  if is_err e then Ok (None, e) else
  '(ins, change, rest) ← no_panic (select_coins assetID usable changeTo (sortAvailableCoinsByValue best (coins c) addrtype) expected);
  if 0 <? rest then Ok (None, Some (NewError "available token is not enough")) else
  let txn := NewTransferAssetTransaction ins (outs ++ change) in
  Ok (Some (set_Attributes txn [NewTxAttribute Nonce (big_String nonce)]), None).

(** [best]: the height of the best block, [nonce]: a random number.  The
    errors of [GetProgramHashes] and of [Sign] are dropped. *)
Definition MakeTransferTransaction (best nonce : Z) (c : Client) (assetID : Uint256) (fee : bytes) (batchOut : list BatchOut) :
    outcome (option Transaction * err) :=
  '(txn, e) ← transfer_skeleton "invalid address" best nonce c assetID fee batchOut SingleSign
    (fun coin => bool_decide (o_AssetID (coin_Output coin) = assetID)) (ac_ProgramHash <$> GetDefaultAccount c);
  match txn with
  | None => Ok (None, e)
  | Some txn =>
      data ← no_panic (Tx_GetHashData txn);
      '(cxt, _) ← no_panic (Sign ripemd160 sign c data (NewContractContext (fst (GetProgramHashes txn))));
      Ok (Some (SetPrograms txn (default [] (cxt_GetPrograms cxt))), None)
  end.

Definition MakeMultisigTransferTransaction (best nonce : Z) (c : Client) (assetID : Uint256) (from fee : bytes) (batchOut : list BatchOut) :
    outcome (option Transaction * err) :=
  match batchOut with
  | [] => Ok (None, Some (NewError "nil outputs"))
  | _ =>
      '(spendAddress, e) ← ToScriptHash from;
      if is_err e then Ok (None, Some (NewError "invalid sender address")) else
      '(txn, e) ← transfer_skeleton "invalid receiver address" best nonce c assetID fee batchOut MultiSign
        (fun coin => bool_decide (o_AssetID (coin_Output coin) = assetID) && bool_decide (o_ProgramHash (coin_Output coin) = spendAddress))
        (Some spendAddress);
      match txn with
      | None => Ok (None, e)
      | Some txn =>
          data ← no_panic (Tx_GetHashData txn);
          '(cxt, _) ← no_panic (Sign ripemd160 sign c data (NewContractContext (fst (GetProgramHashes txn))));
          Ok (Some (SetPrograms txn (if IsCompleted cxt then default [] (cxt_GetPrograms cxt) else GetUncompletedPrograms cxt)), None)
      end
  end.
End Sdk.
