(* ===== verification/WalletCoins.v ===== *)
(** The coins of a wallet against the ledger: following the blocks of the chain
    the wallet holds exactly the unspent outputs that belong to its contracts;
    the transactions it makes spend such coins and balance. *)

From S2P Require Import Prelude Sha256 Serialization Common Fixed64 Transaction Merkle AuxPow Block.
From S2P Require Import Store Utxo Vm Address PubKey Contract Message Peers Validator Wallet Sdk.

(** * Following the chain *)


Definition coin_view (kc : UTXOTxInput * Coin) : (Uint256 * Z) * TxOutput := (outpoint kc.1, coin_Output kc.2).

(** [out]: the output an outpoint stands for, whether spent or not. *)
Record tracks (cts : gmap Uint160 Contract) (out : Uint256 -> Z -> option TxOutput) (U : utxo_set) (cs : list (UTXOTxInput * Coin)) : Prop := {
  tr_coins : forall h i o, ((h, i), o) ∈ map coin_view cs <->
    U h i = true /\ out h i = Some o /\ is_Some (cts !! o_ProgramHash o);
  tr_once : NoDup (map (fun kc => outpoint kc.1) cs) }.

(** The blocks of a chain: hashes name transactions, a transaction is not spent
    before it is made, a registration moves nothing and the input of a coinbase
    names no output. *)
Record block_fits (out : Uint256 -> Z -> option TxOutput) (U : utxo_set) (txs : list Transaction) : Prop := {
  bf_hashed : forall t, t ∈ txs -> is_Some (hash_cached t);
  bf_hash : NoDup (map tx_hash_of txs);
  bf_new : forall t i, t ∈ txs -> U (tx_hash_of t) i = false;
  bf_out : forall t n, t ∈ txs -> out (tx_hash_of t) (Z.of_nat n) = Outputs t !! n;
  bf_small : forall t, t ∈ txs -> Z.of_nat (length (Outputs t)) <= 2 ^ 16;
  bf_order : forall l1 t l2, txs = l1 ++ t :: l2 -> forall j t', j ∈ UTXOInputs t -> t' ∈ l2 -> tx_hash_of t' <> ReferTxID j;
  bf_register : forall t, t ∈ txs -> TxType t = RegisterAsset -> Outputs t = [] /\ UTXOInputs t = [];
  bf_coinbase : forall t j, t ∈ txs -> IsCoinBaseTx t = true -> j ∈ UTXOInputs t -> out (ReferTxID j) (ReferTxOutputIndex j) = None }.

Lemma spends_iff t h i : spends t h i = true <-> IsCoinBaseTx t = false /\ exists j, j ∈ UTXOInputs t /\ outpoint j = (h, i).
Proof.
  unfold spends. rewrite andb_true_iff, negb_true_iff, existsb_exists. split; intros [Hc H]; (split; [done|]).
  - destruct H as (j & Hj & E). apply andb_true_iff in E as [E1 E2]. apply bool_decide_eq_true in E1. apply Z.eqb_eq in E2.
    exists j. split; [by apply list_elem_of_In|]. unfold outpoint. by rewrite E1, E2.
  - destruct H as (j & Hj & [= <- <-]). exists j. split; [by apply list_elem_of_In|]. by rewrite bool_decide_eq_true_2, Z.eqb_refl by done.
Qed.
Lemma creates_iff t h i : creates t h i = true <-> h = tx_hash_of t /\ 0 <= i < Z.of_nat (length (Outputs t)).
Proof. unfold creates. rewrite !andb_true_iff, bool_decide_eq_true, Z.leb_le, Z.ltb_lt. intuition. Qed.

(** The effect of a block when nothing is made after it was spent. *)
Lemma block_effect_iff txs : forall U h i,
  (forall l1 t l2, txs = l1 ++ t :: l2 -> forall j t', j ∈ UTXOInputs t -> t' ∈ l2 -> tx_hash_of t' <> ReferTxID j) ->
  (forall t, t ∈ txs -> TxType t = RegisterAsset -> Outputs t = [] /\ UTXOInputs t = []) ->
  block_effect U txs h i = true <->
  (U h i = true \/ exists t, t ∈ txs /\ creates t h i = true) /\ ~ exists t, t ∈ txs /\ spends t h i = true.
Proof.
  induction txs as [|t txs IH]; intros U h i Ho Hr; cbn [block_effect foldl].
  { split; [intros E; split; [by left|intros (t & Ht & _); by apply not_elem_of_nil in Ht]|].
    intros [[?|(t & Ht & _)] _]; [done|by apply not_elem_of_nil in Ht]. }
  fold (block_effect (tx_effect U t) txs). rewrite IH; [|intros l1 t1 l2 ->; exact (Ho (t :: l1) t1 l2 eq_refl)|intros t1 Ht1; apply Hr; by right].
  assert (E : tx_effect U t h i = true <-> (U h i = true \/ creates t h i = true) /\ spends t h i = false).
  { unfold tx_effect. destruct (Z.eqb_spec (TxType t) RegisterAsset) as [Et|_]; [|rewrite andb_true_iff, orb_true_iff, negb_true_iff; done].
    destruct (Hr t ltac:(by left) Et) as [Eo Ei]. unfold creates, spends. rewrite Eo, Ei. cbn [length existsb]. rewrite andb_false_r.
    split; [intros; split; [by left|done]|]. intros [[?|Hc] _]; [done|]. rewrite !andb_true_iff, Z.leb_le, Z.ltb_lt in Hc. cbn in Hc. lia. }
  rewrite E. destruct (spends t h i) eqn:Es.
  - split; [|intros [_ N]; exfalso; apply N; exists t; split; [by left|done]].
    intros [[[_ ?]|(t' & Ht' & Hc)] _]; [done|]. exfalso. apply creates_iff in Hc as [Eh _].
    apply spends_iff in Es as (_ & j & Hj & [= Ej _]). apply (Ho [] t txs eq_refl j t' Hj Ht'). congruence.
  - split.
    + intros [Hor N]. split; [|intros (t' & Ht' & Hs); apply elem_of_cons in Ht' as [->|Ht']; [congruence|apply N; by exists t']].
      destruct Hor as [[[?|?] _]|(t' & Ht' & Hc)]; [by left|right; exists t; split; [by left|done]|right; exists t'; split; [by right|done]].
    + intros [Hor N]. split; [|intros (t' & Ht' & Hs); apply N; exists t'; split; [by right|done]].
      destruct Hor as [?|(t' & Ht' & Hc)]; [by left; split; [left|]|]. apply elem_of_cons in Ht' as [->|Ht']; [by left; split; [right|]|right; by exists t'].
Qed.

(** ** The coins of a block *)

Lemma hash_cached_hash t t' h : hash_cached t = Some (t', h) -> tx_hash_of t = h.
Proof. unfold hash_cached, tx_hash_of. destruct (Tx_Hash t) as [h'|] eqn:E; [|done]. cbn. by intros [= _ <-]. Qed.

(** The outputs of one transaction, numbered from [n]. *)
Lemma receive_outputs_keys cts t height outs : forall n new,
  receive_outputs cts t height (Z.of_nat n) outs = Ok new -> Z.of_nat n + Z.of_nat (length outs) <= 2 ^ 16 ->
  map coin_view new =
  map (fun io => ((tx_hash_of t, Z.of_nat io.1), io.2)) (List.filter (fun io => bool_decide (is_Some (cts !! o_ProgramHash io.2))) (zip (seq n (length outs)) outs)).
Proof.
  induction outs as [|o outs IH]; intros n new E Hb; cbn [receive_outputs length seq] in *; [by injection E as <-|].
  cbn [zip_with List.filter]. replace (Z.of_nat n + 1) with (Z.of_nat (S n)) in E by lia. cbn [snd].
  destruct (cts !! o_ProgramHash o) as [ct|]; [rewrite bool_decide_eq_true_2 by done|rewrite bool_decide_eq_false_2 by (by intros [? ?]); apply IH; [done|lia]].
  apply outcome_bind_Ok in E as ([t' hash] & Eh & E). apply no_panic_Ok in Eh. apply hash_cached_hash in Eh as <-.
  apply outcome_bind_Ok in E as (multi & Em & E). destruct (_ && _) in E; [done|].
  apply outcome_bind_Ok in E as (rest & Er & E). injection E as <-. cbn [map fst snd coin_Output]. f_equal; [|apply IH; [done|lia]].
  unfold outpoint. cbn [ReferTxID ReferTxOutputIndex]. rewrite wrapU_id by lia. done.
Qed.

Definition block_coin (cts : gmap Uint160 Contract) (txs : list Transaction) (h : Uint256) (i : Z) (o : TxOutput) : Prop :=
  exists t n, t ∈ txs /\ h = tx_hash_of t /\ i = Z.of_nat n /\ Outputs t !! n = Some o /\ is_Some (cts !! o_ProgramHash o).

Lemma elem_of_zip_seq {A} (l : list A) : forall n x m, (m, x) ∈ zip (seq n (length l)) l <-> exists k, m = (n + k)%nat /\ l !! k = Some x.
Proof.
  induction l as [|a l IH]; intros n x m; cbn [length seq zip_with].
  - split; [intros E; by apply not_elem_of_nil in E|intros (k & _ & E); by rewrite lookup_nil in E].
  - rewrite elem_of_cons, IH. split.
    + intros [[= -> ->]|(k & -> & E)]; [exists 0%nat; split; [lia|done]|exists (S k); split; [lia|done]].
    + intros ([|k] & -> & E); cbn in E; [left; injection E as ->; f_equal; lia|right; exists k; split; [lia|done]].
Qed.

Lemma NoDup_map_filter {A} (h : Uint256) (p : nat * A -> bool) (l : list (nat * A)) : List.NoDup (map fst l) ->
  List.NoDup (map (fun io => (h, Z.of_nat io.1)) (List.filter p l)).
Proof.
  induction l as [|[m x] l IH]; cbn [map List.filter]; intros N; [constructor|].
  inversion_clear N as [|? ? N1 N2]. destruct (p (m, x)); [|by apply IH]. cbn [map]. constructor; [|by apply IH].
  intros Hin. apply in_map_iff in Hin as ([m' x'] & [= Em] & Hf). apply Nat2Z.inj in Em as ->. apply filter_In in Hf as [Hf _].
  apply N1. apply in_map_iff. by exists (m, x').
Qed.

Lemma receive_outputs_spec cts t height new : Z.of_nat (length (Outputs t)) <= 2 ^ 16 ->
  receive_outputs cts t height 0 (Outputs t) = Ok new ->
  (forall p o, (p, o) ∈ map coin_view new <->
     exists n, p = (tx_hash_of t, Z.of_nat n) /\ Outputs t !! n = Some o /\ is_Some (cts !! o_ProgramHash o)) /\
  NoDup (map (fun kc => outpoint kc.1) new) /\ Forall (fun p => p.1 = tx_hash_of t) (map (fun kc => outpoint kc.1) new).
Proof.
  intros Hb E. pose proof (receive_outputs_keys cts t height (Outputs t) 0 new E ltac:(lia)) as K.
  assert (K' : map (fun kc => outpoint kc.1) new = map (fun io : nat * TxOutput => (tx_hash_of t, Z.of_nat io.1))
    (List.filter (fun io => bool_decide (is_Some (cts !! o_ProgramHash io.2))) (zip (seq 0 (length (Outputs t))) (Outputs t)))).
  { apply (f_equal (map fst)) in K. rewrite !map_map in K. exact K. }
  split; [|rewrite K'; split].
  - intros p o. rewrite K, list_elem_of_In, in_map_iff. setoid_rewrite filter_In. setoid_rewrite <- list_elem_of_In. split.
    + intros ([m x] & [= <- <-] & Hin & Hb'). apply elem_of_zip_seq in Hin as (k & -> & Hk). apply bool_decide_eq_true in Hb'. by exists k.
    + intros (n & -> & Hn & Ho). exists (n, o). split; [done|]. split; [apply elem_of_zip_seq; by exists n|]. by apply bool_decide_eq_true_2.
  - apply NoDup_ListNoDup. assert (N : List.NoDup (map fst (zip (seq 0 (length (Outputs t))) (Outputs t)))).
    { rewrite fst_zip by (rewrite length_seq; lia). apply seq_NoDup. }
    by apply NoDup_map_filter.
  - apply list.Forall_forall. intros p Hp. apply list_elem_of_In, in_map_iff in Hp as (io & <- & _). done.
Qed.

Lemma received_spec span cts height txs : forall new, received span cts height txs = Ok new ->
  (forall t, t ∈ txs -> Z.of_nat (length (Outputs t)) <= 2 ^ 16) -> NoDup (map tx_hash_of txs) ->
  (forall h i o, ((h, i), o) ∈ map coin_view new <-> block_coin cts txs h i o) /\
  NoDup (map (fun kc => outpoint kc.1) new) /\ Forall (fun p => exists t, t ∈ txs /\ p.1 = tx_hash_of t) (map (fun kc => outpoint kc.1) new).
Proof.
  induction txs as [|t txs IH]; intros new E Hs Hn; cbn [received] in E.
  { injection E as <-. cbn. split; [|split; constructor]. intros h i o. split; [intros Hx; by apply not_elem_of_nil in Hx|].
    intros (t & n & Ht & _). by apply not_elem_of_nil in Ht. }
  apply outcome_bind_Ok in E as (cs & Ec & E). apply outcome_bind_Ok in E as (rest & Er & E). injection E as <-.
  cbn [map] in Hn. apply list.NoDup_cons in Hn as [Hn1 Hn2].
  destruct (receive_outputs_spec cts t _ cs (Hs t ltac:(by left)) Ec) as (S1 & S2 & S3).
  destruct (IH rest Er ltac:(intros t1 Ht1; apply Hs; by right) Hn2) as (R1 & R2 & R3). rewrite !map_app. split; [|split].
  - intros h i o. rewrite elem_of_app, S1, R1. unfold block_coin. split.
    + intros [(n & [= -> ->] & Ho & Hc)|(t1 & n & Ht1 & Hr)]; [exists t, n; split; [by left|done]|exists t1, n; split; [by right|done]].
    + intros (t1 & n & Ht1 & Hh & Hi & Hr). apply elem_of_cons in Ht1 as [->|Ht1]; [left; exists n; by rewrite Hh, Hi|right; by exists t1, n].
  - apply list.NoDup_app. split; [done|]. split; [|done]. intros p H1 H2.
    rewrite list.Forall_forall in S3, R3. destruct (R3 p H2) as (t1 & Ht1 & E1). rewrite (S3 p H1) in E1.
    apply Hn1. rewrite E1. apply list_elem_of_In, in_map, list_elem_of_In, Ht1.
  - apply Forall_app. split; (eapply list.Forall_impl; [done|]); cbn; [intros p ->; exists t; split; [by left|done]|].
    intros p (t1 & Ht1 & ->). exists t1. split; [by right|done].
Qed.

Lemma is_spent_iff txs k : is_spent txs k = true <-> exists t j, t ∈ txs /\ j ∈ UTXOInputs t /\ outpoint j = outpoint k.
Proof.
  unfold is_spent. rewrite existsb_exists. setoid_rewrite existsb_exists. setoid_rewrite <- list_elem_of_In. split.
  - intros (t & Ht & j & Hj & E). apply andb_true_iff in E as [E1 E2]. apply Z.eqb_eq in E1. apply bool_decide_eq_true in E2.
    exists t, j. unfold outpoint. by rewrite E1, E2.
  - intros (t & j & Ht & Hj & [= E1 E2]). exists t. split; [done|]. exists j. split; [done|].
    unfold same_outpoint. by rewrite E1, E2, Z.eqb_refl, bool_decide_eq_true_2.
Qed.

(** The coins a block leaves. *)
Definition kept_coins (txs : list Transaction) (cs : list (UTXOTxInput * Coin)) : list (UTXOTxInput * Coin) :=
  List.filter (fun kc => negb (is_spent txs kc.1)) cs.
Lemma kept_coins_view txs cs p o : (p, o) ∈ map coin_view (kept_coins txs cs) <->
  (p, o) ∈ map coin_view cs /\ ~ exists t j, t ∈ txs /\ j ∈ UTXOInputs t /\ outpoint j = p.
Proof.
  rewrite !list_elem_of_In, !in_map_iff. unfold kept_coins. setoid_rewrite filter_In. setoid_rewrite negb_true_iff. split.
  - intros (kc & [= Ep Eo] & Hin & Hs). split; [exists kc; split; [by unfold coin_view; rewrite Ep, Eo|done]|].
    rewrite <- Ep. intros H. apply is_spent_iff in H. congruence.
  - intros [(kc & [= Ep Eo] & Hin) N]. exists kc. split; [by unfold coin_view; rewrite Ep, Eo|]. split; [done|].
    apply not_true_is_false. rewrite is_spent_iff, Ep. done.
Qed.

Lemma tracks_block span cts out U cs height txs new : tracks cts out U cs -> block_fits out U txs ->
  received span cts height txs = Ok new -> tracks cts out (block_effect U txs) (kept_coins txs (cs ++ new)).
Proof.
  intros T F E. destruct (received_spec span cts height txs new E (bf_small _ _ _ F) (bf_hash _ _ _ F)) as (R1 & R2 & R3).
  assert (Hnew : forall h i o, ((h, i), o) ∈ map coin_view (cs ++ new) <->
    (U h i = true \/ exists t, t ∈ txs /\ creates t h i = true) /\ out h i = Some o /\ is_Some (cts !! o_ProgramHash o)).
  { intros h i o. rewrite map_app, elem_of_app, (tr_coins _ _ _ _ T), R1. split.
    - intros [(Hu & Ho & Hc)|(t & n & Ht & -> & -> & Hn & Hc)]; [by split; [left|]|]. split; [right; exists t|by rewrite (bf_out _ _ _ F)].
      split; [done|]. apply creates_iff. apply lookup_lt_Some in Hn. split; [done|lia].
    - intros ([Hu|(t & Ht & Hc)] & Ho & Hp); [by left|right]. apply creates_iff in Hc as [-> Hi]. exists t, (Z.to_nat i).
      rewrite <- (bf_out _ _ _ F) by done. rewrite Z2Nat.id by lia. done. }
  split.
  - intros h i o. rewrite kept_coins_view, Hnew, block_effect_iff by apply F. split.
    + intros [(Hu & Ho & Hc) N]. split; [|done]. split; [done|]. intros (t & Ht & Hs). apply spends_iff in Hs as (_ & j & Hj & Ej).
      apply N. by exists t, j.
    + intros ([Hu N] & Ho & Hc). split; [done|]. intros (t & j & Ht & Hj & Ej). apply N. exists t. split; [done|]. apply spends_iff.
      split; [|by exists j]. apply not_true_is_false. intros Hb. injection Ej as E1 E2.
      pose proof (bf_coinbase _ _ _ F t j Ht Hb Hj) as X. rewrite E1, E2 in X. congruence.
  - unfold kept_coins. assert (N : NoDup (map (fun kc : UTXOTxInput * Coin => outpoint kc.1) (cs ++ new))).
    { rewrite map_app. apply list.NoDup_app. split; [apply T|]. split; [|done]. intros p H1 H2.
      rewrite list.Forall_forall in R3. destruct (R3 p H2) as (t & Ht & Ep). apply list_elem_of_In, in_map_iff in H1 as (kc & <- & Hk).
      assert (Hv : (outpoint kc.1, coin_Output kc.2) ∈ map coin_view cs) by (apply list_elem_of_In, in_map_iff; by exists kc).
      destruct (outpoint kc.1) as [h i]. apply (tr_coins _ _ _ _ T) in Hv as (Hu & _). cbn in Ep. subst h. by rewrite (bf_new _ _ _ F) in Hu. }
    revert N. generalize (cs ++ new). clear. intros l. induction l as [|kc l IH]; cbn [map List.filter]; [done|].
    intros N. apply list.NoDup_cons in N as [N1 N2]. destruct (negb _); [|by apply IH]. cbn [map]. apply list.NoDup_cons. split; [|by apply IH].
    intros Hin. apply N1. apply list_elem_of_In, in_map_iff in Hin as (x & Ex & Hx). apply filter_In in Hx as [Hx _].
    apply list_elem_of_In, in_map_iff. by exists x.
Qed.

(** ** Processing a block *)

(** A contract whose code is one of the two kinds a wallet makes. *)
Definition known_code (ct : Contract) : Prop := IsStandard (c_Code ct) = true \/ IsMultiSigContract (c_Code ct) = Some true.

Lemma receive_outputs_total cts t height outs : map_Forall (fun _ => known_code) cts -> is_Some (hash_cached t) -> forall index,
  exists new, receive_outputs cts t height index outs = Ok new.
Proof.
  intros K [[t' hash] Et]. induction outs as [|o outs IH]; intros index; cbn [receive_outputs]; [by eexists|].
  destruct (cts !! o_ProgramHash o) as [ct|] eqn:Ect; [|apply IH]. rewrite Et. cbn [no_panic mbind outcome_bind]. destruct (IH (index + 1)) as [rest Er].
  destruct (K _ _ Ect) as [Hk|Hk].
  - rewrite Hk. cbn. rewrite Er. by eexists.
  - destruct (IsStandard (c_Code ct)); [cbn; rewrite Er; by eexists|]. rewrite Hk. cbn. rewrite Er. by eexists.
Qed.
Lemma received_total span cts height txs : map_Forall (fun _ => known_code) cts -> (forall t, t ∈ txs -> is_Some (hash_cached t)) ->
  exists new, received span cts height txs = Ok new.
Proof.
  intros K. induction txs as [|t txs IH]; intros Hh; cbn [received]; [by eexists|].
  destruct (receive_outputs_total cts t (if IsCoinBaseTx t then uint32 (height + span) else 0) (Outputs t) K (Hh t ltac:(by left)) 0) as [cs Ec]. rewrite Ec. cbn.
  destruct IH as [rest Er]; [intros t1 Ht1; apply Hh; by right|]. rewrite Er. by eexists.
Qed.

(** Saving touches the file only. *)
Definition same_wallet (c c' : Client) : Prop :=
  accounts c' = accounts c /\ contracts c' = contracts c /\ coins c' = coins c /\ mainAccount c' = mainAccount c /\ currentHeight c' = currentHeight c.
Lemma SaveCoinsData_run cs c : exists c' r, SaveCoinsData cs c = Ok (c', r) /\ same_wallet c c'.
Proof. unfold SaveCoinsData, readDB, upd_data, writeDB, w_upd, w_get, w_fail, mbind, wM_bind. destruct (fs_file c); eexists _, _; by split. Qed.
Lemma SaveStoredData_run name v c : exists c' r, SaveStoredData name v c = Ok (c', r) /\ same_wallet c c'.
Proof. unfold SaveStoredData, readDB, upd_data, writeDB, w_upd, w_get, w_fail, mbind, wM_bind. destruct (fs_file c); eexists _, _; by split. Qed.
Lemma w_try_run {A B} (m : wM A) (k : A + error -> wM B) c c1 r : m c = Ok (c1, r) -> (w_try m ≫= k) c = k r c1.
Proof. intros E. unfold w_try, mbind, wM_bind. by rewrite E. Qed.

Lemma ProcessOneBlock_run span block c new : received span (contracts c) (bd_Height (blk_data block)) (Transactions block) = Ok new ->
  exists c', ProcessOneBlock span block c = Ok (c', inl tt) /\ coins c' = kept_coins (Transactions block) (coins c ++ new) /\
    contracts c' = contracts c /\ accounts c' = accounts c /\ currentHeight c' = int32 (currentHeight c + 1).
Proof.
  intros E. unfold ProcessOneBlock. unfold mbind at 1, wM_bind at 1, w_get at 1, id. unfold mbind at 1, wM_bind at 1, w_lift. rewrite E. unfold mbind at 1, wM_bind at 1, w_upd at 1.
  fold (kept_coins (Transactions block) (coins c ++ new)). set (c0 := set_coins _ c). set (need := negb _ || negb _).
  assert (S1 : exists c1, (if need then _ ← w_try SaveCoins; mret tt else mret tt) c0 = Ok (c1, inl tt) /\ same_wallet c0 c1).
  { destruct need; [|by exists c0; split]. destruct (SaveCoinsData_run (coins c0) c0) as (c1 & r & E1 & S). exists c1.
    by rewrite (w_try_run SaveCoins (fun _ => mret tt) c0 c1 r E1). }
  destruct S1 as (c1 & E1 & S1). unfold mbind at 1, wM_bind at 1. rewrite E1. unfold mbind at 1, wM_bind at 1, w_upd.
  set (c2 := set_currentHeight _ c1). unfold mbind at 1, wM_bind at 1, w_get.
  destruct (SaveStoredData_run (str "Height") (WriteUint32 (uint32 (currentHeight c2))) c2) as (c3 & r & E3 & S3).
  rewrite (w_try_run _ _ _ _ _ E3). exists c3. split; [done|].
  destruct S1 as (A1 & B1 & C1 & _ & D1), S3 as (A3 & B3 & C3 & _ & D3). rewrite C3, B3, A3, D3. unfold c2. cbn [coins contracts accounts currentHeight set_currentHeight].
  by rewrite C1, B1, A1, D1.
Qed.

(** The blocks of a chain in order, each fitting what the ones before left. *)
Fixpoint chain_fits (out : Uint256 -> Z -> option TxOutput) (U : utxo_set) (bs : list Block) : Prop :=
  match bs with
  | [] => True
  | b :: bs => block_fits out U (Transactions b) /\ chain_fits out (block_effect U (Transactions b)) bs
  end.
Definition chain_effect (U : utxo_set) (bs : list Block) : utxo_set := foldl (fun U b => block_effect U (Transactions b)) U bs.

(** C23: A wallet that catches up with the chain reaches its height and then
    holds exactly the unspent outputs that pay its contracts: starting from a
    height at which it does, after the blocks [bs] above it have been processed
    its coins are, each once, the outputs paying a contract of the wallet that
    the blocks leave in the set of unspent outputs - the set the unspent index
    of the chain store keeps. *)
Theorem wallet_follows_chain span out block bs : forall U c tip turns,
  tracks (contracts c) out U (coins c) -> map_Forall (fun _ => known_code) (contracts c) ->
  -1 <= currentHeight c -> tip = currentHeight c + Z.of_nat (length bs) -> tip < 2 ^ 31 ->
  (forall k b, bs !! k = Some b -> block (currentHeight c + 1 + Z.of_nat k) = Some b) -> chain_fits out U bs -> (length bs <= turns)%nat ->
  exists c', ProcessBlocks turns span tip block c = Ok (c', inl tt) /\ currentHeight c' = tip /\
    contracts c' = contracts c /\ accounts c' = accounts c /\ tracks (contracts c) out (chain_effect U bs) (coins c').
Proof.
  induction bs as [|b bs IH]; intros U c tip turns T K Hh Et Htip Hb F Hl; cbn [length] in *.
  { exists c. split; [|by split; [lia|]]. destruct turns as [|turns]; [done|]. cbn [ProcessBlocks]. unfold mbind at 1, wM_bind at 1, w_get.
    rewrite (wrapS_id 32) by lia. by rewrite (proj2 (Z.leb_le tip (currentHeight c)) ltac:(lia)). }
  destruct turns as [|turns]; [lia|]. destruct F as [Fb F].
  destruct (received_total span (contracts c) (bd_Height (blk_data b)) (Transactions b) K (bf_hashed _ _ _ Fb)) as [new En].
  destruct (ProcessOneBlock_run span b c new En) as (c1 & E1 & Ec & Ect & Ea & Eh). rewrite (wrapS_id 32) in Eh by lia.
  pose proof (tracks_block span _ out U (coins c) _ _ new T Fb En) as T1. rewrite <- Ec, <- Ect in T1.
  destruct (IH _ c1 tip turns T1 ltac:(by rewrite Ect) ltac:(lia) ltac:(lia) Htip) as (c2 & E2 & R1 & R2 & R3 & R4); [|done|lia|].
  { intros k b' Hk. rewrite <- (Hb (S k) b' Hk). f_equal. lia. }
  exists c2. split; [|by rewrite R2, R3, Ect, Ea in *].
  cbn [ProcessBlocks]. unfold mbind at 1, wM_bind at 1, w_get. rewrite (wrapS_id 32) by lia.
  rewrite (proj2 (Z.leb_gt tip (currentHeight c)) ltac:(lia)).
  assert (Eu : uint32 (uint32 (currentHeight c) + 1) = currentHeight c + 1).
  { unfold wrapU. rewrite Zplus_mod_idemp_l. apply Z.mod_small. lia. }
  rewrite Eu. pose proof (Hb O b eq_refl) as H0. cbn [Z.of_nat] in H0. rewrite Z.add_0_r in H0. rewrite H0.
  unfold mbind at 1, wM_bind at 1. rewrite E1. exact E2.
Qed.

(** ** A small wallet *)

Definition own_contract : Contract := mkContract ([33] ++ repeat 2 33 ++ [0xac]) [0] (repeat 7 20) (repeat 7 20).
Definition small_wallet : Client := mkClient [] [] (repeat 7 20) ∅ {[ repeat 7 20 := own_contract ]} [] 0 new_FileData (Some new_FileData).
Definition paid_coinbase (height : Z) (h : Uint256) (outs : list TxOutput) : Transaction :=
  SetHash (set_Outputs (NewCoinBaseTransaction (PCoinBase [height]) height) outs) h.
Definition pay_block : Block :=
  mkBlock (mkBlockdata 0 zero256 zero256 0 0 1 0 new_AuxPow) [paid_coinbase 1 (repeat 5 32) [mkOutput zero256 10 (repeat 7 20); mkOutput zero256 7 (repeat 8 20)]] None.
Definition pass_block : Block :=
  mkBlock (mkBlockdata 0 zero256 zero256 0 0 2 0 new_AuxPow)
    [paid_coinbase 2 (repeat 6 32) []; SetHash (NewTransferAssetTransaction [mkInput (repeat 5 32) 0 0] [mkOutput zero256 4 (repeat 7 20); mkOutput zero256 5 (repeat 8 20)]) (repeat 9 32)] None.
Definition outputs_of (txs : list Transaction) (h : Uint256) (i : Z) : option TxOutput :=
  t ← List.find (fun t => bool_decide (tx_hash_of t = h)) txs;
  if 0 <=? i then Outputs t !! Z.to_nat i else None.
Definition small_outputs : Uint256 -> Z -> option TxOutput := outputs_of (Transactions pay_block ++ Transactions pass_block).
Definition nothing_unspent : utxo_set := fun _ _ => false.

Lemma tracks_nothing cts out : tracks cts out nothing_unspent [].
Proof. split; [|constructor]. intros h i o. split; [intros H; by apply not_elem_of_nil in H|by intros [? _]]. Qed.
Lemma outputs_of_spec txs t n : NoDup (map tx_hash_of txs) -> t ∈ txs -> outputs_of txs (tx_hash_of t) (Z.of_nat n) = Outputs t !! n.
Proof.
  intros N Ht. unfold outputs_of. rewrite (proj2 (Z.leb_le _ _)), Nat2Z.id by lia.
  induction txs as [|t0 txs IH]; [by apply not_elem_of_nil in Ht|]. cbn [List.find map] in *. apply list.NoDup_cons in N as [N1 N2].
  apply elem_of_cons in Ht as [->|Ht]; [by rewrite bool_decide_eq_true_2|]. rewrite bool_decide_eq_false_2; [by apply IH|].
  intros E. apply N1. rewrite E. by apply list_elem_of_In, in_map, list_elem_of_In.
Qed.

(** One goal per element of a concrete list. *)
Ltac each H := repeat (apply elem_of_cons in H as [->|H]); [.. |by apply not_elem_of_nil in H].

Lemma small_chain_fits : chain_fits small_outputs nothing_unspent [pay_block; pass_block].
Proof.
  assert (N : NoDup (map tx_hash_of (Transactions pay_block ++ Transactions pass_block))) by by_decision.
  split; [|split; [|done]]; constructor.
  - intros t Ht. each Ht. by eexists.
  - by_decision.
  - done.
  - intros t n Ht. apply outputs_of_spec; [exact N|]. apply elem_of_app. by left.
  - intros t Ht. each Ht. by vm_compute.
  - intros l1 t l2 E j t' _ Ht'. destruct l1 as [|? [|? ?]]; [|done|done]. injection E as _ <-. by apply not_elem_of_nil in Ht'.
  - intros t Ht. each Ht. done.
  - intros t j Ht _ Hj. each Ht. each Hj. by vm_compute.
  - intros t Ht. each Ht; by eexists.
  - by_decision.
  - intros t i Ht. each Ht; by vm_compute.
  - intros t n Ht. apply outputs_of_spec; [exact N|]. apply elem_of_app. by right.
  - intros t Ht. each Ht; by vm_compute.
  - intros l1 t l2 E j t' Hj Ht'. destruct l1 as [|? [|? [|? ?]]]; [| |done|done]; injection E; intros; subst.
    + each Hj. each Ht'. by vm_compute.
    + by apply not_elem_of_nil in Ht'.
  - intros t Ht. each Ht; done.
  - intros t j Ht Hc Hj. each Ht; [|done]. each Hj. by vm_compute.
Qed.

Lemma wallet_follows_chain_witness :
  exists c', ProcessBlocks 5 100 2 (fun h => nth_error [pay_block; pass_block] (Z.to_nat (h - 1))) small_wallet = Ok (c', inl tt) /\ currentHeight c' = 2 /\
    contracts c' = contracts small_wallet /\ accounts c' = accounts small_wallet /\
    tracks (contracts small_wallet) small_outputs (chain_effect nothing_unspent [pay_block; pass_block]) (coins c').
Proof.
  apply (wallet_follows_chain 100 small_outputs _ [pay_block; pass_block] nothing_unspent small_wallet 2 5);
    [apply tracks_nothing| |by vm_compute|reflexivity|reflexivity| |exact small_chain_fits|cbn; lia].
  - cbn [contracts small_wallet]. apply map_Forall_singleton. left. reflexivity.
  - intros k b Hk. destruct k as [|[|k]]; [exact Hk|exact Hk|discriminate Hk].
Defined.
