(* ===== verification/Transfer.v ===== *)
(** The transfers a wallet makes ([sdk/sdk.go]): they spend coins of the wallet,
    pay what was asked for, give the change back, leave the fee, and carry the
    signatures that make them verify. *)

From S2P Require Import Prelude Sha256 Serialization Common Fixed64 Transaction Merkle AuxPow Block.
From S2P Require Import Store Utxo Vm Address PubKey Contract Message Peers Validator Wallet Sdk.

Definition total (l : list TxOutput) : Z := foldr (fun o s => o_Value o + s) 0 l.
Definition worth (l : list (UTXOTxInput * Coin)) : Z := total (map (fun kc => coin_Output kc.2) l).

Lemma total_app l k : total (l ++ k) = total l + total k.
Proof. unfold total. induction l as [|o l IH]; cbn [app foldr]; [lia|]. rewrite IH. lia. Qed.
#[export] Instance total_perm : Proper (Permutation ==> eq) total.
Proof. intros l k H. unfold total. induction H; cbn [foldr]; lia. Qed.

(** * The coins taken *)

Definition amount (o : TxOutput) : Prop := 0 <= o_Value o < 2 ^ 63.

Lemma total_nonneg l : Forall amount l -> 0 <= total l.
Proof. unfold total. induction 1 as [|o l [Ho _] _ IH]; cbn [foldr]; [done|lia]. Qed.

(** Coins are taken from the smallest on; the last one gives the change. *)
Lemma select_coins_spec assetID usable to sorted : Forall (fun kc => amount (coin_Output kc.2)) sorted ->
  forall expected, 0 < expected < 2 ^ 63 ->
  let own := List.filter (fun kc => usable kc.2) sorted in
  if expected <=? worth own
  then exists sel change, select_coins assetID usable (Some to) sorted expected = Some (map fst sel, change, 0) /\
    sel `prefix_of` own /\ worth sel = expected + total change /\
    (change = [] \/ exists v, 0 < v < 2 ^ 63 /\ change = [mkOutput assetID v to])
  else exists rest, select_coins assetID usable (Some to) sorted expected = Some (map fst own, [], rest) /\ 0 < rest.
Proof.
  induction 1 as [|[i c] sorted Hc Hs IH]; intros expected He own; subst own; cbn [List.filter select_coins snd].
  { destruct (Z.leb_spec expected (worth [])) as [H|H]; [cbn in H; lia|]. exists expected. split; [done|lia]. }
  destruct (usable c); cbn [negb]; [|by apply IH]. cbn in Hc. destruct Hc as [Hc1 Hc2]. set (v := o_Value (coin_Output c)) in *.
  set (own := List.filter _ sorted) in *. assert (Ew : forall l, worth ((i, c) :: l) = v + worth l) by done.
  assert (Hw : 0 <= worth own).
  { apply total_nonneg. apply list.Forall_forall. intros o Ho. apply list_elem_of_In, in_map_iff in Ho as (kc & <- & Hk).
    apply filter_In in Hk as [Hk _]. rewrite list.Forall_forall in Hs. apply (Hs kc). by apply list_elem_of_In. }
  destruct (Z.ltb_spec expected v) as [H1|H1].
  - rewrite Ew, (proj2 (Z.leb_le expected (v + worth own))) by lia. exists [(i, c)], [mkOutput assetID (int64 (v - expected)) to].
    rewrite (wrapS_id 64) by lia. split; [done|]. split; [by exists own|]. rewrite Ew. cbn [worth total map foldr o_Value].
    split; [lia|]. right. exists (v - expected). split; [lia|done].
  - destruct (Z.eqb_spec v expected) as [H2|H2].
    + rewrite Ew, (proj2 (Z.leb_le expected (v + worth own))) by lia. exists [(i, c)], []. split; [done|]. split; [by exists own|].
      rewrite Ew. cbn. split; [lia|by left].
    + rewrite (wrapS_id 64) by lia. specialize (IH (expected - v) ltac:(lia)). cbn zeta in IH. fold own in IH. rewrite Ew.
      destruct (Z.leb_spec (expected - v) (worth own)) as [H3|H3].
      * rewrite (proj2 (Z.leb_le expected (v + worth own))) by lia. destruct IH as (sel & change & E & Hp & Hsum & Hch). rewrite E.
        exists ((i, c) :: sel), change. split; [done|]. split; [by apply prefix_cons|]. rewrite Ew. split; [lia|done].
      * rewrite (proj2 (Z.leb_gt expected (v + worth own))) by lia. destruct IH as (rest & E & Hr). rewrite E. by exists rest.
Qed.

(** * The outputs asked for *)

Section Requests.
Context `{IBase58} (assetID : Uint256).

(** The text of a request stands for an output. *)
Definition asks (r : BatchOut) (o : TxOutput) : Prop :=
  StringToFixed64 (bo_Value r) = (o_Value o, None) /\ ToScriptHash (bo_Address r) = Ok (o_ProgramHash o, None) /\ o_AssetID o = assetID.

Lemma batch_outputs_spec bad rs outs : Forall2 asks rs outs -> Forall amount outs -> forall expected,
  0 <= expected -> expected + total outs < 2 ^ 63 ->
  batch_outputs assetID bad rs expected = Ok (outs, expected + total outs, None).
Proof.
  induction 1 as [|r o rs outs (E1 & E2 & E3) _ IH]; intros Ha expected He Hb; cbn [batch_outputs total foldr]; [by rewrite Z.add_0_r|].
  fold (total outs) in *. apply list.Forall_cons in Ha as [[Ho1 Ho2] Ha]. pose proof (total_nonneg outs Ha) as Hn.
  change (total (o :: outs)) with (o_Value o + total outs) in Hb. rewrite E1. cbn [is_err]. rewrite E2. cbn [mbind outcome_bind is_err].
  rewrite (wrapS_id 64) by lia. rewrite (IH Ha) by lia. cbn [mbind outcome_bind]. rewrite Z.add_assoc. destruct o as [a v h]. cbn in *. by subst.
Qed.
End Requests.

(** * Signing *)

(** A context over [hs] in which the first programs have their signature. *)
Definition signed_part (hs : list Uint160) (dn : list (bytes * bytes)) : ContractContext :=
  mkContractContext hs
    (map (fun ks => Some (CreateSignatureRedeemScript ks.1)) dn ++ replicate (length hs - length dn) None)
    (map (fun ks => Some [Some ks.2]) dn ++ replicate (length hs - length dn) None) 0.

Lemma index_of_hash_app pre h post : NoDup (pre ++ h :: post) -> forall i, index_of_hash h (pre ++ h :: post) i = Some (i + length pre)%nat.
Proof.
  induction pre as [|x pre IH]; intros N i; cbn [app index_of_hash length]; [rewrite decide_True by done; f_equal; lia|].
  apply list.NoDup_cons in N as [N1 N2]. rewrite decide_False; [rewrite IH by done; f_equal; lia|].
  intros ->. apply N1. apply elem_of_app. right. by left.
Qed.

Section Sign.
Context (ripemd160 : bytes -> bytes) (ripemd160_length : forall d, length (ripemd160 d) = 20%nat).

Lemma AddContract_standard pre post dn key sgn : let ct := signature_contract ripemd160 key in
  length key = 33%nat -> length pre = length dn -> NoDup (pre ++ c_ProgramHash ct :: post) ->
  AddContract (signed_part (pre ++ c_ProgramHash ct :: post) dn) ct sgn =
    Some (signed_part (pre ++ c_ProgramHash ct :: post) (dn ++ [(key, sgn)]), None).
Proof.
  intros ct Hk Hl N. unfold AddContract, ct. rewrite GetType_signature by done. cbn [mbind option_bind].
  assert (Ep : c_Parameters ct = [Signature_param]) by (unfold ct, signature_contract; by rewrite signature_contract_eq).
  assert (Ec : c_Code ct = CreateSignatureRedeemScript key) by (unfold ct, signature_contract; by rewrite signature_contract_eq).
  fold ct. rewrite Ep. change (signature_index [Signature_param] 0 (-1)) with (Some 0). cbn iota.
  set (h := c_ProgramHash ct) in *. unfold cxt_Add, GetIndex. cbn [signed_part ProgramHashes Codes cxt_Parameters].
  rewrite index_of_hash_app by done. cbn [default id]. rewrite Nat.add_0_l, Hl.
  assert (Er : (length (pre ++ h :: post) - length dn = S (length post))%nat) by (rewrite length_app; cbn [length]; lia).
  rewrite Er. rewrite !lookup_app_r by (rewrite length_map; lia). rewrite !length_map, Nat.sub_diag.
  cbn [replicate lookup list_lookup mbind option_bind]. rewrite Ep. cbn [length replicate Z.ltb Z.leb orb]. cbn.
  unfold signed_part. do 2 f_equal.
  assert (Er' : (length (pre ++ h :: post) - length (dn ++ [(key, sgn)]) = length post)%nat) by (rewrite !length_app; cbn [length]; lia).
  rewrite Er', !map_app, !insert_app_r_alt by (rewrite length_map; lia). rewrite !length_map, Nat.sub_diag, Ec. cbn [list_insert insert].
  rewrite <- !app_assoc. done.
Qed.

(** The wallet can sign for the owner of an output. *)
Definition signs_for `{ICrypto} (sign : bytes -> bytes -> option bytes) (c : Client) (h : Uint160) (key : bytes) : Prop :=
  length key = 33%nat /\ contracts c !! h = Some (signature_contract ripemd160 key) /\ h = c_ProgramHash (signature_contract ripemd160 key) /\
  exists ac, accounts c !! h = Some ac /\ forall data, exists sgn, sign (PrivateKey ac) data = Some sgn /\ length sgn = 64%nat /\ VerifySignature data sgn key = true.

Lemma sign_hashes_complete `{ICrypto} sign c data : forall hs pre dn,
  NoDup (pre ++ hs) -> length pre = length dn -> Forall (fun h => exists key, signs_for sign c h key) hs ->
  exists new, sign_hashes ripemd160 sign c data hs (signed_part (pre ++ hs) dn) = Some (signed_part (pre ++ hs) (dn ++ new), None) /\
    length new = length hs /\
    Forall2 (fun h ks => h = c_ProgramHash (signature_contract ripemd160 ks.1) /\ length ks.1 = 33%nat /\ length ks.2 = 64%nat /\
      VerifySignature data ks.2 ks.1 = true) hs new.
Proof.
  induction hs as [|h hs IH]; intros pre dn N Hl F; cbn [sign_hashes]; [exists []; rewrite (app_nil_r dn); split; [done|split; [done|constructor]]|].
  apply list.Forall_cons in F as [(key & Hk & Ect & Eh & ac & Eac & Hs) F]. destruct (Hs data) as (sgn & Es & Ls & Vs).
  unfold GetContract, GetAccountByProgramHash. rewrite Ect.
  assert (Ec : c_Code (signature_contract ripemd160 key) = CreateSignatureRedeemScript key) by (unfold signature_contract; by rewrite signature_contract_eq).
  rewrite Ec, recognised_standard by done. cbn [mbind option_bind]. rewrite Eac. unfold SignBySigner. rewrite Es. cbn [is_err].
  rewrite Eh in N |- *. rewrite AddContract_standard by done. cbn [mbind option_bind is_err].
  set (ct := signature_contract ripemd160 key) in *. rewrite (cons_middle (c_ProgramHash ct) pre hs) in N |- *. rewrite app_assoc in N |- *.
  destruct (IH (pre ++ [c_ProgramHash ct]) (dn ++ [(key, sgn)]) N) as (new & E & Ln & Fn); [rewrite !length_app; cbn; lia|done|].
  exists ((key, sgn) :: new). rewrite E. rewrite <- (app_assoc dn). split; [done|]. split; [cbn; lia|]. constructor; [done|exact Fn].
Qed.

Lemma signed_part_start hs : NewContractContext hs = signed_part hs [].
Proof. unfold NewContractContext, signed_part. cbn [map app length]. by rewrite Nat.sub_0_r. Qed.
Lemma signed_part_programs hs dn : length dn = length hs -> Forall (fun ks : bytes * bytes => length ks.2 = 64%nat) dn ->
  cxt_GetPrograms (signed_part hs dn) = Some (map (fun ks => mkProgram (CreateSignatureRedeemScript ks.1) (PushData ks.2)) dn).
Proof.
  intros Hl F. unfold cxt_GetPrograms, IsCompleted, GetUncompletedPrograms, signed_part. cbn [cxt_Parameters Codes].
  rewrite Hl, Nat.sub_diag. cbn [replicate]. rewrite !app_nil_r. clear Hl.
  assert (E : forallb (fun p : option (list (option bytes)) => match p with None => false | Some ps => forallb (fun pp => match pp with None => false | Some _ => true end) ps end)
     (map (fun ks : bytes * bytes => Some [Some ks.2]) dn) = true) by (by apply forallb_forall; intros ? (? & <- & ?)%in_map_iff).
  rewrite E. clear E. f_equal. induction F as [|[k s] dn L _ IH]; [done|]. cbn [map zip_with]. f_equal; [|exact IH].
  unfold build_program. cbn [default id map concat fst snd]. rewrite build_parameter_signature by exact L. by rewrite app_nil_r.
Qed.
End Sign.

(** * The transfer *)

Section Transfer.
Context `{store : TxStore} `{IBase58} `{crypto : ICrypto} (ripemd160 : bytes -> bytes) (sign : bytes -> bytes -> option bytes).

(** What is known of the coins of single signature: the ledger has the output
    under its outpoint and the wallet signs for its owner. *)
Definition coin_ready (c : Client) (kc : UTXOTxInput * Coin) : Prop :=
  amount (coin_Output kc.2) /\ (exists key, signs_for ripemd160 sign c (o_ProgramHash (coin_Output kc.2)) key) /\
  exists t h, GetTransaction (ReferTxID kc.1) = inl (t, h) /\ Outputs t !! Z.to_nat (ReferTxOutputIndex kc.1) = Some (coin_Output kc.2).
Definition wallet_ready (c : Client) : Prop := forall kc, kc ∈ coins c -> AddressType kc.2 = SingleSign -> coin_ready c kc.

(** The coins a transfer may use. *)
Definition available (best : Z) (assetID : Uint256) (kc : UTXOTxInput * Coin) : bool :=
  (coin_Height kc.2 <=? best) && (AddressType kc.2 =? SingleSign) && bool_decide (o_AssetID (coin_Output kc.2) = assetID).

Lemma filter_perm {A} (p : A -> bool) l k : l ≡ₚ k -> List.filter p l ≡ₚ List.filter p k.
Proof. induction 1; cbn [List.filter]; repeat case_match; eauto using Permutation. Qed.
Lemma filter_filter_and {A} (p q : A -> bool) l : List.filter q (List.filter p l) = List.filter (fun x => p x && q x) l.
Proof. induction l as [|x l IH]; cbn [List.filter]; [done|]. destruct (p x); cbn [List.filter andb]; [|done]. destruct (q x); by rewrite IH. Qed.
Lemma usable_sorted best c assetID :
  List.filter (fun kc => bool_decide (o_AssetID (coin_Output kc.2) = assetID)) (sortAvailableCoinsByValue best (coins c) SingleSign) ≡ₚ
  List.filter (available best assetID) (coins c).
Proof. unfold sortAvailableCoinsByValue. rewrite (filter_perm _ _ _ (sort_by_perm _ _)), filter_filter_and. done. Qed.

Lemma GetReference_coins c sel : Forall (coin_ready c) sel ->
  GetReference_loop (map fst sel) = (map (fun kc => (kc.1, coin_Output kc.2)) sel, None).
Proof.
  induction 1 as [|kc sel (_ & _ & t & h & Et & Eo) _ IH]; [done|]. cbn [map GetReference_loop]. by rewrite Et, Eo, IH.
Qed.

(** The transaction [MakeTransferTransaction] signs. *)
Definition unsigned_transfer (nonce : Z) (sel : list (UTXOTxInput * Coin)) (outs : list TxOutput) : Transaction :=
  set_Attributes (NewTransferAssetTransaction (map fst sel) outs) [NewTxAttribute Nonce (big_String nonce)].

Lemma transfer_program_hashes c nonce sel outs ps : Forall (coin_ready c) sel ->
  exists hs, GetProgramHashes (SetPrograms (unsigned_transfer nonce sel outs) ps) = (hs, None) /\ NoDup hs /\
    Forall (fun h => exists key, signs_for ripemd160 sign c h key) hs.
Proof.
  intros F. unfold GetProgramHashes, GetReference, unsigned_transfer. cbn [TxType SetPrograms set_Attributes NewTransferAssetTransaction UTXOInputs Attributes].
  change (TransferAsset =? RegisterAsset) with false. cbn iota. rewrite (GetReference_coins c) by done. cbn [script_hashes NewTxAttribute at_Usage].
  change (Nonce =? Transaction.Script) with false. cbn iota. eexists. split; [reflexivity|]. rewrite app_nil_r. split.
  - rewrite sort_by_perm. apply NoDup_remove_dups.
  - rewrite sort_by_perm. apply list.Forall_forall. intros h Hh. rewrite elem_of_remove_dups in Hh. apply list_elem_of_In in Hh.
    rewrite map_map in Hh. apply in_map_iff in Hh as (kc & <- & Hk). rewrite list.Forall_forall in F. apply (F kc). by apply list_elem_of_In.
Qed.

(** The signatures added make the transaction verify. *)
Lemma signed_transfer_verifies c nonce sel outs data : (forall d, length (ripemd160 d) = 20%nat) -> Forall (coin_ready c) sel ->
  Tx_GetHashData (unsigned_transfer nonce sel outs) = Some data ->
  exists cxt ps, Sign ripemd160 sign c data (NewContractContext (fst (GetProgramHashes (unsigned_transfer nonce sel outs)))) = Some (cxt, None) /\
    cxt_GetPrograms cxt = Some ps /\ VerifySignableData ripemd160 (SetPrograms (unsigned_transfer nonce sel outs) ps) = Ok (true, None).
Proof.
  intros Hr F Ed. destruct (transfer_program_hashes c nonce sel outs [] F) as (hs & Eh & N & Fh).
  change (GetProgramHashes (unsigned_transfer nonce sel outs)) with (GetProgramHashes (SetPrograms (unsigned_transfer nonce sel outs) [])).
  rewrite Eh. cbn [fst]. unfold Sign. change (ProgramHashes (NewContractContext hs)) with hs. rewrite signed_part_start.
  destruct (sign_hashes_complete ripemd160 Hr sign c data hs [] [] N eq_refl Fh) as (new & E & Ln & Fn). cbn [app] in E.
  exists (signed_part hs new). eexists. split; [exact E|]. split.
  { apply signed_part_programs; [done|]. clear -Fn. induction Fn as [|h ks hs new (_ & _ & L & _) _ IH]; by constructor. }
  apply (VerifySignableData_programs ripemd160 _ hs (map (fun ks : bytes * bytes => mkProgram (CreateSignatureRedeemScript ks.1) (PushData ks.2)) new) data);
    [exact Eh|reflexivity|symmetry; etransitivity; [apply length_map|exact Ln]|exact Ed|].
  clear E Eh N Fh Ln. induction Fn as [|h [k s] hs new (E1 & E2 & E3 & E4) _ IH]; [done|]. cbn [map verify_programs fst snd] in *.
  rewrite verify_standard, E4; [exact IH| |done|done]. rewrite E1. unfold signature_contract. by rewrite signature_contract_eq.
Qed.

Lemma available_ready c best assetID kc : wallet_ready c -> kc ∈ List.filter (available best assetID) (coins c) -> coin_ready c kc.
Proof.
  intros W Hk. apply list_elem_of_In, filter_In in Hk as [Hk Ha]. apply W; [by apply list_elem_of_In|].
  unfold available in Ha. rewrite !andb_true_iff in Ha. lia.
Qed.
Lemma sorted_amounts c best : wallet_ready c -> Forall (fun kc => amount (coin_Output kc.2)) (sortAvailableCoinsByValue best (coins c) SingleSign).
Proof.
  intros W. unfold sortAvailableCoinsByValue. rewrite sort_by_perm. apply list.Forall_forall. intros kc Hk. apply list_elem_of_In, filter_In in Hk as [Hk Ha].
  rewrite andb_true_iff in Ha. apply (W kc); [by apply list_elem_of_In|lia].
Qed.

(** C21: The transfer of a wallet whose coins are in the ledger.  When the coins of
    the asset that have matured are worth the outputs asked for and the fee,
    [MakeTransferTransaction] returns a transaction that spends some of them,
    each once, pays the outputs in the order asked for and what is left to the
    main account, leaves exactly the fee, and verifies; otherwise it reports
    that the tokens are not enough. *)
Theorem wallet_transfer (c : Client) (best nonce : Z) (assetID : Uint256) (fee : bytes) (txnfee : Z) (rs : list BatchOut)
    (outs : list TxOutput) (main : Account) :
  (forall d, length (ripemd160 d) = 20%nat) -> wallet_ready c -> GetDefaultAccount c = Some main ->
  StringToFixed64 fee = (txnfee, None) -> 0 < txnfee -> Forall2 (asks assetID) rs outs -> Forall amount outs -> txnfee + total outs < 2 ^ 63 ->
  let own := List.filter (available best assetID) (coins c) in
  if txnfee + total outs <=? worth own
  then exists tx sel change, MakeTransferTransaction ripemd160 sign best nonce c assetID fee rs = Ok (Some tx, None) /\
    sel ⊆+ own /\ UTXOInputs tx = map fst sel /\ Outputs tx = outs ++ change /\
    (change = [] \/ exists v, 0 < v /\ change = [mkOutput assetID v (ac_ProgramHash main)]) /\
    worth sel = total (Outputs tx) + txnfee /\ VerifySignableData ripemd160 tx = Ok (true, None)
  else MakeTransferTransaction ripemd160 sign best nonce c assetID fee rs = Ok (None, Some (NewError "available token is not enough")).
Proof.
  intros Hr W Em Ef Hf Hq Ha Hb own. pose proof (total_nonneg outs Ha) as Hn.
  pose proof (select_coins_spec assetID (fun coin => bool_decide (o_AssetID (coin_Output coin) = assetID)) (ac_ProgramHash main) _
    (sorted_amounts c best W) (txnfee + total outs) ltac:(lia)) as S. cbn beta zeta in S.
  assert (Ew : worth (List.filter (fun kc => bool_decide (o_AssetID (coin_Output kc.2) = assetID)) (sortAvailableCoinsByValue best (coins c) SingleSign)) = worth own).
  { unfold worth. by rewrite (Permutation_map _ (usable_sorted best c assetID)). }
  rewrite Ew in S. unfold MakeTransferTransaction, transfer_skeleton. rewrite Em, Ef. cbn [fmap option_fmap option_map is_err orb].
  rewrite (proj2 (Z.leb_gt txnfee 0)) by lia. rewrite (batch_outputs_spec assetID _ rs outs Hq Ha) by lia. cbn [mbind outcome_bind is_err].
  destruct (txnfee + total outs <=? worth own).
  - destruct S as (sel & change & E & Hp & Hsum & Hch). rewrite E. cbn [no_panic mbind outcome_bind Z.ltb Z.compare].
    fold (unsigned_transfer nonce sel (outs ++ change)).
    assert (Hsub : sel ⊆+ own). { unfold own. rewrite <- (usable_sorted best c assetID). destruct Hp as [k ->]. apply submseteq_inserts_r. done. }
    assert (F : Forall (coin_ready c) sel).
    { apply list.Forall_forall. intros kc Hk. apply (available_ready c best assetID); [done|]. eapply elem_of_submseteq; [exact Hk|exact Hsub]. }
    destruct (Tx_GetHashData (unsigned_transfer nonce sel (outs ++ change))) as [data|] eqn:Ed; [|discriminate Ed].
    destruct (signed_transfer_verifies c nonce sel (outs ++ change) data Hr F Ed) as (cxt & ps & Es & Ep & V). cbn [no_panic mbind outcome_bind].
    rewrite Es. cbn [no_panic mbind outcome_bind]. rewrite Ep. cbn [default id]. eexists _, sel, change. split; [reflexivity|].
    split; [done|]. split; [done|]. split; [done|]. split; [destruct Hch as [->|(v & Hv & ->)]; [by left|right; exists v; split; [lia|done]]|].
    split; [|exact V]. cbn [Outputs SetPrograms unsigned_transfer set_Attributes NewTransferAssetTransaction]. rewrite total_app. lia.
  - destruct S as (rest & E & Hrest). rewrite E. cbn [no_panic mbind outcome_bind]. by rewrite (proj2 (Z.ltb_lt 0 rest)).
Qed.
End Transfer.

(** ** A wallet with one coin *)

Definition own_key : bytes := repeat 2 33.
Definition own_hash : Uint160 := Eval vm_compute in c_ProgramHash (signature_contract sample_ripemd own_key).
Definition own_account : Account := mkAccount [1] (mkPubKey (Some 1) (Some 2)) own_hash.
Definition one_coin : UTXOTxInput * Coin := (mkInput (repeat 5 32) 0 0, mkCoin (mkOutput zero256 1000000000 own_hash) SingleSign 0).
Definition one_coin_wallet : Client :=
  mkClient [] [] own_hash {[ own_hash := own_account ]} {[ own_hash := signature_contract sample_ripemd own_key ]} [one_coin] 0 new_FileData None.
Definition one_coin_store : TxStore := fun h =>
  if bool_decide (h = repeat 5 32) then inl (set_Outputs new_Transaction [mkOutput zero256 1000000000 own_hash], 1) else inr (NewError "not found").
Definition repeat_key : bytes -> bytes -> option bytes := fun _ _ => Some (repeat 2 64).
Definition request : BatchOut := Eval vm_compute in mkBatchOut (fst (ToAddress (repeat 8 20))) (str "2.5").

Lemma one_coin_ready : wallet_ready (store := one_coin_store) (crypto := prefix_crypto) sample_ripemd repeat_key one_coin_wallet.
Proof.
  intros kc Hk _. apply elem_of_cons in Hk as [->|Hk]; [|by apply not_elem_of_nil in Hk]. split; [split; by vm_compute|]. split.
  - exists own_key. split; [done|]. split; [apply lookup_singleton_eq|]. split; [vm_compute; reflexivity|].
    exists own_account. split; [apply lookup_singleton_eq|]. intros data. exists (repeat 2 64). split; [done|]. split; [done|vm_compute; reflexivity].
  - exists (set_Outputs new_Transaction [mkOutput zero256 1000000000 own_hash]), 1. split; [vm_compute; reflexivity|done].
Qed.

Lemma wallet_transfer_witness : exists tx sel change,
  MakeTransferTransaction (H := one_coin_store) sample_ripemd repeat_key 0 77 one_coin_wallet zero256 (str "0.5") [request] = Ok (Some tx, None) /\
  sel ⊆+ [one_coin] /\ UTXOInputs tx = map fst sel /\ Outputs tx = [mkOutput zero256 250000000 (repeat 8 20)] ++ change /\
  (change = [] \/ exists v, 0 < v /\ change = [mkOutput zero256 v own_hash]) /\
  worth sel = total (Outputs tx) + 50000000 /\
  VerifySignableData (H := Transaction_SignableData (H := one_coin_store)) (crypto := prefix_crypto) sample_ripemd tx = Ok (true, None).
Proof.
  apply (wallet_transfer (store := one_coin_store) (crypto := prefix_crypto) sample_ripemd repeat_key one_coin_wallet 0 77 zero256 (str "0.5") 50000000 [request]
    [mkOutput zero256 250000000 (repeat 8 20)] own_account).
  - intros d. apply sample_ripemd_length.
  - exact one_coin_ready.
  - apply lookup_singleton_eq.
  - vm_compute. reflexivity.
  - reflexivity.
  - constructor; [|constructor]. split; [vm_compute; reflexivity|]. split; [vm_compute; reflexivity|reflexivity].
  - constructor; [split; by vm_compute|constructor].
  - vm_compute. reflexivity.
Defined.
