(* ===== verification/Signed.v ===== *)
(** Wallets that sign with [crypto.Sign]: the accounts of [account/account.go]
    have what [Transfer] asks of a wallet, when signatures are made and checked by the
    code of [Signing]. *)

From S2P Require Import Prelude Serialization Sha256 Common Vm PubKey Curve Signing Contract Wallet Transfer.

(** [crypto.Sign] as the wallet calls it. *)
Definition signer `{IRandom} (alg : AlgSet) (fuel : nat) (random : nat -> option bytes) (priKey data : bytes) : option bytes :=
  match crypto_Sign alg fuel random priKey data with Some (Ok (sg, None)) => Some sg | _ => None end.

Lemma length_EncodePoint x y key : EncodePoint (mkPubKey (Some x) (Some y)) true = Some (key, None) -> length key = 33%nat.
Proof.
  unfold EncodePoint, place. cbn [pk_X pk_Y mbind option_bind]. destruct (Nat.leb_spec (length (big_Bytes x)) COMPRESSEDLEN) as [Hl|]; [|done].
  cbn [mbind option_bind]. set (buf := _ ++ _). intros E. assert (key = (if isEven y then 2 else 3) :: drop 1 buf) as -> by congruence.
  unfold buf. cbn [length]. rewrite length_drop, !length_app, length_take, length_drop, length_replicate. unfold COMPRESSEDLEN in *. lia.
Qed.

(** C22: An account made of a private key signs for its program hash, whatever
    the data: with the contract of its encoded key in the wallet, a signature is
    made, has 64 bytes, and the virtual machine accepts it under the key; provided
    the encoding decodes to the key and for any data one of the first candidates
    drawn fits.  This is what the transfers of a wallet rely on. *)
Theorem account_signs `{IRandom} (RL : IRandomLaws) (alg : AlgSet) (c : Curve) (random : nat -> option bytes) (entropy : bytes)
    (fuel : nat) (ripemd160 : bytes -> bytes) (cl : Client) (priKey key : bytes) (primes : list Z) (ac : Account) :
  algSet alg = Some c -> CurveLaws c -> wf_bytes priKey ->
  0 < be_val priKey < (if SM2 =? AlgChoice alg then curveN c - 1 else curveN c) ->
  random (Z.to_nat (entropyLen (Params c))) = Some entropy ->
  (forall d, length (ripemd160 d) = 20%nat) ->
  NewAccountWithPrivatekey ripemd160 (base c) priKey = Some (Some ac, None) ->
  EncodePoint (ac_PublicKey ac) true = Some (key, None) ->
  DecodePoint (ecc_alg (Params c)) primes (Some key) = Ok (Some (ac_PublicKey ac), None) ->
  accounts cl !! ac_ProgramHash ac = Some ac -> contracts cl !! ac_ProgramHash ac = Some (signature_contract ripemd160 key) ->
  (forall data, exists n, (n < fuel)%nat /\ good_nonce alg c (be_val priKey) data (candidate alg c entropy priKey data n)) ->
  signs_for (H := ECDsaCrypto alg primes) ripemd160 (signer alg fuel random) cl (ac_ProgramHash ac) key.
Proof.
  intros Ec L Hw Hd He Hr Ha Ek Ed Hacc Hct Hg.
  unfold NewAccountWithPrivatekey in Ha. destruct (negb _ && negb _ && negb _); [discriminate|].
  unfold account_of, NewPubKey in Ha. destruct (base c (be_val priKey)) as [x y] eqn:Eb.
  assert (Ep : ac_PublicKey ac = public_key c priKey /\ PrivateKey ac = priKey /\ ac_ProgramHash ac = c_ProgramHash (signature_contract ripemd160 key)).
  { unfold signature_script in Ha. destruct (EncodePoint (mkPubKey (Some x) (Some y)) true) as [[k e]|] eqn:E1; [|discriminate].
    cbn [mbind option_bind] in Ha. destruct e; cbn [is_err] in Ha; [discriminate|].
    destruct (ToCodeHash ripemd160 (CreateSignatureRedeemScript k)) as [h e] eqn:Eh. destruct e; cbn [is_err] in Ha; [discriminate|].
    injection Ha as <-. cbn in *. unfold public_key. rewrite Eb. rewrite E1 in Ek. injection Ek as ->. split; [done|]. split; [done|].
    unfold signature_contract. rewrite signature_contract_eq by done. cbn. by rewrite Eh. }
  destruct Ep as (Ep & Epr & Eh). rewrite Ep in *. split.
  { unfold public_key in Ek. by apply length_EncodePoint in Ek. }
  split; [done|]. split; [done|]. exists ac. split; [done|]. intros data. rewrite Epr. destruct (Hg data) as (n & Hn & Hgn).
  destruct (sign_accepts RL alg c random entropy priKey data n fuel) as (sg & Es & Hl & _ & Hv); [done..|].
  exists sg. unfold signer. rewrite Es. split; [done|]. split; [done|]. by apply Hv.
Qed.

(** On the small group one of the candidates 1 and 2 fits, whatever the data. *)
Definition two : bytes := be_bytes 32 2.
Lemma two_signs data : exists n, (n < 2)%nat /\
  good_nonce (sample_alg P256R1) toy_curve (be_val two) data (candidate (H := sample_random) (sample_alg P256R1) toy_curve (replicate 16 7) two data n).
Proof.
  unfold good_nonce, candidate. change (SM2 =? AlgChoice (sample_alg P256R1)) with false. cbn iota.
  cbn [ctr_read sample_random]. unfold ecdsa_randFieldElement. change (curveN toy_curve) with 5.
  set (e := ecdsa_hashToInt toy_curve (sha256 data)). replace (be_val two) with 2 by (vm_compute; reflexivity).
  assert (E1 : (base toy_curve 1).1 mod 5 = 2) by (vm_compute; reflexivity).
  assert (E2 : (base toy_curve 2).1 mod 5 = 1) by (vm_compute; reflexivity).
  destruct (Z.eq_dec ((2 * 2 + e) mod 5) 0) as [H|H].
  - exists 1%nat. split; [lia|]. change (be_val [Z.of_nat 1] mod (5 - 1) + 1) with 2. rewrite E2. split; [lia|]. zlia.
  - exists 0%nat. split; [lia|]. change (be_val [Z.of_nat 0] mod (5 - 1) + 1) with 1. rewrite E1. split; [lia|exact H].
Qed.

Definition sample_account : Account := Eval vm_compute in
  match NewAccountWithPrivatekey sample_ripemd (base toy_curve) two with Some (Some a, _) => a | _ => mkAccount [] (mkPubKey None None) [] end.
Definition sample_key : bytes := Eval vm_compute in match EncodePoint (ac_PublicKey sample_account) true with Some (k, _) => k | None => [] end.
Definition sample_wallet : Client :=
  mkClient [] [] (ac_ProgramHash sample_account) {[ ac_ProgramHash sample_account := sample_account ]}
    {[ ac_ProgramHash sample_account := signature_contract sample_ripemd sample_key ]} [] 0 new_FileData None.

Lemma account_signs_witness :
  signs_for (H := ECDsaCrypto (sample_alg P256R1) []) sample_ripemd (signer (H := sample_random) (sample_alg P256R1) 2 sample_bytes)
    sample_wallet (ac_ProgramHash sample_account) sample_key.
Proof.
  assert (RL : @IRandomLaws sample_random) by (intros b; reflexivity).
  assert (Ea : NewAccountWithPrivatekey sample_ripemd (base toy_curve) two = Some (Some sample_account, None)) by (vm_compute; reflexivity).
  assert (Ek : EncodePoint (ac_PublicKey sample_account) true = Some (sample_key, None)) by (vm_compute; reflexivity).
  assert (Ed : DecodePoint (ecc_alg (Params toy_curve)) [] (Some sample_key) = Ok (Some (ac_PublicKey sample_account), None)) by (vm_compute; reflexivity).
  apply (account_signs (H := sample_random) RL (sample_alg P256R1) toy_curve sample_bytes (replicate 16 7) 2 sample_ripemd sample_wallet two sample_key [] sample_account
    eq_refl toy_laws (wf_be_bytes 32 2) (conj eq_refl eq_refl) eq_refl sample_ripemd_length Ea Ek Ed).
  - apply lookup_singleton_eq.
  - apply lookup_singleton_eq.
  - exact two_signs.
Defined.
