(* ===== verification/WalletFile.v ===== *)
(** The wallet file: what the operations of a wallet write is what opening the
    file reads back. *)

From S2P Require Import Prelude Sha256 Serialization Common Fixed64 Transaction Merkle AuxPow Block.
From S2P Require Import Store Utxo Vm Address PubKey Contract Message Peers Validator Wallet WalletCoins.

(** * Encryption *)

Section Cbc.
Context `{IAesLaws}.

Lemma xor_bytes_involutive a : forall b, length a = length b -> xor_bytes (xor_bytes a b) b = a.
Proof.
  induction a as [|x a IH]; intros [|y b] Hl; [done|done|done|]. cbn. f_equal; [|by apply IH; injection Hl].
  rewrite Z.lxor_assoc, Z.lxor_nilpotent. apply Z.lxor_0_r.
Qed.
Lemma length_xor_bytes a b : length a = length b -> length (xor_bytes a b) = length a.
Proof. intros E. unfold xor_bytes. rewrite length_zip_with. lia. Qed.
Lemma wf_byte_lxor x y : wf_byte x -> wf_byte y -> wf_byte (Z.lxor x y).
Proof.
  unfold wf_byte. intros Hx Hy. assert (0 <= Z.lxor x y) by (apply Z.lxor_nonneg; lia). split; [done|].
  destruct (Z.eq_dec (Z.lxor x y) 0) as [->|N]; [lia|]. apply (Z.log2_lt_pow2 _ 8); [lia|].
  pose proof (Z.log2_lxor x y ltac:(lia) ltac:(lia)).
  assert (forall v, 0 <= v < 256 -> Z.log2 v < 8) as L.
  { intros v Hv. destruct (Z.eq_dec v 0) as [->|]; [done|]. apply Z.log2_lt_pow2; [lia|]. change (2 ^ 8) with 256. lia. }
  pose proof (L x Hx). pose proof (L y Hy). lia.
Qed.
Lemma wf_xor_bytes a : forall b, wf_bytes a -> wf_bytes b -> wf_bytes (xor_bytes a b).
Proof.
  induction a as [|x a IH]; intros [|y b] Ha Hb; [constructor|constructor|constructor|].
  apply list.Forall_cons in Ha as [Hx Ha], Hb as [Hy Hb]. constructor; [by apply wf_byte_lxor|by apply IH].
Qed.

Lemma cbc_roundtrip key n : aes_key key = true -> forall iv src, length iv = 16%nat -> wf_bytes iv -> length src = (16 * n)%nat -> wf_bytes src ->
  exists c, cbc_encrypt n key iv src = Some c /\ length c = (16 * n)%nat /\ wf_bytes c /\ cbc_decrypt n key iv c = Some src.
Proof.
  intros Hk. induction n as [|n IH]; intros iv src Li Wi Ls Ws; cbn [cbc_encrypt cbc_decrypt].
  { exists []. destruct src; [|done]. split; [done|]. split; [done|]. split; [constructor|done]. }
  assert (Lt : length (take 16 src) = 16%nat) by (rewrite length_take; lia).
  destruct (aes_roundtrip key (xor_bytes (take 16 src) iv) Hk) as (c & Ec & Lc & Wc & Ed).
  { rewrite length_xor_bytes; [done|lia]. }
  { apply wf_xor_bytes; [|done]. by apply list.Forall_take. }
  destruct (IH c (drop 16 src) Lc Wc) as (rest & Er & Lr & Wr & Edr); [rewrite length_drop; lia|by apply list.Forall_drop|].
  exists (c ++ rest). rewrite Ec. cbn [mbind option_bind]. rewrite Er. split; [done|]. split; [rewrite length_app; lia|].
  split; [by apply Forall_app|]. rewrite <- Lc at 1. rewrite take_app_length, Ed. cbn [mbind option_bind].
  replace (take 16 (c ++ rest)) with c by (by rewrite take_app_length'). replace (drop 16 (c ++ rest)) with rest by (by rewrite drop_app_length').
  rewrite Edr. cbn [mbind option_bind]. rewrite xor_bytes_involutive by lia. by rewrite take_drop.
Qed.

(** [enc] is [p] encrypted. *)
Record seals (key iv p enc : bytes) : Prop := {
  se_encrypt : AesEncrypt p key iv = Some (enc, None); se_decrypt : AesDecrypt enc key iv = Some (p, None);
  se_length : length enc = length p; se_wf : wf_bytes enc }.
Lemma seals_total key iv p n : aes_key key = true -> length iv = 16%nat -> wf_bytes iv -> length p = (16 * S n)%nat -> wf_bytes p ->
  exists enc, seals key iv p enc.
Proof.
  intros Hk Li Wi Lp Wp. destruct (cbc_roundtrip key (S n) Hk iv p Li Wi Lp Wp) as (c & E & Lc & Wc & D). exists c.
  assert (Ed : (16 * S n / 16 = S n)%nat) by (rewrite Nat.mul_comm; apply Nat.div_mul; lia).
  assert (Em : (16 * S n mod 16 = 0)%nat) by (rewrite Nat.mul_comm; apply Nat.Div0.mod_mul).
  split; [| |lia|done].
  - unfold AesEncrypt. rewrite Hk, Li, Lp, Em, Ed. cbn [negb Nat.eqb orb]. by rewrite E.
  - unfold AesDecrypt. rewrite Hk, Li, Lc, Em, Ed. cbn [negb Nat.eqb]. destruct (Nat.ltb_spec (16 * S n) 16); [lia|]. by rewrite D.
Qed.
End Cbc.

(** * Text *)

Lemma hex_value_digit d : 0 <= d < 16 -> hex_value (to_hex_digit d) = Some d.
Proof.
  intros Hd. unfold to_hex_digit, hex_value. destruct (Z.ltb_spec d 10).
  - rewrite !(proj2 (Z.leb_le _ _)) by lia. cbn [andb]. f_equal. lia.
  - rewrite (proj2 (Z.leb_gt (87 + d) 57)) by lia. rewrite andb_false_r, !(proj2 (Z.leb_le _ _)) by lia. cbn [andb]. f_equal. lia.
Qed.
Lemma hex_roundtrip b : wf_bytes b -> HexStringToBytes (BytesToHexString b) = (b, None).
Proof.
  unfold HexStringToBytes, BytesToHexString. induction 1 as [|x b Hx _ IH]; [done|]. unfold wf_byte in Hx. cbn [map concat app hex_DecodeString].
  pose proof (Z.div_mod x 16 ltac:(lia)). pose proof (Z.mod_pos_bound x 16 ltac:(lia)).
  rewrite !hex_value_digit by (done || (split; [apply Z.div_pos; lia|apply Z.div_lt_upper_bound; lia])). rewrite IH. f_equal. f_equal. lia.
Qed.

(** * Coins *)

Definition wf_coin (kc : UTXOTxInput * Coin) : Prop :=
  wf_Input kc.1 /\ wf_Output (coin_Output kc.2) /\ inU 8 (AddressType kc.2) /\ inU 32 (coin_Height kc.2).

Lemma Coin_reads c : wf_Output (coin_Output c) -> inU 8 (AddressType c) -> inU 32 (coin_Height c) -> reads any_tail Coin_Deserialize (Coin_Serialize c) c.
Proof.
  intros Wo Wt Wh k rest _. unfold Coin_Deserialize, Coin_Serialize. rewrite <- !app_assoc.
  erewrite (rd_field any_tail) by (done || by apply Output_reads). cbn iota beta.
  change [AddressType c] with (WriteUint8 (AddressType c)). erewrite (rd_field any_tail) by (done || by apply ReadUint8_reads). cbn iota beta.
  erewrite (rd_field any_tail) by (done || by apply ReadUint32_reads). cbn iota beta. by destruct c.
Qed.
Lemma read_coins_reads cs : Forall wf_coin cs -> forall acc k rest,
  read_coins (length cs) acc (mkReader k (concat (map (fun kc => UTXOTxInput_Serialize kc.1 ++ Coin_Serialize kc.2) cs) ++ rest)) =
    Some ((acc ++ cs, None), mkReader k rest).
Proof.
  induction 1 as [|[i c] cs (Wi & Wo & Wt & Wh) _ IH]; intros acc k rest; cbn [length read_coins map concat]; [by rewrite app_nil_r|].
  rewrite <- !app_assoc. erewrite (rd_field any_tail) by (done || by apply Input_reads). cbn iota beta.
  erewrite (rd_field any_tail) by (done || by apply Coin_reads). cbn iota beta. rewrite IH. by rewrite <- app_assoc.
Qed.
Lemma wf_WriteUint32 v : wf_bytes (WriteUint32 v).
Proof. apply wf_le_bytes. Qed.

Definition coins_text (cs : list (UTXOTxInput * Coin)) : bytes := if uint32 (Z.of_nat (length cs)) =? 0 then [] else BytesToHexString (coins_bytes cs).

Lemma wf_concat_map {A} (f : A -> bytes) l : (forall x, x ∈ l -> wf_bytes (f x)) -> wf_bytes (concat (map f l)).
Proof.
  induction l as [|x l IH]; intros Hf; cbn [map concat]; [constructor|]. apply Forall_app. split; [apply Hf; by left|].
  apply IH. intros y Hy. apply Hf. by right.
Qed.
Lemma wf_coin_bytes kc : wf_coin kc -> wf_bytes (UTXOTxInput_Serialize kc.1 ++ Coin_Serialize kc.2).
Proof.
  intros (([_ Wi] & _ & _) & ([_ Wa] & _ & [_ Wp]) & Wt & _). unfold UTXOTxInput_Serialize, Coin_Serialize, TxOutput_Serialize, Uint_Serialize, Fixed64_Serialize.
  unfold wf_bytes. rewrite !Forall_app. split_and!; try done; try apply wf_le_bytes. constructor; [exact Wt|constructor].
Qed.
Lemma coins_of_text cs : Forall wf_coin cs -> Z.of_nat (length cs) < 2 ^ 32 -> coins_of (coins_text cs) = Some (cs, None).
Proof.
  intros W Hl. unfold coins_of, coins_text. rewrite (wrapU_id 32) by lia. destruct (Z.eqb_spec (Z.of_nat (length cs)) 0) as [E|E].
  { destruct cs; [reflexivity|cbn in E; lia]. }
  rewrite hex_roundtrip; [cbn [fst]|].
  - unfold coins_bytes. rewrite (wrapU_id 32) by lia.
    erewrite (rd_field any_tail) by (done || apply ReadUint32_reads; lia). cbn iota beta. rewrite Nat2Z.id.
    pose proof (read_coins_reads cs W [] BytesReader []) as R. rewrite app_nil_r in R. rewrite R. done.
  - unfold coins_bytes. apply Forall_app. split; [apply wf_le_bytes|]. apply wf_concat_map. intros kc Hk. apply wf_coin_bytes.
    rewrite list.Forall_forall in W. by apply W.
Qed.

(** * Contracts *)

Definition small (b : bytes) : Prop := b <> [] /\ Z.of_nat (length b) <= maxAlloc /\ wf_bytes b.
(** A contract that survives being written. *)
Definition wf_contract (ct : Contract) : Prop :=
  wf_u160 (c_ProgramHash ct) /\ wf_u160 (c_OwnerPubkeyHash ct) /\ small (c_Parameters ct) /\ small (c_Code ct).

Definition contract_entry (ct : Contract) : ContractData :=
  mkContractData (BytesToHexString (c_ProgramHash ct)) (BytesToHexString (Contract_Serialize ct)).

Lemma wf_WriteVarBytes b : wf_bytes b -> wf_bytes (WriteVarBytes b).
Proof.
  intros Wb. unfold WriteVarBytes. apply Forall_app. split; [|done]. unfold WriteVarUint.
  repeat case_match; (constructor; [|apply wf_le_bytes || constructor]); (unfold wf_byte; lia) || (apply (wrapU_range 8); lia).
Qed.
Lemma Contract_reads ct c0 : wf_contract ct -> Contract_Deserialize c0 (mkReader BytesReader (Contract_Serialize ct)) =
  Some ((mkContract (c_Code ct) (c_Parameters ct) (c_ProgramHash c0) (c_OwnerPubkeyHash ct), None), mkReader BytesReader []).
Proof.
  intros (_ & Wo & (Np & Lp & _) & (Nc & Lc & _)). unfold Contract_Deserialize, Contract_Serialize.
  erewrite (rd_field any_tail) by (done || by apply Uint160_Deserialize_reads). cbn iota beta zeta.
  pose proof (ReadVarBytes_reads _ Lp) as Rp. rewrite decide_False in Rp by done.
  pose proof (ReadVarBytes_reads _ Lc) as Rc. rewrite decide_False in Rc by done.
  erewrite (rd_field any_tail) by done. cbn iota beta zeta.
  rewrite <- (app_nil_r (WriteVarBytes (c_Code ct))). erewrite (rd_field any_tail) by done. done.
Qed.
Lemma Uint160Parse_ok u : wf_u160 u -> Uint160ParseFromBytes u = (u, None).
Proof. intros [L _]. unfold Uint160ParseFromBytes. by rewrite L. Qed.

Definition contracts_of (cts : list Contract) : gmap Uint160 Contract := foldl (fun m ct => <[c_ProgramHash ct := ct]> m) ∅ cts.
Lemma load_contracts_spec cts : Forall wf_contract cts -> forall m c,
  load_contracts (map contract_entry cts) m c = Ok (c, inl (foldl (fun m ct => <[c_ProgramHash ct := ct]> m) m cts)).
Proof.
  induction 1 as [|ct cts W _ IH]; intros m c; cbn [map load_contracts foldl]; [done|].
  pose proof W as (Wh & [_ Wo] & (_ & _ & Wp) & (_ & _ & Wc)). cbn [contract_entry cd_RawData cd_ProgramHash].
  rewrite (hex_roundtrip (Contract_Serialize ct)) by (unfold Contract_Serialize, Uint_Serialize, wf_bytes; rewrite !Forall_app; split_and!; [done|by apply wf_WriteVarBytes|by apply wf_WriteVarBytes]).
  cbn [fst]. rewrite Contract_reads by done. unfold mbind at 1, wM_bind at 1, w_need. cbn iota beta zeta.
  rewrite hex_roundtrip by apply Wh. cbn [fst]. rewrite Uint160Parse_ok by done. cbn [fst c_Code c_Parameters c_OwnerPubkeyHash]. rewrite IH.
  by destruct ct.
Qed.

(** * Deleting entries *)

Section Delete.
Context {A : Type} (hit keep : A -> bool).

Lemma delete_loop_skip l1 : Forall (fun a => hit a = false) l1 -> forall turns pre r len,
  delete_loop (length l1 + turns) (length pre) hit keep (pre ++ l1 ++ r) len = delete_loop turns (length (pre ++ l1)) hit keep (pre ++ l1 ++ r) len.
Proof.
  induction 1 as [|a l1 Ha _ IH]; intros turns pre r len; cbn [length Nat.add app delete_loop]; [by rewrite app_nil_r|].
  rewrite lookup_app_r, Nat.sub_diag by lia. cbn [lookup list_lookup]. rewrite Ha.
  pose proof (IH turns (pre ++ [a]) r len) as IHa. rewrite length_app, Nat.add_1_r, <- !app_assoc in IHa. exact IHa.
Qed.
Lemma delete_loop_hit l1 a l2 turns : hit a = true -> keep a = false ->
  delete_loop (S turns) (length l1) hit keep (l1 ++ a :: l2) (length (l1 ++ a :: l2)) =
  delete_loop turns (S (length l1)) hit keep (l1 ++ l2 ++ drop (length l2) (a :: l2)) (length (l1 ++ l2)).
Proof.
  intros Ha Hk. cbn [delete_loop]. rewrite lookup_app_r, Nat.sub_diag by lia. cbn [lookup list_lookup]. rewrite Ha, Hk.
  rewrite length_app. cbn [length]. destruct (Nat.ltb_spec (length l1 + S (length l2)) (S (length l1))); [lia|].
  rewrite take_app_length. assert (Ed : drop (S (length l1)) (l1 ++ a :: l2) = l2) by (by rewrite <- Nat.add_1_r, drop_app_add).
  rewrite Ed, take_ge by lia. replace (length l1 + S (length l2) - 1)%nat with (length l1 + length l2)%nat by lia.
  rewrite drop_app_add, length_app. done.
Qed.

Lemma delete_loop_none turns : forall i arr len, (forall k x, (i <= k < i + turns)%nat -> arr !! k = Some x -> hit x = false) -> (i + turns <= length arr)%nat ->
  delete_loop turns i hit keep arr len = Ok (arr, len, false).
Proof.
  induction turns as [|turns IH]; intros i arr len Hh Hl; cbn [delete_loop]; [done|].
  destruct (arr !! i) as [v|] eqn:E; [|apply lookup_ge_None_1 in E; lia]. rewrite (Hh i v) by (done || lia).
  apply IH; [|lia]. intros k x Hk. apply Hh. lia.
Qed.

(** An entry that occurs once is removed, or ends the loop when it is to be
    kept; of two equal entries at the end the second is met out of range. *)
Lemma delete_all_once l1 a l2 : Forall (fun a => hit a = false) l1 -> Forall (fun a => hit a = false) l2 -> hit a = true ->
  delete_all hit keep (l1 ++ a :: l2) = Ok (if keep a then (l1 ++ a :: l2, true) else (l1 ++ l2, false)).
Proof.
  intros H1 H2 Ha. unfold delete_all. pose proof (delete_loop_skip l1 H1 (S (length l2)) [] (a :: l2) (length (l1 ++ a :: l2))) as E.
  cbn [app length] in E. replace (length (l1 ++ a :: l2)) with (length l1 + S (length l2))%nat in E |- * by (rewrite length_app; done). rewrite E.
  replace (length l1 + S (length l2))%nat with (length (l1 ++ a :: l2)) by (rewrite length_app; done). destruct (keep a) eqn:Hk.
  - cbn [delete_loop]. rewrite lookup_app_r, Nat.sub_diag by lia. cbn [lookup list_lookup]. rewrite Ha, Hk. by rewrite firstn_all.
  - rewrite delete_loop_hit by done. set (arr := l1 ++ l2 ++ drop (length l2) (a :: l2)).
    assert (La : length arr = S (length l1 + length l2)) by (unfold arr; rewrite !length_app, length_drop; cbn [length]; lia).
    rewrite delete_loop_none; [|intros k x Hi Hx|lia]; [unfold arr; by rewrite app_assoc, take_app_length|].
    unfold arr in Hx. rewrite lookup_app_r in Hx by lia. apply list_elem_of_lookup_2, elem_of_app in Hx. rewrite list.Forall_forall in H2.
    destruct l2 as [|y l2]; [cbn in Hi; lia|apply H2; destruct Hx as [Hx|Hx]; [done|]; cbn [length drop] in Hx; exact (subseteq_drop _ _ _ Hx)].
Qed.
Lemma delete_all_twice l1 a b : Forall (fun a => hit a = false) l1 -> hit a = true -> hit b = true -> keep a = false -> keep b = false ->
  delete_all hit keep (l1 ++ [a; b]) = Panic.
Proof.
  intros H1 Ha Hb Ka Kb. unfold delete_all. pose proof (delete_loop_skip l1 H1 2 [] [a; b] (length (l1 ++ [a; b]))) as E. cbn [app length] in E.
  replace (length (l1 ++ [a; b])) with (length l1 + 2)%nat in E |- * by (rewrite length_app; done). rewrite E.
  replace (length l1 + 2)%nat with (length (l1 ++ [a; b])) by (rewrite length_app; done). rewrite delete_loop_hit by done. cbn [length drop app delete_loop].
  replace (l1 ++ [b; b]) with ((l1 ++ [b]) ++ [b]) by (by rewrite <- app_assoc). rewrite lookup_app_r by (rewrite length_app; cbn; lia).
  rewrite length_app. cbn [length]. replace (S (length l1) - (length l1 + 1))%nat with 0%nat by lia. cbn [lookup list_lookup]. rewrite Hb, Kb.
  destruct (Nat.ltb_spec (length l1 + 1) (S (S (length l1)))); [done|lia].
Qed.
End Delete.

(** Entries that occur at most once. *)
Lemma at_most_one {A} (p : A -> bool) l : (length (List.filter p l) <= 1)%nat ->
  Forall (fun a => p a = false) l \/
  exists l1 a l2, l = l1 ++ a :: l2 /\ p a = true /\ Forall (fun a => p a = false) l1 /\ Forall (fun a => p a = false) l2.
Proof.
  assert (N : forall l, length (List.filter p l) = 0%nat -> Forall (fun a => p a = false) l).
  { clear. intros l. induction l as [|x l IH]; cbn [List.filter]; [constructor|]. destruct (p x) eqn:E; [done|]. intros L. constructor; [done|by apply IH]. }
  induction l as [|x l IH]; cbn [List.filter]; [by left|]. destruct (p x) eqn:E; cbn [length]; intros L.
  - right. exists [], x, l. split_and!; [done|done|constructor|]. apply N. lia.
  - destruct (IH L) as [F|(l1 & a & l2 & -> & Ha & F1 & F2)]; [left; by constructor|].
    right. exists (x :: l1), a, l2. split_and!; [done|done|by constructor|done].
Qed.
Lemma delete_all_none {A} (hit keep : A -> bool) l : Forall (fun a => hit a = false) l -> delete_all hit keep l = Ok (l, false).
Proof.
  intros F. unfold delete_all. rewrite delete_loop_none; [by rewrite firstn_all| |lia].
  intros k x _ Hx. rewrite list.Forall_forall in F. apply F. by eapply list_elem_of_lookup_2.
Qed.

(** The map a list of entries is loaded into. *)
Section Loaded.
Context {A : Type} (key : A -> Uint160).
Abbreviation load := (foldl (fun (m : gmap Uint160 A) a => <[key a := a]> m)).
Lemma load_delete k l : Forall (fun a => key a <> k) l -> forall m, delete k (load m l) = load (delete k m) l.
Proof.
  induction 1 as [|a l Ha _ IH]; intros m; [done|]. cbn [foldl]. rewrite IH. f_equal. by rewrite delete_insert_ne.
Qed.
Lemma load_delete_none k l : Forall (fun a => key a <> k) l -> delete k (load ∅ l) = load ∅ l.
Proof. intros F. rewrite load_delete by done. by rewrite delete_empty. Qed.
Lemma load_delete_once l1 a l2 : Forall (fun b => key b <> key a) l1 -> Forall (fun b => key b <> key a) l2 ->
  delete (key a) (load ∅ (l1 ++ a :: l2)) = load ∅ (l1 ++ l2).
Proof.
  intros F1 F2. rewrite !foldl_app. cbn [foldl]. rewrite load_delete by done. f_equal. rewrite delete_insert_eq. by apply load_delete_none.
Qed.
Lemma load_is_Some k l : forall m, is_Some (m !! k) -> is_Some (load m l !! k).
Proof.
  induction l as [|a l IH]; intros m Hm; [done|]. cbn [foldl]. apply IH. destruct (decide (key a = k)) as [<-|N].
  - rewrite lookup_insert_eq. eauto.
  - by rewrite lookup_insert_ne.
Qed.
End Loaded.

(** * Accounts *)

Section Accounts.
Context `{IAesLaws} `{IBase58Laws} (ripemd160 : bytes -> bytes) (ScalarBaseMult : Z -> Z * Z).

(** A private key with its leading zeros: [GenKeyPair] drops them and the file
    has 32 bytes for it. *)
Definition pad32 (key : bytes) : bytes := replicate (32 - length key) 0 ++ key.
Definition padded (ac : Account) : Account := mkAccount (pad32 (PrivateKey ac)) (ac_PublicKey ac) (ac_ProgramHash ac).

Lemma length_pad32 key : (length key <= 32)%nat -> length (pad32 key) = 32%nat.
Proof. intros L. unfold pad32. rewrite length_app, length_replicate. lia. Qed.
Lemma wf_pad32 key : wf_bytes key -> wf_bytes (pad32 key).
Proof. intros W. apply Forall_app. split; [|done]. apply Forall_replicate. unfold wf_byte. lia. Qed.
Lemma pad32_full key : length key = 32%nat -> pad32 key = key.
Proof. intros L. unfold pad32. by rewrite L. Qed.
Lemma be_val_pad32 key : be_val (pad32 key) = be_val key.
Proof.
  unfold be_val, pad32. rewrite reverse_app, reverse_replicate. induction (reverse key) as [|x l IH]; cbn [app le_val].
  - induction (32 - length key)%nat as [|n IH]; [done|]. cbn [replicate le_val]. by rewrite IH.
  - by rewrite IH.
Qed.
Lemma padded_idem ac : (length (PrivateKey ac) <= 32)%nat -> padded (padded ac) = padded ac.
Proof. intros L. unfold padded. cbn [PrivateKey ac_PublicKey ac_ProgramHash]. rewrite (pad32_full (pad32 _)); [done|by apply length_pad32]. Qed.

(** An account made from a key of at most 32 bytes whose point is one of the
    curve. *)
Record wf_account (ac : Account) : Prop := {
  wa_length : (length (PrivateKey ac) <= 32)%nat; wa_wf : wf_bytes (PrivateKey ac); wa_hash : wf_u160 (ac_ProgramHash ac);
  wa_point : exists x y, ac_PublicKey ac = mkPubKey (Some x) (Some y) /\ 0 <= x < 2 ^ 256 /\ 0 <= y < 2 ^ 256;
  wa_made : NewAccountWithPrivatekey ripemd160 ScalarBaseMult (PrivateKey (padded ac)) = Some (Some (padded ac), None) }.
Lemma wf_padded ac : wf_account ac -> wf_account (padded ac).
Proof.
  intros [L W Hh Hp M]. split; [by apply Nat.eq_le_incl, length_pad32|by apply wf_pad32|done|done|].
  rewrite padded_idem by done. exact M.
Qed.

(** An entry of the file that stands for an account. *)
Definition account_entry (iv mk ty : bytes) (a : AccountData) (ac : Account) : Prop :=
  ad_Type a = ty /\ ad_ProgramHash a = BytesToHexString (ac_ProgramHash ac) /\
  exists pair enc, ad_PrivateKeyEncrypted a = BytesToHexString enc /\ seals mk iv pair enc /\ length pair = 96%nat /\ drop 64 pair = pad32 (PrivateKey ac).

Definition add_account (m : gmap Uint160 Account) (ac : Account) : gmap Uint160 Account := <[ac_ProgramHash ac := ac]> m.

Lemma foldl_padded acs : forall m, foldl add_account (padded <$> m) (map padded acs) = padded <$> foldl add_account m acs.
Proof.
  induction acs as [|ac acs IH]; intros m; [done|]. cbn [map foldl]. rewrite <- IH. f_equal. unfold add_account. by rewrite fmap_insert.
Qed.

Lemma load_account_turn ty a ac l m c : wf_account ac -> account_entry (cl_iv c) (cl_masterKey c) ty a ac ->
  load_accounts ripemd160 ScalarBaseMult (a :: l) m c =
  load_accounts ripemd160 ScalarBaseMult l (add_account m (padded ac)) (if bool_decide (ty = MAINACCOUNT) then set_mainAccount (ac_ProgramHash ac) c else c).
Proof.
  intros W (Et & Eh & pair & enc & Ee & S & Lp & Ed). cbn [load_accounts]. rewrite Et, Eh, Ee.
  rewrite (hex_roundtrip (ac_ProgramHash ac)) by apply W. cbn [fst]. rewrite Uint160Parse_ok by apply W. cbn [fst].
  rewrite (hex_roundtrip enc) by apply S. cbn [fst].
  set (c' := if bool_decide (ty = MAINACCOUNT) then set_mainAccount (ac_ProgramHash ac) c else c).
  assert (Ec : (if bool_decide (ty = MAINACCOUNT) then w_upd (set_mainAccount (ac_ProgramHash ac)) else mret tt) c = Ok (c', inl tt)).
  { unfold c'. by case_bool_decide. }
  unfold mbind at 1, wM_bind at 1. rewrite Ec.
  assert (Edk : DecryptPrivateKey enc c' = Ok (c', inl pair)).
  { unfold DecryptPrivateKey. rewrite (se_length _ _ _ _ S), Lp. cbn [Nat.eqb negb]. unfold mbind, wM_bind, w_get, w_need, id.
    replace (cl_masterKey c') with (cl_masterKey c) by (unfold c'; by case_bool_decide). replace (cl_iv c') with (cl_iv c) by (unfold c'; by case_bool_decide).
    by rewrite (se_decrypt _ _ _ _ S). }
  rewrite (w_try_run _ _ _ _ _ Edk). unfold mbind at 1, wM_bind at 1, slice. rewrite Lp. cbn [Nat.leb andb w_need].
  rewrite Ed, take_ge by (rewrite length_pad32 by apply W; lia). unfold mbind at 1, wM_bind at 1.
  change (pad32 (PrivateKey ac)) with (PrivateKey (padded ac)). rewrite (wa_made _ W). cbn iota beta.
  unfold mbind at 1, wM_bind at 1, w_need. reflexivity.
Qed.

Lemma load_sub_accounts c l acs : Forall wf_account acs -> Forall2 (account_entry (cl_iv c) (cl_masterKey c) SUBACCOUNT) l acs -> forall m,
  load_accounts ripemd160 ScalarBaseMult l m c = Ok (c, inl (foldl add_account m (map padded acs))).
Proof.
  intros W F. induction F as [|a ac l acs Ha _ IH]; intros m; [done|]. apply list.Forall_cons in W as [Wa W].
  rewrite (load_account_turn SUBACCOUNT a ac) by done. cbn [map foldl]. rewrite bool_decide_eq_false_2 by done. by apply IH.
Qed.

(** * The file of a wallet *)

(** The types of the entries: the first is the main account. *)
Definition entries (iv mk : bytes) (l : list AccountData) (acs : list Account) : Prop :=
  match l, acs with
  | [], [] => True
  | a :: l, ac :: acs => account_entry iv mk MAINACCOUNT a ac /\ Forall2 (account_entry iv mk SUBACCOUNT) l acs
  | _, _ => False
  end.

(** The file holds the wallet, under the password [pwd]. *)
Record stored (pwd : bytes) (c : Client) (acs : list Account) (cts : list Contract) : Prop := {
  st_iv : length (cl_iv c) = 16%nat /\ wf_bytes (cl_iv c);
  st_mk : length (cl_masterKey c) = 32%nat /\ wf_bytes (cl_masterKey c);
  st_file : fs_file c = Some (fs_data c);
  st_password : fd_PasswordHash (fs_data c) = BytesToHexString (sha256 (ToAesKey pwd));
  st_IV : fd_IV (fs_data c) = BytesToHexString (cl_iv c);
  st_master : exists enc, fd_MasterKey (fs_data c) = BytesToHexString enc /\ seals (ToAesKey pwd) (cl_iv c) (cl_masterKey c) enc;
  st_height : fd_Height (fs_data c) = currentHeight c /\ inS 32 (currentHeight c);
  st_wf_accounts : Forall wf_account acs;
  st_entries : entries (cl_iv c) (cl_masterKey c) (fd_Account (fs_data c)) acs;
  st_accounts : accounts c = foldl add_account ∅ acs;
  st_wf_contracts : Forall wf_contract cts;
  st_contract_entries : fd_Contract (fs_data c) = map contract_entry cts;
  st_contracts : contracts c = contracts_of cts;
  st_coins : fd_Coins (fs_data c) = coins_text (coins c);
  st_wf_coins : Forall wf_coin (coins c) /\ Z.of_nat (length (coins c)) < 2 ^ 32 }.
(** The wallet is in its file, and [main] is the account the file calls the
    main one. *)
Definition saved (pwd : bytes) (main : Uint160) (c : Client) : Prop :=
  exists ac acs cts, stored pwd c (ac :: acs) cts /\ main = ac_ProgramHash ac.
(** The wallet as opening its file makes it. *)
Definition reopened (main : Uint160) (c : Client) : Client := set_accounts (padded <$> accounts c) (set_mainAccount main c).

Lemma hex_field c b : wf_bytes b -> w_ok (HexStringToBytes (BytesToHexString b)) c = Ok (c, inl b).
Proof. intros W. unfold w_ok. rewrite hex_roundtrip by done. done. Qed.
Lemma LoadStoredData_run (name : bytes) c d : fs_file c = Some d ->
  LoadStoredData name c =
  (if bool_decide (name = str "Version") then mret (fd_Version d)
   else if bool_decide (name = str "IV") then w_ok (HexStringToBytes (fd_IV d))
   else if bool_decide (name = str "MasterKey") then w_ok (HexStringToBytes (fd_MasterKey d))
   else if bool_decide (name = str "PasswordHash") then w_ok (HexStringToBytes (fd_PasswordHash d))
   else if bool_decide (name = str "Height") then mret (WriteUint32 (uint32 (fd_Height d)))
   else w_fail (NewError "Can't find the key")) (set_fs_data d c).
Proof. intros E. unfold LoadStoredData, readDB, w_get, mbind, wM_bind. cbn beta iota. rewrite E. done. Qed.
Lemma read_height h : inS 32 h -> read_int32 (WriteUint32 (uint32 h)) = h.
Proof.
  intros Hh. unfold read_int32. change (length (WriteUint32 (uint32 h)) <? 4)%nat with false. cbn iota.
  rewrite take_ge by done. unfold WriteUint32. rewrite le_val_le_bytes. change (256 ^ Z.of_nat 4) with (2 ^ 32).
  rewrite Z.mod_small by (apply wrapU_range; lia). apply wrapS_of_U; lia.
Qed.

Lemma password_checked key hash c d : fs_file c = Some d -> fd_PasswordHash d = BytesToHexString hash -> wf_bytes hash ->
  verifyPasswordKey key c = Ok (set_fs_data d c, inl (bool_decide (hash = sha256 key))).
Proof.
  intros E Ep W. unfold verifyPasswordKey. erewrite w_try_run; [|rewrite (LoadStoredData_run _ _ _ E), Ep; exact (hex_field _ _ W)]. done.
Qed.

(** A bind whose first part is known. *)
Lemma w_bind_run {A B} (m : wM A) (k : A -> wM B) c c1 a : m c = Ok (c1, inl a) -> (m ≫= k) c = k a c1.
Proof. intros E. unfold mbind, wM_bind. by rewrite E. Qed.
Lemma w_error_run {A} e (m : wM A) c c1 a : m c = Ok (c1, inl a) -> w_error e m c = Ok (c1, inl a).
Proof. intros E. unfold w_error. by rewrite (w_try_run _ _ _ _ _ E). Qed.
Lemma w_bind_fail {A B} (m : wM A) (k : A -> wM B) c c1 e : m c = Ok (c1, inr e) -> (m ≫= k) c = Ok (c1, inr e).
Proof. intros E. unfold mbind, wM_bind. by rewrite E. Qed.
Lemma w_error_fail {A} e e' (m : wM A) c c1 : m c = Ok (c1, inr e') -> w_error e m c = Ok (c1, inr e).
Proof. intros E. unfold w_error. by rewrite (w_try_run _ _ _ _ _ E). Qed.

Lemma NewClient_open_run pwd c acs cts b : stored pwd c acs cts -> fs_file b = fs_file c ->
  NewClient_open pwd b = Ok (set_currentHeight (currentHeight c) (set_cl_masterKey (cl_masterKey c) (set_cl_iv (cl_iv c) (set_fs_data (fs_data c) b))), inl tt).
Proof.
  intros St Eb. set (d := fs_data c). assert (Ed : fs_file b = Some d) by (rewrite Eb; apply St). destruct (st_master _ _ _ _ St) as (enc & Ee & Se).
  unfold NewClient_open. rewrite (w_bind_run _ _ _ _ _ (password_checked _ _ _ _ Ed (st_password _ _ _ _ St) (wf_sha256 _))).
  rewrite bool_decide_eq_true_2 by done. cbn [negb].
  erewrite w_bind_run; [|rewrite (LoadStoredData_run _ _ d) by exact Ed; change (fd_IV d) with (fd_IV (fs_data c)); rewrite (st_IV _ _ _ _ St);
    apply (hex_field _ (cl_iv c)), St].
  rewrite (w_bind_run (w_upd _) _ _ _ tt eq_refl).
  erewrite w_bind_run; [|rewrite (LoadStoredData_run _ _ d) by exact Ed; change (fd_MasterKey d) with (fd_MasterKey (fs_data c)); rewrite Ee;
    apply (hex_field _ enc), Se].
  rewrite (se_decrypt _ _ _ _ Se). rewrite (w_bind_run (w_need (Some (cl_masterKey c, None))) _ _ _ _ eq_refl).
  rewrite (w_bind_run (w_ok (cl_masterKey c, None)) _ _ _ _ eq_refl), (w_bind_run (w_upd _) _ _ _ tt eq_refl).
  erewrite w_bind_run; [|rewrite (LoadStoredData_run _ _ d) by exact Ed; reflexivity].
  destruct (st_height _ _ _ _ St) as [Eh Ih]. unfold d. rewrite Eh, read_height by done. reflexivity.
Qed.

Lemma LoadAccounts_run pwd c main acs cts b : stored pwd c (main :: acs) cts -> fs_file b = fs_file c -> cl_iv b = cl_iv c -> cl_masterKey b = cl_masterKey c ->
  LoadAccounts ripemd160 ScalarBaseMult b = Ok (set_accounts (padded <$> accounts c) (set_mainAccount (ac_ProgramHash main) (set_fs_data (fs_data c) b)), inl tt).
Proof.
  intros St Eb Ei Em. pose proof (st_entries _ _ _ _ St) as En. pose proof (st_wf_accounts _ _ _ _ St) as W. apply list.Forall_cons in W as [Wm W].
  unfold LoadAccounts, LoadAccountData, readDB. rewrite (w_bind_run _ _ b (set_fs_data (fs_data c) b) (fd_Account (fs_data c))).
  2:{ unfold w_get, mbind, wM_bind. cbn beta iota. rewrite Eb, (st_file _ _ _ _ St). done. }
  destruct (fd_Account (fs_data c)) as [|a l]; [done|]. destruct En as [Ea El]. rewrite <- Ei, <- Em in Ea, El. erewrite w_bind_run.
  2:{ rewrite (load_account_turn MAINACCOUNT a main) by done. rewrite bool_decide_eq_true_2 by done. by apply load_sub_accounts. }
  rewrite (st_accounts _ _ _ _ St), <- foldl_padded, fmap_empty. done.
Qed.
Lemma LoadContracts_run pwd c acs cts b : stored pwd c acs cts -> fs_file b = fs_file c ->
  LoadContracts b = Ok (set_contracts (contracts c) (set_fs_data (fs_data c) b), inl tt).
Proof.
  intros St Eb. unfold LoadContracts, LoadContractData, readDB. rewrite (w_bind_run _ _ b (set_fs_data (fs_data c) b) (fd_Contract (fs_data c))).
  2:{ unfold w_get, mbind, wM_bind. cbn beta iota. rewrite Eb, (st_file _ _ _ _ St). done. }
  rewrite (st_contract_entries _ _ _ _ St). erewrite w_bind_run by (apply load_contracts_spec, St). rewrite (st_contracts _ _ _ _ St). done.
Qed.
Lemma LoadCoins_run pwd c acs cts b : stored pwd c acs cts -> fs_file b = fs_file c -> coins b = [] ->
  LoadCoins b = Ok (set_coins (coins c) (set_fs_data (fs_data c) b), inl tt).
Proof.
  intros St Eb Ec. unfold LoadCoins, LoadCoinsData, readDB. rewrite (w_bind_run _ _ b (set_fs_data (fs_data c) b) (coins c)).
  - unfold w_upd. change (coins (set_fs_data (fs_data c) b)) with (coins b). by rewrite Ec.
  - unfold w_get, mbind, wM_bind. cbn beta iota. rewrite Eb, (st_file _ _ _ _ St). unfold w_upd. change (fs_data (set_fs_data (fs_data c) b)) with (fs_data c). rewrite (st_coins _ _ _ _ St).
    destruct (st_wf_coins _ _ _ _ St) as [Wc Lc]. rewrite coins_of_text by done. done.
Qed.

Lemma saved_opens pwd main c : saved pwd main c -> Open ripemd160 ScalarBaseMult pwd (blank_client (fs_file c)) = Ok (reopened main c, inl tt).
Proof.
  intros (ac & acs & cts & St & ->). unfold Open.
  erewrite w_bind_run by (apply w_error_run, (NewClient_open_run pwd c (ac :: acs) cts); done).
  erewrite w_bind_run by (apply w_error_run, (LoadAccounts_run pwd c ac acs cts); done).
  erewrite w_bind_run by (apply w_error_run, (LoadContracts_run pwd c (ac :: acs) cts); done).
  erewrite w_error_run by (by apply (LoadCoins_run pwd c (ac :: acs) cts)). by destruct c.
Qed.
Lemma account_entry_padded iv mk ty a ac : (length (PrivateKey ac) <= 32)%nat -> account_entry iv mk ty a ac -> account_entry iv mk ty a (padded ac).
Proof.
  intros L (Et & Eh & pair & enc & Ee & Se & Lp & Ed). split; [done|]. split; [done|]. exists pair, enc. split; [done|]. split; [done|]. split; [done|].
  rewrite Ed. symmetry. apply pad32_full. by apply length_pad32.
Qed.
(** Opening leaves a wallet that is in its file. *)
Lemma reopened_saved pwd main c : saved pwd main c -> saved pwd main (reopened main c).
Proof.
  intros (ac & acs & cts & St & ->). exists (padded ac), (map padded acs), cts. split; [|done].
  pose proof (st_wf_accounts _ _ _ _ St) as W. apply list.Forall_cons in W as [Wa W].
  destruct St. split; try done.
  - constructor; [by apply wf_padded|]. clear -W. induction W; constructor; [by apply wf_padded|done].
  - unfold reopened in *. cbn [cl_iv cl_masterKey fs_data set_accounts set_mainAccount] in *.
    destruct (fd_Account (fs_data c)) as [|a l]; [done|]. destruct st_entries0 as [Ea El]. split; [apply account_entry_padded; [apply Wa|done]|].
    clear -W El. induction El as [|a1 ac1 l acs Ha _ IH]; [constructor|]. apply list.Forall_cons in W as [Wa1 W]. cbn [map].
    constructor; [apply account_entry_padded; [apply Wa1|done]|by apply IH].
  - unfold reopened. cbn [accounts set_accounts]. rewrite st_accounts0, <- foldl_padded, fmap_empty. done.
Qed.
Lemma saved_locked pwd pwd' main c : saved pwd main c -> sha256 (ToAesKey pwd) <> sha256 (ToAesKey pwd') ->
  exists c', Open ripemd160 ScalarBaseMult pwd' (blank_client (fs_file c)) = Ok (c', inr (NewError "client nil")) /\
    accounts c' = ∅ /\ contracts c' = ∅ /\ coins c' = [] /\ fs_file c' = fs_file c.
Proof.
  intros (ac & acs & cts & St & _) N. exists (set_fs_data (fs_data c) (blank_client (fs_file c))). split; [|done].
  unfold Open. apply w_bind_fail, (w_error_fail _ (NewError "password wrong")).
  unfold NewClient_open. erewrite w_bind_run by (apply (password_checked _ (sha256 (ToAesKey pwd))); [apply St|apply St|apply wf_sha256]).
  rewrite bool_decide_eq_false_2 by done. reflexivity.
Qed.

(** ** Writing *)

Definition written (f : FileData -> FileData) (c : Client) : Client := set_fs_file (Some (f (fs_data c))) (set_fs_data (f (fs_data c)) c).
Lemma write_run f c : fs_file c = Some (fs_data c) -> (_ ← readDB; _ ← upd_data f; writeDB) c = Ok (written f c, inl tt).
Proof. intros E. unfold readDB, upd_data, writeDB, w_upd, w_get, mbind, wM_bind. cbn beta iota. rewrite E. by destruct c. Qed.

Lemma SaveCoins_stored pwd c acs cts cs : stored pwd c acs cts -> Forall wf_coin cs -> Z.of_nat (length cs) < 2 ^ 32 ->
  exists c', SaveCoins (set_coins cs c) = Ok (c', inl tt) /\ stored pwd c' acs cts /\ coins c' = cs /\ mainAccount c' = mainAccount c /\ currentHeight c' = currentHeight c.
Proof.
  intros St Wc Lc. eexists. split; [unfold SaveCoins; rewrite (w_bind_run (w_get coins) _ _ _ _ eq_refl); apply write_run; apply St|].
  split; [|done]. destruct St. by split.
Qed.
Lemma SaveHeight_stored pwd c acs cts h : stored pwd c acs cts -> inS 32 h ->
  exists c', SaveStoredData (str "Height") (WriteUint32 (uint32 h)) (set_currentHeight h c) = Ok (c', inl tt) /\ stored pwd c' acs cts /\
    coins c' = coins c /\ mainAccount c' = mainAccount c.
Proof.
  intros St Hh. eexists. split; [apply write_run; apply St|]. split; [|done].
  pose proof (read_height h Hh) as R. destruct St. by split.
Qed.

(** ** Saving accounts and contracts *)

Context (ripemd160_ok : forall d, wf_u160 (ripemd160 d)).
Context (point_ok : forall k, 0 <= fst (ScalarBaseMult k) < 2 ^ 256 /\ 0 <= snd (ScalarBaseMult k) < 2 ^ 256).

Lemma ToCodeHash_wf code : exists h, ToCodeHash ripemd160 code = (h, None) /\ wf_u160 h.
Proof. unfold ToCodeHash. rewrite Uint160Parse_ok by done. eauto. Qed.
Lemma ToAddress_total f : wf_u160 f -> exists a, ToAddress f = (a, None).
Proof.
  intros Wf. destruct (address_numeral f Wf) as [_ Hp]. destruct (base58_roundtrip _ Hp) as (a & Ee & _). exists a. unfold ToAddress. by rewrite Ee.
Qed.

(** A private key and the account made from it. *)
Lemma account_made priv : (length priv <= 32)%nat -> wf_bytes priv ->
  exists ac, account_of ripemd160 priv (NewPubKey ScalarBaseMult priv) = Some (Some ac, None) /\ wf_account ac /\ PrivateKey ac = priv.
Proof.
  intros Lp Wp. pose proof (point_ok (be_val priv)) as [Hx Hy].
  assert (Ek : NewPubKey ScalarBaseMult (pad32 priv) = NewPubKey ScalarBaseMult priv) by (unfold NewPubKey; by rewrite be_val_pad32).
  assert (E : exists pk h, wf_u160 h /\ pk = NewPubKey ScalarBaseMult priv /\
    (exists x y, pk = mkPubKey (Some x) (Some y) /\ 0 <= x < 2 ^ 256 /\ 0 <= y < 2 ^ 256) /\
    forall k, account_of ripemd160 k pk = Some (Some (mkAccount k pk h), None)).
  { unfold account_of, signature_script, NewPubKey.
    destruct (ScalarBaseMult (be_val priv)) as [x y]. cbn [fst snd] in Hx, Hy.
    destruct (ToCodeHash_wf (CreateSignatureRedeemScript (default [] (fst <$> EncodePoint (mkPubKey (Some x) (Some y)) true)))) as (h & Eh & Wh).
    exists (mkPubKey (Some x) (Some y)), h. split_and!; [done|done|eauto|]. intros k.
    rewrite EncodePoint_compressed in Eh |- * by done. cbn in Eh |- *. by rewrite Eh. }
  destruct E as (pk & h & Wh & Epk & Hpt & E). exists (mkAccount priv pk h). rewrite <- Epk. split_and!; [apply E| |done].
  split; cbn [PrivateKey ac_ProgramHash ac_PublicKey]; [done|done|done|done|]. unfold padded. cbn [PrivateKey ac_PublicKey ac_ProgramHash].
  unfold NewAccountWithPrivatekey. rewrite length_pad32 by done. cbn [Nat.eqb negb andb]. rewrite Ek, <- Epk. apply E.
Qed.
Lemma account_imported priv : length priv = 32%nat -> wf_bytes priv ->
  exists ac, NewAccountWithPrivatekey ripemd160 ScalarBaseMult priv = Some (Some ac, None) /\ wf_account ac.
Proof.
  intros Lp Wp. destruct (account_made priv ltac:(lia) Wp) as (ac & E & Wa & Ep). exists ac. split; [|done].
  unfold NewAccountWithPrivatekey. by rewrite Lp.
Qed.

Lemma entries_snoc iv mk l acs a ac : entries iv mk l acs ->
  account_entry iv mk (match l with [] => MAINACCOUNT | _ => SUBACCOUNT end) a ac -> entries iv mk (l ++ [a]) (acs ++ [ac]).
Proof.
  intros En Ea. destruct l as [|a0 l], acs as [|ac0 acs]; try done.
  destruct En as [E0 F]. split; [done|]. apply Forall2_app; [done|by constructor].
Qed.

Lemma SaveAccountData_run h enc addr c : fs_file c = Some (fs_data c) -> wf_u160 h -> ToAddress h = (addr, None) ->
  SaveAccountData h enc c = Ok (written (fun d => set_fd_Account (fd_Account d ++
    [mkAccountData addr (BytesToHexString h) (BytesToHexString enc) (match fd_Account d with [] => MAINACCOUNT | _ => SUBACCOUNT end)]) d) c, inl tt).
Proof.
  intros E W Ea. unfold SaveAccountData, readDB. rewrite Uint160Parse_ok by done. cbn [is_err]. rewrite Ea. cbn [is_err].
  unfold upd_data, writeDB, w_upd, w_get, mbind, wM_bind. cbn beta iota. rewrite E. by destruct c.
Qed.

Lemma key_pair_padded x y key : (length key <= 32)%nat ->
  key_pair (4 :: be_bytes 32 x ++ be_bytes 32 y) key = Some (be_bytes 32 x ++ be_bytes 32 y ++ pad32 key).
Proof.
  intros L. unfold key_pair. cbn [length]. rewrite length_app, !length_be_bytes. cbn [Nat.add Nat.leb negb orb drop].
  destruct (Nat.ltb_spec 96 (length key)); [lia|].
  rewrite (take_ge (be_bytes 32 x ++ be_bytes 32 y)) by (rewrite length_app, !length_be_bytes; lia).
  rewrite take_app_ge by (rewrite length_app, !length_be_bytes; lia). rewrite length_app, !length_be_bytes, take_replicate.
  unfold pad32. rewrite <- !app_assoc. repeat f_equal. lia.
Qed.
Lemma SaveAccount_stored pwd c acs cts ac : stored pwd c acs cts -> wf_account ac ->
  exists c', SaveAccount ac c = Ok (c', inl tt) /\ stored pwd c' (acs ++ [ac]) cts /\ mainAccount c' = mainAccount c.
Proof.
  intros St W. destruct (wa_point _ W) as (x & y & Ek & Hx & Hy). set (pair := be_bytes 32 x ++ be_bytes 32 y ++ pad32 (PrivateKey ac)).
  assert (Lp : length pair = 96%nat) by (unfold pair; rewrite !length_app, !length_be_bytes, length_pad32 by apply W; lia).
  assert (Wp : wf_bytes pair).
  { unfold pair, wf_bytes. rewrite !Forall_app. split_and!; [apply wf_be_bytes|apply wf_be_bytes|apply wf_pad32, W]. }
  destruct (seals_total (cl_masterKey c) (cl_iv c) pair 5) as [enc Se]; [|apply St|apply St|done|done|].
  { unfold aes_key. by rewrite (proj1 (st_mk _ _ _ _ St)). }
  destruct (ToAddress_total (ac_ProgramHash ac) (wa_hash _ W)) as [addr Ea]. eexists. split.
  - unfold SaveAccount. rewrite (w_bind_run (w_upd _) _ _ _ tt eq_refl). rewrite Ek, EncodePoint_uncompressed by done.
    rewrite (w_bind_run (w_need (Some _)) _ _ _ _ eq_refl), (w_bind_run (w_ok (_, None)) _ _ _ (4 :: be_bytes 32 x ++ be_bytes 32 y) eq_refl).
    rewrite (key_pair_padded x y (PrivateKey ac) (wa_length _ W)). fold pair.
    rewrite (w_bind_run (w_need (Some _)) _ _ _ _ eq_refl). unfold EncryptPrivateKey.
    erewrite (w_bind_run (w_get id ≫= _)).
    2:{ rewrite (w_bind_run (w_get id) _ _ _ _ eq_refl). unfold id. cbn [cl_masterKey cl_iv set_accounts]. rewrite (se_encrypt _ _ _ _ Se). reflexivity. }
    apply (SaveAccountData_run _ _ addr); [apply St|apply W|done].
  - split; [|done]. destruct St. split; try done.
    + by apply Forall_app_2; [|constructor].
    + apply entries_snoc; [done|]. split; [done|]. split; [done|]. exists pair, enc. split; [done|]. split; [done|]. split; [done|].
      unfold pair. rewrite app_assoc. apply drop_app_length'. by rewrite length_app, !length_be_bytes.
    + rewrite foldl_app. cbn. by rewrite <- st_accounts0.
Qed.

Lemma SaveContract_stored pwd c acs cts ct : stored pwd c acs cts -> wf_contract ct ->
  exists c', SaveContract ct c = Ok (c', inl tt) /\ stored pwd c' acs (cts ++ [ct]) /\ mainAccount c' = mainAccount c.
Proof.
  intros St W. eexists. split; [unfold SaveContract; rewrite (w_bind_run (w_upd _) _ _ _ tt eq_refl); apply write_run; apply St|].
  split; [|done]. destruct St. split; try done.
  - by apply Forall_app_2; [|constructor].
  - cbn. rewrite st_contract_entries0. by rewrite map_app.
  - unfold contracts_of in *. rewrite foldl_app. cbn. by rewrite <- st_contracts0.
Qed.

(** ** The operations *)

Lemma aes_key_password pwd : aes_key (ToAesKey pwd) = true.
Proof. unfold aes_key, ToAesKey. by rewrite length_sha256. Qed.

Lemma NewClient_create_stored iv mk pwd chain file : length iv = 16%nat -> wf_bytes iv -> length mk = 32%nat -> wf_bytes mk ->
  exists c, NewClient_create iv mk pwd chain (blank_client file) = Ok (c, inl tt) /\ stored pwd c [] [] /\ mainAccount c = zero160.
Proof.
  intros Li Wi Lm Wm. destruct (seals_total (ToAesKey pwd) iv mk 1 (aes_key_password pwd) Li Wi Lm Wm) as [enc Se].
  unfold NewClient_create. rewrite (w_bind_run (w_upd _) _ _ _ tt eq_refl). unfold BuildDatabase, writeDB. rewrite (w_bind_run (w_upd _) _ _ _ tt eq_refl).
  do 3 erewrite w_bind_run by (apply write_run; reflexivity). rewrite (se_encrypt _ _ _ _ Se).
  rewrite (w_bind_run (w_need (Some (enc, None))) _ _ _ _ eq_refl), (w_bind_run (w_ok (enc, None)) _ _ _ _ eq_refl).
  erewrite w_bind_run by (apply write_run; reflexivity). rewrite (w_bind_run (w_upd _) _ _ _ tt eq_refl), (w_bind_run (w_get id) _ _ _ _ eq_refl).
  set (h := match chain with Some h => int32 h | None => -1 end).
  assert (Hh : inS 32 h) by (unfold h; destruct chain; [apply wrapS_range; lia|lia]).
  eexists. split; [apply write_run; reflexivity|]. pose proof (read_height h Hh) as R. split; [|done]. split; try done.
  exists enc. by split.
Qed.

(** The keys [GenKeyPair] returns: the bytes of a number below 2^256, at most
    32 since leading zeros are dropped, and the point it stands for. *)
Definition key_generated (pair : bytes * PubKey) : Prop := (length pair.1 <= 32)%nat /\ wf_bytes pair.1 /\ pair.2 = NewPubKey ScalarBaseMult pair.1.

Lemma CreateAccount_stored pwd c acs cts pair : stored pwd c acs cts -> key_generated pair ->
  exists c' ac, CreateAccount ripemd160 pair c = Ok (c', inl ac) /\ stored pwd c' (acs ++ [ac]) cts /\ mainAccount c' = mainAccount c /\ wf_account ac.
Proof.
  intros St (Lp & Wp & Ep). destruct (account_made pair.1 Lp Wp) as (ac & Ea & Wa & _). destruct (SaveAccount_stored pwd c acs cts ac St Wa) as (c' & Es & St' & Em).
  exists c', ac. split; [|done]. unfold CreateAccount, NewAccount. rewrite Ep, Ea. rewrite (w_bind_run (w_need (Some (Some ac, None))) _ _ _ _ eq_refl).
  rewrite (w_bind_run (w_check None) _ _ _ tt eq_refl), (w_bind_run (w_need (Some ac)) _ _ _ _ eq_refl). by rewrite (w_bind_run _ _ _ _ _ Es).
Qed.
Lemma CreateAccountByPrivateKey_stored pwd c acs cts priv : stored pwd c acs cts -> length priv = 32%nat -> wf_bytes priv ->
  exists c' ac, CreateAccountByPrivateKey ripemd160 ScalarBaseMult priv c = Ok (c', inl ac) /\ stored pwd c' (acs ++ [ac]) cts /\ mainAccount c' = mainAccount c /\ wf_account ac.
Proof.
  intros St Lp Wp. destruct (account_imported priv Lp Wp) as (ac & Ea & Wa). destruct (SaveAccount_stored pwd c acs cts ac St Wa) as (c' & Es & St' & Em).
  exists c', ac. split; [|done]. unfold CreateAccountByPrivateKey. rewrite Ea. rewrite (w_bind_run (w_need (Some (Some ac, None))) _ _ _ _ eq_refl).
  rewrite (w_bind_run (w_check None) _ _ _ tt eq_refl), (w_bind_run (w_need (Some ac)) _ _ _ _ eq_refl). by rewrite (w_bind_run _ _ _ _ _ Es).
Qed.

Lemma wf_PushData33 key : length key = 33%nat -> wf_bytes key -> small (CreateSignatureRedeemScript key).
Proof.
  intros Lk Wk. unfold small, CreateSignatureRedeemScript, PushData. rewrite Lk. change (Z.of_nat 33 <=? PUSHBYTES75) with true. cbn iota.
  split; [done|]. split; [rewrite length_app; cbn [length]; rewrite Lk; by vm_compute|]. apply Forall_app. split; [|repeat constructor; by vm_compute].
  constructor; [by vm_compute|done].
Qed.
Lemma CreateContract_stored pwd c acs cts ac : stored pwd c acs cts -> wf_account ac ->
  exists c' ct, CreateContract ripemd160 ac c = Ok (c', inl tt) /\ stored pwd c' acs (cts ++ [ct]) /\ mainAccount c' = mainAccount c.
Proof.
  intros St W. destruct (wa_point _ W) as (x & y & Ek & Hx & Hy). unfold CreateContract. rewrite Ek, EncodePoint_compressed by done.
  set (key := _ :: be_bytes 32 x). assert (Lk : length key = 33%nat) by (unfold key; cbn [length]; by rewrite length_be_bytes).
  assert (Wk : wf_bytes key) by (unfold key; constructor; [destruct (isEven y); by vm_compute|apply wf_be_bytes]).
  destruct (ToCodeHash_wf key) as (hk & Ehk & Whk). destruct (ToCodeHash_wf (CreateSignatureRedeemScript key)) as (h & Eh & Wh).
  assert (Ect : CreateSignatureContract ripemd160 key = (mkContract (CreateSignatureRedeemScript key) [Signature_param] h hk, None)).
  { unfold CreateSignatureContract. by rewrite Ehk, Eh. }
  rewrite (w_bind_run (w_need (Some (key, None))) _ _ _ _ eq_refl), (w_bind_run (w_ok (key, None)) _ _ _ key eq_refl), Ect.
  rewrite (w_bind_run (w_ok (_, None)) _ _ _ (mkContract (CreateSignatureRedeemScript key) [Signature_param] h hk) eq_refl).
  destruct (SaveContract_stored pwd c acs cts (mkContract (CreateSignatureRedeemScript key) [Signature_param] h hk) St) as (c' & Es & St' & Em); [|eauto].
  split; [done|]. split; [done|]. split; [|by apply wf_PushData33]. split; [done|]. split; [by vm_compute|]. constructor; [by vm_compute|constructor].
Qed.

(** A redeem script of keys in order; one of a bad number of keys is empty and
    would not be read back. *)
Lemma CreateMultiSignContract_stored pwd c acs cts owner m keys : stored pwd c acs cts -> wf_u160 owner -> 1 <= m <= maxAlloc ->
  small (CreateMultiSigRedeemScript m keys) ->
  exists c' ct, CreateMultiSignContract ripemd160 owner m keys c = Ok (c', inl tt) /\ stored pwd c' acs (cts ++ [ct]) /\ mainAccount c' = mainAccount c.
Proof.
  intros St Wo Hm Wk. destruct (ToCodeHash_wf (CreateMultiSigRedeemScript m keys)) as (h & Eh & Wh).
  set (ct := mkContract (CreateMultiSigRedeemScript m keys) (replicate (Z.to_nat m) Signature_param) h owner).
  assert (Ect : CreateMultiSigContract ripemd160 owner m keys = (ct, None)) by (unfold CreateMultiSigContract; by rewrite Eh).
  unfold CreateMultiSignContract. rewrite Ect, (w_bind_run (w_ok (ct, None)) _ _ _ ct eq_refl).
  destruct (SaveContract_stored pwd c acs cts ct St) as (c' & Es & St' & Em); [|eauto].
  split; [done|]. split; [done|]. split; [|done]. cbn [c_Parameters ct]. split; [destruct (Z.to_nat m) eqn:E; [lia|done]|].
  split; [rewrite length_replicate; lia|]. apply Forall_replicate. by vm_compute.
Qed.

(** The transactions of a block whose coins can be written. *)
Definition wf_block_txs (txs : list Transaction) : Prop :=
  forall t, t ∈ txs -> is_Some (hash_cached t) /\ wf_u256 (tx_hash_of t) /\ Forall wf_Output (Outputs t).
Lemma receive_outputs_wf cts t height outs : wf_u256 (tx_hash_of t) -> inU 32 height -> Forall wf_Output outs -> forall index new,
  receive_outputs cts t height index outs = Ok new -> Forall wf_coin new.
Proof.
  intros Wh Hh. induction 1 as [|o outs Wo _ IH]; intros index new E; cbn [receive_outputs] in E; [injection E as <-; constructor|].
  destruct (cts !! o_ProgramHash o) as [ct|]; [|by apply (IH (index + 1))].
  apply outcome_bind_Ok in E as ([t' hash] & Eh & E). apply no_panic_Ok in Eh. apply hash_cached_hash in Eh as <-.
  apply outcome_bind_Ok in E as (multi & _ & E). destruct (_ && _) in E; [done|]. apply outcome_bind_Ok in E as (rest & Er & E). injection E as <-.
  constructor; [|by apply (IH (index + 1))]. split; [split; [done|]; split; [apply wrapU_range; lia|cbn; lia]|]. split; [done|].
  split; [cbn; destruct multi; by vm_compute|done].
Qed.
Lemma received_wf span cts height txs : wf_block_txs txs -> forall new, received span cts height txs = Ok new -> Forall wf_coin new.
Proof.
  induction txs as [|t txs IH]; intros W new E; cbn [received] in E; [injection E as <-; constructor|].
  apply outcome_bind_Ok in E as (cs & Ec & E). apply outcome_bind_Ok in E as (rest & Er & E). injection E as <-.
  destruct (W t ltac:(by left)) as (_ & Wh & Wo). apply Forall_app_2; [|apply IH; [|done]; intros t1 Ht1; apply W; by right].
  eapply receive_outputs_wf; [exact Wh| |exact Wo|exact Ec]. destruct (IsCoinBaseTx t); [apply wrapU_range; lia|lia].
Qed.

Lemma filter_length_eq {A} (p : A -> bool) l : length (List.filter p l) = length l -> List.filter p l = l.
Proof.
  induction l as [|x l IH]; cbn [List.filter]; [done|]. destruct (p x); cbn [length]; intros E; [f_equal; apply IH; lia|].
  pose proof (List.filter_length_le p l). lia.
Qed.
Lemma ProcessOneBlock_stored pwd span c acs cts b c' : stored pwd c acs cts -> wf_block_txs (Transactions b) ->
  ProcessOneBlock span b c = Ok (c', inl tt) -> Z.of_nat (length (coins c')) < 2 ^ 32 -> stored pwd c' acs cts /\ mainAccount c' = mainAccount c.
Proof.
  intros St W E Lc. destruct (received span (contracts c) (bd_Height (blk_data b)) (Transactions b)) as [new| |] eqn:En;
    [|by unfold ProcessOneBlock, mbind, wM_bind, w_get, w_lift, id in E; rewrite En in E..].
  pose proof (received_wf _ _ _ _ W new En) as Wn. destruct (ProcessOneBlock_run span b c new En) as (c1 & E1 & Ec & _). rewrite E in E1. injection E1 as <-.
  unfold ProcessOneBlock in E. rewrite (w_bind_run (w_get id) _ _ _ _ eq_refl) in E. unfold id in E. rewrite En in E.
  rewrite (w_bind_run (w_lift (Ok new)) _ _ _ _ eq_refl) in E. fold (kept_coins (Transactions b) (coins c ++ new)) in E.
  set (kept := kept_coins _ _) in *. rewrite Ec in Lc. rewrite (w_bind_run (w_upd _) _ _ _ tt eq_refl) in E. set (need := negb _ || negb _) in E.
  assert (Wk : Forall wf_coin kept).
  { apply list.Forall_forall. intros kc Hk. apply list_elem_of_In, filter_In in Hk as [Hk _].
    pose proof (Forall_app_2 _ _ _ (proj1 (st_wf_coins _ _ _ _ St)) Wn) as F. rewrite list.Forall_forall in F. by apply F, list_elem_of_In. }
  assert (S1 : exists c1, (if need then _ ← w_try SaveCoins; mret tt else mret tt) (set_coins kept c) = Ok (c1, inl tt) /\ stored pwd c1 acs cts /\
    mainAccount c1 = mainAccount c).
  { destruct need eqn:Hn.
    - destruct (SaveCoins_stored pwd c acs cts kept St Wk Lc) as (c1 & E1 & St1 & _ & Em & _). exists c1. by rewrite (w_try_run _ _ _ _ _ E1).
    - exists (set_coins kept c). split; [done|]. apply orb_false_iff in Hn as [N1 N2]. rewrite negb_false_iff, Nat.eqb_eq in N1, N2.
      apply filter_length_eq in N2. destruct new; [|done].
      assert (Ek : kept = coins c) by (etransitivity; [exact N2|apply app_nil_r]). rewrite Ek. by destruct c. }
  destruct S1 as (c1 & E1 & St1 & Em1). rewrite (w_bind_run _ _ _ _ _ E1), (w_bind_run (w_upd _) _ _ _ tt eq_refl), (w_bind_run (w_get _) _ _ _ _ eq_refl) in E.
  destruct (SaveHeight_stored pwd c1 acs cts (int32 (currentHeight c1 + 1)) St1) as (c2 & E2 & St2 & _ & Em2); [apply wrapS_range; lia|].
  rewrite (w_try_run _ _ _ _ _ E2) in E. injection E as <-. split; [done|congruence].
Qed.

Lemma ChangePassword_stored pwd old new c acs cts : stored pwd c acs cts ->
  exists c' ok, ChangePassword old new c = Ok (c', inl ok) /\ stored (if ok : bool then new else pwd) c' acs cts /\ mainAccount c' = mainAccount c /\
    ok = bool_decide (sha256 (ToAesKey pwd) = sha256 (ToAesKey old)).
Proof.
  intros St. unfold ChangePassword. rewrite (w_bind_run _ _ _ _ _ (password_checked _ _ _ _ (st_file _ _ _ _ St) (st_password _ _ _ _ St) (wf_sha256 _))).
  replace (set_fs_data (fs_data c) c) with c by (by destruct c). case_bool_decide as Ep; cbn [negb]; [|by exists c, false].
  rewrite (w_bind_run (w_get id) _ _ _ _ eq_refl). unfold id.
  destruct (seals_total (ToAesKey new) (cl_iv c) (cl_masterKey c) 1 (aes_key_password new)) as [enc Se]; [apply St|apply St|apply St|apply St|].
  rewrite (se_encrypt _ _ _ _ Se), (w_bind_run (w_need (Some (enc, None))) _ _ _ _ eq_refl). cbn [is_err].
  erewrite w_try_run by (apply write_run; apply St). cbn beta iota. erewrite w_try_run by (apply write_run; reflexivity).
  eexists _, true. split; [reflexivity|]. split; [|done]. destruct St. split; try done. exists enc. by split.
Qed.

(** ** Deleting *)

Lemma hex_inj a b : wf_bytes a -> wf_bytes b -> BytesToHexString a = BytesToHexString b -> a = b.
Proof. intros Wa Wb E. pose proof (hex_roundtrip a Wa) as R. rewrite E, hex_roundtrip in R by done. congruence. Qed.

Definition names_contract (h : Uint160) (e : ContractData) : bool := bool_decide (BytesToHexString h = cd_ProgramHash e).
Definition names_account (h : Uint160) (e : AccountData) : bool := bool_decide (BytesToHexString h = ad_ProgramHash e).

Lemma names_contract_entry h ct : wf_u160 h -> wf_contract ct -> names_contract h (contract_entry ct) = bool_decide (c_ProgramHash ct = h).
Proof.
  intros [_ Wh] ((_ & Wc) & _). unfold names_contract. cbn. apply bool_decide_ext. split; [|by intros ->]. intros E. symmetry. by apply hex_inj.
Qed.
Lemma names_account_entry h iv mk ty a ac : wf_u160 h -> wf_account ac -> account_entry iv mk ty a ac -> names_account h a = bool_decide (ac_ProgramHash ac = h).
Proof.
  intros [_ Wh] W (_ & Eh & _). unfold names_account. rewrite Eh. apply bool_decide_ext. split; [|by intros ->].
  intros E. symmetry. apply hex_inj; [done|apply W|done].
Qed.

Lemma DeleteContract_stored pwd c acs cts h : stored pwd c acs cts -> wf_u160 h ->
  (length (List.filter (names_contract h) (fd_Contract (fs_data c))) <= 1)%nat ->
  exists c' cts', DeleteContract h c = Ok (c', inl tt) /\ stored pwd c' acs cts' /\ mainAccount c' = mainAccount c.
Proof.
  intros St Wh L. set (c1 := set_contracts (delete h (contracts c)) c).
  assert (R : forall l, delete_all (names_contract h) (fun _ => false) (fd_Contract (fs_data c)) = Ok (l, false) ->
    DeleteContract h c = Ok (written (set_fd_Contract l) c1, inl tt)).
  { intros l E. unfold DeleteContract. rewrite (w_bind_run (w_upd _) _ _ _ tt eq_refl). fold c1.
    unfold DeleteContractData, readDB, upd_data, writeDB, w_upd, w_get, mbind, wM_bind. cbn beta iota.
    change (fs_file c1) with (fs_file c). rewrite (st_file _ _ _ _ St). cbn beta iota. fold (names_contract h).
    change (fs_data (set_fs_data (fs_data c) c1)) with (fs_data c). rewrite E. by destruct c. }
  pose proof (st_wf_contracts _ _ _ _ St) as W. pose proof (st_contract_entries _ _ _ _ St) as En. pose proof (st_contracts _ _ _ _ St) as Ec.
  assert (Hit : forall l, Forall wf_contract l -> Forall (fun e => names_contract h e = false) (map contract_entry l) -> Forall (fun ct => c_ProgramHash ct <> h) l).
  { clear -Wh. induction 1 as [|ct l Wc _ IH]; cbn [map]; intros F; [constructor|]. apply list.Forall_cons in F as [F1 F].
    rewrite names_contract_entry in F1 by done. apply bool_decide_eq_false in F1. constructor; [done|by apply IH]. }
  assert (Done : forall cts', fd_Contract (fs_data (written (set_fd_Contract (map contract_entry cts')) c1)) = map contract_entry cts' ->
    Forall wf_contract cts' -> delete h (contracts c) = contracts_of cts' -> stored pwd (written (set_fd_Contract (map contract_entry cts')) c1) acs cts').
  { intros cts' _ W' E'. destruct St. by split. }
  rewrite En in L. apply at_most_one in L as [F|(l1 & a & l2 & El & Ha & F1 & F2)].
  - eexists _, cts. split; [apply R; rewrite En; by apply delete_all_none|]. split; [|done]. apply Done; [done|done|].
    rewrite Ec. apply load_delete_none. by apply Hit.
  - apply map_eq_app in El as (k1 & k2' & -> & <- & E2). apply map_eq_cons in E2 as (ct & k2 & -> & <- & <-).
    rewrite Forall_app, list.Forall_cons in W. destruct W as (W1 & Wc & W2).
    rewrite names_contract_entry in Ha by done. apply bool_decide_eq_true in Ha. subst h.
    eexists _, (k1 ++ k2). split; [apply R; rewrite En, map_app; cbn [map]; rewrite delete_all_once by (done || by rewrite names_contract_entry, bool_decide_eq_true_2); by rewrite <- map_app|].
    split; [|done]. apply Done; [done|by apply Forall_app|]. rewrite Ec. apply load_delete_once; by apply Hit.
Qed.

Lemma DeleteAccount_run h c l kept : fs_file c = Some (fs_data c) ->
  delete_all (names_account h) (fun v => bool_decide (ad_Type v = MAINACCOUNT)) (fd_Account (fs_data c)) = Ok (l, kept) ->
  DeleteAccount h c = let c1 := set_accounts (delete h (accounts c)) c in
    if kept then Ok (set_fs_data (set_fd_Account l (fs_data c)) c1, inr (NewError "Can't remove main account"))
    else Ok (written (set_fd_Account l) c1, inl tt).
Proof.
  intros Ef E. unfold DeleteAccount. rewrite (w_bind_run (w_upd _) _ _ _ tt eq_refl). set (c1 := set_accounts _ c).
  unfold DeleteAccountData, readDB, upd_data, writeDB, w_upd, w_get, mbind, wM_bind. cbn beta iota.
  change (fs_file c1) with (fs_file c). rewrite Ef. cbn beta iota. fold (names_account h).
  change (fs_data (set_fs_data (fs_data c) c1)) with (fs_data c). rewrite E. cbn [w_lift]. cbn beta iota. destruct kept; by destruct c.
Qed.
(** The main account is refused by the file. *)
Lemma DeleteAccount_stored pwd c ac acs cts h c' : stored pwd c (ac :: acs) cts -> wf_u160 h ->
  (length (List.filter (names_account h) (fd_Account (fs_data c))) <= 1)%nat -> DeleteAccount h c = Ok (c', inl tt) ->
  exists acs', stored pwd c' (ac :: acs') cts /\ mainAccount c' = mainAccount c.
Proof.
  intros St Wh L E. pose proof (st_file _ _ _ _ St) as Ef. pose proof (st_entries _ _ _ _ St) as En.
  pose proof (st_wf_accounts _ _ _ _ St) as W. apply list.Forall_cons in W as [Wa W].
  set (c1 := set_accounts (delete h (accounts c)) c).
  assert (Done : forall a l acs', account_entry (cl_iv c) (cl_masterKey c) MAINACCOUNT a ac ->
    Forall2 (account_entry (cl_iv c) (cl_masterKey c) SUBACCOUNT) l acs' -> Forall wf_account acs' ->
    delete h (accounts c) = foldl add_account ∅ (ac :: acs') -> stored pwd (written (set_fd_Account (a :: l)) c1) (ac :: acs') cts).
  { intros a l acs' Ea F W' E'. destruct St. split; try done. by constructor. }
  assert (Hit : forall l k, Forall2 (account_entry (cl_iv c) (cl_masterKey c) SUBACCOUNT) l k -> Forall wf_account k ->
    Forall (fun e => names_account h e = false) l -> Forall (fun x => ac_ProgramHash x <> h) k).
  { clear -Wh. induction 1 as [|a x l k Ha _ IH]; intros Wk F; [constructor|]. apply list.Forall_cons in F as [F1 F], Wk as [Wx Wk].
    rewrite (names_account_entry _ _ _ _ _ _ Wh Wx Ha) in F1. apply bool_decide_eq_false in F1. constructor; [done|by apply IH]. }
  destruct (fd_Account (fs_data c)) as [|a l] eqn:Ed; [done|]. destruct En as [Ea El].
  pose proof (names_account_entry h _ _ _ _ _ Wh Wa Ea) as Na. pose proof (st_accounts _ _ _ _ St) as Ec.
  apply at_most_one in L as [F|(l1 & b & l2 & Es & Hb & F1 & F2)].
  - rewrite (DeleteAccount_run h c (a :: l) false Ef) in E by (rewrite Ed; by apply delete_all_none).
    injection E as <-. exists acs. split; [|done]. apply list.Forall_cons in F as [F1 F]. apply Done; [done|done|done|].
    rewrite Ec. apply (load_delete_none ac_ProgramHash). constructor; [by rewrite Na, bool_decide_eq_false in F1|by apply (Hit l)].
  - pose proof (delete_all_once (names_account h) (fun v => bool_decide (ad_Type v = MAINACCOUNT)) l1 b l2 F1 F2 Hb) as D. rewrite <- Es, <- Ed in D.
    destruct l1 as [|a1 l1]; injection Es as -> ->.
    { rewrite (proj1 Ea), bool_decide_eq_true_2 in D by done. rewrite (DeleteAccount_run h c _ true Ef D) in E. done. }
    apply Forall2_app_inv_l in El as (k1 & k2' & E1 & E2 & ->). apply Forall2_cons_inv_l in E2 as (x & k2 & Ex & E2 & ->).
    rewrite Forall_app, list.Forall_cons in W. destruct W as (W1 & Wx & W2).
    rewrite (proj1 Ex), bool_decide_eq_false_2 in D by done.
    rewrite (DeleteAccount_run h c _ false Ef D) in E. injection E as <-. exists (k1 ++ k2). split; [|done].
    rewrite (names_account_entry _ _ _ _ _ _ Wh Wx Ex) in Hb. apply bool_decide_eq_true in Hb. apply list.Forall_cons in F1 as [N1 F1].
    apply Done; [done|by apply Forall2_app|by apply Forall_app|]. rewrite Ec, <- Hb. apply (load_delete_once ac_ProgramHash (ac :: k1) x k2); rewrite Hb.
    + constructor; [by rewrite Na, bool_decide_eq_false in N1|by apply (Hit l1)].
    + by apply (Hit l2).
Qed.

(** One turn of [DeleteCoins]; [fcs] are the coins of the file. *)
Lemma DeleteCoinsData_stored pwd c acs cts fcs h : stored pwd (set_coins fcs c) acs cts ->
  exists c' fcs', DeleteCoinsData h c = Ok (c', inl tt) /\ stored pwd (set_coins fcs' c') acs cts /\ coins c' = coins c /\ mainAccount c' = mainAccount c /\
    forall kc, kc ∈ fcs' -> kc ∈ fcs /\ o_ProgramHash (coin_Output kc.2) <> h.
Proof.
  intros St. pose proof (st_coins _ _ _ _ St) as Ec. destruct (st_wf_coins _ _ _ _ St) as [Wc Lc]. pose proof (st_file _ _ _ _ St) as Ef. cbn in Ec, Wc, Lc, Ef.
  assert (R : forall k, ((_ ← readDB; d ← w_get fs_data; k d) : wM unit) c = k (fs_data c) c).
  { intros k. unfold readDB, w_get, w_upd, mbind, wM_bind. cbn beta iota. rewrite Ef. by destruct c. }
  unfold DeleteCoinsData. rewrite R. rewrite Ec. case_bool_decide as D.
  - pose proof (coins_of_text fcs Wc Lc) as T. rewrite D in T. cbn in T. injection T as <-.
    exists c, []. split; [done|]. split_and!; [done|done|done|]. by intros kc ?%elem_of_nil.
  - rewrite coins_of_text by done. rewrite (w_bind_run (w_need (Some (fcs, None))) _ _ _ _ eq_refl), (w_bind_run (w_ok (fcs, None)) _ _ _ fcs eq_refl).
    set (fcs' := List.filter _ fcs). exists (written (set_fd_Coins (coins_text fcs')) c), fcs'. split; [apply write_run; exact Ef|].
    assert (Sub : forall kc, kc ∈ fcs' -> kc ∈ fcs /\ o_ProgramHash (coin_Output kc.2) <> h).
    { intros kc Hk. apply list_elem_of_In, filter_In in Hk as [Hk Hn]. split; [by apply list_elem_of_In|]. by apply negb_true_iff, bool_decide_eq_false in Hn. }
    split_and!; [|done|done|exact Sub]. destruct St. split; try done. cbn [coins set_coins]. split.
    + apply list.Forall_forall. intros kc [Hk _]%Sub. rewrite list.Forall_forall in Wc. by apply Wc.
    + pose proof (List.filter_length_le (fun kc => negb (bool_decide (o_ProgramHash (coin_Output kc.2) = h))) fcs). fold fcs' in H3. lia.
Qed.
Lemma delete_coins_stored pwd acs cts l : forall c fcs, coins c = l -> stored pwd (set_coins fcs c) acs cts ->
  (forall kc, kc ∈ fcs -> exists kc', kc' ∈ l /\ o_ProgramHash (coin_Output kc'.2) = o_ProgramHash (coin_Output kc.2)) ->
  exists c', delete_coins l c = Ok (c', inl tt) /\ stored pwd c' acs cts /\ mainAccount c' = mainAccount c.
Proof.
  induction l as [|[i co] l IH]; intros c fcs Hc St Hf; cbn [delete_coins].
  - exists c. split; [done|]. split; [|done]. destruct fcs as [|kc fcs]; [|by destruct (Hf kc ltac:(by left)) as (kc' & ?%elem_of_nil & _)].
    rewrite <- Hc in St. by destruct c.
  - rewrite (w_bind_run (w_upd _) _ _ _ tt eq_refl).
    destruct (DeleteCoinsData_stored pwd (set_coins l c) acs cts fcs (o_ProgramHash (coin_Output co)) St) as (c1 & fcs' & E & St1 & Ec & Em & Sub).
    rewrite (w_try_run _ _ _ _ _ E). destruct (IH c1 fcs' Ec St1) as (c2 & E2 & St2 & Em2).
    { intros kc [Hk Hn]%Sub. destruct (Hf kc Hk) as (kc' & [->|Hk']%elem_of_cons & Eh); [done|]. eauto. }
    exists c2. split; [done|]. split; [done|]. by rewrite Em2, Em.
Qed.
Lemma DeleteCoins_stored pwd c acs cts : stored pwd c acs cts ->
  exists c', DeleteCoins c = Ok (c', inl tt) /\ stored pwd c' acs cts /\ mainAccount c' = mainAccount c.
Proof.
  intros St. unfold DeleteCoins. rewrite (w_bind_run (w_get coins) _ _ _ _ eq_refl).
  apply (delete_coins_stored pwd acs cts (coins c) c (coins c)); [done|by destruct c|]. intros kc Hk. eauto.
Qed.
Lemma Rebuild_stored pwd c acs cts : stored pwd c acs cts ->
  exists c', Rebuild c = Ok (c', inl tt) /\ stored pwd c' acs cts /\ mainAccount c' = mainAccount c.
Proof.
  intros St. unfold Rebuild. rewrite (w_bind_run (w_upd _) _ _ _ tt eq_refl).
  destruct (SaveHeight_stored pwd c acs cts (-1) St ltac:(lia)) as (c1 & E1 & St1 & _ & Em1). rewrite (w_bind_run _ _ _ _ _ E1).
  destruct (DeleteCoins_stored pwd c1 acs cts St1) as (c2 & E2 & St2 & Em2). exists c2. split; [done|]. split; [done|]. by rewrite Em2.
Qed.

(** ** The life of a wallet *)

(** [file]: what was at the place of the wallet file.  The first index tells
    whether the main account is set in memory, which [Recover] leaves out.  Every
    operation has succeeded; an account or a contract is deleted only where the
    file has it at most once. *)
Inductive wallet_life (span : Z) : bool -> bytes -> Client -> Prop :=
| life_create iv mk pwd chain pair file c :
    length iv = 16%nat -> wf_bytes iv -> length mk = 32%nat -> wf_bytes mk -> key_generated pair ->
    Create ripemd160 iv mk pwd chain pair (blank_client file) = Ok (c, inl tt) -> wallet_life span true pwd c
| life_recover iv mk pwd chain text priv file c :
    length iv = 16%nat -> wf_bytes iv -> length mk = 32%nat -> wf_bytes mk ->
    HexStringToBytes text = (priv, None) -> length priv = 32%nat -> wf_bytes priv ->
    Recover ripemd160 ScalarBaseMult iv mk pwd chain text (blank_client file) = Ok (c, inl tt) -> wallet_life span false pwd c
| life_account set pwd c pair ac c' : wallet_life span set pwd c -> key_generated pair ->
    CreateAccount ripemd160 pair c = Ok (c', inl ac) -> wallet_life span set pwd c'
| life_import set pwd c priv ac c' : wallet_life span set pwd c -> length priv = 32%nat -> wf_bytes priv ->
    CreateAccountByPrivateKey ripemd160 ScalarBaseMult priv c = Ok (c', inl ac) -> wallet_life span set pwd c'
| life_delete_account set pwd c h c' : wallet_life span set pwd c -> wf_u160 h ->
    (length (List.filter (names_account h) (fd_Account (fs_data c))) <= 1)%nat ->
    DeleteAccount h c = Ok (c', inl tt) -> wallet_life span set pwd c'
| life_contract set pwd c ac c' : wallet_life span set pwd c -> wf_account ac ->
    CreateContract ripemd160 ac c = Ok (c', inl tt) -> wallet_life span set pwd c'
| life_multisig set pwd c owner m keys c' : wallet_life span set pwd c -> wf_u160 owner -> 1 <= m <= maxAlloc -> small (CreateMultiSigRedeemScript m keys) ->
    CreateMultiSignContract ripemd160 owner m keys c = Ok (c', inl tt) -> wallet_life span set pwd c'
| life_delete_contract set pwd c h c' : wallet_life span set pwd c -> wf_u160 h ->
    (length (List.filter (names_contract h) (fd_Contract (fs_data c))) <= 1)%nat ->
    DeleteContract h c = Ok (c', inl tt) -> wallet_life span set pwd c'
| life_block set pwd c b c' : wallet_life span set pwd c -> wf_block_txs (Transactions b) ->
    ProcessOneBlock span b c = Ok (c', inl tt) -> Z.of_nat (length (coins c')) < 2 ^ 32 -> wallet_life span set pwd c'
| life_delete_coins set pwd c c' : wallet_life span set pwd c -> DeleteCoins c = Ok (c', inl tt) -> wallet_life span set pwd c'
| life_rebuild set pwd c c' : wallet_life span set pwd c -> Rebuild c = Ok (c', inl tt) -> wallet_life span set pwd c'
| life_password set pwd c old new c' ok : wallet_life span set pwd c ->
    ChangePassword old new c = Ok (c', inl ok) -> wallet_life span set (if ok : bool then new else pwd) c'
| life_open set pwd c c' : wallet_life span set pwd c ->
    Open ripemd160 ScalarBaseMult pwd (blank_client (fs_file c)) = Ok (c', inl tt) -> wallet_life span true pwd c'.

Lemma Create_saved iv mk pwd chain pair file :
  length iv = 16%nat -> wf_bytes iv -> length mk = 32%nat -> wf_bytes mk -> key_generated pair ->
  exists c, Create ripemd160 iv mk pwd chain pair (blank_client file) = Ok (c, inl tt) /\ saved pwd (mainAccount c) c.
Proof.
  intros Li Wi Lm Wm Kp. destruct (NewClient_create_stored iv mk pwd chain file Li Wi Lm Wm) as (c1 & E1 & St1 & _).
  destruct (CreateAccount_stored pwd c1 [] [] pair St1 Kp) as (c2 & ac & E2 & St2 & _ & Wa).
  destruct (CreateContract_stored pwd c2 [ac] [] ac St2 Wa) as (c3 & ct & E3 & St3 & _). exists (set_mainAccount (ac_ProgramHash ac) c3). split.
  - unfold Create. rewrite (w_bind_run _ _ _ _ _ (w_error_run _ _ _ _ _ E1)), (w_bind_run _ _ _ _ _ E2), (w_bind_run _ _ _ _ _ E3). done.
  - exists ac, [], [ct]. split; [|done]. destruct St3. by split.
Qed.
Lemma Recover_saved iv mk pwd chain text priv file :
  length iv = 16%nat -> wf_bytes iv -> length mk = 32%nat -> wf_bytes mk -> HexStringToBytes text = (priv, None) -> length priv = 32%nat -> wf_bytes priv ->
  exists c main, Recover ripemd160 ScalarBaseMult iv mk pwd chain text (blank_client file) = Ok (c, inl tt) /\ saved pwd main c.
Proof.
  intros Li Wi Lm Wm Et Lp Wp. destruct (NewClient_create_stored iv mk pwd chain file Li Wi Lm Wm) as (c1 & E1 & St1 & _).
  destruct (CreateAccountByPrivateKey_stored pwd c1 [] [] priv St1 Lp Wp) as (c2 & ac & E2 & St2 & _ & Wa).
  destruct (CreateContract_stored pwd c2 [ac] [] ac St2 Wa) as (c3 & ct & E3 & St3 & _). exists c3, (ac_ProgramHash ac). split.
  - unfold Recover. rewrite (w_bind_run _ _ _ _ _ (w_error_run _ _ _ _ _ E1)), Et, (w_bind_run (w_ok (priv, None)) _ _ _ priv eq_refl), (w_bind_run _ _ _ _ _ E2). done.
  - by exists ac, [], [ct].
Qed.

(** The state behind every operation but the first: what it does to [stored]. *)
Lemma saved_step pwd pwd' c c' (set : bool) main : saved pwd main c -> (set = true -> mainAccount c = main) ->
  (forall ac acs cts, stored pwd c (ac :: acs) cts -> exists acs' cts', stored pwd' c' (ac :: acs') cts' /\ mainAccount c' = mainAccount c) ->
  exists main, saved pwd' main c' /\ (set = true -> mainAccount c' = main).
Proof.
  intros (ac & acs & cts & St & Eq) Hm Step. destruct (Step ac acs cts St) as (acs' & cts' & St' & Em). exists main.
  split; [by exists ac, acs', cts'|]. intros Hs. rewrite Em. by apply Hm.
Qed.

Lemma life_saved span set pwd c : wallet_life span set pwd c -> exists main, saved pwd main c /\ (set = true -> mainAccount c = main).
Proof.
  induction 1 as [iv mk pwd chain pair file c Li Wi Lm Wm Kp E|iv mk pwd chain text priv file c Li Wi Lm Wm Et Lp Wp E|
    set pwd c pair ac c' _ (main & S & Hm) Kp E|set pwd c priv ac c' _ (main & S & Hm) Lp Wp E|set pwd c h c' _ (main & S & Hm) Wh L E|
    set pwd c ac c' _ (main & S & Hm) Wa E|set pwd c owner m keys c' _ (main & S & Hm) Wo Hk Wk E|set pwd c h c' _ (main & S & Hm) Wh L E|
    set pwd c b c' _ (main & S & Hm) Wb E Lc|set pwd c c' _ (main & S & Hm) E|set pwd c c' _ (main & S & Hm) E|
    set pwd c old new c' ok _ (main & S & Hm) E|set pwd c c' _ (main & S & Hm) E].
  - destruct (Create_saved iv mk pwd chain pair file Li Wi Lm Wm Kp) as (c1 & E1 & S). rewrite E in E1. injection E1 as <-. eauto.
  - destruct (Recover_saved iv mk pwd chain text priv file Li Wi Lm Wm Et Lp Wp) as (c1 & main & E1 & S). rewrite E in E1. injection E1 as <-. by exists main.
  - apply (saved_step _ _ _ _ _ _ S Hm). intros a acs cts St. destruct (CreateAccount_stored _ _ _ _ _ St Kp) as (c1 & a1 & E1 & St1 & Em1 & _).
    rewrite E in E1. injection E1 as <- <-. by exists (acs ++ [ac]), cts.
  - apply (saved_step _ _ _ _ _ _ S Hm). intros a acs cts St. destruct (CreateAccountByPrivateKey_stored _ _ _ _ _ St Lp Wp) as (c1 & a1 & E1 & St1 & Em1 & _).
    rewrite E in E1. injection E1 as <- <-. by exists (acs ++ [ac]), cts.
  - apply (saved_step _ _ _ _ _ _ S Hm). intros a acs cts St. destruct (DeleteAccount_stored _ _ _ _ _ _ _ St Wh L E) as (acs' & St1 & Em1). by exists acs', cts.
  - apply (saved_step _ _ _ _ _ _ S Hm). intros a acs cts St. destruct (CreateContract_stored _ _ _ _ _ St Wa) as (c1 & ct & E1 & St1 & Em1).
    rewrite E in E1. injection E1 as <-. by exists acs, (cts ++ [ct]).
  - apply (saved_step _ _ _ _ _ _ S Hm). intros a acs cts St. destruct (CreateMultiSignContract_stored _ _ _ _ _ _ _ St Wo Hk Wk) as (c1 & ct & E1 & St1 & Em1).
    rewrite E in E1. injection E1 as <-. by exists acs, (cts ++ [ct]).
  - apply (saved_step _ _ _ _ _ _ S Hm). intros a acs cts St. destruct (DeleteContract_stored _ _ _ _ _ St Wh L) as (c1 & cts' & E1 & St1 & Em1).
    rewrite E in E1. injection E1 as <-. by exists acs, cts'.
  - apply (saved_step _ _ _ _ _ _ S Hm). intros a acs cts St. destruct (ProcessOneBlock_stored _ _ _ _ _ _ _ St Wb E Lc) as (St1 & Em1). by exists acs, cts.
  - apply (saved_step _ _ _ _ _ _ S Hm). intros a acs cts St. destruct (DeleteCoins_stored _ _ _ _ St) as (c1 & E1 & St1 & Em1). rewrite E in E1. injection E1 as <-. by exists acs, cts.
  - apply (saved_step _ _ _ _ _ _ S Hm). intros a acs cts St. destruct (Rebuild_stored _ _ _ _ St) as (c1 & E1 & St1 & Em1). rewrite E in E1. injection E1 as <-. by exists acs, cts.
  - apply (saved_step _ _ _ _ _ _ S Hm). intros a acs cts St. destruct (ChangePassword_stored pwd old new c _ _ St) as (c1 & ok1 & E1 & St1 & Em1 & _).
    rewrite E in E1. injection E1 as <- <-. by exists acs, cts.
  - rewrite (saved_opens pwd main c S) in E. injection E as <-. exists main. split; [by apply reopened_saved|done].
Qed.

Lemma reopened_same main c : mainAccount c = main -> map_Forall (fun _ ac => length (PrivateKey ac) = 32%nat) (accounts c) -> reopened main c = c.
Proof.
  intros <- F. unfold reopened. replace (padded <$> accounts c) with (accounts c); [by destruct c|].
  apply map_eq. intros h. rewrite lookup_fmap. destruct (accounts c !! h) as [ac|] eqn:E; [|done]. cbn. f_equal.
  unfold padded. rewrite pad32_full by (by apply (F h)). by destruct ac.
Qed.

(** C24: A wallet is in its file.  Take a wallet made by [Create] or [Recover] and
    then changed by operations that succeeded, in any number and order: accounts
    generated, imported from 32 bytes or deleted, contracts made or deleted, blocks
    processed, coins deleted, the wallet rebuilt, its password changed, the file
    reopened; where an account or a contract is deleted, the file has it at most
    once.  Opening the file with the password succeeds and gives the
    wallet back: the same contracts, coins, height and keys, private keys with the
    leading zeros that a generated one lacks, and as main account the first one,
    an account of the wallet, which is also the one in memory unless the wallet was
    recovered and never opened.  When in addition all private keys have 32 bytes, it
    is the very same wallet.  A password of another hash opens nothing and leaves the file as
    it is.  And creating a wallet succeeds. *)
Theorem wallet_reopens (span : Z) :
  (forall iv mk pwd chain pair file, length iv = 16%nat -> wf_bytes iv -> length mk = 32%nat -> wf_bytes mk -> key_generated pair ->
     exists c, Create ripemd160 iv mk pwd chain pair (blank_client file) = Ok (c, inl tt) /\ wallet_life span true pwd c) /\
  forall main_set pwd c, wallet_life span main_set pwd c ->
    (exists main, Open ripemd160 ScalarBaseMult pwd (blank_client (fs_file c)) = Ok (reopened main c, inl tt) /\
       is_Some (accounts c !! main) /\
       (main_set = true -> mainAccount c = main) /\
       (main_set = true -> map_Forall (fun _ ac => length (PrivateKey ac) = 32%nat) (accounts c) -> reopened main c = c)) /\
    forall pwd', sha256 (ToAesKey pwd) <> sha256 (ToAesKey pwd') ->
      exists c', Open ripemd160 ScalarBaseMult pwd' (blank_client (fs_file c)) = Ok (c', inr (NewError "client nil")) /\
        accounts c' = ∅ /\ contracts c' = ∅ /\ coins c' = [] /\ fs_file c' = fs_file c.
Proof.
  split.
  - intros iv mk pwd chain pair file Li Wi Lm Wm Kp. destruct (Create_saved iv mk pwd chain pair file Li Wi Lm Wm Kp) as (c & E & _).
    exists c. split; [exact E|]. by apply (life_create span iv mk pwd chain pair file).
  - intros set pwd c L. apply life_saved in L as (main & S & Hm). split; [|intros pwd' N; by apply (saved_locked pwd _ main)].
    exists main. split; [by apply saved_opens|]. split; [|split; [exact Hm|intros Hs F; apply reopened_same; auto]].
    destruct S as (ac & acs & cts & St & ->). rewrite (st_accounts _ _ _ _ St). cbn [foldl].
    apply (load_is_Some ac_ProgramHash). unfold add_account. rewrite lookup_insert_eq. eauto.
Qed.
End Accounts.

(** * Deleting a contract *)

(** Deleting a contract that was saved once removes it from the wallet and from
    the file and touches nothing else; when it was saved twice in a row last -
    saving does not look for it - the loop that deletes runs past the end of
    the shortened list and panics, after the contract has left the memory. *)
Theorem contract_deleted (c : Client) (d : FileData) (h : Uint160) (l1 : list ContractData) (a : ContractData) :
  fs_file c = Some d -> cd_ProgramHash a = BytesToHexString h -> Forall (fun e => cd_ProgramHash e <> BytesToHexString h) l1 ->
  (forall l2, fd_Contract d = l1 ++ a :: l2 -> Forall (fun e => cd_ProgramHash e <> BytesToHexString h) l2 ->
     DeleteContract h c = Ok (written (set_fd_Contract (l1 ++ l2)) (set_contracts (delete h (contracts c)) (set_fs_data d c)), inl tt)) /\
  (fd_Contract d = l1 ++ [a; a] -> DeleteContract h c = Panic).
Proof.
  intros Ef Ea H1. assert (E : forall r, delete_all (fun v => bool_decide (BytesToHexString h = cd_ProgramHash v)) (fun _ => false) (fd_Contract d) = r ->
    DeleteContract h c = match r with
                         | Ok (l, _) => Ok (written (set_fd_Contract l) (set_contracts (delete h (contracts c)) (set_fs_data d c)), inl tt)
                         | Panic => Panic | Unmodelled => Unmodelled end).
  { intros r Er. unfold DeleteContract. rewrite (w_bind_run (w_upd _) _ _ _ tt eq_refl).
    unfold DeleteContractData, readDB, upd_data, writeDB, w_upd, w_get, mbind, wM_bind. cbn [fs_file set_contracts]. rewrite Ef. cbn beta iota.
    change (fs_data (set_fs_data d _)) with d. rewrite Er. by destruct r as [[l kept]| |]. }
  assert (M : forall l, Forall (fun e => cd_ProgramHash e <> BytesToHexString h) l -> Forall (fun v => bool_decide (BytesToHexString h = cd_ProgramHash v) = false) l).
  { intros l F. eapply list.Forall_impl; [exact F|]. intros e N. by apply bool_decide_eq_false_2. }
  assert (Ha : bool_decide (BytesToHexString h = cd_ProgramHash a) = true) by (by apply bool_decide_eq_true_2). split.
  - intros l2 Ed H2. by rewrite (E _ eq_refl), Ed, delete_all_once by auto.
  - intros Ed. by rewrite (E _ eq_refl), Ed, delete_all_twice by auto.
Qed.
Lemma contract_deleted_witness :
  DeleteContract (repeat 7 20) (set_fs_file (Some (set_fd_Contract [contract_entry own_contract; contract_entry own_contract] new_FileData)) small_wallet) = Panic.
Proof.
  apply (contract_deleted (set_fs_file (Some (set_fd_Contract [contract_entry own_contract; contract_entry own_contract] new_FileData)) small_wallet)
    (set_fd_Contract [contract_entry own_contract; contract_entry own_contract] new_FileData) (repeat 7 20) [] (contract_entry own_contract));
    [reflexivity|reflexivity|constructor|reflexivity].
Defined.

(** ** A small wallet *)

(** A cipher that changes nothing satisfies the law. *)
#[local] Instance plain_aes : IAes := {| aes_Encrypt := fun _ b => Some b; aes_Decrypt := fun _ b => Some b |}.
#[local] Instance plain_aes_laws : IAesLaws.
Proof. intros key b _ Lb Wb. by exists b. Qed.
Definition flat_ripemd (b : bytes) : bytes := map (fun x => x mod 256) (sample_ripemd b).
Lemma flat_ripemd_ok b : wf_u160 (flat_ripemd b).
Proof.
  unfold flat_ripemd. split; [rewrite length_map; apply sample_ripemd_length|]. apply list.Forall_forall. intros x Hx.
  apply list_elem_of_In, in_map_iff in Hx as (y & <- & _). apply Z.mod_pos_bound. lia.
Qed.

(** A wallet with a generated key whose first byte is zero, rebuilt. *)
Lemma wallet_reopens_witness :
  exists c c' main, Create flat_ripemd (repeat 1 16) (repeat 2 32) (str "secret") None (repeat 3 31, NewPubKey (fun _ => (p256_Gx, p256_Gy)) (repeat 3 31)) (blank_client None) = Ok (c, inl tt) /\
    Rebuild c = Ok (c', inl tt) /\
    Open flat_ripemd (fun _ => (p256_Gx, p256_Gy)) (str "secret") (blank_client (fs_file c')) = Ok (reopened main c', inl tt).
Proof.
  assert (P : forall k : Z, 0 <= fst ((fun _ : Z => (p256_Gx, p256_Gy)) k) < 2 ^ 256 /\ 0 <= snd ((fun _ : Z => (p256_Gx, p256_Gy)) k) < 2 ^ 256)
    by (intros k; split; split; by vm_compute).
  destruct (wallet_reopens flat_ripemd (fun _ => (p256_Gx, p256_Gy)) flat_ripemd_ok P 0) as [C O].
  destruct (C (repeat 1 16) (repeat 2 32) (str "secret") None (repeat 3 31, NewPubKey (fun _ => (p256_Gx, p256_Gy)) (repeat 3 31)) None) as (c & E & L);
    [reflexivity|by_decision|reflexivity|by_decision|split; [cbn; lia|split; [by_decision|reflexivity]]|].
  assert (R : match Rebuild c with Ok (_, inl tt) => true | _ => false end = true).
  { destruct (life_saved flat_ripemd (fun _ => (p256_Gx, p256_Gy)) flat_ripemd_ok P 0 true (str "secret") c L) as (main & (ac & acs & cts & St & _) & _).
    destruct (Rebuild_stored flat_ripemd (fun _ => (p256_Gx, p256_Gy)) _ _ _ _ St) as (c1 & -> & _). reflexivity. }
  destruct (Rebuild c) as [[c' [[]|]]| |] eqn:E'; try discriminate R.
  destruct (O true (str "secret") c' (life_rebuild _ _ 0 _ _ c c' L E')) as [(main & Eo & _) _].
  exists c, c', main. split; [exact E|]. split; [exact E'|exact Eo].
Defined.
