(* ===== verification/Committee.v ===== *)
(** The code that is left of a consensus by book keepers and that nothing in the
    node calls any more: the address and the list of the book keepers
    ([core/ledger/ledger.go], [core/store/ChainStore/ChainStore.go]), the
    verification of a signed header, and the ordering of the signatures of a
    multi-signature contract ([core/contract/contractContext.go],
    [pubkeyParameter.go]). *)

From S2P Require Import Prelude Sha256 Serialization Common Fixed64 Transaction Merkle AuxPow Block Store Vm Address PubKey Contract Message Validator Wallet WalletFile.

(** * Book keepers *)

Section BookKeepers.
Variable ripemd160 : bytes -> bytes.

(** The keys as [EncodePoint] gives them, in the order [sort.Sort] leaves
    them. *)
Definition GetBookKeeperAddress (bookKeepers : list bytes) : Uint160 * err :=
  let n := Z.of_nat (length bookKeepers) in
  match bookKeepers with
  | [] => (zero160, Some (NewError "[Ledger] , GetBookKeeperAddress with no bookKeeper"))
  | pubkey :: _ =>
      let temp := if 1 <? n then CreateMultiSigRedeemScript (n - Z.quot (n - 1) 3) bookKeepers else CreateSignatureRedeemScript pubkey in
      let '(codehash, e) := ToCodeHash ripemd160 temp in
      match e with
      | Some _ => (zero160, Some (NewError "[Ledger],GetBookKeeperAddress failed with ToCodeHash."))
      | None => (codehash, None)
      end
  end.
End BookKeepers.

Definition SYS_CurrentBookKeeper : Z := 0x42.
Fixpoint read_keepers (n : nat) (acc : list PubKey) : rd (list PubKey * err) :=
  match n with
  | O => mret (acc, None)
  | S n => '(bk, e) ← PubKey_DeSerialize (mkPubKey None None); iferr e return [] ;; read_keepers n (acc ++ [bk])
  end.
Section Keepers.
Context {DB : Type} `{IStore DB}.
Definition read_list : rd (list PubKey * list PubKey * err) :=
  '(currCount, e) ← ReadUint8;
  iferr e return ([], []) ;;
  '(currBookKeeper, e) ← read_keepers (Z.to_nat currCount) [];
  iferr e return ([], []) ;;
  '(nextCount, e) ← ReadUint8;
  iferr e return ([], []) ;;
  '(nextBookKeeper, e) ← read_keepers (Z.to_nat nextCount) [];
  iferr e return ([], []) ;;
  mret (currBookKeeper, nextBookKeeper, None).
Definition GetBookKeeperList (cs : ChainStore DB) : option (list PubKey * list PubKey * err) :=
  match db_Get (cs_db cs) [SYS_CurrentBookKeeper] with
  | None => Some ([], [], Some (NewError "leveldb: not found"))
  | Some bkListValue => fst <$> read_list (mkReader BytesReader bkListValue)
  end.

(** A header with its program, verified as signed data; the rest is as in
    [powVerifyHeader], but for the time. *)
Definition verifyHeader `{ICrypto} (ripemd160 : bytes -> bytes) `{SignableData Blockdata} (cs : ChainStore DB) (header : Blockdata) : outcome bool :=
  match getHeaderWithCache cs (PrevBlockHash header) with
  | None => Panic
  | Some None => Ok false
  | Some (Some prevHeader) =>
      if negb (uint32 (bd_Height prevHeader + 1) =? bd_Height header) then Ok false
      else if bd_Timestamp header <=? bd_Timestamp prevHeader then Ok false
      else
        '(flag, e) ← VerifySignableData ripemd160 header;
        mret (negb (negb flag || is_err e))
  end.
Definition BlockInCache (cs : ChainStore DB) (hash : Uint256) : bool := false.
End Keepers.

(** * Ordered signatures *)

Record PubkeyParameter := mkPubkeyParameter { pp_PubKey : bytes; pp_Parameter : bytes }.
Record ParameterIndex := mkParameterIndex { pi_Parameter : bytes; pi_Index : Z }.

(** [Swap] exchanges the indices and leaves the parameters where they are, so
    sorting - in descending order, by [sort.Reverse] - sorts the indices
    alone. *)
Definition pi_Swap (i j : nat) (l : list ParameterIndex) : option (list ParameterIndex) :=
  a ← l !! i; b ← l !! j;
  let l := <[i := mkParameterIndex (pi_Parameter a) (pi_Index b)]> l in
  b ← l !! j;
  Some (<[j := mkParameterIndex (pi_Parameter b) (pi_Index a)]> l).

(** The keys of a script with their places.  A slice that ends before it
    starts, and an index beyond the script, panic. *)
Fixpoint parse_keys (fuel : nat) (Code : bytes) (i : nat) (Index : Z) (acc : gmap bytes Z) : option (gmap bytes Z) :=
  match fuel with
  | O => Some acc
  | S fuel =>
      c ← Code !! i;
      if negb (c =? 33) then Some acc else
      let i := S i in
      key ← slice Code i 33;
      parse_keys fuel Code (i + 33)%nat (Index + 1) (<[BytesToHexString key := Index]> acc)
  end.
(** Every turn needs 34 bytes, so that the script is fuel enough. *)
Definition ParseContractPubKeys (contract : Contract) : option (gmap bytes Z) :=
  let Code := c_Code contract in
  c ← Code !! 0%nat;
  let i := if c =? 1 then 2%nat else if c =? 2 then 3%nat else O in
  parse_keys (S (length Code)) Code i 0 ∅.

(** The list of a contract starts with as many empty entries as it has
    parameters; the entries are appended behind them. *)
Definition AddSignatureToMultiList (multi : list (option (list PubkeyParameter))) (contractIndex : nat) (contract : Contract) (pubkey : PubKey) (parameter : bytes) :
    option (list (option (list PubkeyParameter)) * err) :=
  l ← multi !! contractIndex;
  let l := match l with None => replicate (length (c_Parameters contract)) (mkPubkeyParameter [] []) | Some l => l end in
  let multi := <[contractIndex := Some l]> multi in
  '(pk, e) ← EncodePoint pubkey true;
  if is_err e then Some (multi, e) else
  Some (<[contractIndex := Some (l ++ [mkPubkeyParameter (BytesToHexString pk) (BytesToHexString parameter)])]> multi, None).

(** The hexadecimal texts, decoded, with the places of their keys. *)
Fixpoint parameter_indices (pkIndexs : gmap bytes Z) (l : list PubkeyParameter) : list ParameterIndex + error :=
  match l with
  | [] => inl []
  | p :: l =>
      let '(b, e) := HexStringToBytes (pp_Parameter p) in
      if is_err e then inr (NewError "Contract AddContract pubKeyBytes HexStringToBytes failed.") else
      match parameter_indices pkIndexs l with
      | inl r => inl (mkParameterIndex b (default 0 (pkIndexs !! pp_PubKey p)) :: r)
      | inr e => inr e
      end
  end.
(** The context after adding the parameters one after the other. *)
Fixpoint add_parameters (cxt : ContractContext) (contract : Contract) (i : Z) (l : list ParameterIndex) : option (ContractContext * err) :=
  match l with
  | [] => Some (cxt, None)
  | p :: l =>
      '(cxt, e) ← cxt_Add cxt contract i (pi_Parameter p);
      if is_err e then Some (cxt, e) else add_parameters cxt contract (i + 1) l
  end.
Definition sort_indices (l : list ParameterIndex) : list ParameterIndex :=
  zip_with mkParameterIndex (map pi_Parameter l) (sort_by (fun a b => b <=? a) (map pi_Index l)).
Definition AddMultiSignatures (cxt : ContractContext) (multi : list (option (list PubkeyParameter))) (index : nat) (contract : Contract) :
    option (ContractContext * list (option (list PubkeyParameter)) * err) :=
  pkIndexs ← ParseContractPubKeys contract;
  l ← multi !! index;
  match parameter_indices pkIndexs (default [] l) with
  | inr e => Some (cxt, multi, Some e)
  | inl paraIndexs =>
      '(cxt, e) ← add_parameters cxt contract 0 (sort_indices paraIndexs);
      if is_err e then Some (cxt, multi, e) else Some (cxt, <[index := None]> multi, None)
  end.

(** * Theorems *)

(** Half-way between the two bounds of fault tolerance: with [f = (n - 1) / 3]
    book keepers at fault, the others can still sign for the address, and two
    sets of signers of the required size have an honest member in common; the
    address is that of a contract that counts these signatures. *)
Theorem bookkeeper_quorum (ripemd160 : bytes -> bytes) (keys : list bytes) (h : Uint160) :
  let n := Z.of_nat (length keys) in let f := (n - 1) / 3 in let m := n - f in
  2 <= n <= 24 -> GetBookKeeperAddress ripemd160 keys = (h, None) ->
  1 <= m <= n /\ m <= n - f /\ f < 2 * m - n /\
  CreateMultiSigRedeemScript m keys = PushNumber m ++ concat (map PushData keys) ++ PushNumber n ++ [CHECKMULTISIG] /\
  ToCodeHash ripemd160 (CreateMultiSigRedeemScript m keys) = (h, None).
Proof.
  intros n f m Hn E. assert (Hf : 3 * f <= n - 1 < 3 * f + 3) by (pose proof (Z.div_mod (n - 1) 3 ltac:(lia)); pose proof (Z.mod_pos_bound (n - 1) 3 ltac:(lia)); unfold f; lia).
  assert (Hm : 1 <= m <= n) by (unfold m; lia). split; [done|]. split; [unfold m; lia|]. split; [unfold m; lia|]. split.
  - unfold CreateMultiSigRedeemScript. fold n. rewrite (proj2 (Z.leb_le 1 m)), (proj2 (Z.leb_le m n)), (proj2 (Z.leb_le n 24)) by lia. done.
  - unfold GetBookKeeperAddress in E. destruct keys as [|k keys]; [cbn in n; lia|]. fold n in E. rewrite (proj2 (Z.ltb_lt 1 n)) in E by lia.
    rewrite Z.quot_div_nonneg in E by lia. fold f in E. fold m in E. destruct (ToCodeHash ripemd160 _) as [c [e|]]; [done|]. by injection E as ->.
Qed.

(** Sorting does not move the parameters. *)
Lemma pi_Swap_parameters i j l l' : pi_Swap i j l = Some l' -> map pi_Parameter l' = map pi_Parameter l.
Proof.
  unfold pi_Swap. destruct (l !! i) as [a|] eqn:Ei; [|done]. destruct (l !! j) as [b|] eqn:Ej; [|done]. cbn [mbind option_bind].
  destruct (<[i:=_]> l !! j) as [b'|] eqn:Eb; [|done]. intros [= <-]. 
  assert (K : forall (l : list ParameterIndex) k x v, l !! k = Some x -> map pi_Parameter (<[k := mkParameterIndex (pi_Parameter x) v]> l) = map pi_Parameter l).
  { intros m k x v E. rewrite list_fmap_insert. cbn. apply list_insert_id. by rewrite list_lookup_fmap, E. }
  rewrite (K _ j b') by done. by apply (K _ i a).
Qed.

(** The number of parameters the context has room for. *)
Definition room (cxt : ContractContext) (c : Contract) : option nat :=
  _ ← Codes cxt !! default 0%nat (GetIndex cxt (c_ProgramHash c));
  ps ← cxt_Parameters cxt !! default 0%nat (GetIndex cxt (c_ProgramHash c));
  Some (match ps with None => length (c_Parameters c) | Some ps => length ps end).
Lemma cxt_Add_room cxt c i p cxt' e n : room cxt c = Some n -> cxt_Add cxt c i p = Some (cxt', e) -> room cxt' c = Some n /\ e = None /\ 0 <= i < Z.of_nat n.
Proof.
  unfold room, cxt_Add. set (k := default 0%nat (GetIndex cxt (c_ProgramHash c))). destruct (Codes cxt !! k) as [code|] eqn:Ec; [|done]. cbn.
  destruct (cxt_Parameters cxt !! k) as [ps|] eqn:Ep; [|done]. cbn. intros [= En].
  set (ps' := match ps with None => replicate (length (c_Parameters c)) None | Some ps => ps end).
  assert (El : length ps' = n) by (unfold ps'; destruct ps; [done|by rewrite length_replicate]).
  destruct (Z.ltb_spec i 0), (Z.leb_spec (Z.of_nat (length ps')) i); cbn [orb]; try done. intros [= <- <-]. split; [|split; [done|lia]].
  unfold GetIndex. cbn [ProgramHashes Codes cxt_Parameters]. fold (GetIndex cxt (c_ProgramHash c)). fold k.
  rewrite list_lookup_insert_eq by (by eapply lookup_lt_Some). destruct code; cbn; [rewrite Ec|rewrite list_lookup_insert_eq by (by eapply lookup_lt_Some)]; cbn; by rewrite length_insert, El.
Qed.
Lemma too_many_parameters c n l : forall cxt i, room cxt c = Some n -> 0 <= i <= Z.of_nat n -> Z.of_nat n < i + Z.of_nat (length l) ->
  add_parameters cxt c i l = None.
Proof.
  induction l as [|p l IH]; intros cxt i Hr Hi Hl; cbn [length] in Hl; [lia|]. cbn [add_parameters].
  destruct (cxt_Add cxt c i (pi_Parameter p)) as [[cxt' e]|] eqn:E; [|done]. cbn. destruct (cxt_Add_room _ _ _ _ _ _ _ Hr E) as (Hr' & -> & Hi'). cbn [is_err].
  apply IH; [done|lia|lia].
Qed.
Lemma length_parameter_indices m l r : parameter_indices m l = inl r -> length r = length l.
Proof.
  revert r. induction l as [|p l IH]; intros r E; cbn in E; [by injection E as <-|]. destruct (HexStringToBytes _) as [b [e|]]; [done|]. cbn in E.
  destruct (parameter_indices m l) as [r'|]; [|done]. injection E as <-. cbn. f_equal. by apply IH.
Qed.

(** Ordering signatures never works: the first signature of a contract is put
    behind as many empty entries as the contract has parameters, so that handing
    the list over to the context runs out of its range - whatever the contract
    and the signature, as long as the script itself can be parsed. *)
Theorem multi_signatures_panic (cxt : ContractContext) (multi multi' : list (option (list PubkeyParameter))) (k : nat) (c : Contract) (pubkey : PubKey) (sgn : bytes) :
  multi !! k = Some None -> wf_bytes sgn -> AddSignatureToMultiList multi k c pubkey sgn = Some (multi', None) ->
  room cxt c = Some (length (c_Parameters c)) -> is_Some (ParseContractPubKeys c) ->
  AddMultiSignatures cxt multi' k c = None.
Proof.
  intros Ek Hw Ea Hr [pk Ep]. unfold AddSignatureToMultiList in Ea. rewrite Ek in Ea. cbn [mbind option_bind] in Ea.
  destruct (EncodePoint pubkey true) as [[b e]|]; [|done]. cbn in Ea. destruct e; [done|]. injection Ea as <-.
  unfold AddMultiSignatures. rewrite Ep. cbn [mbind option_bind]. rewrite list_insert_insert_eq, list_lookup_insert_eq by (by eapply lookup_lt_Some). cbn [mbind option_bind default].
  assert (P : forall n l, exists r, parameter_indices pk (replicate n (mkPubkeyParameter [] []) ++ [mkPubkeyParameter l (BytesToHexString sgn)]) = inl r).
  { induction n as [|n IH]; intros l; cbn; [rewrite hex_roundtrip by done; cbn; by eexists|]. destruct (IH l) as [r ->]. by eexists. }
  destruct (P (length (c_Parameters c)) (BytesToHexString b)) as [r Er]. match goal with |- context [parameter_indices pk ?x] => replace (parameter_indices pk x) with (@inl (list ParameterIndex) error r) end. cbn beta iota. rewrite (too_many_parameters c _ _ cxt 0 Hr); [done|lia|].
  unfold sort_indices. rewrite length_zip_with, length_map, (Permutation_length (sort_by_perm _ _)), length_map, (length_parameter_indices _ _ _ Er), length_app, length_replicate. cbn. lia.
Qed.
