(* ===== verification/TxPool.v ===== *)
(** [net/node/transactionPool.go]: the pool of verified transactions and the
    map of the outputs they reserve.

    The locks of the code guard single accesses to the two maps, not whole
    operations.  The invariant below is of operations that run one after the other;
    what two interleaved additions can do is [interleaved_appends_double_spend].  The two maps
    share the transaction object; of an entry of [inputUTXOList] only the hash
    and the inputs are ever read, which setting the fees does not change.  The
    counter [txnCnt] is never used. *)

From S2P Require Import Prelude Sha256 Serialization Common Fixed64 Transaction Merkle AuxPow Block.
From S2P Require Import Store Utxo Difficulty MedianTime Vm Contract Validator.

Record TXNPool := mkPool { txnList : gmap Uint256 Transaction; inputUTXOList : gmap bytes Transaction }.

Definition pool_init : TXNPool := mkPool ∅ ∅.

Section Pool.
Context `{Ledger} `{ICrypto} (cfg : Config) (ripemd160 : bytes -> bytes).

Definition pool_GetTransaction (p : TXNPool) (hash : Uint256) : option Transaction := txnList p !! hash.
Definition GetTransactionCount (p : TXNPool) : nat := size (txnList p).
Definition getInputUTXOList (p : TXNPool) (input : UTXOTxInput) : option Transaction :=
  inputUTXOList p !! UTXOTxInput_ToString input.

Definition addInputUTXOList (t : Transaction) (p : TXNPool) (input : UTXOTxInput) : TXNPool :=
  match inputUTXOList p !! UTXOTxInput_ToString input with
  | Some _ => p
  | None => mkPool (txnList p) (<[UTXOTxInput_ToString input := t]> (inputUTXOList p))
  end.
Definition delInputUTXOList (p : TXNPool) (input : UTXOTxInput) : TXNPool :=
  mkPool (txnList p) (delete (UTXOTxInput_ToString input) (inputUTXOList p)).

Definition addtxnList (p : TXNPool) (txn : Transaction) : option (TXNPool * bool) :=
  h ← Tx_Hash txn;
  match txnList p !! h with
  | Some _ => Some (p, false)
  | None => Some (mkPool (<[h := txn]> (txnList p)) (inputUTXOList p), true)
  end.
Definition deltxnList (p : TXNPool) (txn : Transaction) : option (TXNPool * bool) :=
  h ← Tx_Hash txn;
  match txnList p !! h with
  | None => Some (p, false)
  | Some _ => Some (mkPool (delete h (txnList p)) (inputUTXOList p), true)
  end.

(** All inputs are looked up before any is reserved. *)
Definition verifyDoubleSpend (p : TXNPool) (txn : Transaction) : TXNPool * err :=
  let '(reference, e) := GetReference txn in
  if is_err e then (p, e)
  else
    let inputs := map fst reference in
    if existsb (fun k => match getInputUTXOList p k with Some _ => true | None => false end) inputs
    then (p, Some (NewError "double spent UTXO inputs detected"))
    else (foldl (addInputUTXOList txn) p inputs, None).
Definition verifyTransactionWithTxnPool (p : TXNPool) (txn : Transaction) : TXNPool * bool :=
  let '(p, e) := verifyDoubleSpend p txn in (p, negb (is_err e)).

(** [Fee * 1000] wraps and the division truncates. *)
Definition fee_per_kb (fee : Fixed64) (size : Z) : Fixed64 := int64 (Z.quot (int64 (fee * 1000)) size).

Definition AppendTxnPool (p : TXNPool) (txn : Transaction) : outcome (TXNPool * ErrCode) :=
  errCode ← CheckTransactionSanity cfg ripemd160 txn;
  if negb (bool_decide (errCode = ErrNoError)) then mret (p, errCode) else
  errCode ← CheckTransactionContext cfg txn;
  if negb (bool_decide (errCode = ErrNoError)) then mret (p, errCode) else
  let '(p, ok) := verifyTransactionWithTxnPool p txn in
  if negb ok then mret (p, ErrDoubleSpend) else
  let fee := GetFee txn (cfg_AssetID cfg) in
  '(b_buf, _) ← no_panic (Tx_Serialize txn);
  if Z.of_nat (length b_buf) =? 0 then Panic else
  let txn := set_Fees txn fee (fee_per_kb fee (Z.of_nat (length b_buf))) in
  '(p, _) ← no_panic (addtxnList p txn);
  mret (p, ErrNoError).

Definition MaybeAcceptTransaction (p : TXNPool) (txn : Transaction) : outcome (TXNPool * err) :=
  txHash ← no_panic (Tx_Hash txn);
  match pool_GetTransaction p txHash with
  | Some _ => mret (p, Some (NewError "already have transaction"))
  | None =>
      if IsCoinBaseTx txn then mret (p, Some (NewError "transaction is an individual coinbase")) else
      '(p, errCode) ← AppendTxnPool p txn;
      mret (p, if bool_decide (errCode = ErrNoError) then None else Some (NewError "VerifyTxs failed when AppendTxnPool"))
  end.

(** The Go map is enumerated in an arbitrary order. *)
Definition GetTxnPool (p : TXNPool) (byCount : bool) : gmap Uint256 Transaction :=
  let count := cfg_MaxTxInBlock cfg in
  let byCount := if count <=? 0 then false else byCount in
  let n := Z.of_nat (size (txnList p)) in
  let count := if (n <? count) || negb byCount then n else count in
  list_to_map (take (Z.to_nat count) (map_to_list (txnList p))).

(** ** Cleaning *)

Definition removeTransaction (p : TXNPool) (txn : Transaction) : option TXNPool :=
  '(p, _) ← deltxnList p txn;
  let '(result, e) := GetReference txn in
  Some (if is_err e then p else foldl delInputUTXOList p (map fst result)).

(** The transactions that spend outputs of [txn]. *)
Fixpoint remove_spenders (p : TXNPool) (txHash : Uint256) (i n : nat) : option TXNPool :=
  match n with
  | O => Some p
  | S n =>
      let input := mkInput txHash (uint16 (Z.of_nat i)) 0 in
      match inputUTXOList p !! UTXOTxInput_ToString input with
      | Some t => p ← removeTransaction p t; remove_spenders p txHash (S i) n
      | None => remove_spenders p txHash (S i) n
      end
  end.
Definition RemoveTransaction (p : TXNPool) (txn : Transaction) : option TXNPool :=
  txHash ← Tx_Hash txn; remove_spenders p txHash 0 (length (Outputs txn)).

Fixpoint cleanTransactionList (p : TXNPool) (txns : list Transaction) : option TXNPool :=
  match txns with
  | [] => Some p
  | t :: txns =>
      if TxType t =? CoinBase then cleanTransactionList p txns
      else '(p, _) ← deltxnList p t; cleanTransactionList p txns
  end.
(** The inputs of a transaction whose references do not resolve are kept. *)
Definition cleanUTXOList (p : TXNPool) (txs : list Transaction) : TXNPool :=
  foldl (fun p txn => foldl delInputUTXOList p (map fst (fst (GetReference txn)))) p txs.
Definition CleanSubmittedTransactions (p : TXNPool) (b : Block) : option TXNPool :=
  p ← cleanTransactionList p (Transactions b);
  Some (cleanUTXOList p (Transactions b)).

(** ** [RollbackTransaction] of consensus/pow/pow.go

    The transactions of a disconnected block, without the
    coinbase, return to the pool; the spenders of an accepted one leave it. *)
Fixpoint rollback_txs (p : TXNPool) (txs : list Transaction) : outcome TXNPool :=
  match txs with
  | [] => Ok p
  | t :: txs =>
      '(p, e) ← MaybeAcceptTransaction p t;
      p ← (if is_err e then mret p else no_panic (RemoveTransaction p t));
      rollback_txs p txs
  end.
Definition pow_RollbackTransaction (p : TXNPool) (block : Block) : outcome TXNPool :=
  match Transactions block with
  | [] => Panic
  | _ :: txs => rollback_txs p txs
  end.
End Pool.

(** * The pool invariant *)

Definition key (j : UTXOTxInput) : bytes := UTXOTxInput_ToString j.
Definition keys (ins : list UTXOTxInput) : list bytes := map key ins.
(** The inputs a pooled transaction reserves. *)
Definition reserved (t : Transaction) : list UTXOTxInput := if TxType t =? RegisterAsset then [] else UTXOInputs t.

(** Every entry is filed under its hash and holds the reservation of each of
    its inputs; a reservation is held by a transaction that has the input.  A
    reservation may outlive its transaction. *)
Record pool_inv (p : TXNPool) : Prop := {
  inv_hash : forall h t, txnList p !! h = Some t -> Tx_Hash t = Some h;
  inv_reserve : forall h t k, txnList p !! h = Some t -> k ∈ keys (reserved t) ->
    exists t', inputUTXOList p !! k = Some t' /\ Tx_Hash t' = Some h;
  inv_key : forall k t', inputUTXOList p !! k = Some t' -> k ∈ keys (reserved t') /\ Forall wf_Input (reserved t') }.

Lemma pool_init_inv : pool_inv pool_init.
Proof. constructor; cbn; intros *; rewrite lookup_empty; done. Qed.

Section Steps.
Context `{Ledger} `{ICrypto} (cfg : Config) (ripemd160 : bytes -> bytes).

Lemma GetReference_inputs t refs : GetReference t = (refs, None) -> map fst refs = reserved t.
Proof.
  unfold GetReference, reserved. destruct (TxType t =? RegisterAsset); [by intros [= <-]|].
  revert refs. induction (UTXOInputs t) as [|j ins IH]; intros refs E; cbn [GetReference_loop] in E; [by simplify_eq|].
  destruct (GetTransaction (ReferTxID j)) as [[rt ht]|]; [|done].
  destruct (Outputs rt !! Z.to_nat (ReferTxOutputIndex j)); [|done].
  destruct (GetReference_loop ins) as [refs' [e|]]; [done|]. injection E as <-. cbn. by rewrite (IH refs').
Qed.

Lemma foldl_del ins p :
  txnList (foldl delInputUTXOList p ins) = txnList p /\
  forall k, inputUTXOList (foldl delInputUTXOList p ins) !! k =
    if decide (k ∈ keys ins) then None else inputUTXOList p !! k.
Proof.
  revert p. induction ins as [|j ins IH]; intros p; [by split|]. cbn [foldl].
  destruct (IH (delInputUTXOList p j)) as [E1 E2]. split; [done|]. intros k. rewrite E2. cbn [keys map].
  destruct (decide (k ∈ keys ins)); [by rewrite decide_True by (by right)|]. cbn [inputUTXOList delInputUTXOList].
  destruct (decide (k = key j)) as [->|N].
  - rewrite decide_True by left. apply lookup_delete_eq.
  - rewrite decide_False by (by intros [?|?]%elem_of_cons). by apply lookup_delete_ne.
Qed.

Lemma foldl_add t ins p :
  (forall k, k ∈ keys ins -> inputUTXOList p !! k = None) ->
  txnList (foldl (addInputUTXOList t) p ins) = txnList p /\
  forall k, inputUTXOList (foldl (addInputUTXOList t) p ins) !! k =
    if decide (k ∈ keys ins) then Some t else inputUTXOList p !! k.
Proof.
  intros Hn.
  enough (G : forall ins p, (forall k, k ∈ keys ins -> inputUTXOList p !! k = None \/ inputUTXOList p !! k = Some t) ->
    txnList (foldl (addInputUTXOList t) p ins) = txnList p /\
    forall k, inputUTXOList (foldl (addInputUTXOList t) p ins) !! k =
      if decide (k ∈ keys ins) then Some t else inputUTXOList p !! k) by (apply G; auto).
  clear. induction ins as [|j ins IH]; intros p Hk; [by split|]. cbn [foldl].
  assert (Ha : txnList (addInputUTXOList t p j) = txnList p /\
     forall k, inputUTXOList (addInputUTXOList t p j) !! k = if decide (k = key j) then Some t else inputUTXOList p !! k).
  { unfold addInputUTXOList. destruct (Hk (key j) ltac:(left)) as [E|E]; unfold key in E; rewrite E; (split; [done|]).
    - intros k. cbn. case_decide as D; [subst; apply lookup_insert_eq|by apply lookup_insert_ne].
    - intros k. case_decide as D; [by subst|done]. }
  destruct Ha as [A1 A2]. destruct (IH (addInputUTXOList t p j)) as [E1 E2].
  { intros k Hin. rewrite A2. case_decide; [by right|]. apply Hk. by right. }
  split; [by rewrite E1|]. intros k. rewrite E2, A2. cbn [keys map].
  destruct (decide (k ∈ keys ins)); [by rewrite decide_True by (by right)|].
  destruct (decide (k = key j)) as [->|N]; [by rewrite decide_True by left|].
  by rewrite decide_False by (by intros [?|?]%elem_of_cons).
Qed.

Lemma verifyDoubleSpend_ok p t p' : verifyDoubleSpend p t = (p', None) ->
  (forall k, k ∈ keys (reserved t) -> inputUTXOList p !! k = None) /\
  txnList p' = txnList p /\
  forall k, inputUTXOList p' !! k = if decide (k ∈ keys (reserved t)) then Some t else inputUTXOList p !! k.
Proof.
  unfold verifyDoubleSpend. destruct (GetReference t) as [refs [e|]] eqn:Er; cbn [is_err]; [done|].
  rewrite (GetReference_inputs _ _ Er). destruct (existsb _ (reserved t)) eqn:Ee; [done|]. intros [= <-].
  assert (Hn : forall k, k ∈ keys (reserved t) -> inputUTXOList p !! k = None).
  { intros k (j & -> & Hj)%list_elem_of_fmap. destruct (inputUTXOList p !! key j) eqn:E; [|done].
    apply not_true_iff_false in Ee. exfalso. apply Ee, existsb_exists. exists j.
    split; [by apply list_elem_of_In|]. unfold getInputUTXOList. unfold key in E. by rewrite E. }
  split; [done|]. by apply foldl_add.
Qed.

(** Adding a transaction whose reservations went through.  A transaction
    already filed under the hash stays; the new reservations are then nobody's. *)
Lemma add_inv p t t1 p1 p2 b :
  pool_inv p -> verifyDoubleSpend p t = (p1, None) -> Forall wf_Input (UTXOInputs t) ->
  Tx_Hash t1 = Tx_Hash t -> reserved t1 = reserved t ->
  addtxnList p1 t1 = Some (p2, b) -> pool_inv p2.
Proof.
  intros [I1 I2 I3] V W Eh Er A. destruct (verifyDoubleSpend_ok _ _ _ V) as (Hn & El & Ei).
  assert (W' : Forall wf_Input (reserved t)) by (unfold reserved; destruct (_ =? _); [constructor|done]).
  assert (Old : forall h u k, txnList p !! h = Some u -> k ∈ keys (reserved u) ->
    exists t', inputUTXOList p1 !! k = Some t' /\ Tx_Hash t' = Some h).
  { intros h u k E' Hk. destruct (I2 h u k E' Hk) as (t'' & E'' & Hh). exists t''. split; [|done].
    rewrite Ei, decide_False; [done|]. intros Hk'. rewrite (Hn k Hk') in E''. done. }
  assert (Key : forall k t', inputUTXOList p1 !! k = Some t' -> k ∈ keys (reserved t') /\ Forall wf_Input (reserved t')).
  { intros k t'. rewrite Ei. case_decide; [by intros [= <-]|apply I3]. }
  unfold addtxnList in A. rewrite Eh in A. destruct (Tx_Hash t) as [h|] eqn:Et; [|done]. cbn [mbind option_bind] in A.
  rewrite El in A. destruct (txnList p !! h) as [t0|] eqn:E0; injection A as <- <-.
  { constructor; rewrite ?El; done. }
  constructor; cbn [txnList inputUTXOList]; [| |done].
  - intros h' t'. destruct (decide (h = h')) as [<-|N].
    + rewrite lookup_insert_eq. intros [= <-]. by rewrite Eh.
    + rewrite lookup_insert_ne by done. apply I1.
  - intros h' t' k. destruct (decide (h = h')) as [<-|N].
    + rewrite lookup_insert_eq. intros [= <-] Hk. rewrite Er in Hk. exists t. by rewrite Ei, decide_True.
    + rewrite lookup_insert_ne by done. apply Old.
Qed.

Lemma AppendTxnPool_inv p txn p' c :
  pool_inv p -> Forall wf_Input (UTXOInputs txn) -> AppendTxnPool cfg ripemd160 p txn = Ok (p', c) -> pool_inv p'.
Proof.
  intros I W E. unfold AppendTxnPool in E. apply outcome_bind_Ok in E as (c1 & _ & E).
  destruct (negb _); [by injection E as <- <-|]. apply outcome_bind_Ok in E as (c2 & _ & E).
  destruct (negb _); [by injection E as <- <-|]. unfold verifyTransactionWithTxnPool in E.
  destruct (verifyDoubleSpend p txn) as [p1 [e|]] eqn:V; cbn [is_err negb] in E.
  { injection E as <- <-. unfold verifyDoubleSpend in V. destruct (GetReference txn) as [refs [e'|]]; cbn [is_err] in V;
      [by simplify_eq|]. case_match; by simplify_eq. }
  apply outcome_bind_Ok in E as ([buf e] & _ & E). destruct (_ =? 0); [done|].
  apply outcome_bind_Ok in E as ([p2 b] & A & E). apply no_panic_Ok in A. injection E as <- <-.
  eapply add_inv; [exact I|exact V|exact W| | |exact A]; reflexivity.
Qed.

Lemma AppendTxnPool_ok p txn p' :
  AppendTxnPool cfg ripemd160 p txn = Ok (p', ErrNoError) ->
  CheckTransactionSanity cfg ripemd160 txn = Ok ErrNoError /\ CheckTransactionContext cfg txn = Ok ErrNoError /\
  exists p1 enc e b, verifyDoubleSpend p txn = (p1, None) /\ Tx_Serialize txn = Some (enc, e) /\
    addtxnList p1 (set_Fees txn (GetFee txn (cfg_AssetID cfg))
      (fee_per_kb (GetFee txn (cfg_AssetID cfg)) (Z.of_nat (length enc)))) = Some (p', b).
Proof.
  intros E. unfold AppendTxnPool in E. apply outcome_bind_Ok in E as (c1 & E1 & E).
  destruct (bool_decide (c1 = ErrNoError)) eqn:D1; cbn [negb] in E;
    [|injection E as _ ->; by apply bool_decide_eq_false in D1]. apply bool_decide_eq_true in D1 as ->.
  apply outcome_bind_Ok in E as (c2 & E2 & E).
  destruct (bool_decide (c2 = ErrNoError)) eqn:D2; cbn [negb] in E;
    [|injection E as _ ->; by apply bool_decide_eq_false in D2]. apply bool_decide_eq_true in D2 as ->.
  unfold verifyTransactionWithTxnPool in E. destruct (verifyDoubleSpend p txn) as [p1 [e|]] eqn:V; [done|].
  cbn [is_err negb] in E. apply outcome_bind_Ok in E as ([enc e] & Es & E). apply no_panic_Ok in Es.
  destruct (Z.of_nat (length enc) =? 0); [done|]. apply outcome_bind_Ok in E as ([p2 b] & A & E). apply no_panic_Ok in A.
  injection E as <-. split_and!; [done|done|]. by exists p1, enc, e, b.
Qed.

Lemma MaybeAcceptTransaction_inv p txn p' e :
  pool_inv p -> Forall wf_Input (UTXOInputs txn) -> MaybeAcceptTransaction cfg ripemd160 p txn = Ok (p', e) ->
  pool_inv p' /\ (e = None -> CheckTransactionContext cfg txn = Ok ErrNoError).
Proof.
  intros I W E. unfold MaybeAcceptTransaction in E. apply outcome_bind_Ok in E as (h & _ & E).
  destruct (pool_GetTransaction p h); [by injection E as <- <-|]. destruct (IsCoinBaseTx txn); [by injection E as <- <-|].
  apply outcome_bind_Ok in E as ([p2 c] & A & E). injection E as <- <-. split; [by eapply AppendTxnPool_inv|].
  destruct (bool_decide_reflect (c = ErrNoError)) as [->|]; [|done]. intros _. by apply AppendTxnPool_ok in A as (_ & Hc & _).
Qed.

(** A block fits the pool: a pooled transaction is one of the block's or
    spends nothing whose reservation the block frees. *)
Definition cleared (u : Transaction) : list bytes := keys (map fst (fst (GetReference u))).
Definition no_conflict (p : TXNPool) (txs : list Transaction) : Prop :=
  forall u h t, u ∈ txs -> txnList p !! h = Some t ->
    (exists u', u' ∈ txs /\ TxType u' <> CoinBase /\ Tx_Hash u' = Some h) \/
    (forall k, k ∈ cleared u -> k ∉ keys (reserved t)).

Lemma deltxnList_spec p u p' b : deltxnList p u = Some (p', b) ->
  inputUTXOList p' = inputUTXOList p /\
  forall h t, txnList p' !! h = Some t <-> txnList p !! h = Some t /\ Tx_Hash u <> Some h.
Proof.
  unfold deltxnList. destruct (Tx_Hash u) as [hu|]; [|done]. cbn [mbind option_bind].
  destruct (txnList p !! hu) as [t0|] eqn:E; intros [= <- <-]; (split; [done|]); intros h t; cbn.
  - rewrite lookup_delete_Some. split; [intros [N L]; split; [done|congruence]|]. intros [L N]. split; [congruence|done].
  - split; [|tauto]. intros L. split; [done|]. intros [= ->]. congruence.
Qed.

Lemma cleanTransactionList_spec p txs p' : cleanTransactionList p txs = Some p' ->
  inputUTXOList p' = inputUTXOList p /\
  forall h t, txnList p' !! h = Some t <->
    txnList p !! h = Some t /\ forall u, u ∈ txs -> TxType u <> CoinBase -> Tx_Hash u <> Some h.
Proof.
  revert p. induction txs as [|u txs IH]; intros p E; cbn [cleanTransactionList] in E.
  { injection E as <-. split; [done|]. intros h t. split; [|tauto]. intros L. split; [done|]. by intros u ?%elem_of_nil. }
  destruct (Z.eqb_spec (TxType u) CoinBase) as [Ec|Ec].
  - destruct (IH p E) as [E1 E2]. split; [done|]. intros h t. rewrite E2. split; intros [L N]; (split; [done|]).
    + intros u' [->|Hu]%elem_of_cons Hc; [done|by apply N].
    + intros u' Hu. apply N. by right.
  - destruct (deltxnList p u) as [[p1 b]|] eqn:Ed; [|done]. cbn in E. destruct (deltxnList_spec _ _ _ _ Ed) as [D1 D2].
    destruct (IH p1 E) as [E1 E2]. split; [congruence|]. intros h t. rewrite E2, D2. split.
    + intros [[L N] M]. split; [done|]. intros u' [->|Hu]%elem_of_cons Hc; [done|by apply M].
    + intros [L N]. split_and!; [done|by apply N; [left|]|]. intros u' Hu. apply N. by right.
Qed.

Lemma cleanUTXOList_spec p txs :
  txnList (cleanUTXOList p txs) = txnList p /\
  forall k t, inputUTXOList (cleanUTXOList p txs) !! k = Some t <->
    inputUTXOList p !! k = Some t /\ forall u, u ∈ txs -> k ∉ cleared u.
Proof.
  revert p. induction txs as [|u txs IH]; intros p.
  { split; [done|]. intros k t. split; [|tauto]. intros L. split; [done|]. by intros u ?%elem_of_nil. }
  unfold cleanUTXOList. cbn [foldl]. fold (cleanUTXOList (foldl delInputUTXOList p (map fst (fst (GetReference u)))) txs).
  destruct (foldl_del (map fst (fst (GetReference u))) p) as [D1 D2]. destruct (IH (foldl delInputUTXOList p (map fst (fst (GetReference u))))) as [E1 E2].
  split; [congruence|]. intros k t. rewrite E2, D2. fold (cleared u). case_decide as D.
  - split; [by intros [? _]|]. intros [_ N]. exfalso. by apply (N u); [left|].
  - split; intros [L N]; (split; [done|]).
    + intros u' [->|Hu]%elem_of_cons; [done|by apply N].
    + intros u' Hu. apply N. by right.
Qed.

Lemma Clean_inv p b p' :
  pool_inv p -> no_conflict p (Transactions b) -> CleanSubmittedTransactions p b = Some p' -> pool_inv p'.
Proof.
  intros [I1 I2 I3] Hnc E. unfold CleanSubmittedTransactions in E.
  destruct (cleanTransactionList p (Transactions b)) as [p1|] eqn:Ec; [|done]. cbn in E. injection E as <-.
  destruct (cleanTransactionList_spec _ _ _ Ec) as [C1 C2]. destruct (cleanUTXOList_spec p1 (Transactions b)) as [U1 U2].
  constructor.
  - intros h t. rewrite U1, C2. intros [L _]. by apply I1.
  - intros h t k. rewrite U1, C2. intros [L N] Hk. destruct (I2 h t k L Hk) as (t' & Lt & Ht). exists t'.
    split; [|done]. apply U2. rewrite C1. split; [done|]. intros u Hu Hcl.
    destruct (Hnc u h t Hu L) as [(u' & Hu' & E1 & E2)|D]; [by apply (N u' Hu')|by apply (D k)].
  - intros k t'. rewrite U2, C1. intros [L _]. by apply I3.
Qed.

(** An input that does not resolve makes the references fail. *)
Lemma GetReference_unresolved t j e : j ∈ reserved t -> ledger_txs (ReferTxID j) = inr e -> is_err (snd (GetReference t)) = true.
Proof.
  unfold reserved, GetReference. destruct (TxType t =? RegisterAsset); [by intros ?%elem_of_nil|]. intros Hj Eu.
  induction (UTXOInputs t) as [|i ins IH]; [by apply elem_of_nil in Hj|]. cbn [GetReference_loop].
  apply elem_of_cons in Hj as [->|Hj]; [unfold GetTransaction; by rewrite Eu|].
  destruct (GetTransaction (ReferTxID i)) as [[rt ht]|]; [|done].
  destruct (Outputs rt !! _); [|done]. specialize (IH Hj). by destruct (GetReference_loop ins) as [refs [e'|]].
Qed.

Lemma key_hash j h i s : wf_Input j -> wf_u256 h -> key j = key (mkInput h i s) -> ReferTxID j = h.
Proof.
  intros ((Lj & Wj) & _) [Lh Wh] E. unfold key, UTXOTxInput_ToString in E. cbn [ReferTxID ReferTxOutputIndex] in E.
  apply app_inj_1 in E; [|rewrite !length_EncodeToString; lia]. destruct E as [E _]. by apply EncodeToString_inj.
Qed.

(** Where the ledger does not hold the transaction, its spenders leave the
    list and keep their reservations. *)
Lemma remove_spenders_unresolved p h i n p' e :
  pool_inv p -> wf_u256 h -> ledger_txs h = inr e -> remove_spenders p h i n = Some p' ->
  pool_inv p' /\ inputUTXOList p' = inputUTXOList p.
Proof.
  intros I W Eu. revert p i I. induction n as [|n IH]; intros p i I E; cbn [remove_spenders] in E; [by injection E as <-|].
  destruct (inputUTXOList p !! _) as [t|] eqn:L; [|by eapply IH].
  destruct (inv_key _ I _ _ L) as [(j & Ej & Hj)%list_elem_of_fmap Wt].
  assert (Er : is_err (snd (GetReference t)) = true).
  { apply (GetReference_unresolved t j e Hj). rewrite (key_hash j h (uint16 (Z.of_nat i)) 0); [done| |done|done].
    by eapply (proj1 (list.Forall_forall _ _)) in Wt. }
  unfold removeTransaction in E. destruct (deltxnList p t) as [[p1 b]|] eqn:Ed; [|done]. cbn [mbind option_bind] in E.
  destruct (GetReference t) as [refs e']. cbn [snd] in Er. rewrite Er in E. cbn [mbind option_bind] in E.
  destruct (deltxnList_spec _ _ _ _ Ed) as [D1 D2]. rewrite <- D1. eapply IH; [|exact E].
  destruct I as [I1 I2 I3]. constructor; rewrite ?D1; [| |done].
  - intros h' t' [L' _]%D2. by apply I1.
  - intros h' t' k [L' _]%D2. by apply I2.
Qed.

(** A transaction the ledger does not know as a duplicate is not stored. *)
Definition ledger_coherent : Prop := forall h, ledger_IsTxHashDuplicate h = false -> exists e, ledger_txs h = inr e.

Lemma context_not_stored t h : ledger_coherent -> CheckTransactionContext cfg t = Ok ErrNoError -> Tx_Hash t = Some h ->
  exists e, ledger_txs h = inr e.
Proof.
  intros C E Eh. unfold CheckTransactionContext in E. rewrite Eh in E. cbn [no_panic mbind outcome_bind] in E.
  destruct (ledger_IsTxHashDuplicate h) eqn:D; [done|]. by apply C.
Qed.

(** What the Go types say of a transaction: hashes have 32 bytes. *)
Definition sized_tx (t : Transaction) : Prop :=
  Forall wf_Input (UTXOInputs t) /\ forall h, Tx_Hash t = Some h -> wf_u256 h.

Lemma rollback_inv p txs p' :
  ledger_coherent -> Forall sized_tx txs -> pool_inv p -> rollback_txs cfg ripemd160 p txs = Ok p' -> pool_inv p'.
Proof.
  intros C F. revert p. induction F as [|t txs [Wi Wh] _ IH]; intros p I E; cbn [rollback_txs] in E; [by injection E as <-|].
  apply outcome_bind_Ok in E as ([p1 e] & A & E). destruct (MaybeAcceptTransaction_inv _ _ _ _ I Wi A) as [I1 Hc].
  apply outcome_bind_Ok in E as (p2 & R & E). apply (IH p2); [|done].
  destruct e as [e|]; cbn [is_err] in R; [by injection R as <-|]. apply no_panic_Ok in R.
  unfold RemoveTransaction in R. destruct (Tx_Hash t) as [h|] eqn:Eh; [|done]. cbn [mbind option_bind] in R.
  destruct (context_not_stored t h C (Hc eq_refl) Eh) as [e' Eu].
  by eapply remove_spenders_unresolved in R as [I2 _]; [|exact I1|apply Wh|exact Eu].
Qed.
End Steps.

Lemma store_ledger_coherent {DB} `{IStore DB} (cs : ChainStore DB) : ledger_coherent (H := store_ledger cs).
Proof.
  intros h. cbn. unfold IsTxHashDuplicate, store_GetTransaction. destruct (db_Get _ _); [done|]. eauto.
Qed.

(** The pool as a state machine: a transaction arrives, the chain saves a
    block, the chain takes a block back.  Every step has a ledger of its own: the
    chain moves on between them. *)
Inductive pool_step `{ICrypto} (cfg : Config) (ripemd160 : bytes -> bytes) : TXNPool -> TXNPool -> Prop :=
  | step_append (L : Ledger) p txn p' c :
      sized_tx txn -> AppendTxnPool cfg ripemd160 p txn = Ok (p', c) -> pool_step cfg ripemd160 p p'
  | step_clean (L : Ledger) p b p' :
      no_conflict p (Transactions b) -> CleanSubmittedTransactions p b = Some p' -> pool_step cfg ripemd160 p p'
  | step_rollback (L : Ledger) p b p' :
      ledger_coherent -> Forall sized_tx (Transactions b) -> pow_RollbackTransaction cfg ripemd160 p b = Ok p' ->
      pool_step cfg ripemd160 p p'.

Lemma pool_step_inv `{ICrypto} cfg ripemd160 p p' : pool_inv p -> pool_step cfg ripemd160 p p' -> pool_inv p'.
Proof.
  intros I St. destruct St as [L p txn p' c W E|L p b p' Hn E|L p b p' C W E].
  - eapply AppendTxnPool_inv; [exact I|apply W|exact E].
  - eapply Clean_inv; [exact id|exact I|exact Hn|exact E].
  - unfold pow_RollbackTransaction in E. destruct W as [|cb txs _ W]; [done|]. by eapply rollback_inv.
Qed.

Lemma pool_reachable_inv `{ICrypto} cfg ripemd160 p : rtc (pool_step cfg ripemd160) pool_init p -> pool_inv p.
Proof.
  intros R. assert (G : forall q, rtc (pool_step cfg ripemd160) q p -> pool_inv q -> pool_inv p).
  { clear. intros q R. induction R as [|q q' p St _ IH]; [done|]. intros I. by eapply IH, pool_step_inv. }
  apply (G _ R), pool_init_inv.
Qed.

(** * Properties *)

(** C7: While its operations run one after the other, the pool does not hold
    a double spend.  Take any pool reached from the empty one by additions of
    transactions (accepted or not), by [CleanSubmittedTransactions] for saved blocks
    in which every pooled transaction is either included or spends nothing the block
    spends, and by [RollbackTransaction] for blocks taken back, each of these on a
    ledger of its own, which for a rollback is one that does not hold what it does not report
    as a duplicate.  Two entries of the pool that spend the same output are the same
    entry, and it is filed under its own hash.  Hashes are 32 bytes; nothing is
    assumed of what references resolve to, nor that a hash identifies its transaction. *)
Theorem pool_no_double_spend (crypto : ICrypto) (cfg : Config) (ripemd160 : bytes -> bytes)
    (p : TXNPool) (h1 h2 : Uint256) (t1 t2 : Transaction) (j1 j2 : UTXOTxInput) :
  rtc (pool_step cfg ripemd160) pool_init p ->
  pool_GetTransaction p h1 = Some t1 -> pool_GetTransaction p h2 = Some t2 ->
  j1 ∈ reserved t1 -> j2 ∈ reserved t2 -> outpoint j1 = outpoint j2 ->
  h1 = h2 /\ t1 = t2 /\ Tx_Hash t1 = Some h1.
Proof.
  intros R E1 E2 J1 J2 Ho. pose proof (pool_reachable_inv cfg ripemd160 p R) as [I1 I2 _].
  assert (Ek : key j1 = key j2).
  { unfold key, UTXOTxInput_ToString. unfold outpoint in Ho. injection Ho as -> ->. done. }
  destruct (I2 h1 t1 (key j1) E1) as (u1 & L1 & H1); [by apply list_elem_of_fmap; exists j1|].
  destruct (I2 h2 t2 (key j2) E2) as (u2 & L2 & H2); [by apply list_elem_of_fmap; exists j2|].
  rewrite Ek in L1. assert (h1 = h2) as -> by congruence. unfold pool_GetTransaction in *.
  split_and!; [done|congruence|by apply I1].
Qed.

(** The pool after one transaction has been appended. *)
Definition sample_pool : TXNPool :=
  match AppendTxnPool (H := sample_ledger) (H0 := prefix_crypto) sample_cfg sample_ripemd pool_init
          (signed_spend [mkOutput (repeat 1 32) 900 zero160]) with
  | Ok (p, _) => p
  | _ => pool_init
  end.

(** The transaction of the block the samples take back: it spends the other
    output, and the chain does not hold it. *)
Definition returned_spend : Transaction :=
  SetPrograms (NewTransferAssetTransaction [mkInput (repeat 9 32) 1 0] [mkOutput (repeat 1 32) 300 zero160])
    [mkProgram owner_code (PushData (repeat 2 64))].
(** As [sample_ledger], and what it holds is a duplicate. *)
Definition coherent_sample : Ledger := {|
  ledger_txs := @ledger_txs sample_ledger;
  ledger_GetAsset := @ledger_GetAsset sample_ledger;
  ledger_IsTxHashDuplicate := fun h => match @ledger_txs sample_ledger h with inl _ => true | inr _ => false end;
  ledger_IsDoubleSpend := @ledger_IsDoubleSpend sample_ledger;
  ledger_GetHeight := 9 |}.
Definition returned_pool : TXNPool :=
  match pow_RollbackTransaction (H := coherent_sample) (H0 := prefix_crypto) sample_cfg sample_ripemd sample_pool
          (mkBlock sample_bd [sample_Coinbase; returned_spend] None) with
  | Ok p => p
  | _ => pool_init
  end.

Lemma sized_sample t : forallb (fun j => bool_decide (wf_Input j)) (UTXOInputs t) = true ->
  match Tx_Hash t with Some h => bool_decide (wf_u256 h) | None => true end = true -> sized_tx t.
Proof.
  intros A B. split.
  - apply List.Forall_forall. intros j Hj. rewrite forallb_forall in A. by apply A, bool_decide_eq_true in Hj.
  - intros h E. rewrite E in B. by apply bool_decide_eq_true in B.
Qed.

Lemma sample_pool_reached :
  rtc (pool_step (H := prefix_crypto) sample_cfg sample_ripemd) pool_init returned_pool.
Proof.
  eapply rtc_l with sample_pool; [|eapply rtc_l; [|apply rtc_refl]].
  - assert (T : match AppendTxnPool (H := sample_ledger) (H0 := prefix_crypto) sample_cfg sample_ripemd pool_init
                  (signed_spend [mkOutput (repeat 1 32) 900 zero160]) with Ok _ => true | _ => false end = true)
      by (vm_compute; reflexivity).
    unfold sample_pool. destruct (AppendTxnPool _ _ _ _) as [[p c]| |] eqn:E; [|discriminate T..].
    apply (step_append _ _ sample_ledger _ (signed_spend [mkOutput (repeat 1 32) 900 zero160]) _ c); [|exact E].
    apply sized_sample; vm_compute; reflexivity.
  - assert (T : match pow_RollbackTransaction (H := coherent_sample) (H0 := prefix_crypto) sample_cfg sample_ripemd sample_pool
                  (mkBlock sample_bd [sample_Coinbase; returned_spend] None) with Ok _ => true | _ => false end = true)
      by (vm_compute; reflexivity).
    unfold returned_pool. destruct (pow_RollbackTransaction _ _ _ _) as [p| |] eqn:E; [|discriminate T..].
    apply (step_rollback _ _ coherent_sample _ (mkBlock sample_bd [sample_Coinbase; returned_spend] None)).
    + intros h. cbn. case_decide; [done|]. eauto.
    + constructor; [|constructor; [|constructor]]; apply sized_sample; vm_compute; reflexivity.
    + exact E.
Qed.

Lemma pool_no_double_spend_witness :
  exists h t, pool_GetTransaction returned_pool h = Some t /\ Tx_Hash t = Some h /\ GetTransactionCount returned_pool = 2%nat.
Proof.
  assert (E : pool_GetTransaction returned_pool (tx_hash_of (signed_spend [mkOutput (repeat 1 32) 900 zero160])) =
    Some (set_Fees (signed_spend [mkOutput (repeat 1 32) 900 zero160]) 100 476)) by (vm_compute; reflexivity).
  eexists _, _. split; [exact E|]. split; [|vm_compute; reflexivity].
  apply (pool_no_double_spend prefix_crypto sample_cfg sample_ripemd returned_pool _ _ _ _
    (mkInput (repeat 9 32) 0 0) (mkInput (repeat 9 32) 0 0) sample_pool_reached E E).
  - left.
  - left.
  - reflexivity.
Defined.

(** Accepting a transaction.  When [MaybeAcceptTransaction] reports no
    error, the transaction is not a coinbase, was not in the pool, passes the
    sanity and context checks, and none of its inputs was reserved; afterwards it
    is found under its hash with its fee and fee rate filled in, its inputs are
    reserved, and every other entry is as before. *)
Theorem accepted_into_pool (L : Ledger) (crypto : ICrypto) (cfg : Config) (ripemd160 : bytes -> bytes)
    (p p' : TXNPool) (t : Transaction) :
  MaybeAcceptTransaction cfg ripemd160 p t = Ok (p', None) ->
  exists h enc e, Tx_Hash t = Some h /\ Tx_Serialize t = Some (enc, e) /\ IsCoinBaseTx t = false /\
    pool_GetTransaction p h = None /\
    CheckTransactionSanity cfg ripemd160 t = Ok ErrNoError /\ CheckTransactionContext cfg t = Ok ErrNoError /\
    (forall j, j ∈ reserved t -> getInputUTXOList p j = None /\ getInputUTXOList p' j = Some t) /\
    pool_GetTransaction p' h = Some (set_Fees t (GetFee t (cfg_AssetID cfg))
      (fee_per_kb (GetFee t (cfg_AssetID cfg)) (Z.of_nat (length enc)))) /\
    (forall h', h' <> h -> pool_GetTransaction p' h' = pool_GetTransaction p h').
Proof.
  intros E. unfold MaybeAcceptTransaction in E. apply outcome_bind_Ok in E as (h & Eh & E). apply no_panic_Ok in Eh.
  destruct (pool_GetTransaction p h) as [t0|] eqn:E0; [done|]. destruct (IsCoinBaseTx t) eqn:Ec; [done|].
  apply outcome_bind_Ok in E as ([p2 c] & A & E). injection E as <- E.
  destruct (bool_decide (c = ErrNoError)) eqn:Dc; [|done]. apply bool_decide_eq_true in Dc as ->.
  destruct (AppendTxnPool_ok _ _ _ _ _ A) as (Hs & Hc & p1 & enc & e & b & V & Es & At).
  destruct (verifyDoubleSpend_ok _ _ _ V) as (Hn & El & Ei). unfold addtxnList in At.
  change (Tx_Hash (set_Fees t _ _)) with (Tx_Hash t) in At. rewrite Eh in At. cbn [mbind option_bind] in At.
  unfold pool_GetTransaction in E0. rewrite El, E0 in At. injection At as <- _.
  exists h, enc, e. split_and!; try done.
  - intros j Hj. assert (Hk : UTXOTxInput_ToString j ∈ keys (reserved t)) by (apply list_elem_of_fmap; by exists j).
    unfold getInputUTXOList. cbn [inputUTXOList]. split; [by apply Hn|]. by rewrite Ei, decide_True.
  - unfold pool_GetTransaction. cbn [txnList]. apply lookup_insert_eq.
  - intros h' Hh'. unfold pool_GetTransaction. cbn [txnList]. by rewrite lookup_insert_ne.
Qed.

Lemma accepted_into_pool_witness :
  exists p' h, MaybeAcceptTransaction (H := sample_ledger) (H0 := prefix_crypto) sample_cfg sample_ripemd pool_init
    (signed_spend [mkOutput (repeat 1 32) 900 zero160]) = Ok (p', None) /\
    exists t, pool_GetTransaction p' h = Some t.
Proof.
  assert (E : MaybeAcceptTransaction (H := sample_ledger) (H0 := prefix_crypto) sample_cfg sample_ripemd pool_init
    (signed_spend [mkOutput (repeat 1 32) 900 zero160]) = Ok (sample_pool, None)) by (vm_compute; reflexivity).
  destruct (accepted_into_pool sample_ledger prefix_crypto sample_cfg sample_ripemd pool_init sample_pool _ E)
    as (h & enc & e & _ & _ & _ & _ & _ & _ & _ & G & _).
  exists sample_pool, h. split; [exact E|]. eexists. exact G.
Defined.

(** A conflicting block leaves its victims behind.  When a block spends an
    output that a different pooled transaction reserves, cleaning the pool frees
    the reservation but keeps the transaction, which can no longer be mined. *)
Theorem conflicting_transaction_stays :
  let pooled := signed_spend [mkOutput (repeat 1 32) 900 zero160] in
  let mined := signed_spend [mkOutput (repeat 1 32) 800 zero160] in
  exists p', CleanSubmittedTransactions (H := sample_ledger) sample_pool (mkBlock sample_bd [mined] None) = Some p' /\
    pool_GetTransaction p' (tx_hash_of pooled) = Some (set_Fees pooled 100 476) /\
    getInputUTXOList p' (mkInput (repeat 9 32) 0 0) = None.
Proof. cbn zeta. eexists. split_and!; vm_compute; reflexivity. Qed.

Definition holds_both (p : TXNPool) (a b : Transaction) : bool :=
  bool_decide (is_Some (pool_GetTransaction p (tx_hash_of a))) && bool_decide (is_Some (pool_GetTransaction p (tx_hash_of b))) &&
  bool_decide (tx_hash_of a <> tx_hash_of b).
Lemma holds_both_spec p a b : holds_both p a b = true ->
  is_Some (pool_GetTransaction p (tx_hash_of a)) /\ is_Some (pool_GetTransaction p (tx_hash_of b)) /\ tx_hash_of a <> tx_hash_of b.
Proof. unfold holds_both. rewrite !andb_true_iff, !bool_decide_eq_true. tauto. Qed.

(** Such a victim becomes a double spend.  When the conflicting block is taken
    back, its transaction returns to the pool, where the output it spends is free: the pool
    then holds two transactions that spend one output. *)
Theorem conflict_double_spends_after_rollback :
  let pooled := signed_spend [mkOutput (repeat 1 32) 900 zero160] in
  let mined := signed_spend [mkOutput (repeat 1 32) 800 zero160] in
  let block := mkBlock sample_bd [sample_Coinbase; mined] None in
  exists p' p'', CleanSubmittedTransactions (H := sample_ledger) sample_pool block = Some p' /\
    pow_RollbackTransaction (H := coherent_sample) (H0 := prefix_crypto) sample_cfg sample_ripemd p' block = Ok p'' /\
    is_Some (pool_GetTransaction p'' (tx_hash_of pooled)) /\ is_Some (pool_GetTransaction p'' (tx_hash_of mined)) /\
    tx_hash_of pooled <> tx_hash_of mined /\ reserved pooled = reserved mined.
Proof.
  cbn zeta. set (pooled := signed_spend _). set (mined := signed_spend _). set (block := mkBlock _ _ _).
  assert (T : match CleanSubmittedTransactions (H := sample_ledger) sample_pool block with
    | Some p' => match pow_RollbackTransaction (H := coherent_sample) (H0 := prefix_crypto) sample_cfg sample_ripemd p' block with
                 | Ok p'' => holds_both p'' pooled mined
                 | _ => false end
    | None => false end = true) by (vm_compute; reflexivity).
  destruct (CleanSubmittedTransactions _ _) as [p'|]; [|discriminate T].
  destruct (pow_RollbackTransaction _ _ p' _) as [p''| |] eqn:E; [|discriminate T..].
  exists p', p''. split; [done|]. split; [exact E|]. apply holds_both_spec in T as (A & B & D). split_and!; done.
Qed.

(** * Reservations that nobody frees *)

(** Taking a block back removes the pooled spenders of its transactions but
    not their reservations.  [RemoveTransaction] is only called for a transaction that
    was just accepted into the pool, which the chain therefore does not hold, so the
    references of its spenders never resolve: whatever pool it is called on, the
    map of reserved outputs stays as it was. *)
Theorem removed_spenders_keep_reservations (L : Ledger) (crypto : ICrypto) (cfg : Config) (ripemd160 : bytes -> bytes)
    (p p1 p2 : TXNPool) (t : Transaction) :
  pool_inv p -> ledger_coherent -> sized_tx t ->
  MaybeAcceptTransaction cfg ripemd160 p t = Ok (p1, None) -> RemoveTransaction p1 t = Some p2 ->
  inputUTXOList p2 = inputUTXOList p1.
Proof.
  intros I C [Wi Wh] A R. destruct (MaybeAcceptTransaction_inv _ _ _ _ _ _ I Wi A) as [I1 Hc].
  unfold RemoveTransaction in R. destruct (Tx_Hash t) as [h|] eqn:Eh; [|done]. cbn [mbind option_bind] in R.
  destruct (context_not_stored cfg t h C (Hc eq_refl) Eh) as [e Eu].
  by eapply (remove_spenders_unresolved id) in R as [_ R]; [|exact I1|apply Wh|exact Eu].
Qed.

Lemma removed_spenders_keep_reservations_witness :
  exists p1 p2, MaybeAcceptTransaction (H := coherent_sample) (H0 := prefix_crypto) sample_cfg sample_ripemd pool_init returned_spend = Ok (p1, None) /\
    RemoveTransaction (H := coherent_sample) p1 returned_spend = Some p2 /\ inputUTXOList p2 = inputUTXOList p1.
Proof.
  assert (T : match MaybeAcceptTransaction (H := coherent_sample) (H0 := prefix_crypto) sample_cfg sample_ripemd pool_init returned_spend with
    | Ok (p1, None) => match RemoveTransaction (H := coherent_sample) p1 returned_spend with Some _ => true | None => false end
    | _ => false end = true) by (vm_compute; reflexivity).
  destruct (MaybeAcceptTransaction _ _ _ _) as [[p1 [e|]]| |] eqn:A; try discriminate T.
  destruct (RemoveTransaction p1 _) as [p2|] eqn:R; [|discriminate T].
  exists p1, p2. split; [reflexivity|]. split; [exact R|].
  apply (removed_spenders_keep_reservations coherent_sample prefix_crypto sample_cfg sample_ripemd pool_init p1 p2 returned_spend).
  - apply pool_init_inv.
  - intros h. cbn. case_decide; [done|]. eauto.
  - apply sized_sample; vm_compute; reflexivity.
  - exact A.
  - exact R.
Defined.

(** * Two additions at once *)

Section Interleaving.
Context `{Ledger} `{ICrypto} (cfg : Config) (ripemd160 : bytes -> bytes).

(** [AppendTxnPool] up to the end of the loop that looks the inputs up, and
    from there on; nothing is locked in between. *)
Definition append_checks (p : TXNPool) (txn : Transaction) : outcome bool :=
  c ← CheckTransactionSanity cfg ripemd160 txn;
  if negb (bool_decide (c = ErrNoError)) then mret false else
  c ← CheckTransactionContext cfg txn;
  if negb (bool_decide (c = ErrNoError)) then mret false else
  let '(reference, e) := GetReference txn in
  mret (negb (is_err e) &&
        negb (existsb (fun k => match getInputUTXOList p k with Some _ => true | None => false end) (map fst reference))).
Definition append_adds (p : TXNPool) (txn : Transaction) : outcome TXNPool :=
  let p := foldl (addInputUTXOList txn) p (map fst (fst (GetReference txn))) in
  let fee := GetFee txn (cfg_AssetID cfg) in
  '(b_buf, _) ← no_panic (Tx_Serialize txn);
  if Z.of_nat (length b_buf) =? 0 then Panic else
  '(p, _) ← no_panic (addtxnList p (set_Fees txn fee (fee_per_kb fee (Z.of_nat (length b_buf)))));
  mret p.

(** Run alone, the two halves are [AppendTxnPool]. *)
Lemma append_halves p txn :
  append_checks p txn = Ok true ->
  AppendTxnPool cfg ripemd160 p txn = (p' ← append_adds p txn; mret (p', ErrNoError)).
Proof.
  unfold append_checks, AppendTxnPool, append_adds, verifyTransactionWithTxnPool, verifyDoubleSpend. intros E.
  apply outcome_bind_Ok in E as (c1 & -> & E). cbn [mbind outcome_bind]. destruct (negb (bool_decide (c1 = _))); [done|].
  apply outcome_bind_Ok in E as (c2 & -> & E). cbn [mbind outcome_bind]. destruct (negb (bool_decide (c2 = _))); [done|].
  destruct (GetReference txn) as [refs [e|]]; cbn [is_err negb andb fst] in *; [done|].
  injection E as E. apply negb_true_iff in E. rewrite E. cbn [is_err negb].
  destruct (no_panic (Tx_Serialize txn)) as [[buf e]| |]; cbn [mbind outcome_bind]; [|done..].
  destruct (Z.of_nat (length buf) =? 0); [done|].
  by destruct (no_panic (addtxnList _ _)) as [[p' b]| |].
Qed.
End Interleaving.

(** Two transactions that arrive at the same time can both be accepted: when
    the second one is looked up before the first one has reserved its inputs, the
    pool ends up with two transactions that spend the same output. *)
Theorem interleaved_appends_double_spend :
  let a := signed_spend [mkOutput (repeat 1 32) 900 zero160] in
  let b := signed_spend [mkOutput (repeat 1 32) 800 zero160] in
  append_checks (H := sample_ledger) (H0 := prefix_crypto) sample_cfg sample_ripemd pool_init a = Ok true /\
  append_checks (H := sample_ledger) (H0 := prefix_crypto) sample_cfg sample_ripemd pool_init b = Ok true /\
  exists p p', append_adds (H := sample_ledger) sample_cfg pool_init a = Ok p /\ append_adds (H := sample_ledger) sample_cfg p b = Ok p' /\
    is_Some (pool_GetTransaction p' (tx_hash_of a)) /\ is_Some (pool_GetTransaction p' (tx_hash_of b)) /\
    tx_hash_of a <> tx_hash_of b /\ reserved a = reserved b.
Proof.
  cbn zeta. set (a := signed_spend _). set (b := signed_spend _).
  split; [vm_compute; reflexivity|]. split; [vm_compute; reflexivity|].
  assert (T : match append_adds (H := sample_ledger) sample_cfg pool_init a with
    | Ok p => match append_adds (H := sample_ledger) sample_cfg p b with Ok p' => holds_both p' a b | _ => false end
    | _ => false end = true) by (vm_compute; reflexivity).
  destruct (append_adds sample_cfg pool_init a) as [p| |]; [|discriminate T..].
  destruct (append_adds sample_cfg p b) as [p'| |] eqn:E; [|discriminate T..].
  exists p, p'. split; [done|]. split; [exact E|]. apply holds_both_spec in T as (A & B & D). split_and!; done.
Qed.
