(* ===== verification/Blockchain.v ===== *)
(** [core/ledger/blockchain.go]: the tree of block nodes in memory, the best
    chain, orphan blocks, reorganisation and block locators.

    Nodes are shared and updated in place, so they live in a heap [nodes], a
    map from references to nodes; [Parent], [Children], the index and the best
    chain hold references.  Work sums are per-node values: no two nodes share a
    [*big.Int].  The store of the ledger is a field, since both change together.
    Locks are dropped; the clock is an argument, read once per call, in seconds.
    Events and log lines are left out. *)

From S2P Require Import Prelude Sha256 Serialization Common Fixed64 Transaction Merkle AuxPow Block.
From S2P Require Import Store Utxo Difficulty MedianTime Vm Contract Validator.

Abbreviation heap := (gmap positive BlockNode).

(** An [*OrphanBlock]; the number is its identity. *)
Record OrphanBlock := mkOrphan { ob_id : positive; ob_Block : Block; ob_Expiration : Z }.

Section Blockchain.
Context {DB : Type} `{IStore DB} (cfg : Config).

Record Blockchain := mkBC {
  BlockHeight : Z;
  GenesisHash : Uint256;
  BestChain : option positive;
  Root : option positive;
  Index : gmap Uint256 positive;
  DepNodes : gmap Uint256 (list positive);
  Orphans : gmap Uint256 OrphanBlock;
  PrevOrphans : gmap Uint256 (list OrphanBlock);
  OldestOrphan : option OrphanBlock;
  BlockCache : gmap Uint256 Block;
  TimeSource : medianTime;
  MedianTimePast : Z;
  nodes : heap;
  bc_Store : ChainStore DB }.

Definition set_BlockHeight (v : Z) (bc : Blockchain) : Blockchain :=
  mkBC v (GenesisHash bc) (BestChain bc) (Root bc) (Index bc) (DepNodes bc) (Orphans bc) (PrevOrphans bc) (OldestOrphan bc) (BlockCache bc) (TimeSource bc) (MedianTimePast bc) (nodes bc) (bc_Store bc).
Definition set_BestChain (v : option positive) (bc : Blockchain) : Blockchain :=
  mkBC (BlockHeight bc) (GenesisHash bc) v (Root bc) (Index bc) (DepNodes bc) (Orphans bc) (PrevOrphans bc) (OldestOrphan bc) (BlockCache bc) (TimeSource bc) (MedianTimePast bc) (nodes bc) (bc_Store bc).
Definition set_Root (v : option positive) (bc : Blockchain) : Blockchain :=
  mkBC (BlockHeight bc) (GenesisHash bc) (BestChain bc) v (Index bc) (DepNodes bc) (Orphans bc) (PrevOrphans bc) (OldestOrphan bc) (BlockCache bc) (TimeSource bc) (MedianTimePast bc) (nodes bc) (bc_Store bc).
Definition set_Index (v : gmap Uint256 positive) (bc : Blockchain) : Blockchain :=
  mkBC (BlockHeight bc) (GenesisHash bc) (BestChain bc) (Root bc) v (DepNodes bc) (Orphans bc) (PrevOrphans bc) (OldestOrphan bc) (BlockCache bc) (TimeSource bc) (MedianTimePast bc) (nodes bc) (bc_Store bc).
Definition set_DepNodes (v : gmap Uint256 (list positive)) (bc : Blockchain) : Blockchain :=
  mkBC (BlockHeight bc) (GenesisHash bc) (BestChain bc) (Root bc) (Index bc) v (Orphans bc) (PrevOrphans bc) (OldestOrphan bc) (BlockCache bc) (TimeSource bc) (MedianTimePast bc) (nodes bc) (bc_Store bc).
Definition set_OldestOrphan (v : option OrphanBlock) (bc : Blockchain) : Blockchain :=
  mkBC (BlockHeight bc) (GenesisHash bc) (BestChain bc) (Root bc) (Index bc) (DepNodes bc) (Orphans bc) (PrevOrphans bc) v (BlockCache bc) (TimeSource bc) (MedianTimePast bc) (nodes bc) (bc_Store bc).
Definition set_BlockCache (v : gmap Uint256 Block) (bc : Blockchain) : Blockchain :=
  mkBC (BlockHeight bc) (GenesisHash bc) (BestChain bc) (Root bc) (Index bc) (DepNodes bc) (Orphans bc) (PrevOrphans bc) (OldestOrphan bc) v (TimeSource bc) (MedianTimePast bc) (nodes bc) (bc_Store bc).
Definition set_MedianTimePast (v : Z) (bc : Blockchain) : Blockchain :=
  mkBC (BlockHeight bc) (GenesisHash bc) (BestChain bc) (Root bc) (Index bc) (DepNodes bc) (Orphans bc) (PrevOrphans bc) (OldestOrphan bc) (BlockCache bc) (TimeSource bc) v (nodes bc) (bc_Store bc).
Definition set_nodes (v : heap) (bc : Blockchain) : Blockchain :=
  mkBC (BlockHeight bc) (GenesisHash bc) (BestChain bc) (Root bc) (Index bc) (DepNodes bc) (Orphans bc) (PrevOrphans bc) (OldestOrphan bc) (BlockCache bc) (TimeSource bc) (MedianTimePast bc) v (bc_Store bc).
Definition set_bc_Store (v : ChainStore DB) (bc : Blockchain) : Blockchain :=
  mkBC (BlockHeight bc) (GenesisHash bc) (BestChain bc) (Root bc) (Index bc) (DepNodes bc) (Orphans bc) (PrevOrphans bc) (OldestOrphan bc) (BlockCache bc) (TimeSource bc) (MedianTimePast bc) (nodes bc) v.
Definition set_Orphans (o : gmap Uint256 OrphanBlock) (po : gmap Uint256 (list OrphanBlock)) (bc : Blockchain) : Blockchain :=
  mkBC (BlockHeight bc) (GenesisHash bc) (BestChain bc) (Root bc) (Index bc) (DepNodes bc) o po (OldestOrphan bc) (BlockCache bc) (TimeSource bc) (MedianTimePast bc) (nodes bc) (bc_Store bc).

(** [NewBlockchain]; the median time is Go's zero time. *)
Definition NewBlockchain (height : Z) (cs : ChainStore DB) : Blockchain :=
  mkBC height zero256 None None ∅ ∅ ∅ ∅ None ∅ NewMedianTime (-62135596800) ∅ cs.

(** * Effects

    An operation changes the chain and returns a value or an error; what was
    changed before an error stays changed. *)

Definition bcM (A : Type) : Type := Blockchain -> outcome (Blockchain * (A + error)).
#[export] Instance bcM_ret : MRet bcM := fun A a bc => Ok (bc, inl a).
#[export] Instance bcM_bind : MBind bcM := fun A B f m bc =>
  match m bc with
  | Ok (bc, inl a) => f a bc
  | Ok (bc, inr e) => Ok (bc, inr e)
  | Panic => Panic
  | Unmodelled => Unmodelled
  end.
Definition throw {A} (e : error) : bcM A := fun bc => Ok (bc, inr e).
Definition gets {A} (f : Blockchain -> A) : bcM A := fun bc => Ok (bc, inl (f bc)).
Definition modify (f : Blockchain -> Blockchain) : bcM unit := fun bc => Ok (f bc, inl tt).
Definition run {A} (o : outcome A) : bcM A := fun bc =>
  match o with Ok a => Ok (bc, inl a) | Panic => Panic | Unmodelled => Unmodelled end.
(** A nil dereference or an index out of range. *)
Definition must {A} (o : option A) : bcM A := run (no_panic o).
Definition fail_on (e : err) : bcM unit := match e with Some e => throw e | None => mret tt end.

(** * Block nodes *)

Definition set_Parent (q : option positive) (n : BlockNode) : BlockNode :=
  mkNode (n_Hash n) (n_ParentHash n) (n_Height n) (n_Version n) (n_Bits n) (n_Timestamp n) (n_WorkSum n)
    (n_InMainChain n) q (n_Children n).
Definition set_Children (cs : list positive) (n : BlockNode) : BlockNode :=
  mkNode (n_Hash n) (n_ParentHash n) (n_Height n) (n_Version n) (n_Bits n) (n_Timestamp n) (n_WorkSum n)
    (n_InMainChain n) (n_Parent n) cs.
Definition add_child (c : positive) (n : BlockNode) : BlockNode := set_Children (n_Children n ++ [c]) n.
Definition set_WorkSum (w : Z) (n : BlockNode) : BlockNode :=
  mkNode (n_Hash n) (n_ParentHash n) (n_Height n) (n_Version n) (n_Bits n) (n_Timestamp n) w
    (n_InMainChain n) (n_Parent n) (n_Children n).
Definition add_work (w : Z) (n : BlockNode) : BlockNode := set_WorkSum (n_WorkSum n + w) n.
Definition set_InMainChain (b : bool) (n : BlockNode) : BlockNode :=
  mkNode (n_Hash n) (n_ParentHash n) (n_Height n) (n_Version n) (n_Bits n) (n_Timestamp n) (n_WorkSum n)
    b (n_Parent n) (n_Children n).
Definition set_Height (x : Z) (n : BlockNode) : BlockNode :=
  mkNode (n_Hash n) (n_ParentHash n) x (n_Version n) (n_Bits n) (n_Timestamp n) (n_WorkSum n)
    (n_InMainChain n) (n_Parent n) (n_Children n).

Definition node_at (p : positive) : bcM BlockNode := h ← gets nodes; must (h !! p).
Definition new_node (n : BlockNode) : bcM positive := fun bc =>
  let p := fresh (dom (nodes bc)) in Ok (set_nodes (<[p := n]> (nodes bc)) bc, inl p).
Definition update_node (p : positive) (f : BlockNode -> BlockNode) : bcM unit :=
  n ← node_at p; modify (fun bc => set_nodes (<[p := f n]> (nodes bc)) bc).

(** The references along [Parent] from [p] on.  The number of nodes bounds the
    length of the chain (a cycle would make the loops of the code run forever;
    see [chain_step]). *)
Fixpoint walk (fuel : nat) (h : heap) (p : option positive) : list positive :=
  match fuel, p with
  | S fuel, Some q => match h !! q with Some n => q :: walk fuel h (n_Parent n) | None => [] end
  | _, _ => []
  end.
Definition chain (h : heap) (p : option positive) : list positive := walk (size h) h p.
Definition chain_nodes (h : heap) (p : option positive) : list BlockNode := omap (h !!.) (chain h p).

Definition AddNodeToIndex (p : positive) : bcM unit :=
  n ← node_at p; modify (fun bc => set_Index (<[n_Hash n := p]> (Index bc)) bc).
Definition RemoveNodeFromIndex (p : positive) : bcM unit :=
  n ← node_at p; modify (fun bc => set_Index (delete (n_Hash n) (Index bc)) bc).
Definition LookupNodeInIndex (hash : Uint256) : bcM (option positive) := gets (fun bc => Index bc !! hash).
Definition add_dep (prevHash : Uint256) (p : positive) : bcM unit :=
  modify (fun bc => set_DepNodes (<[prevHash := default [] (DepNodes bc !! prevHash) ++ [p]]> (DepNodes bc)) bc).

(** The recursion follows [Children]; the number of nodes bounds its depth. *)
Fixpoint AddChildrenWork (fuel : nat) (p : positive) (work : Z) : bcM unit :=
  match fuel with
  | O => run Unmodelled
  | S fuel =>
      n ← node_at p;
      foldr (fun c rest => update_node c (add_work work) ≫= fun _ => AddChildrenWork fuel c work ≫= fun _ => rest)
        (mret tt) (n_Children n)
  end.

(** [RemoveChildNode]: the first child with the hash of [node]. *)
Fixpoint RemoveChildNode (h : heap) (children : list positive) (hash : Uint256) : list positive :=
  match children with
  | [] => []
  | c :: rest =>
      match h !! c with
      | Some n => if CompareTo (n_Hash n) hash =? 0 then rest else c :: RemoveChildNode h rest hash
      | None => c :: RemoveChildNode h rest hash
      end
  end.

(** Case 2 of [LoadBlockNode]: the new node becomes the parent of [childNodes]. *)
Fixpoint adopt (node : positive) (work : Z) (childNodes : list positive) : bcM unit :=
  match childNodes with
  | [] => mret tt
  | c :: rest =>
      _ ← update_node c (set_Parent (Some node));
      _ ← update_node node (add_child c);
      _ ← update_node c (add_work work);
      fuel ← gets (fun bc => size (nodes bc));
      _ ← AddChildrenWork fuel c work;
      _ ← modify (set_Root (Some node));
      adopt node work rest
  end.

Definition LoadBlockNode (blockHeader : Blockdata) (hash : Uint256) : bcM positive :=
  let node := set_InMainChain true (NewBlockNode blockHeader hash) in
  let prevHash := PrevBlockHash blockHeader in
  parent ← LookupNodeInIndex prevHash;
  deps ← gets (fun bc => DepNodes bc !! hash);
  root ← gets Root;
  p ← match parent, deps, root with
      | Some parentNode, _, _ =>
          pn ← node_at parentNode;
          p ← new_node (set_Parent (Some parentNode) (set_WorkSum (n_WorkSum pn + n_WorkSum node) node));
          _ ← update_node parentNode (add_child p);
          mret p
      | None, Some childNodes, _ =>
          p ← new_node node;
          _ ← adopt p (n_WorkSum node) childNodes;
          mret p
      | None, None, Some _ => throw (NewError "LoadBlockNode: attempt to insert orphan block")
      | None, None, None =>
          p ← new_node node;
          _ ← modify (set_Root (Some p));
          mret p
      end;
  _ ← AddNodeToIndex p;
  _ ← add_dep prevHash p;
  mret p.

(** * Pruning *)

(** [RemoveBlockNode]: only a node without a parent. *)
Definition RemoveBlockNode (p : positive) : bcM unit :=
  n ← node_at p;
  match n_Parent n with
  | Some _ => throw (NewError "RemoveBlockNode must be called with a node at the front of the chain")
  | None =>
      _ ← RemoveNodeFromIndex p;
      _ ← foldr (fun c rest => update_node c (set_Parent None) ≫= fun _ => rest) (mret tt) (n_Children n);
      _ ← update_node p (set_Children []);
      modify (fun bc =>
        let prevHash := n_ParentHash n in
        match DepNodes bc !! prevHash with
        | None => bc
        | Some children =>
            let children := RemoveChildNode (nodes bc) children (n_Hash n) in
            set_DepNodes (if decide (children = []) then delete prevHash (DepNodes bc)
                          else <[prevHash := children]> (DepNodes bc)) bc
        end)
  end.

Fixpoint remove_nodes (ps : list positive) : bcM unit :=
  match ps with [] => mret tt | p :: ps => _ ← RemoveBlockNode p; remove_nodes ps end.

(** The best chain keeps [MinMemoryNodes] nodes, counted from its end; the
    older ones are removed, the oldest first. *)
Definition PruneBlockNodes : bcM unit :=
  best ← gets BestChain;
  match best with
  | None => mret tt
  | Some _ =>
      c ← gets (fun bc => chain (nodes bc) best);
      let steps := Z.to_nat (uint32 (MinMemoryNodes (cfg_ChainParam cfg) - 1)) in
      match drop steps c with
      | newRootNode :: ((_ :: _) as old) =>
          _ ← remove_nodes (reverse old);
          modify (set_Root (Some newRootNode))
      | _ => mret tt
      end
  end.

(** * The previous node *)

Definition bc_GetHeader (hash : Uint256) : bcM Blockdata :=
  cs ← gets bc_Store;
  '(header, e) ← must (GetHeader (cs_db cs) hash);
  match e with
  | Some _ => throw (NewError "[Blockchain], GetHeader failed.")
  | None => must header
  end.

(** [None] is a nil node. *)
Definition GetPrevNodeFromBlock (block : Block) : bcM (option positive) :=
  let prevHash := PrevBlockHash (blk_data block) in
  if CompareTo prevHash zero256 =? 0 then mret None else
  bn ← LookupNodeInIndex prevHash;
  match bn with
  | Some p => mret (Some p)
  | None =>
      header ← bc_GetHeader prevHash;
      p ← LoadBlockNode header prevHash;
      mret (Some p)
  end.

Definition GetPrevNodeFromNode (node : positive) : bcM (option positive) :=
  n ← node_at node;
  match n_Parent n with
  | Some p => mret (Some p)
  | None =>
      genesis ← gets GenesisHash;
      if CompareTo (n_Hash n) genesis =? 0 then mret None else
      header ← bc_GetHeader (n_ParentHash n);
      p ← LoadBlockNode header (n_ParentHash n);
      mret (Some p)
  end.

(** * Reorganisation *)

(** The nodes from [node] up to the first one that is in the main chain or has
    no parent, which is the second component; nearest first. *)
Fixpoint side_branch (h : heap) (ps : list positive) : list positive * option positive :=
  match ps with
  | [] => ([], None)
  | p :: rest =>
      match h !! p with
      | None => ([], Some p)
      | Some n =>
          match n_Parent n with
          | None => ([], Some p)
          | Some _ =>
              if n_InMainChain n then ([], Some p)
              else let '(branch, fork) := side_branch h rest in (p :: branch, fork)
          end
      end
  end.

(** The nodes of the main chain above the fork; a node without a parent stays. *)
Fixpoint above_fork (h : heap) (forkHash : Uint256) (ps : list positive) : list positive :=
  match ps with
  | [] => []
  | p :: rest =>
      match h !! p with
      | None => []
      | Some n =>
          match n_Parent n with
          | None => []
          | Some _ => if CompareTo (n_Hash n) forkHash =? 0 then [] else p :: above_fork h forkHash rest
          end
      end
  end.

(** Nodes to detach (from the end of the main chain) and to attach (from the
    fork on). *)
Definition GetReorganizeNodes (node : positive) : bcM (list positive * list positive) :=
  h ← gets nodes;
  best ← gets BestChain;
  let '(branch, fork) := side_branch h (chain h (Some node)) in
  ancestor ← must fork;
  an ← node_at ancestor;
  mret (above_fork h (n_Hash an) (chain h best), reverse branch).

(** [bc.Ledger.Store.SaveBlock] and [RollbackBlock], with the height they set. *)
Definition save_block (block : Block) : bcM unit :=
  cs ← gets bc_Store;
  '(cs, best) ← must (handlePersistBlockTask cs block);
  _ ← modify (set_bc_Store cs);
  modify (fun bc => match best with Some v => set_BlockHeight v bc | None => bc end).
Definition rollback_block (hash : Uint256) : bcM unit :=
  cs ← gets bc_Store;
  '(cs, best) ← must (handleRollbackBlockTask cs hash);
  _ ← modify (set_bc_Store cs);
  modify (fun bc => match best with Some v => set_BlockHeight v bc | None => bc end).

(** [bc.BestChain = p], and the median time it implies. *)
Definition set_best (p : option positive) : bcM unit :=
  _ ← modify (set_BestChain p);
  h ← gets nodes;
  t ← must (CalcPastMedianTime (chain_nodes h p));
  modify (set_MedianTimePast t).

Definition DisconnectBlock (node : positive) (block : Block) : bcM unit :=
  n ← node_at node;
  best ← gets BestChain;
  h ← gets nodes;
  if match best ≫= (h !!.) with Some bn => negb (CompareTo (n_Hash n) (n_Hash bn) =? 0) | None => true end
  then throw (NewError "disconnectBlock must be called with the block at the end of the main chain") else
  _ ← GetPrevNodeFromNode node;
  _ ← rollback_block (n_Hash n);
  _ ← update_node node (set_InMainChain false);
  _ ← modify (fun bc => set_BlockCache (<[n_Hash n := block]> (BlockCache bc)) bc);
  n ← node_at node;
  set_best (n_Parent n).

Fixpoint check_contexts (txs : list Transaction) : bcM unit :=
  match txs with
  | [] => mret tt
  | t :: txs =>
      cs ← gets bc_Store;
      errCode ← run (CheckTransactionContext (H := store_ledger cs) cfg t);
      if decide (errCode = ErrNoError) then check_contexts txs
      else throw (NewError "CheckTransactionContext failed when verifiy block")
  end.

Definition ConnectBlock (node : positive) (block : Block) : bcM unit :=
  _ ← check_contexts (Transactions block);
  best ← gets BestChain;
  h ← gets nodes;
  let prevHash := PrevBlockHash (blk_data block) in
  if match best ≫= (h !!.) with Some bn => negb (CompareTo prevHash (n_Hash bn) =? 0) | None => false end
  then throw (NewError "connectBlock must be called with a block that extends the main chain") else
  _ ← save_block block;
  _ ← update_node node (set_InMainChain true);
  _ ← AddNodeToIndex node;
  _ ← add_dep prevHash node;
  set_best (Some node).

Fixpoint all_cached (ps : list positive) : bcM unit :=
  match ps with
  | [] => mret tt
  | p :: ps =>
      n ← node_at p;
      cache ← gets BlockCache;
      match cache !! n_Hash n with
      | None => throw (NewError "block is missing from the side chain block cache")
      | Some _ => all_cached ps
      end
  end.
Fixpoint detach (ps : list positive) : bcM unit :=
  match ps with
  | [] => mret tt
  | p :: ps =>
      n ← node_at p;
      cs ← gets bc_Store;
      '(block, e) ← must (GetBlock (cs_db cs) (n_Hash n));
      _ ← fail_on e;
      block ← must block;
      _ ← DisconnectBlock p block;
      detach ps
  end.
Fixpoint attach (ps : list positive) : bcM unit :=
  match ps with
  | [] => mret tt
  | p :: ps =>
      n ← node_at p;
      cache ← gets BlockCache;
      block ← must (cache !! n_Hash n);
      _ ← ConnectBlock p block;
      _ ← modify (fun bc => set_BlockCache (delete (n_Hash n) (BlockCache bc)) bc);
      attach ps
  end.
Definition ReorganizeChain (detachNodes attachNodes : list positive) : bcM unit :=
  _ ← all_cached attachNodes;
  _ ← detach detachNodes;
  attach attachNodes.

(** * Accepting a block *)

(** The [bool] tells whether the block ended up in the main chain.  The branch
    that only logs the fork point of a side chain changes nothing. *)
Definition ConnectBestChain (node : positive) (block : Block) : bcM bool :=
  n ← node_at node;
  best ← gets BestChain;
  h ← gets nodes;
  extends ← match best ≫= (h !!.) with
            | None => mret true
            | Some bn => parent ← must (n_Parent n ≫= (h !!.)); mret (CompareTo (n_Hash parent) (n_Hash bn) =? 0)
            end;
  if extends : bool then
    _ ← ConnectBlock node block;
    _ ← match n_Parent n with Some q => update_node q (add_child node) | None => mret tt end;
    mret true
  else
    _ ← modify (fun bc => set_BlockCache (<[n_Hash n := block]> (BlockCache bc)) bc);
    _ ← AddNodeToIndex node;
    _ ← update_node node (set_InMainChain false);
    q ← must (n_Parent n);
    _ ← update_node q (add_child node);
    bn ← must (best ≫= (h !!.));
    if n_WorkSum n <=? n_WorkSum bn then mret false else
    '(detachNodes, attachNodes) ← GetReorganizeNodes node;
    _ ← ReorganizeChain detachNodes attachNodes;
    mret true.

Definition maybeAcceptBlock (block : Block) : bcM bool :=
  prevNode ← GetPrevNodeFromBlock block;
  h ← gets nodes;
  pn ← match prevNode with Some p => pn ← node_at p; mret (Some pn) | None => mret None end;
  let blockHeight := match pn with Some pn => uint32 (n_Height pn + 1) | None => 0 end in
  if negb (bd_Height (blk_data block) =? blockHeight) then throw (NewError "wrong block height!") else
  e ← run (PowCheckBlockContext cfg block (chain_nodes h prevNode));
  _ ← fail_on e;
  _ ← PruneBlockNodes;
  let newNode := NewBlockNode (blk_data block) (Block_Hash block) in
  p ← new_node match pn with
               | Some pn => set_WorkSum (n_WorkSum pn + n_WorkSum newNode) (set_Height blockHeight (set_Parent prevNode newNode))
               | None => newNode
               end;
  ConnectBestChain p block.

Definition BlockExists (hash : Uint256) : bcM bool :=
  node ← LookupNodeInIndex hash;
  match node with
  | Some _ => mret true
  | None => cs ← gets bc_Store; must (IsBlockInStore (cs_db cs) (currentBlockHeight cs) hash)
  end.

(** * Orphans *)

Definition orphan_prev (o : OrphanBlock) : Uint256 := PrevBlockHash (blk_data (ob_Block o)).
Definition orphan_hash (o : OrphanBlock) : Uint256 := Block_Hash (ob_Block o).

Definition RemoveOrphanBlock (orphan : OrphanBlock) (bc : Blockchain) : Blockchain :=
  let orphans := filter (fun o => CompareTo (orphan_hash o) (orphan_hash orphan) <> 0)
                   (default [] (PrevOrphans bc !! orphan_prev orphan)) in
  set_Orphans (delete (orphan_hash orphan) (Orphans bc))
    (if decide (orphans = []) then delete (orphan_prev orphan) (PrevOrphans bc)
     else <[orphan_prev orphan := orphans]> (PrevOrphans bc)) bc.

Definition same_orphan (o : OrphanBlock) (o' : option OrphanBlock) : bool :=
  match o' with Some o' => bool_decide (ob_id o = ob_id o') | None => false end.

(** One turn of the loop that drops expired orphans. *)
Definition expire_orphan (now : Z) (bc : Blockchain) (o : OrphanBlock) : Blockchain :=
  if ob_Expiration o <? now then
    let bc := RemoveOrphanBlock o bc in
    if same_orphan o (OldestOrphan bc) then set_OldestOrphan None bc else bc
  else bc.
Definition older_orphan (oldest : option OrphanBlock) (o : OrphanBlock) : option OrphanBlock :=
  match oldest with
  | None => Some o
  | Some old => if ob_Expiration o <? ob_Expiration old then Some o else oldest
  end.

Definition orphan_list (bc : Blockchain) : list OrphanBlock := map snd (map_to_list (Orphans bc)).
Definition new_orphan_id (bc : Blockchain) : positive :=
  fresh (list_to_set (C := gset positive)
    (match OldestOrphan bc with Some o => [ob_id o] | None => [] end ++ map ob_id (orphan_list bc)
     ++ map ob_id (concat (map snd (map_to_list (PrevOrphans bc)))))).

(** The orphans are enumerated in Go's arbitrary order, which matters only when
    two of them expire at the same time.  Removing a nil orphan panics. *)
Definition AddOrphanBlock (now : Z) (block : Block) : bcM unit :=
  _ ← modify (fun bc => foldl (expire_orphan now) bc (orphan_list bc));
  _ ← modify (fun bc => set_OldestOrphan (foldl older_orphan (OldestOrphan bc) (orphan_list bc)) bc);
  count ← gets (fun bc => Z.of_nat (size (Orphans bc)));
  oldest ← gets OldestOrphan;
  _ ← (if MaxOrphanBlocks (cfg_ChainParam cfg) <? count + 1 then
         o ← must oldest;
         modify (fun bc => set_OldestOrphan None (RemoveOrphanBlock o bc))
       else mret tt);
  modify (fun bc =>
    let oBlock := mkOrphan (new_orphan_id bc) block (now + 3600) in
    let prevHash := PrevBlockHash (blk_data block) in
    set_Orphans (<[Block_Hash block := oBlock]> (Orphans bc))
      (<[prevHash := default [] (PrevOrphans bc !! prevHash) ++ [oBlock]]> (PrevOrphans bc)) bc).

Definition IsKnownOrphan (hash : Uint256) (bc : Blockchain) : bool := bool_decide (is_Some (Orphans bc !! hash)).

(** [None]: the loop does not end (the orphans form a cycle, see
    [orphan_root_found]); the number of orphans bounds the turns otherwise. *)
Fixpoint orphan_root_loop (fuel : nat) (orphans : gmap Uint256 OrphanBlock) (orphanRoot prevHash : Uint256) : option Uint256 :=
  match orphans !! prevHash with
  | None => Some orphanRoot
  | Some o =>
      match fuel with
      | O => None
      | S fuel => orphan_root_loop fuel orphans prevHash (orphan_prev o)
      end
  end.
Definition GetOrphanRoot (hash : Uint256) (bc : Blockchain) : option Uint256 :=
  orphan_root_loop (size (Orphans bc)) (Orphans bc) hash hash.

(** The inner loop always looks at the first orphan left, because [i--] undoes
    the step after every removal. *)
Fixpoint process_orphans (fuel : nat) (processHashes : list Uint256) : bcM unit :=
  match fuel with
  | O => run Unmodelled
  | S fuel =>
      match processHashes with
      | [] => mret tt
      | processHash :: rest =>
          waiting ← gets (fun bc => default [] (PrevOrphans bc !! processHash));
          match waiting with
          | [] => process_orphans fuel rest
          | orphan :: _ =>
              _ ← modify (RemoveOrphanBlock orphan);
              _ ← maybeAcceptBlock (ob_Block orphan);
              process_orphans fuel (processHash :: rest ++ [orphan_hash orphan])
          end
      end
  end.
(** Every turn drops an orphan or a hash, and an orphan adds one hash, so the
    number of waiting orphans bounds the turns. *)
Definition waiting_count (po : gmap Uint256 (list OrphanBlock)) : nat :=
  length (concat (map snd (map_to_list po))).
Definition ProcessOrphans (hash : Uint256) : bcM unit :=
  n ← gets (fun bc => waiting_count (PrevOrphans bc));
  process_orphans (2 * n + 2) [hash].

(** [ProcessBlock]: (in main chain, orphan) or an error. *)
Definition ProcessBlock `{ICrypto} (ripemd160 : bytes -> bytes) (now : Z) (block : Block) : bcM (bool * bool) :=
  let blockHash := Block_Hash block in
  exists_ ← BlockExists blockHash;
  if exists_ : bool then throw (NewError "already have block") else
  orphan ← gets (fun bc => Orphans bc !! blockHash);
  match orphan with
  | Some _ => throw (NewError "already have block (orphan)")
  | None =>
      cs ← gets bc_Store;
      clock ← gets TimeSource;
      e ← run (PowCheckBlockSanity (H := store_ledger cs) cfg ripemd160 block (PowLimit (cfg_ChainParam cfg)) clock now);
      _ ← fail_on e;
      let prevHash := PrevBlockHash (blk_data block) in
      prevHashExists ← (if CompareTo prevHash zero256 =? 0 then mret true else BlockExists prevHash);
      if negb prevHashExists then
        _ ← AddOrphanBlock now block;
        mret (false, true)
      else
        inMainChain ← maybeAcceptBlock block;
        _ ← ProcessOrphans blockHash;
        mret (inMainChain, false)
  end.

(** * Locators *)

Definition MaxBlockLocatorsPerMsg : Z := 500.

(** Every turn lowers the height, which bounds their number. *)
Fixpoint locator_loop (fuel : nat) (db : DB) (locator : list Uint256) (blockHeight increment : Z) : option (list Uint256) :=
  if negb (Z.of_nat (length locator) <? MaxBlockLocatorsPerMsg - 1) then Some locator else
  match fuel with
  | O => None
  | S fuel =>
      let increment := if 10 <? Z.of_nat (length locator) then int32 (increment * 2) else increment in
      let blockHeight := int32 (blockHeight - increment) in
      if blockHeight <? 1 then Some locator else
      let '(h, e) := GetBlockHash db (uint32 blockHeight) in
      locator_loop fuel db (if is_err e then locator else locator ++ [h]) blockHeight increment
  end.

Definition blockLocatorFromHash (hash : Uint256) : bcM (list Uint256) :=
  genesis ← gets GenesisHash;
  if CompareTo hash genesis =? 0 then mret [hash] else
  cs ← gets bc_Store;
  node ← LookupNodeInIndex hash;
  height ← match node with
           | Some p => n ← node_at p; mret (Some (n_Height n))
           | None => '(b, e) ← must (GetBlock (cs_db cs) hash);
                     mret (match b, e with Some b, None => Some (bd_Height (blk_data b)) | _, _ => None end)
           end;
  match height with
  | None => mret [hash]
  | Some h =>
      let blockHeight := int32 h in
      locator ← match locator_loop (S (Z.to_nat blockHeight)) (cs_db cs) [hash] blockHeight 1 with
                | Some l => mret l
                | None => run Unmodelled
                end;
      mret (locator ++ [genesis])
  end.

Definition LatestBlockLocator : bcM (list Uint256) :=
  best ← gets BestChain;
  match best with
  | None => cs ← gets bc_Store; blockLocatorFromHash (GetCurrentBlockHash cs)
  | Some p => n ← node_at p; blockLocatorFromHash (n_Hash n)
  end.

(** The first hash of the locator whose block is stored. *)
Fixpoint LatestLocatorHash (locator : list Uint256) : bcM Uint256 :=
  match locator with
  | [] => mret zero256
  | hash :: rest =>
      cs ← gets bc_Store;
      '(_, e) ← must (GetBlock (cs_db cs) hash);
      if is_err e then LatestLocatorHash rest else mret hash
  end.
End Blockchain.
Arguments Blockchain DB : clear implicits.
