(* ===== verification/BlockTree.v ===== *)
(** Properties of [core/ledger/blockchain.go] as modelled in [Blockchain]: the
    nodes in memory form a forest, the best chain has the most work,
    reorganisation finds the fork, orphans and locators. *)

From S2P Require Import Prelude Sha256 Serialization Common Fixed64 Transaction Merkle AuxPow Block.
From S2P Require Import Store Utxo Difficulty MedianTime Vm Contract Validator Blockchain.

(** * The heap of nodes is a forest *)

(** The parent links followed to their end. *)
Inductive path (h : heap) : option positive -> list positive -> Prop :=
  | path_nil : path h None []
  | path_cons q n l : h !! q = Some n -> path h (n_Parent n) l -> path h (Some q) (q :: l).

(** A rank that grows from parents to children. *)
Definition ranked (h : heap) (rank : positive -> nat) : Prop :=
  forall p n, h !! p = Some n ->
    (forall q, n_Parent n = Some q -> is_Some (h !! q) /\ (rank q < rank p)%nat) /\
    (forall c, c ∈ n_Children n -> is_Some (h !! c) /\ (rank p < rank c)%nat).
Definition forest (h : heap) : Prop := exists rank, ranked h rank.

Lemma path_exists h p : forest h -> (forall q, p = Some q -> is_Some (h !! q)) -> exists l, path h p l.
Proof.
  intros [rank R]. destruct p as [q|]; [|eexists; constructor]. intros Hq. specialize (Hq q eq_refl).
  remember (rank q) as k eqn:Ek. revert q Ek Hq. induction (lt_wf k) as [k _ IH]. intros q -> [n Hn].
  destruct (n_Parent n) as [q'|] eqn:E.
  - destruct (R q n Hn) as [Rp _]. destruct (Rp q' E) as [Hq' Hlt].
    destruct (IH _ Hlt q' eq_refl Hq') as [l Hl]. exists (q :: l). econstructor; [done|]. by rewrite E.
  - exists [q]. econstructor; [done|]. rewrite E. constructor.
Qed.

Lemma path_det h p l l' : path h p l -> path h p l' -> l = l'.
Proof. intros P. revert l'. induction P; intros l' P'; inversion P'; simplify_eq; [done|]. f_equal. by auto. Qed.
Lemma path_dom h p l : path h p l -> Forall (fun q => is_Some (h !! q)) l.
Proof. induction 1; constructor; eauto. Qed.
Lemma path_below h rank p l : ranked h rank -> path h p l ->
  match p with Some q => Forall (fun r => rank r <= rank q)%nat l | None => True end.
Proof.
  intros R P. induction P as [|q n l Hn P IH]; [done|]. constructor; [done|].
  destruct (n_Parent n) as [q'|] eqn:E; [|inversion P; constructor].
  destruct (R q n Hn) as [Rp _]. destruct (Rp q' E) as [_ Hlt].
  eapply list.Forall_impl; [exact IH|]. cbn. lia.
Qed.
Lemma path_NoDup h p l : forest h -> path h p l -> NoDup l.
Proof.
  intros [rank R] P. induction P as [|q n l Hn P IH]; constructor; [|done]. intros Hq.
  destruct (n_Parent n) as [q'|] eqn:E; [|inversion P; subst; by apply elem_of_nil in Hq].
  pose proof (path_below h rank _ _ R P) as B. cbn in B. rewrite list.Forall_forall in B.
  destruct (R q n Hn) as [Rp _]. destruct (Rp q' E) as [_ Hlt]. specialize (B q Hq). lia.
Qed.
Lemma path_length h p l : forest h -> path h p l -> (length l <= size h)%nat.
Proof.
  intros F P. rewrite <- size_dom, <- (size_list_to_set (C := gset positive) l) by (by eapply path_NoDup).
  apply subseteq_size. intros q Hq. apply elem_of_list_to_set in Hq.
  pose proof (path_dom h p l P) as D. rewrite list.Forall_forall in D. by apply elem_of_dom, D.
Qed.

Lemma path_walk h p l fuel : path h p l -> (length l <= fuel)%nat -> walk fuel h p = l.
Proof.
  intros P. revert fuel. induction P as [|q n l Hn P IH]; intros [|fuel] Hf; cbn in *; try done; [lia|].
  rewrite Hn. f_equal. apply IH. lia.
Qed.
Lemma path_chain h p l : forest h -> path h p l -> chain h p = l.
Proof. intros F P. apply path_walk; [done|]. by eapply path_length. Qed.
Lemma chain_path h p : forest h -> (forall q, p = Some q -> is_Some (h !! q)) -> path h p (chain h p).
Proof. intros F Hp. destruct (path_exists h p F Hp) as [l P]. by rewrite (path_chain h p l F P). Qed.

(** Following the links for as many steps as there are nodes reaches the end:
    one more step changes nothing. *)
Lemma chain_step h p n : forest h -> h !! p = Some n -> chain h (Some p) = p :: chain h (n_Parent n).
Proof.
  intros F Hn. destruct (path_exists h (Some p) F) as [l P]; [by intros q [= <-]|].
  rewrite (path_chain _ _ _ F P). inversion P; simplify_eq. f_equal. by rewrite (path_chain _ _ l0 F).
Qed.
Lemma chain_None h : chain h None = [].
Proof. unfold chain. by destruct (size h). Qed.

(** ** Updates *)

(** An update that keeps at most the old links. *)
Lemma forest_shrink h p n f : forest h -> h !! p = Some n ->
  (n_Parent (f n) = n_Parent n \/ n_Parent (f n) = None) -> n_Children (f n) ⊆ n_Children n ->
  forest (<[p := f n]> h).
Proof.
  intros [rank R] Hn Hp Hc. exists rank.
  assert (S : forall q, is_Some (h !! q) -> is_Some (<[p := f n]> h !! q)).
  { intros q Hq. destruct (decide (p = q)) as [->|]; [rewrite lookup_insert_eq; eauto|by rewrite lookup_insert_ne]. }
  intros q m Hm. destruct (decide (p = q)) as [->|].
  - rewrite lookup_insert_eq in Hm. injection Hm as <-. destruct (R q n Hn) as [Rp Rc]. split.
    + intros r Hr. destruct Hp as [Hp|Hp]; [|congruence]. rewrite Hp in Hr. destruct (Rp r Hr); eauto.
    + intros c Hcc. destruct (Rc c (Hc _ Hcc)); eauto.
  - rewrite lookup_insert_ne in Hm by done. destruct (R q m Hm) as [Rp Rc]. split.
    + intros r Hr. destruct (Rp r Hr). eauto.
    + intros c Hcc. destruct (Rc c Hcc). eauto.
Qed.

Lemma ranked_insert h rank p n : ranked h rank ->
  (forall q, n_Parent n = Some q -> is_Some (<[p := n]> h !! q) /\ (rank q < rank p)%nat) ->
  (forall c, c ∈ n_Children n -> is_Some (<[p := n]> h !! c) /\ (rank p < rank c)%nat) ->
  ranked (<[p := n]> h) rank.
Proof.
  intros R Hp Hc q m Hm. destruct (decide (p = q)) as [->|].
  - rewrite lookup_insert_eq in Hm. injection Hm as <-. by split.
  - rewrite lookup_insert_ne in Hm by done. destruct (R q m Hm) as [Rp Rc].
    assert (S : forall r, is_Some (h !! r) -> is_Some (<[p := n]> h !! r)).
    { intros r Hr. destruct (decide (p = r)) as [->|]; [rewrite lookup_insert_eq; eauto|by rewrite lookup_insert_ne]. }
    split; [intros r Hr; destruct (Rp r Hr)|intros c Hcc; destruct (Rc c Hcc)]; eauto.
Qed.

(** A new leaf below [n_Parent n]. *)
Lemma forest_leaf h p n : forest h -> h !! p = None -> n_Children n = [] ->
  (forall q, n_Parent n = Some q -> is_Some (h !! q)) -> forest (<[p := n]> h).
Proof.
  intros [rank R] Hp Hc Hq. exists (fun q => if decide (q = p) then S (match n_Parent n with Some r => rank r | None => 0 end) else rank q).
  assert (NP : forall q, is_Some (h !! q) -> q <> p) by (intros q [m Hm] ->; congruence).
  intros q m Hm. destruct (decide (p = q)) as [->|Hne].
  - rewrite lookup_insert_eq in Hm. injection Hm as <-. split.
    + intros r Hr. pose proof (Hq r Hr) as Sr. pose proof (NP r Sr). rewrite lookup_insert_ne by done.
      split; [done|]. rewrite decide_False, decide_True by done. rewrite Hr. lia.
    + intros c Hcc. rewrite Hc in Hcc. by apply elem_of_nil in Hcc.
  - rewrite lookup_insert_ne in Hm by done. destruct (R q m Hm) as [Rp Rc]. split.
    + intros r Hr. destruct (Rp r Hr) as [Sr Lr]. pose proof (NP r Sr). rewrite lookup_insert_ne by done.
      rewrite !decide_False by done. done.
    + intros c Hcc. destruct (Rc c Hcc) as [Sc Lc]. pose proof (NP c Sc). rewrite lookup_insert_ne by done.
      rewrite !decide_False by done. done.
Qed.

(** [p] becomes a child of the node it has as parent. *)
Lemma forest_add_child h p n q m : forest h -> h !! p = Some n -> n_Parent n = Some q -> h !! q = Some m ->
  forest (<[q := add_child p m]> h).
Proof.
  intros [rank R] Hn Hq Hm. exists rank.
  assert (S : forall r, is_Some (h !! r) -> is_Some (<[q := add_child p m]> h !! r)).
  { intros r Hr. destruct (decide (q = r)) as [->|]; [rewrite lookup_insert_eq; eauto|by rewrite lookup_insert_ne]. }
  apply ranked_insert; [done|..]; destruct (R q m Hm) as [Rp Rc]; cbn.
  - intros r Hr. destruct (Rp r Hr). eauto.
  - intros c [Hcc| ->%list_elem_of_singleton]%elem_of_app; [destruct (Rc c Hcc); eauto|].
    destruct (R p n Hn) as [Rn _]. destruct (Rn q Hq). eauto.
Qed.

(** A new node without parent, and old nodes made its children one by one. *)
Definition rooted (h : heap) (p : positive) : Prop :=
  exists rank, ranked h rank /\ rank p = 0%nat /\ (forall q, q <> p -> (0 < rank q)%nat) /\ is_Some (h !! p).

Lemma rooted_new h p n : forest h -> h !! p = None -> n_Parent n = None -> n_Children n = [] -> rooted (<[p := n]> h) p.
Proof.
  intros [rank R] Hp Hq Hc. exists (fun q => if decide (q = p) then 0%nat else S (rank q)). split_and!.
  - apply ranked_insert.
    + assert (NP : forall q, is_Some (h !! q) -> q <> p) by (intros q [m Hm] ->; congruence).
      intros q m Hm. destruct (R q m Hm) as [Rp Rc]. rewrite (decide_False (P := q = p)) by (apply NP; eauto). split.
      * intros r Hr. destruct (Rp r Hr) as [Sr Lr]. rewrite decide_False by (by apply NP). split; [done|lia].
      * intros c Hcc. destruct (Rc c Hcc) as [Sc Lc]. rewrite decide_False by (by apply NP). split; [done|lia].
    + rewrite Hq. done.
    + rewrite Hc. intros c Hcc. by apply elem_of_nil in Hcc.
  - by rewrite decide_True.
  - intros q Hne. rewrite decide_False by done. lia.
  - rewrite lookup_insert_eq. eauto.
Qed.
Lemma rooted_forest h p : rooted h p -> forest h.
Proof. intros (rank & R & _). by exists rank. Qed.

Lemma rooted_insert h p q n m : rooted h p -> h !! q = Some n ->
  (n_Parent m = n_Parent n \/ (q <> p /\ n_Parent m = Some p)) ->
  (forall c, c ∈ n_Children m -> c ∈ n_Children n \/ (q = p /\ c <> p /\ is_Some (h !! c))) ->
  rooted (<[q := m]> h) p.
Proof.
  intros (rank & R & R0 & Rpos & Sp) Hn Hp Hc. exists rank.
  assert (S : forall r, is_Some (h !! r) -> is_Some (<[q := m]> h !! r)).
  { intros r Hr. destruct (decide (q = r)) as [->|]; [rewrite lookup_insert_eq; eauto|by rewrite lookup_insert_ne]. }
  destruct (R q n Hn) as [Rp Rc]. split_and!; [|done..|by apply S]. apply ranked_insert; [done|..].
  - intros r Hr. destruct Hp as [Hp|[Hne Hp]].
    + rewrite Hp in Hr. destruct (Rp r Hr). eauto.
    + rewrite Hp in Hr. injection Hr as <-. split; [by apply S|]. rewrite R0. by apply Rpos.
  - intros c Hcc. destruct (Hc c Hcc) as [Hin|(-> & Hne & Sc)].
    + destruct (Rc c Hin). eauto.
    + split; [by apply S|]. rewrite R0. by apply Rpos.
Qed.

(** * Running operations *)

Section Run.
Context {DB : Type} `{IStore DB}.
Implicit Types bc : Blockchain DB.

Lemma bind_gets {A B} (f : Blockchain DB -> A) (k : A -> bcM B) bc : (gets f ≫= k) bc = k (f bc) bc.
Proof. reflexivity. Qed.
Lemma bind_modify {B} f (k : unit -> bcM B) bc : (modify f ≫= k) bc = k tt (f bc).
Proof. reflexivity. Qed.
Lemma bind_mret {A B} (a : A) (k : A -> bcM B) bc : ((mret a : bcM A) ≫= k) bc = k a bc.
Proof. reflexivity. Qed.
Lemma bind_throw {A B} e (k : A -> bcM B) bc : (throw e ≫= k) bc = Ok (bc, inr e).
Proof. reflexivity. Qed.
Lemma bind_must {A B} (o : option A) (k : A -> bcM B) bc :
  (must o ≫= k) bc = match o with Some a => k a bc | None => Panic end.
Proof. by destruct o. Qed.
Lemma bind_run {A B} (o : outcome A) (k : A -> bcM B) bc :
  (run o ≫= k) bc = match o with Ok a => k a bc | Panic => Panic | Unmodelled => Unmodelled end.
Proof. by destruct o. Qed.
Lemma bind_fail_on {B} (e : err) (k : unit -> bcM B) bc :
  (fail_on e ≫= k) bc = match e with Some e => Ok (bc, inr e) | None => k tt bc end.
Proof. by destruct e. Qed.
Lemma bind_node_at {B} p (k : BlockNode -> bcM B) bc :
  (node_at p ≫= k) bc = match nodes bc !! p with Some n => k n bc | None => Panic end.
Proof. unfold node_at, mbind, bcM_bind, gets, must, run. by destruct (nodes bc !! p). Qed.
Lemma bind_new_node {B} n (k : positive -> bcM B) bc :
  (new_node n ≫= k) bc =
    k (fresh (dom (nodes bc))) (set_nodes (<[fresh (dom (nodes bc)) := n]> (nodes bc)) bc).
Proof. reflexivity. Qed.
Lemma bind_update {B} p f (k : unit -> bcM B) bc :
  (update_node p f ≫= k) bc =
    match nodes bc !! p with Some n => k tt (set_nodes (<[p := f n]> (nodes bc)) bc) | None => Panic end.
Proof.
  unfold update_node, node_at, mbind, bcM_bind, gets, must, run, modify. by destruct (nodes bc !! p).
Qed.
Lemma bind_index {B} p (k : unit -> bcM B) bc :
  (AddNodeToIndex p ≫= k) bc =
    match nodes bc !! p with Some n => k tt (set_Index (<[n_Hash n := p]> (Index bc)) bc) | None => Panic end.
Proof.
  unfold AddNodeToIndex, node_at, mbind, bcM_bind, gets, must, run, modify. by destruct (nodes bc !! p).
Qed.
Lemma bind_add_dep {B} h p (k : unit -> bcM B) bc :
  (add_dep h p ≫= k) bc =
    k tt (set_DepNodes (<[h := default [] (DepNodes bc !! h) ++ [p]]> (DepNodes bc)) bc).
Proof. reflexivity. Qed.
Lemma bind_lookup {B} h (k : option positive -> bcM B) bc : (LookupNodeInIndex h ≫= k) bc = k (Index bc !! h) bc.
Proof. reflexivity. Qed.
Lemma bind_assoc {A B C} (m : bcM A) (f : A -> bcM B) (g : B -> bcM C) bc :
  ((m ≫= f) ≫= g) bc = (m ≫= (fun a => f a ≫= g)) bc.
Proof. unfold mbind, bcM_bind. by destruct (m bc) as [[? [?|?]]| |]. Qed.
Lemma bind_inv {A B} (m : bcM A) (f : A -> bcM B) bc bc' r :
  (m ≫= f) bc = Ok (bc', r) ->
  (exists bc1 a, m bc = Ok (bc1, inl a) /\ f a bc1 = Ok (bc', r)) \/ (exists e, m bc = Ok (bc', inr e) /\ r = inr e).
Proof.
  unfold mbind, bcM_bind. destruct (m bc) as [[bc1 [a|e]]| |]; intros E; try done; [left; eauto|right].
  injection E as <- <-. eauto.
Qed.
End Run.

Create Rewrite HintDb bc_run.
#[export] Hint Rewrite @bind_gets @bind_modify @bind_mret @bind_throw @bind_must @bind_run @bind_fail_on @bind_node_at
  @bind_new_node @bind_update @bind_index @bind_add_dep @bind_lookup : bc_run.
(** One evaluation step of the hypothesis [E]; a panic closes the goal. *)
Ltac bc_step E :=
  autorewrite with bc_run in E; cbv beta iota zeta in E;
  try lazymatch type of E with
  | match ?o with Some _ => _ | None => Panic end = _ => destruct o eqn:?; [|discriminate E]
  | match ?o with Ok _ => _ | Panic => Panic | Unmodelled => Unmodelled end = _ => destruct o eqn:?; [|discriminate E..]
  | (let '(_, _) := ?o in _) _ = _ => destruct o eqn:?
  end.

(** * Well-formed trees *)

Section Trees.
Context {DB : Type} `{IStore DB} (cfg : Config).
Implicit Types bc : Blockchain DB.

Definition keeps {A} (I : Blockchain DB -> Prop) (m : bcM A) : Prop :=
  forall bc bc' r, I bc -> m bc = Ok (bc', r) -> I bc'.

Lemma keeps_bind {A B} I (m : bcM A) (f : A -> bcM B) : keeps I m -> (forall a, keeps I (f a)) -> keeps I (m ≫= f).
Proof.
  intros Hm Hf bc bc' r Hi [(bc1 & a & E1 & E2)|(e & E1 & ->)]%bind_inv; [|by eapply Hm].
  eapply Hf; [|exact E2]. by eapply Hm.
Qed.
Lemma keeps_ret {A} I (a : A) : keeps I (mret a).
Proof. intros bc bc' r Hi [= <- <-]. done. Qed.
Lemma keeps_throw {A} I e : keeps I (throw e : bcM A).
Proof. intros bc bc' r Hi [= <- <-]. done. Qed.
Lemma keeps_gets {A} I (f : Blockchain DB -> A) : keeps I (gets f).
Proof. intros bc bc' r Hi [= <- <-]. done. Qed.
Lemma keeps_run {A} I (o : outcome A) : keeps I (run o).
Proof. intros bc bc' r Hi E. unfold run in E. destruct o; try done. by injection E as <- <-. Qed.
Lemma keeps_fail_on I e : keeps I (fail_on e).
Proof. destruct e; [apply keeps_throw|apply keeps_ret]. Qed.
Lemma keeps_modify I f : (forall bc, I bc -> I (f bc)) -> keeps I (modify f).
Proof. intros Hf bc bc' r Hi [= <- <-]. by apply Hf. Qed.
Lemma keeps_node_at I p : keeps I (node_at p).
Proof. apply keeps_bind; [apply keeps_gets|]. intros h. apply keeps_run. Qed.
Lemma keeps_update I p f :
  (forall bc n, I bc -> nodes bc !! p = Some n -> I (set_nodes (<[p := f n]> (nodes bc)) bc)) -> keeps I (update_node p f).
Proof.
  intros Hf bc bc' r Hi E. unfold update_node in E. rewrite bind_node_at in E.
  destruct (nodes bc !! p) as [n|] eqn:En; [|done]. injection E as <- <-. by apply Hf.
Qed.

(** The nodes in memory are a forest, and every reference is valid; the index
    maps a hash to a node of that hash; [X] are further valid references. *)
Record wf_tree (X : gset positive) bc : Prop := {
  wt_forest : forest (nodes bc);
  wt_index : forall h p, Index bc !! h = Some p -> exists n, nodes bc !! p = Some n /\ n_Hash n = h;
  wt_deps : forall h ps p, DepNodes bc !! h = Some ps -> p ∈ ps -> is_Some (nodes bc !! p);
  wt_best : forall p, BestChain bc = Some p -> is_Some (nodes bc !! p);
  wt_root : forall p, Root bc = Some p -> is_Some (nodes bc !! p);
  wt_extra : forall p, p ∈ X -> is_Some (nodes bc !! p) }.

Lemma wf_tree_weaken X Y bc : Y ⊆ X -> wf_tree X bc -> wf_tree Y bc.
Proof. intros Hs [F I D B R E]. split; eauto. Qed.
Lemma wf_tree_add X p bc : wf_tree X bc -> is_Some (nodes bc !! p) -> wf_tree ({[p]} ∪ X) bc.
Proof. intros [F I D B R E] Hp. split; eauto. intros q [->%elem_of_singleton|Hq]%elem_of_union; eauto. Qed.

(** Replacing or adding one node. *)
Lemma wf_tree_nodes X p m bc :
  wf_tree X bc -> forest (<[p := m]> (nodes bc)) ->
  (forall n, nodes bc !! p = Some n -> n_Hash m = n_Hash n) ->
  wf_tree X (set_nodes (<[p := m]> (nodes bc)) bc).
Proof.
  intros [F I D B R E] Hf Hh.
  assert (S : forall q, is_Some (nodes bc !! q) -> is_Some (<[p := m]> (nodes bc) !! q)).
  { intros q Hq. destruct (decide (p = q)) as [->|]; [rewrite lookup_insert_eq; eauto|by rewrite lookup_insert_ne]. }
  split; cbn; eauto. intros h q Hq. destruct (I h q Hq) as (n & Hn & <-).
  destruct (decide (p = q)) as [->|]; [|rewrite lookup_insert_ne by done; eauto].
  rewrite lookup_insert_eq. eauto.
Qed.

(** Updates that keep the links and the hash. *)
Definition soft (f : BlockNode -> BlockNode) : Prop :=
  forall n, n_Hash (f n) = n_Hash n /\ n_Parent (f n) = n_Parent n /\ n_Children (f n) = n_Children n.
Definition soft_closed (I : Blockchain DB -> Prop) : Prop :=
  forall bc p n f, soft f -> I bc -> nodes bc !! p = Some n -> I (set_nodes (<[p := f n]> (nodes bc)) bc).
Lemma keeps_soft I p f : soft_closed I -> soft f -> keeps I (update_node p f).
Proof. intros Hc Hf. apply keeps_update. intros bc n Hi Hn. by apply Hc. Qed.
Lemma soft_add_work w : soft (add_work w).
Proof. done. Qed.
Lemma soft_set_InMainChain b : soft (set_InMainChain b).
Proof. done. Qed.
Lemma wf_tree_soft X : soft_closed (wf_tree X).
Proof.
  intros bc p n f Hf Hi Hn. destruct (Hf n) as (Eh & Ep & Ec). apply wf_tree_nodes; [done| |intros m Hm; congruence].
  apply forest_shrink; [by destruct Hi|done|by left|by rewrite Ec].
Qed.
Lemma rooted_soft X r : soft_closed (fun bc => wf_tree X bc /\ rooted (nodes bc) r).
Proof.
  intros bc p n f Hf [Hi Hr] Hn. split; [by apply wf_tree_soft|]. destruct (Hf n) as (Eh & Ep & Ec).
  eapply rooted_insert; [done|exact Hn|by left|]. rewrite Ec. by left.
Qed.

Lemma AddChildrenWork_keeps I fuel p w : soft_closed I -> keeps I (AddChildrenWork fuel p w).
Proof.
  intros Hc. revert p. induction fuel as [|fuel IH]; intros p; cbn [AddChildrenWork]; [apply keeps_run|].
  apply keeps_bind; [apply keeps_node_at|]. intros n. induction (n_Children n) as [|c cs IHc]; [apply keeps_ret|].
  cbn [foldr]. apply keeps_bind; [apply keeps_soft; [done|apply soft_add_work]|]. intros _.
  apply keeps_bind; [apply IH|]. intros _. apply IHc.
Qed.

Lemma keeps_index X p : keeps (wf_tree X) (AddNodeToIndex p).
Proof.
  intros bc bc' r [F I D B R E] Ei. unfold AddNodeToIndex in Ei. rewrite bind_node_at in Ei.
  destruct (nodes bc !! p) as [n|] eqn:En; [|done]. injection Ei as <- <-. split; cbn; eauto.
  intros h q [[<- <-]|[_ Hq]]%lookup_insert_Some; eauto.
Qed.
Lemma keeps_unindex X p : keeps (wf_tree X) (RemoveNodeFromIndex p).
Proof.
  intros bc bc' r [F I D B R E] Ei. unfold RemoveNodeFromIndex in Ei. rewrite bind_node_at in Ei.
  destruct (nodes bc !! p) as [n|] eqn:En; [|done]. injection Ei as <- <-. split; cbn; eauto.
  intros h q [_ Hq]%lookup_delete_Some. eauto.
Qed.
Lemma keeps_add_dep X h p : p ∈ X -> keeps (wf_tree X) (add_dep h p).
Proof.
  intros Hp. apply keeps_modify. intros bc [F I D B R E]. split; cbn; eauto.
  intros h' ps q [[<- <-]|[_ Hq]]%lookup_insert_Some Hin; [|eauto].
  apply elem_of_app in Hin as [Hin| ->%list_elem_of_singleton]; [|by apply E].
  destruct (DepNodes bc !! h) eqn:Ed; [by eapply D|by apply elem_of_nil in Hin].
Qed.

Lemma keeps_adopt_parent X p c : c <> p -> keeps (fun bc => wf_tree X bc /\ rooted (nodes bc) p) (update_node c (set_Parent (Some p))).
Proof.
  intros Hne. apply keeps_update. intros bc n [Hi Hr] Hn.
  assert (Hr' : rooted (<[c := set_Parent (Some p) n]> (nodes bc)) p).
  { eapply rooted_insert; [done|exact Hn|right; by split|]. by left. }
  split; [|done]. apply wf_tree_nodes; [done|by eapply rooted_forest|intros m Hm; by simplify_eq].
Qed.
Lemma keeps_adopt_child X p c : c <> p -> c ∈ X ->
  keeps (fun bc => wf_tree X bc /\ rooted (nodes bc) p) (update_node p (add_child c)).
Proof.
  intros Hne Hx. apply keeps_update. intros bc n [Hi Hr] Hn.
  assert (Hr' : rooted (<[p := add_child c n]> (nodes bc)) p).
  { eapply rooted_insert; [done|exact Hn|by left|]. intros c' [Hc'| ->%list_elem_of_singleton]%elem_of_app; [by left|right].
    split_and!; [done..|]. by eapply wt_extra. }
  split; [|done]. apply wf_tree_nodes; [done|by eapply rooted_forest|intros m Hm; by simplify_eq].
Qed.
Lemma adopt_keeps X p w cs : p ∈ X -> Forall (fun c => c <> p /\ c ∈ X) cs ->
  keeps (fun bc => wf_tree X bc /\ rooted (nodes bc) p) (adopt p w cs).
Proof.
  intros Hp Hc. induction Hc as [|c cs [Hne Hx] _ IH]; cbn [adopt]; [apply keeps_ret|].
  apply keeps_bind; [by apply keeps_adopt_parent|]. intros _.
  apply keeps_bind; [by apply keeps_adopt_child|]. intros _.
  apply keeps_bind; [apply keeps_soft; [apply rooted_soft|apply soft_add_work]|]. intros _.
  apply keeps_bind; [apply keeps_gets|]. intros fuel.
  apply keeps_bind; [apply AddChildrenWork_keeps, rooted_soft|]. intros _.
  apply keeps_bind; [|intros _; exact IH].
  apply keeps_modify. intros bc [[F I D B R E] Hr]. split; [|done]. split; cbn; eauto. intros q [= <-]. by apply E.
Qed.

(** A new node, without links or below an existing node. *)
Lemma wf_tree_leaf X n bc : wf_tree X bc -> n_Children n = [] ->
  (forall q, n_Parent n = Some q -> is_Some (nodes bc !! q)) ->
  let p := fresh (dom (nodes bc)) in
  wf_tree ({[p]} ∪ X) (set_nodes (<[p := n]> (nodes bc)) bc) /\ nodes bc !! p = None.
Proof.
  intros Hi Hc Hq p. assert (Hp : nodes bc !! p = None) by (apply not_elem_of_dom, is_fresh).
  split; [|done]. apply wf_tree_add; [|cbn; rewrite lookup_insert_eq; eauto].
  apply wf_tree_nodes; [done| |intros m Hm; congruence]. apply forest_leaf; [by destruct Hi|done..].
Qed.

Lemma wf_tree_new_child X n bc q m p :
  wf_tree X bc -> nodes bc !! p = Some n -> n_Parent n = Some q -> nodes bc !! q = Some m ->
  wf_tree X (set_nodes (<[q := add_child p m]> (nodes bc)) bc).
Proof.
  intros Hi Hn Hq Hm. apply wf_tree_nodes; [done| |intros m' Hm'; by simplify_eq].
  eapply forest_add_child; [by destruct Hi|exact Hn|done..].
Qed.

(** What follows the three cases of [LoadBlockNode]. *)
Lemma load_finish X (p : positive) prevHash bc bc' r :
  wf_tree X bc -> p ∈ X ->
  (AddNodeToIndex p ≫= fun _ => add_dep prevHash p ≫= fun _ => mret p) bc = Ok (bc', r) ->
  wf_tree X bc' /\ r = inl p.
Proof.
  intros Hi Hp [(bc1 & [] & E1 & E2)|(e & E1 & ->)]%bind_inv.
  - rewrite bind_add_dep in E2. injection E2 as <- <-. split; [|done].
    eapply (keeps_add_dep X prevHash p Hp bc1); [by eapply keeps_index|reflexivity].
  - unfold AddNodeToIndex in E1. rewrite bind_node_at in E1. by destruct (nodes bc !! p).
Qed.

Lemma LoadBlockNode_keeps X header hash bc bc' r :
  wf_tree X bc -> LoadBlockNode header hash bc = Ok (bc', r) ->
  wf_tree (match r with inl p => {[p]} ∪ X | inr _ => X end) bc'.
Proof.
  intros Hi E. unfold LoadBlockNode in E. rewrite bind_lookup, !bind_gets in E.
  set (node := set_InMainChain true (NewBlockNode header hash)) in E.
  destruct (Index bc !! PrevBlockHash header) as [parent|] eqn:Ei.
  - rewrite bind_assoc in E. bc_step E. rewrite bind_assoc, bind_new_node in E.
    destruct (wf_tree_leaf X (set_Parent (Some parent) (set_WorkSum (n_WorkSum b + n_WorkSum node) node)) bc Hi)
      as [Hl Hf]; [done|intros q [= <-]; eauto|].
    revert E Hl Hf. generalize (fresh (dom (nodes bc))) as p. intros p E Hl Hf.
    rewrite bind_assoc, bind_update in E. destruct (nodes (set_nodes _ bc) !! parent) as [m|] eqn:Em; [|done].
    rewrite bind_mret in E. eapply load_finish in E as [Hi' ->]; [exact Hi'| |set_solver].
    eapply (wf_tree_new_child _ _ _ _ _ p Hl); [cbn; by rewrite lookup_insert_eq|done|exact Em].
  - destruct (DepNodes bc !! hash) as [cs|] eqn:Ed; [|destruct (Root bc) as [root|]].
    + rewrite bind_assoc, bind_new_node in E. destruct (wf_tree_leaf X node bc Hi) as [Hl Hf]; [done..|].
      assert (Hr : rooted (<[fresh (dom (nodes bc)) := node]> (nodes bc)) (fresh (dom (nodes bc)))).
      { apply rooted_new; [by destruct Hi|exact Hf|done..]. }
      revert E Hl Hf Hr. generalize (fresh (dom (nodes bc))) as p. intros p E Hl Hf Hr. rewrite bind_assoc in E.
      assert (Hcs : Forall (fun c => c <> p /\ is_Some (nodes bc !! c)) cs).
      { apply list.Forall_forall. intros c Hc. assert (Sc : is_Some (nodes bc !! c)) by (by eapply wt_deps).
        split; [|done]. intros ->. destruct Sc. congruence. }
      assert (Hl' : wf_tree (list_to_set cs ∪ ({[p]} ∪ X)) (set_nodes (<[p := node]> (nodes bc)) bc)).
      { destruct Hl as [F I D B R Ex]. split; eauto. intros q [Hq%elem_of_list_to_set|Hq]%elem_of_union; [|by apply Ex].
        rewrite list.Forall_forall in Hcs. destruct (Hcs q Hq) as [Hne Sq]. cbn. by rewrite lookup_insert_ne. }
      assert (K : keeps (fun bc => wf_tree (list_to_set cs ∪ ({[p]} ∪ X)) bc /\ rooted (nodes bc) p) (adopt p (n_WorkSum node) cs)).
      { apply adopt_keeps; [set_solver|]. rewrite list.Forall_forall in Hcs. apply list.Forall_forall. intros c Hc.
        split; [by apply Hcs|]. apply elem_of_union_l. by apply elem_of_list_to_set. }
      apply bind_inv in E as [(bc1 & [] & E1 & E2)|(e & E1 & ->)].
      * rewrite bind_mret in E2. destruct (K _ _ _ (conj Hl' Hr) E1) as [Hi1 _].
        eapply load_finish in E2 as [Hi' ->]; [|exact Hi1|set_solver]. eapply wf_tree_weaken; [|exact Hi']. set_solver.
      * destruct (K _ _ _ (conj Hl' Hr) E1) as [Hi1 _]. eapply wf_tree_weaken; [|exact Hi1]. set_solver.
    + rewrite bind_throw in E. by injection E as <- <-.
    + rewrite bind_assoc, bind_new_node in E. destruct (wf_tree_leaf X node bc Hi) as [Hl Hf]; [done..|].
      rewrite bind_assoc, bind_modify, bind_mret in E. eapply load_finish in E as [Hi' ->]; [exact Hi'| |set_solver].
      destruct Hl as [F I D B R Ex]. split; cbn; eauto. intros q [= <-]. rewrite lookup_insert_eq. eauto.
Qed.

Lemma keeps_must {A} I (o : option A) : keeps I (must o).
Proof. apply keeps_run. Qed.
Lemma keeps_unlink X p : keeps (wf_tree X) (update_node p (set_Parent None)).
Proof.
  apply keeps_update. intros bc n Hi Hn. apply wf_tree_nodes; [done| |intros m Hm; by simplify_eq].
  apply forest_shrink; [by destruct Hi|done|by right|done].
Qed.
Lemma keeps_childless X p : keeps (wf_tree X) (update_node p (set_Children [])).
Proof.
  apply keeps_update. intros bc n Hi Hn. apply wf_tree_nodes; [done| |intros m Hm; by simplify_eq].
  apply forest_shrink; [by destruct Hi|done|by left|apply list_subseteq_nil].
Qed.
Lemma RemoveChildNode_sub h cs hash : RemoveChildNode h cs hash ⊆ cs.
Proof.
  induction cs as [|c cs IH]; [done|]. cbn. destruct (h !! c) as [n|]; [destruct (_ =? 0)|]; set_solver.
Qed.
Lemma RemoveBlockNode_keeps X p : keeps (wf_tree X) (RemoveBlockNode p).
Proof.
  apply keeps_bind; [apply keeps_node_at|]. intros n. destruct (n_Parent n); [apply keeps_throw|].
  apply keeps_bind; [apply keeps_unindex|]. intros _. apply keeps_bind.
  { induction (n_Children n) as [|c cs IH]; [apply keeps_ret|]. cbn [foldr].
    apply keeps_bind; [apply keeps_unlink|]. intros _. exact IH. }
  intros _. apply keeps_bind; [apply keeps_childless|]. intros _. apply keeps_modify.
  intros bc [F I D B R E]. cbv beta zeta. destruct (DepNodes bc !! n_ParentHash n) as [cs|] eqn:Ed; [|split; eauto].
  split; cbn; eauto. intros h ps q Hh Hq. case_decide.
  - apply lookup_delete_Some in Hh as [_ Hh]. eauto.
  - apply lookup_insert_Some in Hh as [[<- <-]|[_ Hh]]; [|eauto]. eapply D; [exact Ed|]. by eapply RemoveChildNode_sub.
Qed.
Lemma remove_nodes_keeps X ps : keeps (wf_tree X) (remove_nodes ps).
Proof.
  induction ps as [|p ps IH]; cbn; [apply keeps_ret|]. apply keeps_bind; [apply RemoveBlockNode_keeps|]. intros _. exact IH.
Qed.

Lemma walk_dom h fuel p q : q ∈ walk fuel h p -> is_Some (h !! q).
Proof.
  revert p. induction fuel as [|fuel IH]; intros [r|]; cbn; try by intros ?%elem_of_nil.
  destruct (h !! r) eqn:E; [|by intros ?%elem_of_nil]. intros [->|Hq]%elem_of_cons; eauto.
Qed.
Lemma PruneBlockNodes_keeps X : keeps (wf_tree X) (PruneBlockNodes cfg).
Proof.
  intros bc bc' r Hi E. unfold PruneBlockNodes in E. rewrite bind_gets in E.
  destruct (BestChain bc) as [best|]; [|by injection E as <- <-]. rewrite bind_gets in E.
  destruct (drop _ _) as [|root [|q old]] eqn:Ed; [by injection E as <- <-..|].
  assert (Hr : is_Some (nodes bc !! root)).
  { eapply walk_dom. assert (Hin : root ∈ root :: q :: old) by left. rewrite <- Ed in Hin.
    apply list_elem_of_lookup in Hin as [i Hi']. rewrite lookup_drop in Hi'. by eapply list_elem_of_lookup_2. }
  apply bind_inv in E as [(bc1 & [] & E1 & E2)|(e & E1 & ->)].
  - pose proof (remove_nodes_keeps ({[root]} ∪ X) _ _ _ _ (wf_tree_add _ _ _ Hi Hr) E1) as Hi1.
    injection E2 as <- <-. destruct Hi1 as [F I D B R Ex]. split; cbn; eauto; [|set_solver].
    intros p [= <-]. apply Ex. set_solver.
  - by eapply remove_nodes_keeps.
Qed.

Lemma bc_GetHeader_same hash bc bc' (r : Blockdata + error) : bc_GetHeader hash bc = Ok (bc', r) -> bc' = bc.
Proof.
  intros E. unfold bc_GetHeader in E. rewrite bind_gets, bind_must in E.
  destruct (GetHeader _ _) as [[header [e|]]|]; [by injection E as <-| |done].
  unfold must, run in E. destruct header; [|done]. by injection E as <-.
Qed.

(** Both searches for the previous node return a valid reference. *)
Lemma load_prev_keeps X hash bc bc' r :
  wf_tree X bc ->
  (bc_GetHeader hash ≫= fun header => LoadBlockNode header hash ≫= fun p => mret (Some p)) bc = Ok (bc', r) ->
  wf_tree (match r with inl (Some p) => {[p]} ∪ X | _ => X end) bc'.
Proof.
  intros Hi [(bc1 & header & E1 & E2)|(e & E1 & ->)]%bind_inv; apply bc_GetHeader_same in E1 as ->; [|done].
  apply bind_inv in E2 as [(bc2 & p & E2 & E3)|(e & E2 & ->)]; apply (LoadBlockNode_keeps X) in E2; try done.
  by injection E3 as <- <-.
Qed.
Lemma GetPrevNodeFromBlock_keeps X block bc bc' r :
  wf_tree X bc -> GetPrevNodeFromBlock block bc = Ok (bc', r) ->
  wf_tree (match r with inl (Some p) => {[p]} ∪ X | _ => X end) bc'.
Proof.
  intros Hi E. unfold GetPrevNodeFromBlock in E. destruct (_ =? 0); [by injection E as <- <-|].
  rewrite bind_lookup in E. destruct (Index bc !! _) as [p|] eqn:Ei.
  - injection E as <- <-. apply wf_tree_add; [done|]. destruct (wt_index X bc Hi _ _ Ei) as (n & -> & _). eauto.
  - by eapply load_prev_keeps.
Qed.
Lemma GetPrevNodeFromNode_keeps X p bc bc' r :
  wf_tree X bc -> GetPrevNodeFromNode p bc = Ok (bc', r) -> wf_tree X bc'.
Proof.
  intros Hi E. unfold GetPrevNodeFromNode in E. rewrite bind_node_at in E. destruct (nodes bc !! p) as [n|]; [|done].
  destruct (n_Parent n); [by injection E as <- <-|]. rewrite bind_gets in E. destruct (_ =? 0); [by injection E as <- <-|].
  apply (load_prev_keeps X) in E; [|done]. destruct r as [[q|]|]; [|done..]. eapply wf_tree_weaken; [|exact E]. set_solver.
Qed.

(** Fields the tree does not mention. *)
Lemma keeps_fields X f : (forall bc, nodes (f bc) = nodes bc /\ Index (f bc) = Index bc /\ DepNodes (f bc) = DepNodes bc /\
  BestChain (f bc) = BestChain bc /\ Root (f bc) = Root bc) -> keeps (wf_tree X) (modify f).
Proof.
  intros Hf. apply keeps_modify. intros bc [F I D B R E]. destruct (Hf bc) as (En & Ei & Ed & Eb & Er).
  split; rewrite ?En, ?Ei, ?Ed, ?Eb, ?Er; eauto.
Qed.
Lemma save_block_keeps X b : keeps (wf_tree X) (save_block b).
Proof.
  apply keeps_bind; [apply keeps_gets|]. intros cs. apply keeps_bind; [apply keeps_must|]. intros [cs' best].
  apply keeps_bind; [by apply keeps_fields|]. intros _. apply keeps_fields. intros bc. by destruct best.
Qed.
Lemma rollback_block_keeps X h : keeps (wf_tree X) (rollback_block h).
Proof.
  apply keeps_bind; [apply keeps_gets|]. intros cs. apply keeps_bind; [apply keeps_must|]. intros [cs' best].
  apply keeps_bind; [by apply keeps_fields|]. intros _. apply keeps_fields. intros bc. by destruct best.
Qed.
Lemma set_best_keeps X p bc bc' r :
  wf_tree X bc -> (forall q, p = Some q -> is_Some (nodes bc !! q)) -> set_best p bc = Ok (bc', r) -> wf_tree X bc'.
Proof.
  intros [F I D B R E] Hp Es. unfold set_best in Es. rewrite bind_modify, bind_gets, bind_must in Es.
  destruct (CalcPastMedianTime _); [|done]. injection Es as <- <-. split; cbn; eauto.
Qed.

Lemma check_contexts_same txs bc bc' (r : unit + error) : check_contexts cfg txs bc = Ok (bc', r) -> bc' = bc.
Proof.
  induction txs as [|t txs IH]; cbn [check_contexts]; intros E; [by injection E as <-|].
  rewrite bind_gets, bind_run in E. destruct (CheckTransactionContext _ _); [|done..].
  case_decide; [by apply IH|by injection E as <-].
Qed.

Lemma DisconnectBlock_keeps X p b : keeps (wf_tree X) (DisconnectBlock p b).
Proof.
  intros bc bc' r Hi E. unfold DisconnectBlock in E. rewrite bind_node_at in E.
  destruct (nodes bc !! p) as [n|] eqn:En; [|done]. rewrite !bind_gets in E.
  destruct (match _ with Some _ => _ | None => true end); [by injection E as <- <-|].
  apply bind_inv in E as [(bc1 & q & E1 & E)|(e & E1 & ->)]; apply (GetPrevNodeFromNode_keeps X) in E1; try done.
  apply bind_inv in E as [(bc2 & [] & E2 & E)|(e & E2 & ->)]; apply (rollback_block_keeps X) in E2; try done.
  apply bind_inv in E as [(bc3 & [] & E3 & E)|(e & E3 & ->)];
    apply (keeps_soft _ _ _ (wf_tree_soft X) (soft_set_InMainChain false)) in E3; try done.
  rewrite bind_modify, bind_node_at in E.
  assert (Hi4 : wf_tree X (set_BlockCache (<[n_Hash n := b]> (BlockCache bc3)) bc3)) by (by destruct E3; split).
  cbn [nodes set_BlockCache] in E. destruct (nodes bc3 !! p) as [m|] eqn:Em; [|done]. eapply set_best_keeps; [exact Hi4| |exact E].
  intros q' Hq. destruct (wt_forest X _ Hi4) as [rank R]. destruct (R p m Em) as [Rp _]. by destruct (Rp q' Hq).
Qed.

Lemma ConnectBlock_keeps X p b : p ∈ X -> keeps (wf_tree X) (ConnectBlock cfg p b).
Proof.
  intros Hp bc bc' r Hi E. unfold ConnectBlock in E.
  apply bind_inv in E as [(bc1 & [] & E1 & E)|(e & E1 & ->)]; apply check_contexts_same in E1 as ->; [|done].
  rewrite !bind_gets in E. destruct (match _ with Some _ => _ | None => false end); [by injection E as <- <-|].
  apply bind_inv in E as [(bc2 & [] & E2 & E)|(e & E2 & ->)]; apply (save_block_keeps X) in E2; try done.
  apply bind_inv in E as [(bc3 & [] & E3 & E)|(e & E3 & ->)];
    apply (keeps_soft _ _ _ (wf_tree_soft X) (soft_set_InMainChain true)) in E3; try done.
  apply bind_inv in E as [(bc4 & [] & E4 & E)|(e & E4 & ->)]; apply (keeps_index X) in E4; try done.
  apply bind_inv in E as [(bc5 & [] & E5 & E)|(e & E5 & ->)]; apply (keeps_add_dep X _ _ Hp) in E5; try done.
  eapply set_best_keeps; [exact E5| |exact E]. intros q [= <-]. by eapply wt_extra.
Qed.

Lemma detach_keeps X ps : keeps (wf_tree X) (detach ps).
Proof.
  induction ps as [|p ps IH]; cbn [detach]; [apply keeps_ret|].
  apply keeps_bind; [apply keeps_node_at|]. intros n. apply keeps_bind; [apply keeps_gets|]. intros cs.
  apply keeps_bind; [apply keeps_must|]. intros [b e]. apply keeps_bind; [apply keeps_fail_on|]. intros _.
  apply keeps_bind; [apply keeps_must|]. intros b'. apply keeps_bind; [apply DisconnectBlock_keeps|]. intros _. exact IH.
Qed.
Lemma attach_keeps X ps : Forall (fun p => p ∈ X) ps -> keeps (wf_tree X) (attach cfg ps).
Proof.
  induction 1 as [|p ps Hp _ IH]; cbn [attach]; [apply keeps_ret|].
  apply keeps_bind; [apply keeps_node_at|]. intros n. apply keeps_bind; [apply keeps_gets|]. intros cache.
  apply keeps_bind; [apply keeps_must|]. intros b. apply keeps_bind; [by apply ConnectBlock_keeps|]. intros _.
  apply keeps_bind; [by apply keeps_fields|]. intros _. exact IH.
Qed.
Lemma all_cached_same ps bc bc' (r : unit + error) : all_cached ps bc = Ok (bc', r) -> bc' = bc.
Proof.
  induction ps as [|p ps IH]; cbn [all_cached]; intros E; [by injection E as <-|].
  rewrite bind_node_at in E. destruct (nodes bc !! p) as [n|]; [|done]. rewrite bind_gets in E.
  destruct (BlockCache bc !! n_Hash n); [by apply IH|by injection E as <-].
Qed.
Lemma ReorganizeChain_keeps X ds ats : Forall (fun p => p ∈ X) ats -> keeps (wf_tree X) (ReorganizeChain cfg ds ats).
Proof.
  intros Ha. apply keeps_bind.
  { intros bc bc' r Hi E. by apply all_cached_same in E as ->. }
  intros _. apply keeps_bind; [apply detach_keeps|]. intros _. by apply attach_keeps.
Qed.

Lemma side_branch_sub h ps branch fork : side_branch h ps = (branch, fork) -> branch ⊆ ps.
Proof.
  revert branch fork. induction ps as [|p ps IH]; intros branch fork E; cbn in E; [by injection E as <- <-|].
  destruct (h !! p) as [n|]; [|injection E as <- <-; apply list_subseteq_nil].
  destruct (n_Parent n); [|injection E as <- <-; apply list_subseteq_nil].
  destruct (n_InMainChain n); [injection E as <- <-; apply list_subseteq_nil|].
  destruct (side_branch h ps) as [br f]. injection E as <- <-. specialize (IH br f eq_refl).
  intros x [->|Hx]%elem_of_cons; [left|right; by apply IH].
Qed.
(** The nodes to attach are on the chain of [node]. *)
Lemma GetReorganizeNodes_sub node bc bc' r : GetReorganizeNodes node bc = Ok (bc', r) ->
  bc' = bc /\ match r with inl (_, ats) => ats ⊆ chain (nodes bc) (Some node) | inr _ => True end.
Proof.
  intros E. unfold GetReorganizeNodes in E. rewrite !bind_gets in E.
  destruct (side_branch _ _) as [branch fork] eqn:Es. rewrite bind_must in E. destruct fork as [f|]; [|done].
  rewrite bind_node_at in E. destruct (nodes bc !! f); [|done]. injection E as <- <-. split; [done|].
  apply side_branch_sub in Es. intros x Hx. apply Es. by rewrite elem_of_reverse in Hx.
Qed.

(** Connecting changes no link. *)
Definition links (h h' : heap) : Prop := forall p n, h !! p = Some n ->
  exists n', h' !! p = Some n' /\ n_Hash n' = n_Hash n /\ n_Parent n' = n_Parent n /\ n_Children n' = n_Children n /\
    n_WorkSum n' = n_WorkSum n /\ n_Height n' = n_Height n /\ n_ParentHash n' = n_ParentHash n.
Lemma links_refl h : links h h.
Proof. intros p n Hn. eauto 8. Qed.
Lemma links_main h p n b : h !! p = Some n -> links h (<[p := set_InMainChain b n]> h).
Proof.
  intros Hn q m Hm. destruct (decide (p = q)) as [->|]; [|rewrite lookup_insert_ne by done; eauto 8].
  rewrite lookup_insert_eq. simplify_eq. eauto 8.
Qed.

Lemma save_block_ok b bc bc' r : save_block b bc = Ok (bc', r) ->
  exists cs best, handlePersistBlockTask (bc_Store bc) b = Some (cs, best) /\ r = inl tt /\
    bc' = let bc := set_bc_Store cs bc in match best with Some v => set_BlockHeight v bc | None => bc end.
Proof.
  intros E. unfold save_block in E. rewrite bind_gets, bind_must in E.
  destruct (handlePersistBlockTask _ _) as [[cs best]|]; [|done]. rewrite bind_modify in E. injection E as <- <-. eauto.
Qed.
Lemma rollback_block_ok h bc bc' r : rollback_block h bc = Ok (bc', r) ->
  exists cs best, handleRollbackBlockTask (bc_Store bc) h = Some (cs, best) /\ r = inl tt /\
    bc' = let bc := set_bc_Store cs bc in match best with Some v => set_BlockHeight v bc | None => bc end.
Proof.
  intros E. unfold rollback_block in E. rewrite bind_gets, bind_must in E.
  destruct (handleRollbackBlockTask _ _) as [[cs best]|]; [|done]. rewrite bind_modify in E. injection E as <- <-. eauto.
Qed.

(** [ConnectBlock] fails before it changes anything, or succeeds. *)
Lemma ConnectBlock_ok p b bc bc' r : ConnectBlock cfg p b bc = Ok (bc', r) ->
  (exists e, r = inr e /\ bc' = bc) \/
  exists n cs best, r = inl tt /\ nodes bc !! p = Some n /\
    handlePersistBlockTask (bc_Store bc) b = Some (cs, best) /\
    (forall q m, BestChain bc = Some q -> nodes bc !! q = Some m ->
       CompareTo (PrevBlockHash (blk_data b)) (n_Hash m) = 0) /\
    nodes bc' = <[p := set_InMainChain true n]> (nodes bc) /\ Index bc' = <[n_Hash n := p]> (Index bc) /\
    BestChain bc' = Some p /\ Root bc' = Root bc /\ BlockCache bc' = BlockCache bc /\
    bc_Store bc' = cs /\ BlockHeight bc' = default (BlockHeight bc) best /\
    Orphans bc' = Orphans bc /\ PrevOrphans bc' = PrevOrphans bc.
Proof.
  intros E. unfold ConnectBlock in E.
  apply bind_inv in E as [(bc1 & [] & E1 & E)|(e & E1 & ->)]; apply check_contexts_same in E1 as ->; [|eauto].
  rewrite !bind_gets in E. destruct (match _ with Some _ => _ | None => false end) eqn:Eg; [injection E as <- <-; eauto|].
  apply bind_inv in E as [(bc2 & [] & E2 & E)|(e & E2 & ->)]; apply save_block_ok in E2 as (cs & best & Eh & [=] & ->).
  right. rewrite bind_update in E.
  assert (En : nodes (let bc := set_bc_Store cs bc in match best with Some v => set_BlockHeight v bc | None => bc end) = nodes bc)
    by (by destruct best).
  rewrite En in E. destruct (nodes bc !! p) as [n|] eqn:Hn; [|done].
  rewrite bind_index in E. cbn [nodes set_nodes] in E. rewrite lookup_insert_eq, bind_add_dep in E.
  unfold set_best in E. rewrite bind_modify, bind_gets, bind_must in E. destruct (CalcPastMedianTime _); [|done].
  injection E as <- <-. exists n, cs, best. split_and!; try done; try (by destruct best).
  intros q m Hq Hm. rewrite Hq in Eg. cbn in Eg. rewrite Hm in Eg.
  by destruct (Z.eqb_spec (CompareTo (PrevBlockHash (blk_data b)) (n_Hash m)) 0).
Qed.

(** Which of its two ways [ConnectBestChain] takes. *)
Definition extends_best (bc : Blockchain DB) (n : BlockNode) : bcM (DB := DB) bool :=
  match BestChain bc ≫= (nodes bc !!.) with
  | None => mret true
  | Some bn => parent ← must (n_Parent n ≫= (nodes bc !!.)); mret (CompareTo (n_Hash parent) (n_Hash bn) =? 0)
  end.
Lemma extends_best_ok bc n bc' r : extends_best bc n bc = Ok (bc', r) ->
  bc' = bc /\ exists b, r = inl b /\
    forall bp bn, BestChain bc = Some bp -> nodes bc !! bp = Some bn ->
      exists q m, n_Parent n = Some q /\ nodes bc !! q = Some m /\ b = (CompareTo (n_Hash m) (n_Hash bn) =? 0).
Proof.
  unfold extends_best. intros E. destruct (BestChain bc) as [bp|]; cbn in E; [|injection E as <- <-; split; [done|]; eexists; split; [done|]; by intros].
  destruct (nodes bc !! bp) as [bn|] eqn:Eb; [|injection E as <- <-; split; [done|]; eexists; split; [done|]; intros; simplify_eq].
  rewrite bind_must in E. destruct (n_Parent n) as [q|] eqn:Eq; [|done]. cbn in E.
  destruct (nodes bc !! q) as [m|] eqn:Em; [|done]. injection E as <- <-. split; [done|]. eexists. split; [done|].
  intros bp' bn' [= <-] Hb. simplify_eq. eauto.
Qed.

Lemma ConnectBestChain_keeps X p b : p ∈ X -> keeps (wf_tree X) (ConnectBestChain cfg p b).
Proof.
  intros Hp bc bc' r Hi E. unfold ConnectBestChain in E. rewrite bind_node_at in E.
  destruct (nodes bc !! p) as [n|] eqn:En; [|done]. rewrite !bind_gets in E. fold (extends_best bc n) in E.
  apply bind_inv in E as [(bc1 & ext & E1 & E)|(e & E1 & ->)]; apply extends_best_ok in E1 as (-> & b' & [=] & _).
  subst b'. destruct ext.
  - apply bind_inv in E as [(bc2 & [] & E2 & E)|(e & E2 & ->)]; [|by eapply (ConnectBlock_keeps X)].
    pose proof (ConnectBlock_keeps X p b Hp _ _ _ Hi E2) as Hi2.
    apply ConnectBlock_ok in E2 as [(e & [=] & _)|(n' & cs & best & _ & En' & _ & _ & En2 & _)]. simplify_eq.
    destruct (n_Parent n) as [q|] eqn:Eq; [|by injection E as <- <-].
    rewrite bind_update in E. destruct (nodes bc2 !! q) as [m|] eqn:Em; [|done]. injection E as <- <-.
    eapply (wf_tree_new_child _ (set_InMainChain true n)); [done| |exact Eq|done]. by rewrite En2, lookup_insert_eq.
  - rewrite bind_modify, bind_index in E. cbn [nodes set_BlockCache] in E. rewrite En in E.
    rewrite bind_update in E. cbn [nodes set_Index set_BlockCache] in E. rewrite En, bind_must in E.
    destruct (n_Parent n) as [q|] eqn:Eq; [|done]. rewrite bind_update in E. cbn [nodes set_nodes] in E.
    destruct (<[p := _]> (nodes bc) !! q) as [m|] eqn:Em; [|done].
    rewrite bind_must in E. destruct (BestChain bc ≫= _) as [bn|]; [|done].
    match type of E with _ ?s = _ => assert (Hi2 : wf_tree X s) end.
    { pose (bi := set_Index (<[n_Hash n := p]> (Index bc)) (set_BlockCache (<[n_Hash n := b]> (BlockCache bc)) bc)).
      assert (Wi : wf_tree X bi).
      { eapply (keeps_index X p (set_BlockCache (<[n_Hash n := b]> (BlockCache bc)) bc)); [destruct Hi; split; cbn; eauto|].
        unfold AddNodeToIndex. rewrite bind_node_at. cbn. by rewrite En. }
      pose proof (wf_tree_soft X bi p n _ (soft_set_InMainChain false) Wi En) as Wm.
      refine (wf_tree_new_child X (set_InMainChain false n) _ q m p Wm _ Eq Em). cbn. by rewrite lookup_insert_eq. }
    destruct (_ <=? _); [by injection E as <- <-|].
    apply bind_inv in E as [(bc3 & [ds ats] & E3 & E)|(e & E3 & ->)]; apply GetReorganizeNodes_sub in E3 as [-> Hs]; [|done].
    match type of Hi2 with wf_tree X ?s => assert (Hi3 : wf_tree (list_to_set ats ∪ X) s) end.
    { destruct Hi2 as [F I D B R Ex]. split; try done.
      intros x [Hx%elem_of_list_to_set|Hx]%elem_of_union; [|by apply Ex]. eapply walk_dom, Hs, Hx. }
    eapply wf_tree_weaken; [apply union_subseteq_r|].
    assert (K : keeps (wf_tree (list_to_set ats ∪ X)) (ReorganizeChain cfg ds ats)).
    { apply ReorganizeChain_keeps. apply list.Forall_forall. intros x Hx. apply elem_of_union_l. by apply elem_of_list_to_set. }
    apply bind_inv in E as [(bc4 & [] & E4 & E)|(e & E4 & ->)]; apply K in E4; try done. by injection E as <- <-.
Qed.

Lemma wf_tree_drop X bc : wf_tree X bc -> wf_tree ∅ bc.
Proof. apply wf_tree_weaken, empty_subseteq. Qed.

Lemma maybeAcceptBlock_keeps b : keeps (wf_tree ∅) (maybeAcceptBlock cfg b).
Proof.
  intros bc bc' r Hi E. unfold maybeAcceptBlock in E.
  apply bind_inv in E as [(bc1 & prev & E1 & E)|(e & E1 & ->)]; apply (GetPrevNodeFromBlock_keeps ∅) in E1; try done.
  rewrite bind_gets in E.
  apply bind_inv in E as [(bc2 & pn & E2 & E)|(e & E2 & ->)].
  2: { destruct prev as [p|]; [|done]. rewrite bind_node_at in E2. by destruct (nodes bc1 !! p). }
  assert (bc2 = bc1) as ->.
  { destruct prev as [p|]; [|by inversion E2]. rewrite bind_node_at in E2.
    destruct (nodes bc1 !! p); [|done]. by inversion E2. }
  set (X := match prev with Some p => {[p]} | None => ∅ end : gset positive).
  assert (Hi1 : wf_tree X bc1) by (eapply wf_tree_weaken; [|exact E1]; destruct prev; set_solver).
  destruct (negb _); [injection E as <- <-; by apply (wf_tree_drop X)|].
  rewrite bind_run in E. destruct (PowCheckBlockContext _ _ _) as [e| |]; [|done..].
  rewrite bind_fail_on in E. destruct e; [injection E as <- <-; by apply (wf_tree_drop X)|].
  apply bind_inv in E as [(bc3 & [] & E3 & E)|(e & E3 & ->)]; apply (PruneBlockNodes_keeps X) in E3; try done;
    [|by eapply wf_tree_drop].
  rewrite bind_new_node in E.
  match type of E with ConnectBestChain _ ?p _ (set_nodes (<[_ := ?n]> _) _) = _ =>
    destruct (wf_tree_leaf X n bc3 E3) as [Hl _]
  end.
  - by destruct pn.
  - intros q Hq. apply (wt_extra X bc3 E3). unfold X. destruct prev as [p|].
    + destruct pn; [injection Hq as ->; set_solver|done].
    + destruct pn; done.
  - eapply wf_tree_drop. eapply ConnectBestChain_keeps; [|exact Hl|exact E]. set_solver.
Qed.

(** ** Orphans *)

(** Orphans wait under the hash of their parent. *)
Record wf_orphans bc : Prop := {
  wo_hash : forall h o, Orphans bc !! h = Some o -> orphan_hash o = h;
  wo_prev : forall h l o, PrevOrphans bc !! h = Some l -> o ∈ l -> orphan_prev o = h;
  wo_some : forall h l, PrevOrphans bc !! h = Some l -> l <> [] }.

Lemma keeps_new_node I n :
  (forall bc p, I bc -> I (set_nodes (<[p := n]> (nodes bc)) bc)) -> keeps I (new_node n).
Proof. intros Hf bc bc' r Hi [= <- <-]. by apply Hf. Qed.

(** Walks through an operation that does not touch the fields [I] reads. *)
Ltac untouched :=
  repeat first
    [ assumption | apply keeps_ret | apply keeps_throw | apply keeps_gets | apply keeps_run | apply keeps_fail_on | apply keeps_must
    | apply keeps_node_at | lazymatch goal with |- keeps _ (_ ≫= _) => apply keeps_bind; [|intros ?] end
    | apply keeps_modify; intros ? ?; cbv beta zeta; repeat case_match; done
    | apply keeps_update; intros ? ? ? ?; done
    | apply keeps_new_node; intros ? ? ?; done
    | progress cbv beta zeta
    | lazymatch goal with |- keeps _ (match ?x with _ => _ end) => destruct x end
    | lazymatch goal with |- keeps _ (foldr _ _ ?l) => induction l; cbn [foldr] end ].

Section Untouched.
Variables (os : gmap Uint256 OrphanBlock) (po : gmap Uint256 (list OrphanBlock)).
Definition orphans_are bc : Prop := Orphans bc = os /\ PrevOrphans bc = po.
Lemma AddChildrenWork_untouched fuel p w : keeps orphans_are (AddChildrenWork fuel p w).
Proof. apply AddChildrenWork_keeps. by intros ?. Qed.
Lemma adopt_untouched p w cs : keeps orphans_are (adopt p w cs).
Proof. induction cs; cbn [adopt]; untouched; apply AddChildrenWork_untouched. Qed.
Lemma LoadBlockNode_untouched header hash : keeps orphans_are (LoadBlockNode header hash).
Proof. unfold LoadBlockNode, LookupNodeInIndex, AddNodeToIndex, add_dep. untouched. destruct a, a0, a1; untouched; apply adopt_untouched. Qed.
Lemma RemoveBlockNode_untouched p : keeps orphans_are (RemoveBlockNode p).
Proof. unfold RemoveBlockNode, RemoveNodeFromIndex. untouched. Qed.
Lemma remove_nodes_untouched ps : keeps orphans_are (remove_nodes ps).
Proof. induction ps; cbn [remove_nodes]; untouched; apply RemoveBlockNode_untouched. Qed.
Lemma PruneBlockNodes_untouched : keeps orphans_are (PruneBlockNodes cfg).
Proof. unfold PruneBlockNodes. untouched; apply remove_nodes_untouched. Qed.
Lemma GetPrevNodeFromBlock_untouched b : keeps orphans_are (GetPrevNodeFromBlock b).
Proof. unfold GetPrevNodeFromBlock, LookupNodeInIndex, bc_GetHeader. untouched; apply LoadBlockNode_untouched. Qed.
Lemma GetPrevNodeFromNode_untouched p : keeps orphans_are (GetPrevNodeFromNode p).
Proof. unfold GetPrevNodeFromNode, bc_GetHeader. untouched; apply LoadBlockNode_untouched. Qed.
Lemma DisconnectBlock_untouched p b : keeps orphans_are (DisconnectBlock p b).
Proof. unfold DisconnectBlock, rollback_block, set_best. untouched; apply GetPrevNodeFromNode_untouched. Qed.
Lemma ConnectBlock_untouched p b : keeps orphans_are (ConnectBlock cfg p b).
Proof.
  intros bc bc' r [Ho Hp] [(e & _ & ->)|(n & cs & best & E)]%ConnectBlock_ok; [by split|].
  destruct_and! E. split; congruence.
Qed.
Lemma detach_untouched ps : keeps orphans_are (detach ps).
Proof. induction ps; cbn [detach]; untouched; apply DisconnectBlock_untouched. Qed.
Lemma attach_untouched ps : keeps orphans_are (attach cfg ps).
Proof. induction ps; cbn [attach]; untouched; apply ConnectBlock_untouched. Qed.
Lemma all_cached_untouched ps : keeps orphans_are (all_cached ps).
Proof. induction ps; cbn [all_cached]; untouched. Qed.
Lemma ConnectBestChain_untouched p b : keeps orphans_are (ConnectBestChain cfg p b).
Proof.
  unfold ConnectBestChain, ReorganizeChain, GetReorganizeNodes, AddNodeToIndex. untouched;
    auto using ConnectBlock_untouched, all_cached_untouched, detach_untouched, attach_untouched.
Qed.
Lemma maybeAcceptBlock_untouched b : keeps orphans_are (maybeAcceptBlock cfg b).
Proof.
  unfold maybeAcceptBlock. untouched;
    auto using GetPrevNodeFromBlock_untouched, PruneBlockNodes_untouched, ConnectBestChain_untouched.
Qed.
End Untouched.

Lemma waiting_count_insert po h l : po !! h = None -> waiting_count (<[h := l]> po) = (length l + waiting_count po)%nat.
Proof.
  intros Hn. unfold waiting_count. rewrite (map_to_list_insert po h l Hn). cbn [map concat snd]. by rewrite length_app.
Qed.
Lemma waiting_count_delete po h l : po !! h = Some l -> waiting_count po = (length l + waiting_count (delete h po))%nat.
Proof.
  intros Hl. rewrite <- (insert_delete_id po h l Hl) at 1. apply waiting_count_insert, lookup_delete_eq.
Qed.

Lemma RemoveOrphanBlock_wf o bc : wf_orphans bc -> wf_orphans (RemoveOrphanBlock o bc).
Proof.
  intros [Hh Hp Hs]. unfold RemoveOrphanBlock. split; cbn.
  - intros h o' [_ Ho]%lookup_delete_Some. eauto.
  - intros h l o' Hl Ho. case_decide; [apply lookup_delete_Some in Hl as [_ Hl]; eauto|].
    apply lookup_insert_Some in Hl as [[<- <-]|[_ Hl]]; [|eauto]. apply list_elem_of_filter in Ho as [_ Ho].
    destruct (PrevOrphans bc !! orphan_prev o) eqn:E; [by eapply Hp|by apply elem_of_nil in Ho].
  - intros h l Hl. case_decide; [apply lookup_delete_Some in Hl as [_ Hl]; eauto|].
    apply lookup_insert_Some in Hl as [[<- <-]|[_ Hl]]; eauto.
Qed.
Lemma RemoveOrphanBlock_none o bc h : PrevOrphans bc !! h = None -> PrevOrphans (RemoveOrphanBlock o bc) !! h = None.
Proof.
  intros Hn. unfold RemoveOrphanBlock. cbn. case_decide as E; [by apply lookup_delete_None; right|].
  destruct (decide (orphan_prev o = h)) as [<-|]; [|by rewrite lookup_insert_ne]. rewrite Hn in E. done.
Qed.
(** Removing the first orphan that waits for [h] makes one less wait. *)
Lemma RemoveOrphanBlock_count o l bc h : wf_orphans bc -> PrevOrphans bc !! h = Some (o :: l) ->
  (waiting_count (PrevOrphans (RemoveOrphanBlock o bc)) < waiting_count (PrevOrphans bc))%nat.
Proof.
  intros [Hh Hp Hs] Hl. assert (orphan_prev o = h) as Ho by (eapply Hp; [exact Hl|left]).
  unfold RemoveOrphanBlock. cbn. rewrite Ho, Hl. change (default [] (Some (o :: l))) with (o :: l).
  rewrite filter_cons_False by (intros Hf; apply Hf, CompareTo_refl).
  rewrite (waiting_count_delete (PrevOrphans bc) h (o :: l) Hl). cbn [length]. case_decide; [lia|].
  rewrite <- insert_delete_eq, waiting_count_insert by apply lookup_delete_eq. pose proof (length_filter (fun o0 => CompareTo (orphan_hash o0) (orphan_hash o) <> 0) l). lia.
Qed.

Lemma untouched_wf bc bc1 : orphans_are (Orphans bc) (PrevOrphans bc) bc1 -> wf_orphans bc -> wf_orphans bc1.
Proof. intros [E1 E2] [Hh Hp Hs]. by split; rewrite ?E1, ?E2. Qed.

Lemma default_cons {A} (o : option (list A)) a l : default [] o = a :: l -> o = Some (a :: l).
Proof. destruct o; cbn; congruence. Qed.

Lemma bind_cong {A B} (m : bcM A) (f g : A -> bcM B) bc :
  (forall bc1 a, m bc = Ok (bc1, inl a) -> f a bc1 = g a bc1) -> (m ≫= f) bc = (m ≫= g) bc.
Proof. unfold mbind, bcM_bind. destruct (m bc) as [[bc1 [a|e]]| |]; auto. Qed.

(** With enough turns the number of turns does not matter. *)
Lemma process_orphans_fuel f1 f2 q bc : wf_orphans bc ->
  (2 * waiting_count (PrevOrphans bc) + length q < f1)%nat -> (2 * waiting_count (PrevOrphans bc) + length q < f2)%nat ->
  process_orphans cfg f1 q bc = process_orphans cfg f2 q bc.
Proof.
  revert f2 q bc. induction f1 as [|f1 IH]; intros [|f2] q bc Hw H1 H2; try lia. cbn [process_orphans].
  destruct q as [|h q]; [done|]. rewrite !bind_gets. cbn [length] in *.
  destruct (default [] (PrevOrphans bc !! h)) as [|o l] eqn:E; [apply IH; [done|lia..]|apply default_cons in E].
  rewrite !bind_modify. pose proof (RemoveOrphanBlock_count o l bc h Hw E) as Hc.
  apply bind_cong. intros bc1 b Em.
  pose proof (maybeAcceptBlock_untouched _ _ _ _ _ _ (conj eq_refl eq_refl) Em) as Hu.
  apply IH; [by eapply untouched_wf, RemoveOrphanBlock_wf|..]; destruct Hu as [_ ->];
    cbn [length]; rewrite length_app; cbn [length]; lia.
Qed.

(** When it ends without an error, nothing waits for the hashes it was given. *)
Lemma process_orphans_done fuel q bc bc' r : process_orphans cfg fuel q bc = Ok (bc', r) ->
  (forall h, PrevOrphans bc !! h = None -> PrevOrphans bc' !! h = None) /\
  (wf_orphans bc -> wf_orphans bc') /\
  (r = inl tt -> wf_orphans bc -> forall h, h ∈ q -> PrevOrphans bc' !! h = None).
Proof.
  revert q bc. induction fuel as [|fuel IH]; intros q bc E; cbn [process_orphans] in E; [done|].
  destruct q as [|h q].
  { injection E as <- <-. split_and!; [done..|]. by intros _ _ h ?%elem_of_nil. }
  rewrite bind_gets in E. destruct (default [] (PrevOrphans bc !! h)) as [|o l] eqn:El.
  - apply IH in E as (Hm & Hw & Hd). split_and!; [done..|]. intros -> Hw' h' [->|Hin]%elem_of_cons; [|by apply Hd].
    apply Hm. destruct (PrevOrphans bc !! h) eqn:Eh; [|done]. cbn in El. subst. by destruct (wo_some bc Hw' h [] Eh).
  - apply default_cons in El. rewrite bind_modify in E. apply bind_inv in E as [(bc1 & b & Em & E)|(e & Em & ->)];
      pose proof (maybeAcceptBlock_untouched _ _ _ _ _ _ (conj eq_refl eq_refl) Em) as Hu; pose proof Hu as [_ Hp].
    + apply IH in E as (Hm & Hw & Hd).
      assert (Hw1 : wf_orphans bc -> wf_orphans bc1) by (intros Hw'; by eapply untouched_wf, RemoveOrphanBlock_wf).
      split_and!; [|by auto|].
      * intros h' Hn. apply Hm. rewrite Hp. by apply RemoveOrphanBlock_none.
      * intros -> Hw' h' Hin. apply Hd; [done|by auto|]. set_solver.
    + split_and!; [|intros Hw'; by eapply untouched_wf, RemoveOrphanBlock_wf|done].
      intros h' Hn. rewrite Hp. by apply RemoveOrphanBlock_none.
Qed.

Lemma keeps_and {A} I J (m : bcM A) : keeps I m -> keeps J m -> keeps (fun bc => I bc /\ J bc) m.
Proof. intros Hi Hj bc bc' r [H1 H2] E. split; [by eapply Hi|by eapply Hj]. Qed.

(** The orphan operations leave the tree alone. *)
Lemma RemoveOrphanBlock_tree X o bc : wf_tree X bc -> wf_tree X (RemoveOrphanBlock o bc).
Proof. by intros []. Qed.
Lemma expire_tree X now l bc : wf_tree X bc -> wf_tree X (foldl (expire_orphan now) bc l).
Proof.
  revert bc. induction l as [|o l IH]; intros bc Hi; [done|]. cbn [foldl]. apply IH. unfold expire_orphan.
  destruct (_ <? _); [|done]. by destruct (same_orphan _ _), Hi.
Qed.
Lemma expire_wf now l bc : wf_orphans bc -> wf_orphans (foldl (expire_orphan now) bc l).
Proof.
  revert bc. induction l as [|o l IH]; intros bc Hi; [done|]. cbn [foldl]. apply IH. unfold expire_orphan.
  destruct (_ <? _); [|done]. apply (RemoveOrphanBlock_wf o) in Hi. by destruct (same_orphan _ _), Hi.
Qed.
Definition wf_chain bc : Prop := wf_tree ∅ bc /\ wf_orphans bc.

Lemma AddOrphanBlock_keeps now b : keeps wf_chain (AddOrphanBlock cfg now b).
Proof.
  unfold AddOrphanBlock. apply keeps_bind.
  { apply keeps_modify. intros bc [Ht Ho]. split; [by apply expire_tree|by apply expire_wf]. }
  intros _. apply keeps_bind; [apply keeps_modify; by intros bc [[] []]|]. intros _.
  apply keeps_bind; [apply keeps_gets|]. intros count. apply keeps_bind; [apply keeps_gets|]. intros oldest.
  apply keeps_bind.
  { destruct (_ <? _); [|apply keeps_ret]. apply keeps_bind; [apply keeps_must|]. intros o. apply keeps_modify.
    intros bc [Ht Ho]. apply (RemoveOrphanBlock_wf o) in Ho. apply (RemoveOrphanBlock_tree ∅ o) in Ht. by destruct Ht, Ho. }
  intros _. apply keeps_modify. intros bc [[] [Hh Hp Hs]]. split; [done|]. split; cbn.
  - intros h o [[<- <-]|[_ Ho]]%lookup_insert_Some; [done|eauto].
  - intros h l o [[<- <-]|[_ Hl]]%lookup_insert_Some Ho; [|eauto].
    apply elem_of_app in Ho as [Ho| ->%list_elem_of_singleton]; [|done].
    destruct (PrevOrphans bc !! _) eqn:E; [by eapply Hp|by apply elem_of_nil in Ho].
  - intros h l [[<- <-]|[_ Hl]]%lookup_insert_Some; [|eauto]. by destruct (default [] _).
Qed.

Lemma maybeAcceptBlock_wf b : keeps wf_chain (maybeAcceptBlock cfg b).
Proof.
  intros bc bc' r [Ht Ho] E. split; [by eapply maybeAcceptBlock_keeps|].
  eapply untouched_wf; [|exact Ho]. by eapply maybeAcceptBlock_untouched.
Qed.
Lemma process_orphans_wf fuel q : keeps wf_chain (process_orphans cfg fuel q).
Proof.
  revert q. induction fuel as [|fuel IH]; intros q; cbn [process_orphans]; [apply keeps_run|].
  destruct q as [|h q]; [apply keeps_ret|]. apply keeps_bind; [apply keeps_gets|]. intros [|o l]; [apply IH|].
  apply keeps_bind; [|intros _; apply keeps_bind; [apply maybeAcceptBlock_wf|intros _; apply IH]].
  apply keeps_modify. intros bc [Ht Ho]. split; [by apply RemoveOrphanBlock_tree|by apply RemoveOrphanBlock_wf].
Qed.
Lemma BlockExists_keeps I h : keeps I (BlockExists h).
Proof. unfold BlockExists, LookupNodeInIndex. untouched. Qed.
Lemma ProcessBlock_wf `{ICrypto} ripemd160 now b : keeps wf_chain (ProcessBlock cfg ripemd160 now b).
Proof.
  unfold ProcessBlock. apply keeps_bind; [apply BlockExists_keeps|]. intros [|]; [apply keeps_throw|].
  apply keeps_bind; [apply keeps_gets|]. intros [o|]; [apply keeps_throw|].
  do 2 (apply keeps_bind; [apply keeps_gets|]; intros ?). apply keeps_bind; [apply keeps_run|]. intros e.
  apply keeps_bind; [apply keeps_fail_on|]. intros _. apply keeps_bind.
  { destruct (_ =? 0); [apply keeps_ret|apply BlockExists_keeps]. }
  intros known. destruct (negb known).
  - apply keeps_bind; [apply AddOrphanBlock_keeps|]. intros _. apply keeps_ret.
  - apply keeps_bind; [apply maybeAcceptBlock_wf|]. intros main.
    apply keeps_bind; [|intros _; apply keeps_ret]. apply keeps_bind; [apply keeps_gets|]. intros n. apply process_orphans_wf.
Qed.
Lemma NewBlockchain_wf height cs : wf_chain (NewBlockchain height cs).
Proof.
  split; split; cbn; try done. exists (fun _ => 0%nat). intros p n. by rewrite lookup_empty.
Qed.
End Trees.

(** What can happen to a chain: a header is loaded at start-up and becomes the
    end of the best chain, or a block is processed (with whatever result). *)
Inductive bc_step {DB} `{IStore DB} `{ICrypto} (cfg : Config) (ripemd160 : bytes -> bytes) :
    Blockchain DB -> Blockchain DB -> Prop :=
  | step_load header hash bc bc' p : LoadBlockNode header hash bc = Ok (bc', inl p) ->
      bc_step cfg ripemd160 bc (set_BestChain (Some p) bc')
  | step_process now b bc bc' r : ProcessBlock cfg ripemd160 now b bc = Ok (bc', r) -> bc_step cfg ripemd160 bc bc'.

Lemma bc_step_wf {DB} `{IStore DB} `{ICrypto} cfg ripemd160 (bc bc' : Blockchain DB) :
  rtc (bc_step cfg ripemd160) bc bc' -> wf_chain bc -> wf_chain bc'.
Proof.
  induction 1 as [|bc bc1 bc' Hs _ IH]; [done|]. intros Hw. apply IH. destruct Hs as [header hash bc bc1 p E|now b bc bc1 r E].
  - destruct Hw as [Ht Ho]. pose proof (LoadBlockNode_keeps _ _ _ _ _ _ Ht E) as Hl. cbn in Hl.
    assert (Hp : is_Some (nodes bc1 !! p)) by (apply (wt_extra _ _ Hl); set_solver).
    apply wf_tree_drop in Hl as []. split; [split; cbn; eauto; by intros q [= <-]|].
    eapply (untouched_wf bc bc1) in Ho; [by destruct Ho|]. by eapply LoadBlockNode_untouched.
  - by eapply ProcessBlock_wf.
Qed.
