(* ===== verification/BestChain.v ===== *)
(** Chain selection in [core/ledger/blockchain.go]: what the best chain is,
    that pruning, connecting and reorganising keep it, and that it is the chain
    with the most work. *)

From S2P Require Import Prelude Sha256 Serialization Common Fixed64 Transaction Merkle AuxPow Block.
From S2P Require Import Store Utxo Difficulty MedianTime Vm Contract Validator Blockchain BlockTree.

(** * Paths under updates *)

Definition same_parents (h h' : heap) : Prop := forall p n, h !! p = Some n ->
  exists n', h' !! p = Some n' /\ n_Parent n' = n_Parent n.
Lemma path_links h h' p l : same_parents h h' -> path h p l -> path h' p l.
Proof.
  intros L P. induction P as [|q n l Hn P IH]; [constructor|].
  destruct (L q n Hn) as (n' & Hn' & Ep). econstructor; [exact Hn'|]. by rewrite Ep.
Qed.
Lemma same_parents_insert h p n m : h !! p = Some n -> n_Parent m = n_Parent n -> same_parents h (<[p := m]> h).
Proof.
  intros Hn Hp q x Hx. destruct (decide (p = q)) as [->|]; [|rewrite lookup_insert_ne by done; eauto].
  rewrite lookup_insert_eq. simplify_eq. eauto.
Qed.
Lemma path_app h p l1 x l2 : path h p (l1 ++ x :: l2) -> path h (Some x) (x :: l2).
Proof. revert p. induction l1 as [|y l1 IH]; intros p P; inversion P; subst; cbn in *; [done|eauto]. Qed.
Lemma path_next h p l1 x y l2 : path h p (l1 ++ x :: y :: l2) -> exists n, h !! x = Some n /\ n_Parent n = Some y.
Proof.
  intros P%path_app. inversion P as [|q n l Hn P' E1 E2]; subst. exists n. split; [done|]. by inversion P'.
Qed.
Lemma path_last h p l x : path h p (l ++ [x]) -> exists n, h !! x = Some n /\ n_Parent n = None.
Proof.
  intros P%path_app. inversion P as [|q n l' Hn P' E1 E2]; subst. exists n. split; [done|]. by inversion P'.
Qed.
Lemma path_head h p x l : path h p (x :: l) -> p = Some x.
Proof. by inversion 1. Qed.
(** A new node on no path. *)
Lemma path_fresh h p l x n : path h p l -> h !! x = None -> path (<[x := n]> h) p l.
Proof.
  intros P Hx. induction P as [|q m l Hm P IH]; [constructor|]. econstructor; [|exact IH].
  rewrite lookup_insert_ne; [done|]. intros ->. congruence.
Qed.
(** Cutting the end off a path. *)
Lemma path_cut h h' p l x : path h p (l ++ [x]) ->
  (forall y n, y ∈ l -> h !! y = Some n ->
     exists n', h' !! y = Some n' /\ n_Parent n' = if decide (n_Parent n = Some x) then None else n_Parent n) ->
  x ∉ l -> l <> [] -> path h' p l.
Proof.
  intros P C Hx. revert p P. induction l as [|y l IH]; intros p P Hne; [done|]. cbn in P.
  inversion P as [|q n l' Hn P' E1 E2]; subst. destruct (C y n) as (n' & Hn' & Ep); [left|done|].
  econstructor; [exact Hn'|]. rewrite Ep. destruct l as [|z l].
  - cbn in P'. rewrite decide_True by (by apply path_head in P'). constructor.
  - cbn in P'. rewrite decide_False.
    + apply IH; [intros; apply C; [by right|done]|set_solver|done|done].
    + apply path_head in P' as ->. intros [= ->]. apply Hx. right. left.
Qed.

(** * The best chain *)

Section Best.
Context {DB : Type} `{IStore DB} (cfg : Config).
Implicit Types bc : Blockchain DB.

Definition indexed bc (p : positive) : Prop := exists n, nodes bc !! p = Some n /\ Index bc !! n_Hash n = Some p.
Definition best_chain bc : list positive := chain (nodes bc) (BestChain bc).

(** The best chain is in the index and marked, and no other indexed node is
    marked; parents and children agree. *)
Record main_ok bc : Prop := {
  mo_tree : wf_tree ∅ bc;
  mo_best : is_Some (BestChain bc);
  mo_hash : forall p n, nodes bc !! p = Some n -> wf_u256 (n_Hash n);
  mo_chain : forall p, p ∈ best_chain bc -> indexed bc p /\ forall n, nodes bc !! p = Some n -> n_InMainChain n = true;
  mo_main : forall p n, indexed bc p -> nodes bc !! p = Some n -> n_InMainChain n = true -> p ∈ best_chain bc;
  mo_link : forall p n q m, indexed bc p -> nodes bc !! p = Some n -> n_Parent n = Some q -> nodes bc !! q = Some m ->
    p ∈ n_Children m;
  mo_kids : forall p n c m, nodes bc !! p = Some n -> c ∈ n_Children n -> nodes bc !! c = Some m -> n_Parent m = Some p }.

(** No indexed node has more work than the end of the best chain. *)
Definition most_work bc : Prop :=
  forall p n bp bn, indexed bc p -> nodes bc !! p = Some n -> BestChain bc = Some bp -> nodes bc !! bp = Some bn ->
    n_WorkSum n <= n_WorkSum bn.

Lemma best_path bc : wf_tree ∅ bc -> path (nodes bc) (BestChain bc) (best_chain bc).
Proof. intros Hw. apply chain_path; [by destruct Hw|]. intros q Hq. by apply (wt_best _ _ Hw). Qed.
Lemma best_chain_eq bc l : wf_tree ∅ bc -> path (nodes bc) (BestChain bc) l -> best_chain bc = l.
Proof. intros Hw P. apply path_chain; [by destruct Hw|done]. Qed.
Lemma best_chain_cons bc bp : main_ok bc -> BestChain bc = Some bp -> exists l, best_chain bc = bp :: l.
Proof.
  intros Hm Hb. pose proof (best_path bc (mo_tree bc Hm)) as P. rewrite Hb in P. inversion P; subst. eauto.
Qed.
Lemma best_hash_inj bc p q n m : indexed bc p -> indexed bc q -> nodes bc !! p = Some n -> nodes bc !! q = Some m ->
  n_Hash n = n_Hash m -> p = q.
Proof. intros (n' & Hn' & Hi) (m' & Hm' & Hj) Hn Hm E. simplify_eq. congruence. Qed.
Lemma CompareTo_hash bc p q n m : main_ok bc -> nodes bc !! p = Some n -> nodes bc !! q = Some m ->
  CompareTo (n_Hash n) (n_Hash m) = 0 <-> n_Hash n = n_Hash m.
Proof.
  intros Hm Hn Hq. destruct (mo_hash bc Hm p n Hn) as [L1 W1], (mo_hash bc Hm q m Hq) as [L2 W2].
  apply CompareTo_0; [congruence|done..].
Qed.

(** ** Finding the fork *)

Lemma side_branch_fork h pre f rest :
  (forall p n, p ∈ pre -> h !! p = Some n -> n_InMainChain n = false) ->
  (forall n, h !! f = Some n -> n_InMainChain n = true) ->
  (exists p, path h p (pre ++ f :: rest)) ->
  side_branch h (pre ++ f :: rest) = (pre, Some f).
Proof.
  intros Hpre Hf. induction pre as [|x pre IH]; intros [p P]; cbn [app side_branch].
  - inversion P as [|q n l Hn P' E1 E2]; subst. rewrite Hn. rewrite (Hf n Hn). by destruct (n_Parent n).
  - inversion P as [|q n l Hn P' E1 E2]; subst. rewrite Hn, (Hpre x n) by (done || left).
    destruct (n_Parent n) as [q|] eqn:Eq.
    + rewrite IH; [done|intros; eapply Hpre; [by right|done]|]. by exists (Some q).
    + exfalso. inversion P'. by destruct pre.
Qed.
Lemma above_fork_spec h pre f rest nf :
  (forall p n, p ∈ pre -> h !! p = Some n -> CompareTo (n_Hash n) (n_Hash nf) <> 0) ->
  h !! f = Some nf -> (exists p, path h p (pre ++ f :: rest)) ->
  above_fork h (n_Hash nf) (pre ++ f :: rest) = pre.
Proof.
  intros Hpre Hf. induction pre as [|x pre IH]; intros [p P]; cbn [app above_fork].
  - rewrite Hf. destruct (n_Parent nf); [|done]. by rewrite CompareTo_refl, Z.eqb_refl.
  - inversion P as [|q n l Hn P' E1 E2]; subst. rewrite Hn.
    destruct (n_Parent n) as [q|] eqn:Eq; [|exfalso; inversion P'; by destruct pre].
    destruct (Z.eqb_spec (CompareTo (n_Hash n) (n_Hash nf)) 0) as [E|_]; [by destruct (Hpre x n ltac:(left) Hn)|].
    f_equal. apply IH; [intros; eapply Hpre; [by right|done]|]. by exists (Some q).
Qed.

(** The chains of [node] and of the best block split at their first common node. *)
Lemma split_at_first {A} `{EqDecision A} (l : list A) (P : A -> Prop) `{!forall x, Decision (P x)} :
  Exists P l -> exists pre f rest, l = pre ++ f :: rest /\ Forall (fun x => ~ P x) pre /\ P f.
Proof.
  induction l as [|x l IH]; intros E; [by inversion E|]. destruct (decide (P x)) as [Px|Px].
  - by exists [], x, l.
  - inversion E as [? ? Hx|? ? Hl]; subst; [done|]. destruct (IH Hl) as (pre & f & rest & -> & Hpre & Hf).
    exists (x :: pre), f, rest. split_and!; [done|by constructor|done].
Qed.

Lemma GetReorganizeNodes_spec bc node :
  main_ok bc -> Forall (indexed bc) (chain (nodes bc) (Some node)) ->
  Exists (fun p => p ∈ best_chain bc) (chain (nodes bc) (Some node)) ->
  exists ds ats common, GetReorganizeNodes node bc = Ok (bc, inl (ds, ats)) /\
    best_chain bc = ds ++ common /\ chain (nodes bc) (Some node) = reverse ats ++ common /\ common <> [] /\
    Forall (fun p => p ∉ best_chain bc) ats.
Proof.
  intros Hm Hi Hx. pose proof (mo_tree bc Hm) as Hw. pose proof (wt_forest _ _ Hw) as F.
  assert (Hn : is_Some (nodes bc !! node)).
  { unfold chain in Hx. destruct (size (nodes bc)); [by inversion Hx|]. cbn in Hx. destruct (nodes bc !! node); [eauto|by inversion Hx]. }
  assert (Pn : path (nodes bc) (Some node) (chain (nodes bc) (Some node))) by (apply chain_path; [done|by intros q [= <-]]).
  destruct (split_at_first _ _ Hx) as (pre & f & rest & E & Hpre & Hf). rewrite E in *.
  assert (Hlist : f ∈ best_chain bc) by done. apply list_elem_of_split in Hlist as (bpre & brest & Eb).
  pose proof (best_path bc Hw) as Pb. rewrite Eb in Pb.
  assert (brest = rest) as ->.
  { pose proof (path_app _ _ _ _ _ Pb) as P1. pose proof (path_app _ _ _ _ _ Pn) as P2. by injection (path_det _ _ _ _ P1 P2). }
  destruct (mo_chain bc Hm f Hf) as [(nf & Hnf & If) Mf].
  exists bpre, (reverse pre), (f :: rest). split_and!; [|done|by rewrite reverse_involutive|done|].
  - unfold GetReorganizeNodes. rewrite !bind_gets, E. rewrite side_branch_fork; cycle 1.
    + intros p n Hp Hpn. rewrite list.Forall_forall in Hpre. destruct (n_InMainChain n) eqn:En; [|done].
      destruct (Hpre p Hp). eapply mo_main; [done| |exact Hpn|done]. rewrite list.Forall_forall in Hi. apply Hi. set_solver.
    + exact Mf.
    + eauto.
    + rewrite bind_must, bind_node_at, Hnf. fold (best_chain bc). rewrite Eb, (above_fork_spec _ bpre f rest nf); [done| |done|eauto].
      intros p n Hp Hpn Hc. apply (CompareTo_hash bc p f n nf Hm Hpn Hnf) in Hc.
      assert (indexed bc p) by (apply (mo_chain bc Hm); rewrite Eb; set_solver).
      assert (p = f) as -> by (eapply best_hash_inj; [done|apply (mo_chain bc Hm f Hf)|done..]).
      pose proof (path_NoDup _ _ _ F Pb) as ND. apply list.NoDup_app in ND as (_ & ND & _). apply (ND f Hp). left.
  - by apply Forall_reverse.
Qed.

(** ** One block up or down *)

Lemma main_ok_ext bc bc' : main_ok bc -> nodes bc' = nodes bc -> Index bc' = Index bc -> BestChain bc' = BestChain bc ->
  wf_tree ∅ bc' -> main_ok bc' /\ best_chain bc' = best_chain bc.
Proof.
  intros [T B Hh C M L K] En Ei Eb Hw.
  assert (Ec : best_chain bc' = best_chain bc) by (unfold best_chain; by rewrite En, Eb).
  assert (Ex : forall p, indexed bc' p <-> indexed bc p) by (intros p; unfold indexed; by rewrite En, Ei).
  split; [|done]. split; [done|by rewrite Eb|..]; rewrite ?En, ?Ec; try done.
  - intros p Hp. rewrite Ex. auto.
  - intros p n Hp. rewrite Ex in Hp. eauto.
  - intros p n q m Hp. rewrite Ex in Hp. eauto.
Qed.

(** A marked or unmarked node changes no link and no index entry. *)
Lemma indexed_mark bc bc' p n b x : nodes bc !! p = Some n -> nodes bc' = <[p := set_InMainChain b n]> (nodes bc) ->
  Index bc' = Index bc -> indexed bc' x <-> indexed bc x.
Proof.
  intros Hn En Ei. unfold indexed. rewrite En, Ei. destruct (decide (p = x)) as [<-|]; [|by rewrite lookup_insert_ne].
  rewrite lookup_insert_eq. split; intros (m & Em & Hi); simplify_eq; eexists; split; done.
Qed.

(** The common part of connecting and disconnecting [p]: the new best chain [l]
    and the old one differ in [p] only. *)
Lemma main_ok_mark bc bc' p n b l : main_ok bc -> nodes bc !! p = Some n ->
  nodes bc' = <[p := set_InMainChain b n]> (nodes bc) -> Index bc' = Index bc -> wf_tree ∅ bc' ->
  is_Some (BestChain bc') -> best_chain bc' = l ->
  (forall x, x ∈ l -> indexed bc x) ->
  (forall x, x <> p -> x ∈ l <-> x ∈ best_chain bc) -> (p ∈ l <-> b = true) -> main_ok bc'.
Proof.
  intros Hm Hn En Ei Hw Hb El Hidx Hx Hp. pose proof (indexed_mark bc bc' p n b) as Ex.
  destruct Hm as [T B Hh C M L K].
  assert (Old : forall x m, nodes bc' !! x = Some m -> exists m0, nodes bc !! x = Some m0 /\
    n_Hash m = n_Hash m0 /\ n_Parent m = n_Parent m0 /\ n_Children m = n_Children m0 /\
    n_InMainChain m = (if decide (x = p) then b else n_InMainChain m0)).
  { intros x m. rewrite En. destruct (decide (x = p)) as [->|Hne].
    - rewrite lookup_insert_eq. intros [= <-]. by exists n.
    - rewrite lookup_insert_ne by done. by exists m. }
  split; [done|done|..].
  - intros x m Hxm. destruct (Old x m Hxm) as (m0 & Hm0 & -> & _). eauto.
  - rewrite El. intros x Hxl. split; [apply Ex; auto|]. intros m Hxm. destruct (Old x m Hxm) as (m0 & Hm0 & _ & _ & _ & ->).
    case_decide as Ed; [subst; by apply Hp|]. apply Hx in Hxl; [|done]. by apply (C x Hxl).
  - intros x m Hxi Hxm Hmain. rewrite El. apply Ex in Hxi; [|done..].
    destruct (Old x m Hxm) as (m0 & Hm0 & _ & _ & _ & Emain). rewrite Emain in Hmain.
    case_decide as Ed; [subst; by apply Hp|]. apply Hx; [done|]. eauto.
  - intros x m q mq Hxi Hxm Hq Hqm. apply Ex in Hxi; [|done..].
    destruct (Old x m Hxm) as (m0 & Hm0 & _ & Ep & _). destruct (Old q mq Hqm) as (mq0 & Hmq0 & _ & _ & -> & _).
    apply (L x m0 q mq0); [done..|congruence|done].
  - intros x m c mc Hxm Hc Hcm. destruct (Old x m Hxm) as (m0 & Hm0 & _ & _ & Ec & _).
    destruct (Old c mc Hcm) as (mc0 & Hmc0 & _ & -> & _). eapply K; [exact Hm0|rewrite <- Ec; exact Hc|exact Hmc0].
Qed.

Lemma main_ok_connect bc bc' p n : main_ok bc -> indexed bc p -> nodes bc !! p = Some n -> n_Parent n = BestChain bc ->
  p ∉ best_chain bc -> nodes bc' = <[p := set_InMainChain true n]> (nodes bc) -> Index bc' = <[n_Hash n := p]> (Index bc) ->
  BestChain bc' = Some p -> wf_tree ∅ bc' -> main_ok bc' /\ best_chain bc' = p :: best_chain bc.
Proof.
  intros Hm Hi Hn Hp Hnot En Ei Eb Hw.
  assert (Ec : best_chain bc' = p :: best_chain bc).
  { apply best_chain_eq; [done|]. rewrite Eb, En. econstructor; [by rewrite lookup_insert_eq|]. cbn. rewrite Hp.
    eapply path_links; [by eapply same_parents_insert|]. by apply best_path, Hm. }
  split; [|done]. eapply main_ok_mark; [exact Hm|exact Hn|exact En| |done|by rewrite Eb|exact Ec|..].
  - rewrite Ei. destruct Hi as (n' & Hn' & Hi). simplify_eq. by rewrite insert_id.
  - intros x [->|Hx]%elem_of_cons; [done|]. by apply (mo_chain bc Hm).
  - intros x Hne. set_solver.
  - split; [done|]. intros _. left.
Qed.

Lemma main_ok_disconnect bc bc' p n q : main_ok bc -> BestChain bc = Some p -> nodes bc !! p = Some n -> n_Parent n = Some q ->
  nodes bc' = <[p := set_InMainChain false n]> (nodes bc) -> Index bc' = Index bc ->
  BestChain bc' = Some q -> wf_tree ∅ bc' -> main_ok bc' /\ best_chain bc = p :: best_chain bc'.
Proof.
  intros Hm Hb Hn Hp En Ei Eb Hw. pose proof (best_path bc (mo_tree bc Hm)) as P. rewrite Hb in P.
  inversion P as [|p' n' l Hn' P' E1 E2]; subst p'. rewrite Hn in Hn'. injection Hn' as <-. rewrite Hp in P'.
  assert (Ec : best_chain bc' = l).
  { apply best_chain_eq; [done|]. rewrite Eb, En. eapply path_links; [by eapply same_parents_insert|done]. }
  assert (Hnd : p ∉ l).
  { pose proof (path_NoDup _ _ _ (wt_forest _ _ (mo_tree bc Hm)) (best_path bc (mo_tree bc Hm))) as ND.
    rewrite <- E2 in ND. by inversion ND. }
  split; [|by rewrite Ec]. eapply main_ok_mark; [exact Hm|exact Hn|exact En|done|done|by rewrite Eb|exact Ec|..].
  - intros x Hx. apply (mo_chain bc Hm). rewrite <- E2. by right.
  - intros x Hne. rewrite <- E2. set_solver.
  - split; [by intros|done].
Qed.

(** A new node enters the index below [q]. *)
Lemma main_ok_side bc bc' p n q m : main_ok bc -> nodes bc !! p = Some n -> n_Parent n = Some q -> nodes bc !! q = Some m ->
  Index bc !! n_Hash n = None -> n_Children n = [] -> n_InMainChain n = false ->
  (forall x nx, nodes bc !! x = Some nx -> p ∉ n_Children nx) ->
  nodes bc' = <[q := add_child p m]> (nodes bc) -> Index bc' = <[n_Hash n := p]> (Index bc) ->
  BestChain bc' = BestChain bc -> wf_tree ∅ bc' ->
  main_ok bc' /\ best_chain bc' = best_chain bc /\ indexed bc' p /\ (forall x, indexed bc' x -> x = p \/ indexed bc x).
Proof.
  intros Hm Hn Hp Hq Hi Hc Hf Hk En Ei Eb Hw.
  assert (Hpq : q <> p).
  { intros ->. destruct (wt_forest _ _ (mo_tree bc Hm)) as [rank R]. destruct (R p n Hn) as [Rp _]. destruct (Rp p Hp). lia. }
  assert (Old : forall x mx, nodes bc' !! x = Some mx -> exists m0, nodes bc !! x = Some m0 /\
    n_Hash mx = n_Hash m0 /\ n_Parent mx = n_Parent m0 /\ n_InMainChain mx = n_InMainChain m0 /\
    (n_Children mx = n_Children m0 \/ x = q /\ n_Children mx = n_Children m0 ++ [p])).
  { intros x mx. rewrite En. destruct (decide (q = x)) as [<-|].
    - rewrite lookup_insert_eq. intros [= <-]. exists m. split_and!; try done. by right.
    - rewrite lookup_insert_ne by done. exists mx. split_and!; try done. by left. }
  assert (Hnp : nodes bc' !! p = Some n) by (by rewrite En, lookup_insert_ne).
  assert (Ec : best_chain bc' = best_chain bc).
  { apply best_chain_eq; [done|]. rewrite Eb, En. eapply path_links; [by eapply same_parents_insert|by apply best_path, Hm]. }
  assert (Idx : forall x, indexed bc' x <-> x = p \/ indexed bc x).
  { intros x. unfold indexed. rewrite Ei. split.
    - intros (mx & Hx & Hxi). destruct (Old x mx Hx) as (m0 & Hm0 & Eh & _).
      apply lookup_insert_Some in Hxi as [[_ <-]|[_ Hxi]]; [by left|right]. exists m0. split; [done|congruence].
    - intros [->|(m0 & Hm0 & Hxi)]; [exists n; by rewrite lookup_insert_eq|].
      assert (Hx : exists mx, nodes bc' !! x = Some mx /\ n_Hash mx = n_Hash m0).
      { rewrite En. destruct (decide (q = x)) as [<-|]; [rewrite lookup_insert_eq; simplify_eq; eauto|].
        rewrite lookup_insert_ne by done. eauto. }
      destruct Hx as (mx & Hx & Eh). exists mx. split; [done|]. rewrite lookup_insert_ne by congruence. congruence. }
  split_and!; [|done|apply Idx; by left|intros x; apply Idx].
  destruct Hm as [T B Hh C M L K]. split; [done|by rewrite Eb|..].
  - intros x mx Hx. destruct (Old x mx Hx) as (m0 & Hm0 & -> & _). eauto.
  - rewrite Ec. intros x Hx. destruct (C x Hx) as [C1 C2]. split; [apply Idx; by right|].
    intros mx Hmx. destruct (Old x mx Hmx) as (m0 & Hm0 & _ & _ & -> & _). auto.
  - rewrite Ec. intros x mx Hxi Hmx Hmain. destruct (Old x mx Hmx) as (m0 & Hm0 & _ & _ & Em & _).
    apply Idx in Hxi as [->|Hxi]; [simplify_eq; congruence|]. eapply M; [done|exact Hm0|congruence].
  - intros x mx y my Hxi Hmx Hy Hmy. destruct (Old x mx Hmx) as (m0 & Hm0 & _ & Ep & _).
    destruct (Old y my Hmy) as (my0 & Hmy0 & _ & _ & _ & Ek). rewrite Ep in Hy. apply Idx in Hxi as [->|Hxi].
    + simplify_eq. rewrite En, lookup_insert_eq in Hmy. injection Hmy as <-. cbn. set_solver.
    + assert (x ∈ n_Children my0) by (by eapply L). destruct Ek as [->|[_ ->]]; set_solver.
  - intros x mx c mc Hmx Hcx Hmc. destruct (Old x mx Hmx) as (m0 & Hm0 & _ & _ & _ & Ek).
    destruct (Old c mc Hmc) as (mc0 & Hmc0 & _ & -> & _). destruct Ek as [Ek|[-> Ek]]; rewrite Ek in Hcx; [by eapply K|].
    apply elem_of_app in Hcx as [Hcx| ->%list_elem_of_singleton]; [by eapply K|congruence].
Qed.

(** ** Detaching and attaching *)

(** [DisconnectBlock] on the end of the best chain, below which there is a node. *)
Lemma DisconnectBlock_main bc bc' r p n q b : main_ok bc -> BestChain bc = Some p -> nodes bc !! p = Some n ->
  n_Parent n = Some q -> DisconnectBlock p b bc = Ok (bc', r) ->
  r = inl tt /\ main_ok bc' /\ best_chain bc = p :: best_chain bc' /\
  nodes bc' = <[p := set_InMainChain false n]> (nodes bc) /\ Index bc' = Index bc /\ BestChain bc' = Some q.
Proof.
  intros Hm Hb Hn Hp E. pose proof (DisconnectBlock_keeps ∅ p b bc bc' r (mo_tree bc Hm) E) as Hw.
  unfold DisconnectBlock in E. rewrite bind_node_at, Hn, !bind_gets, Hb in E. cbn in E. rewrite Hn in E.
  rewrite CompareTo_refl in E. cbn in E. unfold GetPrevNodeFromNode in E. rewrite bind_assoc, bind_node_at, Hn, Hp, bind_mret in E.
  apply bind_inv in E as [(bc2 & [] & E2 & E)|(e & E2 & ->)]; apply rollback_block_ok in E2 as (cs & best & _ & [=] & ->).
  rewrite bind_update in E.
  assert (En : nodes (let bc := set_bc_Store cs bc in match best with Some v => set_BlockHeight v bc | None => bc end) = nodes bc)
    by (by destruct best).
  rewrite En, Hn, bind_modify, bind_node_at in E. cbn [nodes set_BlockCache set_nodes] in E. rewrite lookup_insert_eq in E.
  unfold set_best in E. rewrite bind_modify, bind_gets, bind_must in E. destruct (CalcPastMedianTime _); [|done].
  injection E as <- <-. split; [done|].
  match type of Hw with wf_tree _ ?s => destruct (main_ok_disconnect bc s p n q Hm Hb Hn Hp) as [Hm' Hc]; try done end;
    by destruct best.
Qed.

(** The links and work of the nodes, and the index, stay; only marks change. *)
Definition same_tree bc bc' : Prop := links (nodes bc) (nodes bc') /\ Index bc' = Index bc.
Lemma links_trans h1 h2 h3 : links h1 h2 -> links h2 h3 -> links h1 h3.
Proof.
  intros L1 L2 p n Hn. destruct (L1 p n Hn) as (n2 & Hn2 & ? & ? & ? & ? & ? & ?).
  destruct (L2 p n2 Hn2) as (n3 & Hn3 & ? & ? & ? & ? & ? & ?). exists n3. split_and!; congruence.
Qed.
Lemma links_parents h h' : links h h' -> same_parents h h'.
Proof. intros L p n Hn. destruct (L p n Hn) as (n' & Hn' & _ & Hp & _). eauto. Qed.
Lemma same_tree_indexed bc bc' p : same_tree bc bc' -> indexed bc p -> indexed bc' p.
Proof.
  intros [L Ei] (n & Hn & Hi). destruct (L p n Hn) as (n' & Hn' & Eh & _). exists n'. split; [done|]. by rewrite Ei, Eh.
Qed.

Lemma detach_main ds common bc bc' r : main_ok bc -> best_chain bc = ds ++ common -> common <> [] ->
  detach ds bc = Ok (bc', r) ->
  main_ok bc' /\ same_tree bc bc' /\ (r = inl tt -> best_chain bc' = common) /\ best_chain bc' ⊆ best_chain bc.
Proof.
  revert bc. induction ds as [|p ds IH]; intros bc Hm Hc Hne E; cbn [detach] in E.
  { injection E as <- <-. split_and!; [done| |done|done]. split; [apply links_refl|done]. }
  rewrite bind_node_at in E. pose proof (best_path bc (mo_tree bc Hm)) as P. rewrite Hc in P.
  assert (exists q l, ds ++ common = q :: l) as (q & l & El) by (destruct ds; [destruct common; [done|]|]; cbn; eauto).
  cbn [app] in P. rewrite El in P. pose proof (path_head _ _ _ _ P) as Hb. destruct (path_next _ _ [] _ _ _ P) as (n & Hn & Hp).
  rewrite Hn, bind_gets, bind_must in E. destruct (GetBlock _ _) as [[b e]|]; [|done].
  assert (Same : main_ok bc /\ same_tree bc bc /\ best_chain bc ⊆ best_chain bc)
    by (split_and!; [done|split; [apply links_refl|done]|done]).
  rewrite bind_fail_on in E. destruct e; [injection E as <- <-; destruct_and! Same; by split_and!|].
  rewrite bind_must in E. destruct b as [b|]; [|done].
  apply bind_inv in E as [(bc1 & [] & E1 & E)|(e & E1 & ->)];
    destruct (DisconnectBlock_main _ _ _ p n q b Hm Hb Hn Hp E1) as (Er & Hm1 & Hc1 & En1 & Ei1 & Eb1); [|done].
  assert (S1 : same_tree bc bc1) by (split; [rewrite En1; by apply links_main|done]).
  destruct (IH bc1) as (Hm' & S' & Hd & Hsub); [done|rewrite Hc in Hc1; by injection Hc1|done|done|].
  split_and!; [done| |done|].
  - destruct S1 as [L1 I1], S' as [L' I']. split; [by eapply links_trans|congruence].
  - intros x Hx. rewrite Hc1. right. by apply Hsub.
Qed.

(** Attaching the nodes [ats] on top of the best chain. *)
Lemma attach_main ats node bc bc' r : main_ok bc -> path (nodes bc) (Some node) (reverse ats ++ best_chain bc) ->
  Forall (indexed bc) ats -> attach cfg ats bc = Ok (bc', r) ->
  main_ok bc' /\ same_tree bc bc' /\ (r = inl tt -> best_chain bc' = reverse ats ++ best_chain bc).
Proof.
  revert bc. induction ats as [|p ats IH]; intros bc Hm P Hi E; cbn [attach] in E.
  { injection E as <- <-. split_and!; [done| |done]. split; [apply links_refl|done]. }
  inversion Hi as [|? ? Hip Hit]; subst. rewrite bind_node_at in E.
  destruct (mo_best bc Hm) as [bp Hb]. destruct (best_chain_cons bc bp Hm Hb) as [l El].
  rewrite reverse_cons, <- app_assoc in P. cbn [app] in P.
  assert (exists n, nodes bc !! p = Some n /\ n_Parent n = Some bp) as (n & Hn & Hp).
  { rewrite El in P. by eapply path_next. }
  assert (Hnot : p ∉ best_chain bc).
  { pose proof (path_NoDup _ _ _ (wt_forest _ _ (mo_tree bc Hm)) P) as ND. apply list.NoDup_app in ND as (_ & _ & ND). by inversion ND. }
  rewrite Hn, bind_gets, bind_must in E. destruct (BlockCache bc !! _) as [b|]; [|done].
  assert (Same : same_tree bc bc) by (split; [apply links_refl|done]).
  assert (Hw1 : forall bc1 r, ConnectBlock cfg p b bc = Ok (bc1, r) -> wf_tree ∅ bc1).
  { intros bc1 r1 Ec. eapply wf_tree_drop, (ConnectBlock_keeps cfg ({[p]} ∪ ∅) p b); [set_solver| |exact Ec].
    apply wf_tree_add; [by apply mo_tree|eauto]. }
  apply bind_inv in E as [(bc1 & [] & E1 & E)|(e & E1 & ->)]; pose proof (Hw1 _ _ E1) as W1;
    apply ConnectBlock_ok in E1 as [(e' & Er & ->)|(n' & cs & best & Er & Hn' & _ & _ & En & Ei & Eb & _)]; try done.
  rewrite Hn in Hn'. injection Hn' as <-.
  destruct (main_ok_connect bc bc1 p n) as [Hm1 Hc1]; try done; [congruence|].
  rewrite bind_modify in E. set (bc2 := set_BlockCache _ bc1) in E.
  assert (S1 : same_tree bc bc1).
  { split; [rewrite En; by apply links_main|]. rewrite Ei. destruct Hip as (n' & Hn' & Hin). simplify_eq. by rewrite insert_id. }
  destruct (main_ok_ext bc1 bc2 Hm1) as [Hm2 Hc2]; [done..|by destruct W1|].
  destruct (IH bc2) as (Hm' & S' & Hd); [done| | |done|].
  - rewrite Hc2, Hc1. eapply path_links; [|exact P]. cbn. apply links_parents. by destruct S1.
  - eapply list.Forall_impl; [exact Hit|]. intros x Hx. apply (same_tree_indexed bc); [|done].
    destruct S1. by split.
  - split_and!; [done| |].
    + destruct S1 as [L1 I1], S' as [L' I']. split; [by eapply links_trans|cbn in I'; congruence].
    + intros Er'. rewrite (Hd Er'), Hc2, Hc1, reverse_cons, <- app_assoc. done.
Qed.

(** The whole reorganisation. *)
Lemma ReorganizeChain_main bc bc' r node ds ats common : main_ok bc ->
  best_chain bc = ds ++ common -> chain (nodes bc) (Some node) = reverse ats ++ common -> common <> [] ->
  is_Some (nodes bc !! node) -> Forall (indexed bc) ats ->
  ReorganizeChain cfg ds ats bc = Ok (bc', r) ->
  main_ok bc' /\ same_tree bc bc' /\ (r = inl tt -> best_chain bc' = chain (nodes bc) (Some node)).
Proof.
  intros Hm Hd Ha Hne Hnode Hi E. unfold ReorganizeChain in E.
  assert (Same : same_tree bc bc) by (split; [apply links_refl|done]).
  apply bind_inv in E as [(bc0 & [] & E0 & E)|(e & E0 & ->)]; apply all_cached_same in E0 as ->; [|done].
  apply bind_inv in E as [(bc1 & [] & E1 & E)|(e & E1 & ->)]; apply (detach_main ds common) in E1 as (Hm1 & S1 & Hd1 & _); try done.
  specialize (Hd1 eq_refl).
  assert (P : path (nodes bc1) (Some node) (reverse ats ++ common)).
  { rewrite <- Ha. eapply path_links; [apply links_parents; by destruct S1|].
    apply chain_path; [apply (wt_forest _ _ (mo_tree bc Hm))|by intros q [= <-]]. }
  apply (attach_main ats node) in E as (Hm' & S' & Ha'); [|done|by rewrite Hd1|].
  - split_and!; [done| |intros Er; by rewrite (Ha' Er), Hd1, Ha].
    destruct S1 as [L1 I1], S' as [L' I']. split; [by eapply links_trans|congruence].
  - eapply list.Forall_impl; [exact Hi|]. intros x. by apply same_tree_indexed.
Qed.

(** ** Selecting the chain *)

(** A new node [p] of a block whose ancestors are in memory, as
    [maybeAcceptBlock] makes it. *)
Record new_tip bc (p : positive) (n : BlockNode) (q : positive) (m : BlockNode) : Prop := {
  nt_node : nodes bc !! p = Some n;
  nt_parent : n_Parent n = Some q;
  nt_prev : nodes bc !! q = Some m;
  nt_work : n_WorkSum m <= n_WorkSum n;
  nt_index : Index bc !! n_Hash n = None;
  nt_leaf : n_Children n = [];
  nt_side : n_InMainChain n = false;
  nt_free : forall x nx, nodes bc !! x = Some nx -> p ∉ n_Children nx;
  nt_memory : Forall (indexed bc) (chain (nodes bc) (Some q));
  nt_fork : Exists (fun x => x ∈ best_chain bc) (chain (nodes bc) (Some q)) }.

Lemma new_tip_neq bc p n q m : main_ok bc -> new_tip bc p n q m -> q <> p.
Proof.
  intros Hm T ->. destruct (wt_forest _ _ (mo_tree bc Hm)) as [rank R]. destruct (R p n (nt_node _ _ _ _ _ T)) as [Rp _].
  destruct (Rp p (nt_parent _ _ _ _ _ T)); lia.
Qed.
Lemma new_tip_prev_indexed bc p n q m : main_ok bc -> new_tip bc p n q m -> indexed bc q.
Proof.
  intros Hm T. pose proof (nt_memory _ _ _ _ _ T) as F.
  rewrite (chain_step _ q m) in F; [by inversion F|apply (wt_forest _ _ (mo_tree bc Hm))|by eapply nt_prev].
Qed.
Lemma new_tip_not_indexed bc p n q m : new_tip bc p n q m -> ~ indexed bc p.
Proof. intros [Hn _ _ _ Hi _ _ _ _ _] (n' & Hn' & Hi'). congruence. Qed.

(** The node put into the index below its parent. *)
Lemma new_tip_side bc bc' p n q m : main_ok bc -> new_tip bc p n q m ->
  nodes bc' = <[q := add_child p m]> (nodes bc) -> Index bc' = <[n_Hash n := p]> (Index bc) ->
  BestChain bc' = BestChain bc -> wf_tree ∅ bc' ->
  main_ok bc' /\ best_chain bc' = best_chain bc /\ indexed bc' p /\ (forall x, indexed bc' x -> x = p \/ indexed bc x) /\
  same_parents (nodes bc) (nodes bc') /\ chain (nodes bc') (Some p) = p :: chain (nodes bc) (Some q).
Proof.
  intros Hm T En Ei Eb Hw. pose proof (new_tip_neq _ _ _ _ _ Hm T) as Hne. destruct T as [Hn Hp Hq _ Hi Hl Hs Hf _ _].
  destruct (main_ok_side bc bc' p n q m) as (Hm' & Hc & Hi' & Hx); try done.
  assert (SP : same_parents (nodes bc) (nodes bc')) by (rewrite En; by eapply same_parents_insert).
  split_and!; try done. rewrite (chain_step _ p n); [|by destruct Hw|by rewrite En, lookup_insert_ne].
  f_equal. rewrite Hp. apply path_chain; [by destruct Hw|]. eapply path_links; [exact SP|].
  apply chain_path; [apply (wt_forest _ _ (mo_tree bc Hm))|intros x [= <-]; eauto].
Qed.

Definition same_work (h h' : heap) : Prop := forall x n, h !! x = Some n ->
  exists n', h' !! x = Some n' /\ n_WorkSum n' = n_WorkSum n /\ n_Hash n' = n_Hash n.
Lemma same_work_insert h p n m : h !! p = Some n -> n_WorkSum m = n_WorkSum n -> n_Hash m = n_Hash n ->
  same_work h (<[p := m]> h).
Proof.
  intros Hn Hw Hh q x Hx. destruct (decide (p = q)) as [->|]; [|rewrite lookup_insert_ne by done; eauto].
  rewrite lookup_insert_eq. simplify_eq. eauto.
Qed.
Lemma same_work_trans h1 h2 h3 : same_work h1 h2 -> same_work h2 h3 -> same_work h1 h3.
Proof.
  intros L1 L2 p n Hn. destruct (L1 p n Hn) as (n2 & Hn2 & E2 & H2). destruct (L2 p n2 Hn2) as (n3 & Hn3 & E3 & H3').
  exists n3. split_and!; congruence.
Qed.
Lemma links_same_work h h' : links h h' -> same_work h h'.
Proof. intros L p n Hn. destruct (L p n Hn) as (n' & Hn' & Hh & _ & _ & Hw & _). eauto. Qed.
(** The most work after [p] came in: the new best has the work of [p] and of
    the old best at least. *)
Lemma most_work_step bc bc' p n bp bn bp' bn' : most_work bc -> same_work (nodes bc) (nodes bc') ->
  (forall x, indexed bc' x -> x = p \/ indexed bc x) -> nodes bc !! p = Some n ->
  BestChain bc = Some bp -> nodes bc !! bp = Some bn -> BestChain bc' = Some bp' -> nodes bc !! bp' = Some bn' ->
  n_WorkSum bn <= n_WorkSum bn' -> n_WorkSum n <= n_WorkSum bn' -> most_work bc'.
Proof.
  intros Hmw Sw Hx Hn Hb Hbn Hb' Hbn' W1 W2 x nx y ny Hxi Hnx Hy Hny.
  assert (y = bp') as -> by congruence. destruct (Sw _ _ Hbn') as (ny' & Hny' & Ey & _). simplify_eq. rewrite Ey.
  destruct (Hx x Hxi) as [->|Hxo].
  - destruct (Sw _ _ Hn) as (nx' & Hnx' & Ex & _). simplify_eq. lia.
  - pose proof Hxo as (n0 & Hn0 & _). destruct (Sw _ _ Hn0) as (nx' & Hnx' & Ex & _). simplify_eq.
    pose proof (Hmw x n0 bp bn Hxo Hn0 Hb Hbn). lia.
Qed.

Lemma ConnectBestChain_extend bc bc' p n q m b bp bn bc2 :
  main_ok bc -> new_tip bc p n q m -> BestChain bc = Some bp -> nodes bc !! bp = Some bn ->
  CompareTo (n_Hash m) (n_Hash bn) = 0 -> ConnectBlock cfg p b bc = Ok (bc2, inl tt) ->
  (update_node q (add_child p)) bc2 = Ok (bc', inl tt) -> wf_tree ∅ bc' ->
  main_ok bc' /\ q = bp /\ best_chain bc' = p :: chain (nodes bc) (Some q) /\ BestChain bc' = Some p /\
  (forall x, indexed bc' x -> x = p \/ indexed bc x) /\ same_work (nodes bc) (nodes bc').
Proof.
  intros Hm T Hb Hbn Hcmp E1 E2 Hw. pose proof (new_tip_neq _ _ _ _ _ Hm T) as Hne. pose proof T as [Hn Hp Hq _ Hi Hl Hs Hf _ _].
  assert (q = bp) as <-.
  { apply (CompareTo_hash bc q bp m bn Hm Hq Hbn) in Hcmp. eapply best_hash_inj; [by eapply new_tip_prev_indexed| |done..].
    apply (mo_chain bc Hm). destruct (best_chain_cons bc bp Hm Hb) as [l ->]. left. }
  apply ConnectBlock_ok in E1 as [(e & [=] & _)|(n' & cs & best & _ & Hn' & _ & _ & En & Ei & Eb & _)].
  rewrite Hn in Hn'. injection Hn' as <-.
  unfold update_node in E2. rewrite bind_node_at in E2. rewrite En, lookup_insert_ne, Hq in E2 by done. injection E2 as <-.
  pose (bcA := set_nodes (<[q := add_child p m]> (nodes bc)) (set_Index (<[n_Hash n := p]> (Index bc)) bc)).
  assert (WA : wf_tree ∅ bcA).
  { assert (Wi : wf_tree ∅ (set_Index (<[n_Hash n := p]> (Index bc)) bc)).
    { eapply (keeps_index ∅ p bc); [by apply mo_tree|]. unfold AddNodeToIndex. rewrite bind_node_at. by rewrite Hn. }
    exact (wf_tree_new_child ∅ n _ q m p Wi Hn Hp Hq). }
  destruct (new_tip_side bc bcA p n q m Hm T) as (HmA & HcA & HiA & HxA & SP & Hch); [done..|].
  assert (HnA : nodes bcA !! p = Some n) by (cbn; by rewrite lookup_insert_ne).
  assert (Hnot : p ∉ best_chain bcA).
  { rewrite HcA. intros Hin. apply (mo_chain bc Hm) in Hin as [Hin _]. by eapply new_tip_not_indexed. }
  match type of Hw with wf_tree _ ?s => destruct (main_ok_connect bcA s p n HmA HiA HnA) as [Hm' Hc'] end;
    [cbn; congruence|done|cbn; by rewrite En, insert_insert_ne|cbn; by rewrite Ei, insert_insert_eq|done|done|].
  split_and!; try done.
  - rewrite Hc', HcA. unfold best_chain. by rewrite Hb.
  - intros x Hx. apply (indexed_mark bcA _ p n true x HnA) in Hx; [by apply HxA|cbn; by rewrite En, insert_insert_ne|cbn; by rewrite Ei].
  - cbn. rewrite En. eapply (same_work_trans _ (<[p := set_InMainChain true n]> (nodes bc))); [by eapply same_work_insert|].
    eapply same_work_insert; [by rewrite lookup_insert_ne|done|done].
Qed.

Lemma set_InMainChain_id n : n_InMainChain n = false -> set_InMainChain false n = n.
Proof. destruct n; cbn. by intros ->. Qed.

(** The state in which a block that does not extend the best chain waits. *)
Lemma ConnectBestChain_side bc p n q m b : main_ok bc -> new_tip bc p n q m ->
  let s := set_nodes (<[q := add_child p m]> (<[p := set_InMainChain false n]> (nodes bc)))
     (set_nodes (<[p := set_InMainChain false n]> (nodes bc))
       (set_Index (<[n_Hash n := p]> (Index bc)) (set_BlockCache (<[n_Hash n := b]> (BlockCache bc)) bc))) in
  main_ok s /\ best_chain s = best_chain bc /\ indexed s p /\ (forall x, indexed s x -> x = p \/ indexed bc x) /\
  same_work (nodes bc) (nodes s) /\ chain (nodes s) (Some p) = p :: chain (nodes bc) (Some q) /\
  (forall x, indexed bc x -> indexed s x).
Proof.
  intros Hm T s. pose proof (new_tip_neq _ _ _ _ _ Hm T) as Hne. pose proof T as [Hn Hp Hq _ Hi Hl Hs Hf _ _].
  assert (En : nodes s = <[q := add_child p m]> (nodes bc)).
  { cbn. rewrite set_InMainChain_id by done. by rewrite (insert_id (nodes bc)). }
  assert (Ws : wf_tree ∅ s).
  { pose (bi := set_Index (<[n_Hash n := p]> (Index bc)) (set_BlockCache (<[n_Hash n := b]> (BlockCache bc)) bc)).
    assert (Wi : wf_tree ∅ bi).
    { eapply (keeps_index ∅ p (set_BlockCache (<[n_Hash n := b]> (BlockCache bc)) bc)); [by destruct (mo_tree bc Hm); split|].
      unfold AddNodeToIndex. rewrite bind_node_at. cbn. by rewrite Hn. }
    pose proof (wf_tree_soft ∅ bi p n _ (soft_set_InMainChain false) Wi Hn) as Wm.
    refine (wf_tree_new_child ∅ (set_InMainChain false n) _ q m p Wm _ Hp _); cbn;
      [by rewrite lookup_insert_eq|by rewrite lookup_insert_ne]. }
  destruct (new_tip_side bc s p n q m Hm T En eq_refl eq_refl Ws) as (HmS & HcS & HiS & HxS & SP & Hch).
  split_and!; try done; [rewrite En; by eapply same_work_insert|].
  intros x (nx & Hnx & Hix). assert (Hh : n_Hash nx <> n_Hash n) by congruence.
  assert (exists n', nodes s !! x = Some n' /\ n_Hash n' = n_Hash nx) as (n' & Hn' & Eh).
  { rewrite En. destruct (decide (q = x)) as [<-|]; [rewrite lookup_insert_eq; simplify_eq; eauto|].
    rewrite lookup_insert_ne by done. eauto. }
  exists n'. split; [done|]. cbn. rewrite Eh. by rewrite lookup_insert_ne.
Qed.

Lemma ConnectBestChain_main bc bc' r p n q m b :
  main_ok bc -> new_tip bc p n q m -> ConnectBestChain cfg p b bc = Ok (bc', r) ->
  main_ok bc' /\
  match r with
  | inl true => best_chain bc' = p :: chain (nodes bc) (Some q)
  | inl false => best_chain bc' = best_chain bc /\
      forall bp bn, BestChain bc = Some bp -> nodes bc !! bp = Some bn -> n_WorkSum n <= n_WorkSum bn
  | inr _ => True
  end /\ (most_work bc -> match r with inl _ => most_work bc' /\ same_work (nodes bc) (nodes bc') | inr _ => True end).
Proof.
  intros Hm T E. pose proof (new_tip_neq _ _ _ _ _ Hm T) as Hne. pose proof T as [Hn Hp Hq Hwork Hi Hl Hs Hf Hmem Hfork].
  assert (Hw' : wf_tree ∅ bc').
  { eapply wf_tree_drop, (ConnectBestChain_keeps cfg ({[p]} ∪ ∅) p b); [set_solver| |exact E].
    apply wf_tree_add; [by apply mo_tree|eauto]. }
  destruct (mo_best bc Hm) as [bp Hb].
  destruct (wt_best _ _ (mo_tree bc Hm) bp Hb) as [bn Hbn].
  unfold ConnectBestChain in E. rewrite bind_node_at, Hn, !bind_gets in E. fold (extends_best bc n) in E.
  apply bind_inv in E as [(bc1 & ext & E1 & E)|(e & E1 & ->)]; apply extends_best_ok in E1 as (-> & b' & [=] & Hext).
  subst b'. destruct (Hext bp bn Hb Hbn) as (q' & m' & Hq' & Hm' & ->). rewrite Hp in Hq'. injection Hq' as <-.
  rewrite Hq in Hm'. injection Hm' as <-. clear Hext.
  destruct (Z.eqb_spec (CompareTo (n_Hash m) (n_Hash bn)) 0) as [Hcmp|Hcmp].
  - apply bind_inv in E as [(bc2 & [] & E2 & E)|(e & E2 & ->)].
    2: { apply ConnectBlock_ok in E2 as [(e' & _ & ->)|(? & ? & ? & [=] & _)]. by split_and!. }
    rewrite Hp in E. apply bind_inv in E as [(bc3 & [] & E3 & E)|(e & E3 & ->)].
    2: { unfold update_node in E3. rewrite bind_node_at in E3. by destruct (nodes bc2 !! q). }
    injection E as <- <-.
    destruct (ConnectBestChain_extend bc bc3 p n q m b bp bn bc2) as (Hm3 & -> & Hc3 & Hb3 & Hx3 & Sw3); try done.
    split_and!; [done..|]. intros Hmw. simplify_eq. split; [by eapply most_work_step|done].
  - rewrite bind_modify, bind_index in E. cbn [nodes set_BlockCache] in E. rewrite Hn in E.
    rewrite bind_update in E. cbn [nodes set_Index set_BlockCache] in E. rewrite Hn, bind_must, Hp in E.
    rewrite bind_update in E. cbn [nodes set_nodes] in E. rewrite lookup_insert_ne, Hq in E by done.
    rewrite bind_must, Hb in E. cbn [mbind option_bind] in E. rewrite Hbn in E.
    destruct (ConnectBestChain_side bc p n q m b Hm T) as (HmS & HcS & HiS & HxS & SwS & Hch & HoS).
    cbn [Index set_BlockCache] in E.
    match type of HmS with main_ok ?st => set (s := st) in * end.
    destruct (Z.leb_spec (n_WorkSum n) (n_WorkSum bn)) as [Hle|Hgt].
    + injection E as <- <-. split_and!; [done..| |].
      * intros bp' bn' Hb' Hbn'. simplify_eq. lia.
      * intros Hmw. split; [by eapply (most_work_step bc s p n bp bn bp bn)|done].
    + destruct (GetReorganizeNodes_spec s p HmS) as (ds & ats & common & Eg & Hds & Hats & Hcne & Hside).
      * rewrite Hch. constructor; [done|]. eapply list.Forall_impl; [exact Hmem|exact HoS].
      * rewrite Hch, HcS. by apply Exists_cons_tl.
      * apply bind_inv in E as [(bc3 & [ds' ats'] & E3 & E)|(e & E3 & ->)]; rewrite Eg in E3; [|done].
        injection E3 as <- <- <-.
        assert (Hidx : Forall (indexed s) ats).
        { apply list.Forall_forall. intros x Hx. assert (Hin : x ∈ chain (nodes s) (Some p)) by (rewrite Hats, elem_of_app, elem_of_reverse; by left).
          rewrite Hch in Hin. apply elem_of_cons in Hin as [->|Hin]; [done|]. apply HoS.
          rewrite list.Forall_forall in Hmem. by apply Hmem. }
        assert (Hnode : is_Some (nodes s !! p)) by (destruct HiS as (? & ? & _); eauto).
        apply bind_inv in E as [(bc4 & [] & E4 & E)|(e & E4 & ->)];
          destruct (ReorganizeChain_main _ _ _ _ _ _ _ HmS Hds Hats Hcne Hnode Hidx E4) as (Hm4 & [L4 I4] & Hc4); [|by split_and!].
        injection E as <- <-. specialize (Hc4 eq_refl). rewrite Hch in Hc4. split_and!; [done..|]. intros Hmw.
        assert (Hb4 : BestChain bc4 = Some p).
        { pose proof (best_path bc4 (mo_tree bc4 Hm4)) as P4. rewrite Hc4 in P4. by apply path_head in P4. }
        assert (Sw4 : same_work (nodes bc) (nodes bc4)) by (eapply same_work_trans; [exact SwS|by apply links_same_work]).
        split; [|done]. eapply (most_work_step bc bc4 p n bp bn p n); try done; [intros x Hx|lia].
        apply HxS. destruct Hx as (nx & Hnx & Hix). rewrite I4 in Hix.
        destruct (wt_index _ _ (mo_tree s HmS) _ _ Hix) as (n0 & Hn0 & Eh). exists n0. by rewrite Eh.
Qed.

(** ** Pruning *)

Lemma unlink_all cs bc : Forall (fun c => is_Some (nodes bc !! c)) cs ->
  exists h, foldr (fun c rest => update_node c (set_Parent None) ≫= fun _ => rest) (mret tt) cs bc
    = Ok (set_nodes h bc, inl tt) /\
    forall x, h !! x = (if decide (x ∈ cs) then set_Parent None else id) <$> nodes bc !! x.
Proof.
  revert bc. induction cs as [|c cs IH]; intros bc Hc; cbn [foldr].
  { exists (nodes bc). split; [by destruct bc|]. intros x. rewrite decide_False by (by intros ?%elem_of_nil).
    by destruct (nodes bc !! x). }
  inversion Hc as [|? ? [n Hn] Hcs]; subst. rewrite bind_update, Hn.
  destruct (IH (set_nodes (<[c := set_Parent None n]> (nodes bc)) bc)) as (h & E & Hh).
  { eapply list.Forall_impl; [exact Hcs|]. intros x Hx. cbn. destruct (decide (c = x)) as [->|];
      [rewrite lookup_insert_eq; eauto|by rewrite lookup_insert_ne]. }
  exists h. split; [exact E|]. intros x. rewrite Hh. cbn. destruct (decide (c = x)) as [->|Hne].
  - rewrite lookup_insert_eq, Hn. rewrite (decide_True (P := x ∈ x :: cs)) by left. cbn. by case_decide.
  - rewrite lookup_insert_ne by done. destruct (decide (x ∈ cs)).
    + by rewrite decide_True by (by right).
    + rewrite decide_False; [done|]. intros [->|]%elem_of_cons; done.
Qed.

(** What [RemoveBlockNode] does to a node without a parent. *)
Lemma RemoveBlockNode_effect bc p n : wf_tree ∅ bc -> nodes bc !! p = Some n -> n_Parent n = None ->
  exists bc', RemoveBlockNode p bc = Ok (bc', inl tt) /\ Index bc' = delete (n_Hash n) (Index bc) /\
    BestChain bc' = BestChain bc /\
    forall x, nodes bc' !! x = (if decide (x = p) then set_Children [] else if decide (x ∈ n_Children n) then set_Parent None else id)
                <$> nodes bc !! x.
Proof.
  intros Hw Hn Hp. destruct (wt_forest _ _ Hw) as [rank R]. destruct (R p n Hn) as [_ Rc].
  assert (Hkids : Forall (fun c => is_Some (nodes bc !! c)) (n_Children n)).
  { apply list.Forall_forall. intros c Hcc. by destruct (Rc c Hcc). }
  assert (Hpn : p ∉ n_Children n) by (intros Hcc; destruct (Rc p Hcc); lia).
  unfold RemoveBlockNode. rewrite bind_node_at, Hn, Hp. unfold RemoveNodeFromIndex. rewrite bind_assoc, bind_node_at, Hn, bind_modify.
    destruct (unlink_all (n_Children n) (set_Index (delete (n_Hash n) (Index bc)) bc) Hkids) as (h & Eu & Hh).
    unfold mbind at 1, bcM_bind at 1. rewrite Eu, bind_update. cbn [nodes set_nodes].
    assert (Hhp : h !! p = Some n) by (rewrite Hh; cbn; rewrite Hn, decide_False by done; done).
    rewrite Hhp. eexists. split; [reflexivity|]. cbv beta zeta.
    assert (N : forall x, <[p := set_Children [] n]> h !! x =
      (if decide (x = p) then set_Children [] else if decide (x ∈ n_Children n) then set_Parent None else id) <$> nodes bc !! x).
    { intros x. destruct (decide (x = p)) as [->|Hne]; [by rewrite lookup_insert_eq, Hn|].
      rewrite lookup_insert_ne by done. apply Hh. }
    by destruct (DepNodes _ !! _).
Qed.

(** The nodes whose parent was removed lose it; hashes and work stay. *)
Definition cut_below (old : list positive) (h h' : heap) : Prop := forall x n, h !! x = Some n ->
  exists n', h' !! x = Some n' /\ n_WorkSum n' = n_WorkSum n /\ n_Hash n' = n_Hash n /\
    (n_Parent n' = n_Parent n \/ exists y, y ∈ old /\ n_Parent n = Some y).

(** Removing the oldest node of the best chain. *)
Lemma RemoveBlockNode_main bc p l : main_ok bc -> best_chain bc = l ++ [p] -> l <> [] ->
  exists bc', RemoveBlockNode p bc = Ok (bc', inl tt) /\ main_ok bc' /\ best_chain bc' = l /\
    BestChain bc' = BestChain bc /\ cut_below [p] (nodes bc) (nodes bc') /\ Index bc' ⊆ Index bc /\
    (forall x, indexed bc' x <-> indexed bc x /\ x <> p).
Proof.
  intros Hm Hc Hl. pose proof (mo_tree bc Hm) as Hw. pose proof (wt_forest _ _ Hw) as F.
  pose proof (best_path bc Hw) as P. rewrite Hc in P. destruct (path_last _ _ _ _ P) as (n & Hn & Hp).
  destruct (mo_chain bc Hm p) as [(n0 & Hn0 & Hip) _]; [rewrite Hc; set_solver|]. rewrite Hn in Hn0. injection Hn0 as <-.
  assert (Hpl : p ∉ l).
  { pose proof (path_NoDup _ _ _ F P) as ND. apply list.NoDup_app in ND as (_ & ND & _). intros Hin. apply (ND p Hin). left. }
  destruct (RemoveBlockNode_effect bc p n Hw Hn Hp) as (bc' & E & Ei & Eb & En). exists bc'. split; [exact E|].
  assert (Hw' : wf_tree ∅ bc') by (by eapply RemoveBlockNode_keeps).
  assert (Old : forall x mx, nodes bc' !! x = Some mx -> exists m0, nodes bc !! x = Some m0 /\ n_Hash mx = n_Hash m0 /\
    n_InMainChain mx = n_InMainChain m0 /\ n_WorkSum mx = n_WorkSum m0 /\
    n_Parent mx = (if decide (x <> p /\ x ∈ n_Children n) then None else n_Parent m0) /\
    n_Children mx = (if decide (x = p) then [] else n_Children m0)).
  { intros x mx Hx. rewrite En in Hx. destruct (nodes bc !! x) as [m0|] eqn:Em; [|done]. exists m0. split; [done|].
    injection Hx as <-. destruct (decide (x = p)); [by rewrite decide_False by naive_solver|].
    destruct (decide (x ∈ n_Children n)); [by rewrite decide_True by done|by rewrite decide_False by naive_solver]. }
  assert (New : forall x m0, nodes bc !! x = Some m0 -> exists mx, nodes bc' !! x = Some mx).
  { intros x m0 Hx. rewrite En, Hx. eauto. }
  assert (Ec : best_chain bc' = l).
  { apply best_chain_eq; [done|]. rewrite Eb. eapply path_cut; [exact P| |done|done]. intros y ny Hy Hny.
    destruct (New y ny Hny) as [my Hmy]. exists my. split; [done|].
    destruct (Old y my Hmy) as (m0 & Hm0 & _ & _ & _ & -> & _). rewrite Hny in Hm0. injection Hm0 as <-.
    assert (y <> p) by (by intros ->). destruct (decide (n_Parent ny = Some p)) as [Hpy|Hpy].
    - rewrite decide_True; [done|]. split; [done|]. eapply mo_link; [done| |exact Hny|exact Hpy|exact Hn].
      apply (mo_chain bc Hm). rewrite Hc. set_solver.
    - rewrite decide_False; [done|]. intros [_ Hin]. apply Hpy. by eapply mo_kids. }
  assert (Idx : forall x, indexed bc' x <-> indexed bc x /\ x <> p).
  { intros x. unfold indexed. rewrite Ei. split.
    - intros (mx & Hx & [Hne Hix]%lookup_delete_Some). destruct (Old x mx Hx) as (m0 & Hm0 & Eh & _). rewrite Eh in *.
      split; [eauto|]. intros ->. congruence.
    - intros [(m0 & Hm0 & Hix) Hne]. destruct (New x m0 Hm0) as [mx Hmx]. destruct (Old x mx Hmx) as (m1 & Hm1 & Eh & _).
      simplify_eq. exists mx. split; [done|]. rewrite Eh, lookup_delete_ne; [done|]. intros Eq. rewrite <- Eq in Hix. congruence. }
  split_and!; try done.
  - destruct Hm as [T B Hh C M L K]. split; [done|by rewrite Eb|..].
    + intros x mx Hx. destruct (Old x mx Hx) as (m0 & Hm0 & -> & _). eauto.
    + rewrite Ec. intros x Hx. destruct (C x) as [C1 C2]; [rewrite Hc; set_solver|]. split.
      * apply Idx. split; [done|]. by intros ->.
      * intros mx Hmx. destruct (Old x mx Hmx) as (m0 & Hm0 & _ & -> & _). auto.
    + rewrite Ec. intros x mx [Hxi Hne]%Idx Hmx Hmain. destruct (Old x mx Hmx) as (m0 & Hm0 & _ & Em & _).
      assert (Hin : x ∈ l ++ [p]) by (rewrite <- Hc; eapply M; [done|exact Hm0|congruence]). set_solver.
    + intros x mx y my [Hxi Hne]%Idx Hmx Hy Hmy. destruct (Old x mx Hmx) as (m0 & Hm0 & _ & _ & _ & Ep & _).
      rewrite Ep in Hy. case_decide as Hd; [done|]. destruct (Old y my Hmy) as (my0 & Hmy0 & _ & _ & _ & _ & ->).
      rewrite decide_False; [by eapply L|]. intros ->. apply Hd. split; [done|]. by eapply L.
    + intros x mx c mc Hmx Hcx Hmc. destruct (Old x mx Hmx) as (m0 & Hm0 & _ & _ & _ & _ & Ek). rewrite Ek in Hcx.
      case_decide as Hd; [by apply elem_of_nil in Hcx|]. destruct (Old c mc Hmc) as (mc0 & Hmc0 & _ & _ & _ & -> & _).
      assert (Hpc : n_Parent mc0 = Some x) by (by eapply K). rewrite decide_False; [done|].
      intros [_ Hin]. assert (n_Parent mc0 = Some p) by (by eapply K). congruence.
  - intros x m0 Hx. destruct (New x m0 Hx) as [mx Hmx]. destruct (Old x mx Hmx) as (m1 & Hm1 & Eh & _ & Ework & Ep & _).
    simplify_eq. exists mx. split_and!; try done. case_decide as Hd; [right|by left]. exists p. split; [set_solver|].
    by eapply mo_kids; [|exact Hn|apply Hd|].
  - rewrite Ei. apply delete_subseteq.
Qed.

Lemma bind_Ok {A B} (x : bcM A) (f : A -> bcM B) bc bc1 a : x bc = Ok (bc1, inl a) -> (x ≫= f) bc = f a bc1.
Proof. intros E. unfold mbind, bcM_bind. by rewrite E. Qed.
Lemma cut_below_refl old h : cut_below old h h.
Proof. intros p n Hn. exists n. split_and!; try done. by left. Qed.
Lemma cut_below_trans o1 o2 h1 h2 h3 : cut_below o1 h1 h2 -> cut_below o2 h2 h3 -> cut_below (o2 ++ o1) h1 h3.
Proof.
  intros C1 C2 p n Hn. destruct (C1 p n Hn) as (n2 & Hn2 & W2 & E2 & P2). destruct (C2 p n2 Hn2) as (n3 & Hn3 & W3 & E3 & P3).
  exists n3. split_and!; [done|congruence..|]. destruct P2 as [P2|(y & Hy & P2)]; [|right; exists y; set_solver].
  destruct P3 as [P3|(y & Hy & P3)]; [left; congruence|right]. exists y. split; [set_solver|congruence].
Qed.
Lemma cut_below_work old h h' : cut_below old h h' -> same_work h h'.
Proof. intros C p n Hn. destruct (C p n Hn) as (n' & Hn' & W & Hh & _). eauto. Qed.
Lemma remove_nodes_main old bc l : main_ok bc -> best_chain bc = l ++ old -> l <> [] ->
  exists bc', remove_nodes (reverse old) bc = Ok (bc', inl tt) /\ main_ok bc' /\ best_chain bc' = l /\
    BestChain bc' = BestChain bc /\ cut_below old (nodes bc) (nodes bc') /\ Index bc' ⊆ Index bc /\
    (forall x, indexed bc' x <-> indexed bc x /\ x ∉ old).
Proof.
  revert bc. induction old as [|x old IH] using rev_ind; intros bc Hm Hc Hl.
  { exists bc. rewrite app_nil_r in Hc. split_and!; try done; [apply cut_below_refl|].
    intros x. split; [|by intros []]. intros Hx. split; [done|]. by intros ?%elem_of_nil. }
  rewrite reverse_snoc. cbn [remove_nodes].
  destruct (RemoveBlockNode_main bc x (l ++ old)) as (bc1 & E1 & Hm1 & Hc1 & Eb1 & S1 & J1 & I1);
    [done|by rewrite Hc, app_assoc|by destruct l|].
  destruct (IH bc1 Hm1 Hc1 Hl) as (bc' & E' & Hm' & Hc' & Eb' & S' & J' & I').
  exists bc'. split_and!; [|done|done|congruence|by eapply cut_below_trans|by etrans|].
  - etrans; [apply bind_Ok; exact E1|done].
  - intros y. rewrite I', I1. set_solver.
Qed.

Definition kept : nat := S (Z.to_nat (uint32 (MinMemoryNodes (cfg_ChainParam cfg) - 1))).

Lemma PruneBlockNodes_main bc : main_ok bc ->
  exists bc', PruneBlockNodes cfg bc = Ok (bc', inl tt) /\ main_ok bc' /\
    best_chain bc' = take kept (best_chain bc) /\ BestChain bc' = BestChain bc /\
    cut_below (drop kept (best_chain bc)) (nodes bc) (nodes bc') /\ Index bc' ⊆ Index bc /\
    (forall x, indexed bc' x <-> indexed bc x /\ x ∉ drop kept (best_chain bc)).
Proof.
  intros Hm. destruct (mo_best bc Hm) as [bp Hb]. unfold PruneBlockNodes. rewrite bind_gets, Hb, bind_gets.
  assert (Ec : chain (nodes bc) (Some bp) = best_chain bc) by (unfold best_chain; by rewrite Hb). rewrite Ec.
  set (steps := Z.to_nat _).
  assert (Keep : (length (best_chain bc) <= kept)%nat ->
    exists bc', (mret tt : bcM (DB := DB) unit) bc = Ok (bc', inl tt) /\ main_ok bc' /\
    best_chain bc' = take kept (best_chain bc) /\ BestChain bc' = Some bp /\
    cut_below (drop kept (best_chain bc)) (nodes bc) (nodes bc') /\ Index bc' ⊆ Index bc /\
    (forall x, indexed bc' x <-> indexed bc x /\ x ∉ drop kept (best_chain bc))).
  { intros Hlen. exists bc. rewrite take_ge, drop_ge by done. split_and!; try done; [apply cut_below_refl|].
    intros x. split; [|by intros []]. intros Hx. split; [done|]. by intros ?%elem_of_nil. }
  destruct (drop steps (best_chain bc)) as [|root [|q old]] eqn:Ed.
  - apply Keep. apply (f_equal length) in Ed. rewrite length_drop in Ed. cbn in Ed. unfold kept. fold steps. lia.
  - apply Keep. apply (f_equal length) in Ed. rewrite length_drop in Ed. cbn in Ed. unfold kept. fold steps. lia.
  - assert (Hsplit : best_chain bc = take kept (best_chain bc) ++ q :: old).
    { rewrite <- (take_drop kept (best_chain bc)) at 1. f_equal. unfold kept. fold steps.
      replace (S steps) with (steps + 1)%nat by lia. by rewrite <- drop_drop, Ed. }
    assert (Hd : drop kept (best_chain bc) = q :: old).
    { unfold kept. fold steps. replace (S steps) with (steps + 1)%nat by lia. by rewrite <- drop_drop, Ed. }
    destruct (remove_nodes_main (q :: old) bc (take kept (best_chain bc)) Hm Hsplit) as (bc1 & E1 & Hm1 & Hc1 & Eb1 & S1 & J1 & I1).
    { destruct (best_chain_cons bc bp Hm Hb) as [l ->]. by unfold kept. }
    exists (set_Root (Some root) bc1). split; [etrans; [apply bind_Ok; exact E1|done]|].
    destruct (main_ok_ext bc1 (set_Root (Some root) bc1) Hm1) as [Hm' Hc']; [done..| |].
    { eapply (PruneBlockNodes_keeps cfg ∅ bc); [by apply mo_tree|]. unfold PruneBlockNodes. rewrite bind_gets, Hb, bind_gets, Ec.
      fold steps. rewrite Ed. etrans; [apply bind_Ok; exact E1|done]. }
    split_and!; [done|congruence|cbn; congruence|by rewrite Hd|done|]. intros x. rewrite Hd. apply I1.
Qed.

Lemma PruneBlockNodes_work bc bc' : main_ok bc -> most_work bc -> PruneBlockNodes cfg bc = Ok (bc', inl tt) -> most_work bc'.
Proof.
  intros Hm Hmw E. destruct (PruneBlockNodes_main bc Hm) as (bc1 & E1 & _ & _ & Eb & Sw%cut_below_work & _ & I).
  rewrite E in E1. injection E1 as <-.
  intros p n bp bn Hp Hn Hb Hbn. apply I in Hp as [Hp _]. rewrite Eb in Hb.
  pose proof Hp as (n0 & Hn0 & _). destruct (Sw _ _ Hn0) as (n1 & Hn1 & W1 & _).
  destruct (wt_best _ _ (mo_tree bc Hm) bp Hb) as [bn0 Hbn0]. destruct (Sw _ _ Hbn0) as (bn1 & Hbn1 & W2 & _).
  simplify_eq. rewrite W1, W2. by eapply Hmw.
Qed.

(** ** Accepting a block *)

Lemma path_graft h h' p pre f rest rest' : path h p (pre ++ f :: rest) -> path h' (Some f) (f :: rest') ->
  (forall x n y, x ∈ pre -> h !! x = Some n -> n_Parent n = Some y -> y ∈ pre ++ [f] ->
     exists n', h' !! x = Some n' /\ n_Parent n' = Some y) ->
  path h' p (pre ++ f :: rest').
Proof.
  revert p. induction pre as [|x pre IH]; intros p P Pf C; cbn [app] in *.
  - by rewrite (path_head _ _ _ _ P).
  - inversion P as [|q n l Hn P' E1 E2]; subst.
    assert (exists y l, pre ++ f :: rest = y :: l /\ y ∈ pre ++ [f]) as (y & l & El & Hy).
    { destruct pre as [|y pre]; cbn; eexists _, _; (split; [reflexivity|left]). }
    rewrite El in P'. pose proof (path_head _ _ _ _ P') as Hp.
    destruct (C x n y) as (n' & Hn' & Hp'); [left|done|done|by right|].
    econstructor; [exact Hn'|]. rewrite Hp', <- Hp. rewrite <- El in P'. apply IH; [done|done|].
    intros z m w Hz Hm Hw Hin. eapply C; [by right|exact Hm|done|by right].
Qed.

Lemma chain_after_prune bc bc1 q : main_ok bc -> main_ok bc1 ->
  cut_below (drop kept (best_chain bc)) (nodes bc) (nodes bc1) -> best_chain bc1 = take kept (best_chain bc) ->
  (forall x, indexed bc1 x <-> indexed bc x /\ x ∉ drop kept (best_chain bc)) ->
  is_Some (nodes bc !! q) -> Forall (indexed bc) (chain (nodes bc) (Some q)) ->
  Exists (fun x => x ∈ take kept (best_chain bc)) (chain (nodes bc) (Some q)) ->
  Forall (indexed bc1) (chain (nodes bc1) (Some q)) /\ Exists (fun x => x ∈ best_chain bc1) (chain (nodes bc1) (Some q)).
Proof.
  intros Hm Hm1 C Hc1 Hidx Hq Hmem Hfork. pose proof (wt_forest _ _ (mo_tree bc Hm)) as F.
  assert (Pq : path (nodes bc) (Some q) (chain (nodes bc) (Some q))) by (apply chain_path; [done|by intros x [= <-]]).
  pose proof (best_path bc (mo_tree bc Hm)) as Pb. pose proof (path_NoDup _ _ _ F Pb) as ND.
  destruct (split_at_first (chain (nodes bc) (Some q)) (fun x => x ∈ best_chain bc)) as (pre & f & rest & E & Hpre & Hf).
  { eapply list.Exists_impl; [exact Hfork|]. intros x Hx. rewrite <- (take_drop kept). apply elem_of_app. by left. }
  rewrite E in Pq, Hmem, Hfork. apply list_elem_of_split in Hf as (bpre & brest & Eb).
  assert (brest = rest) as ->.
  { rewrite Eb in Pb. pose proof (path_app _ _ _ _ _ Pb) as P1. pose proof (path_app _ _ _ _ _ Pq) as P2.
    by injection (path_det _ _ _ _ P1 P2). }
  rewrite list.Forall_forall in Hpre.
  assert (Hlt : (length bpre < kept)%nat).
  { destruct (Nat.lt_ge_cases (length bpre) kept) as [|Hge]; [done|exfalso].
    apply Exists_exists in Hfork as (y & Hy%list_elem_of_In & Hin). rewrite Eb, take_app_le in Hin by done.
    assert (Hyb : y ∈ bpre) by (apply list_elem_of_lookup in Hin as [i Hi]; apply lookup_take_Some in Hi as [Hi _]; by eapply list_elem_of_lookup_2).
    apply elem_of_app in Hy as [Hy|Hy]; [apply (Hpre y Hy); rewrite Eb; set_solver|].
    rewrite Eb in ND. apply list.NoDup_app in ND as (_ & ND & _). by apply (ND y Hyb). }
  assert (Et : take kept (best_chain bc) = bpre ++ f :: take (kept - S (length bpre)) rest).
  { rewrite Eb, take_app_ge by lia. f_equal. by replace (kept - length bpre)%nat with (S (kept - S (length bpre))) by lia. }
  set (rest' := take (kept - S (length bpre)) rest) in Et.
  assert (Pf : path (nodes bc1) (Some f) (f :: rest')).
  { pose proof (best_path bc1 (mo_tree bc1 Hm1)) as P1. rewrite Hc1, Et in P1. by eapply path_app. }
  assert (Hold : forall y, y ∈ pre ++ [f] -> y ∉ drop kept (best_chain bc)).
  { intros y Hy Hd. apply elem_of_app in Hy as [Hy| ->%list_elem_of_singleton].
    - apply (Hpre y Hy). rewrite <- (take_drop kept). apply elem_of_app. by right.
    - rewrite <- (take_drop kept), Et in ND. apply list.NoDup_app in ND as (_ & ND & _). apply (ND f); [set_solver|done]. }
  assert (P1 : path (nodes bc1) (Some q) (pre ++ f :: rest')).
  { eapply path_graft; [exact Pq|done|]. intros x n y Hx Hn Hp Hy. destruct (C x n Hn) as (n' & Hn' & _ & _ & [Hp'|(z & Hz & Hp')]).
    - exists n'. split; [done|congruence].
    - exfalso. rewrite Hp in Hp'. injection Hp' as <-. by apply (Hold y Hy). }
  rewrite (path_chain _ _ _ (wt_forest _ _ (mo_tree bc1 Hm1)) P1). rewrite Hc1, Et. split.
  - apply Forall_app. split.
    + apply list.Forall_forall. intros x Hx. apply Hidx. rewrite list.Forall_forall in Hmem.
      split; [apply Hmem; set_solver|]. apply Hold. set_solver.
    + apply list.Forall_forall. intros x Hx. apply (mo_chain bc1 Hm1). rewrite Hc1, Et. apply elem_of_app. by right.
  - apply Exists_app. right. constructor. apply elem_of_app. right. left.
Qed.

(** A new node that nothing refers to yet. *)
Lemma main_ok_new bc p n : main_ok bc -> nodes bc !! p = None -> wf_u256 (n_Hash n) -> n_Children n = [] ->
  (forall q, n_Parent n = Some q -> is_Some (nodes bc !! q)) ->
  let bc' := set_nodes (<[p := n]> (nodes bc)) bc in
  main_ok bc' /\ best_chain bc' = best_chain bc /\ (forall x, indexed bc' x <-> indexed bc x).
Proof.
  intros Hm Hp Hh Hc Hq bc'. pose proof (mo_tree bc Hm) as Hw.
  assert (Hw' : wf_tree ∅ bc') by (apply wf_tree_nodes; [done| |intros m Hm'; congruence]; apply forest_leaf; [by destruct Hw|done..]).
  assert (Ec : best_chain bc' = best_chain bc) by (apply best_chain_eq; [done|]; apply path_fresh; [by apply (best_path bc)|done]).
  assert (Old : forall x m, x <> p -> nodes bc' !! x = Some m <-> nodes bc !! x = Some m) by (intros; cbn; by rewrite lookup_insert_ne).
  assert (Idx : forall x, indexed bc' x <-> indexed bc x).
  { intros x. unfold indexed. cbn [Index bc' set_nodes]. split; intros (m & Hx & Hi).
    - destruct (wt_index _ _ Hw _ _ Hi) as (m0 & Hm0 & Eh). exists m0. by rewrite Eh.
    - exists m. split; [|done]. apply Old; [|done]. intros ->. congruence. }
  split_and!; [|done|done]. destruct Hm as [T B Hhs C M L K].
  assert (NP : forall x, indexed bc x -> x <> p) by (intros x (m & Hx & _) ->; congruence).
  split; [done|done|..].
  - intros x m Hx. destruct (decide (x = p)) as [->|Hne]; [cbn in Hx; rewrite lookup_insert_eq in Hx; by injection Hx as <-|].
    apply Old in Hx; eauto.
  - rewrite Ec. intros x Hx. destruct (C x Hx) as [C1 C2]. split; [by apply Idx|]. intros m Hmx. apply Old in Hmx; [eauto|by apply NP].
  - rewrite Ec. intros x m Hxi Hmx. apply Idx in Hxi. apply Old in Hmx; [eauto|by apply NP].
  - intros x m y my Hxi Hmx Hy Hmy. apply Idx in Hxi. apply Old in Hmx; [|by apply NP].
    assert (y <> p). { intros ->. destruct (wt_forest _ _ Hw) as [rank R]. destruct (R x m Hmx) as [Rp _]. destruct (Rp p Hy) as [[? ?] _]. congruence. }
    apply Old in Hmy; eauto.
  - intros x m c mc Hmx Hcx Hmc. destruct (decide (x = p)) as [->|Hne].
    { cbn in Hmx. rewrite lookup_insert_eq in Hmx. injection Hmx as <-. rewrite Hc in Hcx. by apply elem_of_nil in Hcx. }
    apply Old in Hmx; [|done].
    assert (c <> p). { intros ->. destruct (wt_forest _ _ Hw) as [rank R]. destruct (R x m Hmx) as [_ Rc]. destruct (Rc p Hcx) as [[? ?] _]. congruence. }
    apply Old in Hmc; eauto.
Qed.

Lemma CalcWork_nonneg bits : 0 <= CalcWork bits.
Proof.
  unfold CalcWork. destruct (Z.leb_spec (compactToBig bits) 0); [done|]. apply Z.div_pos; [|lia].
  unfold oneLsh256. rewrite Z.shiftl_mul_pow2 by lia. lia.
Qed.

(** The node of an accepted block, after pruning. *)
Lemma new_tip_made bc bc1 b q m p :
  main_ok bc -> main_ok bc1 -> cut_below (drop kept (best_chain bc)) (nodes bc) (nodes bc1) ->
  best_chain bc1 = take kept (best_chain bc) -> Index bc1 ⊆ Index bc ->
  (forall x, indexed bc1 x <-> indexed bc x /\ x ∉ drop kept (best_chain bc)) ->
  wf_u256 (Block_Hash b) -> Index bc !! Block_Hash b = None -> nodes bc !! q = Some m ->
  Forall (indexed bc) (chain (nodes bc) (Some q)) ->
  Exists (fun x => x ∈ take kept (best_chain bc)) (chain (nodes bc) (Some q)) ->
  nodes bc1 !! p = None ->
  let newNode := NewBlockNode (blk_data b) (Block_Hash b) in
  let n := set_WorkSum (n_WorkSum m + n_WorkSum newNode) (set_Height (uint32 (n_Height m + 1)) (set_Parent (Some q) newNode)) in
  let bc2 := set_nodes (<[p := n]> (nodes bc1)) bc1 in
  main_ok bc2 /\ best_chain bc2 = best_chain bc1 /\ (forall x, indexed bc2 x <-> indexed bc1 x) /\
  exists m', new_tip bc2 p n q m'.
Proof.
  intros Hm Hm1 C Hc1 Hix Hidx Hh Hi Hq Hmem Hfork Hp newNode n bc2.
  destruct (C q m Hq) as (m' & Hm' & Wm & _).
  destruct (main_ok_new bc1 p n Hm1 Hp Hh eq_refl) as (Hm2 & Hc2 & Hi2); [intros x [= <-]; eauto|].
  destruct (chain_after_prune bc bc1 q Hm Hm1 C Hc1 Hidx) as [Hmem1 Hfork1]; [eauto|done..|].
  split_and!; try done. exists m'.
  assert (Hne : q <> p) by (intros ->; congruence).
  assert (Ech : chain (nodes bc2) (Some q) = chain (nodes bc1) (Some q)).
  { apply path_chain; [apply (wt_forest _ _ (mo_tree bc2 Hm2))|]. apply path_fresh; [|done].
    apply chain_path; [apply (wt_forest _ _ (mo_tree bc1 Hm1))|intros x [= <-]; eauto]. }
  split; try done.
  - cbn. by rewrite lookup_insert_eq.
  - cbn. by rewrite lookup_insert_ne.
  - cbn. rewrite Wm. pose proof (CalcWork_nonneg (bd_Bits (blk_data b))). lia.
  - cbn. destruct (Index bc1 !! Block_Hash b) as [x|] eqn:Ex; [|done]. apply (lookup_weaken _ _ _ _ Ex) in Hix. congruence.
  - intros x nx Hx Hin. cbn in Hx. destruct (decide (p = x)) as [->|Hpx].
    + rewrite lookup_insert_eq in Hx. injection Hx as <-. by apply elem_of_nil in Hin.
    + rewrite lookup_insert_ne in Hx by done. destruct (wt_forest _ _ (mo_tree bc1 Hm1)) as [rank R].
      destruct (R x nx Hx) as [_ Rc]. destruct (Rc p Hin) as [[? ?] _]. congruence.
  - rewrite Ech. eapply list.Forall_impl; [exact Hmem1|]. intros x. apply Hi2.
  - rewrite Ech. eapply list.Exists_impl; [exact Hfork1|]. intros x Hx.
    assert (best_chain bc2 = best_chain bc1) as -> by exact Hc2. exact Hx.
Qed.

Lemma maybeAcceptBlock_main bc bc' r b q :
  main_ok bc -> most_work bc -> wf_u256 (Block_Hash b) -> CompareTo (PrevBlockHash (blk_data b)) zero256 <> 0 ->
  Index bc !! PrevBlockHash (blk_data b) = Some q -> Index bc !! Block_Hash b = None ->
  Forall (indexed bc) (chain (nodes bc) (Some q)) ->
  Exists (fun x => x ∈ take kept (best_chain bc)) (chain (nodes bc) (Some q)) ->
  maybeAcceptBlock cfg b bc = Ok (bc', r) ->
  main_ok bc' /\
  match r with
  | inl main => most_work bc' /\
      if main : bool then exists p n, BestChain bc' = Some p /\ nodes bc' !! p = Some n /\ n_Hash n = Block_Hash b
      else best_chain bc' = take kept (best_chain bc)
  | inr _ => True
  end.
Proof.
  intros Hm Hmw Hh Hz Hq Hi Hmem Hfork E. unfold maybeAcceptBlock in E.
  unfold GetPrevNodeFromBlock in E. destruct (Z.eqb_spec (CompareTo (PrevBlockHash (blk_data b)) zero256) 0); [done|].
  rewrite bind_assoc, bind_lookup, Hq, bind_mret, bind_gets, bind_assoc, bind_node_at in E.
  destruct (nodes bc !! q) as [m|] eqn:Hnq; [|done]. rewrite bind_mret in E.
  destruct (negb _); [by injection E as <- <-|]. rewrite bind_run in E. destruct (PowCheckBlockContext _ _ _) as [e| |]; [|done..].
  rewrite bind_fail_on in E. destruct e as [e|]; [by injection E as <- <-|].
  destruct (PruneBlockNodes_main bc Hm) as (bc1 & E1 & Hm1 & Hc1 & Eb1 & C1 & J1 & I1).
  rewrite (bind_Ok _ _ _ _ _ E1), bind_new_node in E.
  pose proof (PruneBlockNodes_work bc bc1 Hm Hmw E1) as Hmw1.
  assert (Hp : nodes bc1 !! fresh (dom (nodes bc1)) = None) by (apply not_elem_of_dom, is_fresh).
  revert E Hp. generalize (fresh (dom (nodes bc1))) as p. intros p E Hp.
  destruct (new_tip_made bc bc1 b q m p Hm Hm1 C1 Hc1 J1 I1 Hh Hi Hnq Hmem Hfork Hp) as (Hm2 & Hc2 & Hi2 & m' & T).
  destruct (ConnectBestChain_main _ _ _ _ _ _ _ _ Hm2 T E) as (Hm' & Hr & Hw').
  split; [done|]. destruct r as [main|e]; [|done].
  destruct Hw' as [Hw' Sw].
  { intros x nx bp bn Hx Hnx Hb Hbn. cbn in Hb. apply Hi2 in Hx. pose proof Hx as (n0 & Hn0 & _).
    destruct (wt_best _ _ (mo_tree bc1 Hm1) bp Hb) as [bn0 Hbn0]. cbn in Hnx, Hbn.
    rewrite lookup_insert_ne in Hnx, Hbn by (intros ->; congruence). by eapply Hmw1. }
  split; [done|]. destruct main.
  - destruct (Sw p _ (nt_node _ _ _ _ _ T)) as (n' & Hn' & _ & Eh). exists p, n'. split_and!; [|done|done].
    pose proof (best_path bc' (mo_tree bc' Hm')) as P. rewrite Hr in P. by apply path_head in P.
  - destruct Hr as [-> _]. by rewrite Hc2.
Qed.
End Best.
