(* ===== verification/ChainSelection.v ===== *)
(** Chain selection as a whole: what [core/ledger/blockchain.go] promises about
    the nodes in memory, the best chain and the waiting orphans, on a small
    chain built by the code itself and in general; and what it does when a
    reorganisation fails. *)

From S2P Require Import Prelude Sha256 Serialization Common Fixed64 Transaction Merkle AuxPow Block.
From S2P Require Import Store Utxo Difficulty MedianTime Vm Contract Validator.
From S2P Require Import Blockchain BlockTree BestChain.

(** * A small chain *)

Definition reg_cfg : Config := mkConfig 1000000 100 100 false (repeat 1 32) (fun h => bool_decide (h = zero160)) regNet.
Definition small_coinbase (k : Z) : Transaction := set_Outputs (NewCoinBaseTransaction (PCoinBase [k]) 1) [mkOutput (repeat 1 32) 10 zero160].
(** Block [k] with the parent [prev] at [height], paid by coinbase [c]. *)
Definition small_block (k prev height c : Z) : Block :=
  mkBlock (mkBlockdata 0 (repeat prev 32) zero256 (1506815000 + height) 0x207fffff height k (sample_AuxPow (repeat 5 32)))
    [small_coinbase c] (Some (repeat k 32)).
Definition small_genesis : Blockdata := blk_data (small_block 9 0 0 9).
(** A store that knows the asset and nothing else. *)
Definition small_cs : ChainStore (gmap bytes bytes) :=
  mkChainStore {[hash_key ST_Info (repeat 1 32) := Asset_Serialize (mkAsset [69; 76; 65] [] 8 0 0)]} 0 [] ∅ ∅.

Definition chain_of {A} (o : outcome (Blockchain (gmap bytes bytes) * A)) : Blockchain (gmap bytes bytes) :=
  match o with Ok (bc, _) => bc | _ => NewBlockchain 0 small_cs end.
(** The operation ends with a chain and a result that pass the test. *)
Definition ends_with {A B} (t : A -> B -> bool) (o : outcome (A * B)) : bool :=
  match o with Ok (bc, r) => t bc r | _ => false end.
Lemma ends_with_inv {A B} (t : A -> B -> bool) o : ends_with t o = true -> exists bc r, o = Ok (bc, r) /\ t bc r = true.
Proof. destruct o as [[bc r]| |]; try done. intros E. by exists bc, r. Qed.

Definition small_start : Blockchain (gmap bytes bytes) :=
  set_BestChain (Some 1%positive) (chain_of (LoadBlockNode small_genesis (repeat 9 32) (NewBlockchain 0 small_cs))).
Definition accept (b : Block) (bc : Blockchain (gmap bytes bytes)) : Blockchain (gmap bytes bytes) :=
  chain_of (maybeAcceptBlock reg_cfg b bc).
(** Genesis 9, main chain 9-10-11, side chain 9-20-21. *)
Definition small_main : Blockchain (gmap bytes bytes) := accept (small_block 11 10 2 11) (accept (small_block 10 9 1 10) small_start).
Definition small_side : Blockchain (gmap bytes bytes) := accept (small_block 21 20 2 21) (accept (small_block 20 9 1 20) small_main).

(** What [maybeAcceptBlock_main] asks for, as a check. *)
#[export] Instance indexed_dec {DB} (bc : Blockchain DB) p : Decision (indexed bc p).
Proof.
  destruct (nodes bc !! p) as [n|] eqn:E; [destruct (decide (Index bc !! n_Hash n = Some p))|].
  - left. exists n. by split.
  - right. intros (m & Hm & Hi). congruence.
  - right. intros (m & Hm & Hi). congruence.
Defined.

(** The branch [q] starts in the part of the best chain that stays in memory. *)
Definition in_reach {DB} (cfg : Config) (bc : Blockchain DB) (q : positive) : Prop :=
  Forall (indexed bc) (chain (nodes bc) (Some q)) /\
  Exists (fun x => x ∈ take (kept cfg) (best_chain bc)) (chain (nodes bc) (Some q)).
#[export] Instance in_reach_dec {DB} cfg (bc : Blockchain DB) q : Decision (in_reach cfg bc q).
Proof. unfold in_reach. apply _. Defined.

Definition fits (bc : Blockchain (gmap bytes bytes)) (b : Block) : bool :=
  bool_decide (wf_u256 (Block_Hash b)) && negb (CompareTo (PrevBlockHash (blk_data b)) zero256 =? 0) &&
  bool_decide (Index bc !! Block_Hash b = None) &&
  match Index bc !! PrevBlockHash (blk_data b) with Some q => bool_decide (in_reach reg_cfg bc q) | None => false end &&
  match maybeAcceptBlock reg_cfg b bc with Ok (_, inl _) => true | _ => false end.

(** A chain of one block. *)
Lemma one_block_ok {DB} (bc : Blockchain DB) p0 g :
  nodes bc = {[p0 := g]} -> Index bc = {[n_Hash g := p0]} -> DepNodes bc = {[n_ParentHash g := [p0]]} ->
  BestChain bc = Some p0 -> Root bc = Some p0 ->
  n_Parent g = None -> n_Children g = [] -> n_InMainChain g = true -> wf_u256 (n_Hash g) -> main_ok bc /\ most_work bc.
Proof.
  intros E Ei Ed Eb Er Gp Gc Gm Gh.
  assert (One : forall p n, nodes bc !! p = Some n -> p = p0 /\ n = g).
  { intros p n. rewrite E, lookup_singleton_Some. by intros [-> ->]. }
  assert (At : nodes bc !! p0 = Some g) by (by rewrite E, lookup_singleton_eq).
  assert (Hw : wf_tree ∅ bc).
  { split.
    - exists (fun _ => 0%nat). intros p n [-> ->]%One. rewrite Gp, Gc. split; [done|]. by intros c ?%elem_of_nil.
    - intros h p. rewrite Ei, lookup_singleton_Some. intros [<- <-]. eauto.
    - intros h ps p. rewrite Ed, lookup_singleton_Some. intros [<- <-] Hp. apply list_elem_of_singleton in Hp as ->. eauto.
    - intros p. rewrite Eb. intros [= <-]. eauto.
    - intros p. rewrite Er. intros [= <-]. eauto.
    - done. }
  assert (Ec : best_chain bc = [p0]).
  { apply best_chain_eq; [done|]. rewrite Eb. econstructor; [exact At|]. rewrite Gp. constructor. }
  assert (Ix : indexed bc p0) by (exists g; rewrite Ei; split; [done|apply lookup_singleton_eq]).
  split.
  - split; [done|by exists p0|..]; rewrite ?Ec.
    + by intros p n [-> ->]%One.
    + intros p ->%list_elem_of_singleton. split; [done|]. by intros n [_ ->]%One.
    + intros p n _ [-> _]%One _. by apply list_elem_of_singleton.
    + intros p n q m _ [-> ->]%One. congruence.
    + intros p n c m [-> ->]%One. rewrite Gc. by intros ?%elem_of_nil.
  - intros p n bp bn _ [-> ->]%One _ [-> ->]%One. apply Z.le_refl.
Qed.
Lemma small_start_ok : main_ok small_start /\ most_work small_start.
Proof.
  apply (one_block_ok small_start 1%positive (set_InMainChain true (NewBlockNode small_genesis (repeat 9 32))));
    try reflexivity. by_decision.
Qed.
Lemma small_grows bc b : main_ok bc /\ most_work bc -> fits bc b = true -> main_ok (accept b bc) /\ most_work (accept b bc).
Proof.
  intros [Hm Hw] F. unfold fits in F. rewrite !andb_true_iff, !bool_decide_eq_true, negb_true_iff, Z.eqb_neq in F.
  destruct F as ((((Hh & Hz) & Hi) & Hq) & Ha). unfold accept.
  destruct (Index bc !! PrevBlockHash (blk_data b)) as [q|] eqn:Eq; [|done]. apply bool_decide_eq_true in Hq as [Hx Hy].
  destruct (maybeAcceptBlock reg_cfg b bc) as [[bc' [r|e]]| |] eqn:E; try done.
  by destruct (maybeAcceptBlock_main reg_cfg bc bc' _ b q Hm Hw Hh Hz Eq Hi Hx Hy E) as [H1 [H2 _]].
Qed.
Lemma small_main_ok : main_ok small_main /\ most_work small_main.
Proof. apply small_grows; [apply small_grows; [apply small_start_ok|]|]; by vm_compute. Qed.
Lemma small_side_ok : main_ok small_side /\ most_work small_side.
Proof. apply small_grows; [apply small_grows; [apply small_main_ok|]|]; by vm_compute. Qed.

(** * The chain with the most work *)

(** C4: where the best chain of the memory has the most work, a block whose parent is in memory, on a branch that leaves
    the best chain within its last [MinMemoryNodes] blocks, keeps it so when it is accepted: the best chain, its marks
    and its index stay consistent, even after an error; without an error no known block has more work than the end of
    the best chain, which is the new block exactly if the answer is [true] and the old chain (up to pruning)
    otherwise. *)
Theorem most_work_wins {DB} `{IStore DB} (cfg : Config) (bc bc' : Blockchain DB) r b q :
  main_ok bc -> most_work bc -> wf_u256 (Block_Hash b) -> CompareTo (PrevBlockHash (blk_data b)) zero256 <> 0 ->
  Index bc !! PrevBlockHash (blk_data b) = Some q -> Index bc !! Block_Hash b = None -> in_reach cfg bc q ->
  maybeAcceptBlock cfg b bc = Ok (bc', r) ->
  main_ok bc' /\
  match r with
  | inl main => most_work bc' /\
      if main : bool then exists p n, BestChain bc' = Some p /\ nodes bc' !! p = Some n /\ n_Hash n = Block_Hash b
      else best_chain bc' = take (kept cfg) (best_chain bc)
  | inr _ => True
  end.
Proof. intros Hm Hw Hh Hz Hq Hi [H1 H2] E. by apply (maybeAcceptBlock_main cfg bc bc' r b q). Qed.
(** The third block of the side chain makes it the best chain. *)
Lemma most_work_wins_witness :
  exists bc', maybeAcceptBlock reg_cfg (small_block 22 21 3 22) small_side = Ok (bc', inl true) /\
    main_ok bc' /\ most_work bc' /\ best_chain bc' = [6; 5; 4; 1]%positive.
Proof.
  edestruct (ends_with_inv (fun bc' r => match r with inl true => true | _ => false end && bool_decide (best_chain bc' = [6; 5; 4; 1]%positive))
    (maybeAcceptBlock reg_cfg (small_block 22 21 3 22) small_side)) as (bc' & r & E & T); [vm_compute; reflexivity|].
  apply andb_true_iff in T as [Er Hc%bool_decide_eq_true]. destruct r as [[]|]; [|discriminate Er..].
  destruct (most_work_wins reg_cfg small_side bc' (inl true) (small_block 22 21 3 22) 5%positive (proj1 small_side_ok) (proj2 small_side_ok))
    as [Hm' [Hw' _]]; [by_decision|vm_compute; discriminate|vm_compute; reflexivity|vm_compute; reflexivity|by_decision|exact E|].
  exists bc'. split_and!; assumption.
Defined.

(** [GetReorganizeNodes] finds the fork: detached are the nodes of the best chain above the last node it shares with
    the branch of [node], attached are the nodes of the branch above it, from the fork on, and nothing changes. *)
Theorem reorganize_nodes {DB} (bc : Blockchain DB) node :
  main_ok bc -> Forall (indexed bc) (chain (nodes bc) (Some node)) ->
  Exists (fun p => p ∈ best_chain bc) (chain (nodes bc) (Some node)) ->
  exists ds ats common, GetReorganizeNodes node bc = Ok (bc, inl (ds, ats)) /\
    best_chain bc = ds ++ common /\ chain (nodes bc) (Some node) = reverse ats ++ common /\ common <> [] /\
    Forall (fun p => p ∉ best_chain bc) ats.
Proof. apply GetReorganizeNodes_spec. Qed.
Lemma reorganize_nodes_witness :
  exists ds ats common, GetReorganizeNodes 5%positive small_side = Ok (small_side, inl (ds, ats)) /\
    best_chain small_side = ds ++ common /\ reverse ats ++ common = [5; 4; 1]%positive.
Proof.
  destruct (reorganize_nodes small_side 5%positive (proj1 small_side_ok) ltac:(by_decision) ltac:(by_decision))
    as (ds & ats & common & E & Eb & Ec & _).
  exists ds, ats, common. split_and!; [done|done|]. rewrite <- Ec. vm_compute; reflexivity.
Defined.

(** pruning never fails; it keeps the last [MinMemoryNodes] blocks of the best chain in memory, drops exactly the
    older ones from the index, and leaves the end of the best chain and every other branch indexed. *)
Theorem pruning_keeps_recent {DB} (cfg : Config) (bc : Blockchain DB) : main_ok bc -> most_work bc ->
  exists bc', PruneBlockNodes cfg bc = Ok (bc', inl tt) /\ main_ok bc' /\ most_work bc' /\
    best_chain bc' = take (kept cfg) (best_chain bc) /\ BestChain bc' = BestChain bc /\
    (forall x, indexed bc' x <-> indexed bc x /\ x ∉ drop (kept cfg) (best_chain bc)).
Proof.
  intros Hm Hw. destruct (PruneBlockNodes_main cfg bc Hm) as (bc' & E & Hm' & Hc & Hb & _ & _ & Hi).
  exists bc'. split_and!; try done. by apply (PruneBlockNodes_work cfg bc bc').
Qed.
Definition two_nodes : Config :=
  mkConfig 1000000 100 100 false (repeat 1 32) (fun h => bool_decide (h = zero160))
    (mkChainParams RegNet (PowLimit regNet) (PowLimitBits regNet) (TargetTimespan regNet) (TargetTimePerBlock regNet) 4 10000 2 100).
Lemma pruning_keeps_recent_witness :
  exists bc', PruneBlockNodes two_nodes small_main = Ok (bc', inl tt) /\ best_chain bc' = [3; 2]%positive.
Proof.
  destruct (pruning_keeps_recent two_nodes small_main (proj1 small_main_ok) (proj2 small_main_ok)) as (bc' & E & _ & _ & Hc & _).
  exists bc'. split; [exact E|]. rewrite Hc. vm_compute; reflexivity.
Defined.

(** * Errors *)

(** a reorganisation that fails is not undone: the third block of the side chain repeats a transaction, so it is
    refused, but the two blocks of the old best chain stay disconnected and the node is left on the side chain, which
    has no more work than the chain it gave up. *)
Theorem failed_reorganization_not_undone :
  exists bc' e, maybeAcceptBlock reg_cfg (small_block 22 21 3 21) small_side = Ok (bc', inr e) /\
    best_chain small_side = [3; 2; 1]%positive /\ best_chain bc' = [5; 4; 1]%positive /\
    (forall n m, nodes bc' !! 3%positive = Some n -> nodes bc' !! 5%positive = Some m -> n_WorkSum m = n_WorkSum n).
Proof.
  edestruct (ends_with_inv (fun bc' r => match r with inr _ => true | inl _ => false end && bool_decide (best_chain bc' = [5; 4; 1]%positive) &&
      bool_decide (n_WorkSum <$> nodes bc' !! 3%positive = n_WorkSum <$> nodes bc' !! 5%positive))
    (maybeAcceptBlock reg_cfg (small_block 22 21 3 21) small_side)) as (bc' & r & E & T); [vm_compute; reflexivity|].
  rewrite !andb_true_iff in T. destruct T as [[Er Hc%bool_decide_eq_true] Ew%bool_decide_eq_true]. destruct r as [?|e]; [done|].
  exists bc', e. split_and!; [done|vm_compute; reflexivity|done|].
  intros n m Hn Hm. rewrite Hn, Hm in Ew. by injection Ew.
Qed.

(** a block that names no parent and has height 0 passes the checks before the tree and then ends the process: once
    there is a best chain, [ConnectBestChain] reads the parent of the new node, which is nil. *)
Theorem second_genesis_panics {DB} `{IStore DB} `{ICrypto} (cfg : Config) ripemd160 now (bc : Blockchain DB) b :
  main_ok bc -> CompareTo (PrevBlockHash (blk_data b)) zero256 = 0 -> bd_Height (blk_data b) = 0 ->
  Index bc !! Block_Hash b = None -> IsBlockInStore (cs_db (bc_Store bc)) (currentBlockHeight (bc_Store bc)) (Block_Hash b) = Some false ->
  Orphans bc !! Block_Hash b = None ->
  PowCheckBlockSanity (H := store_ledger (bc_Store bc)) cfg ripemd160 b (PowLimit (cfg_ChainParam cfg)) (TimeSource bc) now = Ok None ->
  ProcessBlock cfg ripemd160 now b bc = Panic.
Proof.
  intros Hm Hz Hh Hi Hs Ho Hc. unfold ProcessBlock, BlockExists.
  rewrite bind_assoc, bind_lookup, Hi, bind_assoc, bind_gets, bind_must, Hs, bind_gets, Ho, !bind_gets, bind_run, Hc, bind_fail_on.
  rewrite Hz. cbn [Z.eqb]. rewrite bind_mret. cbn [negb].
  assert (Ep : maybeAcceptBlock cfg b bc = Panic); [|unfold mbind, bcM_bind; by rewrite Ep].
  unfold maybeAcceptBlock, GetPrevNodeFromBlock. rewrite Hz. cbn [Z.eqb]. rewrite bind_mret, bind_gets, bind_mret, Hh. cbn [Z.eqb negb].
  unfold chain_nodes. rewrite chain_None. cbn [omap PowCheckBlockContext]. rewrite bind_run. cbn. rewrite bind_mret.
  destruct (PruneBlockNodes_main cfg bc Hm) as (bc1 & E1 & Hm1 & _).
  rewrite (bind_Ok _ _ _ _ _ E1), bind_new_node. unfold ConnectBestChain. rewrite bind_node_at. cbn. rewrite lookup_insert_eq, !bind_gets. cbn.
  destruct (mo_best bc1 Hm1) as [bp Hb]. rewrite Hb. cbn.
  destruct (wt_best _ _ (mo_tree bc1 Hm1) bp Hb) as [bn Hbn].
  rewrite lookup_insert_ne, Hbn; [done|]. intros Hf. apply (is_fresh (dom (nodes bc1))). rewrite Hf. by apply elem_of_dom.
Qed.
(** A block of height 0 without a parent that passes the sanity checks. *)
Definition second_genesis (nonce : Z) : Block :=
  mkBlock (mkBlockdata 0 zero256 (tx_hash_of paying_coinbase) 1506816000 0x207fffff 0 nonce new_AuxPow) [paying_coinbase] None.
Lemma second_genesis_panics_witness :
  ProcessBlock (H0 := prefix_crypto) reg_cfg sample_ripemd 1506816000 (second_genesis 2) small_main = Panic.
Proof.
  apply (second_genesis_panics (H0 := prefix_crypto) reg_cfg sample_ripemd 1506816000 small_main (second_genesis 2) (proj1 small_main_ok));
    vm_compute; reflexivity.
Defined.

(** * Reachable chains *)

(** C14: whatever is loaded and processed from the start on, with errors or not, the nodes in memory form a forest: the
    chain of parents of every node ends, without repetition, after at most as many steps as there are nodes, every
    reference is valid, and the index holds a node under its own hash. *)
Theorem block_index_forest {DB} `{IStore DB} `{ICrypto} (cfg : Config) ripemd160 height cs (bc : Blockchain DB) :
  rtc (bc_step cfg ripemd160) (NewBlockchain height cs) bc ->
  (forall p n, nodes bc !! p = Some n -> exists l, path (nodes bc) (Some p) l /\ NoDup l /\ (length l <= size (nodes bc))%nat /\
     chain (nodes bc) (Some p) = l) /\
  (forall h p, Index bc !! h = Some p -> exists n, nodes bc !! p = Some n /\ n_Hash n = h) /\
  (forall p, BestChain bc = Some p \/ Root bc = Some p -> is_Some (nodes bc !! p)).
Proof.
  intros R. destruct (bc_step_wf cfg ripemd160 _ _ R (NewBlockchain_wf height cs)) as [[F I D B Rt _] _].
  split_and!; [|exact I|intros p [Hp|Hp]; eauto]. intros p n Hn.
  assert (P : path (nodes bc) (Some p) (chain (nodes bc) (Some p))) by (apply chain_path; [done|intros q [= <-]; eauto]).
  eexists. split_and!; [exact P|by eapply path_NoDup|by eapply path_length|done].
Qed.
Lemma small_start_step : rtc (bc_step (H0 := prefix_crypto) reg_cfg sample_ripemd) (NewBlockchain 0 small_cs) small_start.
Proof. eapply rtc_once, (step_load (H0 := prefix_crypto) reg_cfg sample_ripemd small_genesis (repeat 9 32)). reflexivity. Qed.
Lemma block_index_forest_witness :
  exists l, path (nodes small_start) (Some 1%positive) l /\ NoDup l.
Proof.
  destruct (block_index_forest (H0 := prefix_crypto) reg_cfg sample_ripemd 0 small_cs small_start small_start_step) as [F _].
  destruct (F 1%positive (set_InMainChain true (NewBlockNode small_genesis (repeat 9 32))) ltac:(reflexivity)) as (l & P & ND & _).
  by exists l.
Defined.

(** * Orphans *)

(** [ProcessOrphans] ends: the turns it is given are enough, more change nothing; and when it ends without an error,
    no orphan waits for the block any more. *)
Theorem orphans_processed {DB} `{IStore DB} (cfg : Config) (bc : Blockchain DB) hash fuel : wf_orphans bc ->
  (2 * waiting_count (PrevOrphans bc) + 1 < fuel)%nat ->
  process_orphans cfg fuel [hash] bc = ProcessOrphans cfg hash bc /\
  (forall bc', ProcessOrphans cfg hash bc = Ok (bc', inl tt) -> wf_orphans bc' /\ PrevOrphans bc' !! hash = None).
Proof.
  intros Hw Hf. unfold ProcessOrphans. rewrite bind_gets. split.
  - apply process_orphans_fuel; [done|cbn [length]; lia..].
  - intros bc' E. destruct (process_orphans_done _ _ _ _ _ _ E) as (_ & Hw' & Hd). split; [by apply Hw'|].
    apply Hd; [done..|left].
Qed.
(** Two orphans in a row, whose chain is completed by block 10. *)
Definition with_orphans : Blockchain (gmap bytes bytes) :=
  chain_of (AddOrphanBlock reg_cfg 1506815000 (small_block 11 10 2 11)
    (chain_of (AddOrphanBlock reg_cfg 1506815000 (small_block 12 11 3 12) (accept (small_block 10 9 1 10) small_start)))).
Lemma chain_of_wf {A} (m : bcM (DB := gmap bytes bytes) A) bc : keeps wf_chain m -> wf_chain bc -> wf_chain (chain_of (m bc)).
Proof.
  intros Hk Hw. destruct (m bc) as [[bc' r]| |] eqn:E; cbn; [by eapply Hk|apply NewBlockchain_wf..].
Qed.
Lemma with_orphans_wf : wf_orphans with_orphans.
Proof.
  apply chain_of_wf; [apply AddOrphanBlock_keeps|]. apply chain_of_wf; [apply AddOrphanBlock_keeps|].
  apply chain_of_wf; [apply maybeAcceptBlock_wf|]. apply (bc_step_wf (H0 := prefix_crypto) reg_cfg sample_ripemd (NewBlockchain 0 small_cs));
    [apply small_start_step|apply NewBlockchain_wf].
Qed.
Lemma orphans_processed_witness :
  exists bc', ProcessOrphans reg_cfg (repeat 10 32) with_orphans = Ok (bc', inl tt) /\ PrevOrphans bc' !! (repeat 10 32) = None /\ best_chain bc' = [4; 3; 2; 1]%positive.
Proof.
  destruct (orphans_processed reg_cfg with_orphans (repeat 10 32) 100 with_orphans_wf) as [_ Hd]; [by_decision|].
  edestruct (ends_with_inv (fun bc' r => match r with inl _ => true | _ => false end && bool_decide (best_chain bc' = [4; 3; 2; 1]%positive))
    (ProcessOrphans reg_cfg (repeat 10 32) with_orphans)) as (bc' & r & E & T); [vm_compute; reflexivity|].
  apply andb_true_iff in T as [Er Hc%bool_decide_eq_true]. destruct r as [[]|]; [|discriminate Er].
  exists bc'. split_and!; [exact E|apply (Hd bc' E)|exact Hc].
Defined.

(** The same network with room for two orphans. *)
Definition two_orphans : Config :=
  mkConfig 1000000 100 100 false (repeat 1 32) (fun h => bool_decide (h = zero160))
    (mkChainParams RegNet (PowLimit regNet) (PowLimitBits regNet) (TargetTimespan regNet) (TargetTimePerBlock regNet) 4 2 20160 100).
Definition orphan_after (now : Z) (b : Block) (bc : Blockchain (gmap bytes bytes)) : Blockchain (gmap bytes bytes) :=
  chain_of (AddOrphanBlock two_orphans now b bc).
(** Two orphans, then the parent of the first one, and two more orphans. *)
Definition crowded : Blockchain (gmap bytes bytes) :=
  let bc := orphan_after 11 (small_block 41 40 2 41) (orphan_after 10 (small_block 11 10 2 11) small_start) in
  let bc := chain_of (ProcessOrphans two_orphans (repeat 10 32) (accept (small_block 10 9 1 10) bc)) in
  orphan_after 13 (small_block 43 42 2 43) (orphan_after 12 (small_block 42 40 2 42) bc).

(** the limit on orphans does not hold: [OldestOrphan] still names an orphan that [ProcessOrphans] has already taken
    out, so at the limit [AddOrphanBlock] removes nothing; with room for two orphans, three are kept. *)
Theorem orphan_limit_exceeded :
  MaxOrphanBlocks (cfg_ChainParam two_orphans) = 2 /\ size (Orphans crowded) = 3%nat.
Proof. split; vm_compute; reflexivity. Qed.

(** ** The root of an orphan *)

Lemma orphan_root_loop_found (os : gmap Uint256 OrphanBlock) (rank : Uint256 -> nat) :
  (forall h o, os !! h = Some o -> (rank (orphan_prev o) < rank h)%nat) ->
  forall fuel (seen : gset Uint256) root h, seen ⊆ dom os -> (size os <= fuel + size seen)%nat -> (forall x, x ∈ seen -> (rank h < rank x)%nat) ->
  (os !! h = None -> forall o, os !! root = Some o -> os !! orphan_prev o = None) ->
  exists r, orphan_root_loop fuel os root h = Some r /\ forall o, os !! r = Some o -> os !! orphan_prev o = None.
Proof.
  intros Hr. induction fuel as [|fuel IH]; intros seen root h Hs Hf Hx Hn; cbn; destruct (os !! h) as [o|] eqn:E; eauto.
  - exfalso. assert (Hd : {[h]} ∪ seen ⊆ dom os) by (assert (h ∈ dom os) by (apply elem_of_dom; eauto); set_solver).
    apply subseteq_size in Hd. rewrite size_union in Hd; [|apply disjoint_singleton_l; intros Hin; specialize (Hx h Hin); lia].
    rewrite size_singleton, size_dom in Hd. lia.
  - assert (Hh : h ∉ seen) by (intros Hin; specialize (Hx h Hin); lia).
    apply (IH ({[h]} ∪ seen)).
    + assert (h ∈ dom os) by (apply elem_of_dom; eauto). set_solver.
    + rewrite size_union, size_singleton by set_solver. lia.
    + specialize (Hr h o E). intros x [->%elem_of_singleton|Hin]%elem_of_union; [done|]. specialize (Hx x Hin). lia.
    + intros Hp o' Ho'. congruence.
Qed.
(** Where the orphans have no cycle, the search for the root ends, and the
    parent of the root is not an orphan. *)
Lemma orphan_root_found {DB} (bc : Blockchain DB) rank hash :
  (forall h o, Orphans bc !! h = Some o -> (rank (orphan_prev o) < rank h)%nat) ->
  exists r, GetOrphanRoot hash bc = Some r /\ forall o, Orphans bc !! r = Some o -> Orphans bc !! orphan_prev o = None.
Proof.
  intros Hr. apply (orphan_root_loop_found _ rank Hr _ ∅); [set_solver|rewrite size_empty; lia|set_solver|].
  intros E o. congruence.
Qed.

(** * Locators *)

Definition hash_at {DB} `{IStore DB} (db : DB) (height : Z) : option Uint256 :=
  let '(h, e) := GetBlockHash db height in if is_err e then None else Some h.

(** One turn: the distance doubles without overflow, because the height has
    already come down by as much. *)
Lemma locator_turn height increment len : 1 <= height -> 1 <= increment -> 1 <= len ->
  height + 2 * increment + Z.min len 11 <= 2 ^ 31 + 2 ->
  let increment' := if 10 <? len then int32 (increment * 2) else increment in
  1 <= increment' /\ int32 (height - increment') = height - increment' /\
  forall len', len <= len' <= len + 1 -> (height - increment') + 2 * increment' + Z.min len' 11 <= 2 ^ 31 + 2.
Proof.
  intros Hh Hi Hl Hinv. cbn zeta. destruct (Z.ltb_spec 10 len).
  - rewrite (wrapS_id 32 (increment * 2)) by lia. split_and!; [lia|apply wrapS_id; lia|lia].
  - split_and!; [lia|apply wrapS_id; lia|lia].
Qed.

Lemma locator_loop_spec {DB} `{IStore DB} (db : DB) fuel : forall locator height increment,
  1 <= height -> 1 <= increment -> (1 <= length locator <= 499)%nat -> (Z.to_nat height <= fuel)%nat ->
  height + 2 * increment + Z.min (Z.of_nat (length locator)) 11 <= 2 ^ 31 + 2 ->
  exists hs, locator_loop fuel db locator height increment = Some (locator ++ omap (hash_at db) hs) /\
    StronglySorted Z.gt hs /\ Forall (fun x => 1 <= x < height) hs /\ (length (locator ++ omap (hash_at db) hs) <= 499)%nat.
Proof.
  induction fuel as [|fuel IH]; intros locator height increment Hh Hi Hl Hf Hinv; [lia|]. cbn [locator_loop].
  destruct (negb _) eqn:En.
  { exists []. cbn. rewrite app_nil_r. split_and!; [done|constructor|constructor|lia]. }
  apply negb_false_iff, Z.ltb_lt in En. unfold MaxBlockLocatorsPerMsg in En.
  destruct (locator_turn height increment (Z.of_nat (length locator)) Hh Hi ltac:(lia) Hinv) as (Hi' & E & Hinv').
  set (increment' := if 10 <? _ then _ else _) in *. rewrite E.
  destruct (Z.ltb_spec (height - increment') 1) as [Hlow|Hge].
  { exists []. cbn. rewrite app_nil_r. split_and!; [done|constructor|constructor|lia]. }
  rewrite (wrapU_id 32) by lia.
  assert (Eh : hash_at db (height - increment') = let '(h, e) := GetBlockHash db (height - increment') in if is_err e then None else Some h) by done.
  destruct (GetBlockHash db (height - increment')) as [h e].
  destruct (IH (if is_err e then locator else locator ++ [h]) (height - increment') increment') as (hs & El & Hs & Hb & Hlen); [lia|done| |lia| |].
  { destruct (is_err e); rewrite ?length_app; cbn [length]; lia. }
  { apply Hinv'. destruct (is_err e); rewrite ?length_app; cbn [length]; lia. }
  exists ((height - increment') :: hs). rewrite El. cbn [omap list_omap]. rewrite Eh.
  split_and!; [|constructor; [done|]|constructor; [lia|]|].
  - destruct (is_err e); [done|]. by rewrite <- app_assoc.
  - eapply list.Forall_impl; [exact Hb|]. cbn. lia.
  - eapply list.Forall_impl; [exact Hb|]. cbn. lia.
  - destruct (is_err e); [done|]. rewrite <- app_assoc in Hlen. exact Hlen.
Qed.

(** a locator for a block in memory is its hash, then the hashes the store has at strictly decreasing heights below
    it, then the genesis hash, at most 500 of them; building it ends, its arithmetic in 32 bits does not overflow, and it
    changes nothing. *)
Theorem block_locator {DB} `{IStore DB} (bc : Blockchain DB) hash p n :
  CompareTo hash (GenesisHash bc) <> 0 -> Index bc !! hash = Some p -> nodes bc !! p = Some n -> 0 <= n_Height n < 2 ^ 31 ->
  exists hs, blockLocatorFromHash hash bc = Ok (bc, inl (hash :: omap (hash_at (cs_db (bc_Store bc))) hs ++ [GenesisHash bc])) /\
    StronglySorted Z.gt hs /\ Forall (fun x => 1 <= x < n_Height n) hs /\
    Z.of_nat (length (hash :: omap (hash_at (cs_db (bc_Store bc))) hs ++ [GenesisHash bc])) <= MaxBlockLocatorsPerMsg.
Proof.
  intros Hg Hi Hn Hh. unfold blockLocatorFromHash. rewrite bind_gets. destruct (Z.eqb_spec (CompareTo hash (GenesisHash bc)) 0); [done|].
  rewrite bind_gets, bind_lookup, Hi, bind_assoc, bind_node_at, Hn, bind_mret. rewrite (wrapS_id 32) by lia.
  destruct (Z.eq_dec (n_Height n) 0) as [E0|].
  - rewrite E0. exists []. split_and!; [reflexivity|constructor|constructor|done].
  - destruct (locator_loop_spec (cs_db (bc_Store bc)) (S (Z.to_nat (n_Height n))) [hash] (n_Height n) 1)
      as (hs & -> & Hs & Hb & Hl); [lia|lia|cbn; lia|lia|cbn; lia|].
    exists hs. rewrite bind_mret. split_and!; [done|done|done|].
    cbn [length app] in Hl |- *. rewrite length_app. cbn [length]. unfold MaxBlockLocatorsPerMsg. lia.
Qed.
Lemma block_locator_witness :
  exists hs, blockLocatorFromHash (repeat 11 32) small_main =
    Ok (small_main, inl (repeat 11 32 :: omap (hash_at (cs_db (bc_Store small_main))) hs ++ [zero256])).
Proof.
  edestruct (block_locator small_main (repeat 11 32) 3%positive) as (hs & E & _);
    [vm_compute; discriminate|vm_compute; reflexivity|vm_compute; reflexivity|by_decision|].
  exists hs. exact E.
Defined.
