(* ===== verification/Ledger.v ===== *)
(** Start-up and queries: [InitLedgerStoreWithGenesisBlock], the iterating
    queries of [core/store/ChainStore], [NewBlockchainWithGenesisBlock] and the
    entry points of [core/ledger/blockchain.go] and [core/ledger/ledger.go].

    Queries that scan the database need an iterator, a second class with the
    documented behaviour of LevelDB: the entries whose key has a prefix, each
    once, in the order of the keys. *)

From S2P Require Import Prelude Sha256 Serialization Common Fixed64 Transaction Merkle AuxPow Block.
From S2P Require Import Store Utxo Difficulty MedianTime Vm Address Contract Validator.
From S2P Require Import Blockchain BlockTree BestChain ChainSelection.

(** * Iterators *)

Class IIterator (DB : Type) := db_Iter : DB -> bytes -> list (bytes * bytes).
Class IIteratorLaws (DB : Type) `{IStore DB} `{IIterator DB} := {
  iter_entry : forall (db : DB) prefix k v, (k, v) ∈ db_Iter db prefix <-> db_Get db k = Some v /\ prefix `prefix_of` k;
  iter_once : forall (db : DB) prefix, NoDup (map fst (db_Iter db prefix)) }.

Fixpoint bytes_le (a b : bytes) : bool :=
  match a, b with
  | [], _ => true
  | _ :: _, [] => false
  | x :: a, y :: b => if x =? y then bytes_le a b else x <? y
  end.
#[export] Instance map_iterator : IIterator (gmap bytes bytes) := fun m prefix =>
  sort_by (fun a b => bytes_le a.1 b.1) (filter (fun e => prefix `prefix_of` e.1) (map_to_list m)).

Definition CFG_Version : Z := 0xf0.

Section Ledger.
Context {DB : Type} `{IStore DB} `{IIterator DB} (cfg : Config).

(** * ChainStore.go: scanning queries *)

Definition read_unspents (value : bytes) (acc : list UTXOUnspent) : option (list UTXOUnspent * err) :=
  '((listNum, e), r) ← ReadVarUint 0 (mkReader BytesReader value);
  if is_err e then Some ([], e) else
  '((l, e), _) ← read_loop (Z.to_nat (int64 listNum)) (UTXOUnspent_Deserialize new_Unspent) [] r;
  if is_err e then Some ([], e) else Some (acc ++ l, None).

Fixpoint scan_unspents (entries : list (bytes * bytes)) (unspents : list UTXOUnspent) : option (list UTXOUnspent * err) :=
  match entries with
  | [] => Some (unspents, None)
  | (_, value) :: entries =>
      '(unspents, e) ← read_unspents value unspents;
      if is_err e then Some ([], e) else scan_unspents entries unspents
  end.
Definition GetUnspentFromProgramHash (db : DB) (programHash : Uint160) (assetid : Uint256) : option (list UTXOUnspent * err) :=
  scan_unspents (db_Iter db (IX_Unspent_UTXO :: programHash ++ assetid)) [].

(** The asset of a key, after the prefix and the program hash; a short key
    gives zeros. *)
Definition key_asset (key : bytes) : option Uint256 :=
  '((_, _), rk) ← ReadBytes 1 (mkReader BytesReader key);
  '((_, _), rk) ← Uint160_Deserialize zero160 rk;
  '((assetid, _), _) ← Uint256_Deserialize zero256 rk;
  Some assetid.
(** [make] of the announced number of pointers panics beyond the address space. *)
Fixpoint scan_assets (entries : list (bytes * bytes)) (m : gmap Uint256 (list UTXOUnspent)) :
    option (gmap Uint256 (list UTXOUnspent) * err) :=
  match entries with
  | [] => Some (m, None)
  | (key, value) :: entries =>
      assetid ← key_asset key;
      '((listNum, e), r) ← ReadVarUint 0 (mkReader BytesReader value);
      if is_err e then Some (∅, e) else
      if negb (make_ok 8 listNum) then None else
      '((l, e), _) ← read_loop (Z.to_nat listNum) (UTXOUnspent_Deserialize new_Unspent) [] r;
      if is_err e then Some (∅, e) else
      scan_assets entries (<[assetid := default [] (m !! assetid) ++ l]> m)
  end.
Definition GetUnspentsFromProgramHash (db : DB) (programHash : Uint160) : option (gmap Uint256 (list UTXOUnspent) * err) :=
  scan_assets (db_Iter db (IX_Unspent_UTXO :: programHash)) ∅.

Fixpoint scan_infos (entries : list (bytes * bytes)) (assets : gmap Uint256 Asset) : option (gmap Uint256 Asset) :=
  match entries with
  | [] => Some assets
  | (key, value) :: entries =>
      '((_, _), rk) ← ReadBytes 1 (mkReader BytesReader key);
      '((assetid, _), _) ← Uint256_Deserialize zero256 rk;
      '((asset, _), _) ← Asset_Deserialize new_Asset (mkReader BytesReader value);
      scan_infos entries (<[assetid := asset]> assets)
  end.
Definition GetAssets (db : DB) : option (gmap Uint256 Asset) := scan_infos (db_Iter db [ST_Info]) ∅.

(** * Start-up *)

Definition set_GenesisHash (h : Uint256) (bc : Blockchain DB) : Blockchain DB :=
  mkBC (BlockHeight bc) h (BestChain bc) (Root bc) (Index bc) (DepNodes bc) (Orphans bc) (PrevOrphans bc) (OldestOrphan bc)
    (BlockCache bc) (TimeSource bc) (MedianTimePast bc) (nodes bc) (bc_Store bc).
Definition set_db (db : DB) (bc : Blockchain DB) : Blockchain DB :=
  set_bc_Store (with_db (bc_Store bc) db (currentBlockHeight (bc_Store bc))) bc.
Definition set_store_height (height : Z) (bc : Blockchain DB) : Blockchain DB :=
  set_bc_Store (with_db (bc_Store bc) (cs_db (bc_Store bc)) height) bc.

(** The first start: everything is deleted, the genesis block and the version
    are written. *)
Definition wipe (db : DB) : DB := db_Write db (map (fun e => BatchDelete e.1) (db_Iter db [])).
Definition write_genesis (genesisBlock : Block) (db : DB) : option DB :=
  db ← persist (wipe db) genesisBlock;
  Some (db_Write db [BatchPut [CFG_Version] [1]]).

(** The nodes of the heights from [start] on. *)
Fixpoint load_nodes (n : nat) (start : Z) : bcM (DB := DB) unit :=
  match n with
  | O => mret tt
  | S n =>
      cs ← gets bc_Store;
      let '(hash, e) := GetBlockHash (cs_db cs) start in
      _ ← fail_on e;
      '(header, e) ← must (GetHeader (cs_db cs) hash);
      _ ← fail_on e;
      header ← must header;
      node ← LoadBlockNode header hash;
      _ ← modify (set_BestChain (Some node));
      load_nodes n (start + 1)
  end.

(** [version[0]] of an empty value panics. *)
Definition InitLedgerStoreWithGenesisBlock (genesisBlock : Block) : bcM (DB := DB) Z :=
  cs ← gets bc_Store;
  version ← must (head (default [0] (db_Get (cs_db cs) [CFG_Version])));
  _ ← (if version =? 0 then db ← must (write_genesis genesisBlock (cs_db cs)); modify (set_db db) else mret tt);
  cs ← gets bc_Store;
  let hash := Block_Hash genesisBlock in
  stored ← must (IsBlockInStore (cs_db cs) (currentBlockHeight cs) hash);
  if negb stored then throw (NewError "genesis block is not consistent with the chain") else
  _ ← modify (set_GenesisHash hash);
  match db_Get (cs_db cs) [SYS_CurrentBlock] with
  | None => throw ErrDBNotFound
  | Some data =>
      '((_, _), r) ← must (Uint256_Deserialize zero256 (mkReader BytesReader data));
      '((endHeight, _), _) ← must (ReadUint32 r);
      _ ← modify (set_store_height endHeight);
      let m := MinMemoryNodes (cfg_ChainParam cfg) in
      let startHeight := if m <? endHeight then uint32 (endHeight - m) else 0 in
      _ ← load_nodes (Z.to_nat (endHeight - startHeight + 1)) startHeight;
      mret endHeight
  end.

(** [NewBlockchainWithGenesisBlock]: the asset of the chain is part of the
    configuration here. *)
Definition NewBlockchainWithGenesisBlock (cs : ChainStore DB) (foundationProgramHash : Uint160) (rand : Z) :
    outcome (Blockchain DB * (unit + error)) :=
  match GenesisBlockInit foundationProgramHash rand ≫= (fun '(b, _) => RebuildMerkleRoot b) with
  | None => Panic
  | Some (genesisBlock, _) =>
      let genesisBlock := mkBlock (blk_data genesisBlock) (Transactions genesisBlock) (Some (Block_Hash genesisBlock)) in
      (height ← InitLedgerStoreWithGenesisBlock genesisBlock; modify (set_BlockHeight height)) (NewBlockchain 0 cs)
  end.

(** * Entry points *)

Definition GetBestHeight (bc : Blockchain DB) : Z := BlockHeight bc.
Definition UpdateBestHeight (val : Z) (bc : Blockchain DB) : Blockchain DB := set_BlockHeight val bc.
(** The flags that tell [AddBlock] and [AddBlockFast] apart are not used. *)
Definition AddBlock `{ICrypto} (ripemd160 : bytes -> bytes) (now : Z) (block : Block) : bcM (DB := DB) (bool * bool) :=
  ProcessBlock cfg ripemd160 now block.
Definition AddBlockFast `{ICrypto} (ripemd160 : bytes -> bytes) (now : Z) (block : Block) : bcM (DB := DB) (bool * bool) :=
  ProcessBlock cfg ripemd160 now block.
Definition ContainsTransaction (bc : Blockchain DB) (hash : Uint256) : option bool :=
  '(_, _, e) ← store_GetTransaction (cs_db (bc_Store bc)) hash; Some (negb (is_err e)).
Definition CurrentBlockHash (bc : Blockchain DB) : Uint256 := GetCurrentBlockHash (bc_Store bc).

(** The queries of [ledger.go] wrap the errors of the store. *)
Definition GetBlockWithHeight (bc : Blockchain DB) (height : Z) : option (option Block * err) :=
  let '(temp, e) := GetBlockHash (cs_db (bc_Store bc)) height in
  if is_err e then Some (None, Some (NewError "[Ledger],GetBlockWithHeight failed with height=")) else
  '(bk, e) ← GetBlock (cs_db (bc_Store bc)) temp;
  if is_err e then Some (None, Some (NewError "[Ledger],GetBlockWithHeight failed with hash=")) else Some (bk, None).
Definition GetBlockWithHash (bc : Blockchain DB) (hash : Uint256) : option (option Block * err) :=
  '(bk, e) ← GetBlock (cs_db (bc_Store bc)) hash;
  if is_err e then Some (None, Some (NewError "[Ledger],GetBlockWithHeight failed with hash=")) else Some (bk, None).
Definition BlockInLedger (bc : Blockchain DB) (hash : Uint256) : option bool :=
  IsBlockInStore (cs_db (bc_Store bc)) (currentBlockHeight (bc_Store bc)) hash.
Definition GetTransactionWithHash (bc : Blockchain DB) (hash : Uint256) : option (option Transaction * err) :=
  '(t, _, e) ← store_GetTransaction (cs_db (bc_Store bc)) hash;
  if is_err e then Some (None, Some (NewError "[Ledger],GetTransactionWithHash failed with hash=")) else Some (t, None).
Definition GetLocalBlockChainHeight (bc : Blockchain DB) : Z := GetBestHeight bc.
End Ledger.
