(* ===== verification/Startup.v ===== *)
(** Start-up: the nodes loaded from the store are the end of the stored chain,
    so that the state after a start is one chain selection is correct on; and
    what the scanning queries return. *)

From S2P Require Import Prelude Sha256 Serialization Common Fixed64 Transaction Merkle AuxPow Block.
From S2P Require Import Store Utxo Difficulty MedianTime Vm Address Contract Validator.
From S2P Require Import Blockchain BlockTree BestChain ChainSelection Ledger.

(** * Loading one header *)

Section Load.
Context {DB : Type} `{IStore DB}.
Implicit Types bc : Blockchain DB.

(** The fields loading does not touch. *)
Definition rest_same bc bc' : Prop :=
  bc_Store bc' = bc_Store bc /\ GenesisHash bc' = GenesisHash bc /\ MedianTimePast bc' = MedianTimePast bc /\
  Orphans bc' = Orphans bc /\ PrevOrphans bc' = PrevOrphans bc /\ BlockCache bc' = BlockCache bc.

Lemma main_ok_dep bc d : main_ok bc -> (forall h ps p, d !! h = Some ps -> p ∈ ps -> is_Some (nodes bc !! p)) ->
  main_ok (set_DepNodes d bc).
Proof. intros Hm Hd. eapply main_ok_ext; [exact Hm|done..|]. destruct (mo_tree bc Hm). by split. Qed.

Lemma LoadBlockNode_extends bc header hash q m :
  main_ok bc -> BestChain bc = Some q -> nodes bc !! q = Some m -> n_Hash m = PrevBlockHash header ->
  Index bc !! hash = None -> wf_u256 hash ->
  exists p bc', LoadBlockNode header hash bc = Ok (bc', inl p) /\ main_ok (set_BestChain (Some p) bc') /\
    (most_work bc -> most_work (set_BestChain (Some p) bc')) /\
    best_chain (set_BestChain (Some p) bc') = p :: best_chain bc /\
    (exists n, nodes bc' !! p = Some n /\ n_Hash n = hash /\ n_WorkSum n = n_WorkSum m + CalcWork (bd_Bits header)) /\
    same_work (nodes bc) (nodes bc') /\ Index bc' = <[hash := p]> (Index bc) /\ rest_same bc bc'.
Proof.
  intros Hm Hb Hq Eh Hi Hw. set (p := fresh (dom (nodes bc))).
  assert (Hp : nodes bc !! p = None) by (apply not_elem_of_dom, is_fresh).
  assert (Hne : q <> p) by (intros ->; congruence).
  assert (Hiq : Index bc !! n_Hash m = Some q).
  { destruct (best_chain_cons bc q Hm Hb) as [l El]. destruct (mo_chain bc Hm q) as [(m' & Hm' & Hi') _]; [rewrite El; left|]. by simplify_eq. }
  set (n0 := set_Parent (Some q) (set_WorkSum (n_WorkSum m + CalcWork (bd_Bits header)) (NewBlockNode header hash))).
  set (n := set_InMainChain true n0).
  set (bc' := set_DepNodes (<[PrevBlockHash header := default [] (DepNodes bc !! PrevBlockHash header) ++ [p]]> (DepNodes bc))
    (set_Index (<[hash := p]> (Index bc)) (set_nodes (<[q := add_child p m]> (<[p := n]> (nodes bc))) bc))).
  assert (E : LoadBlockNode header hash bc = Ok (bc', inl p)).
  { unfold LoadBlockNode. rewrite bind_lookup, !bind_gets, <- Eh, Hiq, bind_assoc, bind_node_at, Hq, bind_assoc, bind_new_node. fold p.
    rewrite bind_assoc, bind_update. cbn [nodes set_nodes]. rewrite lookup_insert_ne, Hq, bind_mret by done.
    rewrite bind_index. cbn [nodes set_nodes]. rewrite lookup_insert_ne, lookup_insert_eq by done.
    rewrite bind_add_dep. unfold bc'. rewrite Eh. reflexivity. }
  pose proof (LoadBlockNode_keeps ∅ header hash bc bc' _ (mo_tree bc Hm) E) as Wl. cbn in Wl.
  assert (Wf : wf_tree ∅ (set_BestChain (Some p) bc')).
  { assert (Sp : is_Some (nodes bc' !! p)) by (apply (wt_extra _ _ Wl); set_solver).
    apply wf_tree_drop in Wl as []. split; cbn in *; eauto. by intros x [= <-]. }
  destruct (main_ok_new bc p n0 Hm Hp Hw eq_refl) as (Hm0 & Hc0 & Hi0); [intros x [= <-]; eauto|].
  set (bc0 := set_nodes (<[p := n0]> (nodes bc)) bc) in *.
  assert (Hn0 : nodes bc0 !! p = Some n0) by (cbn; by rewrite lookup_insert_eq).
  assert (Hq0 : nodes bc0 !! q = Some m) by (cbn; by rewrite lookup_insert_ne).
  pose (bcA := set_nodes (<[q := add_child p m]> (nodes bc0)) (set_Index (<[hash := p]> (Index bc0)) bc0)).
  assert (WA : wf_tree ∅ bcA).
  { assert (Wi : wf_tree ∅ (set_Index (<[n_Hash n0 := p]> (Index bc0)) bc0)).
    { eapply (keeps_index ∅ p bc0); [by apply mo_tree|]. unfold AddNodeToIndex. rewrite bind_node_at. by rewrite Hn0. }
    exact (wf_tree_new_child ∅ n0 _ q m p Wi Hn0 eq_refl Hq0). }
  assert (Free : forall x nx, nodes bc0 !! x = Some nx -> p ∉ n_Children nx).
  { intros x nx Hx Hin. destruct (decide (x = p)) as [->|Hxp]; [rewrite Hn0 in Hx; injection Hx as <-; by apply elem_of_nil in Hin|].
    cbn in Hx. rewrite lookup_insert_ne in Hx by done. destruct (wt_forest _ _ (mo_tree bc Hm)) as [rank R].
    destruct (R x nx Hx) as [_ Rc]. destruct (Rc p Hin) as [[? ?] _]. congruence. }
  destruct (main_ok_side bc0 bcA p n0 q m) as (HmA & HcA & HiA & HxA); try done.
  assert (HnA : nodes bcA !! p = Some n0) by (unfold bcA; cbn; by rewrite lookup_insert_ne, lookup_insert_eq).
  assert (Hnot : p ∉ best_chain bcA).
  { rewrite HcA, Hc0. intros Hin. apply (mo_chain bc Hm) in Hin as [(n' & Hn' & _) _]. congruence. }
  assert (En : nodes bc' = <[p := n]> (nodes bcA)).
  { unfold bc', bcA. cbn. by rewrite (insert_insert_ne _ p q), insert_insert_eq by done. }
  assert (EiA : Index bc' = <[n_Hash n0 := p]> (Index bcA)).
  { change (<[hash := p]> (Index bc) = <[hash := p]> (<[hash := p]> (Index bc))). by rewrite insert_insert_eq. }
  destruct (main_ok_connect bcA (set_BestChain (Some p) bc') p n0 HmA HiA HnA) as [Hm' Hc'];
    [cbn; by rewrite Hb|done|exact En|exact EiA|done|done|].
  exists p, bc'.
  assert (Sw : same_work (nodes bc) (nodes bc')).
  { intros x nx Hx. cbn. destruct (decide (q = x)) as [<-|]; [rewrite lookup_insert_eq; simplify_eq; by eexists|].
    rewrite lookup_insert_ne, lookup_insert_ne by (done || intros ->; congruence). eauto. }
  split_and!; [done|done| |by rewrite Hc', HcA, Hc0| |done|done|done].
  - intros Hmw x nx bp bn Hx Hnx Hbp Hbn. cbn in Hbp. injection Hbp as <-.
    assert (Hbn' : bn = n) by (cbn in Hbn; rewrite lookup_insert_ne, lookup_insert_eq in Hbn by done; by injection Hbn).
    subst bn. cbn [n_WorkSum n n0 set_InMainChain set_Parent set_WorkSum].
    pose proof (CalcWork_nonneg (bd_Bits header)).
    apply (indexed_mark bcA _ p n0 true x HnA) in Hx; [|exact En|done].
    destruct (HxA x Hx) as [->|Hx0].
    { cbn in Hnx. rewrite lookup_insert_ne, lookup_insert_eq in Hnx by done. injection Hnx as <-. cbn. lia. }
    apply Hi0 in Hx0. pose proof Hx0 as (n1 & Hn1 & _). destruct (Sw x n1 Hn1) as (n2 & Hn2 & W2 & _). cbn in Hnx.
    assert (nx = n2) as -> by (cbn in Hn2; congruence). pose proof (Hmw x n1 q m Hx0 Hn1 Hb Hq). lia.
  - exists n. cbn. rewrite lookup_insert_ne, lookup_insert_eq by done. done.
Qed.

(** * Loading the stored chain *)

(** The hashes and headers the store has from height [h] on; each header
    names the block before it. *)
Fixpoint stored_from (db : DB) (h : Z) (l : list (Uint256 * Blockdata)) : Prop :=
  match l with
  | [] => True
  | (hash, header) :: l' =>
      GetBlockHash db h = (hash, None) /\ GetHeader db hash = Some (Some header, None) /\ wf_u256 hash /\
      match l' with (_, next) :: _ => PrevBlockHash next = hash | [] => True end /\ stored_from db (h + 1) l'
  end.
Definition sum_work (l : list (Uint256 * Blockdata)) : Z := foldr (fun e a => CalcWork (bd_Bits e.2) + a) 0 l.
(** The hashes along a chain. *)
Definition hashes_of (h : heap) (ps : list positive) : list Uint256 := omap (fun p => n_Hash <$> h !! p) ps.

Lemma hashes_same_work h h' ps : same_work h h' -> Forall (fun p => is_Some (h !! p)) ps -> hashes_of h' ps = hashes_of h ps.
Proof.
  intros Sw F. induction F as [|p ps [n Hn] _ IH]; [done|]. cbn. destruct (Sw p n Hn) as (n' & Hn' & _ & Eh).
  rewrite Hn, Hn'. cbn. rewrite Eh. by f_equal.
Qed.
Lemma rest_same_trans bc1 bc2 bc3 : rest_same bc1 bc2 -> rest_same bc2 bc3 -> rest_same bc1 bc3.
Proof. intros (? & ? & ? & ? & ? & ?) (? & ? & ? & ? & ? & ?). repeat split; congruence. Qed.

(** One turn of the loop. *)
Lemma load_nodes_turn n start bc hash header : GetBlockHash (cs_db (bc_Store bc)) start = (hash, None) ->
  GetHeader (cs_db (bc_Store bc)) hash = Some (Some header, None) ->
  load_nodes (S n) start bc =
    (node ← LoadBlockNode header hash; _ ← modify (set_BestChain (Some node)); load_nodes n (start + 1)) bc.
Proof.
  intros E1 E2. cbn [load_nodes]. rewrite bind_gets, E1. unfold fail_on. rewrite bind_mret, bind_must, E2, bind_mret, bind_must. done.
Qed.

Lemma load_nodes_more l : forall bc h q m, main_ok bc -> most_work bc -> BestChain bc = Some q -> nodes bc !! q = Some m ->
  stored_from (cs_db (bc_Store bc)) h l -> match l with (_, next) :: _ => PrevBlockHash next = n_Hash m | [] => True end ->
  NoDup (map fst l) -> (forall x, x ∈ map fst l -> Index bc !! x = None) ->
  exists bc' q' m', load_nodes (length l) h bc = Ok (bc', inl tt) /\ main_ok bc' /\ most_work bc' /\
    hashes_of (nodes bc') (best_chain bc') = reverse (map fst l) ++ hashes_of (nodes bc) (best_chain bc) /\
    BestChain bc' = Some q' /\ nodes bc' !! q' = Some m' /\ n_WorkSum m' = n_WorkSum m + sum_work l /\ rest_same bc bc'.
Proof.
  induction l as [|[hash header] l IH]; intros bc h q m Hm Hmw Hb Hq Hs Hprev Hnd Hnew.
  { exists bc, q, m. cbn. split_and!; try done. lia. }
  cbn [stored_from] in Hs. destruct Hs as (Eg & Eh & Hw & Hnext & Hs). cbn [map fst] in *. inversion Hnd as [|? ? Hnot Hnd']; subst.
  destruct (LoadBlockNode_extends bc header hash q m Hm Hb Hq (eq_sym Hprev) (Hnew hash ltac:(left)) Hw)
    as (p & bc1 & El & Hm1 & Hmw1 & Hc1 & (n & Hn & Hnh & Hnw) & Sw & Ei & Rs).
  destruct (IH (set_BestChain (Some p) bc1) (h + 1) p n) as (bc' & q' & m' & E' & Hm' & Hmw' & Hh' & Hb' & Hq' & Hw' & Rs'); try done.
  - by apply Hmw1.
  - cbn. destruct Rs as (-> & _). exact Hs.
  - destruct l as [|[h2 hd2] l]; [done|]. by rewrite Hnext.
  - intros x Hx. cbn. rewrite Ei, lookup_insert_ne; [apply Hnew; by right|]. intros ->. by apply Hnot.
  - exists bc', q', m'. split_and!; try done.
    + cbn [length]. rewrite (load_nodes_turn _ _ _ _ _ Eg Eh), (bind_Ok _ _ _ _ _ El), bind_modify. exact E'.
    + rewrite Hh', Hc1, reverse_cons, <- app_assoc. f_equal. cbn. rewrite Hn. cbn. rewrite Hnh. f_equal.
      apply hashes_same_work; [exact Sw|]. eapply path_dom, best_path, Hm.
    + cbn [sum_work foldr snd]. fold (sum_work l). lia.
    + eapply rest_same_trans; [exact Rs|exact Rs'].
Qed.

Lemma load_first bc header hash : nodes bc = ∅ -> Index bc = ∅ -> DepNodes bc = ∅ -> Root bc = None -> wf_u256 hash ->
  exists p bc' n, LoadBlockNode header hash bc = Ok (bc', inl p) /\ main_ok (set_BestChain (Some p) bc') /\
    most_work (set_BestChain (Some p) bc') /\ best_chain (set_BestChain (Some p) bc') = [p] /\
    nodes bc' !! p = Some n /\ n_Hash n = hash /\ n_WorkSum n = CalcWork (bd_Bits header) /\
    Index bc' = {[hash := p]} /\ rest_same bc bc'.
Proof.
  intros En Ei Ed Er Hw. set (p := fresh (dom (nodes bc))). set (n := set_InMainChain true (NewBlockNode header hash)).
  set (bc' := set_DepNodes {[PrevBlockHash header := [p]]} (set_Index {[hash := p]} (set_Root (Some p) (set_nodes {[p := n]} bc)))).
  assert (E : LoadBlockNode header hash bc = Ok (bc', inl p)).
  { unfold LoadBlockNode. rewrite bind_lookup, !bind_gets, Ei, Ed, Er, !lookup_empty, bind_assoc, bind_new_node. fold p.
    rewrite bind_assoc, bind_modify, bind_mret, bind_index. cbn [nodes set_Root set_nodes]. rewrite lookup_insert_eq, bind_add_dep.
    unfold bc'. rewrite En, insert_empty. cbn. by rewrite Ed, Ei, lookup_empty, insert_empty, insert_empty. }
  assert (Hn : nodes bc' !! p = Some n) by (cbn; apply lookup_singleton_eq).
  destruct (one_block_ok (set_BestChain (Some p) bc') p n) as [Hm Hmw]; try done.
  exists p, bc', n. split_and!; try done.
  apply best_chain_eq; [apply Hm|]. cbn. econstructor; [apply lookup_singleton_eq|]. constructor.
Qed.

(** From the start: the chain of memory becomes the stored one. *)
Lemma load_nodes_all l bc h : nodes bc = ∅ -> Index bc = ∅ -> DepNodes bc = ∅ -> Root bc = None ->
  stored_from (cs_db (bc_Store bc)) h l -> NoDup (map fst l) -> l <> [] ->
  exists bc' q' m', load_nodes (length l) h bc = Ok (bc', inl tt) /\ main_ok bc' /\ most_work bc' /\
    hashes_of (nodes bc') (best_chain bc') = reverse (map fst l) /\
    BestChain bc' = Some q' /\ nodes bc' !! q' = Some m' /\ n_WorkSum m' = sum_work l /\ rest_same bc bc'.
Proof.
  intros En Ei Ed Er Hs Hnd Hne. destruct l as [|[hash header] l]; [done|].
  cbn [stored_from] in Hs. destruct Hs as (Eg & Eh & Hw & Hnext & Hs). cbn [map fst] in *. inversion Hnd as [|? ? Hnot Hnd']; subst.
  destruct (load_first bc header hash En Ei Ed Er Hw) as (p & bc1 & n & El & Hm1 & Hmw1 & Hc1 & Hn & Hnh & Hnw & Ei1 & Rs).
  destruct (load_nodes_more l (set_BestChain (Some p) bc1) (h + 1) p n) as (bc' & q' & m' & E' & Hm' & Hmw' & Hh' & Hb' & Hq' & Hw' & Rs'); try done.
  - cbn. destruct Rs as (-> & _). exact Hs.
  - destruct l as [|[h2 hd2] l]; [done|]. by rewrite Hnext.
  - intros x Hx. cbn. rewrite Ei1, lookup_singleton_ne; [done|]. intros ->. by apply Hnot.
  - exists bc', q', m'. split_and!; try done.
    + cbn [length]. rewrite (load_nodes_turn _ _ _ _ _ Eg Eh), (bind_Ok _ _ _ _ _ El), bind_modify. exact E'.
    + rewrite Hh', Hc1, reverse_cons. cbn. rewrite Hn. cbn. by rewrite Hnh.
    + cbn [sum_work foldr snd]. fold (sum_work l). lia.
    + eapply rest_same_trans; [exact Rs|exact Rs'].
Qed.
End Load.

(** * The start *)

Section Start.
Context {DB : Type} `{IStore DB} `{IIterator DB} (cfg : Config).

(** What a store that was used before holds: its version, the genesis block and
    a chain of blocks up to the current one.  [l] are the hashes and headers
    from the first height that is loaded. *)
Record stored_chain (cs : ChainStore DB) (genesis tip : Uint256) (height : Z) (l : list (Uint256 * Blockdata)) : Prop := {
  sc_version : exists v rest, db_Get (cs_db cs) [CFG_Version] = Some (v :: rest) /\ v <> 0;
  sc_genesis : IsBlockInStore (cs_db cs) (currentBlockHeight cs) genesis = Some true;
  sc_current : db_Get (cs_db cs) [SYS_CurrentBlock] = Some (Uint_Serialize tip ++ WriteUint32 height);
  sc_tip : wf_u256 tip;
  sc_height : 0 <= height < 2 ^ 32;
  sc_headers : stored_from (cs_db cs) (height - Z.of_nat (length l) + 1) l;
  sc_distinct : NoDup (map fst l);
  sc_loaded : 0 <= MinMemoryNodes (cfg_ChainParam cfg) /\ Z.of_nat (length l) = Z.min (height + 1) (MinMemoryNodes (cfg_ChainParam cfg) + 1) }.

(** C25: Starting on a used store rebuilds the end of the stored chain in memory: it
    is the best chain, in order, with its summed work and nothing else, so chain
    selection starts in a state with the most work.  The median time of the past
    blocks is not restored. *)
Theorem restart_reloads_chain (cs : ChainStore DB) genesisBlock tip height l :
  stored_chain cs (Block_Hash genesisBlock) tip height l ->
  exists bc' q m, InitLedgerStoreWithGenesisBlock cfg genesisBlock (NewBlockchain 0 cs) = Ok (bc', inl height) /\
    main_ok bc' /\ most_work bc' /\ hashes_of (nodes bc') (best_chain bc') = reverse (map fst l) /\
    BestChain bc' = Some q /\ nodes bc' !! q = Some m /\ n_WorkSum m = sum_work l /\
    GenesisHash bc' = Block_Hash genesisBlock /\ currentBlockHeight (bc_Store bc') = height /\
    MedianTimePast bc' = MedianTimePast (NewBlockchain 0 cs).
Proof.
  intros [(v & vs & Ev & Hv) Eg Ec Ht Hh Hs Hnd [Hmin Hlen]]. unfold InitLedgerStoreWithGenesisBlock.
  rewrite bind_gets. cbn [bc_Store NewBlockchain]. rewrite Ev, bind_must. cbn [hd_error default from_option id].
  rewrite (proj2 (Z.eqb_neq _ _) Hv), bind_mret, bind_gets. cbn [bc_Store NewBlockchain]. rewrite bind_must, Eg. cbn [negb].
  rewrite bind_modify, Ec, bind_must.
  pose proof (Uint256_Deserialize_reads zero256 tip Ht BytesReader (WriteUint32 height) I) as Rt. rewrite Rt.
  pose proof (ReadUint32_reads height ltac:(lia) BytesReader [] I) as Rh. rewrite app_nil_r in Rh. rewrite bind_must, Rh, bind_modify.
  assert (Estart : (if MinMemoryNodes (cfg_ChainParam cfg) <? height then uint32 (height - MinMemoryNodes (cfg_ChainParam cfg)) else 0)
    = height - Z.of_nat (length l) + 1).
  { destruct (Z.ltb_spec (MinMemoryNodes (cfg_ChainParam cfg)) height); [rewrite wrapU_id by lia|]; lia. }
  rewrite Estart. replace (Z.to_nat (height - (height - Z.of_nat (length l) + 1) + 1)) with (length l) by lia.
  set (bc1 := set_store_height _ _).
  destruct (load_nodes_all l bc1 (height - Z.of_nat (length l) + 1)) as (bc' & q & m & E & Hm & Hmw & Hhs & Hb & Hq & Hw & Rs); try done.
  { intros ->. cbn in Hlen. lia. }
  exists bc', q, m. rewrite (bind_Ok _ _ _ _ _ E). destruct Rs as (Es & Eg' & Em & _). split_and!; try done.
  by rewrite Es.
Qed.
End Start.

(** ** A store that was used before *)

Definition foundation : Uint160 := [63; 66; 230; 101; 201; 185; 188; 20; 203; 115; 201; 36; 181; 243; 128; 237; 11; 101; 50; 113].
Definition new_cs : ChainStore (gmap bytes bytes) := mkChainStore ∅ 0 [] ∅ ∅.
Definition started_with (cs : ChainStore (gmap bytes bytes)) (rand : Z) : outcome (Blockchain (gmap bytes bytes) * (unit + error)) :=
  NewBlockchainWithGenesisBlock reg_cfg cs foundation rand.
Definition genesis (rand : Z) : Block :=
  match GenesisBlockInit foundation rand ≫= (fun '(b, _) => RebuildMerkleRoot b) with
  | Some (b, _) => mkBlock (blk_data b) (Transactions b) (Some (Block_Hash b))
  | None => new_Block
  end.
Definition saved (b : Block) (cs : ChainStore (gmap bytes bytes)) : ChainStore (gmap bytes bytes) :=
  match handlePersistBlockTask cs b with Some (cs, _) => cs | None => cs end.
Definition next_block (prev : Uint256) (height : Z) : Block :=
  mkBlock (mkBlockdata 0 prev zero256 (1506816000 + height) 0x207fffff height height new_AuxPow) [small_coinbase height] None.
Definition block1 : Block := next_block (Block_Hash (genesis 1)) 1.
Definition block2 : Block := next_block (Block_Hash block1) 2.
(** The node was started, received two blocks and was stopped. *)
Definition used_cs : ChainStore (gmap bytes bytes) :=
  let cs := saved block2 (saved block1 (bc_Store (chain_of (started_with new_cs 1)))) in
  mkChainStore (cs_db cs) 0 [] ∅ ∅.
Definition used_chain : list (Uint256 * Blockdata) := map (fun b => (Block_Hash b, blk_data b)) [genesis 1; block1; block2].
Lemma used_cs_stored : stored_chain reg_cfg used_cs (Block_Hash (genesis 1)) (Block_Hash block2) 2 used_chain.
Proof.
  split.
  - exists 1, []. split; [vm_compute; reflexivity|lia].
  - vm_compute. reflexivity.
  - vm_compute. reflexivity.
  - by_decision.
  - lia.
  - cbn [stored_from used_chain map]. split_and!; try (vm_compute; reflexivity); try by_decision; exact I.
  - by_decision.
  - by_decision.
Qed.
Lemma restart_reloads_chain_witness :
  exists bc' q m, InitLedgerStoreWithGenesisBlock reg_cfg (genesis 1) (NewBlockchain 0 used_cs) = Ok (bc', inl 2) /\
    main_ok bc' /\ most_work bc' /\ BestChain bc' = Some q /\ nodes bc' !! q = Some m /\ n_WorkSum m = sum_work used_chain /\
    hashes_of (nodes bc') (best_chain bc') = reverse (map fst used_chain).
Proof.
  destruct (restart_reloads_chain reg_cfg used_cs (genesis 1) (Block_Hash block2) 2 used_chain used_cs_stored)
    as (bc' & q & m & E & H1 & H2 & H3 & H4 & H5 & H6 & _).
  exists bc', q, m. split; [exact E|]. split; [exact H1|]. split; [exact H2|]. split; [exact H4|]. split; [exact H5|].
  split; [exact H6|exact H3].
Defined.

(** The genesis block contains a random number, and nothing keeps it: a node
    that draws another number at its next start refuses its own store. *)
Theorem genesis_depends_on_random :
  exists bc bc' e, started_with new_cs 1 = Ok (bc, inl tt) /\ started_with (bc_Store bc) 1 <> Panic /\
    started_with (bc_Store bc) 2 = Ok (bc', inr e) /\ Block_Hash (genesis 1) <> Block_Hash (genesis 2).
Proof.
  edestruct (ends_with_inv (fun bc r => match r with inl _ => true | inr _ => false end && negb (match started_with (bc_Store bc) 1 with Panic => true | _ => false end) &&
      ends_with (fun _ r => match r with inr _ => true | inl _ => false end) (started_with (bc_Store bc) 2)) (started_with new_cs 1))
    as (bc & r & E & T); [vm_compute; reflexivity|].
  rewrite !andb_true_iff in T. destruct T as [[Er Ep] T]. destruct r as [[]|]; [|discriminate Er].
  apply ends_with_inv in T as (bc' & r & E' & Er'). destruct r as [|e]; [discriminate Er'|].
  exists bc, bc', e. split; [exact E|]. split; [|split; [exact E'|by_decision]].
  intros Ep'. rewrite Ep' in Ep. discriminate Ep.
Qed.

(** * Scanning *)

Section Scan.
Context {DB : Type} `{IStore DB} `{IIterator DB} `{!IIteratorLaws DB}.

Definition encode_unspents (l : list UTXOUnspent) : bytes :=
  WriteVarUint (Z.of_nat (length l)) ++ concat (map UTXOUnspent_Serialize l).
Definition wf_unspents (l : list UTXOUnspent) : Prop := Forall wf_Unspent l /\ Z.of_nat (length l) < 2 ^ 63.

Lemma read_unspents_encoded l acc : wf_unspents l -> read_unspents (encode_unspents l) acc = Some (acc ++ l, None).
Proof.
  intros [Hl Hn]. unfold read_unspents, encode_unspents.
  rewrite (ReadVarUint_reads (Z.of_nat (length l)) ltac:(lia) BytesReader _ I). cbn [mbind option_bind is_err]. rewrite wrapS_id, Nat2Z.id by lia.
  pose proof (read_loop_reads l [] Hl BytesReader [] I) as R. rewrite app_nil_r in R. cbn [app] in R.
  unfold WriteList in R. cbn in R |- *. rewrite R. done.
Qed.
Lemma scan_unspents_encoded es : forall acc, Forall (fun e => exists l, e.2 = encode_unspents l /\ wf_unspents l) es ->
  exists ls, scan_unspents es acc = Some (acc ++ concat ls, None) /\ Forall2 (fun e l => e.2 = encode_unspents l /\ wf_unspents l) es ls.
Proof.
  induction es as [|[k v] es IH]; intros acc Hes; [exists []; cbn; by rewrite app_nil_r|]. inversion Hes as [|? ? (l & Ev & Hl) Hes']; subst.
  cbn in Ev. subst v. cbn [scan_unspents]. rewrite read_unspents_encoded by done. cbn [mbind option_bind is_err].
  destruct (IH (acc ++ l) Hes') as (ls & -> & Hls). exists (l :: ls). cbn [concat]. rewrite app_assoc. split; [done|]. by constructor.
Qed.

(** The unspent outputs of an owner and an asset are those of all the entries the
    owner index has for them, each entry once. *)
Theorem owner_query (db : DB) programHash assetid :
  (forall k v, db_Get db k = Some v -> (IX_Unspent_UTXO :: programHash ++ assetid) `prefix_of` k ->
     exists l, v = encode_unspents l /\ wf_unspents l) ->
  exists unspents, GetUnspentFromProgramHash db programHash assetid = Some (unspents, None) /\
    forall u, u ∈ unspents <-> exists k l, db_Get db k = Some (encode_unspents l) /\ wf_unspents l /\
      (IX_Unspent_UTXO :: programHash ++ assetid) `prefix_of` k /\ u ∈ l.
Proof.
  intros Hwf. unfold GetUnspentFromProgramHash. set (prefix := IX_Unspent_UTXO :: programHash ++ assetid) in *.
  destruct (scan_unspents_encoded (db_Iter db prefix) []) as (ls & E & Hls).
  { apply list.Forall_forall. intros [k v] Hin. apply iter_entry in Hin as [Hg Hp]. by apply (Hwf k v). }
  exists (concat ls). split; [exact E|]. intros u. rewrite list_elem_of_In, in_concat. split.
  - intros (l & Hl & Hu). apply list_elem_of_In, list_elem_of_lookup in Hl as [i Hi].
    destruct (Forall2_lookup_r _ _ _ _ _ Hls Hi) as ([k v] & Hk & Ev & Hw). cbn in Ev. subst v.
    apply list_elem_of_lookup_2, iter_entry in Hk as [Hg Hp]. exists k, l. by rewrite list_elem_of_In.
  - intros (k & l & Hg & Hw & Hp & Hu). assert (Hin : (k, encode_unspents l) ∈ db_Iter db prefix) by (by apply iter_entry).
    apply list_elem_of_lookup in Hin as [i Hi]. destruct (Forall2_lookup_l _ _ _ _ _ Hls Hi) as (l' & Hl' & Ev & Hw').
    cbn in Ev. assert (l' = l) as ->.
    { pose proof (read_unspents_encoded l [] Hw) as R1. pose proof (read_unspents_encoded l' [] Hw') as R2. rewrite Ev in R1. rewrite R1 in R2. by injection R2. }
    exists l. split; [apply list_elem_of_In; by eapply list_elem_of_lookup_2|by apply list_elem_of_In].
Qed.
End Scan.

#[export] Instance map_iterator_laws : IIteratorLaws (gmap bytes bytes).
Proof.
  split.
  - intros m prefix k v. unfold db_Iter, map_iterator. rewrite sort_by_perm, list_elem_of_filter, elem_of_map_to_list. cbn. tauto.
  - intros m prefix. unfold db_Iter, map_iterator. rewrite sort_by_perm.
    assert (F : forall l : list (bytes * bytes), NoDup (map fst l) -> NoDup (map fst (filter (fun e => prefix `prefix_of` e.1) l))).
    { induction l as [|e l IH]; [done|]. intros ND. cbn [map] in ND. inversion ND; subst. rewrite filter_cons. destruct (decide _); [|by apply IH].
      cbn. constructor; [|by apply IH]. intros Hin. apply list_elem_of_fmap in Hin as (e' & Ee & He'). apply list_elem_of_filter in He' as [_ He'].
      destruct H1. rewrite Ee. by apply list_elem_of_fmap_2. }
    apply F, NoDup_fst_map_to_list.
Qed.

Definition one_unspent : UTXOUnspent := mkUnspent (repeat 9 32) 1 500.
Definition owner_db : gmap bytes bytes :=
  {[utxo_key zero160 (repeat 1 32) 7 := encode_unspents [one_unspent]; utxo_key zero160 (repeat 2 32) 7 := [255] ]}.
Lemma owner_query_witness :
  exists unspents, GetUnspentFromProgramHash owner_db zero160 (repeat 1 32) = Some (unspents, None) /\ one_unspent ∈ unspents.
Proof.
  destruct (owner_query owner_db zero160 (repeat 1 32)) as (unspents & E & Hu).
  - intros k v Hk Hp. cbn in Hk. apply lookup_insert_Some in Hk as [[<- <-]|[_ Hk]].
    + exists [one_unspent]. split; [reflexivity|]. by_decision.
    + apply lookup_singleton_Some in Hk as [<- <-]. exfalso. destruct Hp as [t Ht]. vm_compute in Ht. discriminate Ht.
  - exists unspents. split; [exact E|]. apply Hu. exists (utxo_key zero160 (repeat 1 32) 7), [one_unspent].
    split; [vm_compute; reflexivity|]. split; [by_decision|]. split; [by_decision|left].
Defined.

(** The first start leaves nothing of what was in the database before. *)
Lemma wipe_empty {DB} `{IStoreLaws DB} `{IIterator DB} `{!IIteratorLaws DB} (db : DB) k : db_Get (wipe db) k = None.
Proof.
  unfold wipe. rewrite db_Get_Write.
  assert (L : forall es : list (bytes * bytes), last_write (map (fun e => BatchDelete e.1) es) k = if decide (k ∈ map fst es) then Some None else None).
  { induction es as [|[k' v] es IH]; [done|]. cbn [map last_write fst]. rewrite IH. destruct (decide (k ∈ map fst es)) as [Hin|Hout].
    - rewrite decide_True; [done|by right].
    - destruct (decide (k' = k)) as [->|Hne]; [rewrite decide_True; [done|left]|].
      rewrite decide_False; [done|]. intros [->|?]%elem_of_cons; done. }
  rewrite L. destruct (decide (k ∈ map fst (db_Iter db []))) as [|Hout]; [done|]. destruct (db_Get db k) as [v|] eqn:E; [|done].
  exfalso. apply Hout. apply (list_elem_of_fmap_2' fst _ (k, v)); [|done]. apply iter_entry. split; [done|apply prefix_nil].
Qed.
