(* ===== verification/Pow.v ===== *)
(** [consensus/pow/pow.go]: the mining service.  It builds a block on top of the
    best chain from the transaction pool, looks for a nonce and hands the block
    to the chain.

    Clock, random number, the order in which Go enumerates the pool and the
    ticks of the timer are arguments.  Amounts go through [float64], which is
    the IEEE double of [SpecFloat].  Logging and the ZeroMQ socket are left
    out; the loops around these parts are in [Miner]. *)

From Stdlib Require Import SpecFloat.
From S2P Require Import Prelude Sha256 Serialization Common Fixed64 Transaction Merkle AuxPow Block.
From S2P Require Import Store Utxo Difficulty MedianTime Vm Address Contract Validator TxPool.
From S2P Require Import Blockchain.

(** * float64 *)

Definition float64_of_int (n : Z) : spec_float := binary_normalize 53 1024 n 0 false.
Definition float64_div : spec_float -> spec_float -> spec_float := SFdiv 53 1024.
Definition float64_mul : spec_float -> spec_float -> spec_float := SFmul 53 1024.
(** The conversion to [int64] truncates; outside its range the result depends
    on the machine. *)
Definition int64_of_float (f : spec_float) : option Z :=
  match f with
  | S754_zero _ => Some 0
  | S754_finite s m e =>
      let v := if 0 <=? e then Zpos m * 2 ^ e else Zpos m / 2 ^ (- e) in
      let v := if s then - v else v in
      if (- 2 ^ 63 <=? v) && (v <? 2 ^ 63) then Some v else None
  | _ => None
  end.
(** The constant [0.3]. *)
Definition float64_three_tenths : spec_float := float64_div (float64_of_int 3) (float64_of_int 10).

(** * The reward *)

Definition OrginAmountOfEla : Z := 3300 * 10000 * 100000000.
Definition RetargetPersent : Z := 25.

Section Subsidy.
Context (cfg : Config).

Definition SubsidyInterval : Z := Z.quot (365 * 24 * 60 * 60) (targetTimePerBlock (cfg_ChainParam cfg)).

Definition subsidy_per_block (total : Z) : option Z :=
  let incr := float64_div (float64_of_int total) (float64_of_int RetargetPersent) in
  int64_of_float (float64_div incr (float64_of_int SubsidyInterval)).
Fixpoint grow_total (n : nat) (total : Z) : option Z :=
  match n with
  | O => Some total
  | S n =>
      subsidyPerBlock ← subsidy_per_block total;
      grow_total n (int64 (total + int64 (subsidyPerBlock * SubsidyInterval)))
  end.
(** A [SubsidyInterval] of zero, in 32 bits, divides by zero. *)
Definition calcBlockSubsidy (currentHeight : Z) : outcome Z :=
  if uint32 SubsidyInterval =? 0 then Panic else
  match grow_total (Z.to_nat (currentHeight / uint32 SubsidyInterval)) (int64 OrginAmountOfEla) ≫= subsidy_per_block with
  | Some v => Ok v
  | None => Unmodelled
  end.
End Subsidy.

(** * Building a block *)

Definition FoundationAddress : bytes :=
  map (fun c => Z.of_N (Ascii.N_of_ascii c)) (String.list_ascii_of_string "ENvQCxmdXR8p134Crymff94BNbKicFJBLv").

Record PowConfiguration := mkPowConf { PayToAddr : bytes; MinerInfo : bytes }.

Definition set_Bits (bd : Blockdata) (bits : Z) : Blockdata :=
  mkBlockdata (bd_Version bd) (PrevBlockHash bd) (TransactionsRoot bd) (bd_Timestamp bd) bits (bd_Height bd) (bd_Nonce bd) (bd_AuxPow bd).
Definition set_Nonce (bd : Blockdata) (nonce : Z) : Blockdata :=
  mkBlockdata (bd_Version bd) (PrevBlockHash bd) (TransactionsRoot bd) (bd_Timestamp bd) (bd_Bits bd) (bd_Height bd) nonce (bd_AuxPow bd).

(** [sort.Sort(sort.Reverse(txPool))]: by fee per kilobyte, the highest first.
    The sort is not stable, but the order of the pool is arbitrary too. *)
Fixpoint insert_by_fee (t : Transaction) (l : list Transaction) : list Transaction :=
  match l with
  | [] => [t]
  | x :: l' => if FeePerKB x <? FeePerKB t then t :: l else x :: insert_by_fee t l'
  end.
Definition sort_by_fee (l : list Transaction) : list Transaction := foldr insert_by_fee [] l.

Section Generate.
Context {DB : Type} `{IStore DB} `{IBase58} (cfg : Config) (conf : PowConfiguration).

Definition CreateCoinbaseTrx (bc : Blockchain DB) (rand : Z) (nextBlockHeight : Z) (addr : bytes) : outcome (Transaction + error) :=
  '(minerProgramHash, e) ← ToScriptHash addr;
  match e with Some e => Ok (inr e) | None =>
  '(foundationProgramHash, e) ← ToScriptHash FoundationAddress;
  match e with Some e => Ok (inr e) | None =>
    let txn := NewCoinBaseTransaction (PCoinBase (MinerInfo conf)) (uint32 (BlockHeight bc + 1)) in
    let txn := set_UTXOInputs txn [mkInput zero256 MaxUint16 (2 ^ 32 - 1)] in
    let txn := set_Outputs txn [mkOutput (cfg_AssetID cfg) 0 foundationProgramHash; mkOutput (cfg_AssetID cfg) 0 minerProgramHash] in
    Ok (inl (set_Attributes txn (Attributes txn ++ [NewTxAttribute Nonce (be_bytes 8 rand)])))
  end end.

(** The transactions of the pool that go into the block, with the sum of their
    fees. *)
Fixpoint select_txs (bc : Blockchain DB) (nextBlockHeight size amount totalFee : Z) (acc pool : list Transaction) :
    outcome (list Transaction * Z) :=
  match pool with
  | [] => mret (acc, totalFee)
  | t :: pool =>
      txSize ← no_panic (Tx_GetSize t);
      if cfg_MaxBlockSize cfg <? txSize + size then mret (acc, totalFee) else
      if cfg_MaxTxInBlock cfg <=? amount then mret (acc, totalFee) else
      if negb (IsFinalizedTransaction t nextBlockHeight) then select_txs bc nextBlockHeight size amount totalFee acc pool else
      errCode ← CheckTransactionContext (H := store_ledger (bc_Store bc)) cfg t;
      if negb (bool_decide (errCode = ErrNoError)) then select_txs bc nextBlockHeight size amount totalFee acc pool else
      let fee := GetFee (store := @ledger_txs (store_ledger (bc_Store bc))) t (cfg_AssetID cfg) in
      if negb (fee =? Fee t) then select_txs bc nextBlockHeight size amount totalFee acc pool else
      select_txs bc nextBlockHeight (size + txSize) (amount + 1) (int64 (totalFee + fee)) (acc ++ [t]) pool
  end.

(** The values of the two outputs of the coinbase. *)
Definition set_reward (coinBaseTx : Transaction) (reward : Z) : outcome Transaction :=
  match int64_of_float (float64_mul (float64_of_int reward) float64_three_tenths) with
  | None => Unmodelled
  | Some reward_foundation =>
      match Outputs coinBaseTx with
      | o0 :: o1 :: outs =>
          Ok (set_Outputs coinBaseTx
            (mkOutput (o_AssetID o0) reward_foundation (o_ProgramHash o0) ::
             mkOutput (o_AssetID o1) (int64 (reward - reward_foundation)) (o_ProgramHash o1) :: outs))
      | _ => Panic
      end
  end.

(** [rand], [now] and [pool], an enumeration of the pool, come from outside. *)
Definition GenerateBlock (bc : Blockchain DB) (rand now : Z) (pool : list Transaction) (addr : bytes) : outcome (option Block * err) :=
  let nextBlockHeight := uint32 (BlockHeight bc + 1) in
  coinBaseTx ← CreateCoinbaseTrx bc rand nextBlockHeight addr;
  match coinBaseTx with
  | inr e => Ok (None, Some e)
  | inl coinBaseTx =>
      match chain_nodes (nodes bc) (BestChain bc) with
      | [] => Panic
      | best :: ancestors =>
          calcTxsSize ← no_panic (Tx_GetSize coinBaseTx);
          '(txs, totalFee) ← select_txs bc nextBlockHeight calcTxsSize 1 0 [] (sort_by_fee pool);
          subsidy ← calcBlockSubsidy cfg nextBlockHeight;
          coinBaseTx ← set_reward coinBaseTx (int64 (totalFee + subsidy));
          hashed ← no_panic (mapM hash_cached (coinBaseTx :: txs));
          '(txRoot, _) ← no_panic (ComputeRoot (map snd hashed));
          '(bits, e) ← no_panic (CalcNextRequiredDifficulty (cfg_ChainParam cfg) best ancestors);
          let blockData := mkBlockdata 0 (n_Hash best) txRoot
            (uint32 (MedianAdjustedTime (TimeSource bc) now (MedianTimePast bc))) bits nextBlockHeight 0 new_AuxPow in
          Ok (Some (mkBlock blockData (map fst hashed) None), e)
      end
  end.
End Generate.

(** * Solving *)

Definition maxNonce : Z := 2 ^ 32 - 1.
Definition maxExtraNonce : Z := 2 ^ 64 - 1.

Definition set_header (b : Block) (bd : Blockdata) : Block := mkBlock bd (Transactions b) (blk_hash b).
Definition solves (b : Block) : bool := HashToBig (Blockdata_Hash (blk_data b)) <=? CompactToBig (bd_Bits (blk_data b)).

(** The loop over [i], a [uint32].  [tick k] is the tick before turn [k], with
    the end of the best chain at that moment.  [None]: out of turns;
    [inr]: the condition of the loop is false. *)
Fixpoint nonce_loop (fuel : nat) (tick : nat -> option Uint256) (k : nat) (b : Block) (i : Z) : option ((bool * Block) + (nat * Block)) :=
  if negb (i <=? maxNonce) then Some (inr (k, b)) else
  match fuel with
  | O => None
  | S fuel =>
      if match tick k with Some best => negb (CompareTo (PrevBlockHash (blk_data b)) best =? 0) | None => false end
      then Some (inl (false, b)) else
      let b := set_header b (set_Nonce (blk_data b) i) in
      if solves b then Some (inl (true, b)) else nonce_loop fuel tick (S k) b (uint32 (i + 1))
  end.

(** The extra nonce is added to the first attribute of the coinbase, in place. *)
Definition add_extra_nonce (b : Block) (extraNonce : Z) : option Block :=
  match Transactions b with
  | t :: txs =>
      match Attributes t with
      | a :: attrs =>
          if (length (at_Data a) <? 8)%nat then None else
          let attr := uint64 (be_val (take 8 (at_Data a)) + extraNonce) in
          let a := mkTxAttribute (at_Usage a) (be_bytes 8 attr ++ drop 8 (at_Data a)) (at_Size a) in
          Some (mkBlock (blk_data b) (set_Attributes t (a :: attrs) :: txs) (blk_hash b))
      | [] => None
      end
  | [] => None
  end.
(** [None] is a panic; [Some None]: out of turns. *)
Fixpoint extra_loop (fuel : nat) (tick : nat -> option Uint256) (k : nat) (b : Block) (extraNonce : Z) : option (option (bool * Block)) :=
  if negb (extraNonce <? maxExtraNonce) then Some (Some (false, b)) else
  match fuel with
  | O => Some None
  | S fuel' =>
      b ← add_extra_nonce b extraNonce;
      match nonce_loop fuel tick k b 0 with
      | None => Some None
      | Some (inl r) => Some (Some r)
      | Some (inr (k, b)) => extra_loop fuel' tick k b (uint64 (extraNonce + 1))
      end
  end.
Definition SolveBlock (fuel : nat) (tick : nat -> option Uint256) (b : Block) : option (option (bool * Block)) := extra_loop fuel tick 0 b 0.

(** * The service *)

Section Service.
Context {DB : Type} `{IStore DB} `{IBase58} `{ICrypto} (cfg : Config) (conf : PowConfiguration) (ripemd160 : bytes -> bytes).

Definition pow_GetTransactionCount (p : TXNPool) : Z := Z.of_nat (size (GetTxnPool cfg p true)).
Definition CollectTransactions (p : TXNPool) (MsgBlock : Block) : Block * Z :=
  let txs := map snd (map_to_list (GetTxnPool cfg p true)) in
  (mkBlock (blk_data MsgBlock) (Transactions MsgBlock ++ txs) (blk_hash MsgBlock), Z.of_nat (length txs)).

(** What a miner does with a solved block: hand it to the chain if the chain has
    not grown meanwhile.  The answer tells whether it is broadcast. *)
Definition submit_block (now : Z) (msgBlock : Block) : bcM (DB := DB) bool :=
  best ← gets BlockHeight;
  if bd_Height (blk_data msgBlock) =? uint32 (best + 1) then
    '(inMainChain, isOrphan) ← ProcessBlock cfg ripemd160 now msgBlock;
    mret (negb (isOrphan || negb inMainChain))
  else mret false.
End Service.

(** Starting and stopping.  [miners] counts the goroutines that mine: the one
    [Start] creates, which [Halt] waits for, and the caller of
    [DiscreteMining]. *)
Record PowState := mkPow { started : bool; discreteMining : bool; miners : nat }.
Definition NewPowService : PowState := mkPow false false 0.

Definition Start (s : PowState) : PowState :=
  if started s || discreteMining s then s else mkPow true (discreteMining s) (S (miners s)).
Definition Halt (s : PowState) : PowState :=
  if negb (started s) || discreteMining s then s else mkPow false (discreteMining s) (pred (miners s)).
(** [DiscreteMining] up to its loop, and its return. *)
Definition DiscreteMining_begin (s : PowState) : PowState * err :=
  if started s || discreteMining s then (s, Some (NewError "Server is already CPU mining."))
  else (mkPow true true (S (miners s)), None).
Definition DiscreteMining_end (s : PowState) : PowState := mkPow false false (pred (miners s)).

(** [discrete] is true while a caller is inside [DiscreteMining]. *)
Inductive pow_step : PowState * bool -> PowState * bool -> Prop :=
  | pow_start s d : pow_step (s, d) (Start s, d)
  | pow_halt s d : pow_step (s, d) (Halt s, d)
  | pow_begin s d s' e : DiscreteMining_begin s = (s', e) -> pow_step (s, d) (s', if is_err e then d else true)
  | pow_end s : pow_step (s, true) (DiscreteMining_end s, false).

(** * Lemmas *)

Lemma insert_by_fee_perm t l : insert_by_fee t l ≡ₚ t :: l.
Proof. induction l as [|x l IH]; cbn; [done|]. destruct (_ <? _); [done|]. rewrite IH. constructor. Qed.
Lemma sort_by_fee_perm l : sort_by_fee l ≡ₚ l.
Proof. induction l as [|x l IH]; cbn; [done|]. by rewrite insert_by_fee_perm, IH. Qed.
Lemma insert_by_fee_sorted t l : StronglySorted (fun a b => FeePerKB b <= FeePerKB a) l ->
  StronglySorted (fun a b => FeePerKB b <= FeePerKB a) (insert_by_fee t l).
Proof.
  induction 1 as [|x l S IH Hx]; cbn; [repeat constructor|]. destruct (Z.ltb_spec (FeePerKB x) (FeePerKB t)).
  - constructor; [by constructor|]. constructor; [lia|]. eapply list.Forall_impl; [exact Hx|]. cbn. lia.
  - constructor; [done|]. rewrite insert_by_fee_perm. constructor; [lia|done].
Qed.
Lemma sort_by_fee_sorted l : StronglySorted (fun a b => FeePerKB b <= FeePerKB a) (sort_by_fee l).
Proof. induction l; cbn; [constructor|by apply insert_by_fee_sorted]. Qed.

Section Mining.
Context {DB : Type} `{IStore DB} `{IBase58} (cfg : Config) (conf : PowConfiguration).

(** What the selection guarantees for each transaction. *)
Definition eligible (bc : Blockchain DB) (height : Z) (t : Transaction) : Prop :=
  IsFinalizedTransaction t height = true /\
  CheckTransactionContext (H := store_ledger (bc_Store bc)) cfg t = Ok ErrNoError /\
  GetFee (store := @ledger_txs (store_ledger (bc_Store bc))) t (cfg_AssetID cfg) = Fee t.

Lemma select_txs_spec bc height pool : forall size amount totalFee acc txs fee,
  select_txs cfg bc height size amount totalFee acc pool = Ok (txs, fee) ->
  exists sel, txs = acc ++ sel /\ sublist sel pool /\ Forall (eligible bc height) sel /\
    fee = foldl (fun a t => int64 (a + Fee t)) totalFee sel /\
    (sel = [] \/ amount + Z.of_nat (length sel) <= cfg_MaxTxInBlock cfg).
Proof.
  induction pool as [|t pool IH]; intros size amount totalFee acc txs fee E; cbn [select_txs] in E.
  { injection E as <- <-. exists []. rewrite app_nil_r. split_and!; auto. }
  assert (Stop : Ok (acc, totalFee) = Ok (txs, fee) -> exists sel, txs = acc ++ sel /\ sublist sel (t :: pool) /\ Forall (eligible bc height) sel /\
    fee = foldl (fun a t => int64 (a + Fee t)) totalFee sel /\ (sel = [] \/ amount + Z.of_nat (length sel) <= cfg_MaxTxInBlock cfg)).
  { intros [= <- <-]. exists []. rewrite app_nil_r. split_and!; auto using sublist_nil_l. }
  assert (Skip : select_txs cfg bc height size amount totalFee acc pool = Ok (txs, fee) ->
    exists sel, txs = acc ++ sel /\ sublist sel (t :: pool) /\ Forall (eligible bc height) sel /\
    fee = foldl (fun a t => int64 (a + Fee t)) totalFee sel /\ (sel = [] \/ amount + Z.of_nat (length sel) <= cfg_MaxTxInBlock cfg)).
  { intros (sel & ? & ? & ?)%IH. exists sel. split_and!; [done|by constructor|naive_solver..]. }
  apply outcome_bind_Ok in E as (txSize & _ & E). destruct (_ <? _); [by apply Stop|].
  destruct (Z.leb_spec (cfg_MaxTxInBlock cfg) amount); [by apply Stop|].
  destruct (IsFinalizedTransaction t height) eqn:Ef; cbn [negb] in E; [|by apply Skip].
  apply outcome_bind_Ok in E as (c & Ec & E). destruct (bool_decide_reflect (c = ErrNoError)) as [->|]; cbn [negb] in E; [|by apply Skip].
  destruct (Z.eqb_spec (GetFee (store := @ledger_txs (store_ledger (bc_Store bc))) t (cfg_AssetID cfg)) (Fee t)) as [Eg|];
    cbn [negb] in E; [|by apply Skip].
  apply IH in E as (sel & -> & Hs & He & -> & Hc). exists (t :: sel). split_and!.
  - by rewrite <- app_assoc.
  - by constructor.
  - constructor; [done|done].
  - cbn [foldl]. by rewrite Eg.
  - right. cbn [length]. destruct Hc as [->|Hc]; cbn [length]; lia.
Qed.
End Mining.

(** ** Nonces *)

Definition with_nonce (b : Block) (i : Z) : Block := set_header b (set_Nonce (blk_data b) i).
(** No tick at turn [k], or the best chain still ends in the parent of [b]. *)
Definition fresh_tick (tick : nat -> option Uint256) (b : Block) (k : nat) : Prop :=
  forall best, tick k = Some best -> CompareTo (PrevBlockHash (blk_data b)) best = 0.

Lemma nonce_turn fuel tick k b i : 0 <= i < 2 ^ 32 -> fresh_tick tick b k ->
  nonce_loop (S fuel) tick k b i =
    if solves (with_nonce b i) then Some (inl (true, with_nonce b i)) else nonce_loop fuel tick (S k) (with_nonce b i) (uint32 (i + 1)).
Proof.
  intros Hi Ht. cbn [nonce_loop]. unfold maxNonce. destruct (Z.leb_spec i (2 ^ 32 - 1)); [|lia]. cbn [negb].
  destruct (tick k) as [best|] eqn:E; [|done]. by rewrite (Ht best E).
Qed.
Lemma nonce_found tick j : forall fuel k b i, 0 <= i <= j -> j < 2 ^ 32 -> (Z.to_nat (j - i) < fuel)%nat ->
  (forall x, i <= x < j -> solves (with_nonce b x) = false) -> solves (with_nonce b j) = true ->
  (forall n, fresh_tick tick b n) -> nonce_loop fuel tick k b i = Some (inl (true, with_nonce b j)).
Proof.
  induction fuel as [|fuel IH]; intros k b i Hi Hj Hf Hno Hyes Ht; [lia|]. rewrite nonce_turn by (done || lia).
  destruct (decide (i = j)) as [->|Hne]; [by rewrite Hyes|]. rewrite Hno by lia. rewrite wrapU_id by lia.
  rewrite (IH (S k) (with_nonce b i) (i + 1)); [done|lia|lia|lia|intros x Hx; apply Hno; lia|done|done].
Qed.
Lemma nonce_never tick : forall fuel k b i, 0 <= i < 2 ^ 32 ->
  (forall x, 0 <= x < 2 ^ 32 -> solves (with_nonce b x) = false) -> (forall n, fresh_tick tick b n) ->
  nonce_loop fuel tick k b i = None.
Proof.
  induction fuel as [|fuel IH]; intros k b i Hi Hno Ht.
  - cbn. unfold maxNonce. destruct (Z.leb_spec i (2 ^ 32 - 1)); [done|lia].
  - rewrite nonce_turn by done. rewrite Hno by done. apply IH; [|exact Hno|exact Ht].
    pose proof (wrapU_range 32 (i + 1) ltac:(lia)). lia.
Qed.

(** A coinbase with eight bytes to count in; adding zero changes nothing. *)
Definition has_extra_nonce (b : Block) : Prop := exists t txs a attrs,
  Transactions b = t :: txs /\ Attributes t = a :: attrs /\ length (at_Data a) = 8%nat /\ wf_bytes (at_Data a).
Lemma be_bytes_be_val l : wf_bytes l -> be_bytes (length l) (be_val l) = l.
Proof.
  intros Hl. unfold be_bytes, be_val. rewrite <- length_reverse, le_bytes_le_val by (by apply Forall_reverse). apply reverse_involutive.
Qed.
Lemma add_no_extra_nonce b : has_extra_nonce b -> add_extra_nonce b 0 = Some b.
Proof.
  intros (t & txs & a & attrs & Et & Ea & Hl & Hw). unfold add_extra_nonce. rewrite Et, Ea, Hl. cbn [Nat.ltb Nat.leb].
  pose proof (le_val_bound (reverse (at_Data a)) (proj2 (Forall_reverse _ _) Hw)) as Hb. rewrite length_reverse, Hl in Hb.
  rewrite Z.add_0_r, take_ge, drop_ge, wrapU_id, app_nil_r by (lia || exact Hb). rewrite <- Hl, be_bytes_be_val by done.
  destruct b as [bd txs' h], t, a. cbn in *. by subst.
Qed.
