(* ===== verification/Mining.v ===== *)
(** Mining: what the blocks of [consensus/pow/pow.go] contain, that the solver
    finds them, and that the chain accepts them. *)

From Stdlib Require Import SpecFloat.
From S2P Require Import Prelude Sha256 Serialization Common Fixed64 Transaction Merkle AuxPow Block.
From S2P Require Import Store Utxo Difficulty MedianTime Vm Address Contract Validator TxPool.
From S2P Require Import Blockchain BlockTree BestChain ChainSelection Pow.

(** * The solver and the service *)

(** The solver finds the first nonce that solves the block, if there is one and
    the best chain does not move on: it returns the block with that nonce and
    nothing else changed, after as many turns as the nonce says. *)
Theorem solver_finds_nonce fuel tick b j :
  has_extra_nonce b -> 0 <= j < 2 ^ 32 -> (Z.to_nat j < fuel)%nat ->
  (forall x, 0 <= x < j -> solves (with_nonce b x) = false) -> solves (with_nonce b j) = true -> (forall n, fresh_tick tick b n) ->
  SolveBlock fuel tick b = Some (Some (true, with_nonce b j)).
Proof.
  intros He Hj Hf Hno Hyes Ht. destruct fuel as [|fuel]; [lia|]. unfold SolveBlock. cbn [extra_loop].
  change (negb (0 <? maxExtraNonce)) with false. cbn iota. rewrite (add_no_extra_nonce b He). cbn [mbind option_bind].
  rewrite (nonce_found tick j); [done|lia|lia|lia|exact Hno|done|done].
Qed.

(** The extra nonce is never used: when no nonce of 32 bits solves the block, the
    inner loop, whose counter cannot exceed the largest 32-bit number, runs for
    ever, and the solver neither finds a block nor gives up. *)
Theorem solver_never_gives_up fuel tick b :
  has_extra_nonce b -> (forall x, 0 <= x < 2 ^ 32 -> solves (with_nonce b x) = false) -> (forall n, fresh_tick tick b n) ->
  SolveBlock fuel tick b = Some None.
Proof.
  intros He Hno Ht. destruct fuel as [|fuel]; [done|]. unfold SolveBlock. cbn [extra_loop].
  change (negb (0 <? maxExtraNonce)) with false. cbn iota. rewrite (add_no_extra_nonce b He). cbn [mbind option_bind].
  rewrite (nonce_never tick); [done|lia|exact Hno|done].
Qed.

(** At most one goroutine mines, and the service says it is started exactly
    then, whatever the order of starting, halting and discrete mining. *)
Theorem one_miner s d : rtc pow_step (NewPowService, false) (s, d) ->
  (miners s <= 1)%nat /\ (started s = true <-> miners s = 1%nat) /\ discreteMining s = d.
Proof.
  intros R. remember (NewPowService, false) as i eqn:Ei. remember (s, d) as f eqn:Ef.
  assert (Inv : forall x y, rtc pow_step x y ->
    (discreteMining x.1 = x.2 /\ miners x.1 = (if started x.1 then 1 else 0)%nat /\ (x.2 = true -> started x.1 = true)) ->
    (discreteMining y.1 = y.2 /\ miners y.1 = (if started y.1 then 1 else 0)%nat /\ (y.2 = true -> started y.1 = true))).
  { induction 1 as [|x y z Hs _ IH]; [done|]. intros Hx. apply IH. clear IH.
    destruct Hs as [[st di mi] d0|[st di mi] d0|[st di mi] d0 s' e E|[st di mi]]; cbn in *; destruct Hx as (-> & -> & Hx).
    - unfold Start. cbn. by destruct st, d0; cbn; naive_solver.
    - unfold Halt. cbn. by destruct st, d0; cbn; naive_solver.
    - unfold DiscreteMining_begin in E. cbn in E. destruct st, d0; cbn in E; injection E as <- <-; cbn; naive_solver.
    - rewrite Hx by done. cbn. naive_solver. }
  destruct (Inv _ _ R) as (Hd & Hm & _); [subst i; by cbn|]. subst f. cbn in *. rewrite Hm.
  destruct (started s); split_and!; try done; lia.
Qed.

(** ** The generated block *)

Section Generated.
Context {DB : Type} `{IStore DB} `{IBase58} (cfg : Config) (conf : PowConfiguration).

(** The coinbase that pays [v0] to the foundation and [v1] to the miner. *)
Definition coinbase_tx (bc : Blockchain DB) (rand : Z) (fh mh : Uint160) (v0 v1 : Z) : Transaction :=
  mkTx CoinBase CoinBasePayloadVersion (Some (PCoinBase (MinerInfo conf))) [NewTxAttribute Nonce (be_bytes 8 rand)]
    [mkInput zero256 MaxUint16 (2 ^ 32 - 1)] [] [mkOutput (cfg_AssetID cfg) v0 fh; mkOutput (cfg_AssetID cfg) v1 mh]
    (uint32 (BlockHeight bc + 1)) [] 0 0 None.

Lemma CreateCoinbaseTrx_inv bc rand height addr t : CreateCoinbaseTrx cfg conf bc rand height addr = Ok (inl t) ->
  exists fh mh, ToScriptHash FoundationAddress = Ok (fh, None) /\ ToScriptHash addr = Ok (mh, None) /\ t = coinbase_tx bc rand fh mh 0 0.
Proof.
  intros E. unfold CreateCoinbaseTrx in E. apply outcome_bind_Ok in E as ([mh e] & Em & E). destruct e; [done|].
  apply outcome_bind_Ok in E as ([fh e] & Ef & E). destruct e; [done|]. injection E as <-. by exists fh, mh.
Qed.
Lemma set_reward_inv bc rand fh mh reward t : set_reward (coinbase_tx bc rand fh mh 0 0) reward = Ok t ->
  exists v0, int64_of_float (float64_mul (float64_of_int reward) float64_three_tenths) = Some v0 /\
    t = coinbase_tx bc rand fh mh v0 (int64 (reward - v0)).
Proof. unfold set_reward. destruct (int64_of_float _) as [v0|]; [|done]. intros [= <-]. by exists v0. Qed.

(** The reward is shared without loss. *)
Lemma reward_shared reward v0 : inS 64 reward -> int64 (v0 + int64 (reward - v0)) = reward.
Proof.
  intros Hr. rewrite (Z.add_comm v0), wrapS_add. replace (reward - v0 + v0) with reward by lia. by apply wrapS_id.
Qed.

Lemma GenerateBlock_inv bc rand now pool addr b : GenerateBlock cfg conf bc rand now pool addr = Ok (Some b, None) ->
  exists fh mh best ancestors sel fee subsidy v0 hashed root bits,
    ToScriptHash FoundationAddress = Ok (fh, None) /\ ToScriptHash addr = Ok (mh, None) /\
    chain_nodes (nodes bc) (BestChain bc) = best :: ancestors /\
    sublist sel (sort_by_fee pool) /\ Forall (eligible cfg bc (uint32 (BlockHeight bc + 1))) sel /\
    (sel = [] \/ 1 + Z.of_nat (length sel) <= cfg_MaxTxInBlock cfg) /\
    fee = foldl (fun a t => int64 (a + Fee t)) 0 sel /\ calcBlockSubsidy cfg (uint32 (BlockHeight bc + 1)) = Ok subsidy /\
    int64_of_float (float64_mul (float64_of_int (int64 (fee + subsidy))) float64_three_tenths) = Some v0 /\
    mapM hash_cached (coinbase_tx bc rand fh mh v0 (int64 (int64 (fee + subsidy) - v0)) :: sel) = Some hashed /\
    (exists e, ComputeRoot (map snd hashed) = Some (root, e)) /\
    CalcNextRequiredDifficulty (cfg_ChainParam cfg) best ancestors = Some (bits, None) /\
    b = mkBlock (mkBlockdata 0 (n_Hash best) root (uint32 (MedianAdjustedTime (TimeSource bc) now (MedianTimePast bc))) bits
          (uint32 (BlockHeight bc + 1)) 0 new_AuxPow) (map fst hashed) None.
Proof.
  intros E. unfold GenerateBlock in E. apply outcome_bind_Ok in E as (c & Ec & E). destruct c as [t|]; [|done].
  apply CreateCoinbaseTrx_inv in Ec as (fh & mh & Ef & Em & ->).
  destruct (chain_nodes (nodes bc) (BestChain bc)) as [|best ancestors] eqn:Eb; [done|].
  apply outcome_bind_Ok in E as (size & _ & E). apply outcome_bind_Ok in E as ([txs fee] & Es & E).
  apply select_txs_spec in Es as (sel & -> & Hs & He & Hfee & Hc).
  apply outcome_bind_Ok in E as (subsidy & Esub & E). apply outcome_bind_Ok in E as (t & Er & E).
  apply set_reward_inv in Er as (v0 & Ev & ->).
  apply outcome_bind_Ok in E as (hashed & Eh & E). apply no_panic_Ok in Eh.
  apply outcome_bind_Ok in E as ([root e] & Ero & E). apply no_panic_Ok in Ero.
  apply outcome_bind_Ok in E as ([bits e'] & Ebits & E). apply no_panic_Ok in Ebits.
  injection E as <- ->. exists fh, mh, best, ancestors, sel, fee, subsidy, v0, hashed, root, bits. split_and!; try done. by exists e.
Qed.
End Generated.

(** ** What a solved block looks like *)

Lemma nonce_loop_solved tick : forall fuel k b i r, 0 <= i < 2 ^ 32 -> nonce_loop fuel tick k b i = Some r ->
  exists ok b', r = inl (ok, b') /\ (ok = true -> exists j, 0 <= j < 2 ^ 32 /\ b' = with_nonce b j /\ solves b' = true).
Proof.
  induction fuel as [|fuel IH]; intros k b i r Hi E; cbn [nonce_loop] in E;
    (destruct (Z.leb_spec i maxNonce) as [_|Hbad]; [cbn [negb] in E|unfold maxNonce in Hbad; lia]); [done|].
  destruct (match tick k with Some _ => _ | None => _ end); [injection E as <-; by exists false, b|].
  fold (with_nonce b i) in E. destruct (solves (with_nonce b i)) eqn:Es.
  - injection E as <-. exists true, (with_nonce b i). split; [done|]. intros _. exists i. done.
  - pose proof (wrapU_range 32 (i + 1) ltac:(lia)).
    destruct (IH (S k) (with_nonce b i) (uint32 (i + 1)) r ltac:(lia) E) as (ok & b' & -> & Hb). by exists ok, b'.
Qed.
Lemma SolveBlock_solved fuel tick b b' : has_extra_nonce b -> SolveBlock fuel tick b = Some (Some (true, b')) ->
  exists j, 0 <= j < 2 ^ 32 /\ b' = with_nonce b j /\ solves b' = true.
Proof.
  intros He E. destruct fuel as [|fuel]; [done|]. unfold SolveBlock in E. cbn [extra_loop] in E.
  change (negb (0 <? maxExtraNonce)) with false in E. cbn iota in E. rewrite (add_no_extra_nonce b He) in E. cbn [mbind option_bind] in E.
  destruct (nonce_loop (S fuel) tick 0 b 0) as [r|] eqn:En; [|done].
  apply nonce_loop_solved in En as (ok & b1 & -> & Hb); [|lia]. injection E as -> <-. by apply Hb.
Qed.

Lemma tx_below_block b size t enc e : Block_GetSize b = Some size -> t ∈ Transactions b -> Tx_Serialize t = Some (enc, e) ->
  Z.of_nat (length enc) <= size.
Proof.
  unfold Block_GetSize, Block_Serialize. destruct (Blockdata_Serialize _) as [d|]; [|done]. cbn [mbind option_bind].
  destruct (mapM Tx_Serialize (Transactions b)) as [l|] eqn:Em; [|done]. cbn [mbind option_bind]. intros Hs Ht Es. apply (inj Some) in Hs as <-.
  apply mapM_Some in Em. apply list_elem_of_lookup in Ht as [i Hi]. destruct (Forall2_lookup_l _ _ _ _ _ Em Hi) as (y & Hy & Ey).
  cbn in Ey. rewrite Es in Ey. injection Ey as <-. rewrite !length_app.
  assert (length enc <= length (concat (map fst l)))%nat; [|lia].
  clear Em Hi. revert i Hy. induction l as [|x l IH]; intros [|i] Hy; cbn in *; [done|done| |]; rewrite length_app.
  - injection Hy as ->. cbn. lia.
  - specialize (IH i Hy). lia.
Qed.

Section Accepted.
Context {DB : Type} `{IStore DB} `{IBase58} `{ICrypto} (cfg : Config) (conf : PowConfiguration) (ripemd160 : bytes -> bytes).

(** What the pool promises about its transactions: they passed the sanity
    checks when they entered it, and their hash is known. *)
Definition pooled (bc : Blockchain DB) (t : Transaction) : Prop :=
  is_Some (tx_hash t) /\ IsCoinBaseTx t = false /\
  CheckTransactionSanity (H := store_ledger (bc_Store bc)) cfg ripemd160 t = Ok ErrNoError.

Lemma SetHash_known t h : tx_hash t = Some h -> SetHash t h = t.
Proof. destruct t; cbn. by intros ->. Qed.
Lemma hash_cached_known t r : is_Some (tx_hash t) -> hash_cached t = Some r -> r.1 = t.
Proof.
  intros [h Hh]. unfold hash_cached, Tx_Hash. rewrite Hh. cbn. intros [= <-]. cbn. by apply SetHash_known.
Qed.
Lemma mapM_hash_cached l hashed : mapM hash_cached l = Some hashed -> mapM Tx_Hash (map fst hashed) = Some (map snd hashed).
Proof.
  intros Hm%mapM_Some. apply mapM_Some. induction Hm as [|t [t' h] l l' Ht _ IH]; cbn; constructor; [|done].
  unfold hash_cached in Ht. destruct (Tx_Hash t) as [h0|]; [|done]. injection Ht as <- <-. done.
Qed.
Lemma all_sane_Forall `{Ledger} l : Forall (fun t => CheckTransactionSanity cfg ripemd160 t = Ok ErrNoError) l -> all_sane cfg ripemd160 l = Ok true.
Proof. induction 1 as [|t l Ht _ IH]; [done|]. cbn [all_sane]. rewrite Ht. cbn. exact IH. Qed.

(** The coinbase of a generated block is sane where the asset has eight
    decimals. *)
Lemma coinbase_sane `{Ledger} (bc : Blockchain DB) rand fh mh v0 v1 h asset enc :
  (forall x, cfg_is_foundation cfg x = bool_decide (fst (ToAddress x) = FoundationAddress)) ->
  ToScriptHash FoundationAddress = Ok (fh, None) -> ledger_GetAsset (cfg_AssetID cfg) = inl asset -> a_Precision asset = 8 ->
  Tx_Serialize (coinbase_tx cfg conf bc rand fh mh v0 v1) = Some (enc, None) -> (0 < length enc)%nat -> Z.of_nat (length enc) <= cfg_MaxBlockSize cfg ->
  CheckTransactionSanity cfg ripemd160 (SetHash (coinbase_tx cfg conf bc rand fh mh v0 v1) h) = Ok ErrNoError.
Proof.
  intros Hf Ef Ea Ep Es Hpos Hmax. unfold CheckTransactionSanity, CheckTransactionSize, Tx_GetSize.
  change (Tx_Serialize (SetHash ?t h)) with (Tx_Serialize t). rewrite Es. cbn [mbind option_bind no_panic is_err].
  cbn [mret outcome_ret mbind outcome_bind is_err].
  change (CheckTransactionInput _) with (@None error). cbn [is_err].
  unfold CheckTransactionOutput. change (IsCoinBaseTx _) with true. cbn [Outputs SetHash coinbase_tx length Nat.ltb Nat.leb check_coinbase_outputs].
  cbn [o_AssetID o_ProgramHash]. rewrite !bool_decide_eq_true_2 by done. cbn [negb orb].
  rewrite Hf, (ToScriptHash_sound _ _ Ef), bool_decide_eq_true_2 by done. cbn [orb is_err].
  unfold CheckAssetPrecision. cbn [Outputs SetHash coinbase_tx check_precisions o_AssetID o_Value]. rewrite Ea, Ep. unfold checkAmountPrecise.
  change (8 <? 8) with false. change (10 ^ (8 - 8)) with 1. rewrite !Z.rem_1_r. 
  rewrite (proj2 (Z.leb_gt _ _)), (proj2 (Z.ltb_ge _ _)) by lia. done.
Qed.

(** The state a miner works on: the best chain in memory agrees with the height
    and the median time of the chain, the clock is sane, the asset has eight
    decimals, and the configuration names the foundation by its address. *)
Record mining_ready (bc : Blockchain DB) (now : Z) : Prop := {
  mr_best : exists best ancestors, chain_nodes (nodes bc) (BestChain bc) = best :: ancestors /\ n_Height best = BlockHeight bc /\
    CalcPastMedianTime (best :: ancestors) = Some (MedianTimePast bc);
  mr_height : 0 <= BlockHeight bc < 2 ^ 32 - 1;
  mr_clock : 0 <= MedianAdjustedTime (TimeSource bc) now (MedianTimePast bc) < 2 ^ 32;
  mr_median : MedianTimePast bc + 1 <= AdjustedTime (TimeSource bc) now + MaxTimeOffsetSeconds;
  mr_mining : cfg_CoMining cfg = false;
  mr_room : 1 <= cfg_MaxTxInBlock cfg;
  mr_foundation : forall x, cfg_is_foundation cfg x = bool_decide (fst (ToAddress x) = FoundationAddress);
  mr_asset : exists asset, @ledger_GetAsset (store_ledger (bc_Store bc)) (cfg_AssetID cfg) = inl asset /\ a_Precision asset = 8 }.

Lemma coinbase_serialized (bc : Blockchain DB) rand fh mh v0 v1 h : exists enc,
  Tx_Serialize (coinbase_tx cfg conf bc rand fh mh v0 v1) = Some (enc, None) /\ (0 < length enc)%nat /\
  Tx_Serialize (SetHash (coinbase_tx cfg conf bc rand fh mh v0 v1) h) = Some (enc, None).
Proof. eexists. split_and!; [reflexivity|rewrite !length_app; cbn; lia|reflexivity]. Qed.

Lemma mapM_known l hashed : Forall (fun t => is_Some (tx_hash t)) l -> mapM hash_cached l = Some hashed -> map fst hashed = l.
Proof.
  intros Hl Hm%mapM_Some. revert Hl. induction Hm as [|t r l hashed Ht _ IH]; intros Hl; [done|]. inversion Hl; subst. cbn.
  rewrite (hash_cached_known t r) by done. f_equal. by apply IH.
Qed.

(** The transactions of a generated block: one coinbase, and transactions of
    the pool; all of them sane, and not too many. *)
Lemma generated_txs (bc : Blockchain DB) rand now pool addr b size :
  mining_ready bc now -> GenerateBlock cfg conf bc rand now pool addr = Ok (Some b, None) -> Forall (pooled bc) pool ->
  Block_GetSize b = Some size -> size <= cfg_MaxBlockSize cfg ->
  exists cb sel, Transactions b = cb :: sel /\ IsCoinBaseTx cb = true /\ existsb IsCoinBaseTx sel = false /\
    Forall (eligible cfg bc (bd_Height (blk_data b))) sel /\ Z.of_nat (length (cb :: sel)) <= cfg_MaxTxInBlock cfg /\
    all_sane (H := store_ledger (bc_Store bc)) cfg ripemd160 (cb :: sel) = Ok true /\
    exists hs, mapM Tx_Hash (cb :: sel) = Some hs /\ ComputeRoot hs = Some (TransactionsRoot (blk_data b), None).
Proof.
  intros M G Hpool Esize Hsize.
  apply GenerateBlock_inv in G as (fh & mh & best & ancestors & sel & fee & subsidy & v0 & hashed & root & bits &
    Ef & Em & Ech & Hsub & Hel & Hcount & _ & _ & _ & Ehash & [e Eroot] & _ & Eb).
  pose proof (mapM_hash_cached _ _ Ehash) as Eh.
  apply mapM_Some in Ehash. inversion Ehash as [|? cb ? hashed' Ecb Esel E1 E2]; subst hashed. clear E1 Ehash.
  set (t := coinbase_tx _ _ _ _ _ _ _ _) in *.
  assert (Hsel : Forall (pooled bc) sel).
  { apply list.Forall_forall. intros y Hy. apply (proj1 (list.Forall_forall _ pool) Hpool). rewrite <- (sort_by_fee_perm pool). by eapply elem_of_sublist. }
  assert (Esel' : map fst hashed' = sel).
  { apply mapM_known; [|by apply mapM_Some]. eapply list.Forall_impl; [exact Hsel|]. by intros y [Hy _]. }
  assert (Ecb' : cb.1 = SetHash t cb.2) by (unfold hash_cached in Ecb; destruct (Tx_Hash t); [|done]; by injection Ecb as <-).
  cbn [map] in Eh, Eb, Eroot. rewrite Esel', Ecb' in *.
  destruct (coinbase_serialized bc rand fh mh v0 (int64 (int64 (fee + subsidy) - v0)) cb.2) as (enc & Eenc & Hpos & Eenc').
  assert (Z.of_nat (length enc) <= cfg_MaxBlockSize cfg).
  { etrans; [|exact Hsize]. eapply tx_below_block; [exact Esize| |exact Eenc']. rewrite Eb. left. }
  exists (SetHash t cb.2), sel. rewrite Eb. split_and!; try done.
  - clear -Hsel. induction Hsel as [|x l (_ & Hx & _) _ IH]; [done|]. cbn. by rewrite Hx.
  - cbn [length]. pose proof (mr_room _ _ M). destruct Hcount as [->|?]; cbn [length]; lia.
  - apply all_sane_Forall. constructor.
    + destruct (mr_asset _ _ M) as (asset & Ea & Ep). eapply coinbase_sane; eauto using mr_foundation.
    + eapply list.Forall_impl; [exact Hsel|]. by intros y (_ & _ & Hy).
  - exists (cb.2 :: map snd hashed'). split; [exact Eh|]. cbn [blk_data TransactionsRoot].
    destruct (ComputeRoot_root (cb.2 :: map snd hashed') ltac:(done)) as (r & _ & Er). rewrite Er in Eroot. by injection Eroot as ->.
Qed.

Lemma mined_sane (bc : Blockchain DB) rand now pool addr b b' j :
  mining_ready bc now -> GenerateBlock cfg conf bc rand now pool addr = Ok (Some b, None) -> b' = with_nonce b j ->
  solves b' = true -> 0 < CompactToBig (bd_Bits (blk_data b')) <= PowLimit (cfg_ChainParam cfg) ->
  (exists size, Block_GetSize b = Some size /\ Block_GetSize b' = Some size /\ size <= cfg_MaxBlockSize cfg) ->
  (forall hs, mapM Tx_Hash (Transactions b) = Some hs -> NoDup hs) -> Forall (pooled bc) pool ->
  PowCheckBlockSanity (H := store_ledger (bc_Store bc)) cfg ripemd160 b' (PowLimit (cfg_ChainParam cfg)) (TimeSource bc) now = Ok None.
Proof.
  intros M G Eb' Hsol Ht (size & Esize & Esize' & Hsize) Hnd Hpool.
  destruct (generated_txs _ _ _ _ _ _ _ M G Hpool Esize Hsize) as (cb & sel & Etx & Hcb & Hno & _ & Hcount & Hsane & hs & Eh & Er).
  assert (Etime : bd_Timestamp (blk_data b) = MedianAdjustedTime (TimeSource bc) now (MedianTimePast bc)).
  { apply GenerateBlock_inv in G as (? & ? & ? & ? & ? & ? & ? & ? & ? & ? & ? & _ & _ & _ & _ & _ & _ & _ & _ & _ & _ & _ & _ & ->).
    cbn. apply wrapU_id. pose proof (mr_clock _ _ M). lia. }
  specialize (Hnd hs ltac:(by rewrite Etx)).
  unfold PowCheckBlockSanity. rewrite (mr_mining _ _ M), Esize'. subst b'.
  cbn [mret outcome_ret mbind outcome_bind negb no_panic with_nonce set_header Transactions blk_data set_Nonce TransactionsRoot bd_Timestamp].
  rewrite Etx, Eh. cbn [no_panic mbind outcome_bind tail]. rewrite Er. cbn [no_panic mbind outcome_bind is_err]. rewrite Hsane, Hcb, Hno, CompareTo_refl.
  assert (Epow : is_err (CheckProofOfWork (blk_data (with_nonce b j)) (PowLimit (cfg_ChainParam cfg)) false) = false).
  { unfold CheckProofOfWork. destruct (Z.leb_spec (CompactToBig (bd_Bits (blk_data (with_nonce b j)))) 0); [lia|].
    destruct (Z.ltb_spec (PowLimit (cfg_ChainParam cfg)) (CompactToBig (bd_Bits (blk_data (with_nonce b j))))); [lia|].
    apply Z.leb_le in Hsol. destruct (Z.ltb_spec (CompactToBig (bd_Bits (blk_data (with_nonce b j)))) (HashToBig (Blockdata_Hash (blk_data (with_nonce b j))))); [lia|done]. }
  cbn [with_nonce set_header blk_data] in Epow. rewrite Epow, Etime.
  rewrite (proj2 (has_duplicate_false ∅ hs)) by (split; [done|apply Forall_true; set_solver]).
  pose proof (mr_median _ _ M). unfold MedianAdjustedTime.
  rewrite !(proj2 (Z.ltb_ge _ _)), (proj2 (Z.eqb_neq _ _)); [done|cbn [length]; lia|done|done|].
  unfold MaxTimeOffsetSeconds in *. destruct (_ <? _) eqn:?; lia.
Qed.

Lemma Block_GetSize_nonce b j : Block_GetSize (with_nonce b j) = Block_GetSize b.
Proof.
  unfold Block_GetSize, Block_Serialize, Blockdata_Serialize. cbn [with_nonce set_header blk_data set_Nonce bd_AuxPow Transactions].
  destruct (AuxPow_Serialize _); [|done]. cbn [mbind option_bind]. destruct (mapM _ _); [|done]. cbn [mbind option_bind].
  do 2 f_equal. rewrite !length_app. unfold Blockdata_SerializeUnsigned. cbn [set_Nonce bd_Version PrevBlockHash TransactionsRoot bd_Timestamp bd_Bits bd_Height bd_Nonce].
  rewrite !length_app. unfold WriteUint32. by rewrite !length_le_bytes.
Qed.
Lemma generated_extra_nonce (bc : Blockchain DB) rand now pool addr b :
  GenerateBlock cfg conf bc rand now pool addr = Ok (Some b, None) -> has_extra_nonce b.
Proof.
  intros G. apply GenerateBlock_inv in G as (fh & mh & best & ancestors & sel & fee & subsidy & v0 & hashed & root & bits &
    _ & _ & _ & _ & _ & _ & _ & _ & _ & Ehash & _ & _ & ->).
  apply mapM_Some in Ehash. inversion Ehash as [|? cb ? hashed' Ecb _ E1 E2]; subst hashed.
  unfold hash_cached in Ecb. destruct (Tx_Hash _) as [h|]; [|done]. injection Ecb as <-.
  eexists _, _, _, _. split_and!; [reflexivity|reflexivity|apply length_be_bytes|apply wf_be_bytes].
Qed.
Lemma mined_context (bc : Blockchain DB) rand now pool addr b j size :
  mining_ready bc now -> GenerateBlock cfg conf bc rand now pool addr = Ok (Some b, None) -> Forall (pooled bc) pool ->
  Block_GetSize b = Some size -> size <= cfg_MaxBlockSize cfg ->
  PowCheckBlockContext cfg (with_nonce b j) (chain_nodes (nodes bc) (BestChain bc)) = Ok None.
Proof.
  intros M G Hpool Esize Hsize.
  destruct (generated_txs _ _ _ _ _ _ _ M G Hpool Esize Hsize) as (cb & sel & Etx & _ & _ & Hel & _).
  apply GenerateBlock_inv in G as (fh & mh & best & ancestors & sel' & fee & subsidy & v0 & hashed & root & bits &
    _ & _ & Ech & _ & _ & _ & _ & _ & _ & _ & _ & Ebits & Eb).
  destruct (mr_best _ _ M) as (best' & ancestors' & Ech' & Hh & Hmed). rewrite Ech in Ech'. injection Ech' as <- <-.
  rewrite Ech. unfold PowCheckBlockContext. rewrite Ebits. cbn [no_panic mbind outcome_bind is_err]. rewrite Hmed.
  cbn [with_nonce set_header Transactions blk_data]. rewrite Etx.
  assert (Hf : forallb (fun t => IsFinalizedTransaction t (uint32 (n_Height best + 1))) sel = true).
  { apply forallb_forall. intros t Ht. rewrite Hh. rewrite List.Forall_forall in Hel. specialize (Hel t Ht). subst b. by destruct Hel. }
  rewrite Hf. subst b. cbn. rewrite Z.eqb_refl. cbn [negb].
  pose proof (mr_clock _ _ M). rewrite (wrapU_id 32) by lia.
  assert (MedianTimePast bc < MedianAdjustedTime (TimeSource bc) now (MedianTimePast bc)).
  { unfold MedianAdjustedTime. destruct (Z.ltb_spec (AdjustedTime (TimeSource bc) now) (MedianTimePast bc + 1)); lia. }
  by rewrite (proj2 (Z.ltb_lt _ _)).
Qed.

(** [ConnectBlock]'s loop over the transactions, where each of them passes. *)
Lemma check_contexts_pass (bc : Blockchain DB) txs :
  Forall (fun t => CheckTransactionContext (H := store_ledger (bc_Store bc)) cfg t = Ok ErrNoError) txs ->
  check_contexts cfg txs bc = Ok (bc, inl tt).
Proof.
  induction 1 as [|t txs Ht _ IH]; [done|]. cbn [check_contexts]. unfold mbind, bcM_bind, gets, run in *. rewrite Ht.
  by rewrite decide_True.
Qed.

(** A generated block has nothing that [ConnectBlock] refuses: the pool's
    transactions were tested when they were selected, and of the coinbase only the
    hash is looked up. *)
Lemma generated_contexts (bc : Blockchain DB) rand now pool addr b size :
  mining_ready bc now -> GenerateBlock cfg conf bc rand now pool addr = Ok (Some b, None) -> Forall (pooled bc) pool ->
  Block_GetSize b = Some size -> size <= cfg_MaxBlockSize cfg ->
  (forall cb h, head (Transactions b) = Some cb -> Tx_Hash cb = Some h -> ledger_IsTxHashDuplicate (Ledger := store_ledger (bc_Store bc)) h = false) ->
  Forall (fun t => CheckTransactionContext (H := store_ledger (bc_Store bc)) cfg t = Ok ErrNoError) (Transactions b).
Proof.
  intros M G Hpool Esize Hsize Hcb.
  destruct (generated_txs _ _ _ _ _ _ _ M G Hpool Esize Hsize) as (cb & sel & Etx & Ecb & _ & Hel & _ & _ & hs & Eh & _).
  rewrite Etx in Hcb |- *. constructor.
  - apply mapM_Some in Eh. inversion Eh as [|? h ? hs' Eh0 _]; subst. unfold CheckTransactionContext.
    rewrite Eh0. cbn [no_panic mbind outcome_bind]. by rewrite (Hcb cb h), Ecb.
  - eapply list.Forall_impl; [exact Hel|]. by intros t (_ & Ht & _).
Qed.


(** The amount a coinbase creates is not checked: whatever it pays to the
    foundation and to the miner, it passes the checks on transactions. *)
Theorem coinbase_amount_unchecked `{Ledger} (bc : Blockchain DB) rand fh mh v0 v1 asset :
  (forall x, cfg_is_foundation cfg x = bool_decide (fst (ToAddress x) = FoundationAddress)) ->
  ToScriptHash FoundationAddress = Ok (fh, None) -> ledger_GetAsset (cfg_AssetID cfg) = inl asset -> a_Precision asset = 8 ->
  (forall enc, Tx_Serialize (coinbase_tx cfg conf bc rand fh mh v0 v1) = Some (enc, None) -> Z.of_nat (length enc) <= cfg_MaxBlockSize cfg) ->
  forall h, CheckTransactionSanity cfg ripemd160 (SetHash (coinbase_tx cfg conf bc rand fh mh v0 v1) h) = Ok ErrNoError.
Proof.
  intros Hf Ef Ea Ep Hs h. destruct (coinbase_serialized bc rand fh mh v0 v1 h) as (enc & Eenc & Hpos & _).
  eapply coinbase_sane; eauto.
Qed.

(** What a generated block contains: the coinbase, whose two outputs share the
    fees and the subsidy without loss, and transactions of the pool, highest
    fee first, each of them final, spendable and with the fee the pool
    computed. *)
Theorem generated_block (bc : Blockchain DB) rand now pool addr b :
  GenerateBlock cfg conf bc rand now pool addr = Ok (Some b, None) ->
  exists fh mh v0 v1 sel subsidy hashed, Transactions b = map fst hashed /\ mapM hash_cached (coinbase_tx cfg conf bc rand fh mh v0 v1 :: sel) = Some hashed /\
    ToAddress fh = (FoundationAddress, None) /\ ToAddress mh = (addr, None) /\
    calcBlockSubsidy cfg (bd_Height (blk_data b)) = Ok subsidy /\
    int64 (v0 + v1) = int64 (foldl (fun a t => int64 (a + Fee t)) 0 sel + subsidy) /\
    (forall t, t ∈ sel -> t ∈ pool) /\ StronglySorted (fun x y => FeePerKB y <= FeePerKB x) sel /\
    Forall (eligible cfg bc (bd_Height (blk_data b))) sel.
Proof.
  intros G. apply GenerateBlock_inv in G as (fh & mh & best & ancestors & sel & fee & subsidy & v0 & hashed & root & bits &
    Ef & Em & _ & Hsub & Hel & _ & -> & Esub & _ & Ehash & _ & _ & ->).
  exists fh, mh, v0, (int64 (int64 (foldl (fun a t => int64 (a + Fee t)) 0 sel + subsidy) - v0)), sel, subsidy, hashed.
  split_and!; [done|done|by apply ToScriptHash_sound|by apply ToScriptHash_sound|done| | | |done].
  - apply reward_shared, wrapS_range. lia.
  - intros t Ht. rewrite <- (sort_by_fee_perm pool). by eapply elem_of_sublist.
  - pose proof (sort_by_fee_sorted pool) as Hs. revert Hs. clear -Hsub.
    induction Hsub as [|x l k Hs IH|x l k Hs IH]; intros S; [done|inversion S; subst|inversion S; subst; by apply IH].
    constructor; [by apply IH|]. apply list.Forall_forall. intros y Hy.
    match goal with F : Forall _ k |- _ => apply (proj1 (list.Forall_forall _ _) F) end. by eapply elem_of_sublist.
Qed.
End Accepted.

(** * A mined block *)

Definition pow_cfg : Config :=
  mkConfig 1000000 100 100 false (repeat 1 32) (fun x => bool_decide (fst (ToAddress x) = FoundationAddress)) regNet.
Definition pow_conf : PowConfiguration := mkPowConf FoundationAddress [109].
Definition mined : Block :=
  match GenerateBlock pow_cfg pow_conf small_main 1 1506816000 [] FoundationAddress with Ok (Some b, _) => b | _ => new_Block end.

Lemma mined_generated : GenerateBlock pow_cfg pow_conf small_main 1 1506816000 [] FoundationAddress = Ok (Some mined, None).
Proof. vm_compute. reflexivity. Qed.
Lemma no_ticks b n : fresh_tick (fun _ => None) b n.
Proof. done. Qed.

Lemma solver_finds_nonce_witness : SolveBlock 10 (fun _ => None) mined = Some (Some (true, with_nonce mined 1)).
Proof.
  apply (solver_finds_nonce 10 (fun _ => None) mined 1).
  - exact (generated_extra_nonce pow_cfg pow_conf small_main 1 1506816000 [] FoundationAddress mined mined_generated).
  - lia.
  - cbn. lia.
  - intros x Hx. replace x with 0 by lia. vm_compute. reflexivity.
  - vm_compute. reflexivity.
  - apply no_ticks.
Defined.

Lemma HashToBig_nonneg h : wf_bytes h -> 0 <= HashToBig h.
Proof.
  intros Hh. unfold HashToBig, be_val. rewrite BytesReverse_reverse, reverse_involutive. by apply le_val_bound.
Qed.
Lemma has_extra_nonce_header b bd : has_extra_nonce b -> has_extra_nonce (set_header b bd).
Proof. done. Qed.
(** The target of these bits is negative, so nothing solves the block. *)
Definition hopeless : Block := set_header mined (set_Bits (blk_data mined) 0x04923456).
Lemma solver_never_gives_up_witness : SolveBlock 1000 (fun _ => None) hopeless = Some None.
Proof.
  apply (solver_never_gives_up 1000 (fun _ => None) hopeless).
  - apply has_extra_nonce_header. exact (generated_extra_nonce pow_cfg pow_conf small_main 1 1506816000 [] FoundationAddress mined mined_generated).
  - intros x Hx. apply Z.leb_gt. change (CompactToBig _) with (-305419776).
    pose proof (HashToBig_nonneg (Blockdata_Hash (blk_data (with_nonce hopeless x))) (proj2 (wf_dsha256 _))). lia.
  - apply no_ticks.
Defined.

Lemma small_main_ready : mining_ready pow_cfg small_main 1506816000.
Proof.
  assert (T : match chain_nodes (nodes small_main) (BestChain small_main) with
    | best :: ancestors => bool_decide (n_Height best = BlockHeight small_main /\ CalcPastMedianTime (best :: ancestors) = Some (MedianTimePast small_main))
    | [] => false end = true) by (vm_compute; reflexivity).
  split; [|by_decision|by_decision|by_decision|done|done|done|].
  - destruct (chain_nodes _ _) as [|best ancestors]; [done|]. apply bool_decide_eq_true in T. destruct T as [T1 T2].
    exists best, ancestors. split; [reflexivity|]. split; [exact T1|exact T2].
  - exists (mkAsset [69; 76; 65] [] 8 0 0). split; [vm_compute; reflexivity|done].
Qed.

Definition foundation_hash : Uint160 :=
  [63; 66; 230; 101; 201; 185; 188; 20; 203; 115; 201; 36; 181; 243; 128; 237; 11; 101; 50; 113].
Lemma coinbase_amount_unchecked_witness :
  exists fh, ToScriptHash FoundationAddress = Ok (fh, None) /\
  CheckTransactionSanity (H := store_ledger (bc_Store small_main)) (H0 := prefix_crypto) pow_cfg sample_ripemd
    (SetHash (coinbase_tx pow_cfg pow_conf small_main 1 fh zero160 (2 ^ 62) (2 ^ 62)) zero256) = Ok ErrNoError.
Proof.
  destruct (ToScriptHash FoundationAddress) as [[fh e]| |] eqn:Ef; [|vm_compute in Ef; discriminate Ef..].
  assert (e = None) as -> by (vm_compute in Ef; by injection Ef as _ <-).
  exists fh. split; [exact eq_refl|].
  assert (L : match Tx_Serialize (coinbase_tx pow_cfg pow_conf small_main 1 foundation_hash zero160 (2 ^ 62) (2 ^ 62)) with
    Some (enc, _) => Z.of_nat (length enc) <=? cfg_MaxBlockSize pow_cfg | None => false end = true) by (vm_compute; reflexivity).
  assert (fh = foundation_hash) as -> by (vm_compute in Ef; by injection Ef as <-).
  apply (coinbase_amount_unchecked (H1 := prefix_crypto) (H2 := store_ledger (bc_Store small_main)) pow_cfg pow_conf sample_ripemd small_main 1 foundation_hash zero160
    (2 ^ 62) (2 ^ 62) (mkAsset [69; 76; 65] [] 8 0 0)); [intros x; exact eq_refl|exact Ef|vm_compute; reflexivity|exact eq_refl|].
  intros enc E. rewrite E in L. by apply Z.leb_le.
Defined.

Lemma generated_block_witness :
  exists fh v0 v1 sel subsidy, ToAddress fh = (FoundationAddress, None) /\
    Transactions mined <> [] /\ calcBlockSubsidy pow_cfg (bd_Height (blk_data mined)) = Ok subsidy /\ int64 (v0 + v1) = int64 (foldl (fun a t => int64 (a + Fee t)) 0 sel + subsidy).
Proof.
  destruct (generated_block pow_cfg pow_conf small_main 1 1506816000 [] FoundationAddress mined mined_generated)
    as (fh & mh & v0 & v1 & sel & subsidy & hashed & Et & Eh & Ef & Em & Es & Ev & _).
  exists fh, v0, v1, sel, subsidy. split_and!; [exact Ef| |exact Es|exact Ev].
  vm_compute. discriminate.
Defined.

(** ** The schedule *)

Definition main_cfg : Config := mkConfig 8000000 10000 100 false zero256 (fun _ => false) mainNet.
(** A number of blocks, a year long each, and the subsidy after them. *)
Definition year_subsidy (k : nat) : option Z := grow_total main_cfg k (int64 OrginAmountOfEla) ≫= subsidy_per_block main_cfg.
Lemma calcBlockSubsidy_year cfg h : cfg_ChainParam cfg = mainNet ->
  calcBlockSubsidy cfg h = match year_subsidy (Z.to_nat (h / 262800)) with Some v => Ok v | None => Unmodelled end.
Proof.
  intros E. assert (Ei : SubsidyInterval cfg = 262800) by (unfold SubsidyInterval; rewrite E; reflexivity).
  assert (Em : SubsidyInterval main_cfg = 262800) by reflexivity.
  assert (Es : forall t, subsidy_per_block cfg t = subsidy_per_block main_cfg t) by (intros; unfold subsidy_per_block; by rewrite Ei, Em).
  assert (Eg : forall n t, grow_total cfg n t = grow_total main_cfg n t).
  { induction n as [|n IH]; intros t; [done|]. cbn [grow_total]. rewrite Es, Ei, Em. destruct (subsidy_per_block main_cfg t); [cbn; apply IH|done]. }
  unfold calcBlockSubsidy, year_subsidy. rewrite Ei. change (uint32 262800) with 262800. cbn [Z.eqb]. rewrite Eg.
  destruct (grow_total main_cfg _ _) as [t|]; cbn [mbind option_bind]; [by rewrite Es|done].
Qed.

(** The subsidies of [n] years, year by year, are between two bounds. *)
Fixpoint years_within (n : nat) (low high total : Z) : bool :=
  match n with
  | O => true
  | S n => match subsidy_per_block main_cfg total with
           | Some v => (low <=? v) && (v <=? high) && years_within n low high (int64 (total + int64 (v * SubsidyInterval main_cfg)))
           | None => false
           end
  end.
Lemma years_within_spec n low high : forall total k, years_within n low high total = true -> (k < n)%nat ->
  exists v, grow_total main_cfg k total ≫= subsidy_per_block main_cfg = Some v /\ low <= v <= high.
Proof.
  induction n as [|n IH]; intros total k Hy Hk; [lia|]. cbn [years_within] in Hy.
  destruct (subsidy_per_block main_cfg total) as [v|] eqn:E; [|done].
  apply andb_true_iff in Hy as [[Hl Hh]%andb_true_iff Hy]. destruct k as [|k].
  - exists v. cbn [grow_total mbind option_bind]. rewrite E. split; [done|]. lia.
  - cbn [grow_total]. rewrite E. cbn [mbind option_bind]. apply IH; [done|lia].
Qed.

(** On the main network the subsidy is between about five and 13,900 coins, in
    units of 10^-8, for 203 years of blocks; at height 53,348,400 the sum behind
    it has left the range of 64 bits and the subsidy is negative. *)
Theorem subsidy_schedule cfg : cfg_ChainParam cfg = mainNet ->
  (forall h, 0 <= h < 203 * 262800 -> exists v, calcBlockSubsidy cfg h = Ok v /\ 502283105 <= v <= 1385744323521) /\
  (exists v, calcBlockSubsidy cfg (203 * 262800) = Ok v /\ v < 0).
Proof.
  intros E. split.
  - intros h Hh. rewrite calcBlockSubsidy_year by done.
    assert (0 <= h / 262800 < 203) by (split; [apply Z.div_pos; lia|apply Z.div_lt_upper_bound; lia]).
    destruct (years_within_spec 203 502283105 1385744323521 (int64 OrginAmountOfEla) (Z.to_nat (h / 262800))) as (v & Ev & Hv);
      [vm_compute; reflexivity|lia|]. exists v. unfold year_subsidy. by rewrite Ev.
  - rewrite calcBlockSubsidy_year by done. assert (Ev : year_subsidy (Z.to_nat (203 * 262800 / 262800)) = Some (-1366549506841)) by (vm_compute; reflexivity).
    rewrite Ev. exists (-1366549506841). split; [done|lia].
Qed.
Lemma subsidy_schedule_witness :
  (forall h, 0 <= h < 203 * 262800 -> exists v, calcBlockSubsidy main_cfg h = Ok v /\ 502283105 <= v <= 1385744323521) /\
  (exists v, calcBlockSubsidy main_cfg (203 * 262800) = Ok v /\ v < 0).
Proof. apply (subsidy_schedule main_cfg). reflexivity. Defined.

(** [Start], then [Halt], then discrete mining. *)
Lemma one_miner_witness : (miners (Start NewPowService) <= 1)%nat /\ discreteMining (Start NewPowService) = false.
Proof.
  destruct (one_miner (Start NewPowService) false) as (H1 & _ & H2); [apply rtc_once; apply pow_start|by split].
Defined.
