(* ===== verification/Node.v ===== *)
(** [net/node]: nodes, the list of neighbours, sending and relaying
    ([node.go], [nodeMap.go], [infoUpdate.go], [link.go]).

    In the code one struct serves for the local node and for its peers.  Here
    [node] holds the fields that are used of every node and [tables] those only
    the local node uses; nodes are shared and updated in place, so they live in
    a heap.  [world] is what a message handler works on: the nodes, the tables,
    the chain with its store, and the bytes written to connections, in order.
    A write to a connection the node closed itself fails; other failures of the
    network are not modelled.  Locks, semaphores and waiting are dropped, and
    an asynchronous send is recorded when it is started.  Times are nanoseconds
    and arguments; where Go ranges over the map of neighbours, the enumeration
    is the one of [map_to_list]. *)

From S2P Require Import Prelude Sha256 Serialization Common Fixed64 Transaction Merkle AuxPow Block.
From S2P Require Import Store Utxo Difficulty MedianTime Vm Address PubKey Contract Message Link Peers Validator TxPool Blockchain Ledger.

(** The node state. *)
Definition INIT : Z := 0.
Definition HAND : Z := 1.
Definition HANDSHAKE : Z := 2.
Definition HANDSHAKED : Z := 3.
Definition ESTABLISH : Z := 4.
Definition INACTIVITY : Z := 5.
Definition VERIFYNODE : Z := 1.
Definition SERVICENODE : Z := 2.
Definition PROTOCOLVERSION : Z := 0.
Definition HTTPINFOFLAG : nat := 0.
Definition MINCONNCNT : Z := 3.

Record node := mkNetNode {
  nd_state : Z;
  nd_id : Z;
  nd_cap : bytes;
  nd_version : Z;
  nd_services : Z;
  nd_relay : bool;
  nd_height : Z;
  nd_txnCnt : Z;
  nd_rxTxnCnt : Z;
  nd_publicKey : option PubKey;
  nd_addr : bytes;
  nd_port : Z;
  nd_httpInfoPort : Z;
  nd_time : Z;
  nd_open : bool;
  nd_ids : idCache;
  nd_syncFlag : Z;
  nd_cachedHashes : list Uint256 }.
Definition set_nd_state (v : Z) (n : node) : node :=
  mkNetNode v (nd_id n) (nd_cap n) (nd_version n) (nd_services n) (nd_relay n) (nd_height n) (nd_txnCnt n) (nd_rxTxnCnt n) (nd_publicKey n) (nd_addr n) (nd_port n) (nd_httpInfoPort n) (nd_time n) (nd_open n) (nd_ids n) (nd_syncFlag n) (nd_cachedHashes n).
Definition set_nd_id (v : Z) (n : node) : node :=
  mkNetNode (nd_state n) v (nd_cap n) (nd_version n) (nd_services n) (nd_relay n) (nd_height n) (nd_txnCnt n) (nd_rxTxnCnt n) (nd_publicKey n) (nd_addr n) (nd_port n) (nd_httpInfoPort n) (nd_time n) (nd_open n) (nd_ids n) (nd_syncFlag n) (nd_cachedHashes n).
Definition set_nd_cap (v : bytes) (n : node) : node :=
  mkNetNode (nd_state n) (nd_id n) v (nd_version n) (nd_services n) (nd_relay n) (nd_height n) (nd_txnCnt n) (nd_rxTxnCnt n) (nd_publicKey n) (nd_addr n) (nd_port n) (nd_httpInfoPort n) (nd_time n) (nd_open n) (nd_ids n) (nd_syncFlag n) (nd_cachedHashes n).
Definition set_nd_version (v : Z) (n : node) : node :=
  mkNetNode (nd_state n) (nd_id n) (nd_cap n) v (nd_services n) (nd_relay n) (nd_height n) (nd_txnCnt n) (nd_rxTxnCnt n) (nd_publicKey n) (nd_addr n) (nd_port n) (nd_httpInfoPort n) (nd_time n) (nd_open n) (nd_ids n) (nd_syncFlag n) (nd_cachedHashes n).
Definition set_nd_services (v : Z) (n : node) : node :=
  mkNetNode (nd_state n) (nd_id n) (nd_cap n) (nd_version n) v (nd_relay n) (nd_height n) (nd_txnCnt n) (nd_rxTxnCnt n) (nd_publicKey n) (nd_addr n) (nd_port n) (nd_httpInfoPort n) (nd_time n) (nd_open n) (nd_ids n) (nd_syncFlag n) (nd_cachedHashes n).
Definition set_nd_relay (v : bool) (n : node) : node :=
  mkNetNode (nd_state n) (nd_id n) (nd_cap n) (nd_version n) (nd_services n) v (nd_height n) (nd_txnCnt n) (nd_rxTxnCnt n) (nd_publicKey n) (nd_addr n) (nd_port n) (nd_httpInfoPort n) (nd_time n) (nd_open n) (nd_ids n) (nd_syncFlag n) (nd_cachedHashes n).
Definition set_nd_height (v : Z) (n : node) : node :=
  mkNetNode (nd_state n) (nd_id n) (nd_cap n) (nd_version n) (nd_services n) (nd_relay n) v (nd_txnCnt n) (nd_rxTxnCnt n) (nd_publicKey n) (nd_addr n) (nd_port n) (nd_httpInfoPort n) (nd_time n) (nd_open n) (nd_ids n) (nd_syncFlag n) (nd_cachedHashes n).
Definition set_nd_txnCnt (v : Z) (n : node) : node :=
  mkNetNode (nd_state n) (nd_id n) (nd_cap n) (nd_version n) (nd_services n) (nd_relay n) (nd_height n) v (nd_rxTxnCnt n) (nd_publicKey n) (nd_addr n) (nd_port n) (nd_httpInfoPort n) (nd_time n) (nd_open n) (nd_ids n) (nd_syncFlag n) (nd_cachedHashes n).
Definition set_nd_rxTxnCnt (v : Z) (n : node) : node :=
  mkNetNode (nd_state n) (nd_id n) (nd_cap n) (nd_version n) (nd_services n) (nd_relay n) (nd_height n) (nd_txnCnt n) v (nd_publicKey n) (nd_addr n) (nd_port n) (nd_httpInfoPort n) (nd_time n) (nd_open n) (nd_ids n) (nd_syncFlag n) (nd_cachedHashes n).
Definition set_nd_publicKey (v : option PubKey) (n : node) : node :=
  mkNetNode (nd_state n) (nd_id n) (nd_cap n) (nd_version n) (nd_services n) (nd_relay n) (nd_height n) (nd_txnCnt n) (nd_rxTxnCnt n) v (nd_addr n) (nd_port n) (nd_httpInfoPort n) (nd_time n) (nd_open n) (nd_ids n) (nd_syncFlag n) (nd_cachedHashes n).
Definition set_nd_addr (v : bytes) (n : node) : node :=
  mkNetNode (nd_state n) (nd_id n) (nd_cap n) (nd_version n) (nd_services n) (nd_relay n) (nd_height n) (nd_txnCnt n) (nd_rxTxnCnt n) (nd_publicKey n) v (nd_port n) (nd_httpInfoPort n) (nd_time n) (nd_open n) (nd_ids n) (nd_syncFlag n) (nd_cachedHashes n).
Definition set_nd_port (v : Z) (n : node) : node :=
  mkNetNode (nd_state n) (nd_id n) (nd_cap n) (nd_version n) (nd_services n) (nd_relay n) (nd_height n) (nd_txnCnt n) (nd_rxTxnCnt n) (nd_publicKey n) (nd_addr n) v (nd_httpInfoPort n) (nd_time n) (nd_open n) (nd_ids n) (nd_syncFlag n) (nd_cachedHashes n).
Definition set_nd_httpInfoPort (v : Z) (n : node) : node :=
  mkNetNode (nd_state n) (nd_id n) (nd_cap n) (nd_version n) (nd_services n) (nd_relay n) (nd_height n) (nd_txnCnt n) (nd_rxTxnCnt n) (nd_publicKey n) (nd_addr n) (nd_port n) v (nd_time n) (nd_open n) (nd_ids n) (nd_syncFlag n) (nd_cachedHashes n).
Definition set_nd_time (v : Z) (n : node) : node :=
  mkNetNode (nd_state n) (nd_id n) (nd_cap n) (nd_version n) (nd_services n) (nd_relay n) (nd_height n) (nd_txnCnt n) (nd_rxTxnCnt n) (nd_publicKey n) (nd_addr n) (nd_port n) (nd_httpInfoPort n) v (nd_open n) (nd_ids n) (nd_syncFlag n) (nd_cachedHashes n).
Definition set_nd_open (v : bool) (n : node) : node :=
  mkNetNode (nd_state n) (nd_id n) (nd_cap n) (nd_version n) (nd_services n) (nd_relay n) (nd_height n) (nd_txnCnt n) (nd_rxTxnCnt n) (nd_publicKey n) (nd_addr n) (nd_port n) (nd_httpInfoPort n) (nd_time n) v (nd_ids n) (nd_syncFlag n) (nd_cachedHashes n).
Definition set_nd_ids (v : idCache) (n : node) : node :=
  mkNetNode (nd_state n) (nd_id n) (nd_cap n) (nd_version n) (nd_services n) (nd_relay n) (nd_height n) (nd_txnCnt n) (nd_rxTxnCnt n) (nd_publicKey n) (nd_addr n) (nd_port n) (nd_httpInfoPort n) (nd_time n) (nd_open n) v (nd_syncFlag n) (nd_cachedHashes n).
Definition set_nd_syncFlag (v : Z) (n : node) : node :=
  mkNetNode (nd_state n) (nd_id n) (nd_cap n) (nd_version n) (nd_services n) (nd_relay n) (nd_height n) (nd_txnCnt n) (nd_rxTxnCnt n) (nd_publicKey n) (nd_addr n) (nd_port n) (nd_httpInfoPort n) (nd_time n) (nd_open n) (nd_ids n) v (nd_cachedHashes n).
Definition set_nd_cachedHashes (v : list Uint256) (n : node) : node :=
  mkNetNode (nd_state n) (nd_id n) (nd_cap n) (nd_version n) (nd_services n) (nd_relay n) (nd_height n) (nd_txnCnt n) (nd_rxTxnCnt n) (nd_publicKey n) (nd_addr n) (nd_port n) (nd_httpInfoPort n) (nd_time n) (nd_open n) (nd_ids n) (nd_syncFlag n) v.

(** [NewNode]: the cache of a peer is never initialised. *)
Definition NewNode (addr : bytes) : node :=
  mkNetNode INIT 0 (replicate 32 0) 0 0 false 0 0 0 None addr 0 0 zero_time true (mkIdCache zero256 0 [] ∅) 0 [].

Record tables := mkTables {
  lt_nbrs : gmap Z positive;
  lt_pool : TXNPool;
  lt_known : KnownAddressList;
  lt_connecting : list bytes;
  lt_retry : gmap bytes Z;
  lt_headerFirst : bool;
  lt_requested : gmap Uint256 Z;
  lt_checkpoint : option Checkpoint;
  lt_startSync : bool;
  lt_StartHash : Uint256;
  lt_StopHash : Uint256;
  lt_MaxOutboundCnt : Z;
  lt_DefaultMaxPeers : Z;
  lt_GetAddrMax : Z;
  lt_connCnt : Z }.
Definition set_lt_nbrs (v : gmap Z positive) (n : tables) : tables :=
  mkTables v (lt_pool n) (lt_known n) (lt_connecting n) (lt_retry n) (lt_headerFirst n) (lt_requested n) (lt_checkpoint n) (lt_startSync n) (lt_StartHash n) (lt_StopHash n) (lt_MaxOutboundCnt n) (lt_DefaultMaxPeers n) (lt_GetAddrMax n) (lt_connCnt n).
Definition set_lt_pool (v : TXNPool) (n : tables) : tables :=
  mkTables (lt_nbrs n) v (lt_known n) (lt_connecting n) (lt_retry n) (lt_headerFirst n) (lt_requested n) (lt_checkpoint n) (lt_startSync n) (lt_StartHash n) (lt_StopHash n) (lt_MaxOutboundCnt n) (lt_DefaultMaxPeers n) (lt_GetAddrMax n) (lt_connCnt n).
Definition set_lt_known (v : KnownAddressList) (n : tables) : tables :=
  mkTables (lt_nbrs n) (lt_pool n) v (lt_connecting n) (lt_retry n) (lt_headerFirst n) (lt_requested n) (lt_checkpoint n) (lt_startSync n) (lt_StartHash n) (lt_StopHash n) (lt_MaxOutboundCnt n) (lt_DefaultMaxPeers n) (lt_GetAddrMax n) (lt_connCnt n).
Definition set_lt_connecting (v : list bytes) (n : tables) : tables :=
  mkTables (lt_nbrs n) (lt_pool n) (lt_known n) v (lt_retry n) (lt_headerFirst n) (lt_requested n) (lt_checkpoint n) (lt_startSync n) (lt_StartHash n) (lt_StopHash n) (lt_MaxOutboundCnt n) (lt_DefaultMaxPeers n) (lt_GetAddrMax n) (lt_connCnt n).
Definition set_lt_retry (v : gmap bytes Z) (n : tables) : tables :=
  mkTables (lt_nbrs n) (lt_pool n) (lt_known n) (lt_connecting n) v (lt_headerFirst n) (lt_requested n) (lt_checkpoint n) (lt_startSync n) (lt_StartHash n) (lt_StopHash n) (lt_MaxOutboundCnt n) (lt_DefaultMaxPeers n) (lt_GetAddrMax n) (lt_connCnt n).
Definition set_lt_headerFirst (v : bool) (n : tables) : tables :=
  mkTables (lt_nbrs n) (lt_pool n) (lt_known n) (lt_connecting n) (lt_retry n) v (lt_requested n) (lt_checkpoint n) (lt_startSync n) (lt_StartHash n) (lt_StopHash n) (lt_MaxOutboundCnt n) (lt_DefaultMaxPeers n) (lt_GetAddrMax n) (lt_connCnt n).
Definition set_lt_requested (v : gmap Uint256 Z) (n : tables) : tables :=
  mkTables (lt_nbrs n) (lt_pool n) (lt_known n) (lt_connecting n) (lt_retry n) (lt_headerFirst n) v (lt_checkpoint n) (lt_startSync n) (lt_StartHash n) (lt_StopHash n) (lt_MaxOutboundCnt n) (lt_DefaultMaxPeers n) (lt_GetAddrMax n) (lt_connCnt n).
Definition set_lt_checkpoint (v : option Checkpoint) (n : tables) : tables :=
  mkTables (lt_nbrs n) (lt_pool n) (lt_known n) (lt_connecting n) (lt_retry n) (lt_headerFirst n) (lt_requested n) v (lt_startSync n) (lt_StartHash n) (lt_StopHash n) (lt_MaxOutboundCnt n) (lt_DefaultMaxPeers n) (lt_GetAddrMax n) (lt_connCnt n).
Definition set_lt_startSync (v : bool) (n : tables) : tables :=
  mkTables (lt_nbrs n) (lt_pool n) (lt_known n) (lt_connecting n) (lt_retry n) (lt_headerFirst n) (lt_requested n) (lt_checkpoint n) v (lt_StartHash n) (lt_StopHash n) (lt_MaxOutboundCnt n) (lt_DefaultMaxPeers n) (lt_GetAddrMax n) (lt_connCnt n).
Definition set_lt_StartHash (v : Uint256) (n : tables) : tables :=
  mkTables (lt_nbrs n) (lt_pool n) (lt_known n) (lt_connecting n) (lt_retry n) (lt_headerFirst n) (lt_requested n) (lt_checkpoint n) (lt_startSync n) v (lt_StopHash n) (lt_MaxOutboundCnt n) (lt_DefaultMaxPeers n) (lt_GetAddrMax n) (lt_connCnt n).
Definition set_lt_StopHash (v : Uint256) (n : tables) : tables :=
  mkTables (lt_nbrs n) (lt_pool n) (lt_known n) (lt_connecting n) (lt_retry n) (lt_headerFirst n) (lt_requested n) (lt_checkpoint n) (lt_startSync n) (lt_StartHash n) v (lt_MaxOutboundCnt n) (lt_DefaultMaxPeers n) (lt_GetAddrMax n) (lt_connCnt n).
Definition set_lt_MaxOutboundCnt (v : Z) (n : tables) : tables :=
  mkTables (lt_nbrs n) (lt_pool n) (lt_known n) (lt_connecting n) (lt_retry n) (lt_headerFirst n) (lt_requested n) (lt_checkpoint n) (lt_startSync n) (lt_StartHash n) (lt_StopHash n) v (lt_DefaultMaxPeers n) (lt_GetAddrMax n) (lt_connCnt n).
Definition set_lt_DefaultMaxPeers (v : Z) (n : tables) : tables :=
  mkTables (lt_nbrs n) (lt_pool n) (lt_known n) (lt_connecting n) (lt_retry n) (lt_headerFirst n) (lt_requested n) (lt_checkpoint n) (lt_startSync n) (lt_StartHash n) (lt_StopHash n) (lt_MaxOutboundCnt n) v (lt_GetAddrMax n) (lt_connCnt n).
Definition set_lt_GetAddrMax (v : Z) (n : tables) : tables :=
  mkTables (lt_nbrs n) (lt_pool n) (lt_known n) (lt_connecting n) (lt_retry n) (lt_headerFirst n) (lt_requested n) (lt_checkpoint n) (lt_startSync n) (lt_StartHash n) (lt_StopHash n) (lt_MaxOutboundCnt n) (lt_DefaultMaxPeers n) v (lt_connCnt n).
Definition set_lt_connCnt (v : Z) (n : tables) : tables :=
  mkTables (lt_nbrs n) (lt_pool n) (lt_known n) (lt_connecting n) (lt_retry n) (lt_headerFirst n) (lt_requested n) (lt_checkpoint n) (lt_startSync n) (lt_StartHash n) (lt_StopHash n) (lt_MaxOutboundCnt n) (lt_DefaultMaxPeers n) (lt_GetAddrMax n) v.

(** What the node reads from the configuration file. *)
Record NetConfig := mkNetConfig {
  nc_Magic : Z; nc_HttpInfoPort : Z; nc_HttpInfoStart : bool; nc_NodePort : Z; nc_ServiceNode : bool; nc_VerifyNode : bool;
  nc_AddCheckpoints : list bytes; nc_GenBlockTime : Z; nc_MaxOutboundCnt : Z; nc_DefaultMaxPeers : Z; nc_GetAddrMax : Z }.

(** * Limits *)

Definition DEFAULTMAXPEERS : Z := 125.
Definition GETADDRMAX : Z := 2500.
Definition SetMaxOutboundCnt (nc : NetConfig) (t : tables) : tables :=
  set_lt_MaxOutboundCnt (if (nc_MaxOutboundCnt nc <? MAXOUTBOUNDCNT) && (0 <? nc_MaxOutboundCnt nc) then nc_MaxOutboundCnt nc else MAXOUTBOUNDCNT) t.
Definition SetGetAddrMax (nc : NetConfig) (t : tables) : tables :=
  set_lt_GetAddrMax (if (nc_GetAddrMax nc <? GETADDRMAX) && (0 <? nc_GetAddrMax nc) then nc_GetAddrMax nc else GETADDRMAX) t.
(** The limit of peers is set to the one of outgoing connections. *)
Definition SetDefaultMaxPeers (nc : NetConfig) (t : tables) : tables :=
  set_lt_DefaultMaxPeers (if (nc_DefaultMaxPeers nc <? DEFAULTMAXPEERS) && (0 <? nc_DefaultMaxPeers nc) then nc_MaxOutboundCnt nc else DEFAULTMAXPEERS) t.

(** [InitNode]: the identifier is the first eight bytes of the encoded key. *)
Definition InitNode (nc : NetConfig) (pubKey : PubKey) (MAXIDCACHED : nat) : option (node * tables) :=
  '(key, _) ← EncodePoint pubKey true;
  key8 ← slice key 0 8;
  let services := if nc_ServiceNode nc then SERVICENODE else if nc_VerifyNode nc then VERIFYNODE else 0 in
  let n := mkNetNode INIT (le_val key8) (replicate 32 0) PROTOCOLVERSION services true 0 0 0 (Some pubKey) [] (uint16 (nc_NodePort nc)) 0
             zero_time true (idCache_init MAXIDCACHED) 0 [] in
  let t := mkTables ∅ pool_init KnownAddressList_init [] ∅ false ∅ None false zero256 zero256 0 0 0 0 in
  Some (n, SetGetAddrMax nc (SetDefaultMaxPeers nc (SetMaxOutboundCnt nc t))).

(** * Fields of a node *)

Definition GetHttpInfoState (n : node) : bool := nth HTTPINFOFLAG (nd_cap n) 0 =? 1.
Definition SetHttpInfoState (b : bool) (n : node) : node := set_nd_cap (<[HTTPINFOFLAG := if b then 1 else 0]> (nd_cap n)) n.
Definition UpdateInfo (t version services port nonce relay height : Z) (n : node) : node :=
  set_nd_height height (set_nd_relay (negb (relay =? 0)) (set_nd_port port (set_nd_services services
    (set_nd_version version (set_nd_id nonce (set_nd_time t n)))))).
Definition node_IsSyncHeaders (n : node) : bool := IsSyncHeaders (nd_syncFlag n).
Definition node_SetSyncHeaders (b : bool) (n : node) : node := set_nd_syncFlag (SetSyncHeaders b (nd_syncFlag n)) n.

(** [net.ParseIP] of an address without a colon (which [parseIPaddr] cuts off):
    four decimal numbers, as a 16-byte address. *)
Fixpoint split_dot (s : bytes) : list bytes :=
  match s with
  | [] => [[]]
  | c :: s =>
      match split_dot s with
      | w :: ws => if c =? 46 then [] :: w :: ws else (c :: w) :: ws
      | [] => [[c]]
      end
  end.
Definition ip_octet (s : bytes) : option Z :=
  if (length s =? 0)%nat || negb (forallb is_digit s) || (3 <? length s)%nat then None
  else let v := digits_val 0 s in if 255 <? v then None else Some v.
Definition ParseIP (s : bytes) : option bytes :=
  os ← mapM ip_octet (split_dot s);
  if (length os =? 4)%nat then Some (replicate 10 0 ++ [255; 255] ++ os) else None.
Definition GetAddr16 (n : node) : bytes * err :=
  match ParseIP (nd_addr n) with
  | None => (replicate 16 0, Some (NewError "Parse IP address error"))
  | Some ip => (ip, None)
  end.
Definition getNodeAddr (now : Z) (n : node) : NodeAddr :=
  mkNodeAddr now (nd_services n) (fst (GetAddr16 n)) (nd_port n) (nd_id n).
(** [addr + ":" + strconv.Itoa(int(port))]. *)
Definition addr_port (n : node) : bytes := nd_addr n ++ 58 :: big_String (nd_port n).

Section World.
Context {DB : Type} `{IStore DB}.

Record world := mkWorld {
  w_heap : gmap positive node;
  w_local : positive;
  w_tables : tables;
  w_chain : Blockchain DB;
  w_out : list (positive * bytes);
  w_duplicates : Z }.
Definition set_w_heap (v : gmap positive node) (n : world) : world :=
  mkWorld v (w_local n) (w_tables n) (w_chain n) (w_out n) (w_duplicates n).
Definition set_w_local (v : positive) (n : world) : world :=
  mkWorld (w_heap n) v (w_tables n) (w_chain n) (w_out n) (w_duplicates n).
Definition set_w_tables (v : tables) (n : world) : world :=
  mkWorld (w_heap n) (w_local n) v (w_chain n) (w_out n) (w_duplicates n).
Definition set_w_chain (v : Blockchain DB) (n : world) : world :=
  mkWorld (w_heap n) (w_local n) (w_tables n) v (w_out n) (w_duplicates n).
Definition set_w_out (v : list (positive * bytes)) (n : world) : world :=
  mkWorld (w_heap n) (w_local n) (w_tables n) (w_chain n) v (w_duplicates n).
Definition set_w_duplicates (v : Z) (n : world) : world :=
  mkWorld (w_heap n) (w_local n) (w_tables n) (w_chain n) (w_out n) v.

(** * Effects *)

(** A handler changes the world and returns a value or an error. *)
Definition netM (A : Type) : Type := world -> outcome (world * (A + error)).
#[export] Instance netM_ret : MRet netM := fun A a w => Ok (w, inl a).
#[export] Instance netM_bind : MBind netM := fun A B f m w =>
  match m w with
  | Ok (w, inl a) => f a w
  | Ok (w, inr e) => Ok (w, inr e)
  | Panic => Panic
  | Unmodelled => Unmodelled
  end.
Definition fail {A} (e : error) : netM A := fun w => Ok (w, inr e).
Definition ask {A} (f : world -> A) : netM A := fun w => Ok (w, inl (f w)).
Definition change (f : world -> world) : netM unit := fun w => Ok (f w, inl tt).
Definition lift {A} (o : outcome A) : netM A := fun w =>
  match o with Ok a => Ok (w, inl a) | Panic => Panic | Unmodelled => Unmodelled end.
Definition need {A} (o : option A) : netM A := lift (no_panic o).
Definition check (e : err) : netM unit := match e with Some e => fail e | None => mret tt end.
(** Go on after an error. *)
Definition attempt {A} (m : netM A) : netM (A + error) := fun w =>
  match m w with Ok (w, r) => Ok (w, inl r) | Panic => Panic | Unmodelled => Unmodelled end.
Definition on_chain {A} (m : bcM A) : netM A := fun w =>
  match m (w_chain w) with Ok (bc, r) => Ok (set_w_chain bc w, r) | Panic => Panic | Unmodelled => Unmodelled end.

Definition get_node (p : positive) : netM node := h ← ask w_heap; need (h !! p).
Definition upd_node (p : positive) (f : node -> node) : netM unit :=
  n ← get_node p; change (fun w => set_w_heap (<[p := f n]> (w_heap w)) w).
Definition get_local : netM node := p ← ask w_local; get_node p.
Definition upd_local (f : node -> node) : netM unit := p ← ask w_local; upd_node p f.
Definition upd_tables (f : tables -> tables) : netM unit := change (fun w => set_w_tables (f (w_tables w)) w).
Definition set_state (p : positive) (s : Z) : netM unit := upd_node p (set_nd_state s).

(** * Connections *)

Definition CloseConn (p : positive) : netM unit := upd_node p (set_nd_open false).
Definition NodeDisconnect (p : positive) : netM unit := _ ← set_state p INACTIVITY; CloseConn p.
Definition Tx (p : positive) (buf : bytes) : netM unit :=
  n ← get_node p;
  if nd_state n =? INACTIVITY then mret tt
  else if nd_open n then change (fun w => set_w_out (w_out w ++ [(p, buf)]) w)
  else NodeDisconnect p.
(** Send what a constructor built; [skip] on its error. *)
Definition send (p : positive) (msg : option (bytes * err)) : netM unit :=
  '(buf, e) ← need msg; _ ← check e; Tx p buf.

(** * nodeMap.go *)

Definition neighbours (w : world) : list (positive * node) :=
  omap (fun kp : Z * positive => n ← w_heap w !! kp.2; Some (kp.2, n)) (map_to_list (lt_nbrs (w_tables w))).
Definition established (pn : positive * node) : bool := nd_state pn.2 =? ESTABLISH.
Definition GetNeighborNoder (w : world) : list (positive * node) := List.filter established (neighbours w).
Definition GetConnectionCnt (w : world) : Z := Z.of_nat (length (GetNeighborNoder w)).
Definition GetNbrNodeCnt (w : world) : Z := uint32 (Z.of_nat (length (GetNeighborNoder w))).
Definition GetNeighborHeights (w : world) : list Z := map (fun pn => nd_height pn.2) (GetNeighborNoder w).
Definition GetNeighborAddrs (now : Z) (w : world) : list NodeAddr := map (fun pn => getNodeAddr now pn.2) (GetNeighborNoder w).
Definition NodeEstablished (id : Z) (w : world) : bool :=
  match p ← lt_nbrs (w_tables w) !! id; w_heap w !! p with
  | Some n => nd_state n =? ESTABLISH
  | None => false
  end.
Definition IsNeighborNoder (n : node) (w : world) : bool := existsb (fun pn => nd_id n =? nd_id pn.2) (neighbours w).
Definition RandGetANbr (w : world) : option positive := fst <$> head (GetNeighborNoder w).

Definition AddNbrNode (p : positive) : netM unit :=
  n ← get_node p;
  upd_tables (fun t => match lt_nbrs t !! nd_id n with
                       | Some _ => t
                       | None => set_lt_nbrs (<[nd_id n := p]> (lt_nbrs t)) t
                       end).
Definition DelNbrNode (id : Z) : netM (option positive) :=
  t ← ask w_tables;
  match lt_nbrs t !! id with
  | None => mret None
  | Some p => _ ← upd_tables (fun t => set_lt_nbrs (delete id (lt_nbrs t)) t); mret (Some p)
  end.
(** [for _, n := range list { f(n) }]. *)
Fixpoint for_nodes (l : list (positive * node)) (f : positive -> node -> netM unit) : netM unit :=
  match l with [] => mret tt | (p, n) :: l => _ ← f p n; for_nodes l f end.
Definition Broadcast (buf : bytes) : netM unit :=
  l ← ask neighbours;
  for_nodes l (fun p n => if (nd_state n =? ESTABLISH) && nd_relay n then Tx p buf else mret tt).
(** The parameter is shadowed by the address of the neighbour, without port. *)
Definition IsAddrInNbrList (addr : bytes) (w : world) : bool :=
  existsb (fun pn : positive * node =>
    let n := pn.2 in
    if (nd_state n =? HAND) || (nd_state n =? HANDSHAKE) || (nd_state n =? ESTABLISH)
    then let addr := nd_addr n in bool_decide (addr_port n = addr)
    else false) (neighbours w).
End World.
Arguments world DB : clear implicits.
