(* ===== verification/Handlers.v ===== *)
(** [net/message] and the parts of [net/node] that use it: what a node does
    with the messages it receives, how it asks its peers for headers and blocks
    and how it relays.

    [HandleNodeMsg] is the whole way of one message, from the bytes of a frame
    to the new world.  The events a handler raises (new consensus payload, new
    inventory) have no subscribers in this consensus and are left out. *)

From S2P Require Import Prelude Sha256 Serialization Common Fixed64 Transaction Merkle AuxPow Block.
From S2P Require Import Store Utxo Difficulty MedianTime Vm Address PubKey Contract Message Link Peers Validator TxPool Blockchain Ledger Node.

Section Handlers.
Context {DB : Type} `{IStore DB} `{ICrypto} (cfg : Config) (nc : NetConfig) (ripemd160 : bytes -> bytes) (MAXIDCACHED : nat).
Abbreviation magic := (nc_Magic nc).
Abbreviation netM := (netM (DB := DB)).

Definition chain_store : netM (ChainStore DB) := ask (fun w => bc_Store (w_chain w)).
Definition chain_height : netM Z := ask (fun w => BlockHeight (w_chain w)).

(** * Relaying *)

Inductive relayed := RTxn (t : Transaction) | RConsensus (cp : ConsensusPayload) | RHash (h : Uint256) | RBlock (b : Block).
Definition relay_msg (m : relayed) : option (bytes * err) :=
  match m with
  | RTxn t => NewTxn magic t
  | RConsensus cp => NewConsensus magic cp
  | RHash h => NewInv magic (NewInvPayload BLOCK 1 (Uint_Serialize h))
  | RBlock b => NewBlock magic b
  end.
Definition count_txn (m : relayed) : netM unit :=
  match m with RTxn _ => upd_local (fun n => set_nd_txnCnt (uint64 (nd_txnCnt n + 1)) n) | _ => mret tt end.
Definition known_hash (m : relayed) (n : node) : bool :=
  match m with RHash h => ExistHash h (nd_cachedHashes n) | _ => false end.

(** To every established neighbour that relays, except the one it came from. *)
Definition Relay (from : positive) (m : relayed) : netM unit :=
  l ← get_local;
  if node_IsSyncHeaders l then mret tt else
  '(buffer, e) ← need (relay_msg m);
  _ ← check e;
  _ ← count_txn m;
  src ← get_node from;
  nbrs ← ask neighbours;
  for_nodes nbrs (fun p n =>
    if (nd_state n =? ESTABLISH) && nd_relay n && negb (nd_id n =? nd_id src)
    then if known_hash m n then mret tt else Tx p buffer
    else mret tt).
Definition Xmit (m : relayed) : netM unit :=
  '(buffer, e) ← need (relay_msg m);
  _ ← check e;
  _ ← count_txn m;
  Broadcast buffer.

(** * Requests *)

(** [LocalNode().ExistedID]. *)
Definition local_ExistedID (id : Uint256) : netM bool :=
  l ← get_local;
  '(b, c) ← need (ExistedID MAXIDCACHED id (nd_ids l));
  _ ← upd_local (set_nd_ids c);
  mret b.

Definition AddRequestedBlock (now : Z) (hash : Uint256) : netM unit :=
  upd_tables (fun t => set_lt_requested (<[hash := now]> (lt_requested t)) t).
Definition DeleteRequestedBlock (hash : Uint256) : netM unit :=
  upd_tables (fun t => set_lt_requested (delete hash (lt_requested t)) t).
Definition ResetRequestedBlock : netM unit := upd_tables (set_lt_requested ∅).
Definition RequestedBlockExisted (hash : Uint256) : netM bool :=
  ask (fun w => bool_decide (is_Some (lt_requested (w_tables w) !! hash))).

Definition ReqBlkData (now : Z) (p : positive) (hash : Uint256) : netM unit :=
  _ ← AddRequestedBlock now hash; send p (getdata_msg magic hash).

(** The error of a constructor is logged and dropped. *)
Definition SendMsgSyncBlockHeaders (p : positive) (blocator : list Uint256) (hash : Uint256) : netM unit :=
  first ← need (head blocator);
  t ← ask w_tables;
  if bool_decide (lt_StartHash t = first) && bool_decide (lt_StopHash t = hash) then mret tt else
  '(buf, e) ← need (NewBlocksReq magic blocator hash);
  if is_err e then mret tt else
  _ ← upd_local (node_SetSyncHeaders true);
  _ ← upd_node p (node_SetSyncHeaders true);
  _ ← Tx p buf;
  upd_tables (fun t => set_lt_StopHash hash (set_lt_StartHash first t)).

Definition GetNextCheckpointHash (t : tables) : Uint256 * err :=
  match lt_checkpoint t with
  | Some c => (ck_Hash c, None)
  | None => (zero256, Some (NewError "no next checkpoint any more"))
  end.
Definition GetNextCheckpointHeight (t : tables) : Z * err :=
  match lt_checkpoint t with
  | Some c => (ck_Height c, None)
  | None => (0, Some (NewError "no next checkpoint any more"))
  end.
Definition SetHeaderFirstMode (b : bool) : netM unit := upd_tables (set_lt_headerFirst b).
Definition FindNextHeaderCheckpoint (height : Z) : netM (option Checkpoint) :=
  let '(cps, e) := parseCheckpoints (nc_AddCheckpoints nc) in
  if is_err e then mret None else
  match find_checkpoint height cps with
  | None => mret None
  | Some c => _ ← upd_tables (set_lt_checkpoint (Some c)); mret (Some c)
  end.

Definition SendMsgSyncHeaders (p : positive) (startHash : Uint256) : netM unit :=
  t ← ask w_tables;
  let next := fst (GetNextCheckpointHash t) in
  blocator ← on_chain (blockLocatorFromHash startHash);
  if bool_decide (next = zero256) || bool_decide (startHash = next) then
    _ ← SetHeaderFirstMode false;
    SendMsgSyncBlockHeaders p blocator zero256
  else
    '(buf, e) ← need (NewHeadersReq magic blocator next);
    if is_err e then mret tt else
    _ ← upd_local (node_SetSyncHeaders true);
    _ ← upd_node p (node_SetSyncHeaders true);
    Tx p buf.

(** [None] of the fuel: the list of headers has a cycle of hashes. *)
Fixpoint fetch_loop (fuel : nat) (now : Z) (p : positive) (hash : Uint256) : netM unit :=
  match fuel with
  | O => lift Unmodelled
  | S fuel =>
      _ ← attempt (ReqBlkData now p hash);
      cs ← chain_store;
      let '(next, e) := GetHeaderHashNext cs hash in
      if is_err e then mret tt else fetch_loop fuel now p next
  end.
Definition fetchHeaderBlocks (now : Z) (p : positive) : netM unit :=
  cs ← chain_store;
  let '(hash, e) := GetHeaderHashFront cs in
  if is_err e then mret tt else fetch_loop (S (length (headerIdx cs))) now p hash.

(** * Answers *)

(** The heights a request asks for: the first one minus one, and their number
    (at most [max]); the subtraction of the heights is that of [uint32]. *)
Definition header_range (max : Z) (startHash stopHash : Uint256) : netM (Z * Z) :=
  cs ← chain_store;
  let curHeight := GetHeight cs in
  let header h := ('(hd, e) ← need (GetHeader (cs_db cs) h); _ ← check e; hd ← need hd; mret (bd_Height hd)) in
  if bool_decide (stopHash = zero256) then
    if bool_decide (startHash = zero256) then mret (0, if max <? curHeight then max else curHeight)
    else
      startHeight ← header startHash;
      let count := uint32 (curHeight - startHeight) in
      mret (startHeight, if max <? count then max else count)
  else
    stopHeight ← header stopHash;
    if negb (bool_decide (startHash = zero256)) then
      startHeight ← header startHash;
      if stopHeight <? startHeight then fail (NewError "do not have header to send") else
      let count := uint32 (stopHeight - startHeight) in
      mret (startHeight, if max <=? count then max else count)
    else mret (0, if max <? stopHeight then max else stopHeight).

(** A height without a block contributes the zero hash. *)
Definition GetInvFromBlockHash (startHash stopHash : Uint256) : netM InvPayload :=
  '(startHeight, count) ← header_range MAXINVHDRCNT startHash stopHash;
  cs ← chain_store;
  mret (NewInvPayload BLOCK count
          (concat (map (fun i => Uint_Serialize (fst (GetBlockHash (cs_db cs) (uint32 (startHeight + Z.of_nat i))))) (seq 1 (Z.to_nat count))))).

Fixpoint headers_loop (db : DB) (startHeight : Z) (idx : list nat) : netM (list Blockdata) :=
  match idx with
  | [] => mret []
  | i :: idx =>
      let '(hash, _) := GetBlockHash db (uint32 (startHeight + Z.of_nat i)) in
      '(hd, e) ← need (GetHeader db hash);
      _ ← check e;
      hd ← need hd;
      hs ← headers_loop db startHeight idx;
      mret (hd :: hs)
  end.
Definition GetHeadersFromHash (startHash stopHash : Uint256) : netM (list Blockdata * Z) :=
  '(startHeight, count) ← header_range MAXBLKHDRCNT startHash stopHash;
  cs ← chain_store;
  hs ← headers_loop (cs_db cs) startHeight (seq 1 (Z.to_nat count));
  mret (hs, count).

Definition blocksReq_Handle (p : positive) (q : hashes_P) : netM unit :=
  startHash ← on_chain (LatestLocatorHash (hashStart q));
  inv ← GetInvFromBlockHash startHash (hashEnd q);
  send p (NewInv magic inv).
Definition headersReq_Handle (p : positive) (q : hashes_P) : netM unit :=
  startHash ← on_chain (LatestLocatorHash (hashStart q));
  '(headers, cnt) ← GetHeadersFromHash startHash (hashEnd q);
  send p (NewHeaders magic headers cnt).

Definition dataReq_Handle (p : positive) (ty : Z) (hash : Uint256) : netM unit :=
  bc ← ask w_chain;
  if ty =? BLOCK then
    '(b, e) ← need (GetBlock (cs_db (bc_Store bc)) hash);
    if is_err e then send p (NewNotFound magic hash)
    else b ← need b; send p (NewBlock magic b)
  else if ty =? TRANSACTION then
    '(t, e) ← need (GetTransactionWithHash bc hash);
    _ ← check e;
    t ← need t;
    send p (NewTxn magic t)
  else mret tt.

Definition addrReq_Handle (p : positive) : netM unit :=
  t ← ask w_tables;
  let addrs := RandSelectAddresses (map fst (map_to_list (ka_List (lt_known t)))) (lt_known t) in
  send p (NewAddrs magic addrs (Z.of_nat (length addrs))).

(** * Shaking hands *)

Definition NewVersion (now : Z) (n : node) : netM (option (bytes * err)) :=
  height ← chain_height;
  let cap := (if nc_HttpInfoStart nc then 1 else 0) :: replicate 31 0 in
  mret (version_msg magic
    (mkVersion (nd_version n) (nd_services n) (uint32 now) (nd_port n) (uint16 (nc_HttpInfoPort nc)) cap
       (nd_id n) 0 (uint64 height) (if nd_relay n then 1 else 0)) (nd_publicKey n)).
(** Whatever the constructor returned is sent. *)
Definition send_any (p : positive) (msg : option (bytes * err)) : netM unit := '(buf, _) ← need msg; Tx p buf.

Definition version_Handle (now : Z) (p : positive) (P : version_P) (pk : option PubKey) : netM unit :=
  l ← get_local;
  if vp_Nonce P =? nd_id l then
    _ ← CloseConn p; fail (NewError "The node handshark with itself")
  else
  n ← get_node p;
  let s := nd_state n in
  if negb (s =? INIT) && negb (s =? HAND) then fail (NewError "Unknow status to received version") else
  old ← DelNbrNode (vp_Nonce P);
  _ ← match old with Some q => NodeDisconnect q | None => mret tt end;
  _ ← upd_node p (SetHttpInfoState (nth HTTPINFOFLAG (vp_Cap P) 0 =? 1));
  _ ← upd_node p (set_nd_httpInfoPort (vp_HttpInfoPort P));
  _ ← upd_node p (set_nd_publicKey pk);
  _ ← upd_node p (UpdateInfo now (vp_Version P) (vp_Services P) (vp_Port P) (vp_Nonce P) (vp_Relay P) (vp_StartHeight P));
  _ ← AddNbrNode p;
  n ← get_node p;
  let addr := mkNodeAddr now (vp_Services P) (fst (GetAddr16 n)) (vp_Port P) (vp_Nonce P) in
  t ← ask w_tables;
  known ← need (AddAddressToKnownAddress addr (lt_known t));
  _ ← upd_tables (set_lt_known known);
  if s =? INIT then
    _ ← set_state p HANDSHAKE;
    l ← get_local;
    msg ← NewVersion now l;
    send_any p msg
  else
    _ ← set_state p HANDSHAKED;
    send_any p (NewVerack magic).

Definition ReqNeighborList (p : positive) : netM unit := send_any p (newGetAddr magic).

Definition verACK_Handle (p : positive) : netM unit :=
  n ← get_node p;
  let s := nd_state n in
  if negb (s =? HANDSHAKE) && negb (s =? HANDSHAKED) then fail (NewError "Unknow status to received verack") else
  _ ← set_state p ESTABLISH;
  _ ← (if s =? HANDSHAKE then send_any p (NewVerack magic) else mret tt);
  t ← ask w_tables;
  _ ← (if NeedMoreAddresses (lt_known t) then ReqNeighborList p else mret tt);
  n ← get_node p;
  upd_tables (fun t => set_lt_connecting (RemoveAddrInConnectingList (addr_port n) (lt_connecting t)) t).

(** [Connect]; [dial] is the answer of the network: the remote address. *)
Definition Connect (now : Z) (dial : option bytes) (nodeAddr : bytes) : netM unit :=
  known ← ask (IsAddrInNbrList nodeAddr);
  if known : bool then mret tt else
  t ← ask w_tables;
  let '(l, added) := SetAddrInConnectingList nodeAddr (lt_connecting t) in
  if negb added then fail (NewError "node exist in connecting list, cancel") else
  _ ← upd_tables (set_lt_connecting l);
  match dial with
  | None =>
      _ ← upd_tables (fun t => set_lt_connecting (RemoveAddrInConnectingList nodeAddr (lt_connecting t)) t);
      fail (NewError "connect failed")
  | Some remote =>
      _ ← upd_tables (fun t => set_lt_connCnt (uint64 (lt_connCnt t + 1)) t);
      h ← ask w_heap;
      let p := fresh (dom h) in
      _ ← change (fun w => set_w_heap (<[p := set_nd_state HAND (NewNode (fst (parseIPaddr remote)))]> (w_heap w)) w);
      l ← get_local;
      msg ← NewVersion now l;
      send_any p msg
  end.

Definition ping_Handle (p : positive) (height : Z) : netM unit :=
  _ ← upd_node p (set_nd_height height);
  cs ← chain_store;
  send p (NewPongMsg magic (uint64 (GetHeight cs))).
Definition pong_Handle (p : positive) (height : Z) : netM unit := upd_node p (set_nd_height height).

Fixpoint addr_Handle (addrs : list NodeAddr) : netM unit :=
  match addrs with
  | [] => mret tt
  | v :: addrs =>
      l ← get_local;
      est ← ask (NodeEstablished (na_ID v));
      _ ← (if (na_ID v =? nd_id l) || est || (na_Port v =? 0) then mret tt
           else t ← ask w_tables; known ← need (AddAddressToKnownAddress v (lt_known t)); upd_tables (set_lt_known known));
      addr_Handle addrs
  end.

(** * Transactions, consensus payloads, headers and blocks *)

Definition trn_Handle (p : positive) (t : Transaction) : netM unit :=
  '(t, hash) ← need (hash_cached t);
  seen ← local_ExistedID hash;
  if seen : bool then mret tt else
  cs ← chain_store;
  tb ← ask w_tables;
  '(pool, code) ← lift (AppendTxnPool (H := store_ledger cs) cfg ripemd160 (lt_pool tb) t);
  _ ← upd_tables (set_lt_pool pool);
  if negb (bool_decide (code = ErrNoError)) then fail (NewError "[message] VerifyTransaction failed when AppendTxnPool.") else
  _ ← attempt (Relay p (RTxn t));
  upd_local (fun n => set_nd_rxTxnCnt (uint64 (nd_rxTxnCnt n + 1)) n).

Definition consensus_Handle (p : positive) (cp : ConsensusPayload) : netM unit :=
  hash ← need (cp_Hash cp);
  seen ← local_ExistedID hash;
  if seen : bool then mret tt else
  _ ← attempt (Relay p (RConsensus cp)); mret tt.

(** Whether a header at the height of the checkpoint is it; [None]: no header
    has that height. *)
Fixpoint at_checkpoint (height : Z) (hash : Uint256) (hs : list Blockdata) : option bool :=
  match hs with
  | [] => None
  | h :: hs => if bd_Height h =? height then Some (bool_decide (Blockdata_Hash h = hash)) else at_checkpoint height hash hs
  end.
Definition blkHeader_Handle (now : Z) (p : positive) (hs : list Blockdata) : netM unit :=
  n ← get_node p;
  nbr ← ask (IsNeighborNoder n);
  if negb nbr then fail (NewError "received headers message from unknown peer") else
  t ← ask w_tables;
  if negb (lt_headerFirst t) then _ ← NodeDisconnect p; fail (NewError "Not in header first mode") else
  match list.last hs with
  | None => fail (NewError "No headers")
  | Some lastHeader =>
      cs ← chain_store;
      cs ← need (AddHeaders cs hs);
      _ ← change (fun w => set_w_chain (set_bc_Store cs (w_chain w)) w);
      let '(height, _) := GetNextCheckpointHeight t in
      let '(hash, e) := GetNextCheckpointHash t in
      match (if is_err e then None else at_checkpoint height hash hs) with
      | Some true => fetchHeaderBlocks now p
      | Some false => _ ← NodeDisconnect p; SendMsgSyncHeaders p (Blockdata_Hash lastHeader)
      | None => SendMsgSyncHeaders p (Blockdata_Hash lastHeader)
      end
  end.

Definition AddReceived (now : Z) (b : Block) : netM (bool * bool) := on_chain (ProcessBlock cfg ripemd160 (now / 10 ^ 9) b).

Definition block_Handle (now : Z) (p : positive) (b : Block) : netM unit :=
  let hash := Block_Hash b in
  n ← get_node p;
  nbr ← ask (IsNeighborNoder n);
  if negb nbr then fail (NewError "received headers message from unknown peer") else
  bc ← ask w_chain;
  stored ← need (BlockInLedger bc hash);
  if stored : bool then change (fun w => set_w_duplicates (uint64 (w_duplicates w + 1)) w) else
  t ← ask w_tables;
  let '(preHash, e) := GetHeaderHashFront (bc_Store bc) in
  let isFastAdd := lt_headerFirst t && negb (is_err e) && bool_decide (hash = preHash) in
  let '(ckHash, e) := GetNextCheckpointHash t in
  let isCheckpointBlock := isFastAdd && negb (is_err e) && bool_decide (hash = ckHash) in
  _ ← change (fun w => set_w_chain (set_bc_Store (RemoveHeaderListElement (bc_Store (w_chain w)) hash) (w_chain w)) w);
  _ ← DeleteRequestedBlock hash;
  '(_, isOrphan) ← AddReceived now b;
  l ← get_local;
  _ ← (if node_IsSyncHeaders l then mret tt else
       seen ← local_ExistedID hash;
       if seen : bool then mret tt else _ ← attempt (Relay p (RBlock b)); mret tt);
  l ← get_local;
  requested ← RequestedBlockExisted hash;
  _ ← (if isOrphan && negb (node_IsSyncHeaders l) && negb requested then
         bc ← ask w_chain;
         match GetOrphanRoot hash bc with
         | None => lift Unmodelled
         | Some root => locator ← on_chain LatestBlockLocator; SendMsgSyncBlockHeaders p locator root
         end
       else mret tt);
  t ← ask w_tables;
  if negb (lt_headerFirst t) then mret tt else
  if negb isCheckpointBlock then
    if (size (lt_requested t) <? 10)%nat then fetchHeaderBlocks now p else mret tt
  else
  let '(prevHeight, _) := GetNextCheckpointHeight t in
  next ← FindNextHeaderCheckpoint prevHeight;
  cs ← chain_store;
  match next with
  | Some _ => SendMsgSyncHeaders p (GetCurrentBlockHash cs)
  | None =>
      _ ← SetHeaderFirstMode false;
      blocator ← on_chain (blockLocatorFromHash (GetCurrentBlockHash cs));
      _ ← SendMsgSyncBlockHeaders p blocator zero256;
      l ← get_local;
      if node_IsSyncHeaders l then mret tt else _ ← attempt (Relay p (RHash hash)); mret tt
  end.

(** * Inventories *)

(** The first loop over the announced hashes: [i] runs to [count], the offset is
    computed in 32 bits, and a hash that cannot be read is the one before. *)
Fixpoint inv_loop (turns : nat) (i count : Z) (p : positive) (blk : bytes) (id : Uint256) (hashes : list Uint256) : netM (list Uint256) :=
  match turns with
  | O => mret hashes
  | S turns =>
      rest ← need (slice blk (Z.to_nat (uint32 (HASHLEN * i))) (length blk));
      '((id, _), _) ← need (Uint256_Deserialize id (mkReader BytesReader rest));
      let hashes := hashes ++ [id] in
      bc ← ask w_chain;
      _ ← (if IsKnownOrphan id bc then
             match GetOrphanRoot id bc with
             | None => lift Unmodelled
             | Some root =>
                 r ← attempt (on_chain LatestBlockLocator);
                 match r with inl locator => SendMsgSyncBlockHeaders p locator root | inr _ => mret tt end
             end
           else if i =? count - 1 then
             blocator ← on_chain (blockLocatorFromHash id); SendMsgSyncBlockHeaders p blocator zero256
           else mret tt);
      inv_loop turns (i + 1) count p blk id hashes
  end.
Fixpoint request_missing (now : Z) (p : positive) (hashes : list Uint256) : netM unit :=
  match hashes with
  | [] => mret tt
  | h :: hashes =>
      bc ← ask w_chain;
      stored ← need (BlockInLedger bc h);
      requested ← RequestedBlockExisted h;
      _ ← (if (stored : bool) || requested || IsKnownOrphan h bc then mret tt else _ ← attempt (ReqBlkData now p h); mret tt);
      request_missing now p hashes
  end.

Definition Inv_Handle (now : Z) (p : positive) (P : InvPayload) : netM unit :=
  if InvType P =? TRANSACTION then
    b ← need (slice (Blk P) 0 32);
    '((id, _), _) ← need (Uint256_Deserialize zero256 (mkReader BytesReader b));
    n ← get_node p;
    '(seen, c) ← need (ExistedID MAXIDCACHED id (nd_ids n));
    _ ← upd_node p (set_nd_ids c);
    if seen : bool then mret tt else send_any p reqTxnData_msg
  else if InvType P =? BLOCK then
    l ← get_local;
    n ← get_node p;
    if node_IsSyncHeaders l && negb (node_IsSyncHeaders n) then mret tt else
    hashes ← inv_loop (Z.to_nat (Cnt P)) 0 (Cnt P) p (Blk P) zero256 [];
    request_missing now p hashes
  else if InvType P =? CONSENSUS then
    b ← need (slice (Blk P) 0 32);
    '((id, _), _) ← need (Uint256_Deserialize zero256 (mkReader BytesReader b));
    send_any p (reqConsensusData_msg id)
  else mret tt.

(** * The dispatcher *)

Definition Handle (now : Z) (p : positive) (m : Messager) : netM unit :=
  match m with
  | MMsgHdr _ | MFilteradd _ | MFilterclear _ | MFilterload _ | MTxnPool _ | MNotFound _ _ => mret tt
  | MVersion _ P pk => version_Handle now p P pk
  | MVerACK _ => verACK_Handle p
  | MHeadersReq _ q => headersReq_Handle p q
  | MBlkHeader _ _ hs => blkHeader_Handle now p hs
  | MAddrReq _ => addrReq_Handle p
  | MAddr _ _ l => addr_Handle l
  | MInv _ P => Inv_Handle now p P
  | MDataReq _ ty hash => dataReq_Handle p ty hash
  | MBlock _ b => block_Handle now p b
  | MTrn _ t => trn_Handle p t
  | MConsensus _ cp => consensus_Handle p cp
  | MBlocksReq _ q => blocksReq_Handle p q
  | MPing _ height => ping_Handle p height
  | MPong _ height => pong_Handle p height
  end.

(** The errors of [Deserialization] and of [Verify] are dropped. *)
Definition HandleNodeMsg (now : Z) (p : positive) (buf : bytes) : netM unit :=
  if Z.of_nat (length buf) <? MSGHDRLEN then fail (NewError "Unexpected size of received message") else
  '(s, e) ← need (MsgType buf);
  _ ← check e;
  m ← need (AllocMsg s (Z.of_nat (length buf)));
  match m with
  | None => fail (NewError "Allocation message failed")
  | Some m =>
      '(m, _) ← need (Deserialization m buf);
      Handle now p m
  end.
End Handlers.
