(* ===== verification/Sync.v ===== *)
(** [net/node/infoUpdate.go] and the synchronisation part of [net/node/node.go]:
    the tasks a node runs periodically, as operations on the world.  The timers
    and goroutines around them are not modelled. *)

From S2P Require Import Prelude Sha256 Serialization Common Fixed64 Transaction Merkle AuxPow Block.
From S2P Require Import Store Utxo Difficulty MedianTime Vm Address PubKey Contract Message Link Peers Validator TxPool Blockchain Ledger Node Handlers.

Section Sync.
Context {DB : Type} `{IStore DB} (nc : NetConfig).
Abbreviation magic := (nc_Magic nc).
Abbreviation netM := (netM (DB := DB)).

Definition needSync (w : world DB) : bool := negb (CompareHeight (BlockHeight (w_chain w)) (GetNeighborHeights w)).

(** The loop over the established neighbours. *)
Definition better_node (best : option (positive * node)) (pn : positive * node) : option (positive * node) :=
  match best with
  | None => if negb (IsSyncFailed (nd_syncFlag pn.2)) then Some pn else None
  | Some b => if (nd_height b.2 <? nd_height pn.2) && negb (IsSyncFailed (nd_syncFlag pn.2)) then Some pn else best
  end.
Definition GetBestHeightNoder (w : world DB) : option positive := fst <$> foldl better_node None (GetNeighborNoder w).

(** The first established neighbour that is being synchronised from; the code
    has it twice, as [FindSyncNode] and as [hasSyncPeer]. *)
Definition FindSyncNode (w : world DB) : option positive :=
  fst <$> List.find (fun pn => node_IsSyncHeaders pn.2) (GetNeighborNoder w).
Definition isFinishSyncFromSyncNode (w : world DB) : bool :=
  existsb (fun pn => node_IsSyncHeaders pn.2 && (nd_height pn.2 <=? BlockHeight (w_chain w))) (GetNeighborNoder w).

(** Ask the best neighbour, which must exist, for headers or for blocks. *)
Definition sync_with_best : netM unit :=
  best ← ask GetBestHeightNoder;
  cs ← ask (fun w => bc_Store (w_chain w));
  let hash := GetCurrentBlockHash cs in
  t ← ask w_tables;
  if lt_headerFirst t then p ← need best; SendMsgSyncHeaders nc p hash
  else
    blocator ← on_chain (blockLocatorFromHash hash);
    p ← need best;
    SendMsgSyncBlockHeaders nc p blocator zero256.

Definition forget_range : netM unit := upd_tables (fun t => set_lt_StopHash zero256 (set_lt_StartHash zero256 t)).

Fixpoint request_stale (now : Z) (p : positive) (rb : list (Uint256 * Z)) : netM unit :=
  match rb with
  | [] => mret tt
  | (k, t) :: rb => _ ← (if t <? now - 3 * 10 ^ 9 then _ ← attempt (ReqBlkData nc now p k); mret tt else mret tt); request_stale now p rb
  end.

Definition SyncBlks (now : Z) : netM unit :=
  t ← ask w_tables;
  if negb (lt_startSync t) then mret tt else
  need_ ← ask needSync;
  sync ← ask FindSyncNode;
  if negb need_ then
    _ ← upd_local (node_SetSyncHeaders false);
    sync ← ask FindSyncNode;
    _ ← match sync with
        | Some p => _ ← upd_node p (node_SetSyncHeaders false); forget_range
        | None => mret tt
        end;
    ResetRequestedBlock
  else
    match sync with
    | None => _ ← ResetRequestedBlock; sync_with_best
    | Some p =>
        let rb := take 49 (map_to_list (lt_requested t)) in
        match rb with
        | [] => _ ← upd_node p (node_SetSyncHeaders false); _ ← forget_range; sync_with_best
        | _ => request_stale now p rb
        end
    end.

Definition StartSync : netM unit :=
  need_ ← ask needSync;
  _ ← (if negb need_ then mret tt else
       height ← ask (fun w => BlockHeight (w_chain w));
       next ← FindNextHeaderCheckpoint nc height;
       _ ← upd_tables (set_lt_checkpoint next);
       l ← get_local;
       match next with
       | Some c =>
           if node_IsSyncHeaders l || negb (height <? ck_Height c) then mret tt else
           best ← ask GetBestHeightNoder;
           cs ← ask (fun w => bc_Store (w_chain w));
           p ← need best;
           _ ← SendMsgSyncHeaders nc p (GetCurrentBlockHash cs);
           SetHeaderFirstMode true
       | None => mret tt
       end);
  upd_tables (set_lt_startSync true).

Definition SendPingToNbr : netM unit :=
  nbrs ← ask GetNeighborNoder;
  cs ← ask (fun w => bc_Store (w_chain w));
  for_nodes nbrs (fun p _ => _ ← attempt (send p (NewPingMsg magic (uint64 (GetHeight cs)))); mret tt).

(** The interval in seconds; [KEEPALIVETIMEOUT] of them without a message. *)
Definition period : Z := if 2 <? nc_GenBlockTime nc then nc_GenBlockTime nc / 2 else 6 / 2.
Definition HeartBeatMonitor (now : Z) : netM unit :=
  nbrs ← ask GetNeighborNoder;
  for_nodes nbrs (fun p n => if nd_time n <? now - period * 3 * 10 ^ 9 then NodeDisconnect p else mret tt).

(** * Connections *)

(** [net.IP.String] of 16 bytes: dotted for an IPv4 address, else eight groups
    of hexadecimal digits with the longest run of two or more zero groups
    written as two colons. *)
Definition hex_digit (d : Z) : Z := if d <? 10 then 48 + d else 87 + d.
Definition hex_group (v : Z) : bytes := if v =? 0 then [48] else map hex_digit (to_base 16 v).
Fixpoint ip_groups (ip : bytes) : list Z :=
  match ip with hi :: lo :: ip => (256 * hi + lo) :: ip_groups ip | _ => [] end.
Fixpoint zero_run (l : list Z) : nat := match l with 0 :: l => S (zero_run l) | _ => O end.
(** Start and length of the first longest run of zeros. *)
Fixpoint best_run (i : nat) (l : list Z) : nat * nat :=
  match l with
  | [] => (i, O)
  | _ :: l' => let n := zero_run l in let r := best_run (S i) l' in if (snd r <=? n)%nat then (i, n) else r
  end.
Fixpoint join_colon (l : list bytes) : bytes :=
  match l with [] => [] | [g] => g | g :: l => g ++ 58 :: join_colon l end.
Definition IP_String (ip : bytes) : bytes :=
  if bool_decide (take 12 ip = replicate 10 0 ++ [255; 255]) then
    match map big_String (drop 12 ip) with
    | [a; b; c; d] => a ++ 46 :: b ++ 46 :: c ++ 46 :: d
    | _ => []
    end
  else
    let gs := ip_groups ip in
    let '(i, n) := best_run 0 gs in
    if (n <? 2)%nat then join_colon (map hex_group gs)
    else join_colon (map hex_group (take i gs)) ++ 58 :: 58 :: join_colon (map hex_group (drop (i + n) gs)).
Definition dial_string (a : NodeAddr) : bytes := IP_String (na_IpAddr a) ++ 58 :: big_String (na_Port a).

(** [dial]: the remote address when a connection to a text comes about.  The
    goroutines that connect run one after the other, their errors unnoticed. *)
Fixpoint connect_all (now : Z) (dial : bytes -> option bytes) (addrs : list bytes) : netM unit :=
  match addrs with
  | [] => mret tt
  | a :: addrs => _ ← attempt (Connect nc now (dial a) a); connect_all now dial addrs
  end.

Definition ConnectNode (now : Z) (dial : bytes -> option bytes) (enum : list Z) (order : list nat) : netM unit :=
  cnt ← ask GetConnectionCnt;
  t ← ask w_tables;
  if negb (cnt <? lt_MaxOutboundCnt t) then mret tt else
  nbrAddr ← ask (GetNeighborAddrs now);
  let '(known, addrs) := RandGetAddresses now enum order nbrAddr (lt_known t) in
  _ ← upd_tables (set_lt_known known);
  connect_all now dial (map dial_string addrs).

Fixpoint connect_seeds (now : Z) (dial : bytes -> option bytes) (seeds : list bytes) : netM unit :=
  match seeds with
  | [] => mret tt
  | nodeAddr :: seeds =>
      nbrs ← ask neighbours;
      t ← ask w_tables;
      _ ← match List.find (fun pn => bool_decide (nodeAddr = dial_string (getNodeAddr now pn.2))) nbrs with
          | Some (p, n) => if (nd_state n =? ESTABLISH) && NeedMoreAddresses (lt_known t) then ReqNeighborList nc p else mret tt
          | None => _ ← attempt (Connect nc now (dial nodeAddr) nodeAddr); mret tt
          end;
      connect_seeds now dial seeds
  end.
Definition ConnectSeeds (now : Z) (dial : bytes -> option bytes) (SeedList : list bytes) : netM unit :=
  cnt ← ask GetConnectionCnt;
  if cnt <? MINCONNCNT then connect_seeds now dial SeedList else mret tt.

(** A connection that was accepted. *)
Definition accept_conn (remote : bytes) : netM positive :=
  _ ← upd_tables (fun t => set_lt_connCnt (uint64 (lt_connCnt t + 1)) t);
  h ← ask w_heap;
  let p := fresh (dom h) in
  _ ← change (fun w => set_w_heap (<[p := NewNode (fst (parseIPaddr remote))]> (w_heap w)) w);
  mret p.

(** The addresses of inactive neighbours are to be retried, the other
    neighbours stay. *)
Fixpoint fetch_retry (now : Z) (nbrs : list (positive * node)) (kept : gmap Z positive) : netM (gmap Z positive) :=
  match nbrs with
  | [] => mret kept
  | (p, tn) :: nbrs =>
      let nodeAddr := dial_string (getNodeAddr now tn) in
      if nd_state tn =? INACTIVITY then
        _ ← upd_tables (fun t => set_lt_retry (AddInRetryList nodeAddr (lt_retry t)) t);
        _ ← CloseConn p;
        fetch_retry now nbrs kept
      else
        _ ← upd_tables (fun t => set_lt_retry (RemoveFromRetryList nodeAddr (lt_retry t)) t);
        fetch_retry now nbrs (<[nd_id tn := p]> kept)
  end.
Definition fetchRetryNodeFromNeiborList (now : Z) : netM nat :=
  nbrs ← ask neighbours;
  kept ← fetch_retry now nbrs ∅;
  _ ← upd_tables (set_lt_nbrs kept);
  t ← ask w_tables;
  mret (size (lt_retry t)).

Definition MAXRETRYCOUNT : Z := 3.
(** Each address is tried once more, three times in all. *)
Fixpoint reconnect_all (now : Z) (dial : bytes -> option bytes) (addrs : list (bytes * Z)) (lst : gmap bytes Z) : netM (gmap bytes Z) :=
  match addrs with
  | [] => mret lst
  | (addr, n) :: addrs =>
      _ ← upd_tables (fun t => set_lt_retry (<[addr := n + 1]> (lt_retry t)) t);
      _ ← attempt (Connect nc now (dial addr) addr);
      reconnect_all now dial addrs (if n + 1 <? MAXRETRYCOUNT then <[addr := n + 1]> lst else lst)
  end.
Definition reconnect (now : Z) (dial : bytes -> option bytes) : netM unit :=
  t ← ask w_tables;
  lst ← reconnect_all now dial (map_to_list (lt_retry t)) ∅;
  upd_tables (set_lt_retry lst).
Definition TryConnect (now : Z) (dial : bytes -> option bytes) : netM unit :=
  n ← fetchRetryNodeFromNeiborList now;
  if (0 <? n)%nat then reconnect now dial else mret tt.

Definition CheckConnCnt : netM unit :=
  cnt ← ask GetConnectionCnt;
  t ← ask w_tables;
  if lt_DefaultMaxPeers t <? cnt then
    p ← ask RandGetANbr;
    match p with Some p => NodeDisconnect p | None => mret tt end
  else mret tt.

(** One tick of [updateNodeInfo] and one of [updateConnection]. *)
Definition update_tick (now : Z) : netM unit :=
  _ ← SendPingToNbr; _ ← SyncBlks now; HeartBeatMonitor now.
Definition connection_tick (now : Z) (dial : bytes -> option bytes) (SeedList : list bytes) (enum : list Z) (order : list nat) : netM unit :=
  _ ← ConnectSeeds now dial SeedList; _ ← ConnectNode now dial enum order; CheckConnCnt.

(** * Other queries and requests *)

Definition GetBookKeepersAddrs (w : world DB) (n : node) : list (option PubKey) * Z :=
  let nbrs := List.filter (fun pn => (nd_state pn.2 =? ESTABLISH) && negb (nd_services pn.2 =? SERVICENODE)) (neighbours w) in
  (nd_publicKey n :: map (fun pn => nd_publicKey pn.2) nbrs, uint64 (1 + Z.of_nat (length nbrs))).

(** One turn of the loop; whether it ends. *)
Definition SyncNodeHeight : netM bool :=
  need_ ← ask needSync;
  if need_ : bool then mret false else _ ← upd_local (node_SetSyncHeaders false); mret true.

Definition ReqBlkHdrFromOthers : netM unit :=
  best ← ask GetBestHeightNoder;
  cs ← ask (fun w => bc_Store (w_chain w));
  p ← need best;
  SendMsgSyncHeaders nc p (GetCurrentBlockHash cs).
Definition ReqBlksHdrFromOthers : netM unit :=
  nbrs ← ask GetNeighborNoder;
  match List.find (fun pn => negb (IsSyncFailed (nd_syncFlag pn.2))) nbrs with
  | None => mret tt
  | Some (p, _) =>
      cs ← ask (fun w => bc_Store (w_chain w));
      blocator ← on_chain (blockLocatorFromHash (GetCurrentBlockHash cs));
      SendMsgSyncBlockHeaders nc p blocator zero256
  end.
Fixpoint sendGetDataReq (now : Z) (p : positive) (hs : list Blockdata) : netM unit :=
  match hs with
  | [] => mret tt
  | h :: hs =>
      bc ← ask w_chain;
      stored ← need (BlockInLedger bc (Blockdata_Hash h));
      _ ← (if stored : bool then mret tt else _ ← attempt (ReqBlkData nc now p (Blockdata_Hash h)); mret tt);
      sendGetDataReq now p hs
  end.
(** A peer never has a list of requested blocks of its own. *)
Definition SyncBlkInNonCheckpointMode : netM unit :=
  need_ ← ask needSync;
  if negb need_ then upd_local (node_SetSyncHeaders false) else
  sync ← ask FindSyncNode;
  best ← ask GetBestHeightNoder;
  cs ← ask (fun w => bc_Store (w_chain w));
  blocator ← on_chain (blockLocatorFromHash (GetCurrentBlockHash cs));
  p ← need (match sync with Some p => Some p | None => best end);
  SendMsgSyncBlockHeaders nc p blocator zero256.
End Sync.

(** * Receiving *)

Section Receive.
Context {DB : Type} `{IStore DB} `{ICrypto} (cfg : Config) (nc : NetConfig) (ripemd160 : bytes -> bytes) (MAXIDCACHED : nat).

(** The messages of one read, each handled to its end; errors are dropped. *)
Fixpoint handle_all (now : Z) (p : positive) (msgs : list bytes) : netM (DB := DB) unit :=
  match msgs with
  | [] => mret tt
  | m :: msgs => _ ← attempt (HandleNodeMsg cfg nc ripemd160 MAXIDCACHED now p m); handle_all now p msgs
  end.
(** One turn of the loop [rx]: what a read returned, or [None] when it failed. *)
Definition rx_turn (now : Z) (p : positive) (rx : rxBuf) (read : option bytes) : netM (DB := DB) rxBuf :=
  match read with
  | None => _ ← NodeDisconnect p; mret rx
  | Some buf =>
      _ ← upd_node p (set_nd_time now);
      '(rx, msgs) ← need (unpack (nc_Magic nc) rx buf);
      _ ← handle_all now p msgs;
      mret rx
  end.
End Receive.
