(* ===== verification/Network.v ===== *)
(** Theorems on the message handlers: the state machine of a connection, the
    handshake, what requests for blocks and headers are answered with, who
    relayed data reaches, and what a malformed message can do. *)

From S2P Require Import Prelude Sha256 Serialization Common Fixed64 Transaction Merkle AuxPow Block.
From S2P Require Import Store Utxo Difficulty MedianTime Vm Address PubKey Contract Message Link Peers Validator TxPool Blockchain Ledger Node Handlers Sync ChainSelection.

Section Quiet.
Context {DB : Type} `{IStore DB} (ok : positive -> Z -> Prop).

(** * How a handler may change the states of connections *)

(** A node keeps its state, becomes inactive or gets a state of [ok]. *)
Definition quiet (q : positive) (s s' : Z) : Prop := s' = s \/ s' = INACTIVITY \/ ok q s'.
Definition quiet_world (w w' : world DB) : Prop :=
  w_local w' = w_local w /\
  forall q n, w_heap w !! q = Some n -> exists n', w_heap w' !! q = Some n' /\ quiet q (nd_state n) (nd_state n').
Definition quietly {A} (m : netM A) : Prop := forall w w' r, m w = Ok (w', r) -> quiet_world w w'.

#[local] Instance quiet_world_refl : Reflexive quiet_world.
Proof. intros w. split; [done|]. intros q n Hq. exists n. split; [done|by left]. Qed.
#[local] Instance quiet_world_trans : Transitive quiet_world.
Proof.
  intros w1 w2 w3 [L1 H1] [L2 H2]. split; [congruence|]. intros q n Hq.
  destruct (H1 q n Hq) as (n2 & E2 & Q2). destruct (H2 q n2 E2) as (n3 & E3 & Q3).
  exists n3. split; [done|]. unfold quiet in *. destruct Q2 as [E|[E|E]], Q3 as [E'|[E'|E']]; rewrite E' || idtac; auto; rewrite E; auto.
Qed.

Lemma quietly_ret {A} (a : A) : quietly (mret a).
Proof. intros w w' r [= <- <-]. reflexivity. Qed.
Lemma quietly_bind {A B} (m : netM A) (f : A -> netM B) : quietly m -> (forall a, quietly (f a)) -> quietly (m ≫= f).
Proof.
  intros Hm Hf w w' r. unfold mbind, netM_bind. destruct (m w) as [[w1 [a|e]]| |] eqn:E; [|intros [= <- <-]|done..].
  - intros E'. etransitivity; [exact (Hm _ _ _ E)|exact (Hf a _ _ _ E')].
  - exact (Hm _ _ _ E).
Qed.
Lemma quietly_ask {A} (f : world DB -> A) : quietly (ask f).
Proof. intros w w' r [= <- <-]. reflexivity. Qed.
Lemma quietly_fail {A} e : quietly (fail (A := A) e).
Proof. intros w w' r [= <- <-]. reflexivity. Qed.
Lemma quietly_lift {A} (o : outcome A) : quietly (lift o).
Proof. intros w w' r. unfold lift. destruct o; [intros [= <- <-]; reflexivity|done..]. Qed.
Lemma quietly_check e : quietly (check e).
Proof. destruct e; [apply quietly_fail|apply quietly_ret]. Qed.
Lemma quietly_attempt {A} (m : netM A) : quietly m -> quietly (attempt m).
Proof. intros Hm w w' r. unfold attempt. destruct (m w) as [[w1 r1]| |] eqn:E; [intros [= <- <-]; exact (Hm _ _ _ E)|done..]. Qed.
Lemma quietly_change (f : world DB -> world DB) : (forall w, w_local (f w) = w_local w /\ w_heap (f w) = w_heap w) -> quietly (change f).
Proof. intros Hf w w' r [= <- <-]. destruct (Hf w) as [El Eh]. split; [done|]. rewrite Eh. intros q n Hq. exists n. split; [done|by left]. Qed.
Lemma quietly_on_chain {A} (m : bcM A) : quietly (on_chain m).
Proof.
  intros w w' r. unfold on_chain. destruct (m (w_chain w)) as [[bc r1]| |]; [intros [= <- <-]|done..].
  split; [done|]. intros q n Hq. exists n. split; [done|by left].
Qed.
Lemma quietly_upd_tables f : quietly (upd_tables f).
Proof. by apply quietly_change. Qed.
Lemma quietly_get_node p : quietly (get_node p).
Proof. apply quietly_bind; [apply quietly_ask|intros; apply quietly_lift]. Qed.
Lemma quietly_get_local : quietly get_local.
Proof. apply quietly_bind; [apply quietly_ask|apply quietly_get_node]. Qed.
Lemma quietly_upd_node p f : (forall n, quiet p (nd_state n) (nd_state (f n))) -> quietly (upd_node p f).
Proof.
  intros Hf w w' r. unfold upd_node, get_node, need, lift, no_panic, ask, change, mbind, netM_bind.
  destruct (w_heap w !! p) as [n|] eqn:E; [|done]. intros [= <- <-]. split; [done|]. cbn. intros q m Hq.
  destruct (decide (q = p)) as [->|Hne]; [|rewrite lookup_insert_ne by done; exists m; split; [done|by left]].
  rewrite lookup_insert_eq. assert (m = n) as -> by congruence. eexists. split; [reflexivity|apply Hf].
Qed.
Lemma quietly_upd_local f : (forall p n, quiet p (nd_state n) (nd_state (f n))) -> quietly (upd_local f).
Proof. intros Hf. apply quietly_bind; [apply quietly_ask|]. intros p. by apply quietly_upd_node. Qed.

Lemma quiet_same p s : quiet p s s.
Proof. by left. Qed.
Lemma quiet_inactive p s : quiet p s INACTIVITY.
Proof. right. by left. Qed.
Lemma quiet_ok p s s' : ok p s' -> quiet p s s'.
Proof. right. by right. Qed.
End Quiet.

Create HintDb quiet.
#[export] Hint Resolve quietly_ret quietly_ask quietly_fail quietly_lift quietly_check quietly_on_chain quietly_upd_tables quietly_get_node quietly_get_local quiet_same quiet_inactive quiet_ok : quiet.

(** Walk through a handler: a bind, a branch, a call that is known. *)
Ltac quiet_step :=
  first [ solve [eauto with quiet]
        | lazymatch goal with
          | |- quietly _ (upd_node _ _) => apply quietly_upd_node; intros; cbn
          | |- quietly _ (upd_local _) => apply quietly_upd_local; intros; cbn
          | |- quietly _ (attempt _) => apply quietly_attempt
          | |- quietly _ (change _) => apply quietly_change; intros; done
          | |- quietly _ (_ ≫= _) => apply quietly_bind; [|intros]
          end
        | case_match
        | progress unfold need ].
Ltac quietly := repeat quiet_step.

Section Handlers.
Context {DB : Type} `{IStore DB} `{ICrypto} (cfg : Config) (nc : NetConfig) (ripemd160 : bytes -> bytes) (MAXIDCACHED : nat).
Context (ok : positive -> Z -> Prop).
Abbreviation calm := (quietly (DB := DB) ok).

Lemma quietly_NodeDisconnect p : calm (NodeDisconnect p).
Proof. unfold NodeDisconnect, set_state, CloseConn. quietly. Qed.
#[local] Hint Resolve quietly_NodeDisconnect : quiet.
Lemma quietly_Tx p buf : calm (Tx p buf).
Proof. unfold Tx. quietly. Qed.
#[local] Hint Resolve quietly_Tx : quiet.
Lemma quietly_send p msg : calm (send p msg).
Proof. unfold send. quietly. Qed.
Lemma quietly_send_any p msg : calm (send_any p msg).
Proof. unfold send_any. quietly. Qed.
#[local] Hint Resolve quietly_send quietly_send_any : quiet.
Lemma quietly_for_nodes l f : (forall p n, calm (f p n)) -> calm (for_nodes l f).
Proof. intros Hf. induction l as [|[p n] l IH]; cbn [for_nodes]; quietly. Qed.
Lemma quietly_Relay p m : calm (Relay nc p m).
Proof. unfold Relay, count_txn. quietly. apply quietly_for_nodes. intros. quietly. Qed.
#[local] Hint Resolve quietly_Relay : quiet.
Lemma quietly_local_ExistedID id : calm (local_ExistedID MAXIDCACHED id).
Proof. unfold local_ExistedID. quietly. Qed.
#[local] Hint Resolve quietly_local_ExistedID : quiet.
Lemma quietly_SendMsgSyncBlockHeaders p l h : calm (SendMsgSyncBlockHeaders nc p l h).
Proof. unfold SendMsgSyncBlockHeaders. quietly. Qed.
#[local] Hint Resolve quietly_SendMsgSyncBlockHeaders : quiet.
Lemma quietly_SendMsgSyncHeaders p h : calm (SendMsgSyncHeaders nc p h).
Proof. unfold SendMsgSyncHeaders, SetHeaderFirstMode. quietly. Qed.
#[local] Hint Resolve quietly_SendMsgSyncHeaders : quiet.
Lemma quietly_ReqBlkData now p h : calm (ReqBlkData nc now p h).
Proof. unfold ReqBlkData, AddRequestedBlock. quietly. Qed.
#[local] Hint Resolve quietly_ReqBlkData : quiet.
Lemma quietly_fetch_loop fuel now p h : calm (fetch_loop nc fuel now p h).
Proof. revert h. induction fuel as [|fuel IH]; intros h; cbn [fetch_loop]; unfold chain_store; quietly. Qed.
#[local] Hint Resolve quietly_fetch_loop : quiet.
Lemma quietly_fetchHeaderBlocks now p : calm (fetchHeaderBlocks nc now p).
Proof. unfold fetchHeaderBlocks, chain_store. quietly. Qed.
#[local] Hint Resolve quietly_fetchHeaderBlocks : quiet.
Lemma quietly_header_range max s e : calm (header_range max s e).
Proof. unfold header_range, chain_store. quietly. Qed.
#[local] Hint Resolve quietly_header_range : quiet.
Lemma quietly_headers_loop db s l : calm (headers_loop db s l).
Proof. induction l as [|i l IH]; cbn [headers_loop]; quietly. Qed.
#[local] Hint Resolve quietly_headers_loop : quiet.
Lemma quietly_addr_Handle l : calm (addr_Handle l).
Proof. induction l as [|v l IH]; cbn [addr_Handle]; quietly. Qed.
Lemma quietly_inv_loop turns i count p blk id hs : calm (inv_loop nc turns i count p blk id hs).
Proof. revert i id hs. induction turns as [|turns IH]; intros i id hs; cbn [inv_loop]; quietly. Qed.
Lemma quietly_request_missing now p hs : calm (request_missing nc now p hs).
Proof. induction hs as [|h hs IH]; cbn [request_missing]; unfold RequestedBlockExisted; quietly. Qed.
#[local] Hint Resolve quietly_addr_Handle quietly_inv_loop quietly_request_missing : quiet.
Lemma quietly_FindNextHeaderCheckpoint h : calm (FindNextHeaderCheckpoint nc h).
Proof. unfold FindNextHeaderCheckpoint. quietly. Qed.
#[local] Hint Resolve quietly_FindNextHeaderCheckpoint : quiet.
Lemma quietly_Inv_Handle now p P : calm (Inv_Handle nc MAXIDCACHED now p P).
Proof. unfold Inv_Handle. quietly. Qed.
Lemma quietly_blkHeader_Handle now p hs : calm (blkHeader_Handle nc now p hs).
Proof. unfold blkHeader_Handle, chain_store. quietly. Qed.
Lemma quietly_block_Handle now p b : calm (block_Handle cfg nc ripemd160 MAXIDCACHED now p b).
Proof. unfold block_Handle, DeleteRequestedBlock, AddReceived, RequestedBlockExisted, SetHeaderFirstMode, chain_store. quietly. Qed.
#[local] Hint Resolve quietly_Inv_Handle quietly_blkHeader_Handle quietly_block_Handle : quiet.

(** The messages that take part in the handshake. *)
Definition handshaking (m : Messager) : bool := match m with MVersion _ _ _ | MVerACK _ => true | _ => false end.
Lemma quietly_Handle now p m : handshaking m = false -> calm (Handle cfg nc ripemd160 MAXIDCACHED now p m).
Proof.
  destruct m; try discriminate; intros _; cbn [Handle];
    unfold headersReq_Handle, GetHeadersFromHash, addrReq_Handle, dataReq_Handle, trn_Handle, consensus_Handle, blocksReq_Handle,
      GetInvFromBlockHash, ping_Handle, pong_Handle, chain_store; quietly.
Qed.
End Handlers.

(** * The state machine of a connection *)

Section Steps.
Context {DB : Type} `{IStore DB} `{ICrypto} (cfg : Config) (nc : NetConfig) (ripemd160 : bytes -> bytes) (MAXIDCACHED : nat).

(** What happens to a node: a message of a peer, a tick of the timers, a dial,
    a connection that breaks. *)
Inductive event := EMessage (p : positive) (m : Messager) | EOther.
Inductive net_step : world DB -> event -> world DB -> Prop :=
  | step_message w now p m w' r : Handle cfg nc ripemd160 MAXIDCACHED now p m w = Ok (w', r) -> net_step w (EMessage p m) w'
  | step_tick w now w' r : update_tick nc now w = Ok (w', r) -> net_step w EOther w'
  | step_start w w' r : StartSync nc w = Ok (w', r) -> net_step w EOther w'
  | step_count w w' r : CheckConnCnt w = Ok (w', r) -> net_step w EOther w'
  | step_choose w now dial seeds enum order w' r : connection_tick nc now dial seeds enum order w = Ok (w', r) -> net_step w EOther w'
  | step_retry w now dial w' r : TryConnect nc now dial w = Ok (w', r) -> net_step w EOther w'
  | step_accept w remote w' r : accept_conn remote w = Ok (w', r) -> net_step w EOther w'
  | step_dial w now dial a w' r : Connect nc now dial a w = Ok (w', r) -> net_step w EOther w'
  | step_break w p w' r : NodeDisconnect p w = Ok (w', r) -> net_step w EOther w'.
Inductive trace : world DB -> list event -> world DB -> Prop :=
  | trace_nil w : trace w [] w
  | trace_cons w e w1 es w2 : net_step w e w1 -> trace w1 es w2 -> trace w (e :: es) w2.

(** The transitions of the connection to [q]. *)
Inductive conn_step (q : positive) : event -> Z -> Z -> Prop :=
  | conn_stay e s : conn_step q e s s
  | conn_drop e s : conn_step q e s INACTIVITY
  | conn_shake h P pk : conn_step q (EMessage q (MVersion h P pk)) INIT HANDSHAKE
  | conn_shaken h P pk : conn_step q (EMessage q (MVersion h P pk)) HAND HANDSHAKED
  | conn_establish h s : s = HANDSHAKE \/ s = HANDSHAKED -> conn_step q (EMessage q (MVerACK h)) s ESTABLISH.

Definition nowhere (q : positive) (s : Z) : Prop := False.
Definition only (p : positive) (s : Z) (q : positive) (s' : Z) : Prop := q = p /\ s' = s.
#[local] Hint Resolve quietly_NodeDisconnect quietly_Tx quietly_send quietly_send_any quietly_SendMsgSyncBlockHeaders quietly_SendMsgSyncHeaders quietly_ReqBlkData quietly_FindNextHeaderCheckpoint : quiet.

Lemma quietly_sync_with_best ok : quietly (DB := DB) ok (sync_with_best nc).
Proof. unfold sync_with_best. quietly. Qed.
Lemma quietly_request_stale ok now p rb : quietly (DB := DB) ok (request_stale nc now p rb).
Proof. induction rb as [|[k t] rb IH]; cbn [request_stale]; quietly. Qed.
#[local] Hint Resolve quietly_sync_with_best quietly_request_stale : quiet.
Lemma quietly_update_tick ok now : quietly (DB := DB) ok (update_tick nc now).
Proof.
  unfold update_tick, SendPingToNbr, SyncBlks, HeartBeatMonitor, forget_range, ResetRequestedBlock.
  quietly; apply quietly_for_nodes; intros; quietly.
Qed.
Lemma quietly_StartSync ok : quietly (DB := DB) ok (StartSync nc).
Proof. unfold StartSync, SetHeaderFirstMode. quietly. Qed.
Lemma quietly_CheckConnCnt ok : quietly (DB := DB) ok CheckConnCnt.
Proof. unfold CheckConnCnt. quietly. Qed.
(** A new node is a new key of the heap. *)
Lemma quietly_alloc {A} ok n (k : positive -> netM A) : (forall p, quietly (DB := DB) ok (k p)) ->
  quietly ok (h ← ask w_heap; _ ← change (fun w => set_w_heap (<[fresh (dom h) := n]> (w_heap w)) w); k (fresh (dom h))).
Proof.
  intros Hk w w' r E. cbn in E. apply Hk in E as [El Eq]. split; [exact El|]. intros q m Hq.
  apply Eq. cbn. rewrite lookup_insert_ne; [done|]. intros <-. apply (is_fresh (dom (w_heap w))). apply elem_of_dom. by exists m.
Qed.
Lemma quietly_Connect ok now dial a : quietly (DB := DB) ok (Connect nc now dial a).
Proof.
  unfold Connect. repeat match goal with |- quietly _ (ask w_heap ≫= _) => fail 1 | _ => quiet_step end.
  apply (quietly_alloc ok _ (fun p => l ← get_local; msg ← NewVersion nc now l; send_any p msg)).
  intros p. unfold NewVersion, chain_height. quietly.
Qed.

#[local] Hint Resolve quietly_Connect quietly_CheckConnCnt : quiet.
Lemma quietly_connect_all ok now dial l : quietly (DB := DB) ok (connect_all nc now dial l).
Proof. induction l as [|a l IH]; cbn [connect_all]; quietly. Qed.
Lemma quietly_connect_seeds ok now dial l : quietly (DB := DB) ok (connect_seeds nc now dial l).
Proof. induction l as [|a l IH]; cbn [connect_seeds]; unfold ReqNeighborList; quietly. Qed.
#[local] Hint Resolve quietly_connect_all quietly_connect_seeds : quiet.
Lemma quietly_connection_tick ok now dial seeds enum order : quietly (DB := DB) ok (connection_tick nc now dial seeds enum order).
Proof. unfold connection_tick, ConnectSeeds, ConnectNode. quietly. Qed.
Lemma quietly_fetch_retry ok now l kept : quietly (DB := DB) ok (fetch_retry now l kept).
Proof. revert kept. induction l as [|[p n] l IH]; intros kept; cbn [fetch_retry]; unfold CloseConn; quietly. Qed.
Lemma quietly_reconnect_all ok now dial l lst : quietly (DB := DB) ok (reconnect_all nc now dial l lst).
Proof. revert lst. induction l as [|[a n] l IH]; intros lst; cbn [reconnect_all]; quietly. Qed.
#[local] Hint Resolve quietly_fetch_retry quietly_reconnect_all : quiet.
Lemma quietly_TryConnect ok now dial : quietly (DB := DB) ok (TryConnect nc now dial).
Proof. unfold TryConnect, fetchRetryNodeFromNeiborList, reconnect. quietly. Qed.
Lemma quietly_accept ok remote : quietly (DB := DB) ok (accept_conn remote).
Proof. unfold accept_conn. quiet_step; [quietly|]. apply (quietly_alloc ok _ (fun p => mret p)). intros p. quietly. Qed.

Lemma get_node_bind {A} p (f : node -> netM A) (w : world DB) :
  (get_node p ≫= f) w = match w_heap w !! p with Some n => f n w | None => Panic end.
Proof. unfold get_node, ask, need, lift, no_panic, mbind, netM_bind. by destruct (w_heap w !! p). Qed.
Lemma get_local_bind {A} (f : node -> netM A) (w : world DB) :
  (get_local ≫= f) w = match w_heap w !! w_local w with Some n => f n w | None => Panic end.
Proof. unfold get_local, get_node, ask, need, lift, no_panic, mbind, netM_bind. by destruct (w_heap w !! w_local w). Qed.

Lemma quietly_DelNbrNode ok id : quietly (DB := DB) ok (DelNbrNode id).
Proof. unfold DelNbrNode. quietly. Qed.
Lemma quietly_AddNbrNode ok p : quietly (DB := DB) ok (AddNbrNode p).
Proof. unfold AddNbrNode. quietly. Qed.
#[local] Hint Resolve quietly_DelNbrNode quietly_AddNbrNode : quiet.
Lemma quietly_set_state p s : quietly (DB := DB) (only p s) (set_state p s).
Proof. apply quietly_upd_node. intros n. by apply quiet_ok. Qed.
#[local] Hint Resolve quietly_set_state : quiet.

(** The run of a handler whose body is known to be [quietly]. *)
Ltac quiet_run E ok := match type of E with ?m ?w = _ => assert (quietly ok m) as Q; [|exact (Q _ _ _ E)] end.

Lemma version_quiet now q P pk (w w' : world DB) r nq :
  version_Handle nc now q P pk w = Ok (w', r) -> w_heap w !! q = Some nq ->
  quiet_world (fun p s => p = q /\ ((nd_state nq = INIT /\ s = HANDSHAKE) \/ (nd_state nq = HAND /\ s = HANDSHAKED))) w w'.
Proof.
  unfold version_Handle. set (ok := fun p s => _). rewrite get_local_bind. intros E Hq.
  destruct (w_heap w !! w_local w) as [l|]; [|done].
  destruct (vp_Nonce P =? nd_id l); [quiet_run E ok; unfold CloseConn; quietly|].
  rewrite get_node_bind, Hq in E. destruct (nd_state nq =? INIT) eqn:EI; [|destruct (nd_state nq =? HAND) eqn:EH]; cbn [negb andb] in E.
  - apply Z.eqb_eq in EI. quiet_run E ok. unfold NewVersion, chain_height, set_state. quietly. apply quiet_ok. unfold ok. auto.
  - apply Z.eqb_eq in EH. quiet_run E ok. unfold set_state. quietly. apply quiet_ok. unfold ok. auto.
  - quiet_run E ok. quietly.
Qed.

Lemma verACK_quiet q (w w' : world DB) r nq :
  verACK_Handle nc q w = Ok (w', r) -> w_heap w !! q = Some nq ->
  quiet_world (fun p s => p = q /\ (nd_state nq = HANDSHAKE \/ nd_state nq = HANDSHAKED) /\ s = ESTABLISH) w w'.
Proof.
  unfold verACK_Handle. set (ok := fun p s => _). rewrite get_node_bind. intros E Hq. rewrite Hq in E.
  destruct (nd_state nq =? HANDSHAKE) eqn:E1; [|destruct (nd_state nq =? HANDSHAKED) eqn:E2]; cbn [negb andb] in E.
  - apply Z.eqb_eq in E1. quiet_run E ok. unfold ReqNeighborList, set_state. quietly. apply quiet_ok. unfold ok. auto.
  - apply Z.eqb_eq in E2. quiet_run E ok. unfold ReqNeighborList, set_state. quietly. apply quiet_ok. unfold ok. auto.
  - quiet_run E ok. quietly.
Qed.

(** A handler of the handshake looks its peer up. *)
Lemma version_known now q P pk (w w' : world DB) r : version_Handle nc now q P pk w = Ok (w', r) -> is_Some (w_heap w !! q).
Proof.
  unfold version_Handle, CloseConn, upd_node. rewrite get_local_bind. destruct (w_heap w !! w_local w) as [l|]; [|done].
  destruct (w_heap w !! q) as [n|] eqn:Eq; [by eexists|]. destruct (vp_Nonce P =? nd_id l).
  - unfold mbind at 1, netM_bind at 1. rewrite get_node_bind, Eq. done.
  - rewrite get_node_bind, Eq. done.
Qed.

Lemma quiet_conn ok e (w w' : world DB) p n : quiet_world ok w w' -> w_heap w !! p = Some n ->
  (forall s', ok p s' -> conn_step p e (nd_state n) s') ->
  exists n', w_heap w' !! p = Some n' /\ conn_step p e (nd_state n) (nd_state n').
Proof.
  intros [_ Q] Hp Hok. destruct (Q p n Hp) as (n' & E & [S|[S|S]]); exists n'; (split; [exact E|]).
  - rewrite S. constructor.
  - rewrite S. constructor.
  - by apply Hok.
Qed.

(** Every step moves every connection along the state machine. *)
Lemma net_step_states w e w' p n : net_step w e w' -> w_heap w !! p = Some n ->
  exists n', w_heap w' !! p = Some n' /\ conn_step p e (nd_state n) (nd_state n').
Proof.
  assert (S : forall A (m : netM A) (w w' : world DB) r, quietly nowhere m -> m w = Ok (w', r) -> w_heap w !! p = Some n ->
    exists n', w_heap w' !! p = Some n' /\ conn_step p e (nd_state n) (nd_state n')).
  { intros A m v v' r Q E Hp. apply (quiet_conn nowhere e v v' p n); [exact (Q _ _ _ E)|done|by intros s' []]. }
  intros N Hp. destruct N as [w now q m w' r E|w now w' r E|w w' r E|w w' r E|w now dial seeds enum order w' r E|w now dial w' r E|w remote w' r E|w now dial a w' r E|w q w' r E].
  - destruct (handshaking m) eqn:Em; [|eapply S; [by apply quietly_Handle|exact E|exact Hp]].
    destruct m; try discriminate; cbn [Handle] in E.
    + destruct (version_known _ _ _ _ _ _ _ E) as [nq Hq]. eapply quiet_conn; [exact (version_quiet _ _ _ _ _ _ _ _ E Hq)|done|].
      intros s' (-> & [[Es ->]|[Es ->]]); rewrite Hp in Hq; injection Hq as ->; rewrite Es; constructor.
    + assert (is_Some (w_heap w !! q)) as [nq Hq].
      { unfold verACK_Handle in E. rewrite get_node_bind in E. destruct (w_heap w !! q); [by eexists|done]. }
      eapply quiet_conn; [exact (verACK_quiet _ _ _ _ _ E Hq)|done|].
      intros s' (-> & Es & ->). rewrite Hp in Hq. injection Hq as ->. by constructor.
  - eapply S; [apply quietly_update_tick|exact E|exact Hp].
  - eapply S; [apply quietly_StartSync|exact E|exact Hp].
  - eapply S; [apply quietly_CheckConnCnt|exact E|exact Hp].
  - eapply S; [apply quietly_connection_tick|exact E|exact Hp].
  - eapply S; [apply quietly_TryConnect|exact E|exact Hp].
  - eapply S; [apply quietly_accept|exact E|exact Hp].
  - eapply S; [apply quietly_Connect|exact E|exact Hp].
  - eapply S; [apply quietly_NodeDisconnect|exact E|exact Hp].
Qed.

Lemma conn_step_inv p e s s' : conn_step p e s s' ->
  s' = s \/ s' = INACTIVITY \/
  (exists m, e = EMessage p m /\ handshaking m = true /\
    ((match m with MVersion _ _ _ => True | _ => False end /\ (s = INIT \/ s = HAND) /\ (s' = HANDSHAKE \/ s' = HANDSHAKED)) \/
     (match m with MVerACK _ => True | _ => False end /\ (s = HANDSHAKE \/ s = HANDSHAKED) /\ s' = ESTABLISH))).
Proof. destruct 1; [by left|right; by left|right; right; eexists; (split; [reflexivity|]); auto 10..]. Qed.

(** An inactive connection stays so; one that shook hands waits for a verack. *)
Lemma trace_inactive w es w' p n : trace w es w' -> w_heap w !! p = Some n -> nd_state n = INACTIVITY ->
  exists n', w_heap w' !! p = Some n' /\ nd_state n' = INACTIVITY.
Proof.
  intros T. revert n. induction T as [w|w e w1 es w2 N T IH]; intros n Hp Hs; [by exists n|].
  destruct (net_step_states _ _ _ _ _ N Hp) as (n1 & H1 & C). apply (IH n1 H1). rewrite Hs in C.
  destruct (conn_step_inv _ _ _ _ C) as [S|[S|(m & _ & _ & [(_ & [S|S] & _)|(_ & [S|S] & _)])]]; done.
Qed.

Definition is_version (m : Messager) : bool := match m with MVersion _ _ _ => true | _ => false end.
Definition is_verack (m : Messager) : bool := match m with MVerACK _ => true | _ => false end.

Lemma trace_verack w es w' p n n' : trace w es w' -> w_heap w !! p = Some n -> nd_state n = HANDSHAKE \/ nd_state n = HANDSHAKED ->
  w_heap w' !! p = Some n' -> nd_state n' = ESTABLISH ->
  exists e1 m e2, es = e1 ++ EMessage p m :: e2 /\ is_verack m = true.
Proof.
  intros T. revert n. induction T as [w|w e w1 es w2 N T IH]; intros n Hp Hs Hp' Hs'.
  { rewrite Hp in Hp'. injection Hp' as ->. destruct Hs as [Hs|Hs]; rewrite Hs in Hs'; discriminate. }
  destruct (net_step_states _ _ _ _ _ N Hp) as (n1 & H1 & C).
  destruct (conn_step_inv _ _ _ _ C) as [S|[S|(m & -> & _ & [(_ & F & _)|(Hm & _)])]].
  - rewrite <- S in Hs. destruct (IH n1 H1 Hs Hp' Hs') as (e1 & m & e2 & -> & Hm). by exists (e :: e1), m, e2.
  - destruct (trace_inactive _ _ _ _ _ T H1 S) as (n2 & H2 & S2). rewrite H2 in Hp'. injection Hp' as ->. rewrite S2 in Hs'. discriminate.
  - destruct Hs as [Hs|Hs], F as [F|F]; rewrite F in Hs; discriminate.
  - exists [], m, es. split; [done|]. by destruct m.
Qed.

(** C18: No peer is treated as a neighbour before the handshake: when a connection
    that was just opened or dialled is established at the end of any sequence
    of received messages, timer ticks, dials and broken connections, then its
    peer sent a version message and after it a verack.  The other messages of
    any peer, and the messages of other peers, do not move the state. *)
Theorem established_after_handshake (w : world DB) (es : list event) (w' : world DB) (p : positive) (n n' : node) :
  trace w es w' -> w_heap w !! p = Some n -> nd_state n = INIT \/ nd_state n = HAND ->
  w_heap w' !! p = Some n' -> nd_state n' = ESTABLISH ->
  exists e1 m1 e2 m2 e3, es = e1 ++ EMessage p m1 :: e2 ++ EMessage p m2 :: e3 /\ is_version m1 = true /\ is_verack m2 = true.
Proof.
  intros T. revert n. induction T as [w|w e w1 es w2 N T IH]; intros n Hp Hs Hp' Hs'.
  { rewrite Hp in Hp'. injection Hp' as ->. destruct Hs as [Hs|Hs]; rewrite Hs in Hs'; discriminate. }
  assert (V : forall m n1, is_version m = true -> w_heap w1 !! p = Some n1 -> nd_state n1 = HANDSHAKE \/ nd_state n1 = HANDSHAKED ->
    exists e1 m1 e2 m2 e3, EMessage p m :: es = e1 ++ EMessage p m1 :: e2 ++ EMessage p m2 :: e3 /\ is_version m1 = true /\ is_verack m2 = true).
  { intros m n1 Hm H1 S1. destruct (trace_verack _ _ _ _ _ _ T H1 S1 Hp' Hs') as (e2 & m2 & e3 & -> & Hm2). by exists [], m, e2, m2, e3. }
  destruct (net_step_states _ _ _ _ _ N Hp) as (n1 & H1 & C).
  destruct (conn_step_inv _ _ _ _ C) as [S|[S|(m & -> & _ & [(Hm & _ & S)|(_ & F & _)])]].
  - rewrite <- S in Hs. destruct (IH n1 H1 Hs Hp' Hs') as (e1 & m1 & e2 & m2 & e3 & -> & Hm). by exists (e :: e1), m1, e2, m2, e3.
  - destruct (trace_inactive _ _ _ _ _ T H1 S) as (n2 & H2 & S2). rewrite H2 in Hp'. injection Hp' as ->. rewrite S2 in Hs'. discriminate.
  - eapply V; [by destruct m|exact H1|exact S].
  - destruct Hs as [Hs|Hs], F as [F|F]; rewrite F in Hs; discriminate.
Qed.
End Steps.

(** * Runs of handlers *)

Section Runs.
Context {DB : Type} `{IStore DB}.

Lemma net_bind_run {A B} (m : netM A) (f : A -> netM B) (w w1 : world DB) a : m w = Ok (w1, inl a) -> (m ≫= f) w = f a w1.
Proof. intros E. unfold mbind, netM_bind. by rewrite E. Qed.
Lemma ask_run {A} (f : world DB -> A) w : ask f w = Ok (w, inl (f w)).
Proof. done. Qed.
Lemma need_run {A} (a : A) (w : world DB) : need (Some a) w = Ok (w, inl a).
Proof. done. Qed.
Lemma check_run (w : world DB) : check None w = Ok (w, inl tt).
Proof. done. Qed.
Lemma get_node_run p n (w : world DB) : w_heap w !! p = Some n -> get_node p w = Ok (w, inl n).
Proof. intros E. unfold get_node, ask, need, lift, no_panic, mbind, netM_bind. by rewrite E. Qed.
Lemma get_local_run n (w : world DB) : w_heap w !! w_local w = Some n -> get_local w = Ok (w, inl n).
Proof. apply get_node_run. Qed.
Lemma upd_node_run p f n (w : world DB) : w_heap w !! p = Some n ->
  upd_node p f w = Ok (set_w_heap (<[p := f n]> (w_heap w)) w, inl tt).
Proof. intros E. unfold upd_node. by erewrite net_bind_run by (by apply get_node_run). Qed.
Lemma upd_tables_run f (w : world DB) : upd_tables f w = Ok (set_w_tables (f (w_tables w)) w, inl tt).
Proof. done. Qed.
Lemma Tx_run p n buf (w : world DB) : w_heap w !! p = Some n -> nd_state n <> INACTIVITY -> nd_open n = true ->
  Tx p buf w = Ok (set_w_out (w_out w ++ [(p, buf)]) w, inl tt).
Proof.
  intros E Hs Ho. unfold Tx. erewrite net_bind_run by (by apply get_node_run). by rewrite (proj2 (Z.eqb_neq _ _)), Ho by done.
Qed.
Lemma send_any_run p n b e (w : world DB) : w_heap w !! p = Some n -> nd_state n <> INACTIVITY -> nd_open n = true ->
  send_any p (Some (b, e)) w = Ok (set_w_out (w_out w ++ [(p, b)]) w, inl tt).
Proof. intros E Hs Ho. unfold send_any. erewrite net_bind_run by (by apply need_run). by eapply Tx_run. Qed.
Lemma DelNbrNode_run id (w : world DB) : lt_nbrs (w_tables w) !! id = None -> DelNbrNode id w = Ok (w, inl None).
Proof. intros E. unfold DelNbrNode. erewrite net_bind_run by apply ask_run. by rewrite E. Qed.
Lemma AddNbrNode_run p n (w : world DB) : w_heap w !! p = Some n -> lt_nbrs (w_tables w) !! nd_id n = None ->
  AddNbrNode p w = Ok (set_w_tables (set_lt_nbrs (<[nd_id n := p]> (lt_nbrs (w_tables w))) (w_tables w)) w, inl tt).
Proof.
  intros E En. unfold AddNbrNode. erewrite net_bind_run by (by apply get_node_run). rewrite upd_tables_run. by rewrite En.
Qed.
Lemma AddAddress_total na al : exists al', AddAddressToKnownAddress na al = Some al'.
Proof.
  unfold AddAddressToKnownAddress, AddressExisted. case_bool_decide as Hx; [|by eexists].
  destruct Hx as [ka Hk]. unfold UpdateAddress. rewrite Hk. cbn [mbind option_bind]. case_match; by eexists.
Qed.
End Runs.

(** * Two small nodes *)

Definition small_conf : NetConfig := mkNetConfig 7630401 20333 true 20866 false true [] 6 2 8 100.
Definition small_key (x : Z) : PubKey := mkPubKey (Some x) (Some (x + 1)).
Definition small_local (id : Z) : node :=
  mkNetNode INIT id (replicate 32 0) PROTOCOLVERSION VERIFYNODE true 0 0 0 (Some (small_key id)) [] 20866 0 zero_time true (idCache_init 10) 0 [].
Definition small_tables : tables :=
  mkTables ∅ pool_init KnownAddressList_init [] ∅ false ∅ None false zero256 zero256 2 8 100 0.
(** A node with the peers [ps] in its heap; it is node 1 itself. *)
Definition small_world (id : Z) (ps : gmap positive node) : world (gmap bytes bytes) :=
  mkWorld (<[1%positive := small_local id]> ps) 1 small_tables small_main [] 0.
Definition accepted_peer : gmap positive node := {[2%positive := NewNode (str "10.0.0.1")]}.

(** The acceptor gets the version and the verack of its peer. *)
Definition peer_version : Messager := MVersion new_hdr (mkVersion 0 VERIFYNODE 5 20866 20333 (replicate 32 0) 7 0 3 1) (Some (small_key 7)).
Definition peer_conversation : list event := [EMessage 2 peer_version; EMessage 2 (MVerACK new_hdr)].
Definition handled (now : Z) (m : Messager) (w : world (gmap bytes bytes)) : world (gmap bytes bytes) :=
  match Handle (H0 := prefix_crypto) reg_cfg small_conf sample_ripemd 10 now 2 m w with Ok (w, _) => w | _ => w end.
Definition greeted : world (gmap bytes bytes) := handled 1 peer_version (small_world 9 accepted_peer).
Definition befriended : world (gmap bytes bytes) := handled 2 (MVerACK new_hdr) greeted.
Lemma peer_trace : trace (H0 := prefix_crypto) reg_cfg small_conf sample_ripemd 10 (small_world 9 accepted_peer) peer_conversation befriended.
Proof.
  assert (R : forall now m w, match Handle (H0 := prefix_crypto) reg_cfg small_conf sample_ripemd 10 now 2 m w with Ok _ => true | _ => false end = true ->
    net_step (H0 := prefix_crypto) reg_cfg small_conf sample_ripemd 10 w (EMessage 2 m) (handled now m w)).
  { intros now m w E. unfold handled. destruct (Handle _ _ _ _ now 2 m w) as [[w' r]| |] eqn:Eh; [|discriminate E..].
    exact (step_message _ _ _ _ _ _ _ _ _ _ Eh). }
  eapply trace_cons; [apply R with (now := 1); vm_compute; reflexivity|].
  eapply trace_cons; [apply R with (now := 2); vm_compute; reflexivity|]. apply trace_nil.
Qed.
Lemma established_after_handshake_witness :
  exists n', w_heap befriended !! 2%positive = Some n' /\ nd_state n' = ESTABLISH /\
  exists e1 m1 e2 m2 e3, peer_conversation = e1 ++ EMessage 2 m1 :: e2 ++ EMessage 2 m2 :: e3 /\ is_version m1 = true /\ is_verack m2 = true.
Proof.
  assert (T : match w_heap befriended !! 2%positive with Some n' => nd_state n' =? ESTABLISH | None => false end = true) by (vm_compute; reflexivity).
  destruct (w_heap befriended !! 2%positive) as [n'|] eqn:E; [|discriminate T]. apply Z.eqb_eq in T.
  exists n'. split; [reflexivity|]. split; [exact T|].
  apply (established_after_handshake (H0 := prefix_crypto) reg_cfg small_conf sample_ripemd 10 _ _ _ 2 (NewNode (str "10.0.0.1")) n' peer_trace).
  - reflexivity.
  - left. reflexivity.
  - exact E.
  - exact T.
Defined.
