(* ===== verification/Handshake.v ===== *)
(** The handshake of two nodes, byte for byte: what each handler of it does to
    an open connection, and the whole conversation of a node that dialled and
    the node that accepted. *)

From S2P Require Import Prelude Sha256 Serialization Common Fixed64 Transaction Merkle AuxPow Block.
From S2P Require Import Store Utxo Difficulty MedianTime Vm Address PubKey Contract Message Link Peers Validator TxPool Blockchain Ledger Node Handlers Sync Network ChainSelection.

Section Handshake.
Context {DB : Type} `{IStore DB} `{ICrypto} (cfg : Config) (nc : NetConfig) (ripemd160 : bytes -> bytes) (MAXIDCACHED : nat).
Abbreviation magic := (nc_Magic nc).
Abbreviation HandleNodeMsg := (HandleNodeMsg cfg nc ripemd160 MAXIDCACHED).
Abbreviation Handle := (Handle cfg nc ripemd160 MAXIDCACHED).

(** ** From bytes to handlers *)

Lemma HandleNodeMsg_parse now p buf m e v (w : world DB) : parse magic buf = Some (Some m, e, v) ->
  HandleNodeMsg now p buf w = Handle now p m w.
Proof.
  unfold parse, Handlers.HandleNodeMsg. intros E.
  destruct (MsgType buf) as [[s e']|]; [|done]. cbn [mbind option_bind] in E.
  destruct e' as [e'|]; [done|]. cbn [is_err] in E.
  destruct (AllocMsg s (Z.of_nat (length buf))) as [[m0|]|] eqn:Ea; cbn [mbind option_bind] in E; [|done..].
  destruct (Deserialization m0 buf) as [[m1 e1]|] eqn:Ed; cbn [mbind option_bind] in E; [|done].
  destruct (slice buf (Z.to_nat MSGHDRLEN) (length buf)) as [pl|] eqn:Es; cbn [mbind option_bind] in E; [|done].
  injection E as -> _ _. unfold slice in Es. destruct (_ && _) eqn:Eb in Es; [|done].
  apply andb_true_iff in Eb as [El _]. apply Nat.leb_le in El.
  rewrite (proj2 (Z.ltb_ge _ _)) by (unfold MSGHDRLEN in *; lia).
  erewrite net_bind_run by apply need_run. cbn beta iota. erewrite net_bind_run by apply check_run. rewrite Ea.
  erewrite net_bind_run by apply need_run. cbn beta iota. rewrite Ed. by erewrite net_bind_run by apply need_run.
Qed.

(** ** The handlers on an open connection *)

(** What [NewVersion] announces of the local node. *)
Definition announced (now height : Z) (n : node) : version_P :=
  mkVersion (nd_version n) (nd_services n) (uint32 now) (nd_port n) (uint16 (nc_HttpInfoPort nc))
    ((if nc_HttpInfoStart nc then 1 else 0) :: replicate 31 0) (nd_id n) 0 (uint64 height) (if nd_relay n then 1 else 0).
Lemma NewVersion_run now n (w : world DB) :
  NewVersion nc now n w = Ok (w, inl (version_msg magic (announced now (BlockHeight (w_chain w)) n) (nd_publicKey n))).
Proof. done. Qed.

(** A local node whose fields fit their types and whose key is a point. *)
Record announces (l : node) : Prop := {
  an_nums : inU 32 (nd_version l) /\ inU 64 (nd_services l) /\ inU 16 (nd_port l) /\ inU 64 (nd_id l);
  an_key : exists x y, nd_publicKey l = Some (mkPubKey (Some x) (Some y)) /\ coordinate x /\ coordinate y }.

Lemma announced_sent now height l : announces l -> exists h,
  sent magic (version_msg magic (announced now height l) (nd_publicKey l)) (MVersion h (announced now height l) (nd_publicKey l)).
Proof.
  intros [(H1 & H2 & H3 & H4) (x & y & -> & Hx & Hy)]. eexists. eapply sent_version; [|done..|reflexivity].
  constructor; cbn.
  - repeat split; try lia; apply wrapU_range; lia.
  - done.
  - repeat split; try lia; try (apply wrapU_range; lia); destruct (nd_relay l); lia.
Qed.

(** The node after a version message. *)
Definition informed (now s : Z) (P : version_P) (pk : option PubKey) (n : node) : node :=
  set_nd_state s (UpdateInfo now (vp_Version P) (vp_Services P) (vp_Port P) (vp_Nonce P) (vp_Relay P) (vp_StartHeight P)
    (set_nd_publicKey pk (set_nd_httpInfoPort (vp_HttpInfoPort P) (SetHttpInfoState (nth HTTPINFOFLAG (vp_Cap P) 0 =? 1) n)))).

Lemma version_Handle_run now p P pk l n (w : world DB) b e : 
  w_heap w !! w_local w = Some l -> w_heap w !! p = Some n -> p <> w_local w -> nd_open n = true ->
  nd_state n = INIT \/ nd_state n = HAND -> vp_Nonce P <> nd_id l -> lt_nbrs (w_tables w) !! vp_Nonce P = None ->
  (if nd_state n =? INIT then version_msg magic (announced now (BlockHeight (w_chain w)) l) (nd_publicKey l) else NewVerack magic) = Some (b, e) ->
  exists known, version_Handle nc now p P pk w =
    Ok (mkWorld (<[p := informed now (if nd_state n =? INIT then HANDSHAKE else HANDSHAKED) P pk n]> (w_heap w)) (w_local w)
          (set_lt_known known (set_lt_nbrs (<[vp_Nonce P := p]> (lt_nbrs (w_tables w))) (w_tables w)))
          (w_chain w) (w_out w ++ [(p, b)]) (w_duplicates w), inl tt).
Proof.
  intros Hl Hp Hne Ho Hs Hid Hnb Hm. unfold version_Handle.
  erewrite net_bind_run by (by apply get_local_run). rewrite (proj2 (Z.eqb_neq _ _)) by done.
  erewrite net_bind_run by (by apply get_node_run). cbn zeta.
  replace (negb (nd_state n =? INIT) && negb (nd_state n =? HAND)) with false by (destruct Hs as [-> | ->]; reflexivity).
  erewrite net_bind_run by (by apply DelNbrNode_run). erewrite net_bind_run by reflexivity.
  do 4 (erewrite net_bind_run by (eapply upd_node_run; cbn; (exact Hp || apply lookup_insert_eq))).
  erewrite net_bind_run by (eapply AddNbrNode_run; cbn; [apply lookup_insert_eq|exact Hnb]).
  erewrite net_bind_run by (eapply get_node_run; cbn; apply lookup_insert_eq).
  erewrite net_bind_run by apply ask_run. match goal with |- context [AddAddressToKnownAddress ?na ?al] => destruct (AddAddress_total na al) as [known Ek] end.
  rewrite Ek. erewrite net_bind_run by apply need_run. erewrite net_bind_run by apply upd_tables_run. exists known.
  assert (Ht : forall s, s = HANDSHAKE \/ s = HANDSHAKED -> s <> INACTIVITY) by (intros s [-> | ->]; done).
  destruct (nd_state n =? INIT).
  - erewrite net_bind_run by (eapply upd_node_run; cbn; apply lookup_insert_eq).
    erewrite net_bind_run by (eapply get_local_run; cbn; rewrite !lookup_insert_ne by done; exact Hl).
    erewrite net_bind_run by apply NewVersion_run. cbn [w_chain set_w_heap set_w_tables]. rewrite Hm.
    erewrite send_any_run; [|cbn; apply lookup_insert_eq|cbn; auto|exact Ho]. cbn. by rewrite !insert_insert_eq.
  - erewrite net_bind_run by (eapply upd_node_run; cbn; apply lookup_insert_eq). rewrite Hm.
    erewrite send_any_run; [|cbn; apply lookup_insert_eq|cbn; auto|exact Ho]. cbn. by rewrite !insert_insert_eq.
Qed.

(** [more]: the request for addresses a node that knows few of them adds. *)
Lemma verACK_Handle_run p n (w : world DB) : inU 32 magic ->
  w_heap w !! p = Some n -> nd_open n = true -> nd_state n = HANDSHAKE \/ nd_state n = HANDSHAKED ->
  exists t b more, NewVerack magic = Some (b, None) /\
    verACK_Handle nc p w =
      Ok (mkWorld (<[p := set_nd_state ESTABLISH n]> (w_heap w)) (w_local w) t (w_chain w)
            (w_out w ++ (if nd_state n =? HANDSHAKE then [(p, b)] else []) ++ more) (w_duplicates w), inl tt) /\
    lt_nbrs t = lt_nbrs (w_tables w).
Proof.
  intros Hm Hp Ho Hs. destruct (sent_delivers _ _ _ Hm (sent_verack magic)) as (b & Eb & _).
  destruct (sent_delivers _ _ _ Hm (sent_getaddr magic)) as (b' & Eb' & _).
  exists (set_lt_connecting (RemoveAddrInConnectingList (addr_port n) (lt_connecting (w_tables w))) (w_tables w)), b.
  exists (if NeedMoreAddresses (lt_known (w_tables w)) then [(p, b')] else []). split; [done|]. split; [|done].
  unfold verACK_Handle. erewrite net_bind_run by (by apply get_node_run). cbn zeta.
  replace (negb (nd_state n =? HANDSHAKE) && negb (nd_state n =? HANDSHAKED)) with false by (destruct Hs as [-> | ->]; reflexivity).
  erewrite net_bind_run by (by apply upd_node_run). unfold ReqNeighborList. rewrite Eb, Eb'.
  destruct (nd_state n =? HANDSHAKE);
    [erewrite net_bind_run by (eapply send_any_run; [cbn; apply lookup_insert_eq|done|exact Ho])|erewrite net_bind_run by reflexivity];
    (erewrite net_bind_run by apply ask_run); cbn [w_tables set_w_heap set_w_out];
    (destruct (NeedMoreAddresses _);
      [erewrite net_bind_run by (eapply send_any_run; [cbn; apply lookup_insert_eq|done|exact Ho])|erewrite net_bind_run by reflexivity]);
    (erewrite net_bind_run by (eapply get_node_run; cbn; apply lookup_insert_eq)); rewrite upd_tables_run; cbn; by rewrite <- ?app_assoc, ?app_nil_r.
Qed.

(** The address of a neighbour is compared with itself without its port, so the
    test never finds one. *)
Lemma IsAddrInNbrList_false addr (w : world DB) : IsAddrInNbrList addr w = false.
Proof.
  unfold IsAddrInNbrList. rewrite <- not_true_iff_false, existsb_exists. intros ([q n] & _ & E). cbn in E.
  case_match; [|done]. apply bool_decide_eq_true in E. apply (f_equal length) in E. unfold addr_port in E.
  rewrite length_app in E. cbn in E. lia.
Qed.

Lemma Connect_run now remote addr l b (w : world DB) cl :
  w_heap w !! w_local w = Some l -> SetAddrInConnectingList addr (lt_connecting (w_tables w)) = (cl, true) ->
  version_msg magic (announced now (BlockHeight (w_chain w)) l) (nd_publicKey l) = Some (b, None) ->
  exists p n t, w_heap w !! p = None /\ nd_state n = HAND /\ nd_open n = true /\ lt_nbrs t = lt_nbrs (w_tables w) /\
    Connect nc now (Some remote) addr w =
      Ok (mkWorld (<[p := n]> (w_heap w)) (w_local w) t (w_chain w) (w_out w ++ [(p, b)]) (w_duplicates w), inl tt).
Proof.
  intros Hl Hc Hb. pose proof (is_fresh (dom (w_heap w))) as Hf. apply not_elem_of_dom in Hf.
  assert (Hne : fresh (dom (w_heap w)) <> w_local w) by (intros E; rewrite E, Hl in Hf; done).
  eexists (fresh (dom (w_heap w))), (set_nd_state HAND (NewNode (fst (parseIPaddr remote)))), _.
  split; [exact Hf|]. split; [done|]. split; [done|]. split; cycle 1.
  - unfold Connect. erewrite net_bind_run by apply ask_run. rewrite IsAddrInNbrList_false.
    erewrite net_bind_run by apply ask_run. rewrite Hc. cbn [negb]. do 2 (erewrite net_bind_run by apply upd_tables_run).
    erewrite net_bind_run by apply ask_run. cbn zeta. cbn [w_heap set_w_tables]. erewrite net_bind_run by reflexivity.
    erewrite net_bind_run by (eapply get_local_run; cbn; rewrite lookup_insert_ne by done; exact Hl).
    erewrite net_bind_run by apply NewVersion_run. cbn [w_chain set_w_heap set_w_tables]. rewrite Hb.
    erewrite send_any_run; [|cbn; apply lookup_insert_eq|done|done]. reflexivity.
  - done.
Qed.

(** C19: Two nodes of the same network that know nothing of each other shake hands:
    one dials, and each handles the bytes the other wrote, in order.  The
    dialler sends its version; the acceptor answers with its own; the dialler
    answers with a verack, the acceptor with a verack of its own (and possibly
    a request for addresses).  None of the four messages fails, and at the end
    both ends of the connection are established and each node has the other in
    its list of neighbours under the identifier the other announced. *)
Theorem handshake_completes (wa wb : world DB) (la lb nb : node) (r : positive) (addr remote : bytes) (cl : list bytes) (t0 t1 t2 t3 t4 : Z) :
  inU 32 magic ->
  w_heap wa !! w_local wa = Some la -> announces la -> w_heap wb !! w_local wb = Some lb -> announces lb ->
  nd_id la <> nd_id lb -> lt_nbrs (w_tables wa) !! nd_id lb = None -> lt_nbrs (w_tables wb) !! nd_id la = None ->
  SetAddrInConnectingList addr (lt_connecting (w_tables wa)) = (cl, true) ->
  w_heap wb !! r = Some nb -> r <> w_local wb -> nd_state nb = INIT -> nd_open nb = true ->
  exists q v1 v2 k1 k2 more wa0 wa1 wa2 wb1 wb2,
    Connect nc t0 (Some remote) addr wa = Ok (wa0, inl tt) /\ w_out wa0 = w_out wa ++ [(q, v1)] /\
    HandleNodeMsg t1 r v1 wb = Ok (wb1, inl tt) /\ w_out wb1 = w_out wb ++ [(r, v2)] /\
    HandleNodeMsg t2 q v2 wa0 = Ok (wa1, inl tt) /\ w_out wa1 = w_out wa0 ++ [(q, k1)] /\
    HandleNodeMsg t3 r k1 wb1 = Ok (wb2, inl tt) /\ w_out wb2 = w_out wb1 ++ (r, k2) :: more /\
    HandleNodeMsg t4 q k2 wa1 = Ok (wa2, inl tt) /\
    NodeEstablished (nd_id lb) wa2 = true /\ lt_nbrs (w_tables wa2) !! nd_id lb = Some q /\
    NodeEstablished (nd_id la) wb2 = true /\ lt_nbrs (w_tables wb2) !! nd_id la = Some r.
Proof.
  intros Hm Hla Ala Hlb Alb Hid Hna Hnb Hcl Hr Hrl Hs Ho.
  destruct (announced_sent t0 (BlockHeight (w_chain wa)) la Ala) as [h1 S1].
  destruct (sent_delivers _ _ _ Hm S1) as (v1 & E1 & _ & P1).
  destruct (announced_sent t1 (BlockHeight (w_chain wb)) lb Alb) as [h2 S2].
  destruct (sent_delivers _ _ _ Hm S2) as (v2 & E2 & _ & P2).
  destruct (sent_delivers _ _ _ Hm (sent_verack magic)) as (k & Ek & _ & Pk).
  destruct (Connect_run t0 remote addr la v1 wa cl Hla Hcl E1) as (q & n & t & Hq & Hqs & Hqo & Ht & C).
  assert (Hql : q <> w_local wa) by (intros ->; rewrite Hla in Hq; done).
  match type of C with _ = Ok (?x, _) => set (wa0 := x) in C end.
  destruct (version_Handle_run t1 r (announced t0 (BlockHeight (w_chain wa)) la) (nd_publicKey la) lb nb wb v2 None) as [kb V1];
    [done..|by left|done|done|by rewrite Hs|]. rewrite Hs in V1. cbn [Z.eqb INIT] in V1.
  match type of V1 with _ = Ok (?x, _) => set (wb1 := x) in V1 end.
  destruct (version_Handle_run t2 q (announced t1 (BlockHeight (w_chain wb)) lb) (nd_publicKey lb) la n wa0 k None) as [ka V2];
    [cbn; by rewrite lookup_insert_ne|cbn; apply lookup_insert_eq|done|done|by right|by apply not_eq_sym|cbn; by rewrite Ht|by rewrite Hqs|].
  rewrite Hqs in V2. cbn [Z.eqb INIT HAND] in V2. match type of V2 with _ = Ok (?x, _) => set (wa1 := x) in V2 end.
  destruct (verACK_Handle_run r _ wb1 Hm ltac:(cbn; apply lookup_insert_eq) Ho ltac:(by left)) as (tb & k2 & more & Ek2 & A1 & Hnbr).
  rewrite Ek in Ek2. injection Ek2 as <-.
  destruct (verACK_Handle_run q _ wa1 Hm ltac:(cbn; apply lookup_insert_eq) Hqo ltac:(by right)) as (ta & k3 & more' & _ & A2 & Hnar).
  eexists q, v1, v2, k, k, more, wa0, wa1, _, wb1, _.
  split; [exact C|]. split; [done|].
  split; [erewrite HandleNodeMsg_parse by exact P1; exact V1|]. split; [done|].
  split; [erewrite HandleNodeMsg_parse by exact P2; exact V2|]. split; [done|].
  split; [erewrite HandleNodeMsg_parse by exact Pk; exact A1|]. split; [done|].
  split; [erewrite HandleNodeMsg_parse by exact Pk; exact A2|].
  unfold NodeEstablished. cbn [w_tables w_heap]. rewrite Hnar, Hnbr. cbn [w_tables wa1 wb1 lt_nbrs set_lt_known set_lt_nbrs vp_Nonce announced].
  rewrite !lookup_insert_eq. cbn [mbind option_bind]. rewrite !lookup_insert_eq. done.
Qed.
End Handshake.

Lemma small_announces id : 0 <= id < 1000 -> announces (small_local id).
Proof. intros Hi. split; [cbn; unfold PROTOCOLVERSION, VERIFYNODE; lia|]. exists id, (id + 1). unfold coordinate. split; [done|lia]. Qed.
Lemma handshake_completes_witness :
  exists q v1 v2 k1 k2 more wa0 wa1 wa2 wb1 wb2,
    Connect small_conf 0 (Some (str "10.0.0.2:20866")) (str "10.0.0.2:20866") (small_world 7 ∅) = Ok (wa0, inl tt) /\
    w_out wa0 = [] ++ [(q, v1)] /\
    HandleNodeMsg (H0 := prefix_crypto) reg_cfg small_conf sample_ripemd 10 1 2 v1 (small_world 9 accepted_peer) = Ok (wb1, inl tt) /\
    w_out wb1 = [] ++ [(2%positive, v2)] /\
    HandleNodeMsg (H0 := prefix_crypto) reg_cfg small_conf sample_ripemd 10 2 q v2 wa0 = Ok (wa1, inl tt) /\ w_out wa1 = w_out wa0 ++ [(q, k1)] /\
    HandleNodeMsg (H0 := prefix_crypto) reg_cfg small_conf sample_ripemd 10 3 2 k1 wb1 = Ok (wb2, inl tt) /\
    w_out wb2 = w_out wb1 ++ (2%positive, k2) :: more /\
    HandleNodeMsg (H0 := prefix_crypto) reg_cfg small_conf sample_ripemd 10 4 q k2 wa1 = Ok (wa2, inl tt) /\
    NodeEstablished 9 wa2 = true /\ lt_nbrs (w_tables wa2) !! 9 = Some q /\
    NodeEstablished 7 wb2 = true /\ lt_nbrs (w_tables wb2) !! 7 = Some 2%positive.
Proof.
  apply (handshake_completes (H0 := prefix_crypto) reg_cfg small_conf sample_ripemd 10 (small_world 7 ∅) (small_world 9 accepted_peer)
    (small_local 7) (small_local 9) (NewNode (str "10.0.0.1")) 2 (str "10.0.0.2:20866") (str "10.0.0.2:20866") [str "10.0.0.2:20866"] 0 1 2 3 4).
  - cbn. lia.
  - reflexivity.
  - apply small_announces. lia.
  - reflexivity.
  - apply small_announces. lia.
  - cbn. lia.
  - reflexivity.
  - reflexivity.
  - vm_compute. reflexivity.
  - reflexivity.
  - cbn. discriminate.
  - reflexivity.
  - reflexivity.
Defined.
