(* ===== verification/Requests.v ===== *)
(** What a node sends in answer to its peers and to whom it passes data on;
    what it does with a message that does not verify. *)

From S2P Require Import Prelude Sha256 Serialization Common Fixed64 Transaction Merkle AuxPow Block.
From S2P Require Import Store Utxo Difficulty MedianTime Vm Address PubKey Contract Message Link Peers Validator TxPool Blockchain Ledger Node Handlers Sync ChainSelection Network Handshake Startup.

Section Requests.
Context {DB : Type} `{IStore DB} `{ICrypto} (cfg : Config) (nc : NetConfig) (ripemd160 : bytes -> bytes) (MAXIDCACHED : nat).
Abbreviation magic := (nc_Magic nc).

(** ** Malformed and hostile messages *)

(** What [Deserialization] and [Verify] report makes no difference: a message
    that could be allocated is handled, with the fields that were read, whether
    or not it was read to the end and whether or not its checksum and magic
    number are right. *)
Theorem unverified_messages_handled (now : Z) (p : positive) (buf : bytes) (m : Messager) (deserialised verified : err) (w : world DB) :
  parse magic buf = Some (Some m, deserialised, verified) ->
  HandleNodeMsg cfg nc ripemd160 MAXIDCACHED now p buf w = Handle cfg nc ripemd160 MAXIDCACHED now p m w.
Proof. apply HandleNodeMsg_parse. Qed.

(** C40: A peer ends the process by announcing a transaction: the cache of seen
    identifiers is looked up on the node of the peer, where it was never
    initialised, and the first identifier that is not zero indexes its empty
    array.  Every "inv" of a transaction does it, in any state of the
    connection, as long as the node of the peer is as [NewNode] made it in
    that respect. *)
Theorem announced_transaction_panics (now : Z) (p : positive) (n : node) (hash : Uint256) (addr : bytes) (w : world DB) :
  inU 32 magic -> wf_u256 hash -> hash <> zero256 ->
  w_heap w !! p = Some n -> nd_ids n = nd_ids (NewNode addr) ->
  exists b, NewInv magic (NewInvPayload TRANSACTION 1 hash) = Some (b, None) /\
    HandleNodeMsg cfg nc ripemd160 MAXIDCACHED now p b w = Panic.
Proof.
  intros Hm Hw Hz Hp Hi. pose proof (proj1 Hw) as Hl.
  assert (S : sent magic (NewInv magic (mkInvP TRANSACTION 1 hash)) (MInv (payload_hdr magic (str "inv") (InvPayload_Serialization (mkInvP TRANSACTION 1 hash))) (mkInvP TRANSACTION 1 hash))).
  { apply sent_inv; cbn; [unfold TRANSACTION; lia|lia|by rewrite Hl|done]. }
  destruct (sent_delivers magic _ _ Hm S) as (b & Eb & _ & Pb).
  exists b. split; [exact Eb|]. erewrite HandleNodeMsg_parse by exact Pb. cbn [Handle]. unfold Inv_Handle.
  cbn [InvType Blk NewInvPayload]. rewrite Z.eqb_refl.
  replace (slice hash 0 32) with (Some hash) by (unfold slice; rewrite Hl; cbn [Nat.leb andb Nat.sub]; by rewrite drop_0, take_ge by lia).
  erewrite net_bind_run by apply need_run.
  pose proof (Uint256_Deserialize_reads zero256 hash Hw BytesReader [] I) as R. unfold Uint_Serialize in R. rewrite app_nil_r in R.
  rewrite R. erewrite net_bind_run by apply need_run. cbn beta iota.
  erewrite net_bind_run by (by apply get_node_run). rewrite Hi. unfold ExistedID. cbn [lastid nd_ids NewNode idmaplsit].
  rewrite bool_decide_eq_false_2 by done. rewrite lookup_empty. by rewrite bool_decide_eq_false_2 by (by intros [? ?]).
Qed.

(** ** Answers *)

Lemma send_run p n b (w : world DB) : w_heap w !! p = Some n -> nd_state n <> INACTIVITY -> nd_open n = true ->
  send p (Some (b, None)) w = Ok (set_w_out (w_out w ++ [(p, b)]) w, inl tt).
Proof.
  intros E Hs Ho. unfold send. erewrite net_bind_run by apply need_run. cbn beta iota. erewrite net_bind_run by apply check_run. by eapply Tx_run.
Qed.
Lemma on_chain_run {A} (m : bcM A) (w : world DB) a : m (w_chain w) = Ok (w_chain w, inl a) -> on_chain m w = Ok (w, inl a).
Proof. intros E. unfold on_chain. rewrite E. by destruct w. Qed.

(** The range of a request that names no last block. *)
Lemma header_range_open max start hd (w : world DB) :
  let cs := bc_Store (w_chain w) in
  start <> zero256 -> GetHeader (cs_db cs) start = Some (Some hd, None) -> 0 <= bd_Height hd <= GetHeight cs -> GetHeight cs < 2 ^ 32 ->
  header_range max start zero256 w = Ok (w, inl (bd_Height hd, Z.min max (GetHeight cs - bd_Height hd))).
Proof.
  intros cs Hz Eh Hh Hc. unfold header_range, chain_store. erewrite net_bind_run by apply ask_run. cbn zeta.
  rewrite bool_decide_eq_true_2, bool_decide_eq_false_2 by done. unfold mbind at 1, netM_bind at 1. fold cs. rewrite Eh.
  erewrite net_bind_run by apply need_run. cbn beta iota. erewrite net_bind_run by apply check_run. erewrite net_bind_run by apply need_run.
  unfold mret, netM_ret. rewrite wrapU_id by lia. do 4 f_equal. destruct (Z.ltb_spec max (GetHeight cs - bd_Height hd)); lia.
Qed.

Lemma concat_hashes_slice {A} (f : A -> bytes) (l : list A) i a : (forall x, x ∈ l -> length (f x) = 32%nat) -> l !! i = Some a ->
  take 32 (drop (32 * i) (concat (map f l))) = f a.
Proof.
  revert i. induction l as [|x l IH]; intros [|i] Hf Hi; try done; cbn [map concat] in *.
  - injection Hi as ->. rewrite Nat.mul_0_r, drop_0, take_app_length'; [done|]. symmetry. apply Hf. set_solver.
  - cbn in Hi. replace (32 * S i)%nat with (length (f x) + 32 * i)%nat by (rewrite Hf by set_solver; lia).
    rewrite drop_app_add. apply IH; [|done]. intros y Hy. apply Hf. set_solver.
Qed.
Lemma length_concat_hashes {A} (f : A -> bytes) (l : list A) : (forall x, x ∈ l -> length (f x) = 32%nat) ->
  length (concat (map f l)) = (32 * length l)%nat.
Proof.
  induction l as [|x l IH]; intros Hf; [done|]. cbn [map concat length]. rewrite length_app, Hf by set_solver.
  rewrite IH; [lia|]. intros y Hy. apply Hf. set_solver.
Qed.

Lemma length_GetBlockHash (db : DB) h : length (fst (GetBlockHash db h)) = 32%nat.
Proof.
  unfold GetBlockHash. destruct (db_Get db (height_key h)) as [v|]; [|done]. unfold Uint256ParseFromBytes.
  destruct (negb (Z.of_nat (length v) =? _)) eqn:E; cbn; [done|]. apply negb_false_iff, Z.eqb_eq in E. unfold UINT256SIZE in E. lia.
Qed.

(** A node asked for the blocks after a locator answers with the hashes of its
    own chain that follow the block both have: from the next height on, in
    order, up to fifty or to its best block.  What it writes is a frame that
    the other side reads back as that list, and nothing else of the node
    changes. *)
Theorem getblocks_answered (p : positive) (n : node) (q : hashes_P) (start : Uint256) (hd : Blockdata) (w : world DB) :
  let cs := bc_Store (w_chain w) in
  inU 32 magic -> w_heap w !! p = Some n -> nd_state n <> INACTIVITY -> nd_open n = true ->
  LatestLocatorHash (hashStart q) (w_chain w) = Ok (w_chain w, inl start) -> start <> zero256 -> hashEnd q = zero256 ->
  GetHeader (cs_db cs) start = Some (Some hd, None) -> 0 <= bd_Height hd <= GetHeight cs -> GetHeight cs < 2 ^ 32 ->
  exists b h P, blocksReq_Handle nc p q w = Ok (set_w_out (w_out w ++ [(p, b)]) w, inl tt) /\
    parse magic b = Some (Some (MInv h P), None, None) /\
    InvType P = BLOCK /\ Cnt P = Z.min MAXINVHDRCNT (GetHeight cs - bd_Height hd) /\
    forall i, 0 <= i < Cnt P -> take 32 (drop (32 * Z.to_nat i) (Blk P)) = fst (GetBlockHash (cs_db cs) (bd_Height hd + 1 + i)).
Proof.
  intros cs Hm Hp Hs Ho El Hz Ee Eh Hh Hc. set (c := Z.min MAXINVHDRCNT (GetHeight cs - bd_Height hd)).
  assert (Hcc : 0 <= c <= 50) by (unfold c, MAXINVHDRCNT; lia).
  set (f := fun i => Uint_Serialize (fst (GetBlockHash (cs_db cs) (uint32 (bd_Height hd + Z.of_nat i))))).
  set (P := mkInvP BLOCK c (concat (map f (seq 1 (Z.to_nat c))))).
  assert (Hf : forall x, x ∈ seq 1 (Z.to_nat c) -> length (f x) = 32%nat) by (intros x _; apply length_GetBlockHash).
  assert (S : sent magic (NewInv magic P) (MInv (payload_hdr magic (str "inv") (InvPayload_Serialization P)) P)).
  { apply sent_inv; cbn [InvType Cnt Blk P]; [unfold BLOCK; lia|lia| |unfold HASHLEN; lia].
    rewrite length_concat_hashes, length_seq by done. unfold HASHLEN. lia. }
  destruct (sent_delivers _ _ _ Hm S) as (b & Eb & _ & Pb). eexists b, _, P. split; [|split; [exact Pb|]].
  - unfold blocksReq_Handle. erewrite net_bind_run by (apply on_chain_run; exact El). rewrite Ee.
    erewrite net_bind_run; [|unfold GetInvFromBlockHash; erewrite net_bind_run by (by apply header_range_open); cbn beta iota; unfold chain_store; erewrite net_bind_run by apply ask_run; reflexivity].
    fold cs f. change (NewInvPayload BLOCK _ _) with P. rewrite Eb. by eapply send_run.
  - split; [done|]. split; [done|]. cbn [Cnt Blk P]. intros i Hi.
    erewrite concat_hashes_slice; [|exact Hf|apply lookup_seq_lt; lia]. unfold f, Uint_Serialize. do 2 f_equal. rewrite wrapU_id by lia. lia.
Qed.

(** ** Passing data on *)

(** The neighbours a relayed message is for. *)
Definition relay_target (m : relayed) (src : Z) (pn : positive * node) : bool :=
  (nd_state pn.2 =? ESTABLISH) && nd_relay pn.2 && negb (nd_id pn.2 =? src) && negb (known_hash m pn.2).

Lemma for_nodes_sends (f : positive * node -> bool) buf l (w : world DB) :
  Forall (fun pn => f pn = true -> exists n, w_heap w !! pn.1 = Some n /\ nd_state n <> INACTIVITY /\ nd_open n = true) l ->
  for_nodes l (fun p n => if f (p, n) then Tx p buf else mret tt) w =
    Ok (set_w_out (w_out w ++ map (fun pn => (pn.1, buf)) (List.filter f l)) w, inl tt).
Proof.
  revert w. induction l as [|[p n] l IH]; intros w Hl; cbn [for_nodes List.filter map].
  { rewrite app_nil_r. by destruct w. }
  inversion_clear Hl as [|? ? Hp Hl']. destruct (f (p, n)) eqn:Ef.
  - destruct (Hp eq_refl) as (m & Em & Hs & Ho). erewrite net_bind_run by (by eapply Tx_run). rewrite IH by exact Hl'.
    cbn [w_out set_w_out map fst]. by rewrite <- app_assoc.
  - erewrite net_bind_run by reflexivity. by apply IH.
Qed.
Lemma for_nodes_ext (f g : positive -> node -> netM unit) l (w : world DB) :
  (forall p n v, f p n v = g p n v) -> for_nodes l f w = for_nodes l g w.
Proof.
  intros E. revert w. induction l as [|[p n] l IH]; intros w; [done|]. cbn [for_nodes]. unfold mbind, netM_bind. rewrite E.
  destruct (g p n w) as [[w1 [a|e]]| |]; [apply IH|done..].
Qed.

Lemma neighbours_heap (w : world DB) p n : (p, n) ∈ neighbours w -> w_heap w !! p = Some n.
Proof.
  unfold neighbours. rewrite list_elem_of_omap. intros ([k q] & _ & E). cbn in E.
  destruct (w_heap w !! q) as [m|] eqn:Eq; cbn in E; [|done]. by injection E as -> ->.
Qed.

Lemma count_txn_run (m : relayed) l (w : world DB) : w_heap w !! w_local w = Some l ->
  exists w1, count_txn m w = Ok (w1, inl tt) /\ w_out w1 = w_out w /\ w_tables w1 = w_tables w /\ w_chain w1 = w_chain w /\
    forall p, (fun n => (nd_state n, nd_open n, nd_id n, nd_relay n)) <$> w_heap w1 !! p = (fun n => (nd_state n, nd_open n, nd_id n, nd_relay n)) <$> w_heap w !! p.
Proof.
  intros Hl. destruct m; try (by exists w). eexists. split.
  { unfold count_txn, upd_local. erewrite net_bind_run by apply ask_run. by apply upd_node_run. }
  split; [done|]. split; [done|]. split; [done|]. intros p. cbn. destruct (decide (p = w_local w)) as [->|Hne].
  - by rewrite lookup_insert_eq, Hl.
  - by rewrite lookup_insert_ne.
Qed.

(** Data that is passed on is written once to every neighbour that finished the
    handshake and wants relayed data, except the one it came from and, for a
    hash, those known to have it; the transaction counter apart, nothing else
    changes.  While headers are being fetched nothing is passed on. *)
Theorem relay_reaches_neighbours (from : positive) (m : relayed) (buf : bytes) (l src : node) (w : world DB) :
  w_heap w !! w_local w = Some l -> w_heap w !! from = Some src -> relay_msg nc m = Some (buf, None) ->
  (forall p n, w_heap w !! p = Some n -> nd_state n = ESTABLISH -> nd_open n = true) ->
  if node_IsSyncHeaders l then Relay nc from m w = Ok (w, inl tt)
  else exists w1, count_txn m w = Ok (w1, inl tt) /\ w_out w1 = w_out w /\
    Relay nc from m w =
      Ok (set_w_out (w_out w ++ map (fun pn => (pn.1, buf)) (List.filter (relay_target m (nd_id src)) (neighbours w1))) w1, inl tt).
Proof.
  intros Hl Hf Hb Ho. unfold Relay. erewrite net_bind_run by (by apply get_local_run). destruct (node_IsSyncHeaders l); [done|].
  destruct (count_txn_run m l w Hl) as (w1 & E1 & Eo & _ & _ & Eh). exists w1. split; [done|]. split; [done|].
  rewrite Hb. erewrite net_bind_run by apply need_run. cbn beta iota. erewrite net_bind_run by apply check_run. erewrite net_bind_run by exact E1.
  destruct (w_heap w1 !! from) as [src1|] eqn:Es; [|by specialize (Eh from); rewrite Es, Hf in Eh].
  erewrite net_bind_run by (by apply get_node_run). erewrite net_bind_run by apply ask_run.
  assert (Ei : nd_id src1 = nd_id src) by (specialize (Eh from); rewrite Es, Hf in Eh; by injection Eh).
  rewrite Ei. erewrite for_nodes_ext; [rewrite (for_nodes_sends (relay_target m (nd_id src)) buf); [by rewrite Eo|]|].
  - apply list.Forall_forall. intros [p n] Hn Ht. exists n. pose proof (neighbours_heap _ _ _ Hn) as En. split; [done|].
    unfold relay_target in Ht. cbn [snd] in Ht. rewrite !andb_true_iff in Ht. destruct Ht as [[[Ht _] _] _]. apply Z.eqb_eq in Ht.
    rewrite Ht. split; [done|]. specialize (Eh p). rewrite En in Eh. destruct (w_heap w !! p) as [n0|] eqn:E0; [|done].
    injection Eh as E1s E2 _ _. rewrite E2. apply (Ho p n0 E0). congruence.
  - intros p n v. unfold relay_target. cbn [snd]. by destruct (_ && _), (known_hash m n).
Qed.

(** ** The node to synchronise with *)

Definition usable (pn : positive * node) : bool := negb (IsSyncFailed (nd_syncFlag pn.2)).

Lemma better_node_eq best x : better_node best x =
  if usable x && match best with Some b => nd_height b.2 <? nd_height x.2 | None => true end then Some x else best.
Proof. unfold better_node, usable. destruct best as [b|], (negb _); cbn; try done; by destruct (_ <? _). Qed.

Lemma better_node_spec l best : (forall b, best = Some b -> usable b = true) ->
  match foldl better_node best l with
  | Some b => usable b = true /\ (b ∈ l \/ best = Some b) /\
      (forall c, c ∈ l \/ best = Some c -> usable c = true -> nd_height c.2 <= nd_height b.2)
  | None => best = None /\ forall c, c ∈ l -> usable c = false
  end.
Proof.
  revert best. induction l as [|x l IH]; intros best Hb; cbn [foldl].
  { destruct best as [b|]; [|split; [done|]; set_solver]. split; [by apply Hb|]. split; [by right|].
    intros c [Hc|[= ->]] _; [by apply not_elem_of_nil in Hc|lia]. }
  rewrite better_node_eq. destruct (usable x) eqn:Ux; cbn [andb].
  - destruct (match best with Some b => nd_height b.2 <? nd_height x.2 | None => true end) eqn:Eb.
    + specialize (IH (Some x) ltac:(by intros b [= <-])). destruct (foldl better_node (Some x) l) as [b|]; [|by destruct IH].
      destruct IH as (U & Hin & Hmax). split; [done|]. split; [destruct Hin as [?|[= ->]]; set_solver|].
      intros c Hc Uc. destruct Hc as [Hc|Hc]; [apply elem_of_cons in Hc as [->|Hc]; apply Hmax; auto|].
      rewrite Hc in Eb. apply Z.ltb_lt in Eb. pose proof (Hmax x (or_intror eq_refl) Ux). lia.
    + destruct best as [b0|]; [|done]. apply Z.ltb_ge in Eb. specialize (IH (Some b0) Hb). destruct (foldl better_node (Some b0) l) as [b|]; [|by destruct IH].
      destruct IH as (U & Hin & Hmax). split; [done|]. split; [destruct Hin; [left; set_solver|by right]|].
      intros c Hc Uc. destruct Hc as [Hc|Hc]; [apply elem_of_cons in Hc as [->|Hc]|]; [|by apply Hmax; auto..].
      pose proof (Hmax b0 (or_intror eq_refl) (Hb b0 eq_refl)). lia.
  - specialize (IH best Hb). destruct (foldl better_node best l) as [b|].
    + destruct IH as (U & Hin & Hmax). split; [done|]. split; [destruct Hin; [left; set_solver|by right]|].
      intros c Hc Uc. apply Hmax; [|done]. destruct Hc as [Hc|Hc]; [|by right]. apply elem_of_cons in Hc as [->|Hc]; [congruence|by left].
    + destruct IH as [-> Hno]. split; [done|]. intros c Hc. apply elem_of_cons in Hc as [->|Hc]; auto.
Qed.

(** The node to synchronise from is an established neighbour whose last attempt
    did not fail and that no other such neighbour exceeds in height; there is
    none only when every established neighbour failed, and then a
    synchronisation that is due dereferences nil. *)
Theorem best_height_neighbour (w : world DB) :
  match GetBestHeightNoder w with
  | Some p => exists n, (p, n) ∈ GetNeighborNoder w /\ usable (p, n) = true /\
      forall q m, (q, m) ∈ GetNeighborNoder w -> usable (q, m) = true -> nd_height m <= nd_height n
  | None => (forall q m, (q, m) ∈ GetNeighborNoder w -> usable (q, m) = false) /\
      (lt_headerFirst (w_tables w) = true -> sync_with_best nc w = Panic)
  end.
Proof.
  unfold GetBestHeightNoder. pose proof (better_node_spec (GetNeighborNoder w) None ltac:(done)) as S.
  destruct (foldl better_node None (GetNeighborNoder w)) as [[p n]|] eqn:E; cbn [fmap option_fmap option_map fst].
  - destruct S as (U & [Hin|?] & Hmax); [|done]. exists n. split; [done|]. split; [done|]. intros q m Hq Uq. by apply (Hmax (q, m)); [left|].
  - destruct S as [_ Hno]. split; [intros q m Hq; by apply Hno|]. intros Hh. unfold sync_with_best.
    do 3 (erewrite net_bind_run by apply ask_run). rewrite Hh. unfold GetBestHeightNoder. by rewrite E.
Qed.
End Requests.

(** * Concrete runs *)

(** A ping with a checksum of zeros. *)
Definition forged_ping : bytes := Hdr_Serialization (mkHdr 7630401 (cmd_field (str "ping")) 8 [0; 0; 0; 0]) ++ WriteUint64 77.
Lemma unverified_messages_handled_witness :
  HandleNodeMsg (H0 := prefix_crypto) reg_cfg small_conf sample_ripemd 10 1 2 forged_ping (small_world 9 accepted_peer)
  = Handle (H0 := prefix_crypto) reg_cfg small_conf sample_ripemd 10 1 2
      (MPing (mkHdr 7630401 (cmd_field (str "ping")) 8 [0; 0; 0; 0]) 77) (small_world 9 accepted_peer).
Proof.
  apply (unverified_messages_handled (H0 := prefix_crypto) reg_cfg small_conf sample_ripemd 10 1 2 forged_ping _ None (Some (NewError "Message Checksum error"))).
  vm_compute. reflexivity.
Defined.

Lemma announced_transaction_panics_witness :
  exists b, NewInv (nc_Magic small_conf) (NewInvPayload TRANSACTION 1 (replicate 32 1)) = Some (b, None) /\
    HandleNodeMsg (H0 := prefix_crypto) reg_cfg small_conf sample_ripemd 10 1 2 b (small_world 9 accepted_peer) = Panic.
Proof.
  apply (announced_transaction_panics (H0 := prefix_crypto) reg_cfg small_conf sample_ripemd 10 1 2 (NewNode (str "10.0.0.1")) (replicate 32 1) []).
  - cbn. lia.
  - unfold wf_u256. by_decision.
  - by_decision.
  - reflexivity.
  - reflexivity.
Defined.

(** A node that stored two blocks after the genesis block. *)
Definition serving_store : ChainStore (gmap bytes bytes) := saved block2 (saved block1 (bc_Store (chain_of (started_with new_cs 1)))).
Definition serving_world : world (gmap bytes bytes) :=
  let w := small_world 9 accepted_peer in set_w_chain (set_bc_Store serving_store (w_chain w)) w.
Definition genesis_locator : hashes_P := mkHashes 2 [replicate 32 1; Block_Hash (genesis 1)] zero256.
Lemma locator_second (bc : Blockchain (gmap bytes bytes)) h1 h2 rest :
  match GetBlock (cs_db (bc_Store bc)) h1 with Some (_, Some _) => true | _ => false end = true ->
  match GetBlock (cs_db (bc_Store bc)) h2 with Some (_, None) => true | _ => false end = true ->
  LatestLocatorHash (h1 :: h2 :: rest) bc = Ok (bc, inl h2).
Proof.
  intros E1 E2. cbn [LatestLocatorHash]. unfold mbind, bcM_bind, gets, must, run, no_panic.
  destruct (GetBlock _ h1) as [[b1 [e1|]]|]; [|discriminate E1..].
  cbn beta iota. cbn [is_err]. destruct (GetBlock _ h2) as [[b2 [e2|]]|]; [discriminate E2|reflexivity|discriminate E2].
Qed.
Lemma getblocks_answered_witness :
  exists b h P, blocksReq_Handle small_conf 2 genesis_locator serving_world = Ok (set_w_out (w_out serving_world ++ [(2%positive, b)]) serving_world, inl tt) /\
    parse (nc_Magic small_conf) b = Some (Some (MInv h P), None, None) /\ Cnt P = 2.
Proof.
  assert (T : match GetHeader (cs_db serving_store) (Block_Hash (genesis 1)) with
    | Some (Some hd, None) => bd_Height hd =? 0 | _ => false end = true) by (vm_compute; reflexivity).
  destruct (GetHeader (cs_db serving_store) (Block_Hash (genesis 1))) as [[[hd|] [e|]]|] eqn:E; try discriminate T. apply Z.eqb_eq in T.
  assert (G : GetHeight serving_store = 2) by (vm_compute; reflexivity).
  destruct (getblocks_answered small_conf 2 (NewNode (str "10.0.0.1")) genesis_locator (Block_Hash (genesis 1)) hd serving_world)
    as (b & h & P & H1 & H2 & _ & H3 & _).
  - cbn. lia.
  - reflexivity.
  - discriminate.
  - reflexivity.
  - apply locator_second; vm_compute; reflexivity.
  - vm_compute. discriminate.
  - reflexivity.
  - exact E.
  - change (bc_Store (w_chain serving_world)) with serving_store. rewrite T, G. lia.
  - change (bc_Store (w_chain serving_world)) with serving_store. rewrite G. lia.
  - exists b, h, P. split; [exact H1|]. split; [exact H2|]. rewrite H3.
    change (bc_Store (w_chain serving_world)) with serving_store. rewrite T, G. reflexivity.
Defined.

(** Two neighbours; one of them sent the hash. *)
Definition friend (id : Z) : node := set_nd_id id (set_nd_relay true (set_nd_state ESTABLISH (NewNode (str "10.0.0.1")))).
Definition social_world : world (gmap bytes bytes) :=
  set_w_tables (set_lt_nbrs {[5 := 2%positive; 6 := 3%positive]} small_tables) (small_world 9 {[2%positive := friend 5; 3%positive := friend 6]}).
Lemma relay_reaches_neighbours_witness :
  exists buf w1, relay_msg small_conf (RHash (replicate 32 1)) = Some (buf, None) /\
    Relay small_conf 2 (RHash (replicate 32 1)) social_world = Ok (set_w_out [(3%positive, buf)] w1, inl tt).
Proof.
  destruct (relay_msg small_conf (RHash (replicate 32 1))) as [[buf [e|]]|] eqn:E; [vm_compute in E; discriminate E| |vm_compute in E; discriminate E].
  destruct (relay_reaches_neighbours small_conf 2 (RHash (replicate 32 1)) buf (small_local 9) (friend 5) social_world) as (w1 & E1 & E2 & E3).
  - reflexivity.
  - reflexivity.
  - exact E.
  - intros p n. cbn [w_heap social_world set_w_tables small_world]. rewrite !lookup_insert_Some, lookup_singleton_Some.
    intros [[_ <-]|[_ [[_ <-]|[_ [_ <-]]]]]; reflexivity.
  - exists buf, w1. split; [reflexivity|]. injection E1 as <-. exact E3.
Defined.
