(* ===== verification/Rpc.v ===== *)
(** [net/httpjsonrpc]: the requests a node answers.

    A parameter is a JSON value; a number is given by its integer part, which
    the code converts to an unsigned one of 32 bits.  An answer is the value
    behind ["result"]; a text that ends with the message of an error keeps the
    error.  The clock, the random number of a new key or block and the goroutines
    a request starts are arguments.  The maps [AssetOutputs], [AssetInputAmount]
    and [AssetOutputAmount] of a transaction are never filled, so their lists
    are empty. *)

From S2P Require Import Prelude Sha256 Serialization Common Fixed64 Transaction Merkle AuxPow Block.
From S2P Require Import Store Utxo Difficulty MedianTime Vm Address PubKey Contract Message Link Peers Validator Wallet Sdk TxPool Blockchain Ledger Pow Node Handlers.

(** * Values *)

Inductive json := JNull | JBool (b : bool) | JNum (n : Z) | JStr (s : bytes) | JOther.

(** [errors/errcode.go]. *)
Definition ErrCode_value (e : ErrCode) : Z :=
  match e with
  | ErrNoCode => -2 | ErrNoError => 0 | ErrUnknown => -1 | ErrDuplicatedTx => 1 | ErrInvalidInput => 45003 | ErrInvalidOutput => 45004
  | ErrAssetPrecision => 45005 | ErrTransactionBalance => 45006 | ErrAttributeProgram => 45007 | ErrTransactionContracts => 45008
  | ErrTransactionPayload => 45009 | ErrDoubleSpend => 45010 | ErrTxHashDuplicate => 45011 | ErrStateUpdaterVaild => 45012
  | ErrSummaryAsset => 45013 | ErrXmitFail => 45014 | ErrTransactionSize => 45015 | ErrUnknownReferedTxn => 45016
  | ErrInvalidReferedTxn => 45017 | ErrIneffectiveCoinbase => 45018
  end.
Definition ErrCode_Error (e : ErrCode) : bytes :=
  str match e with
  | ErrNoCode => "no error code" | ErrNoError => "not an error" | ErrUnknown => "unknown error" | ErrDuplicatedTx => "duplicated transaction detected"
  | ErrInvalidInput => "invalid transaction input detected" | ErrInvalidOutput => "invalid transaction output detected"
  | ErrAssetPrecision => "invalid asset precision" | ErrTransactionBalance => "transaction balance unmatched"
  | ErrAttributeProgram => "attribute program error" | ErrTransactionContracts => "invalid transaction contract"
  | ErrTransactionPayload => "invalid transaction payload" | ErrDoubleSpend => "double spent transaction detected"
  | ErrTxHashDuplicate => "duplicated transaction hash detected" | ErrStateUpdaterVaild => "invalid state updater"
  | ErrSummaryAsset => "invalid summary asset" | ErrXmitFail => "transmit error" | ErrTransactionSize => "invalid transaction size"
  | ErrUnknownReferedTxn => "unknown referenced transaction" | ErrInvalidReferedTxn => "invalid referenced transaction"
  | ErrIneffectiveCoinbase => "ineffective coinbase"
  end.

(** [common.go], [TransPayloadToHex.go]: what is told of transactions and blocks. *)
Record TxAttributeInfo := mkAttributeInfo { ai_Usage : Z; ai_Data : bytes }.
Record UTXOTxInputInfo := mkInputInfo { ii_ReferTxID : bytes; ii_ReferTxOutputIndex : Z; ii_Sequence : Z; ii_Address : bytes; ii_Value : bytes }.
Record BalanceTxInputInfo := mkBalanceInfo { bi_AssetID : bytes; bi_Value : Z; bi_ProgramHash : bytes }.
Record TxoutputInfo := mkOutputInfo { oi_AssetID : bytes; oi_Value : bytes; oi_Address : bytes }.
Record ProgramInfo := mkProgramInfo { pi_Code : bytes; pi_Parameter : bytes }.
Inductive PayloadInfo :=
  | CoinbaseInfo (CoinbaseData : bytes)
  | RegisterAssetInfo (asset : Asset) (Amount : bytes) (Controller : bytes).
Record TransactionsInfo := mkTransactions {
  ti_TxType : Z; ti_PayloadVersion : Z; ti_Payload : option PayloadInfo; ti_Attributes : list TxAttributeInfo; ti_UTXOInputs : list UTXOTxInputInfo;
  ti_BalanceInputs : list BalanceTxInputInfo; ti_Outputs : list TxoutputInfo; ti_LockTime : Z; ti_Programs : list ProgramInfo;
  ti_Timestamp : Z; ti_Confirminations : Z; ti_TxSize : Z; ti_Hash : bytes }.
Record BlockHead := mkBlockHead {
  bh_Version : Z; bh_PrevBlockHash : bytes; bh_TransactionsRoot : bytes; bh_Timestamp : Z; bh_Bits : Z; bh_Height : Z; bh_Nonce : Z; bh_Hash : bytes }.
Record BlockInfo := mkBlockInfo {
  bli_Hash : bytes; bli_BlockData : BlockHead; bli_Transactions : list TransactionsInfo; bli_Confirminations : Z; bli_MinerInfo : bytes }.
Record NodeInfo := mkNodeInfo {
  ni_State : Z; ni_Port : Z; ni_ID : Z; ni_Time : Z; ni_Version : Z; ni_Services : Z; ni_Relay : bool; ni_Height : Z; ni_TxnCnt : Z; ni_RxTxnCnt : Z }.
Record AuxBlock := mkAuxBlock {
  ab_ChainId : Z; ab_Height : Z; ab_CoinBaseValue : Z; ab_Bits : bytes; ab_Hash : bytes; ab_PreviousBlockHash : bytes }.
Record Info := mkInfo {
  in_Version : Z; in_ProtocolVersion : Z; in_WalletVersion : Z; in_Balance : Z; in_Blocks : Z; in_Timeoffset : Z; in_Connections : Z; in_Proxy : bytes;
  in_Testnet : bool; in_Keypoololdest : Z; in_Keypoolsize : Z; in_Unlocked_until : Z; in_Paytxfee : Z; in_Relayfee : Z; in_Errors : bytes }.

Inductive answer :=
  | ANil | ABool (b : bool) | ANum (n : Z) | AText (s : bytes) | AFailed (prefix : bytes) (e : error) | ATexts (l : list bytes)
  | ABlock (b : BlockInfo) | ATransaction (t : TransactionsInfo) | ATransactions (l : list TransactionsInfo)
  | AAddrs (l : list NodeAddr) | ANode (n : NodeInfo) | AAuxBlock (b : AuxBlock) | AInfo (i : Info).

Definition DnaRpcInvalidHash : answer := AText (str "invalid hash").
Definition DnaRpcInvalidBlock : answer := AText (str "invalid block").
Definition DnaRpcInvalidTransaction : answer := AText (str "invalid transaction").
Definition DnaRpcInvalidParameter : answer := AText (str "invalid parameter").
Definition DnaRpcUnknownBlock : answer := AText (str "unknown block").
Definition DnaRpcUnknownTransaction : answer := AText (str "unknown transaction").
Definition DnaRpcInternalError : answer := AText (str "internal error").

Definition hash_text (h : bytes) : bytes := BytesToHexString (ToArrayReverse h).
(** [HexStringToBytesReverse] and [Deserialize] of a hash: the first error is
    that of the text. *)
Definition text_hash (s : bytes) : option ((Uint256 * err) + error) :=
  let '(hex, e) := HexStringToBytesReverse s in
  match e with
  | Some e => Some (inr e)
  | None => r ← Uint256_Deserialize zero256 (mkReader BytesReader hex); Some (inl (fst r))
  end.

Definition TransPayloadToHex (p : Payload) : option PayloadInfo :=
  match p with
  | PCoinBase d => Some (CoinbaseInfo d)
  | PRegisterAsset a amount controller => Some (RegisterAssetInfo a (Fixed64_String amount) (hash_text controller))
  | _ => None
  end.

Section Answers.
Context {DB : Type} `{IStore DB} `{IBase58}.

(** An input whose output was not found is a nil pointer. *)
Definition input_info (coinbase : bool) (refs : list (UTXOTxInput * TxOutput)) (n : nat) (i : UTXOTxInput) : option UTXOTxInputInfo :=
  if coinbase then Some (mkInputInfo (hash_text (ReferTxID i)) (ReferTxOutputIndex i) (Sequence i) [] []) else
  '(_, o) ← refs !! n;
  Some (mkInputInfo (hash_text (ReferTxID i)) (ReferTxOutputIndex i) (Sequence i) (fst (ToAddress (o_ProgramHash o))) (Fixed64_String (o_Value o))).
Definition output_info (o : TxOutput) : TxoutputInfo :=
  mkOutputInfo (hash_text (o_AssetID o)) (Fixed64_String (o_Value o)) (fst (ToAddress (o_ProgramHash o))).
Definition TransArryByteToHexString (cs : ChainStore DB) (t : Transaction) : option TransactionsInfo :=
  let refs := fst (GetReference (store := ledger_txs (Ledger := store_ledger cs)) t) in
  ins ← mapM (fun ni => input_info (IsCoinBaseTx t) refs ni.1 ni.2) (zip (seq 0 (length (UTXOInputs t))) (UTXOInputs t));
  h ← Tx_Hash t;
  Some (mkTransactions (TxType t) (PayloadVersion t) (payload t ≫= TransPayloadToHex)
    (map (fun a => mkAttributeInfo (at_Usage a) (BytesToHexString (at_Data a))) (Attributes t)) ins
    (map (fun b => mkBalanceInfo (hash_text (b_AssetID b)) (b_Value b) (hash_text (b_ProgramHash b))) (BalanceInputs t))
    (map output_info (Outputs t)) (LockTime t)
    (map (fun p => mkProgramInfo (BytesToHexString (pg_Code p)) (BytesToHexString (pg_Parameter p))) (Programs t)) 0 0 0 (hash_text h)).
(** With the time and height of its block and its size. *)
Definition confirmed (bc : Blockchain DB) (timestamp height : Z) (t : Transaction) : option TransactionsInfo :=
  i ← TransArryByteToHexString (bc_Store bc) t;
  '(b, _) ← Tx_Serialize t;
  Some (mkTransactions (ti_TxType i) (ti_PayloadVersion i) (ti_Payload i) (ti_Attributes i) (ti_UTXOInputs i) (ti_BalanceInputs i) (ti_Outputs i)
    (ti_LockTime i) (ti_Programs i) timestamp (uint32 (GetBestHeight bc - height + 1)) (uint32 (Z.of_nat (length b))) (ti_Hash i)).
(** A block whose first transaction is not a coinbase panics. *)
Definition block_info (bc : Blockchain DB) (hash : Uint256) (b : Block) : option BlockInfo :=
  let bd := blk_data b in
  trans ← mapM (confirmed bc (bd_Timestamp bd) (bd_Height bd)) (Transactions b);
  cb ← Transactions b !! 0%nat;
  p ← payload cb;
  miner ← match p with PCoinBase d => Some d | _ => None end;
  Some (mkBlockInfo (hash_text hash)
    (mkBlockHead (bd_Version bd) (hash_text (PrevBlockHash bd)) (hash_text (TransactionsRoot bd)) (bd_Timestamp bd) (bd_Bits bd) (bd_Height bd) (bd_Nonce bd) (hash_text hash))
    trans (uint32 (GetBestHeight bc - bd_Height bd + 1)) miner).
End Answers.

(** * The server *)

Section Server.
Context {DB : Type} `{IStore DB} `{IAes} `{IBase58} `{ICrypto}.
Context (cfg : Config) (nc : NetConfig) (conf : PowConfiguration) (ripemd160 : bytes -> bytes) (ScalarBaseMult : Z -> Z * Z) (sign : bytes -> bytes -> option bytes).

(** The globals of the package, with the node, the wallet, the mining service
    and the blocks handed out for merged mining. *)
Record rpc := mkRpc {
  rpc_node : world DB; rpc_Wallet : option Client; rpc_Pow : PowState; rpc_PayToAddr : bytes; rpc_MsgBlock : gmap bytes Block;
  PreChainHeight : Z; PreTime : Z; PreTransactionCount : Z; debug_level : Z }.
Definition set_rpc_node (v : world DB) (s : rpc) : rpc :=
  mkRpc v (rpc_Wallet s) (rpc_Pow s) (rpc_PayToAddr s) (rpc_MsgBlock s) (PreChainHeight s) (PreTime s) (PreTransactionCount s) (debug_level s).
Definition set_rpc_Wallet (v : option Client) (s : rpc) : rpc :=
  mkRpc (rpc_node s) v (rpc_Pow s) (rpc_PayToAddr s) (rpc_MsgBlock s) (PreChainHeight s) (PreTime s) (PreTransactionCount s) (debug_level s).
Definition set_rpc_Pow (v : PowState) (s : rpc) : rpc :=
  mkRpc (rpc_node s) (rpc_Wallet s) v (rpc_PayToAddr s) (rpc_MsgBlock s) (PreChainHeight s) (PreTime s) (PreTransactionCount s) (debug_level s).
Definition set_rpc_PayToAddr (v : bytes) (s : rpc) : rpc :=
  mkRpc (rpc_node s) (rpc_Wallet s) (rpc_Pow s) v (rpc_MsgBlock s) (PreChainHeight s) (PreTime s) (PreTransactionCount s) (debug_level s).
Definition set_rpc_MsgBlock (v : gmap bytes Block) (s : rpc) : rpc :=
  mkRpc (rpc_node s) (rpc_Wallet s) (rpc_Pow s) (rpc_PayToAddr s) v (PreChainHeight s) (PreTime s) (PreTransactionCount s) (debug_level s).
Definition set_Pre (height time count : Z) (s : rpc) : rpc :=
  mkRpc (rpc_node s) (rpc_Wallet s) (rpc_Pow s) (rpc_PayToAddr s) (rpc_MsgBlock s) height time count (debug_level s).
Definition set_debug_level (v : Z) (s : rpc) : rpc :=
  mkRpc (rpc_node s) (rpc_Wallet s) (rpc_Pow s) (rpc_PayToAddr s) (rpc_MsgBlock s) (PreChainHeight s) (PreTime s) (PreTransactionCount s) v.

(** A request changes the server and returns, or panics. *)
Definition rpcM (A : Type) : Type := rpc -> outcome (rpc * A).
#[export] Instance rpcM_ret : MRet rpcM := fun A a s => Ok (s, a).
#[export] Instance rpcM_bind : MBind rpcM := fun A B f m s =>
  match m s with Ok (s, a) => f a s | Panic => Panic | Unmodelled => Unmodelled end.
Definition look {A} (f : rpc -> A) : rpcM A := fun s => Ok (s, f s).
Definition put (f : rpc -> rpc) : rpcM unit := fun s => Ok (f s, tt).
Definition must {A} (o : option A) : rpcM A := fun s => match o with Some a => Ok (s, a) | None => Panic end.
Definition run {A} (o : outcome A) : rpcM A := fun s => match o with Ok a => Ok (s, a) | Panic => Panic | Unmodelled => Unmodelled end.
Definition on_node {A} (m : netM (DB := DB) A) : rpcM (A + error) := fun s =>
  match m (rpc_node s) with Ok (w, r) => Ok (set_rpc_node w s, r) | Panic => Panic | Unmodelled => Unmodelled end.
Definition on_wallet {A} (c : Client) (m : wM A) : rpcM (A + error) := fun s =>
  match m c with Ok (c, r) => Ok (set_rpc_Wallet (Some c) s, r) | Panic => Panic | Unmodelled => Unmodelled end.
Definition chain : rpcM (Blockchain DB) := look (fun s => w_chain (rpc_node s)).
Definition node_height : rpcM Z :=
  s ← look id; n ← must (w_heap (rpc_node s) !! w_local (rpc_node s)); mret (nd_height n).

Definition VerifyAndSendTx (txn : Transaction) : rpcM ErrCode :=
  bc ← chain;
  w ← look rpc_node;
  '(pool, code) ← run (AppendTxnPool (H := store_ledger (bc_Store bc)) cfg ripemd160 (lt_pool (w_tables w)) txn);
  _ ← on_node (upd_tables (set_lt_pool pool));
  if negb (bool_decide (code = ErrNoError)) then mret code else
  r ← on_node (Xmit nc (RTxn txn));
  mret (match r with inl _ => ErrNoError | inr _ => ErrXmitFail end).

(** ** Queries *)

Definition getBestBlockHash (params : list json) : rpcM answer := bc ← chain; mret (AText (hash_text (CurrentBlockHash bc))).
Definition find_block (p : json) : rpcM (Uint256 + answer) :=
  bc ← chain;
  match p with
  | JNum n => let '(h, e) := GetBlockHash (cs_db (bc_Store bc)) (uint32 n) in mret (if is_err e then inr DnaRpcUnknownBlock else inl h)
  | JStr s =>
      r ← must (text_hash s);
      mret (match r with inr _ => inr DnaRpcInvalidParameter | inl (h, e) => if is_err e then inr DnaRpcInvalidTransaction else inl h end)
  | _ => mret (inr DnaRpcInvalidParameter)
  end.
Definition getBlock (params : list json) : rpcM answer :=
  match params with
  | [] => mret ANil
  | p :: _ =>
      r ← find_block p;
      match r with
      | inr a => mret a
      | inl hash =>
          bc ← chain;
          '(b, e) ← must (GetBlock (cs_db (bc_Store bc)) hash);
          if is_err e then mret DnaRpcUnknownBlock else
          b ← must b;
          i ← must (block_info bc hash b);
          mret (ABlock i)
      end
  end.
Definition getBlockCount (params : list json) : rpcM answer := bc ← chain; mret (ANum (uint32 (BlockHeight bc + 1))).
Definition getBlockHash (params : list json) : rpcM answer :=
  match params with
  | [] => mret ANil
  | JNum n :: _ =>
      bc ← chain;
      let '(h, e) := GetBlockHash (cs_db (bc_Store bc)) (uint32 n) in
      mret (if is_err e then DnaRpcUnknownBlock else AText (hash_text h))
  | _ => mret DnaRpcInvalidParameter
  end.
Definition getConnectionCount (params : list json) : rpcM answer := w ← look rpc_node; mret (ANum (GetConnectionCnt w)).
(** The pool in some order. *)
Definition getRawMemPool (params : list json) : rpcM answer :=
  w ← look rpc_node;
  txs ← must (mapM (TransArryByteToHexString (bc_Store (w_chain w))) (map snd (map_to_list (GetTxnPool cfg (lt_pool (w_tables w)) false))));
  mret (match txs with [] => ANil | _ => ATransactions txs end).
Definition getRawTransaction (params : list json) : rpcM answer :=
  match params with
  | [] => mret ANil
  | JStr s :: _ =>
      r ← must (text_hash s);
      match r with
      | inr _ => mret DnaRpcInvalidParameter
      | inl (hash, e) =>
          if is_err e then mret DnaRpcInvalidTransaction else
          bc ← chain;
          let db := cs_db (bc_Store bc) in
          '(t, height, e) ← must (store_GetTransaction db hash);
          if is_err e then mret DnaRpcUnknownTransaction else
          let '(bHash, e) := GetBlockHash db height in
          if is_err e then mret DnaRpcUnknownTransaction else
          '(header, e) ← must (GetHeader db bHash);
          if is_err e then mret DnaRpcUnknownTransaction else
          t ← must t;
          header ← must header;
          i ← must (confirmed bc (bd_Timestamp header) height t);
          mret (ATransaction i)
      end
  | _ => mret DnaRpcInvalidParameter
  end.
Definition getNeighbor (now : Z) (params : list json) : rpcM answer := w ← look rpc_node; mret (AAddrs (GetNeighborAddrs now w)).
Definition getNodeState (now : Z) (params : list json) : rpcM answer :=
  w ← look rpc_node;
  n ← must (w_heap w !! w_local w);
  mret (ANode (mkNodeInfo (nd_state n) (nd_port n) (nd_id n) now (nd_version n) (nd_services n) (nd_relay n) (nd_height n) (nd_txnCnt n) (nd_rxTxnCnt n))).
Definition maxLevelLog : Z := 6.
Definition setDebugInfo (params : list json) : rpcM answer :=
  match params with
  | JNum level :: _ =>
      if (maxLevelLog <? level) || (level <? 0) then mret DnaRpcInvalidParameter else
      _ ← put (set_debug_level level); mret (ABool true)
  | _ => mret DnaRpcInvalidParameter
  end.

(** ** Merged mining *)

Definition AUXBLOCK_GENERATED_INTERVAL_SECONDS : Z := 60.
Definition hex_numeral (n : Z) : bytes := if n =? 0 then [48] else map to_hex_digit (to_base 16 n).

(** [AddBlock] of the default ledger. *)
Definition add_block (now : Z) (b : Block) : rpcM ((bool * bool) + error) := on_node (on_chain (AddBlock cfg ripemd160 now b)).
Definition with_AuxPow (b : Block) (ap : AuxPow) : Block :=
  let bd := blk_data b in
  mkBlock (mkBlockdata (bd_Version bd) (PrevBlockHash bd) (TransactionsRoot bd) (bd_Timestamp bd) (bd_Bits bd) (bd_Height bd) (bd_Nonce bd) ap) (Transactions b) (blk_hash b).
(** The errors of the text and of the proof are dropped; the block of the map is
    changed whether or not it is accepted. *)
Definition submitAuxBlock (now : Z) (params : list json) : rpcM answer :=
  p0 ← must (params !! 0%nat);
  match p0 with
  | JStr blockHash =>
      blocks ← look rpc_MsgBlock;
      match blocks !! blockHash with
      | None => mret DnaRpcInvalidHash
      | Some b =>
          p1 ← must (params !! 1%nat);
          match p1 with
          | JStr auxPow =>
              '((ap, _), _) ← must (AuxPow_Deserialize (bd_AuxPow (blk_data b)) (mkReader BytesBuffer (fst (HexStringToBytes auxPow))));
              let b := with_AuxPow b ap in
              _ ← put (set_rpc_MsgBlock (<[blockHash := b]> blocks));
              r ← add_block now b;
              match r with
              | inr _ => mret DnaRpcInternalError
              | inl _ => _ ← put (set_rpc_MsgBlock ∅); mret (ABool true)
              end
          | _ => mret DnaRpcInvalidParameter
          end
      end
  | _ => mret DnaRpcInvalidParameter
  end.

(** A block is made when the node is at height 0, when the height has changed,
    or a minute after the last one when the number of transactions has. *)
Definition generateAuxBlock (now rand : Z) (addr : bytes) : rpcM (option (Block * bytes)) :=
  s ← look id;
  h ← node_height;
  let pool := lt_pool (w_tables (rpc_node s)) in
  let count := pow_GetTransactionCount cfg pool in
  if (h =? 0) || negb (PreChainHeight s =? h) || ((AUXBLOCK_GENERATED_INTERVAL_SECONDS <? now - PreTime s) && negb (count =? PreTransactionCount s)) then
    _ ← (if negb (PreChainHeight s =? h) then put (set_Pre h now count) else mret tt);
    let currentTxsCount := snd (CollectTransactions cfg pool new_Block) in
    if currentTxsCount =? 0 then mret None else
    bc ← chain;
    '(b, e) ← run (GenerateBlock cfg conf bc rand now (map snd (map_to_list (GetTxnPool cfg pool false))) addr);
    if is_err e then mret None else
    b ← must b;
    let hash := Block_Hash b in
    let b := mkBlock (blk_data b) (Transactions b) (Some hash) in
    let key := BytesToHexString hash in
    _ ← put (fun s => set_rpc_MsgBlock (<[key := b]> (rpc_MsgBlock s)) s);
    _ ← put (set_Pre h now currentTxsCount);
    mret (Some (b, key))
  else mret None.
Definition createAuxBlock (now rand : Z) (params : list json) : rpcM answer :=
  r ← generateAuxBlock now rand (PayToAddr conf);
  match r with
  | None => mret ANil
  | Some (b, key) =>
      p0 ← must (params !! 0%nat);
      match p0 with
      | JStr a =>
          _ ← put (set_rpc_PayToAddr a);
          bc ← chain;
          h ← node_height;
          mret (AAuxBlock (mkAuxBlock 1 h 1 (hex_numeral (bd_Bits (blk_data b))) key (BytesToHexString (CurrentBlockHash bc))))
      | _ => mret DnaRpcInvalidParameter
      end
  end.

Definition toggleCpuMining (params : list json) : rpcM answer :=
  p0 ← must (params !! 0%nat);
  match p0 with
  | JBool b => _ ← put (fun s => set_rpc_Pow ((if b then Start else Halt) (rpc_Pow s)) s); mret (ABool true)
  | _ => mret DnaRpcInvalidParameter
  end.
(** [mine]: what [DiscreteMining] does. *)
Definition discreteCpuMining (mine : Z -> rpcM (list Uint256 + error)) (params : list json) : rpcM answer :=
  p0 ← must (params !! 0%nat);
  match p0 with
  | JNum n =>
      if uint32 n =? 0 then mret DnaRpcInvalidParameter else
      r ← mine (uint32 n);
      mret (match r with inr _ => ABool false | inl hashes => ATexts (map BytesToHexString hashes) end)
  | _ => mret DnaRpcInvalidParameter
  end.

(** ** The wallet *)

Definition addAccount (pair : bytes * PubKey) (params : list json) : rpcM answer :=
  c ← look rpc_Wallet;
  match c with
  | None => mret (AText (str "open wallet first"))
  | Some c =>
      r ← on_wallet c (CreateAccount ripemd160 pair);
      match r with
      | inr e => mret (AFailed (str "create account error:") e)
      | inl account =>
          c ← look rpc_Wallet; c ← must c;
          r ← on_wallet c (CreateContract ripemd160 account);
          match r with
          | inr e => mret (AFailed (str "create contract error:") e)
          | inl _ =>
              let '(address, e) := ToAddress (ac_ProgramHash account) in
              mret (match e with Some e => AFailed (str "generate address error:") e | None => AText address end)
          end
      end
  end.
Definition deleteAccount (params : list json) : rpcM answer :=
  match params with
  | [] => mret ANil
  | JStr address :: _ =>
      c ← look rpc_Wallet;
      match c with
      | None => mret (AText (str "open wallet first"))
      | Some c =>
          '(programHash, e) ← run (ToScriptHash address);
          match e with
          | Some e => mret (AFailed (str "invalid address:") e)
          | None =>
              r ← on_wallet c (DeleteAccount programHash);
              match r with
              | inr e => mret (AFailed (str "Delete account error:") e)
              | inl _ =>
                  c ← look rpc_Wallet; c ← must c;
                  r ← on_wallet c (DeleteContract programHash);
                  match r with
                  | inr e => mret (AFailed (str "Delete contract error:") e)
                  | inl _ =>
                      c ← look rpc_Wallet; c ← must c;
                      r ← on_wallet c (DeleteCoinsData programHash);
                      mret (match r with inr e => AFailed (str "Delete coins error:") e | inl _ => ABool true end)
                  end
              end
          end
      end
  | _ => mret DnaRpcInvalidParameter
  end.

(** ** Transactions and blocks *)

Definition sent (prefix : bytes) (txn : Transaction) : rpcM answer :=
  '(txn, hash) ← must (hash_cached txn);
  code ← VerifyAndSendTx txn;
  mret (if bool_decide (code = ErrNoError) then AText (hash_text hash) else AText (prefix ++ ErrCode_Error code)).
Definition asset_hash (asset : bytes) : rpcM (Uint256 + answer) :=
  r ← must (text_hash asset);
  mret (match r with
        | inr _ => inr (AText (str "error: invalid asset ID"))
        | inl (h, e) => if is_err e then inr (AText (str "error: invalid asset hash")) else inl h
        end).
Definition sendToAddress (nonce : Z) (params : list json) : rpcM answer :=
  match params with
  | JStr asset :: JStr address :: JStr value :: JStr fee :: _ =>
      c ← look rpc_Wallet;
      match c with
      | None => mret (AText (str "error : wallet is not opened"))
      | Some c =>
          r ← asset_hash asset;
          match r with
          | inr a => mret a
          | inl assetID =>
              bc ← chain;
              '(txn, e) ← run (MakeTransferTransaction (H := ledger_txs (Ledger := store_ledger (bc_Store bc))) ripemd160 sign (GetBestHeight bc) nonce c assetID fee [mkBatchOut address value]);
              match e with
              | Some e => mret (AFailed (str "error: ") e)
              | None => txn ← must txn; sent (str "error: ") txn
              end
          end
      end
  | _ :: _ :: _ :: _ :: _ => mret DnaRpcInvalidParameter
  | _ => mret ANil
  end.
Definition sendRawTransaction (params : list json) : rpcM answer :=
  match params with
  | [] => mret ANil
  | JStr s :: _ =>
      let '(hex, e) := HexStringToBytes s in
      if is_err e then mret DnaRpcInvalidParameter else
      '((txn, e), _) ← must (Tx_Deserialize new_Transaction (mkReader BytesReader hex));
      if is_err e then mret DnaRpcInvalidTransaction else sent [] txn
  | _ => mret DnaRpcInvalidParameter
  end.
Definition submitBlock (now : Z) (params : list json) : rpcM answer :=
  match params with
  | [] => mret ANil
  | JStr s :: _ =>
      '((block, e), _) ← must (Block_Deserialize new_Block (mkReader BytesReader (fst (HexStringToBytes s))));
      if is_err e then mret DnaRpcInvalidBlock else
      r ← add_block now block;
      match r with
      | inr _ => mret DnaRpcInvalidBlock
      | inl _ =>
          r ← on_node (Xmit nc (RBlock block));
          mret (match r with inr _ => DnaRpcInternalError | inl _ => ABool true end)
      end
  | _ => mret DnaRpcInvalidParameter
  end.

(** The accounts of the wallet that can sign do so, one after the other. *)
Fixpoint add_own_signatures (c : Client) (hashes : list Uint160) (found : bool) (txn : Transaction) : option (bool * Transaction) :=
  match hashes with
  | [] => Some (found, txn)
  | h :: hashes =>
      match GetAccountByProgramHash h c with
      | None => add_own_signatures c hashes found txn
      | Some ac =>
          data ← Tx_GetHashData txn;
          '(txn, _) ← AppendNewSignature txn (fst (SignBySigner sign data ac));
          add_own_signatures c hashes true txn
      end
  end.
(** A transaction that has all signatures is sent, another one returned. *)
Definition send_or_return (txn : Transaction) : rpcM answer :=
  let '((_, needsig), e) := ParseTransactionSig txn in
  match e with
  | Some e => mret (AFailed (str "error: ") e)
  | None =>
      if needsig =? 0 then sent [] txn
      else '(b, _) ← must (Tx_Serialize txn); mret (AText (BytesToHexString b))
  end.
(** Without a wallet the first account looked up is a nil pointer. *)
Definition signMultisigTransaction (params : list json) : rpcM answer :=
  match params with
  | [] => mret ANil
  | JStr s :: _ =>
      '((txn, _), _) ← must (Tx_Deserialize new_Transaction (mkReader BytesReader (fst (HexStringToBytes s))));
      match Programs txn with
      | [] => mret (AText (str "missing the first signature"))
      | p :: _ =>
          let hashes := default [] (ParseMultisigTransactionCode ripemd160 (pg_Code p)) in
          c ← look rpc_Wallet;
          '(found, txn) ← (match hashes, c with
                           | [], _ => mret (false, txn)
                           | _, None => must None
                           | _, Some c => must (add_own_signatures c hashes false txn)
                           end);
          if negb found then mret (AText (str "error: no available account detected")) else send_or_return txn
      end
  | _ => mret DnaRpcInvalidParameter
  end.
(** Five parameters are read after a test for four. *)
Definition createMultisigTransaction (nonce : Z) (params : list json) : rpcM answer :=
  match params with
  | JStr asset :: JStr from :: JStr address :: JStr value :: rest =>
      p4 ← must (head rest);
      match p4 with
      | JStr fee =>
          c ← look rpc_Wallet;
          match c with
          | None => mret (AText (str "error : wallet is not opened"))
          | Some c =>
              r ← asset_hash asset;
              match r with
              | inr a => mret a
              | inl assetID =>
                  bc ← chain;
                  '(txn, e) ← run (MakeMultisigTransferTransaction (H := ledger_txs (Ledger := store_ledger (bc_Store bc))) ripemd160 sign (GetBestHeight bc) nonce c assetID from fee [mkBatchOut address value]);
                  match e with
                  | Some e => mret (AFailed (str "error:") e)
                  | None => txn ← must txn; send_or_return txn
                  end
              end
          end
      | _ => mret DnaRpcInvalidParameter
      end
  | _ :: _ :: _ :: _ :: _ => mret DnaRpcInvalidParameter
  | _ => mret ANil
  end.

(** ** The table of methods *)

(** The fields of the configuration that [getinfo] repeats. *)
Record InfoConfig := mkInfoConfig { ic_Version : Z; ic_ProtocolVersion : Z; ic_WalletVersion : Z; ic_Proxy : bytes; ic_TestNet : bool }.
Definition getInfo (ic : InfoConfig) (params : list json) : rpcM answer :=
  w ← look rpc_node;
  h ← node_height;
  mret (AInfo (mkInfo (ic_Version ic) (ic_ProtocolVersion ic) (ic_WalletVersion ic) 0 h 0 (GetConnectionCnt w) (ic_Proxy ic) (ic_TestNet ic)
    0 0 0 0 0 (str "Tobe written"))).
Definition auxHelp (params : list json) : rpcM answer := mret (AText (str "createauxblock==submitauxblock")).
Definition getVersion (version : bytes) (params : list json) : rpcM answer := mret (AText version).

(** What a request takes from outside: the clock in seconds, random numbers, a
    new key pair, the version, the configuration and the work of the miner. *)
Record outside := mkOutside {
  ou_now : Z; ou_rand : Z; ou_pair : bytes * PubKey; ou_version : bytes; ou_info : InfoConfig; ou_mine : Z -> rpcM (list Uint256 + error) }.
(** [None]: the method is not found. *)
Definition method (o : outside) (name : bytes) : option (list json -> rpcM answer) :=
  let table : list (bytes * (list json -> rpcM answer)) :=
    [(str "getbestblockhash", getBestBlockHash); (str "getblock", getBlock); (str "getblockcount", getBlockCount); (str "getblockhash", getBlockHash);
     (str "getconnectioncount", getConnectionCount); (str "getrawmempool", getRawMemPool); (str "getrawtransaction", getRawTransaction);
     (str "getneighbor", getNeighbor (ou_now o * 10 ^ 9)); (str "getnodestate", getNodeState (ou_now o * 10 ^ 9)); (str "getversion", getVersion (ou_version o));
     (str "setdebuginfo", setDebugInfo); (str "sendtoaddress", sendToAddress (ou_rand o)); (str "sendrawtransaction", sendRawTransaction);
     (str "submitblock", submitBlock (ou_now o)); (str "createmultisigtransaction", createMultisigTransaction (ou_rand o));
     (str "signmultisigtransaction", signMultisigTransaction); (str "getinfo", getInfo (ou_info o)); (str "help", auxHelp); (str "submitauxblock", submitAuxBlock (ou_now o));
     (str "createauxblock", createAuxBlock (ou_now o) (ou_rand o)); (str "togglecpumining", toggleCpuMining); (str "discretemining", discreteCpuMining (ou_mine o));
     (str "addaccount", addAccount (ou_pair o)); (str "deleteaccount", deleteAccount)] in
  snd <$> List.find (fun e => bool_decide (e.1 = name)) table.
(** The part of [Handle] behind the JSON: a method that is not text, or
    parameters that are not a list ([None]), panic. *)
Definition rpc_Handle (o : outside) (name : json) (params : option (list json)) : rpcM (option answer) :=
  match name with
  | JStr name =>
      match method o name with
      | None => mret None
      | Some f => params ← must params; a ← f params; mret (Some a)
      end
  | _ => must None
  end.
End Server.
