(* ===== verification/Rest.v ===== *)
(** [net/httprestful/common/common.go] and the paths of [restful/server.go]: the
    same node asked over HTTP paths.

    A command is the map of its fields; a response keeps the fields the handlers
    set (the others are the constants of [ResponsePack]).  Sockets, the access
    token, the notice and websocket switches are left out. *)

From S2P Require Import Prelude Sha256 Serialization Common Fixed64 Transaction Merkle AuxPow Block.
From S2P Require Import Store Utxo Difficulty MedianTime Vm Address PubKey Contract Message Link Peers Validator Wallet Sdk TxPool Blockchain Ledger Pow Node Handlers Rpc.

(** * httprestful/error *)

Definition SUCCESS : Z := 0.
Definition ILLEGAL_DATAFORMAT : Z := 41003.
Definition INVALID_METHOD : Z := 42001.
Definition INVALID_PARAMS : Z := 42002.
Definition INVALID_TRANSACTION : Z := 43001.
Definition INVALID_ASSET : Z := 43002.
Definition UNKNOWN_TRANSACTION : Z := 44001.
Definition UNKNOWN_ASSET : Z := 44002.
Definition UNKNOWN_BLOCK : Z := 44003.
Definition INTERNAL_ERROR : Z := 45002.

Record UTXOUnspentInfo := mkUnspentInfo { ui_Txid : bytes; ui_Index : Z; ui_Value : bytes }.
Inductive rest_value :=
  | VText (s : bytes) | VNum (n : Z) | VError (e : error) | VBlock (b : BlockInfo) | VTransaction (t : TransactionsInfo) | VTransactions (l : list TransactionsInfo)
  | VBlockTransactions (hash : bytes) (height : Z) (txs : list bytes) | VAsset (a : Asset)
  | VUnspents (l : list UTXOUnspentInfo) | VAssets (l : list (bytes * bytes * list UTXOUnspentInfo))
  | VBool (b : bool) | VWsState (Open : bool) (Port : Z) (PushBlock PushRawBlock PushBlockTxs : bool).
Record response := mkResponse { rs_Result : rest_value; rs_Error : Z; rs_Userid : option bytes }.
Definition ResponsePack (errCode : Z) : response := mkResponse (VText []) errCode None.
Definition success (v : rest_value) : response := mkResponse v SUCCESS None.

(** * common.go *)

Section Common.
Context {DB : Type} `{IStore DB} `{IIterator DB} `{IBase58} `{ICrypto}.
Context (cfg : Config) (nc : NetConfig) (ripemd160 : bytes -> bytes).
#[local] Abbreviation rpcM := (rpcM (DB := DB)).

(** [cmd[name].(string)] with and without a test. *)
Definition field (cmd : gmap bytes json) (name : string) : option bytes := match cmd !! str name with Some (JStr s) => Some s | _ => None end.
Definition text_field (cmd : gmap bytes json) (name : string) : rpcM bytes := must (field cmd name).
Definition raw_asked (cmd : gmap bytes json) : bool := bool_decide (field cmd "Raw" = Some (str "1")).

Definition GetConnectionCount (cmd : gmap bytes json) : rpcM response := w ← look rpc_node; mret (success (VNum (GetConnectionCnt w))).
Definition GetBlockHeight (cmd : gmap bytes json) : rpcM response := bc ← chain; mret (success (VNum (BlockHeight bc))).
(** The block of a height given as text; [code] is told for an unknown one. *)
Definition height_block (code : Z) (cmd : gmap bytes json) : rpcM (Uint256 + response) :=
  param ← text_field cmd "Height";
  if (length param =? 0)%nat then mret (inr (ResponsePack INVALID_PARAMS)) else
  let '(height, e) := ParseInt param in
  if is_err e then mret (inr (ResponsePack INVALID_PARAMS)) else
  bc ← chain;
  let '(hash, e) := GetBlockHash (cs_db (bc_Store bc)) (uint32 height) in
  mret (if is_err e then inr (ResponsePack code) else inl hash).
Definition rest_GetBlockHash (cmd : gmap bytes json) : rpcM response :=
  r ← height_block INVALID_PARAMS cmd;
  mret (match r with inr a => a | inl hash => success (VText (hash_text hash)) end).
Definition GetTransactionPool (cmd : gmap bytes json) : rpcM response :=
  w ← look rpc_node;
  txs ← must (mapM (TransArryByteToHexString (bc_Store (w_chain w))) (map snd (map_to_list (GetTxnPool cfg (lt_pool (w_tables w)) false))));
  mret (success (VTransactions txs)).
(** A second copy of what getblock of the other interface does; this one tells
    the hash of the block. *)
Definition block_transaction (bc : Blockchain DB) (b : Block) (t : Transaction) : option TransactionsInfo :=
  i ← TransArryByteToHexString (bc_Store bc) t;
  '(w, _) ← Tx_Serialize t;
  Some (mkTransactions (ti_TxType i) (ti_PayloadVersion i) (ti_Payload i) (ti_Attributes i) (ti_UTXOInputs i) (ti_BalanceInputs i) (ti_Outputs i)
    (ti_LockTime i) (ti_Programs i) (bd_Timestamp (blk_data b)) (uint32 (GetBestHeight bc - bd_Height (blk_data b) + 1)) (uint32 (Z.of_nat (length w))) (ti_Hash i)).
Definition GetBlockInfo (bc : Blockchain DB) (block : Block) : option BlockInfo :=
  let hash := Block_Hash block in
  let bd := blk_data block in
  let blockHead := mkBlockHead (bd_Version bd) (hash_text (PrevBlockHash bd)) (hash_text (TransactionsRoot bd)) (bd_Timestamp bd) (bd_Bits bd)
                     (bd_Height bd) (bd_Nonce bd) (hash_text hash) in
  trans ← mapM (block_transaction bc block) (Transactions block);
  first ← Transactions block !! 0%nat;
  match payload first with
  | Some (PCoinBase coinbaseData) =>
      Some (mkBlockInfo (hash_text hash) blockHead trans (uint32 (GetBestHeight bc - bd_Height bd + 1)) coinbaseData)
  | _ => None
  end.
Definition GetBlockTransactions (b : Block) : option rest_value :=
  trans ← mapM Tx_Hash (Transactions b);
  Some (VBlockTransactions (hash_text (Block_Hash b)) (bd_Height (blk_data b)) (map hash_text trans)).
Definition rest_getBlock (hash : Uint256) (getTxBytes : bool) : rpcM response :=
  bc ← chain;
  '(b, e) ← must (GetBlock (cs_db (bc_Store bc)) hash);
  if is_err e then mret (mkResponse (VText []) UNKNOWN_BLOCK None) else
  b ← must b;
  if getTxBytes then w ← must (Block_Serialize b); mret (success (VText (BytesToHexString w)))
  else i ← must (GetBlockInfo bc b); mret (success (VBlock i)).
(** A hash given as text: the codes of a bad text and of a short one. *)
Definition hash_param (param : bytes) (bad : Z) : rpcM (Uint256 + response) :=
  r ← must (text_hash param);
  mret (match r with
        | inr _ => inr (ResponsePack INVALID_PARAMS)
        | inl (h, e) => if is_err e then inr (ResponsePack bad) else inl h
        end).
Definition GetBlockByHash (cmd : gmap bytes json) : rpcM response :=
  param ← text_field cmd "Hash";
  if (length param =? 0)%nat then mret (ResponsePack INVALID_PARAMS) else
  r ← hash_param param INVALID_TRANSACTION;
  match r with inr a => mret a | inl hash => rest_getBlock hash (raw_asked cmd) end.
Definition GetBlockTxsByHeight (cmd : gmap bytes json) : rpcM response :=
  r ← height_block UNKNOWN_BLOCK cmd;
  match r with
  | inr a => mret a
  | inl hash =>
      bc ← chain;
      '(b, e) ← must (GetBlock (cs_db (bc_Store bc)) hash);
      if is_err e then mret (ResponsePack UNKNOWN_BLOCK) else
      b ← must b;
      v ← must (GetBlockTransactions b);
      mret (success v)
  end.
Definition GetBlockByHeight (cmd : gmap bytes json) : rpcM response :=
  r ← height_block UNKNOWN_BLOCK cmd;
  match r with inr a => mret a | inl hash => rest_getBlock hash (raw_asked cmd) end.

Definition GetAssetByHash (cmd : gmap bytes json) : rpcM response :=
  s ← text_field cmd "Hash";
  r ← hash_param s INVALID_ASSET;
  match r with
  | inr a => mret a
  | inl hash =>
      bc ← chain;
      '(a, e) ← must (GetAsset (cs_db (bc_Store bc)) hash);
      if is_err e then mret (ResponsePack UNKNOWN_ASSET) else
      a ← must a;
      mret (success (if raw_asked cmd then VText (BytesToHexString (Asset_Serialize a)) else VAsset a))
  end.
(** The amounts of every asset are added up, as 64-bit numbers. *)
Definition sum_values (l : list UTXOUnspent) : Fixed64 := foldl (fun s u => int64 (s + uu_Value u)) 0 l.
Definition owner (cmd : gmap bytes json) : rpcM (Uint160 + response) :=
  match field cmd "Addr" with
  | None => mret (inr (ResponsePack INVALID_PARAMS))
  | Some addr =>
      '(programHash, e) ← run (ToScriptHash addr);
      mret (if is_err e then inr (ResponsePack INVALID_PARAMS) else inl programHash)
  end.
Definition GetBalanceByAddr (cmd : gmap bytes json) : rpcM response :=
  r ← owner cmd;
  match r with
  | inr a => mret a
  | inl programHash =>
      bc ← chain;
      '(unspends, _) ← must (GetUnspentsFromProgramHash (cs_db (bc_Store bc)) programHash);
      mret (success (VText (Fixed64_String (sum_values (concat (map snd (map_to_list unspends)))))))
  end.
Definition GetBalanceByAsset (cmd : gmap bytes json) : rpcM response :=
  match field cmd "Addr", field cmd "Assetid" with
  | Some _, Some assetid =>
      r ← owner cmd;
      match r with
      | inr a => mret a
      | inl programHash =>
          bc ← chain;
          '(unspends, _) ← must (GetUnspentsFromProgramHash (cs_db (bc_Store bc)) programHash);
          let mine := List.filter (fun e => bool_decide (hash_text e.1 = assetid)) (map_to_list unspends) in
          mret (success (VText (Fixed64_String (sum_values (concat (map snd mine))))))
      end
  | _, _ => mret (ResponsePack INVALID_PARAMS)
  end.
Definition unspent_info (u : UTXOUnspent) : UTXOUnspentInfo := mkUnspentInfo (hash_text (Txid u)) (uu_Index u) (Fixed64_String (uu_Value u)).
Fixpoint asset_unspents (db : DB) (l : list (Uint256 * list UTXOUnspent)) : option (option (list (bytes * bytes * list UTXOUnspentInfo))) :=
  match l with
  | [] => Some (Some [])
  | (k, u) :: l =>
      '(a, e) ← GetAsset db k;
      if is_err e then Some None else
      a ← a;
      rest ← asset_unspents db l;
      Some (rest ← rest; Some ((hash_text k, a_Name a, map unspent_info u) :: rest))
  end.
Definition GetUnspends (cmd : gmap bytes json) : rpcM response :=
  r ← owner cmd;
  match r with
  | inr a => mret a
  | inl programHash =>
      bc ← chain;
      '(unspends, _) ← must (GetUnspentsFromProgramHash (cs_db (bc_Store bc)) programHash);
      r ← must (asset_unspents (cs_db (bc_Store bc)) (map_to_list unspends));
      mret (match r with Some l => success (VAssets l) | None => ResponsePack INTERNAL_ERROR end)
  end.
Definition GetUnspendOutput (cmd : gmap bytes json) : rpcM response :=
  match field cmd "Addr", field cmd "Assetid" with
  | Some _, Some assetid =>
      r ← owner cmd;
      match r with
      | inr a => mret a
      | inl programHash =>
          r ← hash_param assetid INVALID_PARAMS;
          match r with
          | inr a => mret a
          | inl assetHash =>
              bc ← chain;
              '(infos, e) ← must (GetUnspentFromProgramHash (cs_db (bc_Store bc)) programHash assetHash);
              mret (match e with Some e => mkResponse (VError e) INVALID_PARAMS None | None => success (VUnspents (map unspent_info infos)) end)
          end
      end
  | _, _ => mret (ResponsePack INVALID_PARAMS)
  end.

Definition GetTransactionByHash (cmd : gmap bytes json) : rpcM response :=
  s ← text_field cmd "Hash";
  r ← hash_param s INVALID_TRANSACTION;
  match r with
  | inr a => mret a
  | inl hash =>
      bc ← chain;
      let db := cs_db (bc_Store bc) in
      '(t, height, e) ← must (store_GetTransaction db hash);
      if is_err e then mret (ResponsePack UNKNOWN_TRANSACTION) else
      t ← must t;
      if raw_asked cmd then '(b, _) ← must (Tx_Serialize t); mret (success (VText (BytesToHexString b))) else
      let '(bHash, e) := GetBlockHash db height in
      if is_err e then mret (ResponsePack UNKNOWN_BLOCK) else
      '(header, e) ← must (GetHeader db bHash);
      if is_err e then mret (ResponsePack UNKNOWN_BLOCK) else
      header ← must header;
      i ← must (confirmed bc (bd_Timestamp header) height t);
      mret (success (VTransaction i))
  end.
Definition SendRawTransaction (cmd : gmap bytes json) : rpcM response :=
  match field cmd "Data" with
  | None => mret (ResponsePack INVALID_PARAMS)
  | Some s =>
      let '(hex, e) := HexStringToBytes s in
      if is_err e then mret (ResponsePack INVALID_PARAMS) else
      '((txn, e), _) ← must (Tx_Deserialize new_Transaction (mkReader BytesReader hex));
      if is_err e then mret (ResponsePack INVALID_TRANSACTION) else
      '(txn, hash) ← must (hash_cached txn);
      code ← VerifyAndSendTx cfg nc ripemd160 txn;
      if negb (bool_decide (code = ErrNoError)) then mret (ResponsePack (ErrCode_value code)) else
      mret (mkResponse (VText (hash_text hash)) SUCCESS
        (if TxType txn =? 0xd1 then match field cmd "Userid" with Some u => if (length u =? 0)%nat then None else Some u | None => None end else None))
  end.
(** Nothing is looked up yet. *)
Definition GetStateUpdate (cmd : gmap bytes json) : rpcM response :=
  mret (match field cmd "Namespace", field cmd "Key" with Some _, Some _ => ResponsePack SUCCESS | _, _ => ResponsePack INVALID_PARAMS end).
Definition rest_GetContract (cmd : gmap bytes json) : rpcM response :=
  s ← text_field cmd "Hash";
  let '(hex, e) := HexStringToBytesReverse s in
  if is_err e then mret (ResponsePack INVALID_PARAMS) else
  '((_, e), _) ← must (Uint160_Deserialize zero160 (mkReader BytesReader hex));
  mret (ResponsePack (if is_err e then INVALID_PARAMS else SUCCESS)).
End Common.

(** * restful/router.go *)

(** [\w] of the regular expressions. *)
Definition is_word (c : Z) : bool :=
  ((48 <=? c) && (c <=? 57)) || ((65 <=? c) && (c <=? 90)) || (c =? 95) || ((97 <=? c) && (c <=? 122)).
(** An anchored expression made of the characters of a path (none of which has a
    meaning of its own in an expression) and of groups [(\w+)]. *)
Inductive piece := Lit (c : Z) | Group.
(** [:name] becomes a group; [name] is what was read behind a colon. *)
Fixpoint compile_path (name : option bytes) (s : bytes) : list piece * list bytes :=
  let pending := match name with None => ([], []) | Some [] => ([Lit 58], []) | Some n => ([Group], [n]) end in
  match s with
  | [] => pending
  | c :: s =>
      let next :=
        if c =? 58 then compile_path (Some []) s
        else let '(p, r) := compile_path None s in (Lit c :: p, r) in
      match name with
      | Some n => if is_word c then compile_path (Some (n ++ [c])) s else (pending.1 ++ next.1, pending.2 ++ next.2)
      | None => next
      end
  end.
Fixpoint run_length (s : bytes) : nat := match s with c :: s => if is_word c then S (run_length s) else 0 | [] => 0 end.
(** The groups of a match: a group takes as much as it can. *)
Fixpoint first_some {A} (l : list (option A)) : option A := match l with [] => None | Some a :: _ => Some a | None :: l => first_some l end.
Fixpoint match_path (p : list piece) (s : bytes) : option (list bytes) :=
  match p with
  | [] => match s with [] => Some [] | _ => None end
  | Lit c :: p => match s with x :: s => if x =? c then match_path p s else None | [] => None end
  | Group :: p => first_some (map (fun k => cons (take k s) <$> match_path p (drop k s)) (reverse (seq 1 (run_length s))))
  end.

Inductive http_method := GET | POST | OPTIONS.
#[export] Instance http_method_dec : EqDecision http_method.
Proof. solve_decision. Defined.
Record Route := mkRoute { rt_Method : http_method; rt_Path : list piece; RegisteredParams : list bytes }.
Definition router_add (method : http_method) (path : bytes) : Route :=
  let '(p, names) := compile_path None path in mkRoute method p names.
Definition parseParams (names values : list bytes) : gmap bytes bytes := foldl (fun m nv => <[nv.1 := nv.2]> m) ∅ (zip names values).
(** The handlers of a method are the same for all its routes. *)
Fixpoint Try (routes : list Route) (path : bytes) (method : http_method) : option (gmap bytes bytes) :=
  match routes with
  | [] => None
  | r :: routes =>
      if negb (bool_decide (rt_Method r = method)) then Try routes path method else
      match match_path (rt_Path r) path with
      | Some values => Some (parseParams (RegisteredParams r) values)
      | None => Try routes path method
      end
  end.
Definition getParam (params : gmap bytes bytes) (key : string) : bytes := default [] (params !! str key).

(** * restful/server.go: paths *)

(** [strings.TrimRight] and [strings.Contains]. *)
Fixpoint drop_while (p : Z -> bool) (s : bytes) : bytes := match s with [] => [] | c :: t => if p c then drop_while p t else s end.
Definition TrimRight (s cutset : bytes) : bytes := reverse (drop_while (fun c => existsb (Z.eqb c) cutset) (reverse s)).
Fixpoint starts (s sub : bytes) : bool :=
  match sub, s with
  | [], _ => true
  | x :: sub, y :: s => (x =? y) && starts s sub
  | _, [] => false
  end.
Fixpoint contains (s sub : bytes) : bool := starts s sub || match s with [] => false | _ :: s => contains s sub end.

Definition Api_Getconnectioncount : bytes := str "/api/v1/node/connectioncount".
Definition Api_GetblockTxsByHeight : bytes := str "/api/v1/block/transactions/height/:height".
Definition Api_Getblockbyheight : bytes := str "/api/v1/block/details/height/:height".
Definition Api_Getblockbyhash : bytes := str "/api/v1/block/details/hash/:hash".
Definition Api_Getblockheight : bytes := str "/api/v1/block/height".
Definition Api_Getblockhash : bytes := str "/api/v1/block/hash/:height".
Definition Api_GetTotalIssued : bytes := str "/api/v1/totalissued/:assetid".
Definition Api_Gettransaction : bytes := str "/api/v1/transaction/:hash".
Definition Api_Getasset : bytes := str "/api/v1/asset/:hash".
Definition Api_GetBalanceByAddr : bytes := str "/api/v1/asset/balances/:addr".
Definition Api_GetBalancebyAsset : bytes := str "/api/v1/asset/balance/:addr/:assetid".
Definition Api_GetUTXObyAsset : bytes := str "/api/v1/asset/utxo/:addr/:assetid".
Definition Api_GetUTXObyAddr : bytes := str "/api/v1/asset/utxos/:addr".
Definition Api_SendRawTx : bytes := str "/api/v1/transaction".
Definition Api_GetTransactionPool : bytes := str "/api/v1/transactionpool".
Definition Api_SendRcdTxByTrans : bytes := str "/api/v1/custom/transaction/record".
Definition Api_GetStateUpdate : bytes := str "/api/v1/stateupdate/:namespace/:key".
Definition Api_OauthServerUrl : bytes := str "/api/v1/config/oauthserver/url".
Definition Api_NoticeServerUrl : bytes := str "/api/v1/config/noticeserver/url".
Definition Api_NoticeServerState : bytes := str "/api/v1/config/noticeserver/state".
Definition Api_WebsocketState : bytes := str "/api/v1/config/websocket/state".
Definition Api_Restart : bytes := str "/api/v1/restart".
Definition Api_GetContract : bytes := str "/api/v1/contract/:hash".

(** The paths with arguments, in the order they are tried, with what is trimmed
    from the right of each. *)
Definition trimmed_paths : list (bytes * bytes) :=
  [(Api_GetblockTxsByHeight, str ":height"); (Api_Getblockbyheight, str ":height"); (Api_Getblockhash, str ":height"); (Api_Getblockbyhash, str ":hash");
   (Api_GetTotalIssued, str ":assetid"); (Api_Gettransaction, str ":hash"); (Api_GetContract, str ":hash"); (Api_GetBalanceByAddr, str ":addr");
   (Api_GetBalancebyAsset, str ":addr/:assetid"); (Api_GetUTXObyAddr, str ":addr"); (Api_GetUTXObyAsset, str ":addr/:assetid"); (Api_Getasset, str ":hash");
   (Api_GetStateUpdate, str ":namespace/:key")].
Definition getPath (url : bytes) : bytes :=
  match List.find (fun pc => contains url (TrimRight pc.1 pc.2)) trimmed_paths with
  | Some (path, _) => path
  | None => url
  end.

(** [param]: the value of an argument of the path, [form]: of the query. *)
Definition put_text (name : string) (v : bytes) (req : gmap bytes json) : gmap bytes json := <[str name := JStr v]> req.
Definition getParams (param form : string -> bytes) (url : bytes) (req : gmap bytes json) : gmap bytes json :=
  if bool_decide (url = Api_GetblockTxsByHeight) || bool_decide (url = Api_Getblockhash) then put_text "Height" (param "height"%string) req else
  if bool_decide (url = Api_Getblockbyheight) then put_text "Height" (param "height"%string) (put_text "Raw" (form "raw"%string) req) else
  if bool_decide (url = Api_Getblockbyhash) || bool_decide (url = Api_Gettransaction) || bool_decide (url = Api_GetContract) || bool_decide (url = Api_Getasset)
  then put_text "Hash" (param "hash"%string) (put_text "Raw" (form "raw"%string) req) else
  if bool_decide (url = Api_GetTotalIssued) then put_text "Assetid" (param "assetid"%string) req else
  if bool_decide (url = Api_GetBalancebyAsset) || bool_decide (url = Api_GetUTXObyAsset)
  then put_text "Addr" (param "addr"%string) (put_text "Assetid" (param "assetid"%string) req) else
  if bool_decide (url = Api_GetBalanceByAddr) || bool_decide (url = Api_GetUTXObyAddr) then put_text "Addr" (param "addr"%string) req else
  if bool_decide (url = Api_SendRawTx) then (if (length (form "userid"%string) =? 0)%nat then put_text "Userid" (param "userid"%string) req else req) else
  if bool_decide (url = Api_SendRcdTxByTrans) then put_text "Raw" (form "raw"%string) req else
  if bool_decide (url = Api_GetStateUpdate) then put_text "Namespace" (param "namespace"%string) (put_text "Key" (param "key"%string) req) else req.

Section Paths.
Context {DB : Type} `{IStore DB} `{IIterator DB} `{IBase58} `{ICrypto}.
Context (cfg : Config) (nc : NetConfig) (ripemd160 : bytes -> bytes).

(** The handlers that work on the state of other servers (records, the oauth and
    notice servers, websockets, restarting the listener), by method and path.  Push.v
    has them with that state. *)
Context (others : http_method -> bytes -> gmap bytes json -> rpcM (DB := DB) response).

Definition getMap : list (bytes * (gmap bytes json -> rpcM (DB := DB) response)) :=
  [(Api_Getconnectioncount, GetConnectionCount); (Api_GetblockTxsByHeight, GetBlockTxsByHeight); (Api_Getblockbyheight, GetBlockByHeight);
   (Api_Getblockbyhash, GetBlockByHash); (Api_Getblockheight, GetBlockHeight); (Api_Getblockhash, rest_GetBlockHash);
   (Api_GetTransactionPool, GetTransactionPool cfg); (Api_Gettransaction, GetTransactionByHash); (Api_Getasset, GetAssetByHash);
   (Api_GetContract, rest_GetContract); (Api_GetUTXObyAddr, GetUnspends); (Api_GetUTXObyAsset, GetUnspendOutput);
   (Api_GetBalanceByAddr, GetBalanceByAddr); (Api_GetBalancebyAsset, GetBalanceByAsset); (Api_GetStateUpdate, GetStateUpdate);
   (Api_OauthServerUrl, others GET Api_OauthServerUrl); (Api_NoticeServerUrl, others GET Api_NoticeServerUrl); (Api_Restart, others GET Api_Restart)].
Definition get_handler (path : bytes) : option (gmap bytes json -> rpcM (DB := DB) response) :=
  snd <$> List.find (fun e => bool_decide (e.1 = path)) getMap.
Definition postMap : list bytes := [Api_SendRawTx; Api_SendRcdTxByTrans; Api_OauthServerUrl; Api_NoticeServerUrl; Api_NoticeServerState; Api_WebsocketState].
(** Requests that passed the access check, which names the key [CAkey]. *)
Definition handle_get (CAkey : bytes) (param form : string -> bytes) (urlPath : bytes) : rpcM (DB := DB) response :=
  let url := getPath urlPath in
  match get_handler url with
  | Some h => h (getParams param form url (put_text "CAkey" CAkey ∅))
  | None => mret (ResponsePack INVALID_METHOD)
  end.
(** The user told of the transaction is remembered by the websocket server: the
    second component is what is handed to it. *)
Definition post_sendRawTransaction (cmd : gmap bytes json) : rpcM (DB := DB) (response * option (bytes * bytes)) :=
  resp ← SendRawTransaction cfg nc ripemd160 cmd;
  mret (match rs_Userid resp with
        | Some u =>
            if (length u =? 0)%nat then (resp, None) else
            (mkResponse (rs_Result resp) (rs_Error resp) None, match rs_Result resp with VText hash => Some (hash, u) | _ => None end)
        | None => (resp, None)
        end).
Definition post_handler (path : bytes) (cmd : gmap bytes json) : rpcM (DB := DB) (response * option (bytes * bytes)) :=
  if bool_decide (path = Api_SendRawTx) then post_sendRawTransaction cmd else r ← others POST path cmd; mret (r, None).
(** [body]: the fields of the request, [None] when it is not JSON. *)
Definition handle_post (CAkey : bytes) (body : option (gmap bytes json)) (param form : string -> bytes) (urlPath : bytes)
  : rpcM (DB := DB) (response * option (bytes * bytes)) :=
  let url := getPath urlPath in
  if negb (bool_decide (url ∈ postMap)) then mret (ResponsePack INVALID_METHOD, None) else
  match body with
  | None => mret (ResponsePack ILLEGAL_DATAFORMAT, None)
  | Some req => post_handler url (getParams param form url (put_text "CAkey" CAkey req))
  end.

(** [NotFound], an empty answer, or an answer and the user to remember. *)
Inductive http_answer := NotFound | Empty | Answer (r : response) (user : option (bytes * bytes)).
Definition ServeHTTP (routes : list Route) (CAkey : bytes) (body : option (gmap bytes json)) (form : string -> bytes) (method : http_method) (path : bytes)
  : rpcM (DB := DB) http_answer :=
  match Try routes path method with
  | None => mret NotFound
  | Some params =>
      match method with
      | GET => r ← handle_get CAkey (getParam params) form path; mret (Answer r None)
      | POST => '(r, u) ← handle_post CAkey body (getParam params) form path; mret (Answer r u)
      | OPTIONS => mret Empty
      end
  end.
(** The maps are enumerated in some order. *)
Definition init_handlers (gets posts options : list bytes) : list Route :=
  map (router_add GET) gets ++ map (router_add POST) posts ++ map (router_add OPTIONS) options.
End Paths.
