(* ===== verification/Routing.v ===== *)
(** Which handler answers a path: the router of [net/httprestful/restful] finds a
    route by regular expressions and keeps the arguments; the handler it calls
    looks the path up again by substring tests.  Which handler answers is shown for
    every path and all arguments: the entry that was routed, except below
    [/api/v1/asset/], where arguments with two beginnings are taken for others. *)

From S2P Require Import Prelude Sha256 Serialization Common Fixed64 Transaction Merkle AuxPow Block.
From S2P Require Import Store Utxo Difficulty MedianTime Vm Address PubKey Contract Message Link Peers Validator Wallet Sdk TxPool Blockchain Ledger Startup Pow Node Handlers Network Rpc Rest.

(** * Substring tests *)

(** The slashes of a text: one that contains or starts with another has as many. *)
Fixpoint slashes (s : bytes) : nat := match s with [] => 0 | c :: s => (if c =? 47 then 1 else 0) + slashes s end.
Lemma starts_slashes k : forall s, starts s k = true -> (slashes k <= slashes s)%nat.
Proof.
  induction k as [|x k IH]; intros [|y s] E; cbn [starts slashes] in *; [lia|lia|done|]. apply andb_true_iff in E as [->%Z.eqb_eq E]. apply IH in E. lia.
Qed.
Lemma contains_slashes k s : contains s k = true -> (slashes k <= slashes s)%nat.
Proof.
  induction s as [|c s IH]; intros E; cbn [contains] in E; apply orb_true_iff in E as [E|E]; [by apply starts_slashes|done|by apply starts_slashes|].
  apply IH in E. cbn [slashes]. lia.
Qed.
Lemma starts_app q : forall a k, starts (q ++ a) k = starts q (take (length q) k) && starts a (drop (length q) k).
Proof.
  induction q as [|c q IH]; intros a k; [done|]. destruct k as [|x k]; [by destruct a|]. cbn [app starts length take drop]. by rewrite IH, andb_assoc.
Qed.
(** What is left of [k] to be found in the argument, for every place of the
    fixed part it fits. *)
Fixpoint left_over (p k : bytes) : list bytes :=
  match p with
  | [] => []
  | _ :: p' => (if starts p (take (length p) k) then [drop (length p) k] else []) ++ left_over p' k
  end.
Lemma contains_app p a k : contains (p ++ a) k = existsb (starts a) (left_over p k) || contains a k.
Proof.
  induction p as [|c p IH]; [done|]. cbn [left_over]. rewrite existsb_app, <- orb_assoc, <- IH. cbn [app contains]. f_equal.
  change (c :: p ++ a) with ((c :: p) ++ a). rewrite starts_app. destruct (starts (c :: p) _); cbn [existsb]; [by rewrite orb_false_r|done].
Qed.

(** The argument of a path is found by none of the earlier tests: what would
    have to be in it has too many slashes. *)
Definition clear (p : bytes) (n : nat) : bool :=
  forallb (fun pc => let k := TrimRight pc.1 pc.2 in
    (n <? slashes k)%nat && forallb (fun r => bool_decide (r = []) || (n <? slashes r)%nat) (left_over p k)) trimmed_paths.
Definition expected_path (p : bytes) : option bytes :=
  fst <$> List.find (fun pc => existsb (fun r => bool_decide (r = [])) (left_over p (TrimRight pc.1 pc.2))) trimmed_paths.
Lemma find_ext {A} (f g : A -> bool) l : (forall x, In x l -> f x = g x) -> List.find f l = List.find g l.
Proof. induction l as [|x l IH]; intros E; cbn; [done|]. rewrite (E x) by (by left). rewrite IH by (intros y Hy; apply E; by right). done. Qed.
(** The tests on a path whose argument has few slashes only look at what is left
    over. *)
Lemma getPath_left_over p a : forallb (fun pc => (slashes a <? slashes (TrimRight pc.1 pc.2))%nat) trimmed_paths = true ->
  getPath (p ++ a) = match List.find (fun pc => existsb (starts a) (left_over p (TrimRight pc.1 pc.2))) trimmed_paths with Some (path, _) => path | None => p ++ a end.
Proof.
  intros C. rewrite forallb_forall in C. unfold getPath.
  rewrite (find_ext _ (fun pc => existsb (starts a) (left_over p (TrimRight pc.1 pc.2)))); [done|].
  intros pc Hpc. specialize (C pc Hpc). apply Nat.ltb_lt in C. rewrite contains_app.
  rewrite (not_true_is_false (contains a _)) by (intros E; apply contains_slashes in E; lia). apply orb_false_r.
Qed.
Lemma getPath_clear p a : clear p (slashes a) = true -> getPath (p ++ a) = default (p ++ a) (expected_path p).
Proof.
  intros C. unfold clear in C. rewrite forallb_forall in C. rewrite getPath_left_over.
  2:{ apply forallb_forall. intros pc Hpc. specialize (C pc Hpc). cbn zeta in C. by apply andb_true_iff in C as [C _]. }
  unfold expected_path. rewrite (find_ext _ (fun pc => existsb (fun r => bool_decide (r = [])) (left_over p (TrimRight pc.1 pc.2)))); [by destruct (List.find _ _) as [[path cut]|]|].
  intros pc Hpc. specialize (C pc Hpc). cbn zeta in C. apply andb_true_iff in C as [_ Cr]. rewrite forallb_forall in Cr.
  apply eq_true_iff_eq. rewrite !existsb_exists. split; intros (r & Hr & E); exists r; (split; [done|]).
  - specialize (Cr r Hr). apply orb_true_iff in Cr as [Cr|Cr]; [done|]. apply Nat.ltb_lt in Cr. apply starts_slashes in E. lia.
  - apply bool_decide_eq_true in E as ->. by destruct a.
Qed.

(** Below [/api/v1/asset/] two entries were trimmed too far. *)
Definition asset_prefix : bytes := str "/api/v1/asset/".
Definition asset_entry (a : bytes) : bytes :=
  if starts a (str "balanc") then Api_GetBalancebyAsset else if starts a (str "utxo") then Api_GetUTXObyAsset else Api_Getasset.
Lemma starts_no_slash a k : slashes a = 0%nat -> (0 < slashes k)%nat -> starts a k = false.
Proof. intros Ha Hk. apply not_true_is_false. intros E%starts_slashes. lia. Qed.
(** An argument without a slash: only what is left over without one counts. *)
Definition short (l : list bytes) : list bytes := List.filter (fun r => (slashes r =? 0)%nat) l.
Lemma existsb_short a l : slashes a = 0%nat -> existsb (starts a) l = existsb (starts a) (short l).
Proof.
  intros Ha. induction l as [|r l IH]; [done|]. cbn [existsb short List.filter]. rewrite IH. destruct (Nat.eqb_spec (slashes r) 0) as [|Hr]; [done|].
  by rewrite starts_no_slash by (done || lia).
Qed.
Lemma getPath_asset a : slashes a = 0%nat -> getPath (asset_prefix ++ a) = asset_entry a.
Proof.
  intros Ha. rewrite getPath_left_over by (rewrite Ha; vm_compute; reflexivity).
  assert (E : map (fun pc => (pc.1, short (left_over asset_prefix (TrimRight pc.1 pc.2)))) trimmed_paths =
    [(Api_GetblockTxsByHeight, []); (Api_Getblockbyheight, []); (Api_Getblockhash, []); (Api_Getblockbyhash, []); (Api_GetTotalIssued, []); (Api_Gettransaction, []);
     (Api_GetContract, []); (Api_GetBalanceByAddr, []); (Api_GetBalancebyAsset, [str "balanc"]); (Api_GetUTXObyAddr, []);
     (Api_GetUTXObyAsset, [str "utxo"]); (Api_Getasset, [[]]); (Api_GetStateUpdate, [])]) by (vm_compute; reflexivity).
  assert (F : forall (l : list (bytes * bytes)) (d : bytes), match List.find (fun pc => existsb (starts a) (left_over asset_prefix (TrimRight pc.1 pc.2))) l with Some (path, _) => path | None => d end =
    match List.find (fun pr => existsb (starts a) pr.2) (map (fun pc => (pc.1, short (left_over asset_prefix (TrimRight pc.1 pc.2)))) l) with Some (path, _) => path | None => d end).
  { intros l d. induction l as [|[path cut] l IH]; [done|]. cbn [List.find map fst snd]. rewrite existsb_short by done. destruct (existsb _ _); [done|exact IH]. }
  rewrite F, E. clear F E. cbn [List.find existsb snd orb]. unfold asset_entry.
  destruct (starts a (str "balanc")); [done|]. cbn [orb]. destruct (starts a (str "utxo")); [done|]. by destruct a.
Qed.

(** * Regular expressions *)

(** An expression cut at its slashes; a text is an expression without groups. *)
Definition cons_head (x : piece) (l : list (list piece)) : list (list piece) := match l with [] => [[x]] | h :: t => (x :: h) :: t end.
Fixpoint segs (p : list piece) : list (list piece) :=
  match p with
  | [] => [[]]
  | x :: p => match x with Lit c => if c =? 47 then [] :: segs p else cons_head x (segs p) | Group => cons_head x (segs p) end
  end.
Definition literal (x : piece) : bool := match x with Lit _ => true | Group => false end.
Definition fits (p t : list piece) : Prop := forallb literal p = true -> p = t.
#[export] Instance piece_dec : EqDecision piece.
Proof. solve_decision. Defined.

Lemma segs_cons p : exists h t, segs p = h :: t.
Proof. induction p as [|[c|] p (h & t & E)]; cbn; [eauto| |rewrite E; cbn; eauto]. destruct (c =? 47); [eauto|]. rewrite E. cbn. eauto. Qed.
Lemma fits_cons_head x p t : Forall2 fits (segs p) (segs t) -> Forall2 fits (cons_head x (segs p)) (cons_head x (segs t)).
Proof.
  destruct (segs_cons p) as (h & l & ->), (segs_cons t) as (h' & l' & ->). cbn. intros [Hh Hl]%list.Forall2_cons. constructor; [|done].
  intros E. cbn in E. apply andb_true_iff in E as [_ E]. by rewrite (Hh E).
Qed.
Lemma fits_group p t x : Forall2 fits (cons_head Group (segs p)) (segs t) -> Forall2 fits (cons_head Group (segs p)) (cons_head x (segs t)).
Proof.
  destruct (segs_cons p) as (h & l & ->), (segs_cons t) as (h' & l' & ->). cbn. intros [_ Hl]%list.Forall2_cons. by constructor.
Qed.
Lemma word_not_slash c : is_word c = true -> (c =? 47) = false.
Proof. unfold is_word. intros E. apply Z.eqb_neq. intros ->. done. Qed.
Lemma segs_words p : forall k s, (1 <= k <= run_length s)%nat -> Forall2 fits (segs p) (segs (map Lit (drop k s))) -> Forall2 fits (cons_head Group (segs p)) (segs (map Lit s)).
Proof.
  induction k as [|k IH]; intros s Hk F; [lia|]. destruct s as [|c s]; cbn in Hk; [lia|]. destruct (is_word c) eqn:Hc; [|lia].
  cbn [map segs]. rewrite word_not_slash by done. cbn [drop] in F. destruct k as [|k].
  - rewrite drop_0 in F. revert F. destruct (segs_cons p) as (h & l & ->), (segs_cons (map Lit s)) as (h' & l' & ->). cbn. intros [_ Hl]%list.Forall2_cons. by constructor.
  - apply fits_group. apply IH; [lia|done].
Qed.
Lemma first_some_elem {A} (l : list (option A)) a : first_some l = Some a -> Some a ∈ l.
Proof. induction l as [|[x|] l IH]; cbn; [done| |]; intros E; [injection E as ->; left|right; auto]. Qed.
Lemma match_fits p : forall s v, match_path p s = Some v -> Forall2 fits (segs p) (segs (map Lit s)).
Proof.
  induction p as [|[c|] p IH]; intros s v E; cbn [match_path] in E.
  - destruct s; [|done]. cbn. by repeat constructor.
  - destruct s as [|x s]; [done|]. destruct (Z.eqb_spec x c) as [->|]; [|done]. cbn [map segs]. destruct (c =? 47).
    + constructor; [by intros _|eauto].
    + apply fits_cons_head. eauto.
  - apply first_some_elem, list_elem_of_fmap in E as (k & E & Hk). rewrite elem_of_reverse, elem_of_seq in Hk.
    destruct (match_path p (drop k s)) as [v'|] eqn:M; [|done]. cbn [segs]. apply (segs_words p k); [lia|eauto].
Qed.
(** Two expressions with literal segments that differ match no common text. *)
Definition clash (p q : list piece) : bool :=
  negb (length (segs p) =? length (segs q))%nat
  || existsb (fun ab => forallb literal ab.1 && forallb literal ab.2 && negb (bool_decide (ab.1 = ab.2))) (zip (segs p) (segs q)).
Lemma fits_agree : forall l m t, Forall2 fits l t -> Forall2 fits m t ->
  negb (length l =? length m)%nat || existsb (fun ab => forallb literal ab.1 && forallb literal ab.2 && negb (bool_decide (ab.1 = ab.2))) (zip l m) = false.
Proof.
  induction l as [|x l IH]; intros m t F G.
  - inversion F; subst. by inversion G; subst.
  - inversion F as [|? y ? t' Fx Fl]; subst. inversion G as [|z ? m' ? Gz Gm]; subst. cbn. specialize (IH m' t' Fl Gm). apply orb_false_iff in IH as [IH1 IH2].
    rewrite IH1, IH2, orb_false_r. cbn. destruct (forallb literal x) eqn:Ex; [|done]. destruct (forallb literal z) eqn:Ez; [|done].
    rewrite (Fx Ex), (Gz Ez). cbn. by rewrite bool_decide_eq_true_2.
Qed.
Lemma match_no_clash p q s v w : match_path p s = Some v -> match_path q s = Some w -> clash p q = false.
Proof. intros Ep Eq. eapply fits_agree; eauto using match_fits. Qed.

(** * Paths with arguments *)

Fixpoint join (args : list bytes) : bytes := match args with [] => [] | [a] => a | a :: l => a ++ 47 :: join l end.
Fixpoint groups (n : nat) : list piece := match n with 0%nat => [] | 1%nat => [Group] | S n => Group :: Lit 47 :: groups n end.
Definition word (a : bytes) : Prop := a <> [] /\ Forall (fun c => is_word c = true) a.
(** The text before the first colon of a path and the names behind colons. *)
Fixpoint fixed (path : bytes) : bytes := match path with [] => [] | c :: path => if c =? 58 then [] else c :: fixed path end.
Definition arg_names (path : bytes) : list bytes := snd (compile_path None path).
Definition url (path : bytes) (args : list bytes) : bytes := fixed path ++ join args.

Lemma match_lits g a : forall p, match_path (map Lit p ++ g) (p ++ a) = match_path g a.
Proof. induction p as [|c p IH]; [done|]. cbn. by rewrite Z.eqb_refl. Qed.
Lemma run_length_word a rest : Forall (fun c => is_word c = true) a -> run_length rest = 0%nat -> run_length (a ++ rest) = length a.
Proof. intros F R. induction F as [|c a Hc F IH]; [done|]. cbn. by rewrite Hc, IH. Qed.
Lemma match_group p a rest v : word a -> run_length rest = 0%nat -> match_path p rest = Some v -> match_path (Group :: p) (a ++ rest) = Some (a :: v).
Proof.
  intros [Ha Fa] R E. cbn [match_path]. rewrite run_length_word by done. destruct a as [|c a]; [done|]. cbn [length]. rewrite seq_S, reverse_snoc. cbn [map].
  replace (1 + length a)%nat with (length (c :: a)) by (cbn; lia). rewrite take_app_length, drop_app_length, E. done.
Qed.
Lemma match_groups args : Forall word args -> match_path (groups (length args)) (join args) = Some args.
Proof.
  induction 1 as [|a args Ha F IH]; [done|]. destruct args as [|b args].
  - cbn [length groups join]. rewrite <- (app_nil_r a) at 1. by apply match_group.
  - change (groups (length (a :: b :: args))) with (Group :: Lit 47 :: groups (length (b :: args))).
    change (join (a :: b :: args)) with (a ++ 47 :: join (b :: args)). by apply match_group.
Qed.
Lemma slashes_word a : Forall (fun c => is_word c = true) a -> slashes a = 0%nat.
Proof. induction 1 as [|c a Hc F IH]; [done|]. cbn. by rewrite word_not_slash. Qed.
Lemma slashes_app a b : slashes (a ++ b) = (slashes a + slashes b)%nat.
Proof. induction a as [|c a IH]; [done|]. cbn. rewrite IH. lia. Qed.
Lemma slashes_join args : Forall word args -> slashes (join args) = pred (length args).
Proof.
  induction 1 as [|a args [_ Ha] F IH]; [done|]. destruct args as [|b args]; [by apply slashes_word|].
  change (join (a :: b :: args)) with (a ++ 47 :: join (b :: args)). rewrite slashes_app, slashes_word by done. cbn [slashes]. rewrite IH. done.
Qed.

(** The paths asked for with GET. *)
Definition get_paths : list bytes :=
  [Api_Getconnectioncount; Api_GetblockTxsByHeight; Api_Getblockbyheight; Api_Getblockbyhash; Api_Getblockheight; Api_Getblockhash; Api_GetTransactionPool;
   Api_Gettransaction; Api_Getasset; Api_GetContract; Api_GetUTXObyAddr; Api_GetUTXObyAsset; Api_GetBalanceByAddr; Api_GetBalancebyAsset; Api_GetStateUpdate;
   Api_OauthServerUrl; Api_NoticeServerUrl; Api_Restart].
(** The tables, checked by evaluation: a path is its fixed part and groups, no
    two paths match a common text, and the substring tests find each entry. *)
Definition well_formed (path : bytes) : bool :=
  bool_decide (compile_path None path = (map Lit (fixed path) ++ groups (length (arg_names path)), arg_names path))
  && forallb (fun q => bool_decide (q = path) || clash (fst (compile_path None q)) (fst (compile_path None path))) get_paths
  && match arg_names path with
     | [] => bool_decide (getPath (fixed path) = path)
     | _ :: names => bool_decide (path = Api_Getasset) || clear (fixed path) (length names) && bool_decide (expected_path (fixed path) = Some path)
     end.
Lemma get_paths_well_formed path : path ∈ get_paths -> well_formed path = true.
Proof.
  intros Hp. assert (T : forallb well_formed get_paths = true) by (vm_compute; reflexivity). rewrite forallb_forall in T. apply T. by apply list_elem_of_In.
Qed.
Lemma post_paths_well_formed path : path ∈ postMap ->
  getPath path = path /\ compile_path None path = (map Lit path, []) /\ forallb (fun q => bool_decide (q = path) || clash (fst (compile_path None q)) (map Lit path)) postMap = true.
Proof.
  intros Hp. assert (T : forallb (fun path => bool_decide (getPath path = path) && bool_decide (compile_path None path = (map Lit path, []))
    && forallb (fun q => bool_decide (q = path) || clash (fst (compile_path None q)) (map Lit path)) postMap) postMap = true) by (vm_compute; reflexivity).
  rewrite forallb_forall in T. specialize (T path (proj1 (list_elem_of_In _ _) Hp)). rewrite !andb_true_iff, !bool_decide_eq_true in T. tauto.
Qed.

(** The entry whose handler answers a path and its arguments. *)
Definition answering (path : bytes) (args : list bytes) : bytes := if bool_decide (path = Api_Getasset) then asset_entry (join args) else path.
Lemma getPath_url path args : path ∈ get_paths -> length args = length (arg_names path) -> Forall word args ->
  getPath (url path args) = answering path args.
Proof.
  intros Hp Hl Hw. pose proof (get_paths_well_formed path Hp) as W. unfold well_formed in W. rewrite !andb_true_iff in W. destruct W as [_ W]. unfold url, answering.
  pose proof (slashes_join args Hw) as Sj. rewrite Hl in Sj. destruct (bool_decide_reflect (path = Api_Getasset)) as [->|D].
  { apply getPath_asset. exact Sj. }
  destruct (arg_names path) as [|n names].
  - destruct args; [|done]. cbn [join]. rewrite app_nil_r. by apply bool_decide_eq_true in W.
  - cbn [orb] in W. apply andb_true_iff in W as [C E]. apply bool_decide_eq_true in E.
    rewrite getPath_clear; [by rewrite E|]. by rewrite Sj.
Qed.
(** The first route that matches is the one of the path, in whatever order the
    routes were added. *)
Lemma Try_found m path p names text values others : forall paths, compile_path None path = (p, names) -> match_path p text = Some values ->
  path ∈ paths -> (forall q, q ∈ paths -> q = path \/ clash (fst (compile_path None q)) p = true) ->
  Try (map (router_add m) paths ++ others) text m = Some (parseParams names values).
Proof.
  intros paths Ec Em. induction paths as [|q paths IH]; intros Hp Hq; [by apply elem_of_nil in Hp|]. cbn [map app Try].
  destruct (compile_path None q) as [pq nq] eqn:Eq. replace (router_add m q) with (mkRoute m pq nq) by (unfold router_add; by rewrite Eq).
  cbn [rt_Method rt_Path RegisteredParams]. rewrite bool_decide_eq_true_2 by done. cbn [negb].
  destruct (Hq q) as [->|C]; [left| |].
  - rewrite Ec in Eq. injection Eq as <- <-. by rewrite Em.
  - destruct (match_path pq text) as [v|] eqn:Ev.
    + rewrite Eq in C. cbn in C. by rewrite (match_no_clash _ _ _ _ _ Ev Em) in C.
    + destruct (decide (q = path)) as [->|Hn].
      * rewrite Ec in Eq. injection Eq as <- <-. congruence.
      * apply IH; [by apply elem_of_cons in Hp as [->|]|]. intros q' Hq'. apply Hq. by right.
Qed.
Lemma Try_other m m' text others : forall paths, m <> m' -> Try (map (router_add m) paths ++ others) text m' = Try others text m'.
Proof.
  intros paths Hm. induction paths as [|q paths IH]; [done|]. cbn [map app Try].
  destruct (compile_path None q) as [pq nq] eqn:Eq. replace (router_add m q) with (mkRoute m pq nq) by (unfold router_add; by rewrite Eq).
  cbn [rt_Method]. by rewrite bool_decide_eq_false_2.
Qed.

Section Served.
Context {DB : Type} `{IStore DB} `{IIterator DB} `{IBase58} `{ICrypto}.
Context (cfg : Config) (nc : NetConfig) (ripemd160 : bytes -> bytes).

Context (others : http_method -> bytes -> gmap bytes json -> rpcM (DB := DB) response).

Lemma get_handler_path path h : (path, h) ∈ getMap (DB := DB) cfg others -> path ∈ get_paths /\ get_handler (DB := DB) cfg others path = Some h.
Proof.
  intros Hin. split; [exact (list_elem_of_fmap_2 fst _ _ Hin)|]. unfold getMap in Hin.
  repeat (apply elem_of_cons in Hin as [E|Hin]; [injection E as -> ->; reflexivity|]). by apply elem_of_nil in Hin.
Qed.

End Served.

