(* ===== verification/Answers.v ===== *)
(** The answers of a node: the two interfaces agree, a transaction sent reaches
    the pool and the neighbours, merged mining gets its block back. *)

From S2P Require Import Prelude Sha256 Serialization Common Fixed64 Transaction Merkle AuxPow Block.
From S2P Require Import Store Utxo Difficulty MedianTime Vm Address PubKey Contract Message Link Peers Validator Wallet Sdk WalletCoins WalletFile.
From S2P Require Import TxPool Blockchain BlockTree BestChain ChainSelection Ledger Pow Mining Node Handlers Sync Network Requests Rpc Rest.

(** * The hashes blocks are stored under *)

Section Keyed.
Context {DB : Type} `{IStore DB}.

(** The block read from the entry of a hash, before its transactions are. *)
Definition header_at (db : DB) (h : Uint256) : option Block :=
  data ← db_Get db (hash_key DATA_Header h);
  '((_, e), r) ← ReadUint64 (mkReader BytesReader data);
  if is_err e then None else
  '((b, e), _) ← FromTrimmedData new_Block r;
  if is_err e then None else Some b.
(** Every block is stored under its own hash. *)
Definition hash_keyed (db : DB) : Prop := forall h b, header_at db h = Some b -> Block_Hash b = h.

Lemma hash_keyed_GetBlock db h b : hash_keyed db -> GetBlock db h = Some (Some b, None) -> Block_Hash b = h.
Proof.
  intros K E. unfold GetBlock in E. specialize (K h). unfold header_at in K. destruct (db_Get db _) as [data|]; [|done]. cbn [mbind option_bind] in K.
  destruct (ReadUint64 _) as [[[v e] r]|]; [|done]. cbn [mbind option_bind] in K, E. destruct (is_err e); [by destruct e|].
  destruct (FromTrimmedData _ _) as [[[b0 e0] r0]|]; [|done]. cbn [mbind option_bind] in K, E. destruct (is_err e0); [by destruct e0|].
  destruct (load_transactions _ _) as [[txs e1]|]; [|done]. cbn [mbind option_bind] in E. destruct (is_err e1); [by destruct e1|].
  injection E as <-. exact (K b0 eq_refl).
Qed.

(** Saving a readable block and rolling one back keep blocks under their
    hashes. *)
Lemma hash_key_inj p h h' : hash_key p h = hash_key p h' -> h = h'.
Proof. unfold hash_key. by intros [= ?]. Qed.
Lemma plain_header_key h : plain_key (hash_key DATA_Header h).
Proof. split; [by intros [= ?]|]. cbn. set_solver. Qed.
Lemma hash_keyed_persist `{!IStoreLaws DB} db b db' : readable_block b -> hash_keyed db -> persist db b = Some db' -> hash_keyed db'.
Proof.
  intros (W & Hh & Hn & Hr) K E h b1. destruct (decide (h = Block_Hash b)) as [->|N].
  - destruct (persist_trimmed db db' b W E _ Hr eq_refl) as (trimmed & r & Eg & Ed). unfold header_at. rewrite Eg. cbn [mbind option_bind].
    rewrite ReadUint64_reads by done. cbn [mbind option_bind is_err]. rewrite Ed. cbn. intros [= <-]. by rewrite Hh.
  - intros E1. apply K. unfold header_at in *. rewrite (persist_untouched db b db') in E1; [exact E1|done|done|apply plain_header_key|].
    intros Hk. apply N. apply elem_of_cons in Hk as [Hk|Hk]; [by apply hash_key_inj in Hk|]. exfalso. revert Hk. clear.
    intros [Hk|Hk]%elem_of_cons; [done|]. apply list_elem_of_In, in_concat in Hk as (ks & Hks & Hk). apply in_map_iff in Hks as (t & <- & _).
    unfold tx_keys in Hk. destruct Hk as [Hk|Hk]; [done|]. repeat case_match; cbn in Hk; naive_solver.
Qed.
Lemma hash_keyed_rollback `{!IStoreLaws DB} db b db' : wf_Block b -> hash_keyed db -> rollback_db db b = Some db' -> hash_keyed db'.
Proof.
  intros W K E h b1 E1. apply K. unfold header_at in *. rewrite (rollback_get db b db' _ W E (plain_header_key h)) in E1. by case_decide.
Qed.
End Keyed.

(** * The two interfaces *)

Section Agree.
Context {DB : Type} `{IStore DB} `{IIterator DB} `{IBase58} `{ICrypto}.
Context (cfg : Config) (nc : NetConfig) (ripemd160 : bytes -> bytes).

(** Both requests fail in the same way, or leave the same server and answers
    that say the same. *)
Definition agree (same : answer -> response -> Prop) (a : outcome (rpc (DB := DB) * answer)) (b : outcome (rpc (DB := DB) * response)) : Prop :=
  match a, b with
  | Ok (s, a), Ok (s', r) => s = s' /\ same a r
  | Panic, Panic | Unmodelled, Unmodelled => True
  | _, _ => False
  end.

Inductive same_sent : answer -> response -> Prop :=
  | sent_hash h u : same_sent (AText h) (mkResponse (VText h) SUCCESS u)
  | sent_refused code : code <> ErrNoError -> same_sent (AText (ErrCode_Error code)) (ResponsePack (ErrCode_value code))
  | sent_bad_text : same_sent DnaRpcInvalidParameter (ResponsePack INVALID_PARAMS)
  | sent_bad_bytes : same_sent DnaRpcInvalidTransaction (ResponsePack INVALID_TRANSACTION).
Inductive same_block : answer -> response -> Prop :=
  | block_found i : same_block (ABlock i) (success (VBlock i))
  | block_unknown : same_block DnaRpcUnknownBlock (ResponsePack UNKNOWN_BLOCK)
  | block_bad_text : same_block DnaRpcInvalidParameter (ResponsePack INVALID_PARAMS)
  | block_bad_hash : same_block DnaRpcInvalidTransaction (ResponsePack INVALID_TRANSACTION).

(** The two descriptions of a block are the same. *)
Lemma descriptions_agree bc b : GetBlockInfo bc b = block_info bc (Block_Hash b) b.
Proof.
  unfold GetBlockInfo, block_info. change (mapM (block_transaction bc b)) with (mapM (confirmed bc (bd_Timestamp (blk_data b)) (bd_Height (blk_data b)))).
  destruct (mapM _ _) as [trans|]; [|done]. cbn [mbind option_bind]. destruct (Transactions b !! 0%nat) as [cb|]; [|done]. cbn [mbind option_bind].
  destruct (payload cb) as [p|]; [|done]. by destruct p.
Qed.

Lemma rpc_bind_run {A B} (m : rpcM (DB := DB) A) (k : A -> rpcM (DB := DB) B) s s' a : m s = Ok (s', a) -> (m ≫= k) s = k a s'.
Proof. intros E. unfold mbind, rpcM_bind. by rewrite E. Qed.
Lemma must_bind {A B} (o : option A) (k : A -> rpcM (DB := DB) B) s : (must o ≫= k) s = match o with Some a => k a s | None => Panic end.
Proof. by destruct o. Qed.

Definition one_field (name : string) (v : bytes) : gmap bytes json := {[ str name := JStr v ]}.
Lemma field_one name v : field (one_field name v) name = Some v.
Proof. unfold field, one_field. by rewrite lookup_singleton_eq. Qed.

Lemma raw_transaction_agrees txt s :
  agree same_sent (sendRawTransaction cfg nc ripemd160 [JStr txt] s) (SendRawTransaction cfg nc ripemd160 (one_field "Data" txt) s).
Proof.
  unfold sendRawTransaction, SendRawTransaction. rewrite field_one. destruct (HexStringToBytes txt) as [hex e]. destruct e as [e|]; cbn [is_err]; [split; [done|constructor]|].
  rewrite !must_bind. destruct (Tx_Deserialize new_Transaction _) as [[[txn e] r]|]; [|done]. destruct e as [e|]; cbn [is_err]; [split; [done|constructor]|].
  unfold sent. rewrite !must_bind. destruct (hash_cached txn) as [[t hash]|]; [|done]. unfold mbind, rpcM_bind.
  destruct (VerifyAndSendTx cfg nc ripemd160 t s) as [[s' code]| |]; [|done|done]. case_bool_decide as E; cbn [negb]; (split; [done|]); by constructor.
Qed.
Lemma rpc_bind_ok {A B} (m : rpcM (DB := DB) A) (k : A -> rpcM (DB := DB) B) s :
  (m ≫= k) s = match m s with Ok (s', a) => k a s' | Panic => Panic | Unmodelled => Unmodelled end.
Proof. done. Qed.
Lemma find_block_text txt (s : rpc (DB := DB)) : find_block (JStr txt) s =
  match text_hash txt with
  | None => Panic
  | Some (inr _) => Ok (s, inr DnaRpcInvalidParameter)
  | Some (inl (h, e)) => Ok (s, if is_err e then inr DnaRpcInvalidTransaction else inl h)
  end.
Proof. unfold find_block, chain, look. rewrite rpc_bind_ok. cbn beta iota. rewrite must_bind. by destruct (text_hash txt) as [[[h e]|e]|]. Qed.
Lemma hash_param_text txt bad (s : rpc (DB := DB)) : hash_param txt bad s =
  match text_hash txt with
  | None => Panic
  | Some (inr _) => Ok (s, inr (ResponsePack INVALID_PARAMS))
  | Some (inl (h, e)) => Ok (s, if is_err e then inr (ResponsePack bad) else inl h)
  end.
Proof. unfold hash_param. rewrite must_bind. by destruct (text_hash txt) as [[[h e]|e]|]. Qed.

(** The block of a hash, as both interfaces look it up. *)
Lemma block_lookup_agrees h s : hash_keyed (cs_db (bc_Store (w_chain (rpc_node s)))) ->
  agree same_block
    ((bc ← chain; '(b, e) ← must (GetBlock (cs_db (bc_Store bc)) h); if is_err e then mret DnaRpcUnknownBlock else b ← must b; i ← must (block_info bc h b); mret (ABlock i)) s)
    (rest_getBlock h false s).
Proof.
  intros K. unfold rest_getBlock, chain, look, must, mret, rpcM_ret, mbind, rpcM_bind. set (bc := w_chain (rpc_node s)) in *. cbn beta iota.
  destruct (GetBlock (cs_db (bc_Store bc)) h) as [[b e]|] eqn:Eb; [|done]. destruct e as [e|]; cbn [is_err]; [split; [done|constructor]|].
  destruct b as [b|]; [|done]. rewrite descriptions_agree, (hash_keyed_GetBlock _ h b K Eb).
  destruct (block_info bc h b); [|done]. split; [done|constructor].
Qed.
Lemma block_by_hash_agrees txt s : hash_keyed (cs_db (bc_Store (w_chain (rpc_node s)))) -> txt <> [] ->
  agree same_block (getBlock [JStr txt] s) (GetBlockByHash (one_field "Hash" txt) s).
Proof.
  intros K Hne. unfold getBlock, GetBlockByHash, text_field. rewrite must_bind, field_one. destruct txt as [|c txt]; [done|]. cbn [length Nat.eqb].
  rewrite rpc_bind_ok, find_block_text, rpc_bind_ok, hash_param_text. destruct (text_hash (c :: txt)) as [[[h e]|e]|]; [|split; [done|constructor]|done].
  destruct e as [e|]; cbn [is_err]; [split; [done|constructor]|].
  assert (Er : raw_asked (one_field "Hash" (c :: txt)) = false) by (unfold raw_asked, field, one_field; by rewrite lookup_singleton_ne by done).
  rewrite Er. by apply block_lookup_agrees.
Qed.

(** C35: The two interfaces of a node agree.  A raw transaction sent over either is
    checked, pooled and broadcast alike, the node ends in the same state, and the
    answers say the same.  In a store that has its blocks under their own hashes, a
    block asked for by its hash in a text that is not empty is answered alike: the
    same description, hash, transactions, confirmations and miner included, or the
    same refusal.  On the empty text they differ: one says that the transaction is
    invalid, the other that the parameter is. *)
Theorem interfaces_agree (txt : bytes) (s : rpc (DB := DB)) :
  agree same_sent (sendRawTransaction cfg nc ripemd160 [JStr txt] s) (SendRawTransaction cfg nc ripemd160 (one_field "Data" txt) s) /\
  (hash_keyed (cs_db (bc_Store (w_chain (rpc_node s)))) -> txt <> [] ->
     agree same_block (getBlock [JStr txt] s) (GetBlockByHash (one_field "Hash" txt) s)) /\
  getBlock [JStr []] s = Ok (s, DnaRpcInvalidTransaction) /\
  GetBlockByHash (one_field "Hash" []) s = Ok (s, ResponsePack INVALID_PARAMS).
Proof. split; [apply raw_transaction_agrees|]. split; [apply block_by_hash_agrees|]. split; reflexivity. Qed.

(** * A transaction sent *)

Definition broadcast_target (pn : positive * node) : bool := (nd_state pn.2 =? ESTABLISH) && nd_relay pn.2.
Definition nodes_connected (w : world DB) : Prop := forall p n, w_heap w !! p = Some n -> nd_state n = ESTABLISH -> nd_open n = true.

Lemma Xmit_run m buf l (w : world DB) : w_heap w !! w_local w = Some l -> relay_msg nc m = Some (buf, None) -> nodes_connected w ->
  exists w1, count_txn m w = Ok (w1, inl tt) /\ w_tables w1 = w_tables w /\ w_chain w1 = w_chain w /\
    Xmit nc m w = Ok (set_w_out (w_out w ++ map (fun pn => (pn.1, buf)) (List.filter broadcast_target (neighbours w1))) w1, inl tt).
Proof.
  intros Hl Hb Ho. destruct (count_txn_run m l w Hl) as (w1 & E1 & Eo & Et & Ec & Eh). exists w1. split; [done|]. split; [done|]. split; [done|].
  unfold Xmit. rewrite Hb. erewrite net_bind_run by apply need_run. cbn beta iota. erewrite net_bind_run by apply check_run. erewrite net_bind_run by exact E1.
  unfold Broadcast. erewrite net_bind_run by apply ask_run.
  rewrite (for_nodes_sends broadcast_target buf); [by rewrite Eo|]. apply list.Forall_forall. intros [p n] Hn Ht. exists n. pose proof (neighbours_heap _ _ _ Hn) as En.
  split; [done|]. unfold broadcast_target in Ht. cbn [snd] in Ht. apply andb_true_iff in Ht as [Ht _]. apply Z.eqb_eq in Ht. rewrite Ht. split; [done|].
  specialize (Eh p). rewrite En in Eh. destruct (w_heap w !! p) as [n0|] eqn:E0; [|done]. injection Eh as E1s E2 _ _. rewrite E2. apply (Ho p n0 E0). congruence.
Qed.

(** A transaction sent as text: the server hands it to the pool.  When the pool
    takes it, the transaction is written to every established neighbour that
    relays and the answer is its hash; when the pool refuses it, nothing is
    written and the answer names the reason. *)
Theorem raw_transaction_sent (t : Transaction) (enc buf : bytes) (l : node) (s : rpc (DB := DB)) (pool : TXNPool) (code : ErrCode) :
  let w := rpc_node s in let w' := set_w_tables (set_lt_pool pool (w_tables w)) w in
  wf_Tx t -> Tx_Serialize t = Some (enc, None) -> wf_bytes enc ->
  w_heap w !! w_local w = Some l -> nodes_connected w -> relay_msg nc (RTxn (hashed t)) = Some (buf, None) ->
  AppendTxnPool (H := store_ledger (bc_Store (w_chain w))) cfg ripemd160 (lt_pool (w_tables w)) (hashed t) = Ok (pool, code) ->
  if bool_decide (code = ErrNoError)
  then exists w1, count_txn (RTxn (hashed t)) w' = Ok (w1, inl tt) /\
    sendRawTransaction cfg nc ripemd160 [JStr (BytesToHexString enc)] s =
      Ok (set_rpc_node (set_w_out (w_out w ++ map (fun pn => (pn.1, buf)) (List.filter broadcast_target (neighbours w1))) w1) s, AText (hash_text (tx_hash_of t)))
  else sendRawTransaction cfg nc ripemd160 [JStr (BytesToHexString enc)] s = Ok (set_rpc_node w' s, AText (ErrCode_Error code)).
Proof.
  intros w w' Wt Es We Hl Ho Hb Ea. destruct (Tx_Deserialize_reads t Wt) as (enc' & Es' & R). rewrite Es in Es'. injection Es' as <-.
  pose proof (R BytesReader [] I) as R'. rewrite app_nil_r in R'.
  assert (E : sendRawTransaction cfg nc ripemd160 [JStr (BytesToHexString enc)] s = sent cfg nc ripemd160 [] t s).
  { unfold sendRawTransaction. rewrite hex_roundtrip by done. cbn [is_err]. rewrite must_bind, R'. done. }
  rewrite E. unfold sent. rewrite must_bind, (hash_cached_wf t Wt). cbn beta iota.
  assert (V : VerifyAndSendTx cfg nc ripemd160 (hashed t) s =
    (if negb (bool_decide (code = ErrNoError)) then mret code else r ← on_node (Xmit nc (RTxn (hashed t))); mret (match r with inl _ => ErrNoError | inr _ => ErrXmitFail end)) (set_rpc_node w' s)).
  { unfold VerifyAndSendTx, chain, look, run. unfold mbind at 1 2 3 4, rpcM_bind at 1 2 3 4. fold w. rewrite Ea. reflexivity. }
  rewrite rpc_bind_ok, V. destruct (bool_decide (code = ErrNoError)) eqn:Ec; cbn [negb].
  - destruct (Xmit_run (RTxn (hashed t)) buf l w' Hl Hb Ho) as (w1 & E1 & _ & _ & Ex). exists w1. split; [done|].
    rewrite rpc_bind_ok. unfold on_node. cbn [rpc_node set_rpc_node]. rewrite Ex. done.
  - unfold mret at 1, rpcM_ret at 1. rewrite Ec. done.
Qed.
End Agree.

(** * Merged mining *)

Section Aux.
Context {DB : Type} `{IStore DB} `{IBase58} `{ICrypto}.
Context (cfg : Config) (conf : PowConfiguration) (ripemd160 : bytes -> bytes).

Lemma generated_plain bc rand now pool addr b : GenerateBlock cfg conf bc rand now pool addr = Ok (Some b, None) -> blk_hash b = None /\ bd_AuxPow (blk_data b) = new_AuxPow.
Proof.
  unfold GenerateBlock. intros E. apply outcome_bind_Ok in E as (cb & _ & E). destruct cb as [cb|]; [|done]. destruct (chain_nodes _ _) as [|best ancestors]; [done|].
  repeat (apply outcome_bind_Ok in E as (? & _ & E); try match goal with x : _ * _ |- _ => destruct x end). injection E as <- _. done.
Qed.

(** The block a request for merged mining was answered with. *)
Lemma createAuxBlock_run now rand params (s s1 : rpc (DB := DB)) ab : createAuxBlock cfg conf now rand params s = Ok (s1, AAuxBlock ab) ->
  exists b, rpc_MsgBlock s1 !! ab_Hash ab = Some b /\ bd_AuxPow (blk_data b) = new_AuxPow /\ blk_hash b = Some (Blockdata_Hash (blk_data b)) /\
    ab_Hash ab = BytesToHexString (Block_Hash b) /\ ab_PreviousBlockHash ab = BytesToHexString (CurrentBlockHash (w_chain (rpc_node s))) /\ rpc_node s1 = rpc_node s.
Proof.
  unfold createAuxBlock, generateAuxBlock, node_height, chain, look, put, must, run, mret, rpcM_ret, mbind, rpcM_bind, id. cbn beta iota.
  destruct (w_heap (rpc_node s) !! w_local (rpc_node s)) as [n|] eqn:En; [|done]. cbn beta iota.
  set (cond := (_ || _ || _)). destruct cond; [|done]. destruct (negb (PreChainHeight s =? nd_height n)); cbn beta iota;
    (destruct (snd (CollectTransactions _ _ _) =? 0); [done|]); cbn [rpc_node set_Pre];
    destruct (GenerateBlock _ _ _ _ _ _ _) as [[b e]| |] eqn:Eg; try done; (destruct e as [e|]; cbn [is_err]; [done|]); (destruct b as [b|]; [|done]);
    destruct (generated_plain _ _ _ _ _ _ Eg) as [Eh Ea]; destruct (params !! 0%nat) as [p|]; try done; destruct p; try done; cbn [rpc_node set_Pre set_rpc_MsgBlock set_rpc_PayToAddr];
    rewrite En; intros [= <- <-]; (eexists; split; [apply lookup_insert_eq|]); cbn [blk_data blk_hash ab_Hash ab_PreviousBlockHash]; unfold Block_Hash; rewrite Eh; done.
Qed.

Lemma submitAuxBlock_run now key ap enc b (s : rpc (DB := DB)) : rpc_MsgBlock s !! key = Some b -> bd_AuxPow (blk_data b) = new_AuxPow ->
  wf_AuxPow ap -> AuxPow_Serialize ap = Some enc -> wf_bytes enc ->
  submitAuxBlock cfg ripemd160 now [JStr key; JStr (BytesToHexString enc)] s =
    match AddBlock cfg ripemd160 now (with_AuxPow b ap) (w_chain (rpc_node s)) with
    | Ok (bc, inl _) => Ok (set_rpc_MsgBlock ∅ (set_rpc_node (set_w_chain bc (rpc_node s)) s), ABool true)
    | Ok (bc, inr _) => Ok (set_rpc_MsgBlock (<[key := with_AuxPow b ap]> (rpc_MsgBlock s)) (set_rpc_node (set_w_chain bc (rpc_node s)) s), DnaRpcInternalError)
    | Panic => Panic
    | Unmodelled => Unmodelled
    end.
Proof.
  intros Eb Ea Wa Es We. destruct (AuxPow_reads ap Wa) as (enc' & Es' & R). rewrite Es in Es'. injection Es' as <-.
  pose proof (R BytesBuffer [] I) as R'. rewrite app_nil_r in R'.
  unfold submitAuxBlock, look, put, must, mret, rpcM_ret, mbind, rpcM_bind. cbn [lookup list_lookup]. rewrite Eb, Ea, hex_roundtrip by done. cbn [fst]. rewrite R'. cbn beta iota.
  unfold add_block, on_node, on_chain. cbn [rpc_node set_rpc_MsgBlock]. by destruct (AddBlock _ _ _ _ _) as [[bc [x|e]]| |].
Qed.

(** C36: Merged mining gets its block back.  A request for a block is answered with
    the hash of a block the server keeps, made on top of the best block; the
    parent chain's proof for it, sent back with that hash, makes the server hand
    to the chain exactly that block with the proof in it - the proof does not
    change the hash.  When the chain takes it every block kept is forgotten;
    when it does not, the block stays, with the proof. *)
Theorem merged_mining (now rand : Z) (params : list json) (s s1 : rpc (DB := DB)) (ab : AuxBlock) :
  createAuxBlock cfg conf now rand params s = Ok (s1, AAuxBlock ab) ->
  exists b, rpc_MsgBlock s1 !! ab_Hash ab = Some b /\ ab_Hash ab = BytesToHexString (Blockdata_Hash (blk_data b)) /\
    ab_PreviousBlockHash ab = BytesToHexString (CurrentBlockHash (w_chain (rpc_node s))) /\ rpc_node s1 = rpc_node s /\
    forall now2 ap enc (s2 : rpc (DB := DB)), wf_AuxPow ap -> AuxPow_Serialize ap = Some enc -> wf_bytes enc -> rpc_MsgBlock s2 !! ab_Hash ab = Some b ->
      Block_Hash (with_AuxPow b ap) = Blockdata_Hash (blk_data b) /\ Blockdata_Hash (blk_data (with_AuxPow b ap)) = Blockdata_Hash (blk_data b) /\
      submitAuxBlock cfg ripemd160 now2 [JStr (ab_Hash ab); JStr (BytesToHexString enc)] s2 =
        match AddBlock cfg ripemd160 now2 (with_AuxPow b ap) (w_chain (rpc_node s2)) with
        | Ok (bc, inl _) => Ok (set_rpc_MsgBlock ∅ (set_rpc_node (set_w_chain bc (rpc_node s2)) s2), ABool true)
        | Ok (bc, inr _) => Ok (set_rpc_MsgBlock (<[ab_Hash ab := with_AuxPow b ap]> (rpc_MsgBlock s2)) (set_rpc_node (set_w_chain bc (rpc_node s2)) s2), DnaRpcInternalError)
        | Panic => Panic
        | Unmodelled => Unmodelled
        end.
Proof.
  intros E. destruct (createAuxBlock_run now rand params s s1 ab E) as (b & Eb & Ea & Eh & Ek & Ep & En). exists b. split; [done|].
  split; [rewrite Ek; unfold Block_Hash; by rewrite Eh|]. split; [done|]. split; [done|].
  intros now2 ap enc s2 Wa Es We E2. split; [unfold Block_Hash, with_AuxPow; cbn [blk_hash]; by rewrite Eh|]. split; [done|]. by apply submitAuxBlock_run.
Qed.
End Aux.

(** ** A node that is asked *)

Definition sent_tx : Transaction := signed_spend [mkOutput (repeat 1 32) 900 zero160].
Lemma wf_sent_tx : wf_Tx sent_tx.
Proof.
  constructor; [eexists; split; [reflexivity|]; by vm_compute|constructor| | | |done|..].
  - constructor; [|constructor]. by_decision.
  - constructor; [|constructor]. by_decision.
  - constructor; [|constructor]. by_decision.
  - by_decision.
  - by_decision.
  - done.
Qed.
(** A node whose store holds the block of [Store.v]. *)
Definition saved_db : gmap bytes bytes := default ∅ (persist ∅ stored_block).
Definition told : rpc (DB := gmap bytes bytes) := mkRpc (set_w_chain (set_db saved_db small_main) befriended) None NewPowService [] ∅ 0 0 0 0.
Lemma told_keyed : hash_keyed (cs_db (bc_Store (w_chain (rpc_node told)))).
Proof.
  change (hash_keyed saved_db). pose proof stored_block_persists as P. unfold saved_db.
  destruct (persist (∅ : gmap bytes bytes) stored_block) as [db|] eqn:E; [|discriminate P]. apply (hash_keyed_persist ∅ stored_block); [|intros h b Eh; discriminate Eh|exact E].
  split; [exact wf_stored_block|]. split; [vm_compute; reflexivity|]. split; [|vm_compute; reflexivity].
  constructor; [apply not_elem_of_nil|constructor].
Qed.
Definition tells_block (a : outcome (rpc (DB := gmap bytes bytes) * answer)) : bool := match a with Ok (_, ABlock _) => true | _ => false end.
Lemma tells_block_spec a : tells_block a = true -> exists s i, a = Ok (s, ABlock i).
Proof. destruct a as [[s []]| |]; try discriminate. eauto. Qed.
Lemma agree_block (a : outcome (rpc (DB := gmap bytes bytes) * answer)) b s i : agree same_block a b -> a = Ok (s, ABlock i) -> b = Ok (s, success (VBlock i)).
Proof.
  intros A ->. unfold agree in A. destruct b as [[s2 r]| |]; [|done..]. destruct A as [<- A]. by inversion A.
Qed.
Lemma interfaces_agree_witness : let txt := hash_text (Block_Hash stored_block) in
  exists s' i, getBlock [JStr txt] told = Ok (s', ABlock i) /\ GetBlockByHash (one_field "Hash" txt) told = Ok (s', success (VBlock i)).
Proof.
  cbn zeta. set (txt := hash_text (Block_Hash stored_block)).
  destruct (interfaces_agree (H2 := prefix_crypto) sample_cfg small_conf sample_ripemd txt told) as (_ & A & _).
  assert (L : length txt = 64%nat) by (vm_compute; reflexivity).
  specialize (A told_keyed ltac:(intros E; rewrite E in L; discriminate L)).
  assert (T : tells_block (getBlock [JStr txt] told) = true) by (vm_compute; reflexivity).
  destruct (tells_block_spec _ T) as (s' & i & E). exists s', i. split; [exact E|]. exact (agree_block _ _ _ _ A E).
Defined.
Definition asked_db : gmap bytes bytes := <[hash_key ST_Info (repeat 1 32) := Asset_Serialize (mkAsset [69; 76; 65] [] 8 0 0)]> (cs_db context_cs).
Definition asked : rpc (DB := gmap bytes bytes) := mkRpc (set_w_chain (set_db asked_db small_main) befriended) None NewPowService [] ∅ 0 0 0 0.
Definition asked_pool : TXNPool :=
  match AppendTxnPool (H := store_ledger (bc_Store (w_chain (rpc_node asked)))) (H0 := prefix_crypto) sample_cfg sample_ripemd pool_init (hashed sent_tx) with
  | Ok (p, _) => p | _ => pool_init end.

Definition sent_bytes : bytes := match Tx_Serialize sent_tx with Some (b, _) => b | None => [] end.
Definition sent_message : bytes := match relay_msg small_conf (RTxn (hashed sent_tx)) with Some (b, _) => b | None => [] end.
Lemma sent_bytes_ok : Tx_Serialize sent_tx = Some (sent_bytes, None).
Proof. vm_compute. reflexivity. Qed.
Lemma sent_bytes_wf : wf_bytes sent_bytes.
Proof. by_decision. Qed.
Lemma sent_message_ok : relay_msg small_conf (RTxn (hashed sent_tx)) = Some (sent_message, None).
Proof. vm_compute. reflexivity. Qed.
Lemma asked_local : is_Some (w_heap (rpc_node asked) !! w_local (rpc_node asked)).
Proof. vm_compute. by eexists. Qed.
Lemma asked_connected : nodes_connected (rpc_node asked).
Proof.
  intros p n Hp _. assert (F : map_Forall (fun _ n => nd_open n = true) (w_heap (rpc_node asked))) by by_decision. exact (F p n Hp).
Qed.
Lemma asked_accepts :
  AppendTxnPool (H := store_ledger (bc_Store (w_chain (rpc_node asked)))) (H0 := prefix_crypto) sample_cfg sample_ripemd (lt_pool (w_tables (rpc_node asked))) (hashed sent_tx) =
  Ok (asked_pool, ErrNoError).
Proof. vm_compute. reflexivity. Qed.

Lemma raw_transaction_sent_witness : exists s',
  sendRawTransaction (H2 := prefix_crypto) sample_cfg small_conf sample_ripemd [JStr (BytesToHexString sent_bytes)] asked = Ok (s', AText (hash_text (tx_hash_of sent_tx))).
Proof.
  destruct asked_local as [l Hl].
  pose proof (raw_transaction_sent (H2 := prefix_crypto) sample_cfg small_conf sample_ripemd sent_tx sent_bytes sent_message l asked asked_pool ErrNoError
    wf_sent_tx sent_bytes_ok sent_bytes_wf Hl asked_connected sent_message_ok asked_accepts) as T.
  cbv zeta in T. rewrite bool_decide_eq_true_2 in T by reflexivity. destruct T as (w1 & _ & E). eexists. exact E.
Defined.

(** A node with a transaction in its pool, asked for a block. *)
Definition mining_node : rpc (DB := gmap bytes bytes) := mkRpc (set_w_tables (set_lt_pool asked_pool (w_tables befriended)) befriended) None NewPowService [] ∅ 0 0 0 0.
Definition is_aux (r : outcome (rpc (DB := gmap bytes bytes) * answer)) : bool := match r with Ok (_, AAuxBlock _) => true | _ => false end.
Lemma aux_created : is_aux (createAuxBlock pow_cfg pow_conf 1506816000 1 [JStr FoundationAddress] mining_node) = true.
Proof. vm_compute. reflexivity. Qed.
Lemma merged_mining_witness : exists s1 ab b, createAuxBlock pow_cfg pow_conf 1506816000 1 [JStr FoundationAddress] mining_node = Ok (s1, AAuxBlock ab) /\
  rpc_MsgBlock s1 !! ab_Hash ab = Some b /\ ab_Hash ab = BytesToHexString (Blockdata_Hash (blk_data b)).
Proof.
  pose proof aux_created as E.
  destruct (createAuxBlock pow_cfg pow_conf 1506816000 1 [JStr FoundationAddress] mining_node) as [[s1 a]| |] eqn:Ec; [|discriminate E|discriminate E].
  destruct a; try discriminate E.
  destruct (merged_mining (H1 := prefix_crypto) pow_cfg pow_conf sample_ripemd _ _ _ _ _ _ Ec) as (x & E1 & E2 & _). exists s1, b, x.
  split; [reflexivity|]. split; [exact E1|exact E2].
Defined.
