(* ===== verification/Miner.v ===== *)
(** The goroutines of [consensus/pow/pow.go]: [DiscreteMining], which a request
    calls and which mines a number of blocks, and [cpuMining], which mines until
    it is halted; and what the service does when the store reports a block.

    A turn of their loops is a record of what it takes from outside: the random
    number and the clock, the ticks of the timer, how long one waits for the
    solver, and what other goroutines do to the server before the turn and while
    it solves.  The ZeroMQ socket is left out. *)

From S2P Require Import Prelude Sha256 Serialization Common Fixed64 Transaction Merkle AuxPow Block.
From S2P Require Import Store Utxo Difficulty MedianTime Vm Address PubKey Contract Message Link Peers Validator Wallet Sdk WalletCoins WalletFile.
From S2P Require Import TxPool Blockchain BlockTree BestChain ChainSelection Ledger Pow Mining Node Handlers Sync Network Requests Rpc Rest Answers.

Section Miner.
Context {DB : Type} `{IStore DB} `{IBase58} `{ICrypto}.
Context (cfg : Config) (nc : NetConfig) (conf : PowConfiguration) (ripemd160 : bytes -> bytes).
Abbreviation rpcM := (rpcM (DB := DB)).
Abbreviation rpc := (rpc (DB := DB)).

Record turn := mkTurn {
  tu_rand : Z; tu_start : Z; tu_end : Z; tu_tick : nat -> option Uint256; tu_fuel : nat; tu_quit : bool;
  tu_before : rpc -> rpc; tu_during : rpc -> rpc }.

Definition BroadcastBlock (b : Block) : rpcM unit := _ ← on_node (Xmit nc (RBlock b)); mret tt.

(** The first half of a turn: [None] while the node is behind its neighbours or
    when no block can be made. *)
Definition prepare_block (t : turn) : rpcM (option Block) :=
  behind ← look (fun s => needSync (rpc_node s));
  if behind : bool then mret None else
  bc ← chain;
  addr ← look rpc_PayToAddr;
  pool ← look (fun s => lt_pool (w_tables (rpc_node s)));
  '(b, e) ← run (GenerateBlock cfg conf bc (tu_rand t) (tu_start t) (map snd (map_to_list (GetTxnPool cfg pool false))) addr);
  if is_err e then mret None else b ← must b; mret (Some b).

(** The second half.  [None]: the solver is still busy; [Some None]: no block
    came of it. *)
Definition mine_block (t : turn) (b : Block) : rpcM (option (option Block)) :=
  r ← must (SolveBlock (tu_fuel t) (tu_tick t) b);
  match r with
  | None => mret None
  | Some (false, _) => mret (Some None)
  | Some (true, b) =>
      _ ← put (tu_during t);
      added ← on_node (on_chain (submit_block cfg ripemd160 (tu_end t) b));
      match added with
      | inl true => _ ← BroadcastBlock b; mret (Some (Some b))
      | _ => mret (Some None)
      end
  end.
Definition discrete_turn (t : turn) : rpcM (option (option Block)) :=
  _ ← put (tu_before t);
  b ← prepare_block t;
  match b with None => mret (Some None) | Some b => mine_block t b end.

(** The loop: [i] blocks are mined, [blockHashes] has room for [n].  [None]: it
    is still going on when the turns are over.  A hash beyond the room panics. *)
Fixpoint discrete_loop (turns : list turn) (n i : Z) (blockHashes : list (option Uint256)) : rpcM (option (list (option Uint256))) :=
  match turns with
  | [] => mret None
  | t :: turns =>
      r ← discrete_turn t;
      match r with
      | None => mret None
      | Some None => discrete_loop turns n i blockHashes
      | Some (Some b) =>
          _ ← must (blockHashes !! Z.to_nat i);
          let blockHashes := <[Z.to_nat i := Some (Block_Hash b)]> blockHashes in
          let i := uint32 (i + 1) in
          if i =? n then _ ← put (fun s => set_rpc_Pow (DiscreteMining_end (rpc_Pow s)) s); mret (Some blockHashes)
          else discrete_loop turns n i blockHashes
      end
  end.
Definition DiscreteMining (turns : list turn) (n : Z) : rpcM (option (list (option Uint256) + error)) :=
  p ← look rpc_Pow;
  let '(p, e) := DiscreteMining_begin p in
  match e with
  | Some e => mret (Some (inr e))
  | None =>
      _ ← put (set_rpc_Pow p);
      r ← discrete_loop turns n 0 (replicate (Z.to_nat n) None);
      mret (inl <$> r)
  end.
(** What the request for it gets.  A hash that is missing would be a nil
    pointer. *)
Definition requested_mining (turns : list turn) (n : Z) : rpcM (list Uint256 + error) :=
  r ← DiscreteMining turns n;
  match r with
  | None => run Unmodelled
  | Some (inr e) => mret (inr e)
  | Some (inl hashes) => hashes ← must (mapM id hashes); mret (inl hashes)
  end.

(** The goroutine that [Start] creates; with merged mining it only makes blocks.
    [true]: it has seen that the service is halted. *)
Definition cpu_turn (t : turn) : rpcM (option (option Block)) :=
  b ← prepare_block t;
  match b with
  | None => mret (Some None)
  | Some b => if cfg_CoMining cfg then mret (Some None) else mine_block t b
  end.
Fixpoint cpuMining (turns : list turn) : rpcM bool :=
  match turns with
  | [] => mret false
  | t :: turns =>
      _ ← put (tu_before t);
      if tu_quit t then mret true else
      r ← cpu_turn t;
      match r with None => mret false | Some _ => cpuMining turns end
  end.

(** * The events of the store *)

Definition BlockPersistCompleted (b : Block) : netM (DB := DB) unit :=
  bc ← ask w_chain;
  pool ← ask (fun w => lt_pool (w_tables w));
  pool ← need (CleanSubmittedTransactions (H := store_ledger (bc_Store bc)) pool b);
  _ ← upd_tables (set_lt_pool pool);
  bc ← ask w_chain;
  upd_local (set_nd_height (uint64 (GetBestHeight bc))).
Definition handle_RollbackTransaction (b : Block) : netM (DB := DB) unit :=
  bc ← ask w_chain;
  pool ← ask (fun w => lt_pool (w_tables w));
  pool ← lift (pow_RollbackTransaction (H := store_ledger (bc_Store bc)) cfg ripemd160 pool b);
  upd_tables (set_lt_pool pool).

(** * Theorems *)

Lemma rpc_bind_inv {A B} (m : rpcM A) (k : A -> rpcM B) s s' b : (m ≫= k) s = Ok (s', b) -> exists s1 a, m s = Ok (s1, a) /\ k a s1 = Ok (s', b).
Proof. unfold mbind, rpcM_bind. destruct (m s) as [[s1 a]| |]; [|done|done]. eauto. Qed.
Lemma must_inv {A} (o : option A) (s s' : rpc) a : must o s = Ok (s', a) -> o = Some a /\ s' = s.
Proof. unfold must. destruct o; [|done]. by intros [= -> ->]. Qed.

(** A block that the turn [t] of a miner made from the server [s]: it is built
    on the best chain and pays the address of the service, the nonce solves it,
    the chain took it as its new best block at the next height, and it was
    written to the neighbours that are established and relay. *)
Record mined_in (t : turn) (s : rpc) (b : Block) (s' : rpc) : Prop := mkMinedIn {
  mi_synced : needSync (rpc_node s) = false;
  mi_block : exists b0 j, GenerateBlock cfg conf (w_chain (rpc_node s)) (tu_rand t) (tu_start t)
      (map snd (map_to_list (GetTxnPool cfg (lt_pool (w_tables (rpc_node s))) false))) (rpc_PayToAddr s) = Ok (Some b0, None) /\
    0 <= j < 2 ^ 32 /\ b = with_nonce b0 j;
  mi_solved : solves b = true;
  mi_chain : exists bc', let w := rpc_node (tu_during t s) in
    bd_Height (blk_data b) = uint32 (BlockHeight (w_chain w) + 1) /\
    AddBlock cfg ripemd160 (tu_end t) b (w_chain w) = Ok (bc', inl (true, false)) /\
    (forall l buf, w_heap w !! w_local w = Some l -> nodes_connected w -> relay_msg nc (RBlock b) = Some (buf, None) ->
       rpc_node s' = set_w_out (w_out w ++ map (fun pn => (pn.1, buf)) (List.filter broadcast_target (neighbours w))) (set_w_chain bc' w)) }.

Lemma prepare_inv t s s' b : prepare_block t s = Ok (s', Some b) -> s' = s /\ needSync (rpc_node s) = false /\
  GenerateBlock cfg conf (w_chain (rpc_node s)) (tu_rand t) (tu_start t)
    (map snd (map_to_list (GetTxnPool cfg (lt_pool (w_tables (rpc_node s))) false))) (rpc_PayToAddr s) = Ok (Some b, None).
Proof.
  unfold prepare_block, chain, look, run, must, mret, rpcM_ret, mbind, rpcM_bind. destruct (needSync _); [done|].
  destruct (GenerateBlock _ _ _ _ _ _ _) as [[ob [e|]]| |]; try done. destruct ob; [|done]. cbn. by intros [= <- <-].
Qed.
Lemma submit_inv now b bc bc' : submit_block cfg ripemd160 now b bc = Ok (bc', inl true) ->
  bd_Height (blk_data b) = uint32 (BlockHeight bc + 1) /\ AddBlock cfg ripemd160 now b bc = Ok (bc', inl (true, false)).
Proof.
  unfold submit_block, AddBlock, gets, mbind, bcM_bind. destruct (Z.eqb_spec (bd_Height (blk_data b)) (uint32 (BlockHeight bc + 1))) as [E|]; [|done].
  destruct (ProcessBlock cfg ripemd160 now b bc) as [[bc1 [[m o]|]]| |]; [|done|done|done]. intros [= -> E2]. split; [done|]. by destruct m, o.
Qed.
Lemma mine_inv t s s' b0 b : has_extra_nonce b0 -> mine_block t b0 s = Ok (s', Some (Some b)) ->
  (exists j, 0 <= j < 2 ^ 32 /\ b = with_nonce b0 j /\ solves b = true) /\
  exists bc', let s1 := tu_during t s in let w := rpc_node s1 in
    bd_Height (blk_data b) = uint32 (BlockHeight (w_chain w) + 1) /\ AddBlock cfg ripemd160 (tu_end t) b (w_chain w) = Ok (bc', inl (true, false)) /\
    BroadcastBlock b (set_rpc_node (set_w_chain bc' w) s1) = Ok (s', tt).
Proof.
  intros He E. unfold mine_block in E. apply rpc_bind_inv in E as (s1 & r & Em & E). apply must_inv in Em as [Es ->].
  destruct r as [[[|] b1]|]; [|done|done]. apply rpc_bind_inv in E as (s1 & [] & [= <-] & E). apply rpc_bind_inv in E as (s2 & added & Ea & E).
  destruct added as [[|]|]; [|done|done]. apply rpc_bind_inv in E as (s3 & [] & Eb & E). injection E as <- <-.
  split; [by eapply SolveBlock_solved|]. unfold on_node, on_chain in Ea.
  destruct (submit_block _ _ _ _ _) as [[bc' r]| |] eqn:Esub; [|done|done]. injection Ea as <- ->. apply submit_inv in Esub as [Eh Ep]. by exists bc'.
Qed.
Lemma discrete_turn_inv t s s' b : discrete_turn t s = Ok (s', Some (Some b)) -> mined_in t (tu_before t s) b s'.
Proof.
  intros E. unfold discrete_turn in E. apply rpc_bind_inv in E as (s0 & [] & [= <-] & E). apply rpc_bind_inv in E as (s1 & ob & Ep & E).
  destruct ob as [b0|]; [|done]. apply prepare_inv in Ep as (-> & Hs & Eg). apply mine_inv in E as ((j & Hj & Eb & Hsol) & bc' & Eh & Ea & Ex);
    [|by eapply generated_extra_nonce]. split; [done|by exists b0, j|done|]. exists bc'. split; [done|]. split; [done|].
  intros l buf Hl Ho Hb. unfold BroadcastBlock in Ex. apply rpc_bind_inv in Ex as (s2 & r & Ex & E2). injection E2 as <-.
  destruct (Xmit_run nc (RBlock b) buf l (set_w_chain bc' (rpc_node (tu_during t (tu_before t s)))) Hl Hb Ho) as (w1 & Ec & _ & _ & E1).
  injection Ec as <-. unfold on_node in Ex. cbn [rpc_node set_rpc_node] in Ex. rewrite E1 in Ex. by injection Ex as <- _.
Qed.

(** The hashes of the blocks mined so far, in an array of [n]. *)
Definition hash_array (n : Z) (bs : list Block) : list (option Uint256) :=
  map (fun b => Some (Block_Hash b)) bs ++ replicate (Z.to_nat n - length bs) None.
Lemma hash_array_insert n bs b : Z.of_nat (length bs) < n -> 
  hash_array n bs !! length bs = Some None /\ <[length bs := Some (Block_Hash b)]> (hash_array n bs) = hash_array n (bs ++ [b]).
Proof.
  intros Hn. unfold hash_array. rewrite length_app, map_app. cbn [length map].
  replace (Z.to_nat n - length bs)%nat with (S (Z.to_nat n - (length bs + 1))) by lia. cbn [replicate].
  rewrite lookup_app_r, insert_app_r_alt, length_map, Nat.sub_diag, <- app_assoc by (rewrite length_map; lia). done.
Qed.

Lemma loop_turn t turns n bs s s1 b : Z.of_nat (length bs) < n < 2 ^ 32 -> discrete_turn t s = Ok (s1, Some (Some b)) ->
  discrete_loop (t :: turns) n (Z.of_nat (length bs)) (hash_array n bs) s =
    if Z.of_nat (length (bs ++ [b])) =? n then Ok (set_rpc_Pow (DiscreteMining_end (rpc_Pow s1)) s1, Some (map (fun b => Some (Block_Hash b)) (bs ++ [b])))
    else discrete_loop turns n (Z.of_nat (length (bs ++ [b]))) (hash_array n (bs ++ [b])) s1.
Proof.
  intros Hn E. cbn [discrete_loop]. erewrite rpc_bind_run by exact E. cbn beta iota. rewrite Nat2Z.id.
  destruct (hash_array_insert n bs b) as [E1 E2]; [lia|]. rewrite must_bind, E1, E2. rewrite wrapU_id by lia.
  replace (Z.of_nat (length bs) + 1) with (Z.of_nat (length (bs ++ [b]))) by (rewrite length_app; cbn; lia).
  destruct (Z.eqb_spec (Z.of_nat (length (bs ++ [b]))) n) as [<-|]; [|done].
  unfold hash_array. by rewrite Nat2Z.id, Nat.sub_diag, app_nil_r.
Qed.

Lemma loop_mines turns n : forall bs s s' hashes, Z.of_nat (length bs) < n < 2 ^ 32 ->
  discrete_loop turns n (Z.of_nat (length bs)) (hash_array n bs) s = Ok (s', Some hashes) ->
  started (rpc_Pow s') = false /\ discreteMining (rpc_Pow s') = false /\
  exists new, hashes = map (fun b => Some (Block_Hash b)) (bs ++ new) /\ Z.of_nat (length (bs ++ new)) = n /\
    Forall (fun b => exists t s1 s2, t ∈ turns /\ mined_in t s1 b s2) new.
Proof.
  induction turns as [|t turns IH]; intros bs s s' hashes Hn E; [done|].
  assert (Weak : forall new, Forall (fun b => exists t s1 s2, t ∈ turns /\ mined_in t s1 b s2) new ->
    Forall (fun b => exists t' s1 s2, t' ∈ t :: turns /\ mined_in t' s1 b s2) new).
  { intros new F. eapply list.Forall_impl; [exact F|]. cbn. intros b (t' & s1 & s2 & Ht & M). exists t', s1, s2. split; [by right|done]. }
  destruct (discrete_turn t s) as [[s1 [[b|]|]]| |] eqn:Et;
    [|cbn [discrete_loop] in E; unfold mbind, rpcM_bind in E; rewrite Et in E; cbn beta iota in E; try done..].
  - rewrite (loop_turn t turns n bs s s1 b Hn Et) in E.
    assert (M : exists t' s0 s2, t' ∈ t :: turns /\ mined_in t' s0 b s2) by (exists t, (tu_before t s), s1; split; [left|by apply discrete_turn_inv]).
    destruct (Z.eqb_spec (Z.of_nat (length (bs ++ [b]))) n) as [En|En].
    + injection E as <- <-. split; [done|]. split; [done|]. exists [b]. split; [done|]. split; [done|]. by constructor.
    + apply IH in E as (? & ? & new & Eh & El & F); [|rewrite length_app in *; cbn in *; lia]. split; [done|]. split; [done|].
      exists (b :: new). rewrite <- app_assoc in Eh, El. split; [exact Eh|]. split; [exact El|]. constructor; [done|by apply Weak].
  - apply IH in E as (? & ? & new & Eh & El & F); [|done]. split; [done|]. split; [done|]. exists new. split; [done|]. split; [done|]. by apply Weak.
Qed.

(** C16: Discrete mining delivers.  When a request to mine a number of blocks is
    answered with hashes, the service was idle and is idle again, there are as
    many hashes as were asked for, and each is the hash of a block that one of
    the turns made on the best chain, solved, had accepted as the new end of the
    main chain and broadcast, whatever other goroutines did meanwhile. *)
Theorem discrete_mining (turns : list turn) (k : Z) (s s' : rpc) (texts : list bytes) :
  discreteCpuMining (requested_mining turns) [JNum k] s = Ok (s', ATexts texts) ->
  rpc_Pow s = mkPow false false (miners (rpc_Pow s)) /\ started (rpc_Pow s') = false /\ discreteMining (rpc_Pow s') = false /\
  exists blocks, texts = map (fun b => BytesToHexString (Block_Hash b)) blocks /\ Z.of_nat (length blocks) = uint32 k /\
    Forall (fun b => exists t s1 s2, t ∈ turns /\ mined_in t s1 b s2) blocks.
Proof.
  intros E. unfold discreteCpuMining in E. rewrite must_bind in E. cbn [lookup list_lookup] in E. destruct (Z.eqb_spec (uint32 k) 0) as [|Hk]; [done|].
  pose proof (wrapU_range 32 k ltac:(lia)) as Hr. set (n := uint32 k) in *. apply rpc_bind_inv in E as (s1 & r & Er & E).
  destruct r as [hs|]; [|done]. injection E as <- <-. unfold requested_mining in Er. apply rpc_bind_inv in Er as (s2 & d & Ed & Er).
  destruct d as [[hashes|]|]; [|done|done]. apply rpc_bind_inv in Er as (s3 & hs' & Em & Er). apply must_inv in Em as [Em ->]. injection Er as <- <-.
  unfold DiscreteMining in Ed. apply rpc_bind_inv in Ed as (s3 & p & [= <- <-] & Ed). unfold DiscreteMining_begin in Ed.
  destruct (rpc_Pow s) as [st di mi] eqn:Ep. cbn [started discreteMining] in Ed. destruct st, di; [done|done|done|]. cbn [orb] in Ed. split; [done|].
  apply rpc_bind_inv in Ed as (s3 & [] & [= <-] & Ed). apply rpc_bind_inv in Ed as (s4 & o & El & Ed). destruct o as [l|]; [|done]. injection Ed as -> ->.
  replace (replicate (Z.to_nat n) None) with (hash_array n []) in El by (unfold hash_array; cbn; by rewrite Nat.sub_0_r).
  apply (loop_mines turns n []) in El as (H1' & H2' & new & -> & El & F); [|cbn; lia]. split; [done|]. split; [done|]. exists new. split; [|by split].
  cbn [app] in Em. assert (E2 : forall bs, mapM id (map (fun b => Some (Block_Hash b)) bs) = Some (map Block_Hash bs))
    by (induction bs as [|b bs IHb]; [done|]; cbn; by rewrite IHb).
  rewrite E2 in Em. injection Em as <-. by rewrite map_map.
Qed.

(** Turns that end, with the blocks they mined. *)
Inductive mines : rpc -> list turn -> list Block -> rpc -> Prop :=
  | mines_stop s : mines s [] [] s
  | mines_nothing s t s1 ts bs s2 : discrete_turn t s = Ok (s1, Some None) -> mines s1 ts bs s2 -> mines s (t :: ts) bs s2
  | mines_one s t s1 b ts bs s2 : discrete_turn t s = Ok (s1, Some (Some b)) -> mines s1 ts bs s2 -> mines s (t :: ts) (b :: bs) s2.

Lemma loop_goes_on n s ts bs s2 : mines s ts bs s2 -> forall old rest, Z.of_nat (length (old ++ bs)) < n < 2 ^ 32 ->
  discrete_loop (ts ++ rest) n (Z.of_nat (length old)) (hash_array n old) s =
  discrete_loop rest n (Z.of_nat (length (old ++ bs))) (hash_array n (old ++ bs)) s2.
Proof.
  induction 1 as [s|s t s1 ts bs s2 Et _ IH|s t s1 b ts bs s2 Et _ IH]; intros old rest Hn.
  - by rewrite app_nil_r.
  - cbn [app discrete_loop]. erewrite rpc_bind_run by exact Et. cbn beta iota. by apply IH.
  - cbn [app]. rewrite length_app in Hn. cbn [length] in Hn. rewrite (loop_turn t _ n old s s1 b) by (done || lia).
    replace (old ++ b :: bs) with ((old ++ [b]) ++ bs) by (by rewrite <- app_assoc).
    rewrite (proj2 (Z.eqb_neq _ _)) by (rewrite length_app; cbn [length]; lia). apply IH. rewrite !length_app. cbn [length]. lia.
Qed.

(** C17: Discrete mining returns exactly when enough turns have mined: an idle
    service goes on as long as fewer blocks than asked for are mined, failures
    in between do not count and do not stop it, and with the last block it
    returns the hashes in the order of mining, idle again. *)
Theorem discrete_mining_returns (n : Z) (s s2 : rpc) (ts : list turn) (bs : list Block) :
  started (rpc_Pow s) = false -> discreteMining (rpc_Pow s) = false -> Z.of_nat (length bs) < n < 2 ^ 32 ->
  mines (set_rpc_Pow (mkPow true true (S (miners (rpc_Pow s)))) s) ts bs s2 ->
  DiscreteMining ts n s = Ok (s2, None) /\
  (forall t b s3 rest, discrete_turn t s2 = Ok (s3, Some (Some b)) -> Z.of_nat (length bs) + 1 = n ->
     DiscreteMining (ts ++ t :: rest) n s =
       Ok (set_rpc_Pow (DiscreteMining_end (rpc_Pow s3)) s3, Some (inl (map (fun b => Some (Block_Hash b)) (bs ++ [b]))))).
Proof.
  intros H1' H2' Hn M.
  assert (B : forall turns, DiscreteMining turns n s = (r ← discrete_loop turns n 0 (hash_array n []); mret (inl <$> r)) (set_rpc_Pow (mkPow true true (S (miners (rpc_Pow s)))) s)).
  { intros turns. unfold DiscreteMining. erewrite rpc_bind_run by reflexivity. unfold DiscreteMining_begin. rewrite H1', H2'. cbn [orb].
    erewrite rpc_bind_run by reflexivity. unfold hash_array. cbn [map app length]. by rewrite Nat.sub_0_r. }
  assert (G : forall rest, discrete_loop (ts ++ rest) n 0 (hash_array n []) (set_rpc_Pow (mkPow true true (S (miners (rpc_Pow s)))) s) =
    discrete_loop rest n (Z.of_nat (length bs)) (hash_array n bs) s2) by (intros rest; by apply (loop_goes_on n _ _ _ _ M [])).
  split; [|intros t b s3 rest Et El]; rewrite B, rpc_bind_ok.
  - rewrite <- (app_nil_r ts), G. done.
  - rewrite G, (loop_turn t rest n _ s2 s3 b Hn Et), (proj2 (Z.eqb_eq _ _)) by (rewrite length_app; cbn [length]; lia). done.
Qed.

(** With merged mining the goroutine of the service does nothing to the node:
    whatever changes, other goroutines did it. *)
Theorem cpu_mining_idle (turns : list turn) (s s' : rpc) (quit : bool) : cfg_CoMining cfg = true ->
  cpuMining turns s = Ok (s', quit) -> exists k, s' = foldl (fun s t => tu_before t s) s (take k turns) /\
    (quit = true <-> exists t, turns !! (k - 1)%nat = Some t /\ (0 < k)%nat /\ tu_quit t = true).
Proof.
  intros Hc. revert s. induction turns as [|t turns IH]; intros s E.
  { injection E as <- <-. exists O. split; [done|]. split; [done|]. intros (t & Ht & _). done. }
  cbn [cpuMining] in E. apply rpc_bind_inv in E as (s1 & [] & [= <-] & E). destruct (tu_quit t) eqn:Eq.
  { injection E as <- <-. exists 1%nat. split; [done|]. split; [|done]. intros _. exists t. split; [done|]. split; [lia|done]. }
  apply rpc_bind_inv in E as (s1 & r & Er & E). 
  assert (s1 = tu_before t s /\ r = Some None) as [-> ->].
  { unfold cpu_turn in Er. apply rpc_bind_inv in Er as (s2 & ob & Ep & Er). assert (s2 = tu_before t s) as ->.
    { unfold prepare_block, chain, look, run, must, mret, rpcM_ret, mbind, rpcM_bind in Ep. destruct (needSync _); [by injection Ep|].
      destruct (GenerateBlock _ _ _ _ _ _ _) as [[o [e|]]| |]; try done; cbn in Ep; [by injection Ep|]. destruct o; [by injection Ep|done]. }
    rewrite Hc in Er. destruct ob; by injection Er. }
  apply IH in E as (k & -> & Hq). exists (S k). split; [done|]. rewrite Hq. cbn [Nat.sub]. rewrite Nat.sub_0_r. split.
  - intros (t' & Ht & Hk & Et). exists t'. replace k with (S (k - 1)) by lia. split; [done|]. split; [lia|done].
  - intros (t' & Ht & _ & Et). destruct k as [|k]; [injection Ht as <-; congruence|]. exists t'. cbn in Ht. rewrite Nat.sub_succ, Nat.sub_0_r. split; [done|]. split; [lia|done].
Qed.

(** A persisted block leaves the pool: none of its transactions is pooled any
    more, the others stay, the pool stays consistent when the block does not
    conflict with it, and the node announces the height of the chain. *)
Theorem persisted_block_cleaned (b : Block) (w w' : world DB) : let L := store_ledger (bc_Store (w_chain w)) in
  BlockPersistCompleted b w = Ok (w', inl tt) ->
  (forall h t, txnList (lt_pool (w_tables w')) !! h = Some t <-> txnList (lt_pool (w_tables w)) !! h = Some t /\
     forall u, u ∈ Transactions b -> TxType u <> CoinBase -> Tx_Hash u <> Some h) /\
  (pool_inv (lt_pool (w_tables w)) -> no_conflict (H := L) (lt_pool (w_tables w)) (Transactions b) -> pool_inv (lt_pool (w_tables w'))) /\
  (exists n, w_heap w' !! w_local w' = Some n /\ nd_height n = uint64 (BlockHeight (w_chain w))) /\ w_chain w' = w_chain w.
Proof.
  intros L E. unfold BlockPersistCompleted in E. erewrite !net_bind_run in E by apply ask_run.
  destruct (CleanSubmittedTransactions (lt_pool (w_tables w)) b) as [p|] eqn:Ec; [|done]. erewrite net_bind_run in E by apply need_run.
  unfold upd_tables, upd_local, upd_node, get_node in E. erewrite net_bind_run in E by reflexivity. erewrite !net_bind_run in E by apply ask_run.
  unfold mbind, netM_bind, need, lift, ask, change in E. cbn in E. destruct (w_heap w !! w_local w) as [n|] eqn:En; [|done]. cbn in E. injection E as <-. cbn.
  split; [|split; [|split; [|done]]].
  - pose proof Ec as Ec'. unfold CleanSubmittedTransactions in Ec'. destruct (cleanTransactionList _ _) as [p1|] eqn:E1; [|done]. injection Ec' as <-.
    apply (cleanTransactionList_spec id) in E1 as [_ S]. intros h t. rewrite <- S. by rewrite <- (proj1 (cleanUTXOList_spec (H := L) id p1 (Transactions b))).
  - intros I Hn. by eapply (Clean_inv (H := L) id).
  - exists (set_nd_height (uint64 (GetBestHeight (w_chain w))) n). rewrite lookup_insert_eq. done.
Qed.
End Miner.
Arguments turn : clear implicits.

(** ** A node that mines *)

(** The chain of Mining.v with a neighbour that is as far. *)
Definition busy_node : rpc (DB := gmap bytes bytes) :=
  mkRpc (set_w_heap (alter (set_nd_height 2) 2%positive (w_heap befriended)) (set_w_chain small_main befriended)) None NewPowService FoundationAddress ∅ 0 0 0 0.
(** In the first turn the clock is an hour slow and the chain refuses the
    block. *)
Definition small_turn (now : Z) : turn (gmap bytes bytes) := mkTurn 1 1506816000 now (fun _ => None) 10 false id id.
Definition small_turns : list (turn (gmap bytes bytes)) := [small_turn 0; small_turn 1506816000; small_turn 1506816000].
Definition is_texts (r : outcome (rpc (DB := gmap bytes bytes) * answer)) (n : nat) : bool :=
  match r with Ok (_, ATexts l) => (length l =? n)%nat | _ => false end.
Lemma busy_node_mines : is_texts (discreteCpuMining (requested_mining (H1 := prefix_crypto) pow_cfg small_conf pow_conf sample_ripemd small_turns) [JNum 1] busy_node) 1 = true.
Proof. vm_compute. reflexivity. Qed.
Lemma discrete_mining_witness : exists s' texts b,
  discreteCpuMining (requested_mining (H1 := prefix_crypto) pow_cfg small_conf pow_conf sample_ripemd small_turns) [JNum 1] busy_node = Ok (s', ATexts texts) /\
  texts = [BytesToHexString (Block_Hash b)] /\ solves b = true.
Proof.
  pose proof busy_node_mines as E.
  destruct (discreteCpuMining _ [JNum 1] busy_node) as [[s' a]| |] eqn:Ed; [|discriminate E|discriminate E]. destruct a; try discriminate E.
  destruct (discrete_mining (H1 := prefix_crypto) pow_cfg small_conf pow_conf sample_ripemd small_turns 1 busy_node s' _ Ed) as (_ & _ & _ & blocks & Et & El & F).
  change (uint32 1) with 1 in El. destruct blocks as [|b [|? ?]]; cbn [length] in El; [lia| |lia]. inversion F as [|? ? (t & s1 & s2 & _ & M)]; subst.
  exists s', [BytesToHexString (Block_Hash b)], b. split; [reflexivity|]. split; [reflexivity|]. exact (mi_solved _ _ _ _ _ _ _ _ M).
Defined.

Lemma busy_turns : match discrete_turn (H1 := prefix_crypto) pow_cfg small_conf pow_conf sample_ripemd (small_turn 0) (set_rpc_Pow (mkPow true true 1) busy_node) with
  | Ok (s, Some None) => match discrete_turn (H1 := prefix_crypto) pow_cfg small_conf pow_conf sample_ripemd (small_turn 1506816000) s with Ok (_, Some (Some _)) => true | _ => false end
  | _ => false end = true.
Proof. vm_compute. reflexivity. Qed.
Lemma discrete_mining_returns_witness : exists s2 s3 b,
  DiscreteMining (H1 := prefix_crypto) pow_cfg small_conf pow_conf sample_ripemd [small_turn 0] 1 busy_node = Ok (s2, None) /\
  DiscreteMining (H1 := prefix_crypto) pow_cfg small_conf pow_conf sample_ripemd small_turns 1 busy_node = Ok (s3, Some (inl [Some (Block_Hash b)])).
Proof.
  pose proof busy_turns as E. destruct (discrete_turn _ _ _ _ (small_turn 0) _) as [[s2 [[?|]|]]| |] eqn:E1; try discriminate E.
  destruct (discrete_turn _ _ _ _ (small_turn 1506816000) s2) as [[s3 [[b|]|]]| |] eqn:E2; try discriminate E.
  destruct (discrete_mining_returns (H1 := prefix_crypto) pow_cfg small_conf pow_conf sample_ripemd 1 busy_node s2 [small_turn 0] []) as [R1 R2];
    [reflexivity|reflexivity|cbn; lia| |].
  - eapply mines_nothing; [exact E1|constructor].
  - exists s2, (set_rpc_Pow (DiscreteMining_end (rpc_Pow s3)) s3), b. split; [exact R1|].
    exact (R2 (small_turn 1506816000) b s3 [small_turn 1506816000] E2 eq_refl).
Defined.

Definition merged_cfg : Config :=
  mkConfig 1000000 100 100 true (repeat 1 32) (fun x => bool_decide (fst (ToAddress x) = FoundationAddress)) regNet.
Definition halted_turn : turn (gmap bytes bytes) := mkTurn 1 1506816000 1506816000 (fun _ => None) 10 true id id.
Lemma cpu_mining_idle_witness : exists s', cpuMining (H1 := prefix_crypto) merged_cfg small_conf pow_conf sample_ripemd [small_turn 1506816000; halted_turn] busy_node = Ok (s', true) /\ s' = busy_node.
Proof.
  assert (E : match cpuMining (H1 := prefix_crypto) merged_cfg small_conf pow_conf sample_ripemd [small_turn 1506816000; halted_turn] busy_node with Ok (_, q) => q | _ => false end = true)
    by (vm_compute; reflexivity).
  destruct (cpuMining _ _ _ _ _ _) as [[s' q]| |] eqn:Ec; [|discriminate E|discriminate E]. rewrite E in Ec. exists s'. split; [by rewrite E|].
  destruct (cpu_mining_idle (H1 := prefix_crypto) merged_cfg small_conf pow_conf sample_ripemd _ _ _ _ eq_refl Ec) as (k & -> & _).
  destruct k as [|[|[|k]]]; reflexivity.
Defined.

Lemma persisted_block_cleaned_witness : exists w', BlockPersistCompleted mined (rpc_node mining_node) = Ok (w', inl tt) /\ w_chain w' = w_chain (rpc_node mining_node).
Proof.
  assert (E : match BlockPersistCompleted mined (rpc_node mining_node) with Ok (_, inl tt) => true | _ => false end = true) by (vm_compute; reflexivity).
  destruct (BlockPersistCompleted mined (rpc_node mining_node)) as [[w' [[]|]]| |] eqn:Eb; [|discriminate E..].
  exists w'. split; [reflexivity|]. by apply (persisted_block_cleaned mined (rpc_node mining_node) w') in Eb as (_ & _ & _ & ?).
Defined.
