(* ===== verification/Websocket.v ===== *)
(** [net/httpwebsocket] and the rest of [net/httprestful/common]: the sessions of
    the WebSocket server, the requests it answers and what it pushes; access
    tokens, the switches of the notice and WebSocket servers and records.

    Sessions live in a heap, since the goroutine of a connection and the list of
    sessions share them; closing one changes what both see.  [ws_log] is what was
    written to the connections, in order; a session's connection is gone when
    [mConnection] is false.  Identifiers of sessions, the clock, the OAuth server
    and the JSON text of a record are arguments.  Go's order of a map's elements
    is that of [map_to_list]. *)

From S2P Require Import Prelude Sha256 Serialization Common Fixed64 Transaction Merkle AuxPow Block.
From S2P Require Import Store Utxo Difficulty MedianTime Vm Address PubKey Contract Message Link Peers Validator Wallet Sdk TxPool Blockchain Ledger Pow Mining Node Handlers Sync Network Handshake Requests Rpc Rest Answers.

(** * httprestful/error/error.go *)

Definition SESSION_EXPIRED : Z := 41001.
Definition OAUTH_TIMEOUT : Z := 41004.
Definition INVALID_TOKEN : Z := 42003.
Definition ErrMap : list (Z * string) :=
  [(SUCCESS, "SUCCESS"); (SESSION_EXPIRED, "SESSION EXPIRED"); (41002, "SERVICE CEILING"); (ILLEGAL_DATAFORMAT, "ILLEGAL DATAFORMAT");
   (OAUTH_TIMEOUT, "CONNECT TO OAUTH TIMEOUT"); (INVALID_METHOD, "INVALID METHOD"); (INVALID_PARAMS, "INVALID PARAMS"); (INVALID_TOKEN, "VERIFY TOKEN ERROR");
   (INVALID_TRANSACTION, "INVALID TRANSACTION"); (INVALID_ASSET, "INVALID ASSET"); (43003, "INVALID BLOCK"); (UNKNOWN_TRANSACTION, "UNKNOWN TRANSACTION");
   (UNKNOWN_ASSET, "UNKNOWN ASSET"); (UNKNOWN_BLOCK, "UNKNOWN BLOCK"); (45001, "INVALID VERSION"); (INTERNAL_ERROR, "INTERNAL ERROR"); (47001, "SMARTCODE EXEC ERROR");
   (45003, "INTERNAL ERROR, ErrInvalidInput"); (45004, "INTERNAL ERROR, ErrInvalidOutput"); (45005, "INTERNAL ERROR, ErrAssetPrecision");
   (45006, "INTERNAL ERROR, ErrTransactionBalance"); (45007, "INTERNAL ERROR, ErrAttributeProgram"); (45008, "INTERNAL ERROR, ErrTransactionContracts");
   (45009, "INTERNAL ERROR, ErrTransactionPayload"); (45010, "INTERNAL ERROR, ErrDoubleSpend"); (45011, "INTERNAL ERROR, ErrTxHashDuplicate");
   (45012, "INTERNAL ERROR, ErrStateUpdaterVaild"); (45013, "INTERNAL ERROR, ErrSummaryAsset"); (45014, "INTERNAL ERROR, ErrXmitFail");
   (45015, "INTERNAL ERROR, ErrTransactionSize"); (45016, "INTERNAL ERROR, ErrUnknownReferedTxn"); (45017, "INTERNAL ERROR, ErrInvalidReferedTxn");
   (45018, "INTERNAL ERROR, ErrIneffectiveCoinbase")]%string.
(** A code that is not in the map has an empty text. *)
Definition Desc (code : Z) : bytes := match List.find (fun e => e.1 =? code) ErrMap with Some (_, s) => str s | None => [] end.

(** * session.go and sessionlist.go *)

Record Session := mkSession { mConnection : bool; nLastActive : Z; sSessionId : bytes }.
Definition sessionTimeOut : Z := 120.
(** What is written to a connection: a response with its action and text. *)
Record ws_message := mkMessage { wm_Action : bytes; wm_Error : Z; wm_Desc : bytes; wm_Result : rest_value }.
Record WsServer := mkWs {
  ws_heap : gmap positive Session; mapOnlineList : gmap bytes positive; TxHashMap : gmap bytes bytes; ws_log : list (positive * ws_message) }.
Definition InitWsServer : WsServer := mkWs ∅ ∅ ∅ [].
Definition set_session (p : positive) (s : Session) (ws : WsServer) : WsServer :=
  mkWs (<[p := s]> (ws_heap ws)) (mapOnlineList ws) (TxHashMap ws) (ws_log ws).
Definition set_online (m : gmap bytes positive) (ws : WsServer) : WsServer := mkWs (ws_heap ws) m (TxHashMap ws) (ws_log ws).
Definition set_TxHashMap (m : gmap bytes bytes) (ws : WsServer) : WsServer := mkWs (ws_heap ws) (mapOnlineList ws) m (ws_log ws).
Definition write_message (p : positive) (m : ws_message) (ws : WsServer) : WsServer :=
  mkWs (ws_heap ws) (mapOnlineList ws) (TxHashMap ws) (ws_log ws ++ [(p, m)]).

Definition newSession (now : Z) (id : bytes) : Session := mkSession true now id.
Definition session_close (s : Session) : Session := mkSession false (nLastActive s) [].
Definition UpdateActiveTime (now : Z) (s : Session) : Session := mkSession (mConnection s) now (sSessionId s).
Definition SessionTimeoverCheck (now : Z) (s : Session) : bool := sessionTimeOut <? now - nLastActive s.
(** [Send]; its error is not looked at. *)
Definition session_Send (p : positive) (m : ws_message) (ws : WsServer) : WsServer :=
  match ws_heap ws !! p with Some s => if mConnection s then write_message p m ws else ws | None => ws end.
Definition GetSessionId (ws : WsServer) (p : positive) : bytes := match ws_heap ws !! p with Some s => sSessionId s | None => [] end.

Definition addOnlineSession (p : positive) (ws : WsServer) : WsServer :=
  let id := GetSessionId ws p in
  if bool_decide (id = []) then ws else set_online (<[id := p]> (mapOnlineList ws)) ws.
(** The session is at the address [p], the identifier is [id]. *)
Definition NewSession (now : Z) (p : positive) (id : bytes) (ws : WsServer) : WsServer :=
  addOnlineSession p (set_session p (newSession now id) ws).
Definition removeSessionById (id : bytes) (ws : WsServer) : WsServer :=
  if bool_decide (id = []) then ws else set_online (delete id (mapOnlineList ws)) ws.
Definition CloseSession (p : positive) (ws : WsServer) : WsServer :=
  let ws := removeSessionById (GetSessionId ws p) ws in
  match ws_heap ws !! p with Some s => set_session p (session_close s) ws | None => ws end.
Definition GetSessionById (ws : WsServer) (id : bytes) : option positive := mapOnlineList ws !! id.
Definition GetSessionCount (ws : WsServer) : nat := size (mapOnlineList ws).
Definition sessions (ws : WsServer) : list positive := map snd (map_to_list (mapOnlineList ws)).
Definition ForEachSession (visit : positive -> WsServer -> WsServer) (ws : WsServer) : WsServer :=
  foldl (fun ws p => visit p ws) ws (sessions ws).

(** * websocket/server.go: sending *)

Definition ws_send (id : bytes) (m : ws_message) (ws : WsServer) : WsServer :=
  match GetSessionById ws id with Some p => session_Send p m ws | None => ws end.
Definition broadcast (m : ws_message) (ws : WsServer) : WsServer := ForEachSession (fun p => session_Send p m) ws.
Definition message (action : bytes) (r : response) : ws_message := mkMessage action (rs_Error r) (Desc (rs_Error r)) (rs_Result r).
Definition ws_response (id action : bytes) (r : response) (ws : WsServer) : WsServer := ws_send id (message action r) ws.
Definition SetTxHashMap (txhash sessionid : bytes) (ws : WsServer) : WsServer := set_TxHashMap (<[txhash := sessionid]> (TxHashMap ws)) ws.
Definition deleteTxHashs (id : bytes) (ws : WsServer) : WsServer := set_TxHashMap (filter (fun kv => kv.2 <> id) (TxHashMap ws)) ws.
Definition PushTxResult (txHash action : bytes) (r : response) (ws : WsServer) : WsServer :=
  let id := default [] (TxHashMap ws !! txHash) in
  let ws := set_TxHashMap (delete txHash (TxHashMap ws)) ws in
  if (0 <? length id)%nat then ws_response id action r ws else ws.
Definition PushResult (action : bytes) (r : response) (ws : WsServer) : WsServer := broadcast (message action r) ws.

(** One tick of [checkSessionsTimeout]. *)
Definition expired (now : Z) (ws : WsServer) : list positive :=
  List.filter (fun p => match ws_heap ws !! p with Some s => SessionTimeoverCheck now s | None => false end) (sessions ws).
Definition checkSessionsTimeout (now : Z) (ws : WsServer) : WsServer :=
  let closeList := expired now ws in
  let ws := foldl (fun ws p => ws_response (GetSessionId ws p) [] (ResponsePack SESSION_EXPIRED) ws) ws closeList in
  foldl (fun ws p => CloseSession p ws) ws closeList.
(** What [webSocketHandler] does when its loop ends or panics. *)
Definition handler_exit (p : positive) (ws : WsServer) : WsServer :=
  CloseSession p (deleteTxHashs (GetSessionId ws p) ws).

(** * oauth.go and notice.go *)

(** The answer of the OAuth server: [Error] is the number zero; [Result], when it
    is an object, and the text [CaKey] in it.  A request fails, or its URL is not one. *)
Record oauth_reply := mkOauth { or_zero : bool; or_Result : option (option bytes) }.
Inductive oauth_outcome := BadUrl | NoReply | Reply (r : oauth_reply).
Definition oauth_url (base access_token auth_type : bytes) : bytes := base ++ str "/" ++ access_token ++ str "?auth_type=" ++ auth_type.
(** [OauthRequest]: the error of [Do] is assigned to the variable of the case and
    is not returned; no reply is an empty one. *)
Definition OauthRequest (oauth : bytes -> oauth_outcome) (url : bytes) : oauth_reply * bool :=
  match oauth url with
  | BadUrl => (mkOauth false None, true)
  | NoReply => (mkOauth false None, false)
  | Reply r => (r, false)
  end.
Definition CheckAccessToken (oauth : bytes -> oauth_outcome) (OauthServerUrl auth_type access_token : bytes) : bytes * Z :=
  if (length OauthServerUrl =? 0)%nat then ([], SUCCESS) else
  let '(rep, failed) := OauthRequest oauth (oauth_url OauthServerUrl access_token auth_type) in
  if failed then ([], OAUTH_TIMEOUT) else
  if or_zero rep then
    match or_Result rep with
    | Some (Some CAkey) => (CAkey, SUCCESS)
    | _ => ([], INVALID_TOKEN)
    end
  else ([], INVALID_TOKEN).

(** * websocket/server.go: requests *)

Section Requests.
Context {DB : Type} `{IStore DB} `{IIterator DB} `{IBase58} `{ICrypto}.
Context (cfg : Config) (nc : NetConfig) (ripemd160 : bytes -> bytes).
Context (checkAccessToken : bytes -> bytes -> bytes * Z).
#[local] Abbreviation rpc := (rpc (DB := DB)).
#[local] Abbreviation rpcM := (rpcM (DB := DB)).

Definition wsM (A : Type) : Type := WsServer * rpc -> outcome (WsServer * rpc * A).
#[export] Instance wsM_ret : MRet wsM := fun A a s => Ok (s, a).
#[export] Instance wsM_bind : MBind wsM := fun A B f m s =>
  match m s with Ok (s, a) => f a s | Panic => Panic | Unmodelled => Unmodelled end.
Definition on_rpc {A} (m : rpcM A) : wsM A := fun s =>
  match m s.2 with Ok (r, a) => Ok (s.1, r, a) | Panic => Panic | Unmodelled => Unmodelled end.
Definition on_ws (f : WsServer -> WsServer) : wsM unit := fun s => Ok (f s.1, s.2, tt).
Definition look_ws {A} (f : WsServer -> A) : wsM A := fun s => Ok (s, f s.1).

(** ** custom.go *)

Definition AttributeMaxLen : nat := 252.
(** [marshal]: the JSON text of the record of a command and the key; [None] when
    its fields have other types. *)
Definition getRecordData (marshal : gmap bytes json -> bytes -> option bytes) (cmd : gmap bytes json) : option bytes * Z :=
  if raw_asked cmd then
    match field cmd "RecordData" with
    | None => (None, INVALID_PARAMS)
    | Some s => let '(bys, e) := HexStringToBytes s in if is_err e then (None, INVALID_PARAMS) else (Some bys, SUCCESS)
    end
  else
    match cmd !! str "RecordData" with
    | Some JOther =>
        match field cmd "CAkey" with
        | None => (None, INVALID_PARAMS)
        | Some CAkey => match marshal cmd CAkey with Some b => (Some b, SUCCESS) | None => (None, INVALID_PARAMS) end
        end
    | _ => (None, INVALID_PARAMS)
    end.
(** The pieces [Read] fills a buffer of [AttributeMaxLen] with; [fuel] is at
    least the length. *)
Fixpoint record_pieces (fuel : nat) (data : bytes) : list bytes :=
  match fuel, data with
  | S fuel, _ :: _ => take AttributeMaxLen data :: record_pieces fuel (drop AttributeMaxLen data)
  | _, _ => []
  end.
Definition record_transaction (innerTime recordData : bytes) : Transaction :=
  set_Attributes (NewTransferAssetTransaction [] [])
    (NewTxAttribute Description innerTime :: map (NewTxAttribute Description) (record_pieces (length recordData) recordData)).
(** [innerTime]: the JSON text of the clock. *)
Definition SendRecord (marshal : gmap bytes json -> bytes -> option bytes) (innerTime : bytes) (cmd : gmap bytes json) : rpcM response :=
  let '(data, code) := getRecordData marshal cmd in
  match data with
  | None => mret (mkResponse (VText []) code None)
  | Some recordData =>
      let tx := record_transaction innerTime recordData in
      code ← VerifyAndSendTx cfg nc ripemd160 tx;
      if negb (bool_decide (code = ErrNoError)) then mret (mkResponse (VText []) (ErrCode_value code) None) else
      '(_, hash) ← must (hash_cached tx);
      mret (success (VText (hash_text hash)))
  end.
Definition SendRecordTransaction (marshal : gmap bytes json -> bytes -> option bytes) (cmd : gmap bytes json) : rpcM response :=
  let '(data, code) := getRecordData marshal cmd in
  match data with
  | None => mret (mkResponse (VText []) code None)
  | Some recordData =>
      '(tx, hash) ← must (hash_cached (NewRecordTransaction (str "record") recordData));
      code ← VerifyAndSendTx cfg nc ripemd160 tx;
      mret (mkResponse (VText (hash_text hash)) (if negb (bool_decide (code = ErrNoError)) then ErrCode_value code else SUCCESS) None)
  end.

(** ** The handlers *)

Context (marshal : gmap bytes json -> bytes -> option bytes) (innerTime : bytes).

Definition gettxhashmap (cmd : gmap bytes json) : wsM response := n ← look_ws (fun ws => size (TxHashMap ws)); mret (success (VNum (Z.of_nat n))).
Definition ws_sendRawTransaction (cmd : gmap bytes json) : wsM response :=
  resp ← on_rpc (SendRawTransaction cfg nc ripemd160 cmd);
  match rs_Userid resp with
  | Some userid =>
      if (0 <? length userid)%nat then
        _ ← (match rs_Result resp with VText result => on_ws (SetTxHashMap result userid) | _ => mret tt end);
        mret (mkResponse (rs_Result resp) (rs_Error resp) None)
      else mret resp
  | None => mret resp
  end.
Definition heartbeat (cmd : gmap bytes json) : wsM response := mret (success (VText (default [] (field cmd "Userid")))).
(** The push after five seconds is a step of its own. *)
Definition sendtest (cmd : gmap bytes json) : wsM response := heartbeat cmd.
Definition getsessioncount (cmd : gmap bytes json) : wsM response := n ← look_ws GetSessionCount; mret (success (VNum (Z.of_nat n))).

Record Handler := mkHandler { h_handler : gmap bytes json -> wsM response; pushFlag : bool }.
Definition ActionMap : list (string * Handler) :=
  [("getconnectioncount", mkHandler (fun c => on_rpc (GetConnectionCount c)) false);
   ("getblockbyheight", mkHandler (fun c => on_rpc (GetBlockByHeight c)) false);
   ("getblockbyhash", mkHandler (fun c => on_rpc (GetBlockByHash c)) false);
   ("getblockheight", mkHandler (fun c => on_rpc (GetBlockHeight c)) false);
   ("gettransaction", mkHandler (fun c => on_rpc (GetTransactionByHash c)) false);
   ("getasset", mkHandler (fun c => on_rpc (GetAssetByHash c)) false);
   ("getunspendoutput", mkHandler (fun c => on_rpc (GetUnspendOutput c)) false);
   ("sendrawtransaction", mkHandler ws_sendRawTransaction false);
   ("sendrecord", mkHandler (fun c => on_rpc (SendRecord marshal innerTime c)) false);
   ("heartbeat", mkHandler heartbeat false);
   ("sendtest", mkHandler sendtest true);
   ("gettxhashmap", mkHandler gettxhashmap false);
   ("getsessioncount", mkHandler getsessioncount false)]%string.
Definition find_action (name : bytes) : option Handler := snd <$> List.find (fun e => bool_decide (str e.1 = name)) ActionMap.

(** A field that is there and not a text. *)
Definition not_text (req : gmap bytes json) (name : string) : bool :=
  match req !! str name with None | Some (JStr _) | Some JNull => false | _ => true end.
Definition IsValidMsg (req : gmap bytes json) : bool := negb (not_text req "Hash" || not_text req "Addr" || not_text req "Assetid").
(** [int64] of a number, as amd64 has it, in decimal. *)
Definition FormatInt (n : Z) : bytes :=
  let n := if (- 2 ^ 63 <=? n) && (n <? 2 ^ 63) then n else - 2 ^ 63 in
  if n <? 0 then str "-" ++ big_String (- n) else big_String n.
Definition number_text (name : string) (req : gmap bytes json) : gmap bytes json :=
  match req !! str name with Some (JNum n) => <[str name := JStr (FormatInt n)]> req | _ => req end.

(** [p]: the session, [body]: the fields of the message, [None] when it is not an
    object.  The result tells whether the session counts as active. *)
Definition reply (p : positive) (action : bytes) (r : response) : wsM unit := on_ws (fun ws => ws_response (GetSessionId ws p) action r ws).
Definition OnDataHandle (p : positive) (body : option (gmap bytes json)) : wsM bool :=
  match body with
  | None => _ ← reply p [] (ResponsePack ILLEGAL_DATAFORMAT); mret false
  | Some req =>
      match field req "Action" with
      | None => _ ← reply p [] (ResponsePack INVALID_METHOD); mret false
      | Some actionName =>
          match find_action actionName with
          | None => _ ← reply p [] (ResponsePack INVALID_METHOD); mret false
          | Some action =>
              if negb (IsValidMsg req) then _ ← reply p [] (ResponsePack INVALID_PARAMS); mret true else
              let req := number_text "Raw" (number_text "Height" req) in
              (* the reply of the OAuth server, told with the error, is left out *)
              let '(CAkey, errCode) :=
                if bool_decide (actionName = str "heartbeat") then ([], 0)
                else checkAccessToken (default [] (field req "auth_type")) (default [] (field req "access_token")) in
              if 0 <? errCode then _ ← reply p [] (ResponsePack errCode); mret true else
              let req := if bool_decide (actionName = str "heartbeat") then req else put_text "CAkey" CAkey req in
              id ← look_ws (fun ws => GetSessionId ws p);
              resp ← h_handler action (put_text "Userid" id req);
              _ ← (match rs_Result resp with
                   | VText txHash => if pushFlag action then on_ws (fun ws => SetTxHashMap txHash (GetSessionId ws p) ws) else mret tt
                   | _ => mret tt
                   end);
              _ ← reply p actionName resp;
              mret true
          end
      end
  end.
(** A message read from the connection, at a time. *)
Definition on_message (now : Z) (p : positive) (body : option (gmap bytes json)) : wsM unit :=
  handled ← OnDataHandle p body : wsM bool;
  if handled : bool then
    on_ws (fun ws => match ws_heap ws !! p with Some s => set_session p (UpdateActiveTime now s) ws | None => ws end)
  else mret tt.
End Requests.

(** * Answers go where they were asked for *)

(** The sessions and what was written stay, and only entries for the session
    [id] are added to the map of transactions. *)
Record handled_for (id : bytes) (ws ws' : WsServer) : Prop := {
  hf_heap : ws_heap ws' = ws_heap ws;
  hf_online : mapOnlineList ws' = mapOnlineList ws;
  hf_log : ws_log ws' = ws_log ws;
  hf_tx h v : TxHashMap ws' !! h = Some v -> TxHashMap ws !! h = Some v \/ v = id }.
Lemma handled_refl id ws : handled_for id ws ws.
Proof. split; auto. Qed.
Lemma handled_trans id a b c : handled_for id a b -> handled_for id b c -> handled_for id a c.
Proof.
  intros [H1 H2 H3 H4] [K1 K2 K3 K4]. split; [congruence..|]. intros h v Hv. destruct (K4 h v Hv) as [Hb| ->]; [|by right]. by apply H4.
Qed.
Lemma handled_SetTxHashMap id h ws : handled_for id ws (SetTxHashMap h id ws).
Proof.
  split; [done..|]. intros h' v. cbn. destruct (decide (h = h')) as [->|Hn]; [rewrite lookup_insert_eq; intros [= <-]; by right|].
  rewrite lookup_insert_ne by done. by left.
Qed.

(** The list holds exactly the sessions that are open, each under its identifier,
    and a session without connection has none. *)
Record ws_wf (ws : WsServer) : Prop := {
  wf_listed id p : mapOnlineList ws !! id = Some p <-> exists s, ws_heap ws !! p = Some s /\ sSessionId s = id /\ id <> [];
  wf_open p s : ws_heap ws !! p = Some s -> mConnection s = true <-> sSessionId s <> [] }.

Lemma respond_open ws p s action r : ws_wf ws -> ws_heap ws !! p = Some s -> mConnection s = true ->
  ws_response (GetSessionId ws p) action r ws = write_message p (message action r) ws.
Proof.
  intros W Hp Hc. unfold ws_response, ws_send, GetSessionById, GetSessionId, session_Send. rewrite Hp.
  rewrite (proj2 (wf_listed ws W (sSessionId s) p)); [by rewrite Hp, Hc|]. exists s. split; [done|]. split; [done|]. by apply (wf_open ws W p s Hp).
Qed.
Lemma respond_closed ws p s action r : ws_wf ws -> ws_heap ws !! p = Some s -> mConnection s = false ->
  ws_response (GetSessionId ws p) action r ws = ws.
Proof.
  intros W Hp Hc. unfold ws_response, ws_send, GetSessionById, GetSessionId. rewrite Hp.
  destruct (mapOnlineList ws !! sSessionId s) as [q|] eqn:E; [|done]. apply (wf_listed ws W) in E as (s' & _ & _ & Hn).
  apply (wf_open ws W p s Hp) in Hn. congruence.
Qed.

(** A request of the session [s] at [p] was answered: one message to it if it is
    open, with the text of its code, and a reason when it was not understood. *)
Definition answered (p : positive) (s : Session) (b : bool) (ws ws' : WsServer) : Prop :=
  (exists m, ws_log ws' = ws_log ws ++ (if mConnection s then [(p, m)] else []) /\
     wm_Desc m = Desc (wm_Error m) /\ (b = false -> wm_Error m = ILLEGAL_DATAFORMAT \/ wm_Error m = INVALID_METHOD)) /\
  ws_heap ws' = ws_heap ws /\ mapOnlineList ws' = mapOnlineList ws /\
  (forall h id, TxHashMap ws' !! h = Some id -> TxHashMap ws !! h = Some id \/ id = sSessionId s).

Section Answered.
Context {DB : Type} `{IStore DB} `{IIterator DB} `{IBase58} `{ICrypto}.
Context (cfg : Config) (nc : NetConfig) (ripemd160 : bytes -> bytes) (checkAccessToken : bytes -> bytes -> bytes * Z).
Context (marshal : gmap bytes json -> bytes -> option bytes) (innerTime : bytes).
#[local] Abbreviation wsM := (wsM (DB := DB)).

Definition keeps (id : bytes) {A} (m : wsM A) : Prop := forall s s' a, m s = Ok (s', a) -> handled_for id s.1 s'.1.
Lemma ws_keeps_ret id {A} (a : A) : keeps id (mret a : wsM A).
Proof. intros s s' b [= <- <-]. apply handled_refl. Qed.
Lemma ws_keeps_bind id {A B} (m : wsM A) (f : A -> wsM B) : keeps id m -> (forall a, keeps id (f a)) -> keeps id (m ≫= f).
Proof.
  intros Hm Hf s s' b E. unfold mbind, wsM_bind in E. destruct (m s) as [[s1 a]| |] eqn:Em; [|done..].
  eapply handled_trans; [exact (Hm _ _ _ Em)|exact (Hf a _ _ _ E)].
Qed.
Lemma keeps_rpc id {A} (m : rpcM (DB := DB) A) : keeps id (on_rpc m).
Proof. intros [ws r] s' a E. unfold on_rpc in E. destruct (m _) as [[r' a']| |]; [|done..]. injection E as <- <-. apply handled_refl. Qed.
Lemma keeps_look id {A} (f : WsServer -> A) : keeps id (look_ws f).
Proof. intros s s' a [= <- <-]. apply handled_refl. Qed.
Lemma keeps_set id h : keeps id (on_ws (SetTxHashMap h id) : wsM unit).
Proof. intros [ws r] s' a [= <- <-]. apply handled_SetTxHashMap. Qed.
#[local] Hint Resolve ws_keeps_ret ws_keeps_bind keeps_rpc keeps_look keeps_set : core.

(** The user told of a transaction is the one of the command. *)
Lemma SendRawTransaction_Userid cmd (s s' : rpc (DB := DB)) resp u :
  SendRawTransaction cfg nc ripemd160 cmd s = Ok (s', resp) -> rs_Userid resp = Some u -> field cmd "Userid" = Some u.
Proof.
  unfold SendRawTransaction. destruct (field cmd "Data") as [d|]; [|by intros [= <- <-]].
  destruct (HexStringToBytes d) as [hex e]. destruct (is_err e); [by intros [= <- <-]|].
  unfold mbind, rpcM_bind, must. destruct (Tx_Deserialize _ _) as [[[txn e'] rest]|]; [|done].
  destruct (is_err e'); [by intros [= <- <-]|]. destruct (hash_cached txn) as [[txn' hash]|]; [|done].
  destruct (VerifyAndSendTx cfg nc ripemd160 txn' s) as [[s1 code]| |]; [|done..].
  destruct (negb _); [by intros [= <- <-]|]. intros [= <- <-]. cbn [rs_Userid]. destruct (TxType txn' =? 209); [|done].
  destruct (field cmd "Userid") as [v|]; [|done]. destruct (length v =? 0)%nat; [done|]. congruence.
Qed.
Lemma keeps_sendRaw id cmd : field cmd "Userid" = Some id -> keeps id (ws_sendRawTransaction cfg nc ripemd160 cmd).
Proof.
  intros Hu [ws r] s' a E. unfold ws_sendRawTransaction, mbind, wsM_bind in E. unfold on_rpc in E at 1. cbn [fst snd] in E.
  destruct (SendRawTransaction cfg nc ripemd160 cmd r) as [[r' resp]| |] eqn:Es; [|done..].
  destruct (rs_Userid resp) as [u|] eqn:Eu; [|injection E as <- <-; apply handled_refl].
  assert (u = id) as -> by (pose proof (SendRawTransaction_Userid _ _ _ _ _ Es Eu); congruence).
  destruct (0 <? length id)%nat; [|injection E as <- <-; apply handled_refl].
  destruct (rs_Result resp); injection E as <- <-; solve [apply handled_refl|apply handled_SetTxHashMap].
Qed.
Lemma keeps_action id cmd name h : find_action cfg nc ripemd160 marshal innerTime name = Some h -> field cmd "Userid" = Some id ->
  keeps id (h_handler h cmd).
Proof.
  intros Hf Hu. unfold find_action in Hf. destruct (List.find _ _) as [[n h']|] eqn:E; [|done]. injection Hf as ->.
  apply List.find_some in E as [Hi _]. cbn [ActionMap In] in Hi.
  repeat match type of Hi with _ \/ _ => destruct Hi as [Hi|Hi] end; (done || injection Hi as <- <-); cbn [h_handler];
    try apply keeps_rpc; try by apply keeps_sendRaw.
  all: unfold gettxhashmap, getsessioncount, sendtest, heartbeat; auto.
Qed.

Lemma answered_intro ws ws1 p s action a b : ws_wf ws -> ws_heap ws !! p = Some s -> handled_for (sSessionId s) ws ws1 ->
  (b = false -> rs_Error a = ILLEGAL_DATAFORMAT \/ rs_Error a = INVALID_METHOD) ->
  answered p s b ws (ws_response (GetSessionId ws1 p) action a ws1).
Proof.
  intros W Hp [E1 E2 E3 E4] Hb.
  assert (W1 : ws_wf ws1) by (destruct W as [Wa Wb]; split; rewrite ?E1, ?E2; assumption).
  unfold answered. destruct (mConnection s) eqn:Ec.
  - rewrite (respond_open ws1 p s) by (done || by rewrite E1). cbn. rewrite E1, E2, E3. split; [|auto]. by exists (message action a).
  - rewrite (respond_closed ws1 p s) by (done || by rewrite E1). rewrite E1, E2, E3. split; [|auto].
    exists (message action a). by rewrite app_nil_r.
Qed.

Lemma OnDataHandle_answers (ws ws' : WsServer) (r r' : rpc (DB := DB)) (p : positive) (s : Session) (body : option (gmap bytes json)) (b : bool) :
  ws_wf ws -> ws_heap ws !! p = Some s ->
  OnDataHandle cfg nc ripemd160 checkAccessToken marshal innerTime p body (ws, r) = Ok (ws', r', b) ->
  answered p s b ws ws'.
Proof.
  intros W Hp E. pose proof (handled_refl (sSessionId s) ws) as R0.
  unfold OnDataHandle in E.
  destruct body as [req|]; [|injection E as <- <- <-; apply answered_intro; auto].
  destruct (field req "Action") as [name|]; [|injection E as <- <- <-; apply answered_intro; auto].
  destruct (find_action _ _ _ _ _ name) as [h|] eqn:Ef; [|injection E as <- <- <-; apply answered_intro; auto].
  destruct (negb (IsValidMsg req)); [injection E as <- <- <-; by apply answered_intro|].
  set (req1 := number_text _ _) in E.
  destruct (if bool_decide (name = str "heartbeat") then ([], 0) else checkAccessToken _ _) as [CAkey code].
  destruct (0 <? code); [injection E as <- <- <-; by apply answered_intro|].
  set (req2 := if bool_decide _ then req1 else _) in E. unfold mbind, wsM_bind in E. unfold look_ws in E at 1. cbn [fst] in E.
  assert (Eid : GetSessionId ws p = sSessionId s) by (unfold GetSessionId; by rewrite Hp). rewrite Eid in E.
  destruct (h_handler h (put_text "Userid" (sSessionId s) req2) (ws, r)) as [[[ws1 r1] resp]| |] eqn:Eh; [|done..].
  assert (K1 : handled_for (sSessionId s) ws ws1).
  { refine (keeps_action (sSessionId s) _ name h Ef _ _ _ _ Eh). unfold field, put_text. by rewrite lookup_insert_eq. }
  assert (Eid1 : GetSessionId ws1 p = sSessionId s) by (unfold GetSessionId; rewrite (hf_heap _ _ _ K1); by rewrite Hp).
  assert (exists ws2, handled_for (sSessionId s) ws ws2 /\ ws' = ws_response (GetSessionId ws2 p) name resp ws2 /\ b = true) as (ws2 & K2 & -> & ->).
  { destruct (rs_Result resp); try (injection E as <- <- <-; by exists ws1). destruct (pushFlag h); injection E as <- <- <-; [|by exists ws1].
    exists (SetTxHashMap s0 (GetSessionId ws1 p) ws1). split; [|done]. eapply handled_trans; [exact K1|]. rewrite Eid1. apply handled_SetTxHashMap. }
  by apply answered_intro.
Qed.

(** A request read from an open session is answered exactly once, and to
    that session only, whatever it asks for; the message says why when it was not
    understood, in which case the session does not count as active; the sessions
    stay as they are, and only this session is remembered for a transaction.  On a
    session that was closed meanwhile nothing is written. *)
Theorem request_answered (ws ws' : WsServer) (r r' : rpc (DB := DB)) (p : positive) (s : Session) (body : option (gmap bytes json)) (b : bool) :
  ws_wf ws -> ws_heap ws !! p = Some s ->
  OnDataHandle cfg nc ripemd160 checkAccessToken marshal innerTime p body (ws, r) = Ok (ws', r', b) ->
  answered p s b ws ws'.
Proof. apply OnDataHandle_answers. Qed.
End Answered.

(** * Sessions come and go *)

Lemma ws_wf_same ws ws' : ws_heap ws' = ws_heap ws -> mapOnlineList ws' = mapOnlineList ws -> ws_wf ws -> ws_wf ws'.
Proof. intros E1 E2 [Wa Wb]. split; rewrite ?E1, ?E2; assumption. Qed.
Lemma InitWsServer_wf : ws_wf InitWsServer.
Proof.
  split; cbn; [|intros p s Hp; by rewrite lookup_empty in Hp]. intros id p. rewrite lookup_empty. split; [done|].
  intros (s & Hs & _). by rewrite lookup_empty in Hs.
Qed.
(** The list as a function of the heap: an address is listed under its identifier. *)
Lemma listed_at ws id p s : ws_wf ws -> mapOnlineList ws !! id = Some p -> ws_heap ws !! p = Some s -> sSessionId s = id /\ mConnection s = true.
Proof.
  intros W E Hp. apply (wf_listed ws W) in E as (s' & Hs & Hi & Hn). assert (s' = s) as -> by congruence.
  split; [done|]. apply (wf_open ws W p s Hp). congruence.
Qed.
Lemma in_sessions ws p : p ∈ sessions ws <-> exists id, mapOnlineList ws !! id = Some p.
Proof.
  unfold sessions. rewrite list_elem_of_In, in_map_iff. split.
  - intros ([id q] & <- & Hi). exists id. by apply elem_of_map_to_list, list_elem_of_In.
  - intros [id Hi]. exists (id, p). split; [done|]. by apply list_elem_of_In, elem_of_map_to_list.
Qed.

Lemma NewSession_wf now p id ws : ws_wf ws -> ws_heap ws !! p = None -> id <> [] -> (forall q s, ws_heap ws !! q = Some s -> sSessionId s <> id) ->
  ws_wf (NewSession now p id ws).
Proof.
  intros W Hp Hid Hf. unfold NewSession, addOnlineSession, GetSessionId. cbn [set_session ws_heap]. rewrite lookup_insert_eq.
  cbn [newSession sSessionId]. rewrite bool_decide_false by done. split; cbn [set_online set_session ws_heap mapOnlineList].
  - intros i q. destruct (decide (i = id)) as [->|Hi].
    + rewrite lookup_insert_eq. split.
      * intros [= <-]. exists (newSession now id). by rewrite lookup_insert_eq.
      * intros (s & Hs & He & _). destruct (decide (q = p)) as [->|Hq]; [done|]. rewrite lookup_insert_ne in Hs by done. by destruct (Hf q s Hs).
    + rewrite lookup_insert_ne by done. rewrite (wf_listed ws W i q). split; intros (s & Hs & He & Hn).
      * exists s. rewrite lookup_insert_ne by congruence. done.
      * exists s. destruct (decide (q = p)) as [->|Hq]; [rewrite lookup_insert_eq in Hs; injection Hs as <-; done|]. by rewrite lookup_insert_ne in Hs by done.
  - intros q s. destruct (decide (q = p)) as [->|Hq].
    + rewrite lookup_insert_eq. by intros [= <-].
    + rewrite lookup_insert_ne by done. apply (wf_open ws W).
Qed.

(** Closing takes exactly that session out. *)
Lemma CloseSession_wf p ws : ws_wf ws -> ws_wf (CloseSession p ws) /\
  (forall id q, mapOnlineList (CloseSession p ws) !! id = Some q <-> mapOnlineList ws !! id = Some q /\ q <> p) /\
  (forall q, q <> p -> ws_heap (CloseSession p ws) !! q = ws_heap ws !! q).
Proof.
  intros W. unfold CloseSession, GetSessionId. destruct (ws_heap ws !! p) as [s|] eqn:Hp.
  2: { unfold removeSessionById. rewrite bool_decide_true by done. rewrite Hp. split; [done|]. split; [|done]. intros id q. split; [|by intros [? _]].
       intros E. split; [done|]. intros ->. apply (wf_listed ws W) in E as (s & Hs & _). congruence. }
  assert (Hl : forall id q, mapOnlineList (removeSessionById (sSessionId s) ws) !! id = Some q <-> mapOnlineList ws !! id = Some q /\ q <> p).
  { intros id q. unfold removeSessionById. destruct (bool_decide_reflect (sSessionId s = [])) as [E|E].
    - split; [|by intros [? _]]. intros H. split; [done|]. intros ->. destruct (listed_at ws id p s W H Hp) as [<- _].
      apply (wf_listed ws W) in H as (_ & _ & _ & Hn). done.
    - cbn [set_online mapOnlineList]. assert (Ep : mapOnlineList ws !! sSessionId s = Some p) by (apply (wf_listed ws W); by exists s).
      rewrite lookup_delete_Some. split; intros [H1 H2]; split; try done.
      + intros ->. by destruct (listed_at ws id p s W H2 Hp) as [<- _].
      + intros <-. congruence. }
  assert (Hh : ws_heap (removeSessionById (sSessionId s) ws) = ws_heap ws) by (unfold removeSessionById; by destruct (bool_decide _)).
  rewrite Hh, Hp. cbn [set_session mapOnlineList ws_heap]. rewrite Hh. split; [|split; [exact Hl|intros q Hq; by rewrite lookup_insert_ne]].
  split; cbn [mapOnlineList ws_heap set_session]; rewrite ?Hh.
  - intros id q. rewrite Hl. split.
    + intros [E Hq]. apply (wf_listed ws W) in E as (s' & Hs & He). exists s'. by rewrite lookup_insert_ne.
    + intros (s' & Hs & He & Hn). destruct (decide (q = p)) as [->|Hq]; [rewrite lookup_insert_eq in Hs; injection Hs as <-; by subst|].
      rewrite lookup_insert_ne in Hs by done. split; [|done]. apply (wf_listed ws W). by exists s'.
  - intros q s'. destruct (decide (q = p)) as [->|Hq]; [rewrite lookup_insert_eq; by intros [= <-]|]. rewrite lookup_insert_ne by done. apply (wf_open ws W).
Qed.
Lemma CloseSession_rest p ws : TxHashMap (CloseSession p ws) = TxHashMap ws /\ ws_log (CloseSession p ws) = ws_log ws.
Proof.
  unfold CloseSession, removeSessionById. destruct (bool_decide _); cbn [set_online]; destruct (_ !! p); done.
Qed.
Lemma close_all l : forall ws, ws_wf ws -> let ws' := foldl (fun ws p => CloseSession p ws) ws l in
  ws_wf ws' /\ (forall id q, mapOnlineList ws' !! id = Some q <-> mapOnlineList ws !! id = Some q /\ q ∉ l) /\
  TxHashMap ws' = TxHashMap ws /\ ws_log ws' = ws_log ws.
Proof.
  induction l as [|p l IH]; intros ws W; cbn [foldl].
  - split; [done|]. split; [|done]. intros id q. split; [|by intros [? _]]. intros E. split; [done|apply not_elem_of_nil].
  - destruct (CloseSession_wf p ws W) as (W1 & L1 & _). destruct (CloseSession_rest p ws) as [T1 G1].
    destruct (IH _ W1) as (W2 & L2 & T2 & G2). cbn zeta in *. split; [done|]. split; [|by rewrite T2, G2].
    intros id q. rewrite L2, L1, not_elem_of_cons. tauto.
Qed.
Lemma tell_all ws action r l : forall ws0, ws_wf ws -> ws_heap ws0 = ws_heap ws -> mapOnlineList ws0 = mapOnlineList ws ->
  (forall p, p ∈ l -> exists id, mapOnlineList ws !! id = Some p) ->
  foldl (fun ws p => ws_response (GetSessionId ws p) action r ws) ws0 l =
  mkWs (ws_heap ws) (mapOnlineList ws) (TxHashMap ws0) (ws_log ws0 ++ map (fun p => (p, message action r)) l).
Proof.
  induction l as [|p l IH]; intros ws0 W Eh Eo Hl; cbn [foldl map].
  - rewrite app_nil_r. destruct ws0; cbn in *; congruence.
  - destruct (Hl p ltac:(apply list_elem_of_here)) as [id Hid]. pose proof Hid as Hid'. apply (wf_listed ws W) in Hid as (s & Hs & Hi & Hn).
    rewrite (respond_open ws0 p s); [|by apply (ws_wf_same ws)|by rewrite Eh|apply (wf_open ws W p s Hs); congruence].
    rewrite IH by (done || (intros q Hq; apply Hl; by apply list_elem_of_further)). cbn. by rewrite <- app_assoc.
Qed.

Lemma in_expired now ws p : p ∈ expired now ws <-> p ∈ sessions ws /\ exists s, ws_heap ws !! p = Some s /\ sessionTimeOut < now - nLastActive s.
Proof.
  unfold expired. rewrite !list_elem_of_In, filter_In. apply and_iff_compat_l. destruct (ws_heap ws !! p) as [s|].
  - unfold SessionTimeoverCheck. rewrite Z.ltb_lt. split; [intros E; by exists s|]. intros (s' & [= <-] & E). done.
  - split; [done|]. by intros (s & ? & _).
Qed.
Lemma tick_spec now ws : ws_wf ws -> let ws' := checkSessionsTimeout now ws in
  ws_wf ws' /\ (forall id q, mapOnlineList ws' !! id = Some q <-> mapOnlineList ws !! id = Some q /\ q ∉ expired now ws) /\
  TxHashMap ws' = TxHashMap ws /\ ws_log ws' = ws_log ws ++ map (fun p => (p, message [] (ResponsePack SESSION_EXPIRED))) (expired now ws).
Proof.
  intros W. unfold checkSessionsTimeout. rewrite (tell_all ws [] (ResponsePack SESSION_EXPIRED) (expired now ws) ws W eq_refl eq_refl).
  2: { intros p Hp. apply in_expired in Hp as [Hp _]. by apply in_sessions. }
  destruct (close_all (expired now ws) (mkWs (ws_heap ws) (mapOnlineList ws) (TxHashMap ws)
    (ws_log ws ++ map (fun p => (p, message [] (ResponsePack SESSION_EXPIRED))) (expired now ws)))) as (W' & L & T & G);
    [by apply (ws_wf_same ws)|]. cbn zeta in *. by rewrite T, G.
Qed.

(** When the server looks for silent sessions, exactly those that sent
    nothing it understood for more than 120 seconds are told so, closed and taken
    off the list; the others stay and are told nothing.  The transactions a closed
    session asked about stay in the map, although no session has its identifier
    any more, also after the goroutine of its connection has ended, which removes the
    entries of the empty identifier only; the goroutine of a session that was
    open removes them. *)
Theorem silent_sessions (now : Z) (ws : WsServer) (p : positive) (s : Session) :
  ws_wf ws -> ws_heap ws !! p = Some s -> mConnection s = true ->
  let ws' := checkSessionsTimeout now ws in
  let silent := sessionTimeOut <? now - nLastActive s in
  (mapOnlineList ws' !! sSessionId s = if silent then None else Some p) /\
  (In (p, message [] (ResponsePack SESSION_EXPIRED)) (drop (length (ws_log ws)) (ws_log ws')) <-> silent = true) /\
  (forall h, TxHashMap ws !! h = Some (sSessionId s) ->
     (silent = true -> TxHashMap (handler_exit p ws') !! h = Some (sSessionId s)) /\
     TxHashMap (handler_exit p ws) !! h = None).
Proof.
  intros W Hp Hc ws' silent. destruct (tick_spec now ws W) as (W' & L & T & G). fold ws' in W', L, T, G.
  assert (Hl : mapOnlineList ws !! sSessionId s = Some p).
  { apply (wf_listed ws W). exists s. split; [done|]. split; [done|]. by apply (wf_open ws W p s Hp). }
  assert (He : p ∈ expired now ws <-> silent = true).
  { rewrite in_expired. unfold silent. rewrite Z.ltb_lt. split; [intros [_ (s' & Hs & E)]; congruence|]. intros E.
    split; [apply in_sessions; by exists (sSessionId s)|]. by exists s. }
  split; [|split].
  - destruct silent eqn:Es.
    + destruct (mapOnlineList ws' !! sSessionId s) as [q|] eqn:E; [|done]. apply L in E as [E1 E2]. assert (q = p) as -> by congruence. by destruct E2; apply He.
    + apply L. split; [done|]. intros Hi. apply He in Hi. congruence.
  - rewrite G, drop_app_length, in_map_iff, <- He, list_elem_of_In. split; [intros (q & [= <-] & Hq); done|]. intros Hq. by exists p.
  - intros h Hh. split.
    + intros Es. unfold handler_exit. rewrite (proj1 (CloseSession_rest _ _)). cbn [deleteTxHashs set_TxHashMap TxHashMap].
      assert (Ei : GetSessionId ws' p = []).
      { unfold GetSessionId. destruct (ws_heap ws' !! p) as [s'|] eqn:Es'; [|done]. destruct (decide (sSessionId s' = [])) as [E|E]; [done|].
        assert (mapOnlineList ws' !! sSessionId s' = Some p) as E' by (apply (wf_listed ws' W'); by exists s').
        apply L in E' as [_ E']. by destruct E'; apply He. }
      rewrite Ei, T. apply map_lookup_filter_Some. split; [done|]. cbn. by apply (wf_open ws W p s Hp).
    + unfold handler_exit. rewrite (proj1 (CloseSession_rest _ _)). cbn [deleteTxHashs set_TxHashMap TxHashMap]. apply map_lookup_filter_None. right.
      intros v Hv. cbn. assert (v = sSessionId s) as -> by congruence. unfold GetSessionId. rewrite Hp. intros Hn. by apply Hn.
Qed.

(** * What the server can do *)

Section Steps.
Context {DB : Type} `{IStore DB} `{IIterator DB} `{IBase58} `{ICrypto}.
Context (cfg : Config) (nc : NetConfig) (ripemd160 : bytes -> bytes) (checkAccessToken : bytes -> bytes -> bytes * Z).
Context (marshal : gmap bytes json -> bytes -> option bytes).

(** A panic of a handler ends the goroutine of its connection; what it did to
    the node before is not told.  Each event is one step: between the removal of
    a session from the list and the closing of its connection, two
    statements of [CloseSession] that no lock holds together, other goroutines
    can see a state that is none of these, so what is shown of the states is shown of
    those in which no event is half done. *)
Inductive ws_step : WsServer * rpc (DB := DB) -> WsServer * rpc (DB := DB) -> Prop :=
  | step_connect now p id ws r : ws_heap ws !! p = None -> id <> [] -> (forall q s, ws_heap ws !! q = Some s -> sSessionId s <> id) ->
      ws_step (ws, r) (NewSession now p id ws, r)
  | step_message now innerTime p body st st' s : ws_heap st.1 !! p = Some s ->
      on_message cfg nc ripemd160 checkAccessToken marshal innerTime now p body st = Ok (st', tt) -> ws_step st st'
  | step_panic now innerTime p body ws r r' : on_message cfg nc ripemd160 checkAccessToken marshal innerTime now p body (ws, r) = Panic ->
      ws_step (ws, r) (handler_exit p ws, r')
  | step_tick now ws r : ws_step (ws, r) (checkSessionsTimeout now ws, r)
  | step_exit p ws r : ws_step (ws, r) (handler_exit p ws, r)
  | step_push_tx txHash action a ws r : ws_step (ws, r) (PushTxResult txHash action a ws, r)
  | step_push action a ws r : ws_step (ws, r) (PushResult action a ws, r)
  | step_set_tx txHash id ws r : ws_step (ws, r) (SetTxHashMap txHash id ws, r)
  | step_node ws r r' : ws_step (ws, r) (ws, r').

(** Every message went to a session that was opened. *)
Definition log_ok (ws : WsServer) : Prop := Forall (fun pm => is_Some (ws_heap ws !! pm.1)) (ws_log ws).

Lemma session_Send_ok p m ws : ws_wf ws -> log_ok ws -> ws_wf (session_Send p m ws) /\ log_ok (session_Send p m ws).
Proof.
  intros W K. unfold session_Send. destruct (ws_heap ws !! p) as [s|] eqn:Hp; [|done]. destruct (mConnection s); [|done].
  split; [by apply (ws_wf_same ws)|]. unfold log_ok. cbn. apply Forall_app. split; [exact K|]. constructor; [by eexists|constructor].
Qed.
Lemma ws_send_ok id m ws : ws_wf ws -> log_ok ws -> ws_wf (ws_send id m ws) /\ log_ok (ws_send id m ws).
Proof. intros W K. unfold ws_send. destruct (GetSessionById ws id); [by apply session_Send_ok|done]. Qed.
Lemma send_all_ok m l : forall ws, ws_wf ws -> log_ok ws -> let ws' := foldl (fun ws p => session_Send p m ws) ws l in ws_wf ws' /\ log_ok ws'.
Proof. induction l as [|p l IH]; intros ws W K; [done|]. cbn [foldl]. apply IH; by apply session_Send_ok. Qed.
Lemma close_log p ws : log_ok ws -> log_ok (CloseSession p ws).
Proof.
  intros K. unfold log_ok. rewrite (proj2 (CloseSession_rest p ws)). eapply list.Forall_impl; [exact K|]. intros [q m] Hq. cbn in *.
  unfold CloseSession. assert (Hh : ws_heap (removeSessionById (GetSessionId ws p) ws) = ws_heap ws) by (unfold removeSessionById; by destruct (bool_decide _)).
  rewrite Hh. destruct (ws_heap ws !! p); cbn; rewrite Hh; [|done]. destruct (decide (q = p)) as [->|]; [rewrite lookup_insert_eq; by eexists|by rewrite lookup_insert_ne].
Qed.
Lemma close_all_log l : forall ws, log_ok ws -> log_ok (foldl (fun ws p => CloseSession p ws) ws l).
Proof. induction l as [|p l IH]; intros ws K; [done|]. cbn [foldl]. apply IH. by apply close_log. Qed.
Lemma tell_all_ok action r l : forall ws, ws_wf ws -> log_ok ws ->
  let ws' := foldl (fun ws p => ws_response (GetSessionId ws p) action r ws) ws l in ws_wf ws' /\ log_ok ws'.
Proof. induction l as [|p l IH]; intros ws W K; [done|]. cbn [foldl]. apply IH; by apply ws_send_ok. Qed.
Lemma touch_ok now p s ws : ws_heap ws !! p = Some s -> ws_wf ws -> log_ok ws ->
  ws_wf (set_session p (UpdateActiveTime now s) ws) /\ log_ok (set_session p (UpdateActiveTime now s) ws).
Proof.
  intros Hp W K. split; [split; cbn [set_session ws_heap mapOnlineList]|].
  - intros id q. rewrite (wf_listed ws W id q). destruct (decide (q = p)) as [->|Hq]; [|by rewrite lookup_insert_ne].
    rewrite lookup_insert_eq. split; intros (s' & Hs & He & Hn).
    + exists (UpdateActiveTime now s). assert (s' = s) as -> by congruence. done.
    + injection Hs as <-. by exists s.
  - intros q s'. destruct (decide (q = p)) as [->|Hq]; [|rewrite lookup_insert_ne by done; apply (wf_open ws W)].
    rewrite lookup_insert_eq. intros [= <-]. cbn. by apply (wf_open ws W p s).
  - unfold log_ok. cbn. eapply list.Forall_impl; [exact K|]. intros [q m] Hq. cbn in *.
    destruct (decide (q = p)) as [->|]; [rewrite lookup_insert_eq; by eexists|by rewrite lookup_insert_ne].
Qed.
Lemma on_message_ok now innerTime p body s st st' : ws_wf st.1 -> log_ok st.1 -> ws_heap st.1 !! p = Some s ->
  on_message cfg nc ripemd160 checkAccessToken marshal innerTime now p body st = Ok (st', tt) -> ws_wf st'.1 /\ log_ok st'.1.
Proof.
  intros W K Hp E. unfold on_message, mbind, wsM_bind in E. destruct st as [ws r]. cbn [fst] in *.
  destruct (OnDataHandle _ _ _ _ _ _ p body (ws, r)) as [[[ws1 r1] b]| |] eqn:Eo; [|done..].
  destruct (OnDataHandle_answers cfg nc ripemd160 checkAccessToken marshal innerTime ws ws1 r r1 p s body b W Hp Eo) as ((m & Hm & _) & Hh & Hl & _).
  assert (W1 : ws_wf ws1) by (by apply (ws_wf_same ws)).
  assert (K1 : log_ok ws1).
  { unfold log_ok. rewrite Hm, Hh. apply Forall_app. split; [exact K|]. destruct (mConnection s); [|constructor]. constructor; [by eexists|constructor]. }
  destruct b; injection E as <-; [|done]. cbn [fst]. rewrite Hh, Hp. apply touch_ok; [by rewrite Hh|done..].
Qed.
Lemma exit_ok p ws : ws_wf ws -> log_ok ws -> ws_wf (handler_exit p ws) /\ log_ok (handler_exit p ws).
Proof. intros W K. unfold handler_exit. split; [refine (proj1 (CloseSession_wf p _ _)); by apply (ws_wf_same ws)|by apply close_log]. Qed.
Lemma ws_step_ok st st' : ws_step st st' -> ws_wf st.1 -> log_ok st.1 -> ws_wf st'.1 /\ log_ok st'.1.
Proof.
  intros Hs W K. destruct Hs; cbn [fst] in *.
  - split; [by apply NewSession_wf|]. unfold log_ok, NewSession, addOnlineSession, GetSessionId. cbn [set_session ws_heap]. rewrite lookup_insert_eq.
    cbn [newSession sSessionId]. rewrite bool_decide_false by done. cbn. eapply list.Forall_impl; [exact K|]. intros [q m] Hq. cbn in *.
    destruct (decide (q = p)) as [->|]; [rewrite lookup_insert_eq; by eexists|by rewrite lookup_insert_ne].
  - by apply (on_message_ok now innerTime p body s st).
  - by apply exit_ok.
  - destruct (tell_all_ok [] (ResponsePack SESSION_EXPIRED) (expired now ws) ws W K) as [W1 K1]. cbn zeta in *.
    split; [exact (proj1 (close_all _ _ W1))|by apply close_all_log].
  - by apply exit_ok.
  - unfold PushTxResult. destruct (0 <? _)%nat; [|split; [by apply (ws_wf_same ws)|done]]. apply ws_send_ok; [by apply (ws_wf_same ws)|done].
  - by apply send_all_ok.
  - split; [by apply (ws_wf_same ws)|done].
  - done.
Qed.

(** C38: Whatever happens to the server, one event after the other - connections, messages, handlers that
    panic, ticks of the clock, ends of connections, results pushed to one session or
    to all, in any order - the list of sessions holds exactly the open sessions,
    each under its own identifier, no two share one, a session is open exactly while
    it has a connection, and every message was written to a session that had been
    opened. *)
Theorem sessions_consistent (r r' : rpc (DB := DB)) (ws : WsServer) :
  rtc ws_step (InitWsServer, r) (ws, r') ->
  (forall id p, mapOnlineList ws !! id = Some p <-> exists s, ws_heap ws !! p = Some s /\ sSessionId s = id /\ mConnection s = true) /\
  (forall p q s s', ws_heap ws !! p = Some s -> ws_heap ws !! q = Some s' -> mConnection s = true -> sSessionId s = sSessionId s' -> p = q) /\
  Forall (fun pm => is_Some (ws_heap ws !! pm.1)) (ws_log ws).
Proof.
  intros Hr. assert (ws_wf ws /\ log_ok ws) as [W K].
  { assert (G : forall st st' : WsServer * rpc, rtc ws_step st st' -> ws_wf st.1 -> log_ok st.1 -> ws_wf st'.1 /\ log_ok st'.1).
    { induction 1 as [|st1 st2 st3 Hs _ IH]; [done|]. intros W K. destruct (ws_step_ok _ _ Hs W K). by apply IH. }
    exact (G _ _ Hr InitWsServer_wf (List.Forall_nil _)). }
  split; [|split; [|exact K]].
  - intros id p. rewrite (wf_listed ws W id p). split; intros (s & Hs & He & Hn); exists s; (split; [done|split; [done|]]).
    + apply (wf_open ws W p s Hs). congruence.
    + apply (wf_open ws W p s Hs) in Hn. congruence.
  - intros p q s s' Hs Hs' Hc He. apply (wf_open ws W p s Hs) in Hc.
    assert (mapOnlineList ws !! sSessionId s = Some p) as E1 by (apply (wf_listed ws W); by exists s).
    assert (mapOnlineList ws !! sSessionId s = Some q) as E2 by (apply (wf_listed ws W); by exists s').
    congruence.
Qed.
End Steps.

(** * Records *)

Lemma record_pieces_spec fuel data : (length data <= fuel)%nat ->
  concat (record_pieces fuel data) = data /\ Forall (fun x => (0 < length x <= AttributeMaxLen)%nat) (record_pieces fuel data).
Proof.
  revert data. induction fuel as [|fuel IH]; intros data Hf.
  { destruct data; [by split; [|constructor]|cbn in Hf; lia]. }
  destruct data as [|x data]; [by split; [|constructor]|]. cbn [record_pieces concat].
  destruct (IH (drop AttributeMaxLen (x :: data))) as [E F].
  { rewrite length_drop. unfold AttributeMaxLen in *. cbn [length] in *. lia. }
  rewrite E, take_drop. split; [done|]. constructor; [|done]. rewrite length_take. unfold AttributeMaxLen in *. cbn [length]. lia.
Qed.

Section Records.
Context {DB : Type} `{IStore DB} `{ICrypto}.
Context (cfg : Config) (nc : NetConfig) (ripemd160 : bytes -> bytes).

Lemma record_insane `{Ledger} innerTime data code : CheckTransactionSanity cfg ripemd160 (record_transaction innerTime data) = Ok code -> code = ErrTransactionSize \/ code = ErrInvalidInput.
Proof.
  unfold CheckTransactionSanity, mbind, outcome_bind. destruct (CheckTransactionSize _) as [e| |]; [|done..].
  destruct (is_err e); [intros [= <-]; by left|]. intros [= <-]. by right.
Qed.

(** A transaction the pool refuses leaves the node as it was. *)
Lemma refused_unchanged (s s' : rpc (DB := DB)) tx c :
  (forall c', CheckTransactionSanity (H := store_ledger (bc_Store (w_chain (rpc_node s)))) cfg ripemd160 tx = Ok c' -> c' <> ErrNoError) ->
  VerifyAndSendTx cfg nc ripemd160 tx s = Ok (s', c) -> s' = s /\ CheckTransactionSanity (H := store_ledger (bc_Store (w_chain (rpc_node s)))) cfg ripemd160 tx = Ok c.
Proof.
  intros Hc. unfold VerifyAndSendTx, chain, look, run. unfold mbind at 1 2 3 4, rpcM_bind at 1 2 3 4. unfold AppendTxnPool at 1.
  destruct (CheckTransactionSanity (H := store_ledger (bc_Store (w_chain (rpc_node s)))) cfg ripemd160 tx) as [c'| |] eqn:Es; [|done..].
  specialize (Hc c' eq_refl). unfold mbind at 1, outcome_bind at 1. rewrite bool_decide_false by done. cbn [negb]. unfold mret at 1, outcome_ret at 1.
  cbn iota. unfold on_node at 1. cbn iota. rewrite bool_decide_false by done. cbn [negb]. intros [= <- <-]. split; [|done].
  destruct s as [w ? ? ? ? ? ? ? ?]. unfold set_rpc_node. cbn. f_equal. destruct w. cbn. unfold set_w_tables. cbn. f_equal. by destruct w_tables.
Qed.

(** A record sent to the node is never accepted.  Its transaction keeps the
    record, cut into attributes of at most 252 bytes in order, but spends no
    output, and a transaction without inputs is refused: the answer is an error
    and the node is as before. *)
Theorem record_refused (marshal : gmap bytes json -> bytes -> option bytes) (innerTime : bytes) (cmd : gmap bytes json) (s s' : rpc (DB := DB)) (resp : response) :
  SendRecord cfg nc ripemd160 marshal innerTime cmd s = Ok (s', resp) ->
  s' = s /\
  match (getRecordData marshal cmd).1 with
  | None => rs_Error resp = INVALID_PARAMS
  | Some data =>
      (rs_Error resp = ErrCode_value ErrInvalidInput \/ rs_Error resp = ErrCode_value ErrTransactionSize) /\
      exists pieces, Attributes (record_transaction innerTime data) = NewTxAttribute Description innerTime :: map (NewTxAttribute Description) pieces /\
        concat pieces = data /\ Forall (fun x => (0 < length x <= 252)%nat) pieces
  end.
Proof.
  unfold SendRecord. destruct (getRecordData marshal cmd) as [[data|] code] eqn:Eg; cbn [fst].
  2: { intros [= <- <-]. split; [done|]. cbn. unfold getRecordData in Eg. repeat (case_match; simplify_eq; try done). }
  unfold mbind at 1, rpcM_bind at 1. destruct (VerifyAndSendTx _ _ _ _ s) as [[s1 c]| |] eqn:Ev; [|done..].
  destruct (refused_unchanged s s1 (record_transaction innerTime data) c) as [-> Hs]; [|exact Ev|].
  { intros c' Hc'. apply record_insane in Hc' as [-> | ->]; done. }
  apply record_insane in Hs. rewrite bool_decide_false by (intros ->; by destruct Hs). cbn [negb]. intros [= <- <-]. split; [done|].
  split; [cbn; destruct Hs as [-> | ->]; auto|].
  destruct (record_pieces_spec (length data) data) as [E F]; [lia|]. exists (record_pieces (length data) data). done.
Qed.
End Records.

(** * A server with two sessions *)

Definition one_connected : WsServer := NewSession 100 1 (str "a") InitWsServer.
Definition two_connected : WsServer := SetTxHashMap (str "tx") (str "a") (NewSession 200 2 (str "b") one_connected).
Definition open_access (auth_type access_token : bytes) : bytes * Z := ([], SUCCESS).
Definition no_record (cmd : gmap bytes json) (CAkey : bytes) : option bytes := None.
Lemma two_connected_wf : ws_wf two_connected.
Proof.
  apply (ws_wf_same (NewSession 200 2 (str "b") one_connected)); [done..|].
  apply NewSession_wf; [|vm_compute; reflexivity|done|].
  - apply NewSession_wf; [exact InitWsServer_wf|vm_compute; reflexivity|done|]. intros q s Hs. change ((∅ : gmap positive Session) !! q = Some s) in Hs. by rewrite lookup_empty in Hs.
  - intros q s Hs. change (<[1%positive := newSession 100 (str "a")]> (∅ : gmap positive Session) !! q = Some s) in Hs.
    apply lookup_insert_Some in Hs as [[<- <-]|[_ Hs]]; [done|by rewrite lookup_empty in Hs].
Qed.
Definition ask (action : string) : option (gmap bytes json) := Some (<[str "Action" := JStr (str action)]> ∅).

Lemma request_answered_witness : exists ws' r' m,
  OnDataHandle (H2 := prefix_crypto) sample_cfg small_conf sample_ripemd open_access no_record [] 1 (ask "getblockheight") (two_connected, asked) = Ok (ws', r', true) /\
  ws_log ws' = [(1%positive, m)] /\ wm_Desc m = Desc (wm_Error m).
Proof.
  assert (Hb : match OnDataHandle (H2 := prefix_crypto) sample_cfg small_conf sample_ripemd open_access no_record [] 1 (ask "getblockheight") (two_connected, asked) with
               | Ok (_, b) => b | _ => false end = true) by (vm_compute; reflexivity).
  destruct (OnDataHandle (H2 := prefix_crypto) sample_cfg small_conf sample_ripemd open_access no_record [] 1 (ask "getblockheight") (two_connected, asked))
    as [[[ws' r'] b]| |] eqn:E; [|discriminate Hb..]. subst b.
  destruct (request_answered (H2 := prefix_crypto) sample_cfg small_conf sample_ripemd open_access no_record [] two_connected ws' asked r' 1
    (newSession 100 (str "a")) (ask "getblockheight") true two_connected_wf eq_refl E) as [(m & Hm & Hd & _) _].
  exists ws', r', m. split; [done|]. split; [exact Hm|exact Hd].
Defined.

Lemma silent_sessions_witness :
  mapOnlineList (checkSessionsTimeout 250 two_connected) !! str "a" = None /\
  mapOnlineList (checkSessionsTimeout 250 two_connected) !! str "b" = Some 2%positive /\
  TxHashMap (handler_exit 1 (checkSessionsTimeout 250 two_connected)) !! str "tx" = Some (str "a").
Proof.
  destruct (silent_sessions 250 two_connected 1 (newSession 100 (str "a")) two_connected_wf eq_refl eq_refl) as (E1 & _ & E2).
  destruct (silent_sessions 250 two_connected 2 (newSession 200 (str "b")) two_connected_wf eq_refl eq_refl) as (E3 & _).
  split; [exact E1|]. split; [exact E3|]. exact (proj1 (E2 (str "tx") eq_refl) eq_refl).
Defined.

Lemma sessions_consistent_witness :
  rtc (ws_step (H2 := prefix_crypto) sample_cfg small_conf sample_ripemd open_access no_record) (InitWsServer, asked) (checkSessionsTimeout 250 one_connected, asked) /\
  (mapOnlineList (checkSessionsTimeout 250 one_connected) !! str "a" = Some 1%positive <->
    exists s, ws_heap (checkSessionsTimeout 250 one_connected) !! 1%positive = Some s /\ sSessionId s = str "a" /\ mConnection s = true).
Proof.
  assert (R : rtc (ws_step (H2 := prefix_crypto) sample_cfg small_conf sample_ripemd open_access no_record) (InitWsServer, asked) (checkSessionsTimeout 250 one_connected, asked)).
  { eapply rtc_l; [apply (step_connect _ _ _ _ _ 100 1 (str "a")); [done|done|intros q s Hs; change ((∅ : gmap positive Session) !! q = Some s) in Hs; by rewrite lookup_empty in Hs]|].
    eapply rtc_l; [apply (step_tick _ _ _ _ _ 250)|]. apply rtc_refl. }
  split; [exact R|]. exact (proj1 (sessions_consistent (H2 := prefix_crypto) sample_cfg small_conf sample_ripemd open_access no_record asked asked _ R) (str "a") 1%positive).
Defined.

Definition record_command : gmap bytes json := <[str "Raw" := JStr (str "1")]> (<[str "RecordData" := JStr (str "0102")]> ∅).
Lemma record_refused_witness : exists s' resp,
  SendRecord (H2 := prefix_crypto) sample_cfg small_conf sample_ripemd no_record (str "{}") record_command asked = Ok (s', resp) /\ s' = asked /\
  (rs_Error resp = ErrCode_value ErrInvalidInput \/ rs_Error resp = ErrCode_value ErrTransactionSize).
Proof.
  assert (Hb : match SendRecord (H2 := prefix_crypto) sample_cfg small_conf sample_ripemd no_record (str "{}") record_command asked with Ok _ => true | _ => false end = true) by (vm_compute; reflexivity).
  destruct (SendRecord (H2 := prefix_crypto) sample_cfg small_conf sample_ripemd no_record (str "{}") record_command asked) as [[s' resp]| |] eqn:E; [|discriminate Hb..].
  destruct (record_refused (H0 := prefix_crypto) sample_cfg small_conf sample_ripemd no_record (str "{}") record_command asked s' resp E) as [Es Hr].
  exists s', resp. split; [done|]. split; [exact Es|]. exact (proj1 Hr).
Defined.
