(* ===== verification/Push.v ===== *)
(** [net/httpwebsocket/server.go], the switches of [net/httprestful] and its
    requests with the check of the access token: what is pushed to whom, and who
    may change it.

    [ws] is the WebSocket server once one was made.  Starting and stopping the
    listeners is what the last component of [setWebsocketState] asks for. *)

From S2P Require Import Prelude Sha256 Serialization Common Fixed64 Transaction Merkle AuxPow Block.
From S2P Require Import Store Utxo Difficulty MedianTime Vm Address PubKey Contract Message Link Peers Validator Wallet Sdk TxPool Blockchain Ledger Pow Mining Node Handlers Sync Network Requests Rpc Rest Answers Websocket.

(** * Regular expressions *)

(** [regexp], as far as the pattern of a URL needs it: classes of characters. *)
Inductive re := Eps | Void | Cls (p : Z -> bool) | Seq (a b : re) | Alt (a b : re) | Star (a : re).
Inductive re_in : re -> bytes -> Prop :=
  | in_eps : re_in Eps []
  | in_cls p c : p c = true -> re_in (Cls p) [c]
  | in_seq a b s t : re_in a s -> re_in b t -> re_in (Seq a b) (s ++ t)
  | in_alt_l a b s : re_in a s -> re_in (Alt a b) s
  | in_alt_r a b s : re_in b s -> re_in (Alt a b) s
  | in_star_nil a : re_in (Star a) []
  | in_star_cons a s t : re_in a s -> re_in (Star a) t -> re_in (Star a) (s ++ t).
Fixpoint nullable (r : re) : bool :=
  match r with Eps | Star _ => true | Void | Cls _ => false | Seq a b => nullable a && nullable b | Alt a b => nullable a || nullable b end.
Fixpoint deriv (c : Z) (r : re) : re :=
  match r with
  | Eps | Void => Void
  | Cls p => if p c then Eps else Void
  | Seq a b => if nullable a then Alt (Seq (deriv c a) b) (deriv c b) else Seq (deriv c a) b
  | Alt a b => Alt (deriv c a) (deriv c b)
  | Star a => Seq (deriv c a) (Star a)
  end.
(** A part of the text, at its start or anywhere, matches. *)
Fixpoint re_prefix (r : re) (s : bytes) : bool := nullable r || match s with [] => false | c :: s => re_prefix (deriv c r) s end.
Fixpoint re_Match (r : re) (s : bytes) : bool := re_prefix r s || match s with [] => false | _ :: s => re_Match r s end.

Lemma seq_inv a b w : re_in (Seq a b) w -> exists s t, w = s ++ t /\ re_in a s /\ re_in b t.
Proof. inversion 1; subst; eauto. Qed.
Lemma nullable_spec r : nullable r = true <-> re_in r [].
Proof.
  induction r as [| |p|a IHa b IHb|a IHa b IHb|a IHa]; cbn [nullable].
  - split; [constructor|done].
  - split; [done|]. intros H. inversion H.
  - split; [done|]. intros H. inversion H.
  - rewrite andb_true_iff, IHa, IHb. split; [intros [H1 H2]; exact (in_seq a b [] [] H1 H2)|].
    intros (s & t & E & H1 & H2)%seq_inv. symmetry in E. apply app_eq_nil in E as [-> ->]. done.
  - rewrite orb_true_iff, IHa, IHb. split; [intros [H|H]; by constructor|]. intros H. inversion H; subst; auto.
  - split; [constructor|done].
Qed.
Lemma deriv_spec c r : forall s, re_in (deriv c r) s <-> re_in r (c :: s).
Proof.
  assert (V : forall s, ~ re_in Void s) by (intros s H; inversion H).
  induction r as [| |p|a IHa b IHb|a IHa b IHb|a IHa]; intros s; cbn [deriv].
  - split; [intros H; by apply V in H|intros H; inversion H].
  - split; intros H; by apply V in H.
  - destruct (p c) eqn:E; split; intros H; try by apply V in H.
    + inversion H; subst. by constructor.
    + inversion H; subst. constructor.
    + inversion H; subst. congruence.
  - assert (Q : re_in (Seq (deriv c a) b) s <-> exists u v, s = u ++ v /\ re_in a (c :: u) /\ re_in b v).
    { split; [intros (u & v & -> & H1 & H2)%seq_inv; exists u, v; by rewrite <- IHa|].
      intros (u & v & -> & H1 & H2). constructor; [by apply IHa|done]. }
    assert (R : re_in (Seq a b) (c :: s) <-> (exists u v, s = u ++ v /\ re_in a (c :: u) /\ re_in b v) \/ (re_in a [] /\ re_in b (c :: s))).
    { split.
      - intros (u & v & E & H1 & H2)%seq_inv. destruct u as [|x u]; [right; cbn in E; by subst|].
        injection E as -> ->. left. by exists u, v.
      - intros [(u & v & -> & H1 & H2)|[H1 H2]]; [exact (in_seq a b (c :: u) v H1 H2)|exact (in_seq a b [] (c :: s) H1 H2)]. }
    rewrite R, <- Q, <- nullable_spec. destruct (nullable a).
    + split; [intros H; inversion H; subst; [by left|right; by rewrite <- IHb]|]. intros [H|[_ H]]; [by apply in_alt_l|apply in_alt_r; by apply IHb].
    + split; [by left|]. by intros [H|[H _]].
  - split; intros H; inversion H; subst; (apply in_alt_l; by apply IHa) || (apply in_alt_r; by apply IHb).
  - split.
    + intros (u & v & -> & H1 & H2)%seq_inv. apply IHa in H1. exact (in_star_cons a (c :: u) v H1 H2).
    + remember (Star a) as r eqn:Er. remember (c :: s) as t eqn:Et. intros H. revert a s IHa Er Et.
      induction H as [| | | | | |a' u v H1 _ H2 IH]; intros a0 s0 IH0 Er Et; try discriminate.
      injection Er as ->. destruct u as [|x u]; [by apply IH|]. injection Et as -> <-. constructor; [by apply IH0|done].
Qed.
Lemma re_prefix_spec s : forall r, re_prefix r s = true <-> exists u v, s = u ++ v /\ re_in r u.
Proof.
  induction s as [|c s IH]; intros r; cbn [re_prefix]; rewrite orb_true_iff, nullable_spec.
  - split; [intros [H|?]; [by exists [], []|done]|]. intros (u & v & E & H). symmetry in E. apply app_eq_nil in E as [-> ->]. by left.
  - rewrite IH. split.
    + intros [H|(u & v & -> & H)]; [by exists [], (c :: s)|]. exists (c :: u), v. split; [done|]. by apply deriv_spec.
    + intros ([|x u] & v & E & H); [by left|]. injection E as -> ->. right. exists u, v. split; [done|]. by apply deriv_spec.
Qed.
(** Some part of the text is in the language. *)
Lemma re_Match_spec r s : re_Match r s = true <-> exists pre u post, s = pre ++ u ++ post /\ re_in r u.
Proof.
  induction s as [|c s IH]; cbn [re_Match]; rewrite orb_true_iff, re_prefix_spec.
  - split; [intros [(u & v & E & H)|?]; [exists [], u, v; done|done]|]. intros (pre & u & post & E & H). left. exists u, post.
    symmetry in E. apply app_eq_nil in E as [-> E]. done.
  - rewrite IH. split.
    + intros [(u & v & E & H)|(pre & u & post & -> & H)]; [by exists [], u, v|by exists (c :: pre), u, post].
    + intros ([|x pre] & u & post & E & H); [left; by exists u, post|]. injection E as -> ->. right. by exists pre, u, post.
Qed.

(** * The pattern of a URL *)

Fixpoint re_text (s : bytes) : re := match s with [] => Eps | c :: s => Seq (Cls (Z.eqb c)) (re_text s) end.
Definition re_plus (r : re) : re := Seq r (Star r).
Fixpoint re_upto (n : nat) (r : re) : re := match n with O => Eps | S n => Alt Eps (Seq r (re_upto n r)) end.
(** Between [m] and [m + n] times. *)
Fixpoint re_times (m n : nat) (r : re) : re := match m with O => re_upto n r | S m => Seq r (re_times m n r) end.
Definition is_digit (c : Z) : bool := (48 <=? c) && (c <=? 57).
Definition is_letter (c : Z) : bool := ((65 <=? c) && (c <=? 90)) || ((97 <=? c) && (c <=? 122)).
(** [a-zA-Z0-9\._-] and [a-zA-Z0-9\&%_\./-~-]; the latter has the range from [/] to [~]. *)
Definition is_host (c : Z) : bool := is_letter c || is_digit c || (c =? 46) || (c =? 95) || (c =? 45).
Definition is_pathchar (c : Z) : bool := is_letter c || is_digit c || (c =? 38) || (c =? 37) || (c =? 95) || (c =? 46) || ((47 <=? c) && (c <=? 126)) || (c =? 45).
Definition dot : re := Cls (Z.eqb 46).
Definition url_pattern : re :=
  let number := re_times 1 2 (Cls is_digit) in
  Seq (Seq (Alt (re_text (str "http")) (re_text (str "https"))) (re_text (str "://")))
  (Seq (Alt (Seq (re_plus (Cls is_host)) (Seq dot (re_times 2 4 (Cls is_letter))))
            (Seq number (Seq dot (Seq number (Seq dot (Seq number (Seq dot number)))))))
  (Seq (Star (Seq (Cls (Z.eqb 58)) (re_times 1 3 (Cls is_digit))))
       (Alt Eps (Seq (Cls (Z.eqb 47)) (Star (Cls is_pathchar)))))).
Example url_examples : map (re_Match url_pattern) [str "http://127.0.0.1:8080/a"; str "https://dna.org"; str "x http://a.bc"; str "ftp://dna.org"; str "http://a"] =
  [true; true; true; false; false].
Proof. vm_compute. reflexivity. Qed.

(** * The switches *)

Record push_state := mkPush {
  OauthServerUrl : bytes; NoticeServerUrl : bytes; notice_pushBlock : bool;
  pushBlockFlag : bool; pushRawBlockFlag : bool; pushBlockTxsFlag : bool; pushNewTxsFlag : bool;
  HttpWsPort : Z; ps_ws : option WsServer }.
Definition set_OauthServerUrl (v : bytes) (s : push_state) : push_state :=
  mkPush v (NoticeServerUrl s) (notice_pushBlock s) (pushBlockFlag s) (pushRawBlockFlag s) (pushBlockTxsFlag s) (pushNewTxsFlag s) (HttpWsPort s) (ps_ws s).
Definition set_NoticeServerUrl (v : bytes) (s : push_state) : push_state :=
  mkPush (OauthServerUrl s) v (notice_pushBlock s) (pushBlockFlag s) (pushRawBlockFlag s) (pushBlockTxsFlag s) (pushNewTxsFlag s) (HttpWsPort s) (ps_ws s).
Definition set_notice_pushBlock (v : bool) (s : push_state) : push_state :=
  mkPush (OauthServerUrl s) (NoticeServerUrl s) v (pushBlockFlag s) (pushRawBlockFlag s) (pushBlockTxsFlag s) (pushNewTxsFlag s) (HttpWsPort s) (ps_ws s).
Definition set_ws_flags (block raw txs new : bool) (port : Z) (s : push_state) : push_state :=
  mkPush (OauthServerUrl s) (NoticeServerUrl s) (notice_pushBlock s) block raw txs new port (ps_ws s).
Definition set_ps_ws (v : option WsServer) (s : push_state) : push_state :=
  mkPush (OauthServerUrl s) (NoticeServerUrl s) (notice_pushBlock s) (pushBlockFlag s) (pushRawBlockFlag s) (pushBlockTxsFlag s) (pushNewTxsFlag s) (HttpWsPort s) v.
(** The flags a program starts with. *)
Definition push_init (oauth notice : bytes) (port : Z) : push_state := mkPush oauth notice true true false false true port None.

Definition bool_field (cmd : gmap bytes json) (name : string) : option bool := match cmd !! str name with Some (JBool b) => Some b | _ => None end.
Definition GetOauthServerUrl (s : push_state) : response := success (VText (OauthServerUrl s)).
Definition SetOauthServerUrl (cmd : gmap bytes json) (s : push_state) : push_state * response :=
  match field cmd "Url" with
  | None => (s, ResponsePack INVALID_PARAMS)
  | Some addr =>
      if (0 <? length addr)%nat && negb (re_Match url_pattern addr) then (s, ResponsePack INVALID_PARAMS)
      else (set_OauthServerUrl addr s, success (VText addr))
  end.
Definition GetNoticeServerUrl (s : push_state) : response := success (VText (NoticeServerUrl s)).
Definition SetNoticeServerUrl (cmd : gmap bytes json) (s : push_state) : push_state * response :=
  match field cmd "Url" with
  | None => (s, ResponsePack INVALID_PARAMS)
  | Some addr =>
      if (length addr =? 0)%nat || negb (re_Match url_pattern addr) then (s, ResponsePack INVALID_PARAMS)
      else (set_NoticeServerUrl addr s, success (VText addr))
  end.
Definition CheckPushBlock (s : push_state) : bool := notice_pushBlock s.
Definition SetPushBlockFlag (cmd : gmap bytes json) (s : push_state) : push_state * response :=
  match bool_field cmd "Open" with
  | None => (s, ResponsePack INVALID_PARAMS)
  | Some open => (set_notice_pushBlock open s, success (VBool open))
  end.
(** [true]: the server is (re)started, [false]: it is stopped. *)
Definition setWebsocketState (cmd : gmap bytes json) (s : push_state) : push_state * response * option bool :=
  match bool_field cmd "Open" with
  | None => (s, ResponsePack INVALID_PARAMS, None)
  | Some startFlag =>
      let s := set_ws_flags (default (pushBlockFlag s) (bool_field cmd "PushBlock")) (default (pushRawBlockFlag s) (bool_field cmd "PushRawBlock"))
                 (default (pushBlockTxsFlag s) (bool_field cmd "PushBlockTxs")) (default (pushNewTxsFlag s) (bool_field cmd "PushNewTransaction"))
                 (match cmd !! str "Port" with Some (JNum n) => if n =? 0 then HttpWsPort s else n | _ => HttpWsPort s end) s in
      let s := if startFlag then set_ps_ws (Some (default InitWsServer (ps_ws s))) s else s in
      (s, success (VWsState startFlag (HttpWsPort s) (pushBlockFlag s) (pushRawBlockFlag s) (pushBlockTxsFlag s)), Some startFlag)
  end.

(** * Pushing *)

Definition push_SetTxHashMap (txhash sessionid : bytes) (s : push_state) : push_state :=
  match ps_ws s with None => s | Some ws => set_ps_ws (Some (SetTxHashMap txhash sessionid ws)) s end.
Definition push_result (action : string) (r : response) (s : push_state) : push_state :=
  match ps_ws s with None => s | Some ws => set_ps_ws (Some (PushResult (str action) r ws)) s end.
Definition PushSmartCodeInvokeResult (txHash : Uint256) (errcode : Z) (result : rest_value) (s : push_state) : push_state :=
  match ps_ws s with
  | None => s
  | Some ws => set_ps_ws (Some (PushTxResult (BytesToHexString (ToArray txHash)) (str "sendsmartcodeinvoke") (mkResponse result errcode None) ws)) s
  end.

Section Push.
Context {DB : Type} `{IStore DB} `{IIterator DB} `{IBase58} `{ICrypto}.
Context (cfg : Config) (nc : NetConfig) (ripemd160 : bytes -> bytes).

(** [None]: a panic. *)
Definition PushBlock (bc : Blockchain DB) (b : Block) (s : push_state) : option push_state :=
  match ps_ws s with
  | None => Some s
  | Some _ =>
      v ← (if pushRawBlockFlag s then w ← Block_Serialize b; Some (VText (BytesToHexString w)) else i ← GetBlockInfo bc b; Some (VBlock i));
      Some (push_result "sendrawblock" (success v) s)
  end.
Definition PushNewTransaction (bc : Blockchain DB) (t : Transaction) (s : push_state) : option push_state :=
  match ps_ws s with
  | None => Some s
  | Some _ =>
      v ← (if pushNewTxsFlag s then i ← TransArryByteToHexString (bc_Store bc) t; Some (VTransaction i) else Some (VText []));
      Some (push_result "sendblocktransactions" (success v) s)
  end.
Definition PushBlockTransactions (b : Block) (s : push_state) : option push_state :=
  match ps_ws s with
  | None => Some s
  | Some _ =>
      v ← (if pushBlockTxsFlag s then GetBlockTransactions b else Some (VText []));
      Some (push_result "sendblocktransactions" (success v) s)
  end.
(** The goroutines of an event, one after the other. *)
Definition SendTransaction2WSclient (bc : Blockchain DB) (t : Transaction) (s : push_state) : option push_state :=
  if negb (HttpWsPort s =? 0) && pushNewTxsFlag s then PushNewTransaction bc t s else Some s.
Definition SendBlock2WSclient (bc : Blockchain DB) (b : Block) (s : push_state) : option push_state :=
  s ← (if negb (HttpWsPort s =? 0) && pushBlockFlag s then PushBlock bc b s else Some s);
  if negb (HttpWsPort s =? 0) && pushBlockTxsFlag s then PushBlockTransactions b s else Some s.
(** What is posted to the notice server, if anything. *)
Definition SendBlock2NoticeServer (s : push_state) : rpcM (DB := DB) (option response) :=
  if (length (NoticeServerUrl s) =? 0)%nat || negb (CheckPushBlock s) then mret None else
  bc ← chain;
  r ← GetBlockByHeight (put_text "Height" (FormatInt (BlockHeight bc)) ∅);
  mret (Some r).

(** * Requests with their access check *)

Context (oauth : bytes -> oauth_outcome) (marshal : gmap bytes json -> bytes -> option bytes) (innerTime : bytes).
#[local] Abbreviation state := (push_state * rpc (DB := DB))%type.
Definition on_node_side {A} (s : push_state) (m : outcome (rpc (DB := DB) * A)) : outcome (state * A) :=
  match m with Ok (r, a) => Ok (s, r, a) | Panic => Panic | Unmodelled => Unmodelled end.
Definition rest_get (auth_type access_token : bytes) (param form : string -> bytes) (path : bytes) (st : state) : outcome (state * response) :=
  let '(s, r) := st in
  let '(CAkey, errCode) := CheckAccessToken oauth (OauthServerUrl s) auth_type access_token in
  if (0 <? errCode) && negb (bool_decide (path = Api_OauthServerUrl)) then Ok (st, ResponsePack errCode) else
  let url := getPath path in
  if bool_decide (url = Api_OauthServerUrl) then Ok (st, GetOauthServerUrl s) else
  if bool_decide (url = Api_NoticeServerUrl) then Ok (st, GetNoticeServerUrl s) else
  if bool_decide (url = Api_Restart) then Ok (st, ResponsePack SUCCESS) else
  on_node_side s (handle_get cfg (fun _ _ _ => run Unmodelled) CAkey param form path r).
Definition rest_post (auth_type access_token : bytes) (body : option (gmap bytes json)) (param form : string -> bytes) (path : bytes) (st : state) : outcome (state * response) :=
  let '(s, r) := st in
  let '(CAkey, errCode) := CheckAccessToken oauth (OauthServerUrl s) auth_type access_token in
  if (0 <? errCode) && negb (bool_decide (path = Api_OauthServerUrl)) then Ok (st, ResponsePack errCode) else
  let url := getPath path in
  if negb (bool_decide (url ∈ postMap)) then Ok (st, ResponsePack INVALID_METHOD) else
  match body with
  | None => Ok (st, ResponsePack ILLEGAL_DATAFORMAT)
  | Some req =>
      let req := getParams param form url (put_text "CAkey" CAkey req) in
      if bool_decide (url = Api_SendRawTx) then
        match post_sendRawTransaction cfg nc ripemd160 req r with
        | Ok (r, (resp, user)) => Ok (match user with Some (h, u) => push_SetTxHashMap h u s | None => s end, r, resp)
        | Panic => Panic
        | Unmodelled => Unmodelled
        end
      else if bool_decide (url = Api_SendRcdTxByTrans) then on_node_side s (SendRecord cfg nc ripemd160 marshal innerTime req r)
      else if bool_decide (url = Api_OauthServerUrl) then let '(s, resp) := SetOauthServerUrl req s in Ok (s, r, resp)
      else if bool_decide (url = Api_NoticeServerUrl) then let '(s, resp) := SetNoticeServerUrl req s in Ok (s, r, resp)
      else if bool_decide (url = Api_NoticeServerState) then let '(s, resp) := SetPushBlockFlag req s in Ok (s, r, resp)
      else let '(s, resp, _) := setWebsocketState req s in Ok (s, r, resp)
  end.
End Push.

(** * Who is told, and who may ask *)

(** A broadcast reaches every open session once. *)
Lemma broadcast_spec ws m : ws_wf ws -> broadcast m ws = mkWs (ws_heap ws) (mapOnlineList ws) (TxHashMap ws) (ws_log ws ++ map (fun p => (p, m)) (sessions ws)).
Proof.
  intros W. unfold broadcast, ForEachSession. assert (Hl : forall p, p ∈ sessions ws -> exists id, mapOnlineList ws !! id = Some p) by (intros p Hp; by apply in_sessions).
  revert Hl. generalize (sessions ws) as l. intros l Hl.
  assert (G : forall l ws0, (forall p, p ∈ l -> exists id, mapOnlineList ws !! id = Some p) -> ws_heap ws0 = ws_heap ws ->
    foldl (fun ws p => session_Send p m ws) ws0 l = mkWs (ws_heap ws0) (mapOnlineList ws0) (TxHashMap ws0) (ws_log ws0 ++ map (fun p => (p, m)) l)).
  { clear l Hl. induction l as [|p l IH]; intros ws0 Hl Eh; cbn [foldl map]; [rewrite app_nil_r; by destruct ws0|].
    destruct (Hl p ltac:(apply list_elem_of_here)) as [id Hid]. pose proof Hid as Hid'. apply (wf_listed ws W) in Hid as (s & Hs & Hi & Hn).
    unfold session_Send at 2. rewrite Eh, Hs, (proj2 (wf_open ws W p s Hs)) by congruence.
    rewrite IH; [unfold write_message; cbn [ws_heap mapOnlineList TxHashMap ws_log]; by rewrite <- app_assoc, Eh|intros q Hq; apply Hl; by apply list_elem_of_further|done]. }
  by apply G.
Qed.
Lemma NoDup_sessions ws : ws_wf ws -> NoDup (sessions ws).
Proof.
  intros W. unfold sessions. apply NoDup_fmap_2_strong; [|apply NoDup_map_to_list].
  intros [i p] [j q] Hi Hj E. cbn in E. subst q. apply elem_of_map_to_list in Hi, Hj.
  apply (wf_listed ws W) in Hi as (s & Hs & Ei & _), Hj as (s' & Hs' & Ej & _). congruence.
Qed.

(** Without a token that the OAuth server vouches for, a request changes nothing
    and is told so - with one exception: the path of the OAuth server itself, where
    anybody can take the server away, after which every token is accepted.  A server
    that does not answer is reported as a bad token; a time-out is only reported for a
    token that makes no URL. *)
Theorem access_checked {DB : Type} `{IStore DB} `{IIterator DB} `{IBase58} `{ICrypto} (cfg : Config) (nc : NetConfig) (ripemd160 : bytes -> bytes)
    (oauth : bytes -> oauth_outcome) (marshal : gmap bytes json -> bytes -> option bytes) (innerTime : bytes)
    (s : push_state) (r : rpc (DB := DB)) (auth_type access_token path : bytes) (param form : string -> bytes) :
  let code := (CheckAccessToken oauth (OauthServerUrl s) auth_type access_token).2 in
  (code = SUCCESS <-> OauthServerUrl s = [] \/ exists key, oauth (oauth_url (OauthServerUrl s) access_token auth_type) = Reply (mkOauth true (Some (Some key)))) /\
  (oauth (oauth_url (OauthServerUrl s) access_token auth_type) = NoReply -> OauthServerUrl s <> [] -> code = INVALID_TOKEN) /\
  (code <> SUCCESS -> path <> Api_OauthServerUrl ->
     rest_get cfg oauth auth_type access_token param form path (s, r) = Ok (s, r, ResponsePack code) /\
     forall body, rest_post cfg nc ripemd160 oauth marshal innerTime auth_type access_token body param form path (s, r) = Ok (s, r, ResponsePack code)) /\
  (exists resp, rest_post cfg nc ripemd160 oauth marshal innerTime auth_type access_token (Some (put_text "Url" [] ∅)) param form Api_OauthServerUrl (s, r) =
     Ok (set_OauthServerUrl [] s, r, resp) /\ rs_Error resp = SUCCESS) /\
  (forall a t, (CheckAccessToken oauth (OauthServerUrl (set_OauthServerUrl [] s)) a t).2 = SUCCESS).
Proof.
  cbn zeta. assert (Hpos : (CheckAccessToken oauth (OauthServerUrl s) auth_type access_token).2 <> SUCCESS ->
    (0 <? (CheckAccessToken oauth (OauthServerUrl s) auth_type access_token).2) = true).
  { unfold CheckAccessToken, OauthRequest. destruct (length (OauthServerUrl s) =? 0)%nat; [cbn; intros Hf; by destruct Hf|].
    destruct (oauth _) as [| |[[] [[k|]|]]]; cbn; intros Hf; first [reflexivity|by destruct Hf]. }
  split; [|split; [|split; [|split]]].
  - unfold CheckAccessToken, OauthRequest. destruct (OauthServerUrl s) as [|c u] eqn:Eu; cbn [length Nat.eqb]; [split; [by left|done]|].
    destruct (oauth _) as [| |[z res]] eqn:Eo; cbn; try (split; [discriminate|by intros [?|(? & ?)]]).
    destruct z, res as [[k|]|]; cbn; (split; [try discriminate; intros _; right; by exists k|intros [?|(? & ?)]; congruence || done]).
  - intros Eo Hn. unfold CheckAccessToken, OauthRequest. rewrite Eo. by destruct (OauthServerUrl s).
  - intros Hc Hp. specialize (Hpos Hc). unfold rest_get, rest_post.
    destruct (CheckAccessToken oauth (OauthServerUrl s) auth_type access_token) as [k code]. cbn [snd] in *. rewrite Hpos.
    rewrite bool_decide_false by done. done.
  - unfold rest_post. destruct (CheckAccessToken _ _ _ _) as [k code]. rewrite bool_decide_true by done. rewrite andb_false_r.
    change (getPath Api_OauthServerUrl) with Api_OauthServerUrl. rewrite (bool_decide_true (Api_OauthServerUrl ∈ postMap)) by (by apply list_elem_of_In; right; right; left).
    cbn [negb]. eexists. split; [reflexivity|done].
  - done.
Qed.

Lemma push_result_spec action r s ws : ws_wf ws -> ps_ws s = Some ws ->
  push_result action r s = set_ps_ws (Some (mkWs (ws_heap ws) (mapOnlineList ws) (TxHashMap ws) (ws_log ws ++ map (fun p => (p, message (str action) r)) (sessions ws)))) s.
Proof. intros W E. unfold push_result, PushResult. by rewrite E, broadcast_spec. Qed.

(** When a block was stored, every open session of the WebSocket server is
    written one message for each switch that is on - the block, in hexadecimal or
    described, and the hashes of its transactions - and nothing else; with both off,
    or without a port or a server, nothing is written. *)
Theorem block_pushed {DB : Type} `{IStore DB} `{IIterator DB} `{IBase58} `{ICrypto} (bc : Blockchain DB) (b : Block) (s s' : push_state) (ws : WsServer) :
  ws_wf ws -> ps_ws s = Some ws -> SendBlock2WSclient bc b s = Some s' ->
  exists ms ws', ps_ws s' = Some ws' /\ ws_heap ws' = ws_heap ws /\ mapOnlineList ws' = mapOnlineList ws /\
    ws_log ws' = ws_log ws ++ concat (map (fun m => map (fun p => (p, m)) (sessions ws)) ms) /\
    map wm_Action ms = (if HttpWsPort s =? 0 then [] else
      (if pushBlockFlag s then [str "sendrawblock"] else []) ++ (if pushBlockTxsFlag s then [str "sendblocktransactions"] else [])) /\
    NoDup (sessions ws) /\ (forall p, p ∈ sessions ws <-> exists x, ws_heap ws !! p = Some x /\ mConnection x = true).
Proof.
  intros W Ews E.
  assert (Hs : NoDup (sessions ws) /\ (forall p, p ∈ sessions ws <-> exists x, ws_heap ws !! p = Some x /\ mConnection x = true)).
  { split; [by apply NoDup_sessions|]. intros p. rewrite in_sessions. split.
    - intros [id Hid]. pose proof Hid as Hid'. apply (wf_listed ws W) in Hid as (x & Hx & Hi & Hn). exists x. split; [done|]. apply (wf_open ws W p x Hx). congruence.
    - intros (x & Hx & Hc). exists (sSessionId x). apply (wf_listed ws W). exists x. split; [done|]. split; [done|]. by apply (wf_open ws W p x Hx). }
  unfold SendBlock2WSclient in E.
  assert (exists ms s1 ws1, (if negb (HttpWsPort s =? 0) && pushBlockFlag s then PushBlock bc b s else Some s) = Some s1 /\
    ps_ws s1 = Some ws1 /\ HttpWsPort s1 = HttpWsPort s /\ pushBlockTxsFlag s1 = pushBlockTxsFlag s /\
    ws1 = mkWs (ws_heap ws) (mapOnlineList ws) (TxHashMap ws) (ws_log ws ++ concat (map (fun m => map (fun p => (p, m)) (sessions ws)) ms)) /\
    map wm_Action ms = (if HttpWsPort s =? 0 then [] else if pushBlockFlag s then [str "sendrawblock"] else [])) as (ms & s1 & ws1 & E1 & Ew1 & Ep1 & Ef1 & Hw1 & Hm).
  { destruct (if negb (HttpWsPort s =? 0) && pushBlockFlag s then PushBlock bc b s else Some s) as [s1|] eqn:E1; [|done].
    destruct (HttpWsPort s =? 0) eqn:Ep; cbn [negb andb] in E1.
    { injection E1 as <-. exists [], s, ws. rewrite app_nil_r. destruct ws; done. }
    destruct (pushBlockFlag s); [|injection E1 as <-; exists [], s, ws; rewrite app_nil_r; destruct ws; done].
    unfold PushBlock in E1. rewrite Ews in E1. destruct (if pushRawBlockFlag s then _ else _) as [v|]; [|done]. cbn [mbind option_bind] in E1. injection E1 as <-.
    exists [message (str "sendrawblock") (success v)]. rewrite (push_result_spec _ _ s ws W Ews). eexists _, _. split; [reflexivity|].
    split; [reflexivity|]. cbn [concat map]. rewrite app_nil_r. done. }
  rewrite E1 in E. cbn [mbind option_bind] in E. rewrite Ep1, Ef1 in E.
  assert (W1 : ws_wf ws1) by (subst ws1; by apply (ws_wf_same ws)).
  assert (Es1 : sessions ws1 = sessions ws) by (by subst ws1).
  destruct (HttpWsPort s =? 0); cbn [negb andb] in E.
  { injection E as <-. exists ms, ws1. subst ws1. cbn. split; [done|]. split; [done|]. split; [done|]. split; [done|]. split; [done|exact Hs]. }
  destruct (pushBlockTxsFlag s) eqn:Ex.
  2: { injection E as <-. exists ms, ws1. rewrite app_nil_r. subst ws1. cbn. split; [done|]. split; [done|]. split; [done|]. split; [done|]. split; [done|exact Hs]. }
  unfold PushBlockTransactions in E. rewrite Ew1, Ef1 in E. destruct (GetBlockTransactions b) as [v|]; [|done]. cbn [mbind option_bind] in E. injection E as <-.
  exists (ms ++ [message (str "sendblocktransactions") (success v)]). rewrite (push_result_spec _ _ s1 ws1 W1 Ew1). eexists. split; [reflexivity|].
  rewrite Es1. subst ws1. cbn [ws_heap mapOnlineList ws_log]. split; [done|]. split; [done|]. split.
  { rewrite map_app, concat_app. cbn [map concat]. by rewrite app_nil_r, <- app_assoc. }
  split; [by rewrite map_app, Hm|exact Hs].
Qed.

Definition pushing : push_state := set_ps_ws (Some two_connected) (set_ws_flags true true true true 20335 (push_init [] [] 0)).
Lemma block_pushed_witness : exists s' ms,
  SendBlock2WSclient (w_chain (rpc_node asked)) sample_block pushing = Some s' /\
  map wm_Action ms = [str "sendrawblock"; str "sendblocktransactions"].
Proof.
  assert (Hb : match SendBlock2WSclient (w_chain (rpc_node asked)) sample_block pushing with Some _ => true | None => false end = true) by (vm_compute; reflexivity).
  destruct (SendBlock2WSclient (w_chain (rpc_node asked)) sample_block pushing) as [s'|] eqn:E; [|discriminate Hb].
  destruct (block_pushed (H2 := prefix_crypto) (w_chain (rpc_node asked)) sample_block pushing s' two_connected two_connected_wf eq_refl E) as (ms & ws' & _ & _ & _ & _ & Hm & _).
  exists s', ms. split; [done|exact Hm].
Defined.

Lemma access_checked_witness :
  rest_get (H0 := _) sample_cfg (fun _ => NoReply) [] (str "t") (fun _ => []) (fun _ => []) Api_Getblockheight (set_OauthServerUrl (str "http://a.bc") pushing, asked) =
    Ok (set_OauthServerUrl (str "http://a.bc") pushing, asked, ResponsePack INVALID_TOKEN).
Proof.
  apply (access_checked (H2 := prefix_crypto) sample_cfg small_conf sample_ripemd (fun _ => NoReply) no_record [] (set_OauthServerUrl (str "http://a.bc") pushing) asked [] (str "t")
    Api_Getblockheight (fun _ => []) (fun _ => [])); done.
Defined.
